(* ===== verification/_CoqProject ===== *)
-Q . S2P
Prelude.v
Words.v
Ring.v
PhysPages.v
PageTables.v
MemoryMap.v
FrameAlloc.v
BootPaging.v
ProcessDir.v
PhysRead.v
MemInit.v
BootData.v
Acpi.v
Heap.v
Containers.v
Hash.v
Md5.v
Sha1.v
Rmd160.v
Sha2.v
Digests.v
Quad.v
QDivRem.v
UDivMod.v
Division.v
CMem.v
Images.v
CBytes.v
Ctype.v
CString.v
CSearch.v
Strtol.v
Printf.v
Format.v
Interrupt.v
Ports.v
Pci.v
Pic.v
Terminal.v
Vga.v
Console.v
Keyboard.v
Machine.v
SpinLock.v
Context.v
Thread.v
Sched.v
Watchdog.v
Clock.v
Dispatch.v
Monitor.v
