(* ===== verification/Prelude.v ===== *)
(** * A verification library for the ESRTK kernel

    ESRTK is a small preemptive kernel for 32-bit x86 with its own C library.
    This library translates the parts of it that carry logic of their own into
    executable definitions and proves what they promise.  The files below
    [src/] that are not mentioned here are listed at the end.

    ** The program and its model

    The kernel boots, takes over the page tables and the interrupt table,
    starts a scheduler thread and device drivers, and then runs as a collection
    of interrupt handlers and kernel threads.  From the bottom up:

    - Words.v: machine integers.  The target is ILP32 and little endian; a word
      is an integer of [[0, 2^w)] and [wrap w] follows every operation that can
      leave this range.  [roundTo], [roundDown] and page arithmetic
      (Include/Templates.hh, Include/X86/Parameters.hh).
    - Ring.v: the intrusive circular list that physical pages and heap segments
      are kept on, as a store of [prev]/[next] pointers.
    - PhysPages.v: physical page frames (Include/Platform/PageCluster.hh,
      [Memory::getPage], [Memory::putPage]).
    - PageTables.v: the two-level page tables seen through the recursive
      mapping (X86/PageDirectory.cc): a call takes frames from PhysPages.v.
    - MemoryMap.v: the kernel's address space (Kernel/Memory.cc): regions of
      virtual addresses, built on PageTables.v.
    - FrameAlloc.v, BootPaging.v: the boot-time half: the bitmap allocator
      (Kernel/PageFrameAllocator.cc) and [PageDirectory::init], which builds the
      kernel's directory in its frames before paging is on.  [window] is the
      step from the words of memory to the view PageTables.v works on.
    - ProcessDir.v: the page directories of processes
      ([PageDirectory::createPageDirectory]).
    - PhysRead.v: reading physical memory through a temporary mapping
      ([Memory::readPhysicalMemory]).
    - MemInit.v: [Memory::init], which fills the page lists from the memory map
      and maps the boot stack and the code area.
    - BootData.v: what the boot loader passes, copied: the memory map
      (X86/X86Memory.cc) and the modules (Kernel/Modules.cc).
    - Acpi.v: the search for the ACPI tables and the walk over them
      (X86/Acpi.cc, X86/Ebda.cc); the mapped memory and the controllers that
      are created are the classes [AcpiWorld] and [AcpiLaws].
    - Images.v: the files that become boot modules: mkmodule and mkramdisk
      (Tools/), and [Modules::handleModules], which reads the former.
    - Heap.v: segments, the first-fit allocator, [malloc] and [free]
      (Include/Segment.hh, Include/SegmentList.hh, Kernel/Heap.cc,
      CLibrary/stdlib/malloc.cc).  What it needs of the address space is the
      class [RegionMapper], which MemoryMap.v's [mapAnonymousRegion]
      discharges.
    - Containers.v: the templates of linked lists (Templates/) on the store of
      Ring.v, and the list of file systems (FileSystem/FileSystem.cc) that uses
      them.
    - Hash.v, Md5.v, Sha1.v, Rmd160.v, Sha2.v: message digests
      (CLibrary/hash).  [Digest] is the streaming interface of all of them;
      Digests.v states it for all of them.
    - Quad.v, QDivRem.v, UDivMod.v: 64-bit arithmetic the compiler calls
      (CLibrary/quad, CLibrary/libcompiler_rt); Division.v compares the two
      divisions.
    - CMem.v, CBytes.v, Ctype.v, CString.v, CSearch.v: a byte memory in which
      stray accesses fault, and over it the memory routines, character classes,
      string routines, searches and tokenisers (CLibrary/string,
      CLibrary/ctype, CLibrary/gen).
    - Strtol.v: [strtol], [strtoul] and their 64-bit versions
      (CLibrary/stdlib).
    - Printf.v, Format.v: [printf] and [snprintf] (CLibrary/printf.c); Printf.v
      has the code, the reference and termination, Format.v the correctness.
    - Interrupt.v: the rings of interrupt handlers (Kernel/Interrupt.cc,
      Kernel/InterruptHandler.cc).  Device handlers and the interrupt
      controller are the classes [Devices] and [InterruptController].
    - Ports.v: the [in] and [out] instructions (X86/IoPort.S) as a class of
      operations on the devices' state.
    - Pic.v: the driver of the two 8259A controllers (X86/Pic.cc), an instance
      of [InterruptController]; the chips are the class [PicChips], which states
      their data sheet.
    - Pci.v: PCI configuration registers, the list of drivers and the
      enumeration of the bus (X86/X86Pci.cc, Kernel/Pci.cc,
      Kernel/PciDriver.cc); the host bridge and the drivers are the classes
      [ConfigMechanism], [PciDrivers] and [DriverLaws].
    - Terminal.v, Vga.v: the console on a grid of characters
      (Drivers/Common/Console/FrameBuffer.cc) over the class [Screen], whose
      contract is an abstract terminal, and the VGA text mode behind it
      (Drivers/X86/Console/VgaConsole.cc).  The video memory is a map of its own:
      behind its one page nothing is mapped in the model, while in the booted
      kernel the page above belongs to whatever was mapped before.
    - Console.v: the UART (EarlySerial.cc, SerialConsole.cc), the ring of
      registered consoles and the buffer of typed characters
      (Kernel/StdioSupport.cc), with [gets_s].
    - Keyboard.v: the table of key codes and the keyboard's interrupt
      (Drivers/X86/Keyboard).
    - Machine.v: the VGA and the serial console as devices of Console.v, the
      drivers' set-up on the lines of Interrupt.v, and a concrete machine.
    - SpinLock.v: spin locks and mutexes (X86/SpinLock.cc,
      X86/SpinLockAtomic.S, Kernel/Mutex.cc), once as functions and once as a
      step relation with one step per memory access.
    - Context.v: the stacks of threads and the registers that interrupts save
      on them (X86/ThreadContext.cc, X86/Idt.S, X86/GenerateVectors.sh); a
      push outside the mapped pages faults ([push_mapped]).
    - Thread.v, Sched.v: threads, processes, jobs and the scheduler
      (Kernel/Thread.cc, Kernel/Scheduler.cc, Kernel/Process.cc,
      Kernel/Job.cc); Thread.v has the operations, Sched.v the events of the
      machine and the theorems.
    - Watchdog.v: the list of watchdog devices (Kernel/WatchdogDevice.cc).
    - Clock.v: the lists of clocks, timers and drivers that are probed at
      start-up (Kernel/Clock.cc, Kernel/SystemTimer.cc,
      Kernel/DriverManager.cc), the uptime (Kernel/Time.cc), and the average of
      the measurements in X86/Tsc.cc.  The objects on the lists are the classes
      [ClockProviders], [SystemTimers] and [Drivers].
    - Dispatch.v: the interrupt dispatcher and the timer tick
      (X86/X86Interrupt.cc, Kernel/SystemTimer.cc, Kernel/Time.cc), which
      combine Context.v, Interrupt.v, Sched.v and Watchdog.v.  Which addresses a
      stack may use is the class [StackMapped], that is [isMapped] of the page
      tables; the frames of the C code below the interrupt frame are left out.
    - Monitor.v: the line editor and the command loop of the monitor
      (Supervisor/Monitor.cc).

    Each definition is named after the C or C++ function it translates; where
    C++ overloads or nests names, the class comes first ([Scheduler_setReady]).

    ** State, errors and fuel

    Objects of the kernel live at addresses: a component's state is a record of
    finite maps from addresses to objects and of its global variables, and
    operations pass it on.  A call returns a [res] (below).  Recursion that
    follows the data is structural; a loop that follows pointers or runs to a
    terminator takes fuel, and its theorems prove that the fuel it is given (the
    length of the list, one more than the number of mapped bytes, 32 rounds of
    a division) is enough, so that none of them speaks only about runs that
    happen to return.  Where the code really loops forever, the theorem says
    that no fuel is enough ([PhysPages.putPage_refines_pool],
    [Watchdog.unregister_spec]).

    The kernel serialises most components with spin locks, so their calls are
    atomic steps here; SpinLock.v justifies this for the lock itself, and
    models the race that the lock's own code contains.

    ** What is shown

    - Memory: [getPage] and [putPage] implement a pool of frames in which none
      is lost, and none is handed out again before it came back; mapping and unmapping change one table entry
      and nothing else; booting leaves exactly the kernel's range mapped, within
      the ten frames there are for tables, and puts every frame of the memory
      map on a page list; physical memory is read byte for byte; a process's
      directory shares the kernel's tables and no others; regions are disjoint
      and backed by distinct frames; the heap hands out zeroed, disjoint,
      sufficiently large blocks and takes them back; the linked lists are the
      lists they mean.
    - Start-up: the ACPI driver finds the tables and creates the controllers
      they list, and loads nothing outside what it mapped, unless there is a
      signature in the last two paragraphs of the ROM, whose check runs past the
      mapping; a packed module is recognised again; the
      best clock and the best timer are started, and every driver that finds
      its device, once.
    - Digests: however a message is split into updates, each digest is the one
      of its standard, which is written down independently; the unrolled forms
      of SHA-2 are equivalent to the loops.
    - Arithmetic: all 64-bit routines compute the operation on integers modulo
      [2^64], both division algorithms included, and they trap on division by
      zero only.
    - C library: every routine has its functional specification over the byte
      memory, bounds of what it reads and writes included; formatted output
      comes to an end on every input, prints what the format says, and the
      numbers it prints are read back by the conversions of Strtol.v.
    - Devices: the interrupt controller is a set of sixteen masked lines;
      configuration registers are read as they are; enumeration reaches every
      function of the bus once and initializes for it the first driver that
      wants it, and no other; what is typed is
      fed to the buffer and shown on every enabled console, and the display is
      the terminal of its text; standard input and output stays well typed
      whatever interrupts come.
    - Interrupts, locks, scheduling: dispatch runs every registered handler in
      order; locks exclude each other for any number of processors and nested
      interrupts; interrupt entry and exit restore the registers; every thread
      but the two static ones is in exactly one place of the scheduler, as long
      as jobs are added by running threads, and a ready thread runs after a
      bounded number of ticks; the dispatcher resumes threads where they were
      interrupted, in their own address space.
    - Monitor: the line editor is one on lists and never writes outside its
      buffer; a session runs the commands that are typed, up to one that does
      not come back.

    Some theorems show that the code does not do what it means to: the heap's
    stale checksum, the 32-bit length of SHA-1, the handler that
    [deregisterHandler] unlinks, the interrupt flags a spin lock can lose, the
    kernel stack of a user thread, which shrinks with every system call and is
    left by the 56th, the
    narrow writes of PCI registers, the boot-time [unmapPage] that looks three
    bytes off, the scrolling that reads behind the video memory, the typed line
    that is read backwards, the frame of the bootstrap page that is on both page
    lists, the memory above 4 GB that is added at the bottom, the modules that
    are all registered as the first one, the addresses that a read of physical
    memory uses up, the item that [SinglyLinkedList::insertLast] inserts second,
    the entry of length 0 that stops the walk over an ACPI table, the search for
    its root that runs past the ROM, the type of a base address without a name,
    the offsets in
    a RAM disk that point behind the files.

    ** Not modelled

    - Boot: the entry code, descriptor tables and model specific registers, and
      the order of the calls in KernelMain.cc.  They run once, and what they do
      is to the processor; other processors are not started.
    - Devices: the APICs, the timers and the watchdog hardware: register
      accesses whose effects are in the hardware.  Of the watchdog's driver
      (Drivers/X86/Watchdog/IntelWatchdog.cc), Pci.v has [probe] and the sizing
      of its region, as an example of what enumeration asks of a driver.  The kernel's side of them
      is an interface of the models above.  [Pit::delay] and the calibrations
      wait for a counter that runs by itself.
    - Statistics, printing and stack traces; the commands of the monitor, which
      print them; [Supervisor::run], a demonstration.
    - The RAM disk file system, whose operations are stubs; ELF loading and its
      symbol table, which call libelf.
    - Of the C library: [strdup] and [strndup], which mix the heap's memory model
      with the one of CMem.v, and the conversions between quads and floating
      point.
    - [Thread::createKernelThread] without a name, which makes one up from the
      thread's number with [snprintf] and is otherwise the one with a name.
    - Of the tools: the wrappers of the host's files in LibUtil, and mkfatfs.
    - Vendored code: ACPICA, the BSD network drivers and headers, libelf,
      libc++. *)

From Stdlib Require Import ZArith Lia.
From stdpp Require Import prelude gmap list.

Open Scope Z_scope.

(** ** Outcomes

    A routine either returns; stops in [KASSERT], [Debug::panic] or [abort()],
    or by halting or rebooting the machine ([Panic]); traps, because it
    dereferences an address that holds no object or divides by zero ([Fault]);
    or, for a loop that is run with fuel, has not finished yet ([NoFuel]). *)

Inductive res (A : Type) : Type :=
  | Ok (a : A)
  | Panic
  | Fault
  | NoFuel.

Arguments Ok {A} a.
Arguments Panic {A}.
Arguments Fault {A}.
Arguments NoFuel {A}.

#[export] Instance res_ret : MRet res := fun A a => Ok a.

#[export] Instance res_bind : MBind res := fun A B f m =>
  match m with
  | Ok a => f a
  | Panic => Panic
  | Fault => Fault
  | NoFuel => NoFuel
  end.

#[export] Instance res_fmap : FMap res := fun A B f m =>
  match m with
  | Ok a => Ok (f a)
  | Panic => Panic
  | Fault => Fault
  | NoFuel => NoFuel
  end.

#[export] Instance res_eq_dec `{EqDecision A} : EqDecision (res A).
Proof. solve_decision. Defined.

(** [KASSERT(b)] *)
Definition kassert (b : bool) : res unit := if b then Ok tt else Panic.

(** A lookup that faults when the object is missing. *)
Definition deref {A} (o : option A) : res A :=
  match o with Some a => Ok a | None => Fault end.

Lemma Ok_inj {A} (a b : A) : Ok a = Ok b -> a = b.
Proof. by intros [= ->]. Qed.

Lemma res_bind_ok {A B} (m : res A) (f : A -> res B) b :
  m ≫= f = Ok b <-> exists a, m = Ok a /\ f a = Ok b.
Proof. destruct m; cbn; naive_solver. Qed.

Lemma res_fmap_ok {A B} (m : res A) (f : A -> B) b :
  f <$> m = Ok b <-> exists a, m = Ok a /\ f a = b.
Proof. destruct m; cbn; naive_solver. Qed.

Lemma kassert_ok b u : kassert b = Ok u <-> b = true.
Proof. destruct b, u; cbn; naive_solver. Qed.

Lemma deref_ok {A} (o : option A) a : deref o = Ok a <-> o = Some a.
Proof. destruct o; cbn; naive_solver. Qed.

Lemma res_bind_nofuel {A B} (m : res A) (f : A -> res B) :
  m ≫= f = NoFuel -> m = NoFuel \/ exists a, m = Ok a /\ f a = NoFuel.
Proof. destruct m; cbn; naive_solver. Qed.

Lemma res_fmap_nofuel {A B} (m : res A) (f : A -> B) : f <$> m = NoFuel -> m = NoFuel.
Proof. by destruct m. Qed.

(** [nofuel] refutes a hypothesis that a computation without loops ran out of
    fuel. *)
Ltac nofuel :=
  repeat match goal with
  | H : _ ≫= _ = NoFuel |- _ => apply res_bind_nofuel in H as [H|(? & _ & H)]
  | H : _ <$> _ = NoFuel |- _ => apply res_fmap_nofuel in H
  | H : deref ?o = NoFuel |- _ => destruct o; discriminate H
  | H : kassert ?b = NoFuel |- _ => destruct b; discriminate H
  | H : (if ?b then _ else _) = NoFuel |- _ => destruct b
  | H : (let '(_, _) := ?p in _) = NoFuel |- _ => destruct p
  | H : Ok _ = NoFuel |- _ => discriminate H
  | H : mret _ = NoFuel |- _ => discriminate H
  | H : Panic = NoFuel |- _ => discriminate H
  | H : Fault = NoFuel |- _ => discriminate H
  end.

(** [res_inv H] opens a successful monadic computation. *)
Ltac res_inv :=
  repeat match goal with
  | H : _ ≫= _ = Ok _ |- _ => apply res_bind_ok in H as (? & ? & ?)
  | H : kassert _ = Ok _ |- _ => apply kassert_ok in H
  | H : deref _ = Ok _ |- _ => apply deref_ok in H
  | H : Ok _ = Ok _ |- _ => injection H as ?; subst
  | H : mret _ = Ok _ |- _ => injection H as ?; subst
  | H : Panic = Ok _ |- _ => discriminate H
  | H : Fault = Ok _ |- _ => discriminate H
  | H : NoFuel = Ok _ |- _ => discriminate H
  | x : (_ * _)%type |- _ => destruct x
  | x : unit |- _ => destruct x
  end.

(** ** Booleans and comparisons *)

(** [zcase] splits on the integer and boolean tests of the goal and the
    context, leaving the corresponding propositions. *)
Ltac zbool :=
  repeat match goal with
  | H : _ && _ = true |- _ => apply andb_true_iff in H as [? ?]
  | H : _ || _ = false |- _ => apply orb_false_iff in H as [? ?]
  | H : negb _ = true |- _ => apply negb_true_iff in H
  | H : negb _ = false |- _ => apply negb_false_iff in H
  | H : (_ =? _) = true |- _ => apply Z.eqb_eq in H
  | H : (_ =? _) = false |- _ => apply Z.eqb_neq in H
  | H : (_ <? _) = true |- _ => apply Z.ltb_lt in H
  | H : (_ <? _) = false |- _ => apply Z.ltb_ge in H
  | H : (_ <=? _) = true |- _ => apply Z.leb_le in H
  | H : (_ <=? _) = false |- _ => apply Z.leb_gt in H
  end.

Ltac zcase :=
  match goal with
  | |- context [if ?b then _ else _] => destruct b eqn:?; zbool
  | H : context [if ?b then _ else _] |- _ => destruct b eqn:?; zbool
  end.

(** ** Lists *)

Section list_lemmas.
Context {A : Type}.
Implicit Types l k : list A.

Lemma NoDup_app_cons_comm l k x : NoDup (l ++ x :: k) <-> NoDup (x :: l ++ k).
Proof. by rewrite (Permutation_app_comm l (x :: k)), <-app_comm_cons,
  (Permutation_app_comm k l). Qed.

Lemma elem_neq (x y : A) l : x ∉ l -> y ∈ l -> x <> y.
Proof. by intros ?? ->. Qed.

Lemma elem_neq' (x y : A) l : x ∉ l -> y ∈ l -> y <> x.
Proof. by intros ?? ->. Qed.

Lemma length_take_le l n : (n <= length l)%nat -> length (take n l) = n.
Proof. rewrite length_take. lia. Qed.

Lemma take_app_drop l n k : (n <= length k)%nat ->
  take n k ++ drop n k = k.
Proof. intros; apply take_drop. Qed.
End list_lemmas.
