(* ===== verification/Words.v ===== *)
(** * Machine words and bytes

    The program runs on 32-bit x86: [int], [unsigned int], [long], [size_t] and
    pointers are 32 bits wide, [quad_t] and [u_int64_t] 64 bits.  A word of
    width [w] is an integer of [[0, 2^w)]; every operation of the C code that
    can leave that range is followed by [wrap w].  Bytes are integers of
    [[0, 256)] and buffers are lists of them. *)

From S2P Require Import Prelude.
From Stdlib Require Import ZArith Lia.
From stdpp Require Import prelude gmap list.

Open Scope Z_scope.

(** ** Words *)

Definition wrap (w x : Z) : Z := x mod 2 ^ w.

Notation u8 := (wrap 8).
Notation u16 := (wrap 16).
Notation u32 := (wrap 32).
Notation u64 := (wrap 64).

(** Reinterpretation of a word as a two's complement integer. *)
Definition sgn (w x : Z) : Z :=
  let y := wrap w x in if y <? 2 ^ (w - 1) then y else y - 2 ^ w.

Notation s32 := (sgn 32).
Notation s64 := (sgn 64).

Definition wshl (w x n : Z) : Z := wrap w (Z.shiftl x n).
Definition wnot (w x : Z) : Z := 2 ^ w - 1 - x.
Definition wrotl (w x n : Z) : Z := Z.lor (wshl w x n) (Z.shiftr x (w - n)).

(** [uint w x]: [x] is a word of width [w]. *)
Definition uint (w x : Z) : Prop := 0 <= x < 2 ^ w.

Create HintDb word discriminated.

Section words.
Implicit Types w x y n : Z.

Lemma wrap_range w x : 0 <= w -> uint w (wrap w x).
Proof. intros. apply Z.mod_pos_bound. lia. Qed.

Lemma wrap_id w x : uint w x -> wrap w x = x.
Proof. apply Z.mod_small. Qed.

Lemma wrap_wrap w x : wrap w (wrap w x) = wrap w x.
Proof. apply Zmod_mod. Qed.

Lemma wrap_add_l w x y : wrap w (wrap w x + y) = wrap w (x + y).
Proof. apply Zplus_mod_idemp_l. Qed.

Lemma wrap_add_r w x y : wrap w (x + wrap w y) = wrap w (x + y).
Proof. apply Zplus_mod_idemp_r. Qed.

Lemma wrap_sub_l w x y : wrap w (wrap w x - y) = wrap w (x - y).
Proof. apply Zminus_mod_idemp_l. Qed.

Lemma wrap_sub_r w x y : wrap w (x - wrap w y) = wrap w (x - y).
Proof. apply Zminus_mod_idemp_r. Qed.

Lemma wrap_mul_l w x y : wrap w (wrap w x * y) = wrap w (x * y).
Proof. apply Zmult_mod_idemp_l. Qed.

Lemma wrap_mul_r w x y : wrap w (x * wrap w y) = wrap w (x * y).
Proof. apply Zmult_mod_idemp_r. Qed.

Lemma wrap_wrap_le w v x : 0 <= v <= w -> wrap v (wrap w x) = wrap v x.
Proof.
  intros. unfold wrap. symmetry. apply Znumtheory.Zmod_div_mod; [lia..|].
  exists (2 ^ (w - v)). rewrite <-Z.pow_add_r by lia. f_equal. lia.
Qed.

(** Bits of words. *)
Lemma uint_testbit w x n : uint w x -> w <= n -> Z.testbit x n = false.
Proof.
  intros [??] ?. destruct (decide (0 <= w)).
  - rewrite <-(Z.mod_small x (2 ^ w)) by lia. apply Z.mod_pow2_bits_high. lia.
  - rewrite Z.pow_neg_r in *; lia.
Qed.

Lemma uint_of_testbit w x : 0 <= w -> 0 <= x ->
  (forall n, w <= n -> Z.testbit x n = false) -> uint w x.
Proof.
  intros Hw Hx Hb. split; [done|].
  destruct (decide (x = 0)) as [->|]; [lia|].
  apply Z.log2_lt_pow2; [lia|]. apply Z.nle_gt. intros Hl.
  specialize (Hb _ Hl). rewrite Z.bit_log2 in Hb; [done|lia].
Qed.

Lemma uint_lor w x y : 0 <= w -> uint w x -> uint w y -> uint w (Z.lor x y).
Proof.
  intros Hw Hx Hy. apply uint_of_testbit; [done| |].
  - apply Z.lor_nonneg. split; [apply Hx | apply Hy].
  - intros n Hn. by rewrite Z.lor_spec, !(uint_testbit w).
Qed.

Lemma uint_land w x y : 0 <= w -> uint w x -> 0 <= y -> uint w (Z.land x y).
Proof.
  intros Hw Hx Hy. apply uint_of_testbit; [done| |].
  - apply Z.land_nonneg. by right.
  - intros n Hn. by rewrite Z.land_spec, (uint_testbit w x).
Qed.

Lemma uint_lxor w x y : 0 <= w -> uint w x -> uint w y -> uint w (Z.lxor x y).
Proof.
  intros Hw Hx Hy. apply uint_of_testbit; [done| |].
  - apply Z.lxor_nonneg. split; intros; [apply Hy | apply Hx].
  - intros n Hn. by rewrite Z.lxor_spec, !(uint_testbit w).
Qed.

Lemma uint_shiftr w x n : 0 <= n -> uint w x -> uint w (Z.shiftr x n).
Proof.
  intros Hn [Hx1 Hx2]. rewrite Z.shiftr_div_pow2 by done.
  assert (0 < 2 ^ n) by lia. split; [apply Z.div_pos; lia|].
  apply Z.le_lt_trans with x; [|done]. apply Z.div_le_upper_bound; nia.
Qed.

Lemma uint_wnot w x : uint w x -> uint w (wnot w x).
Proof. unfold uint, wnot. lia. Qed.

Lemma uint_wshl w x n : 0 <= w -> uint w (wshl w x n).
Proof. apply wrap_range. Qed.

Lemma uint_wrotl w x n : 0 <= n <= w -> uint w x -> uint w (wrotl w x n).
Proof.
  intros. apply uint_lor; [lia | apply uint_wshl; lia | apply uint_shiftr; [lia|done]].
Qed.

Lemma uint_mono v w x : 0 <= v <= w -> uint v x -> uint w x.
Proof.
  intros ? [??]. split; [done|]. apply Z.lt_le_trans with (2 ^ v); [done|].
  apply Z.pow_le_mono_r; lia.
Qed.

(** Masks: [x & (2^n - 1)] and, on a word, [x & ~(2^n - 1)]. *)
Lemma land_ones_low x n : 0 <= n -> Z.land x (2 ^ n - 1) = x mod 2 ^ n.
Proof. intros. rewrite <-Z.land_ones, Z.ones_equiv by done. f_equal. Qed.

Lemma land_mask_high w x n : 0 <= n <= w -> uint w x ->
  Z.land x (2 ^ w - 2 ^ n) = x - x mod 2 ^ n.
Proof.
  intros Hn Hx.
  assert (2 ^ w - 2 ^ n = Z.shiftl (Z.ones (w - n)) n) as ->.
  { rewrite Z.shiftl_mul_pow2, Z.ones_equiv by lia.
    rewrite <-Z.sub_1_r, Z.mul_sub_distr_r, <-Z.pow_add_r by lia.
    replace (w - n + n) with w by lia. lia. }
  assert (x - x mod 2 ^ n = Z.shiftl (Z.shiftr x n) n) as ->.
  { rewrite Z.shiftl_mul_pow2, Z.shiftr_div_pow2 by lia.
    pose proof (Z.div_mod x (2 ^ n)). lia. }
  apply Z.bits_inj'. intros i Hi. rewrite Z.land_spec, !Z.shiftl_spec by done.
  destruct (decide (i < n)).
  - rewrite !(Z.testbit_neg_r _ (i - n)) by lia. apply andb_false_r.
  - rewrite Z.shiftr_spec by lia. replace (i - n + n) with i by lia.
    destruct (decide (i < w)).
    + rewrite Z.ones_spec_low by lia. apply andb_true_r.
    + by rewrite (uint_testbit w x i) by (done || lia).
Qed.

Lemma land_mask32 x n : 0 <= n <= 32 -> uint 32 x ->
  Z.land x (2 ^ 32 - 2 ^ n) = x - x mod 2 ^ n.
Proof. apply land_mask_high. Qed.

(** Disjoint bits: [|] is [+]. *)
Lemma lor_add_shift x y n : 0 <= n -> uint n x ->
  Z.lor x (y * 2 ^ n) = x + y * 2 ^ n.
Proof.
  intros Hn Hx. rewrite Z.add_nocarry_lxor, Z.lxor_lor; [done| |].
  all: rewrite <-Z.shiftl_mul_pow2 by done; apply Z.bits_inj'; intros i Hi;
    rewrite Z.land_spec, Z.bits_0, Z.shiftl_spec by done;
    destruct (decide (i < n));
    [by rewrite (Z.testbit_neg_r y) by lia; rewrite andb_false_r
    |by rewrite (uint_testbit n x i) by (done || lia)].
Qed.

(** Words that agree on their bits. *)
Lemma wrap_ext w x y : 0 <= w ->
  (forall i, 0 <= i < w -> Z.testbit x i = Z.testbit y i) -> wrap w x = wrap w y.
Proof.
  intros Hw Hb. unfold wrap. apply Z.bits_inj'. intros i Hi.
  destruct (decide (i < w)).
  - rewrite !Z.mod_pow2_bits_low by lia. apply Hb. lia.
  - by rewrite !Z.mod_pow2_bits_high by lia.
Qed.

Lemma testbit_wrap w x i : 0 <= i < w -> Z.testbit (wrap w x) i = Z.testbit x i.
Proof. intros. unfold wrap. by rewrite Z.mod_pow2_bits_low by lia. Qed.

Lemma testbit_wnot w x i : 0 <= i < w -> Z.testbit (wnot w x) i = negb (Z.testbit x i).
Proof.
  intros Hi. rewrite <-Z.lnot_spec by lia. rewrite <-(testbit_wrap w (wnot w x)) by done.
  rewrite <-(testbit_wrap w (Z.lnot x)) by done. f_equal. unfold wrap, wnot, Z.lnot.
  replace (2 ^ w - 1 - x) with (Z.pred (- x) + 1 * 2 ^ w) by lia. by rewrite Z_mod_plus_full.
Qed.

Lemma sgn_range w x : 0 < w -> - 2 ^ (w - 1) <= sgn w x < 2 ^ (w - 1).
Proof.
  intros Hw. unfold sgn. pose proof (wrap_range w x ltac:(lia)) as [??].
  assert (2 ^ w = 2 * 2 ^ (w - 1)) by (rewrite <-Z.pow_succ_r by lia; f_equal; lia).
  destruct (_ <? _) eqn:?; zbool; lia.
Qed.

Lemma sgn_wrap w x : wrap w (sgn w x) = wrap w x.
Proof.
  unfold sgn. destruct (_ <? _); [apply wrap_wrap|].
  replace (wrap w x - 2 ^ w) with (wrap w x + (-1) * 2 ^ w) by lia.
  unfold wrap. rewrite Z_mod_plus_full. apply Zmod_mod.
Qed.

Lemma sgn_id w x : 0 < w -> - 2 ^ (w - 1) <= x < 2 ^ (w - 1) -> sgn w x = x.
Proof.
  intros Hw Hx. unfold sgn, wrap.
  assert (2 ^ w = 2 * 2 ^ (w - 1)) by (rewrite <-Z.pow_succ_r by lia; f_equal; lia).
  destruct (decide (0 <= x)).
  - rewrite Z.mod_small by lia. destruct (_ <? _) eqn:?; zbool; lia.
  - rewrite <-(Z_mod_plus_full x 1), Z.mod_small by lia.
    destruct (_ <? _) eqn:?; zbool; lia.
Qed.
End words.

#[export] Hint Resolve wrap_range uint_lor uint_land uint_lxor uint_shiftr uint_wnot
  uint_wshl uint_wrotl : word.
#[export] Hint Extern 1 (_ <= _) => lia : word.
#[export] Hint Extern 1 (_ < _) => lia : word.
#[export] Hint Extern 1 (_ <= _ <= _) => lia : word.

(** Boolean identities between words, bit by bit. *)
Ltac word_bits :=
  apply wrap_ext; [lia|]; let i := fresh "i" in intros i ?;
  rewrite ?Z.lor_spec, ?Z.land_spec, ?Z.lxor_spec, ?testbit_wnot by lia;
  rewrite ?Z.lor_spec, ?Z.land_spec, ?Z.lxor_spec, ?testbit_wnot by lia;
  rewrite ?Z.lor_spec, ?Z.land_spec, ?Z.lxor_spec, ?testbit_wnot by lia;
  repeat match goal with |- context [Z.testbit ?x i] => destruct (Z.testbit x i) end;
  reflexivity.

(** Equality modulo the width: intermediate wraps are dropped by rewriting. *)
Definition eqw (w x y : Z) : Prop := wrap w x = wrap w y.

#[export] Instance eqw_equiv w : Equivalence (eqw w).
Proof. split; unfold eqw; red; congruence. Qed.

#[export] Instance eqw_add w : Proper (eqw w ==> eqw w ==> eqw w) Z.add.
Proof.
  intros a b E c d F. unfold eqw in *.
  by rewrite <-wrap_add_l, <-wrap_add_r, E, F, wrap_add_r, wrap_add_l.
Qed.

#[export] Instance eqw_sub w : Proper (eqw w ==> eqw w ==> eqw w) Z.sub.
Proof.
  intros a b E c d F. unfold eqw in *.
  by rewrite <-wrap_sub_l, <-wrap_sub_r, E, F, wrap_sub_r, wrap_sub_l.
Qed.

#[export] Instance eqw_mul w : Proper (eqw w ==> eqw w ==> eqw w) Z.mul.
Proof.
  intros a b E c d F. unfold eqw in *.
  by rewrite <-wrap_mul_l, <-wrap_mul_r, E, F, wrap_mul_r, wrap_mul_l.
Qed.

#[export] Instance eqw_opp w : Proper (eqw w ==> eqw w) Z.opp.
Proof. intros a b E. rewrite <-!Z.sub_0_l. by rewrite E. Qed.

Lemma eqw_wrap w x : eqw w (wrap w x) x.
Proof. apply wrap_wrap. Qed.

Ltac wrap_drop := repeat setoid_rewrite eqw_wrap.
Ltac wrap_ring :=
  lazymatch goal with |- wrap ?w ?x = wrap ?w ?y => change (eqw w x y) end;
  wrap_drop; unfold eqw; f_equal; ring.

(** The bits of a little-endian word. *)
Lemma testbit_cons8 b x i : uint 8 b -> 0 <= i ->
  Z.testbit (b + 2 ^ 8 * x) i = if i <? 8 then Z.testbit b i else Z.testbit x (i - 8).
Proof.
  intros Hb Hi. rewrite (Z.mul_comm (2 ^ 8)), <-lor_add_shift, Z.lor_spec by (done || lia).
  rewrite <-Z.shiftl_mul_pow2, Z.shiftl_spec by lia.
  destruct (i <? 8) eqn:E; zbool.
  - rewrite (Z.testbit_neg_r x) by lia. apply orb_false_r.
  - by rewrite (uint_testbit 8 b i) by (done || lia).
Qed.

Lemma testbit_wrotl w x n i : 0 <= n < w -> uint w x -> 0 <= i < w ->
  Z.testbit (wrotl w x n) i = Z.testbit x (if i <? n then i + (w - n) else i - n).
Proof.
  intros Hn Hx Hi. unfold wrotl, wshl. rewrite Z.lor_spec, testbit_wrap by done.
  rewrite Z.shiftl_spec, Z.shiftr_spec by lia. destruct (i <? n) eqn:E; zbool.
  - by rewrite Z.testbit_neg_r by lia.
  - rewrite (uint_testbit w x (i + (w - n))) by (done || lia). apply orb_false_r.
Qed.

(** ** Alignment (Include/Templates.hh) *)

Definition PageSize : Z := 4096.
Definition PageMask : Z := PageSize - 1.

(** [roundTo<T>] and [roundDown<T>] for a 32-bit [T]: the arithmetic is done in
    [uint32_t]. *)
Definition roundTo (num size : Z) : Z :=
  let orig := u32 num in
  Z.land (u32 (orig + (size - 1))) (wnot 32 (size - 1)).

Definition roundDown (num size : Z) : Z :=
  let orig := u32 num in
  Z.land orig (wnot 32 (size - 1)).

Lemma roundDown_spec num : uint 32 num ->
  roundDown num PageSize = num - num mod PageSize.
Proof.
  intros H. unfold roundDown. rewrite wrap_id by done.
  apply (land_mask32 num 12); [lia|done].
Qed.

Lemma roundTo_spec num : 0 <= num -> num + PageMask < 2 ^ 32 ->
  roundTo num PageSize = num + (- num) mod PageSize.
Proof.
  unfold PageMask, PageSize. intros H1 H2.
  unfold roundTo. rewrite (wrap_id 32 num), (wrap_id 32) by (unfold uint; lia).
  change (wnot 32 (4096 - 1)) with (2 ^ 32 - 2 ^ 12).
  rewrite (land_mask32 _ 12) by (unfold uint; lia).
  change (2 ^ 12) with 4096. Z.div_mod_to_equations. lia.
Qed.

Lemma roundTo_bounds num : 0 <= num -> num + PageMask < 2 ^ 32 ->
  num <= roundTo num PageSize < num + PageSize /\ (PageSize | roundTo num PageSize).
Proof.
  intros. rewrite roundTo_spec by done. unfold PageSize, PageMask in *. split.
  - Z.div_mod_to_equations. lia.
  - exists ((num + 4095) / 4096). Z.div_mod_to_equations. lia.
Qed.

(** ** Bytes *)

Definition byte_ok (b : Z) : Prop := uint 8 b.
Definition bytes_ok (l : list Z) : Prop := Forall byte_ok l.

(** Little-endian and big-endian encodings of a word in [n] bytes. *)
Fixpoint le_bytes (n : nat) (x : Z) : list Z :=
  match n with
  | O => []
  | S n' => u8 x :: le_bytes n' (Z.shiftr x 8)
  end.

Definition be_bytes (n : nat) (x : Z) : list Z := reverse (le_bytes n x).

Fixpoint le_word (l : list Z) : Z :=
  match l with
  | [] => 0
  | b :: l' => b + 2 ^ 8 * le_word l'
  end.

Definition be_word (l : list Z) : Z := le_word (reverse l).

Lemma length_le_bytes n x : length (le_bytes n x) = n.
Proof. revert x; induction n; intros; cbn; auto. Qed.

Lemma length_be_bytes n x : length (be_bytes n x) = n.
Proof. unfold be_bytes. by rewrite length_reverse, length_le_bytes. Qed.

Lemma le_bytes_ok n x : bytes_ok (le_bytes n x).
Proof.
  revert x; induction n as [|n IH]; intros; cbn; constructor; [by apply wrap_range | apply IH].
Qed.

Lemma be_bytes_ok n x : bytes_ok (be_bytes n x).
Proof. apply Forall_reverse, le_bytes_ok. Qed.

Lemma le_word_bytes n x : le_word (le_bytes n x) = wrap (8 * Z.of_nat n) x.
Proof.
  revert x; induction n as [|n IH]; intros x; cbn [le_bytes le_word].
  - unfold wrap. by rewrite Z.mod_1_r.
  - rewrite IH. unfold wrap. rewrite Z.shiftr_div_pow2 by lia.
    replace (8 * Z.of_nat (S n)) with (8 + 8 * Z.of_nat n) by lia.
    rewrite Z.pow_add_r by lia. rewrite Z.rem_mul_r by lia. done.
Qed.

Lemma be_word_bytes n x : be_word (be_bytes n x) = wrap (8 * Z.of_nat n) x.
Proof. unfold be_word, be_bytes. by rewrite reverse_involutive, le_word_bytes. Qed.

Lemma le_bytes_wrap n w x : 8 * Z.of_nat n <= w -> le_bytes n (wrap w x) = le_bytes n x.
Proof.
  revert w x; induction n as [|n IH]; intros w x Hw; cbn [le_bytes]; [done|].
  f_equal; [by apply wrap_wrap_le; lia|].
  rewrite <-(IH (w - 8) (Z.shiftr x 8)) by lia. f_equal.
  rewrite !Z.shiftr_div_pow2 by lia. unfold wrap.
  assert (2 ^ w = 2 ^ 8 * 2 ^ (w - 8)) as -> by (rewrite <-Z.pow_add_r by lia; f_equal; lia).
  assert (0 < 2 ^ (w - 8)) by lia.
  rewrite Z.rem_mul_r by lia. rewrite (Z.mul_comm (2 ^ 8)), Z.div_add by lia.
  rewrite (Z.div_small (x mod 2 ^ 8)); [lia|apply Z.mod_pos_bound; lia].
Qed.

Lemma le_bytes_app a b x : le_bytes (a + b) x
  = le_bytes a x ++ le_bytes b (Z.shiftr x (8 * Z.of_nat a)).
Proof.
  revert x; induction a as [|a IH]; intros x; cbn [le_bytes Nat.add app].
  - by rewrite Z.mul_0_r, Z.shiftr_0_r.
  - rewrite IH, Z.shiftr_shiftr by lia. do 4 f_equal. lia.
Qed.

Lemma be_bytes_app a b x : be_bytes (a + b) x
  = be_bytes a (Z.shiftr x (8 * Z.of_nat b)) ++ be_bytes b x.
Proof. unfold be_bytes. by rewrite Nat.add_comm, le_bytes_app, reverse_app. Qed.

Lemma be_bytes_wrap n w x : 8 * Z.of_nat n <= w -> be_bytes n (wrap w x) = be_bytes n x.
Proof. intros. unfold be_bytes. by rewrite le_bytes_wrap. Qed.

Lemma le_bytes_word l : bytes_ok l -> le_bytes (length l) (le_word l) = l.
Proof.
  induction 1 as [|b l Hb Hl IH]; [done|]. cbn [le_bytes le_word length].
  unfold byte_ok, uint in Hb. f_equal.
  - unfold wrap. rewrite Z.mul_comm, Z_mod_plus_full. by apply Z.mod_small.
  - rewrite Z.shiftr_div_pow2, Z.mul_comm, Z_div_plus, Z.div_small by lia. done.
Qed.

Lemma le_word_range l : bytes_ok l -> uint (8 * Z.of_nat (length l)) (le_word l).
Proof.
  unfold uint. induction 1 as [|b l Hb Hl IH]; cbn [le_word length]; [lia|].
  unfold byte_ok, uint in Hb.
  replace (8 * Z.of_nat (S (length l))) with (8 + 8 * Z.of_nat (length l)) by lia.
  rewrite Z.pow_add_r by lia. nia.
Qed.

Lemma be_word_range l : bytes_ok l -> uint (8 * Z.of_nat (length l)) (be_word l).
Proof.
  intros. unfold be_word. rewrite <-(length_reverse l).
  by apply le_word_range, Forall_reverse.
Qed.
