(* ===== verification/Ring.v ===== *)
(** * Intrusive circular doubly linked lists

    Three parts of the kernel thread their objects on a circular list with a
    sentinel: [SegmentList] (Include/SegmentList.hh), [PageCluster]
    (Include/Platform/PageCluster.hh) and the template [DoublyLinkedList]
    (Templates/DoublyLinkedList.hh).  This file holds the store they share
    (addresses to nodes with [prev], [next] and a payload), the predicate
    [ring] that says which list of addresses a sentinel heads, and the two
    lemmas about pointer surgery, insertion and removal, from which the
    correctness of every list operation of those components follows. *)

From S2P Require Import Prelude.
From Stdlib Require Import ZArith Lia.
From stdpp Require Import prelude gmap list.

Open Scope Z_scope.

(** Addresses. *)
Abbreviation loc := Z (only parsing).

Record node (V : Type) : Type := Node {
  n_prev : loc;
  n_next : loc;
  n_val : V;
}.

Arguments Node {V} _ _ _.
Arguments n_prev {V} _.
Arguments n_next {V} _.
Arguments n_val {V} _.

Section ring.
Context {V : Type}.
Implicit Types (st : gmap loc (node V)) (p q x h : loc) (l : list loc).

(** Reads and writes through a pointer; a dangling pointer faults. *)
Definition get_next st p : res loc := n_next <$> deref (st !! p).
Definition get_prev st p : res loc := n_prev <$> deref (st !! p).
Definition get_val st p : res V := n_val <$> deref (st !! p).

Definition set_next st p (v : loc) : res (gmap loc (node V)) :=
  n ← deref (st !! p);
  mret (<[p := Node (n_prev n) v (n_val n)]> st).

Definition set_prev st p (v : loc) : res (gmap loc (node V)) :=
  n ← deref (st !! p);
  mret (<[p := Node v (n_next n) (n_val n)]> st).

Definition set_val st p (v : V) : res (gmap loc (node V)) :=
  n ← deref (st !! p);
  mret (<[p := Node (n_prev n) (n_next n) v]> st).

(** The three projections of the store. *)
Definition nx st p : option loc := n_next <$> st !! p.
Definition pv st p : option loc := n_prev <$> st !! p.
Definition vl st p : option V := n_val <$> st !! p.

(** [dseg st a l b]: from [a], the addresses [l] and then [b] follow each
    other through both [next] and [prev]. *)
Fixpoint dseg st (a : loc) (l : list loc) (b : loc) : Prop :=
  match l with
  | [] => nx st a = Some b /\ pv st b = Some a
  | x :: l' => nx st a = Some x /\ pv st x = Some a /\ dseg st x l' b
  end.

(** [ring st h l]: the sentinel [h] heads exactly the addresses [l]. *)
Definition ring st h l : Prop := NoDup (h :: l) /\ dseg st h l h.

Definition last_of (h : loc) l : loc := default h (last l).

Lemma last_of_snoc h l x : last_of h (l ++ [x]) = x.
Proof. unfold last_of. by rewrite last_snoc. Qed.

Lemma last_of_cons h x l : last_of h (x :: l) = last_of x l.
Proof. unfold last_of. rewrite last_cons. by destruct (last l). Qed.

(** *** Segments *)

Lemma dseg_app st a l x k b :
  dseg st a (l ++ x :: k) b <-> dseg st a l x /\ dseg st x k b.
Proof.
  revert a; induction l as [|y l IH]; intros a; cbn; [tauto|].
  rewrite IH; tauto.
Qed.

Lemma dseg_frame st st' a l b :
  dseg st a l b ->
  (forall p, p ∈ a :: l -> nx st' p = nx st p) ->
  (forall p, p ∈ l ++ [b] -> pv st' p = pv st p) ->
  dseg st' a l b.
Proof.
  revert a; induction l as [|x l IH]; intros a Hd Hn Hp; cbn in *.
  - destruct Hd as [<- <-]; split; [apply Hn | apply Hp]; set_solver.
  - destruct Hd as (<- & <- & Hd); split_and!.
    + apply Hn; set_solver.
    + apply Hp; set_solver.
    + apply IH; [done| |]; intros; [apply Hn | apply Hp]; set_solver.
Qed.

(** *** The ends of a ring *)

Lemma ring_first st h l : ring st h l -> nx st h = Some (List.hd h l).
Proof. intros [_ H]; destruct l; cbn in *; tauto. Qed.

Lemma dseg_last st a l b : dseg st a l b -> pv st b = Some (last_of a l).
Proof.
  revert a; induction l as [|x l IH]; intros a H; cbn in *; [tauto|].
  destruct H as (_ & _ & H). by rewrite (IH _ H), last_of_cons.
Qed.

Lemma ring_last st h l : ring st h l -> pv st h = Some (last_of h l).
Proof. intros [_ H]; eapply dseg_last; eauto. Qed.

Lemma dseg_dom_nx st a l b p : dseg st a l b -> p ∈ a :: l -> is_Some (nx st p).
Proof.
  revert a; induction l as [|x l IH]; intros a H Hp; cbn in *.
  - apply list_elem_of_singleton in Hp as ->. destruct H as [-> _]; eauto.
  - destruct H as (H1 & H2 & H). apply elem_of_cons in Hp as [->|Hp]; eauto.
Qed.

Lemma dseg_next st a l b p : dseg st a l b -> p ∈ a :: l ->
  exists q, nx st p = Some q /\ q ∈ l ++ [b].
Proof.
  revert a; induction l as [|x l IH]; intros a H Hp; cbn in *.
  - apply list_elem_of_singleton in Hp as ->. exists b. split; [tauto|set_solver].
  - destruct H as (H1 & _ & H). apply elem_of_cons in Hp as [->|Hp].
    + exists x. split; [done|set_solver].
    + destruct (IH _ H Hp) as (q & ? & ?). exists q. split; [done|set_solver].
Qed.

Lemma ring_next st h l p : ring st h l -> p ∈ h :: l ->
  exists q, nx st p = Some q /\ q ∈ h :: l.
Proof.
  intros [_ H] Hp. destruct (dseg_next _ _ _ _ _ H Hp) as (q & ? & ?).
  exists q. split; [done|set_solver].
Qed.

Lemma ring_dom st h l p : ring st h l -> p ∈ h :: l -> is_Some (st !! p).
Proof.
  intros [_ H] Hp. destruct (dseg_dom_nx _ _ _ _ _ H Hp) as [q Hq].
  unfold nx in Hq. destruct (st !! p); [eauto | done].
Qed.

(** A ring determines its list. *)
Lemma dseg_inj st a l k b :
  dseg st a l b -> dseg st a k b -> b ∉ l -> b ∉ k -> l = k.
Proof.
  revert a k; induction l as [|x l IH]; intros a [|y k] Hl Hk Hb Hb'; cbn in *; auto.
  - destruct Hl as [H1 _], Hk as [H2 _]. rewrite H1 in H2. injection H2 as ->. set_solver.
  - destruct Hk as [H1 _], Hl as [H2 _]. rewrite H1 in H2. injection H2 as ->. set_solver.
  - destruct Hl as (H1 & _ & Hl), Hk as (H2 & _ & Hk). rewrite H1 in H2.
    injection H2 as ->. f_equal. eapply IH; eauto; set_solver.
Qed.

Lemma ring_inj st h l k : ring st h l -> ring st h k -> l = k.
Proof.
  intros [Hn1 H1] [Hn2 H2]. apply NoDup_cons in Hn1 as [? _], Hn2 as [? _].
  eapply dseg_inj; eauto.
Qed.

(** A ring is unaffected by writes outside it. *)
Lemma ring_frame st st' h l :
  ring st h l ->
  (forall p, p ∈ h :: l -> nx st' p = nx st p /\ pv st' p = pv st p) ->
  ring st' h l.
Proof.
  intros [Hn Hd] Hf. split; [done|].
  eapply dseg_frame; eauto; intros p Hp; apply Hf; set_solver.
Qed.

(** *** Pointer surgery *)

(** Side conditions [a <> p] for [a] on a segment: pure membership facts. *)
Ltac ring_ne h l :=
  repeat match goal with
  | H : dseg _ _ _ _ |- _ => clear H
  | H : context [nx] |- _ => clear H
  | H : context [pv] |- _ => clear H
  end;
  repeat match goal with
  | H : context [last_of ?h ?l] |- _ => revert H
  end; try generalize (last_of h l); intros; subst; intros ?; subst; set_unfold;
  naive_solver.

Lemma ring_insert st st' h l k x p q :
  ring st h (l ++ k) -> x ∉ h :: l ++ k ->
  p = last_of h l -> q = List.hd h k ->
  nx st' p = Some x -> nx st' x = Some q ->
  pv st' q = Some x -> pv st' x = Some p ->
  (forall a, a <> p -> a <> x -> nx st' a = nx st a) ->
  (forall a, a <> q -> a <> x -> pv st' a = pv st a) ->
  ring st' h (l ++ x :: k).
Proof.
  intros [Hnd Hd] Hx -> -> Hpn Hxn Hqp Hxp Hn Hp. split.
  { apply NoDup_app_cons_comm with (l := h :: l) (k := k).
    constructor; [|done]. set_solver. }
  apply dseg_app; split.
  - destruct l as [|y l _] using rev_ind; cbn in *; [tauto|].
    rewrite last_of_snoc in *. rewrite <-app_assoc in *. cbn in *.
    apply dseg_app in Hd as [Hd1 Hd2]. apply dseg_app. split; [|cbn; tauto].
    apply NoDup_cons in Hnd as [Hh Hnd]. apply NoDup_app in Hnd as (Hl & Hlk & Hk).
    apply NoDup_cons in Hk as [Hy Hk].
    eapply dseg_frame; [exact Hd1| |]; intros a Ha; [apply Hn | apply Hp];
      destruct k; cbn in *; ring_ne h l.
  - destruct k as [|y k]; cbn in *; [tauto|].
    apply dseg_app in Hd as [Hd1 Hd2]. split_and!; auto.
    apply NoDup_cons in Hnd as [Hh Hnd]. apply NoDup_app in Hnd as (Hl & Hlk & Hk).
    apply NoDup_cons in Hk as [Hy Hk].
    assert (last_of h l ∈ h :: l) as Hlast.
    { destruct l as [|z l _] using rev_ind; [set_solver|].
      rewrite last_of_snoc. set_solver. }
    eapply dseg_frame; [exact Hd2| |]; intros a Ha; [apply Hn | apply Hp]; ring_ne h l.
Qed.

Lemma ring_remove st st' h l k x p q :
  ring st h (l ++ x :: k) ->
  p = last_of h l -> q = List.hd h k ->
  nx st' p = Some q -> pv st' q = Some p ->
  (forall a, a <> p -> a <> x -> nx st' a = nx st a) ->
  (forall a, a <> q -> a <> x -> pv st' a = pv st a) ->
  ring st' h (l ++ k).
Proof.
  intros [Hnd Hd] -> -> Hpn Hqp Hn Hp.
  apply NoDup_cons in Hnd as [Hh Hnd]. apply NoDup_app_cons_comm in Hnd.
  apply NoDup_cons in Hnd as [Hx Hnd]. split; [by constructor; [set_solver|]|].
  apply dseg_app in Hd as [Hd1 Hd2].
  assert (Hnd' := Hnd). apply NoDup_app in Hnd' as (Hl & Hlk & Hk).
  destruct l as [|y l _] using rev_ind; cbn in *.
  - destruct k as [|z k]; cbn in *; [tauto|]. destruct Hd2 as (_ & _ & Hd2).
    split_and!; auto. apply NoDup_cons in Hk as [Hz Hk].
    eapply dseg_frame; [exact Hd2| |]; intros a Ha; [apply Hn | apply Hp]; ring_ne h l.
  - rewrite last_of_snoc in *. rewrite <-app_assoc in *. cbn in *.
    apply dseg_app in Hd1 as [Hd1 Hy]. apply NoDup_app in Hl as (Hl & Hly & _).
    apply dseg_app; split.
    + eapply dseg_frame; [exact Hd1| |]; intros a Ha; [apply Hn | apply Hp];
        destruct k; cbn in *; ring_ne h l.
    + destruct k as [|z k]; cbn in *; [tauto|]. destruct Hd2 as (_ & _ & Hd2).
      apply NoDup_cons in Hk as [Hz Hk]. split_and!; auto.
      eapply dseg_frame; [exact Hd2| |]; intros a Ha; [apply Hn | apply Hp]; ring_ne h l.
Qed.

(** *** How the writes act on the projections *)

Lemma set_next_spec st p v st' : set_next st p v = Ok st' <->
  exists n, st !! p = Some n /\ st' = <[p := Node (n_prev n) v (n_val n)]> st.
Proof.
  unfold set_next. destruct (st !! p) as [n|]; cbn; split.
  - intros [= <-]; eauto.
  - intros (? & [= <-] & ->); done.
  - done.
  - intros (? & [=] & _).
Qed.

Lemma set_prev_spec st p v st' : set_prev st p v = Ok st' <->
  exists n, st !! p = Some n /\ st' = <[p := Node v (n_next n) (n_val n)]> st.
Proof.
  unfold set_prev. destruct (st !! p) as [n|]; cbn; split.
  - intros [= <-]; eauto.
  - intros (? & [= <-] & ->); done.
  - done.
  - intros (? & [=] & _).
Qed.

Lemma set_next_ok st p v : is_Some (st !! p) -> exists st', set_next st p v = Ok st' /\
  (forall a, nx st' a = if decide (a = p) then Some v else nx st a) /\
  (forall a, pv st' a = pv st a) /\ (forall a, vl st' a = vl st a) /\
  (forall a, is_Some (st' !! a) <-> is_Some (st !! a)).
Proof.
  intros [n Hn]. eexists. split; [apply set_next_spec; eauto|].
  unfold nx, pv, vl.
  split_and!; intros a; rewrite lookup_insert; repeat case_decide; subst; cbn;
    rewrite ?Hn; cbn; try split; eauto; congruence.
Qed.

Lemma set_prev_ok st p v : is_Some (st !! p) -> exists st', set_prev st p v = Ok st' /\
  (forall a, pv st' a = if decide (a = p) then Some v else pv st a) /\
  (forall a, nx st' a = nx st a) /\ (forall a, vl st' a = vl st a) /\
  (forall a, is_Some (st' !! a) <-> is_Some (st !! a)).
Proof.
  intros [n Hn]. eexists. split; [apply set_prev_spec; eauto|].
  unfold nx, pv, vl.
  split_and!; intros a; rewrite lookup_insert; repeat case_decide; subst; cbn;
    rewrite ?Hn; cbn; try split; eauto; congruence.
Qed.

Lemma get_next_ok st p q : get_next st p = Ok q <-> nx st p = Some q.
Proof. unfold get_next, nx. destruct (st !! p); cbn; naive_solver. Qed.

Lemma get_prev_ok st p q : get_prev st p = Ok q <-> pv st p = Some q.
Proof. unfold get_prev, pv. destruct (st !! p); cbn; naive_solver. Qed.

Lemma get_val_ok st p v : get_val st p = Ok v <-> vl st p = Some v.
Proof. unfold get_val, vl. destruct (st !! p); cbn; naive_solver. Qed.

Lemma last_of_in h l : last_of h l ∈ h :: l.
Proof.
  destruct l as [|z l _] using rev_ind; [set_solver|].
  rewrite last_of_snoc. set_solver.
Qed.

Lemma hd_in h l : List.hd h l ∈ h :: l.
Proof. destruct l; set_solver. Qed.
End ring.

(** [do_write] runs the next pointer write of the goal: it needs the address
    to be allocated, which the hypotheses about the earlier stores give. *)
Ltac do_write :=
  match goal with
  | |- context [set_next ?st ?p ?v] =>
      let st' := fresh "st" in let H := fresh "Hw" in
      let N := fresh "Hnx" in let P := fresh "Hpv" in
      let W := fresh "Hvl" in let D := fresh "Hdom" in
      destruct (set_next_ok st p v) as (st' & H & N & P & W & D);
      [try done | rewrite H; cbn [mbind res_bind]]
  | |- context [set_prev ?st ?p ?v] =>
      let st' := fresh "st" in let H := fresh "Hw" in
      let N := fresh "Hnx" in let P := fresh "Hpv" in
      let W := fresh "Hvl" in let D := fresh "Hdom" in
      destruct (set_prev_ok st p v) as (st' & H & P & N & W & D);
      [try done | rewrite H; cbn [mbind res_bind]]
  end.
