(* ===== verification/PhysPages.v ===== *)
(** * Physical pages: [PageCluster] and the free and used page lists

    Models Include/Platform/PhysicalPage.hh, Include/Platform/PageCluster.hh
    and [Memory::getPage], [Memory::putPage] of Kernel/Memory.cc.  A
    [PhysicalPage] is a node of the intrusive list whose payload is its
    [address] word; a cluster is a sentinel and a count.  The pages of the
    machine sit on one of two clusters, [freePages] and [usedPages].

    The contract: the two clusters partition the page structures, [getPage]
    moves the most recently freed page to the used list, [putPage] moves it
    back ([pool_get], [pool_put] below), and no page is handed out twice. *)

From S2P Require Import Prelude.
From S2P Require Import Words.
From S2P Require Import Ring.
From Stdlib Require Import ZArith Lia.
From stdpp Require Import prelude gmap list.

Open Scope Z_scope.

(** ** PhysicalPage *)

Definition Invalid : Z := 2 ^ 32 - 1.
Definition AddressMask : Z := wnot 32 PageMask.

Abbreviation page_store := (gmap Z (node Z)).

(** [PhysicalPage::init()] and [PhysicalPage::init(uintptr_t)] *)
Definition page_init (p : loc) (st : page_store) : page_store :=
  <[p := Node p p Invalid]> st.

Definition page_init_at (p address : Z) (st : page_store) : page_store :=
  <[p := Node p p address]> st.

Definition getAddress (st : page_store) (p : loc) : res Z :=
  (λ a, Z.land a AddressMask) <$> get_val st p.

Definition setColor (address color : Z) : Z := Z.lor (Z.land address AddressMask) color.
Definition getColor (address : Z) : Z := u8 (Z.land address PageMask).

(** ** PageCluster *)

Record cluster : Type := Cluster { pc_head : loc; pc_count : Z }.

Definition cluster_init (h : loc) (st : page_store) : page_store * cluster :=
  let st := page_init h st in
  (<[h := Node h h Invalid]> st, Cluster h 0).

Definition cluster_insert (c : cluster) (page : loc) (st : page_store)
    : res (page_store * cluster) :=
  kassert (negb (page =? 0));;
  oldNext ← get_next st (pc_head c);
  kassert (negb (oldNext =? 0));;
  headNext ← get_next st (pc_head c);
  st ← set_next st page headNext;
  st ← set_next st (pc_head c) page;
  st ← set_prev st oldNext page;
  st ← set_prev st page (pc_head c);
  mret (st, Cluster (pc_head c) (u32 (pc_count c + 1))).

Definition cluster_remove (c : cluster) (page : loc) (st : page_store)
    : res (page_store * cluster) :=
  kassert (negb (page =? 0));;
  oldPrev ← get_prev st page;
  oldNext ← get_next st page;
  kassert (negb (oldPrev =? 0));;
  kassert (negb (oldNext =? 0));;
  st ← set_next st oldPrev oldNext;
  st ← set_prev st oldNext oldPrev;
  mret (st, Cluster (pc_head c) (u32 (pc_count c - 1))).

Definition cluster_get (c : cluster) (st : page_store)
    : res (loc * page_store * cluster) :=
  first ← get_next st (pc_head c);
  address ← getAddress st first;
  if negb (address =? Invalid) then
    '(st, c) ← cluster_remove c first st;
    mret (first, st, c)
  else mret (0, st, c).

(** The [for] loop of [find], which runs until it meets a page whose address
    is [Invalid]. *)
Fixpoint find_loop (fuel : nat) (st : page_store) (page address : Z) : res loc :=
  match fuel with
  | O => NoFuel
  | S fuel =>
      a ← getAddress st page;
      if negb (a =? Invalid) then
        if a =? address then mret page
        else
          next ← get_next st page;
          find_loop fuel st next address
      else mret 0
  end.

Definition cluster_find (fuel : nat) (c : cluster) (address : Z) (st : page_store)
    : res loc :=
  first ← get_next st (pc_head c);
  find_loop fuel st first address.

(** ** Memory::getPage and Memory::putPage *)

Record pages : Type := Pages {
  pg_st : page_store;
  pg_free : cluster;
  pg_used : cluster;
}.

Definition getPage (m : pages) : res (Z * pages) :=
  if pc_count (pg_free m) =? 0 then Panic
  else
    '(page, st, free) ← cluster_get (pg_free m) (pg_st m);
    if negb (page =? 0) then
      '(st, used) ← cluster_insert (pg_used m) page st;
      address ← getAddress st page;
      mret (address, Pages st free used)
    else mret (0, Pages st free (pg_used m)).

Definition putPage (fuel : nat) (address : Z) (m : pages) : res pages :=
  page ← cluster_find fuel (pg_used m) address (pg_st m);
  if page =? 0 then Panic
  else
    '(st, used) ← cluster_remove (pg_used m) page (pg_st m);
    '(st, free) ← cluster_insert (pg_free m) page st;
    mret (Pages st free used).

(** ** Representation *)

(** The cluster [c] holds exactly the page structures [l], first page first. *)
Definition holds (st : page_store) (c : cluster) (l : list loc) : Prop :=
  ring st (pc_head c) l /\ 0 ∉ pc_head c :: l /\ pc_count c = Z.of_nat (length l) /\
  Z.of_nat (length l) < 2 ^ 32.

(** The address a page structure describes, colour bits masked off. *)
Definition page_addr (st : page_store) (p : loc) : Z :=
  Z.land (default 0 (vl st p)) AddressMask.

(** The two clusters are disjoint and their pages have distinct addresses. *)
Record pages_ok (m : pages) (fl ul : list loc) : Prop := {
  po_free : holds (pg_st m) (pg_free m) fl;
  po_used : holds (pg_st m) (pg_used m) ul;
  po_disj : (pc_head (pg_free m) :: fl) ## (pc_head (pg_used m) :: ul);
  po_total : Z.of_nat (length fl + length ul) < 2 ^ 32;
  po_inj : NoDup (page_addr (pg_st m) <$> fl ++ ul);
  po_nz : 0 ∉ (page_addr (pg_st m) <$> fl ++ ul);
  po_heads : page_addr (pg_st m) (pc_head (pg_used m)) = AddressMask;
}.

(** The same without the demand that the addresses are distinct: what the lists
    are while [Memory::init] fills them (MemInit.v). *)
Record lists_ok (m : pages) (fl ul : list loc) : Prop := {
  lo_free : holds (pg_st m) (pg_free m) fl;
  lo_used : holds (pg_st m) (pg_used m) ul;
  lo_disj : (pc_head (pg_free m) :: fl) ## (pc_head (pg_used m) :: ul);
  lo_total : Z.of_nat (length fl + length ul) < 2 ^ 32;
  lo_nz : 0 ∉ (page_addr (pg_st m) <$> fl ++ ul);
  lo_heads : page_addr (pg_st m) (pc_head (pg_used m)) = AddressMask;
}.

Lemma pages_lists m fl ul : pages_ok m fl ul <->
  lists_ok m fl ul /\ NoDup (page_addr (pg_st m) <$> fl ++ ul).
Proof. split; [by intros [] |by intros [[] ?]]. Qed.

(** The abstract pool: the free addresses and the used ones, most recently
    moved first. *)
Definition pool : Type := list Z * list Z.

Definition pool_of (m : pages) (fl ul : list loc) : pool :=
  (page_addr (pg_st m) <$> fl, page_addr (pg_st m) <$> ul).

Definition pool_get (p : pool) : option (Z * pool) :=
  match p with
  | (a :: f, u) => Some (a, (f, a :: u))
  | ([], _) => None
  end.

Fixpoint remove_first (a : Z) (l : list Z) : list Z :=
  match l with
  | [] => []
  | b :: l' => if decide (a = b) then l' else b :: remove_first a l'
  end.

Definition pool_put (a : Z) (p : pool) : option pool :=
  if decide (a ∈ p.2) then Some (a :: p.1, remove_first a p.2) else None.

(** ** Clusters *)

(** What a cluster operation leaves alone: payloads, the set of allocated
    nodes, and the links of every node not in [touched]. *)
Definition only_touches (touched : list loc) (st st' : page_store) : Prop :=
  (forall a, vl st' a = vl st a) /\
  (forall a, is_Some (st' !! a) <-> is_Some (st !! a)) /\
  (forall a, a ∉ touched -> nx st' a = nx st a /\ pv st' a = pv st a).

Lemma only_touches_addr t st st' p : only_touches t st st' ->
  page_addr st' p = page_addr st p.
Proof. intros (H & _). unfold page_addr. by rewrite H. Qed.

Lemma only_touches_ring t st st' h l : only_touches t st st' ->
  (h :: l) ## t -> ring st h l -> ring st' h l.
Proof.
  intros (_ & _ & H) Hd Hr. eapply ring_frame; [exact Hr|].
  intros p Hp. apply H. set_solver.
Qed.

Lemma only_touches_holds t st st' c l : only_touches t st st' ->
  (pc_head c :: l) ## t -> holds st c l -> holds st' c l.
Proof. intros H Hd (Hr & ?). split; [by eapply only_touches_ring|done]. Qed.

Lemma holds_first st c l : holds st c l ->
  get_next st (pc_head c) = Ok (List.hd (pc_head c) l).
Proof. intros (Hr & _). by apply get_next_ok, ring_first. Qed.

Lemma holds_alloc st c l p : holds st c l -> p ∈ pc_head c :: l -> is_Some (st !! p).
Proof. intros (Hr & _). by apply ring_dom. Qed.

Lemma cluster_insert_ok st c l page :
  holds st c l -> page ∉ pc_head c :: l -> page <> 0 -> is_Some (st !! page) ->
  Z.of_nat (S (length l)) < 2 ^ 32 ->
  exists st' c', cluster_insert c page st = Ok (st', c') /\
    pc_head c' = pc_head c /\ holds st' c' (page :: l) /\
    only_touches (page :: pc_head c :: l) st st'.
Proof.
  intros Hh Hp Hnz Ha Hlen. pose proof (holds_first _ _ _ Hh) as Hf.
  assert (Hq : List.hd (pc_head c) l ∈ pc_head c :: l) by apply hd_in.
  pose proof (holds_alloc _ _ _ _ Hh Hq) as Haq.
  assert (Hah : is_Some (st !! pc_head c)) by (eapply holds_alloc; eauto; set_solver).
  destruct Hh as (Hr & H0 & Hc & Hl).
  assert (Hqz : List.hd (pc_head c) l <> 0) by (intros E; rewrite E in Hq; done).
  assert (page <> pc_head c /\ page <> List.hd (pc_head c) l) as [Hph Hpq].
  { split; intros ->; [apply Hp; left | done]. }
  unfold cluster_insert. rewrite Hf. cbn -[Z.of_nat].
  rewrite !(proj2 (Z.eqb_neq _ _)) by done. cbn -[Z.of_nat].
  do_write. do_write; [naive_solver|]. do_write; [naive_solver|]. do_write; [naive_solver|].
  eexists _, _. split_and!; [done|done| |].
  - split_and!; cbn -[Z.of_nat].
    + apply (ring_insert st _ _ [] l page (pc_head c) (List.hd (pc_head c) l)); auto.
      all: intros; rewrite ?Hpv2, ?Hpv1, ?Hpv0, ?Hpv, ?Hnx2, ?Hnx1, ?Hnx0, ?Hnx;
        repeat case_decide; congruence.
    + set_solver.
    + rewrite Hc, wrap_id by (unfold uint; lia). lia.
    + lia.
  - split_and!.
    + intros a. by rewrite Hvl2, Hvl1, Hvl0, Hvl.
    + intros a. by rewrite Hdom2, Hdom1, Hdom0, Hdom.
    + intros a Hat. assert (a <> page /\ a <> pc_head c /\ a <> List.hd (pc_head c) l)
        as (?&?&?) by (clear -Hat Hq; set_solver).
      rewrite Hpv2, Hpv1, Hpv0, Hpv, Hnx2, Hnx1, Hnx0, Hnx.
      rewrite !decide_False by done. done.
Qed.

Lemma cluster_remove_ok st c l k page :
  holds st c (l ++ page :: k) ->
  exists st' c', cluster_remove c page st = Ok (st', c') /\
    pc_head c' = pc_head c /\ holds st' c' (l ++ k) /\
    only_touches (pc_head c :: l ++ k) st st'.
Proof.
  intros Hh. assert (Hh' := Hh). destruct Hh' as (Hr & H0 & Hc & Hl).
  assert (Hd := proj2 Hr). apply dseg_app in Hd as [Hd1 Hd2].
  assert (Hpp : get_prev st page = Ok (last_of (pc_head c) l)).
  { apply get_prev_ok. by apply dseg_last. }
  assert (Hpn : get_next st page = Ok (List.hd (pc_head c) k)).
  { apply get_next_ok. destruct k; cbn in *; tauto. }
  assert (Hlast := last_of_in (pc_head c) l). assert (Hhd := hd_in (pc_head c) k).
  assert (Hal : is_Some (st !! last_of (pc_head c) l)).
  { eapply holds_alloc; [exact Hh|]. clear -Hlast; set_solver. }
  assert (Hah : is_Some (st !! List.hd (pc_head c) k)).
  { eapply holds_alloc; [exact Hh|]. clear -Hhd; set_solver. }
  assert (page <> 0 /\ last_of (pc_head c) l <> 0 /\ List.hd (pc_head c) k <> 0)
    as (Hz1 & Hz2 & Hz3).
  { split_and!; eapply elem_neq'; try exact H0; clear -Hlast Hhd; set_solver. }
  unfold cluster_remove. rewrite Hpp, Hpn. cbn -[Z.of_nat].
  rewrite !(proj2 (Z.eqb_neq _ _)) by done. cbn -[Z.of_nat].
  do_write. do_write; [naive_solver|].
  eexists _, _. split_and!; [done|done| |].
  - split_and!; cbn -[Z.of_nat].
    + eapply (ring_remove st _ _ l k page); [exact Hr|done|done|..];
        intros; rewrite ?Hpv0, ?Hpv, ?Hnx0, ?Hnx; repeat case_decide; congruence.
    + clear -H0; set_solver.
    + rewrite Hc, wrap_id; rewrite !length_app in *; cbn [length] in *; unfold uint; lia.
    + rewrite !length_app in *; cbn [length] in *; lia.
  - split_and!.
    + intros a. by rewrite Hvl0, Hvl.
    + intros a. by rewrite Hdom0, Hdom.
    + intros a Hat. assert (a <> last_of (pc_head c) l /\ a <> List.hd (pc_head c) k)
        as (?&?) by (clear -Hat Hlast Hhd; set_solver).
      rewrite Hpv0, Hpv, Hnx0, Hnx. by rewrite !decide_False.
Qed.

(** A page address is page aligned, so it never equals [Invalid]. *)
Lemma land_AddressMask_neq a : Z.land a AddressMask <> Invalid.
Proof.
  intros H. assert (Z.testbit (Z.land a AddressMask) 0 = Z.testbit Invalid 0) as E by by rewrite H.
  rewrite Z.land_spec in E. cbn in E. by rewrite andb_false_r in E.
Qed.

Lemma getAddress_ok st p : is_Some (st !! p) -> getAddress st p = Ok (page_addr st p).
Proof.
  intros [n Hn]. unfold getAddress, page_addr, get_val, vl. by rewrite Hn.
Qed.

Lemma page_addr_valid st p : page_addr st p =? Invalid = false.
Proof. apply Z.eqb_neq, land_AddressMask_neq. Qed.

Lemma cluster_get_ok st c page l :
  holds st c (page :: l) ->
  exists st' c', cluster_get c st = Ok (page, st', c') /\
    pc_head c' = pc_head c /\ holds st' c' l /\ only_touches (pc_head c :: l) st st'.
Proof.
  intros Hh. unfold cluster_get. rewrite (holds_first _ _ _ Hh). cbn.
  rewrite getAddress_ok by (eapply holds_alloc; eauto; set_solver). cbn.
  rewrite page_addr_valid. cbn.
  destruct (cluster_remove_ok st c [] l page Hh) as (st' & c' & -> & H). cbn. eauto.
Qed.

(** [find] returns the page of that address when the list holds it ... *)
Lemma find_loop_found st a l1 p l2 x b fuel :
  dseg st a (l1 ++ p :: l2) b -> x = List.hd p l1 ->
  page_addr st p ∉ (page_addr st <$> l1) ->
  (length l1 < fuel)%nat ->
  find_loop fuel st x (page_addr st p) = Ok p.
Proof.
  revert a x fuel; induction l1 as [|y l1 IH]; intros a x [|fuel] Hd -> Hn Hf; try (cbn in Hf; lia).
  - cbn [List.hd find_loop]. destruct Hd as (_ & Hpv & _).
    rewrite getAddress_ok; [|unfold pv in Hpv; destruct (st !! p); [eauto|done]].
    cbn. by rewrite page_addr_valid, Z.eqb_refl.
  - cbn [List.hd find_loop]. cbn in Hd. destruct Hd as (_ & Hpv & Hd).
    rewrite getAddress_ok; [|unfold pv in Hpv; destruct (st !! y); [eauto|done]].
    cbn. rewrite page_addr_valid. cbn.
    rewrite (proj2 (Z.eqb_neq _ _)) by (cbn in Hn; set_solver).
    assert (get_next st y = Ok (List.hd p l1)) as ->.
    { apply get_next_ok. destruct l1; cbn in Hd; tauto. }
    cbn. eapply IH; eauto; [cbn in Hn; set_solver | cbn in Hf; lia].
Qed.

(** ... and when it does not, the loop goes round the ring for ever, because
    no masked address can equal [Invalid]. *)
Lemma find_loop_diverges st h l address fuel x :
  ring st h l -> x ∈ h :: l -> address ∉ (page_addr st <$> h :: l) ->
  find_loop fuel st x address = NoFuel.
Proof.
  intros Hr. revert x; induction fuel as [|fuel IH]; intros x Hx Ha; [done|].
  cbn [find_loop]. rewrite getAddress_ok by by eapply ring_dom.
  cbn. rewrite page_addr_valid. cbn.
  rewrite (proj2 (Z.eqb_neq _ _)).
  2:{ intros <-. apply Ha. apply list_elem_of_fmap. eauto. }
  destruct (ring_next _ _ _ _ Hr Hx) as (y & Hy & Hin).
  assert (get_next st x = Ok y) as -> by by apply get_next_ok.
  cbn. apply IH; auto.
Qed.

(** ** The two clusters together *)

Lemma fmap_addr_ext (st st' : page_store) (l : list Z) :
  (forall q, page_addr st' q = page_addr st q) -> page_addr st' <$> l = page_addr st <$> l.
Proof. intros H. apply list_fmap_ext. auto. Qed.

Lemma fmap_addr_touches t st st' (l : list Z) : only_touches t st st' ->
  page_addr st' <$> l = page_addr st <$> l.
Proof. intros H. apply list_fmap_ext. intros ? p _. by eapply only_touches_addr. Qed.

Lemma only_touches_trans t t' st st' st'' :
  only_touches t st st' -> only_touches t' st' st'' -> only_touches (t ++ t') st st''.
Proof.
  intros (A1 & A2 & A3) (B1 & B2 & B3). split_and!; intros a.
  - by rewrite B1. - by rewrite B2.
  - rewrite elem_of_app. intros Hn. apply Decidable.not_or in Hn as [??].
    destruct (A3 a), (B3 a); auto. split; congruence.
Qed.

Lemma remove_first_mid a l k : a ∉ l -> remove_first a (l ++ a :: k) = l ++ k.
Proof.
  induction l as [|b l IH]; intros H; cbn; [by rewrite decide_True|].
  rewrite decide_False by set_solver. rewrite IH by set_solver. done.
Qed.

Lemma remove_first_perm a l : a ∈ l -> a :: remove_first a l ≡ₚ l.
Proof.
  intros (l1 & l2 & -> & H)%list_elem_of_split_l.
  rewrite remove_first_mid by done. apply Permutation_middle.
Qed.

(** [move_ok]: unlinking [p] from one cluster and pushing it on the other keeps
    the partition.  Both [getPage] and [putPage] are instances. *)
Lemma move_ok st c1 c2 l k p l2 :
  holds st c1 (l ++ p :: k) -> holds st c2 l2 ->
  (pc_head c1 :: l ++ p :: k) ## (pc_head c2 :: l2) ->
  Z.of_nat (length (l ++ p :: k) + length l2) < 2 ^ 32 ->
  exists st1 c1' st2 c2',
    cluster_remove c1 p st = Ok (st1, c1') /\ cluster_insert c2 p st1 = Ok (st2, c2') /\
    pc_head c1' = pc_head c1 /\ pc_head c2' = pc_head c2 /\
    holds st2 c1' (l ++ k) /\ holds st2 c2' (p :: l2) /\
    (pc_head c1 :: l ++ k) ## (pc_head c2 :: p :: l2) /\
    only_touches (pc_head c1 :: l ++ k ++ p :: pc_head c2 :: l2) st st2.
Proof.
  intros H1 H2 Hd Hlen.
  destruct (cluster_remove_ok _ _ _ _ _ H1) as (st1 & c1' & E1 & Hh1 & H1' & T1).
  assert (Hp1 : p ∉ pc_head c1 :: l ++ k).
  { destruct H1 as ([Hn _] & _). apply (NoDup_app_cons_comm (pc_head c1 :: l)) in Hn.
    by apply NoDup_cons in Hn as [? _]. }
  assert (Hp2 : p ∉ pc_head c2 :: l2) by (clear -Hd; set_solver).
  assert (H2' : holds st1 c2 l2).
  { eapply only_touches_holds; [exact T1| |done]. clear -Hd; set_solver. }
  destruct (cluster_insert_ok st1 c2 l2 p) as (st2 & c2' & E2 & Hh2 & H2'' & T2); auto.
  - destruct H1 as (_ & H0 & _). eapply elem_neq'; [exact H0|]. clear; set_solver.
  - apply T1. eapply holds_alloc; [exact H1|]. clear; set_solver.
  - rewrite length_app in Hlen. cbn [length] in *. lia.
  - exists st1, c1', st2, c2'. split_and!; auto.
    + eapply only_touches_holds; [exact T2| |done]. rewrite Hh1. clear -Hd Hp1; set_solver.
    + clear -Hd Hp1. set_unfold. naive_solver.
    + pose proof (only_touches_trans _ _ _ _ _ T1 T2) as (? & ? & T).
      split_and!; auto. intros a Ha. apply T. clear -Ha. set_solver.
Qed.

(** The fuel that [find] needs when the address is on the list. *)
Definition find_fuel (ul : list loc) : nat := S (length ul).

Lemma fmap_addr_split (st : page_store) ul a : a ∈ (page_addr st <$> ul) ->
  exists l p k, ul = l ++ p :: k /\ page_addr st p = a /\ a ∉ (page_addr st <$> l).
Proof.
  induction ul as [|q ul IH]; cbn; intros H; [set_solver|].
  destruct (decide (page_addr st q = a)) as [Heq|Hne].
  - exists [], q, ul. split_and!; [done|done|set_solver].
  - apply elem_of_cons in H as [H|H]; [congruence|].
    destruct (IH H) as (l & p & k & -> & Hp & Hn).
    exists (q :: l), p, k. split_and!; [done|done|set_solver].
Qed.

(** The two steps of the pool. *)
Lemma getPage_lists m p fl ul : lists_ok m (p :: fl) ul ->
  exists m', getPage m = Ok (page_addr (pg_st m) p, m') /\ lists_ok m' fl (p :: ul) /\
    (forall q, page_addr (pg_st m') q = page_addr (pg_st m) q) /\
    (forall q, is_Some (pg_st m' !! q) <-> is_Some (pg_st m !! q)).
Proof.
  intros [Hf Hu Hd Ht Hnz Hh].
  destruct (move_ok (pg_st m) (pg_free m) (pg_used m) [] fl p ul)
    as (st1 & c1 & st2 & c2 & E1 & E2 & Hc1 & Hc2 & H1 & H2 & Hdj & T); auto.
  unfold getPage. destruct Hf as (Hr & H0 & Hc & Hl).
  rewrite (proj2 (Z.eqb_neq _ _)) by (rewrite Hc; cbn [length]; lia).
  unfold cluster_get. rewrite (proj2 (get_next_ok _ _ _) (ring_first _ _ _ Hr)). cbn.
  rewrite getAddress_ok by (eapply ring_dom; eauto; clear; set_solver). cbn.
  rewrite page_addr_valid. cbn. rewrite E1. cbn.
  rewrite (proj2 (Z.eqb_neq _ _)) by (eapply elem_neq'; [exact H0|clear; set_solver]).
  cbn. rewrite E2. cbn.
  rewrite getAddress_ok by (eapply holds_alloc; eauto; clear; set_solver). cbn.
  eexists. split; [by erewrite only_touches_addr|]. split; [|split; [intros; by eapply only_touches_addr|apply T]].
  constructor; cbn [pg_st pg_free pg_used]; auto.
  - rewrite Hc1, Hc2. clear -Hdj. set_solver.
  - cbn [length] in *. lia.
  - rewrite (fmap_addr_touches _ _ _ _ T). clear -Hnz; set_solver.
  - by rewrite (only_touches_addr _ _ _ _ T), Hc2.
Qed.

Lemma getPage_pool m p fl ul : pages_ok m (p :: fl) ul ->
  exists m', getPage m = Ok (page_addr (pg_st m) p, m') /\ pages_ok m' fl (p :: ul) /\
    (forall q, page_addr (pg_st m') q = page_addr (pg_st m) q).
Proof.
  rewrite pages_lists. intros [Hl Hi]. destruct (getPage_lists _ _ _ _ Hl) as (m' & E & Hl' & Ha & _).
  exists m'. split; [done|]. split; [|done]. apply pages_lists. split; [done|].
  rewrite (fmap_addr_ext _ _ _ Ha). by rewrite <-Permutation_middle.
Qed.

(** A new structure at the head of a list; the other list stays as it is. *)
Lemma insert_fresh st c l c2 l2 p a : holds st c l -> holds st c2 l2 ->
  (pc_head c :: l) ## (pc_head c2 :: l2) -> st !! p = None -> p <> 0 ->
  Z.of_nat (S (length l)) < 2 ^ 32 ->
  exists st' c', cluster_insert c p (page_init_at p a st) = Ok (st', c') /\
    pc_head c' = pc_head c /\ holds st' c' (p :: l) /\ holds st' c2 l2 /\ p ∉ pc_head c2 :: l2 /\
    (forall q, page_addr st' q = if decide (q = p) then Z.land a AddressMask else page_addr st q) /\
    (forall q, is_Some (st' !! q) <-> q = p \/ is_Some (st !! q)).
Proof.
  intros H1 H2 Hd Hp Hnz Hl. unfold page_init_at. set (st0 := <[p := Node p p a]> st).
  assert (forall c l, holds st c l -> p ∉ pc_head c :: l) as Hnin.
  { intros c0 l0 H0 Hin. destruct (holds_alloc _ _ _ _ H0 Hin) as [x Hx]. congruence. }
  assert (forall q, q <> p -> st0 !! q = st !! q) as Hst by (intros; by apply lookup_insert_ne).
  assert (forall c l, holds st c l -> holds st0 c l) as Hh.
  { intros c0 l0 H0. pose proof (Hnin _ _ H0) as Hn. destruct H0 as (Hr & Hx). split; [|exact Hx].
    eapply ring_frame; [exact Hr|]. intros q Hq. unfold nx, pv. rewrite Hst; [done|].
    intros ->. done. }
  destruct (cluster_insert_ok st0 c l p) as (st' & c' & E & Hc & H' & T); auto.
  { unfold st0. by rewrite lookup_insert_eq. }
  exists st', c'. split_and!; auto.
  - eapply only_touches_holds; [exact T| |by apply Hh].
    pose proof (Hnin _ _ H2) as Hn. clear -Hd Hn. set_solver.
  - intros q. rewrite (only_touches_addr _ _ _ _ T). unfold page_addr, vl, st0.
    rewrite lookup_insert. by repeat case_decide; subst.
  - intros q. destruct T as (_ & -> & _). unfold st0. rewrite lookup_insert.
    case_decide as Eq; [subst; split; [by left|by eexists]|].
    split; [by right|intros [->|Hs]; done].
Qed.

Lemma putPage_pool m fl l p k fuel : pages_ok m fl (l ++ p :: k) ->
  (length l < fuel)%nat ->
  exists m', putPage fuel (page_addr (pg_st m) p) m = Ok m' /\ pages_ok m' (p :: fl) (l ++ k) /\
    (forall q, page_addr (pg_st m') q = page_addr (pg_st m) q).
Proof.
  intros [Hf Hu Hd Ht Hi Hnz Hh] Hfuel.
  destruct (move_ok (pg_st m) (pg_used m) (pg_free m) l k p fl)
    as (st1 & c1 & st2 & c2 & E1 & E2 & Hc1 & Hc2 & H1 & H2 & Hdj & T); auto.
  { clear -Hd. set_solver. }
  { lia. }
  unfold putPage, cluster_find. assert (Hu' := Hu). destruct Hu' as (Hr & H0 & Hc & Hl).
  rewrite (proj2 (get_next_ok _ _ _) (ring_first _ _ _ Hr)). cbn [mbind res_bind].
  erewrite find_loop_found; [|exact (proj2 Hr)|by destruct l| |done].
  2:{ rewrite fmap_app in Hi. apply NoDup_app in Hi as (_ & _ & Hi).
      rewrite fmap_app in Hi. apply NoDup_app in Hi as (_ & Hi & _).
      intros Hin. eapply Hi; [exact Hin|]. cbn. left. }
  cbn [mbind res_bind].
  rewrite (proj2 (Z.eqb_neq _ _)) by (eapply elem_neq'; [exact H0|clear; set_solver]).
  rewrite E1. cbn. rewrite E2. cbn.
  eexists. split; [done|]. split; [|intros; by eapply only_touches_addr].
  assert (HP : fl ++ l ++ p :: k ≡ₚ (p :: fl) ++ l ++ k) by (cbn; solve_Permutation).
  assert (Hi' : NoDup (page_addr (pg_st m) <$> (p :: fl) ++ l ++ k)) by (by rewrite <-HP).
  assert (Hnz' : 0 ∉ (page_addr (pg_st m) <$> (p :: fl) ++ l ++ k)) by (by rewrite <-HP).
  constructor; cbn [pg_st pg_free pg_used]; auto.
  - rewrite Hc1, Hc2. clear -Hdj. set_solver.
  - rewrite !length_app in *. cbn [length] in *. lia.
  - rewrite (fmap_addr_touches _ _ _ _ T). exact Hi'.
  - rewrite (fmap_addr_touches _ _ _ _ T). exact Hnz'.
  - by rewrite (only_touches_addr _ _ _ _ T), Hc1.
Qed.

(** ** What the page lists promise *)

(** [getPage] and [putPage] implement the pool: on a well-formed state the
    call succeeds exactly when the pool operation is defined ([getPage] panics
    on an empty pool), returns the pool's answer and leaves the pool's next
    state. *)
Definition get_refines (m : pages) (fl ul : list loc) : Prop :=
  match pool_get (pool_of m fl ul) with
  | Some (a, p') => exists m' fl' ul',
      getPage m = Ok (a, m') /\ pages_ok m' fl' ul' /\ pool_of m' fl' ul' = p'
  | None => getPage m = Panic
  end.

Definition put_refines (m : pages) (fl ul : list loc) (a : Z) : Prop :=
  match pool_put a (pool_of m fl ul) with
  | Some p' => exists m' fl' ul',
      putPage (find_fuel ul) a m = Ok m' /\ pages_ok m' fl' ul' /\ pool_of m' fl' ul' = p'
  | None => forall fuel, a <> AddressMask -> putPage fuel a m = NoFuel
  end.

Lemma getPage_dry m ul : lists_ok m [] ul -> getPage m = Panic.
Proof. intros [(_ & _ & Hc & _) _ _ _ _ _]. unfold getPage. by rewrite Hc. Qed.

Lemma getPage_empty m ul : pages_ok m [] ul -> getPage m = Panic.
Proof. intros [Hl _]%pages_lists. by eapply getPage_dry. Qed.

Lemma putPage_unused m fl ul a fuel :
  pages_ok m fl ul -> a ∉ (page_addr (pg_st m) <$> ul) -> a <> AddressMask ->
  putPage fuel a m = NoFuel.
Proof.
  intros Hok Ha Hm. unfold putPage, cluster_find.
  destruct (po_used _ _ _ Hok) as (Hr & _).
  rewrite (proj2 (get_next_ok _ _ _) (ring_first _ _ _ Hr)). cbn [mbind res_bind].
  erewrite find_loop_diverges; [done|exact Hr|apply hd_in|].
  cbn. rewrite (po_heads _ _ _ Hok). set_solver.
Qed.

(** Taking a page.  On well-formed page lists [Memory::getPage] is the
    pool's operation: it panics exactly when no page is free, and otherwise
    returns the address of the most recently freed page, which is then at the
    head of the used list; the lists stay well formed. *)
Theorem getPage_refines_pool m fl ul : pages_ok m fl ul -> get_refines m fl ul.
Proof.
  intros Hok. unfold get_refines, pool_of. destruct fl as [|p fl]; cbn.
  - by eapply getPage_empty.
  - destruct (getPage_pool _ _ _ _ Hok) as (m' & E & Hok' & Ha).
    exists m', fl, (p :: ul). split_and!; [done|done|]. cbn. by rewrite Ha, !(fmap_addr_ext _ _ _ Ha).
Qed.

(** Returning a page.  For an address in use [Memory::putPage] succeeds
    with an explicit bound on its search and moves that page to the free list;
    for any other address but [AddressMask] the search of the used list does
    not end: the test of [PageCluster::find] for the sentinel, a masked address compared with the
    unmasked [Invalid], never holds. *)
Theorem putPage_refines_pool m fl ul a : pages_ok m fl ul -> put_refines m fl ul a.
Proof.
  intros Hok. unfold put_refines, pool_put, pool_of. cbn. case_decide as Hin.
  - destruct (fmap_addr_split _ _ _ Hin) as (l & p & k & -> & <- & Hn).
    destruct (putPage_pool m fl l p k (find_fuel (l ++ p :: k)) Hok)
      as (m' & E & Hok' & Ha).
    { unfold find_fuel. rewrite length_app. lia. }
    exists m', (p :: fl), (l ++ k). split_and!; [done|done|].
    rewrite (fmap_app _ l (p :: k)), (fmap_cons _ p k), remove_first_mid by done.
    unfold pool_of. by rewrite fmap_app, fmap_cons, Ha, !(fmap_addr_ext _ _ _ Ha).
  - intros fuel Hm. by eapply putPage_unused.
Qed.

(** C1: the physical pages are a pool of frames: from well-formed lists, every
    request refines the pool's.  [Memory::getPage] panics exactly when no page
    is free, and otherwise takes the most recently freed page, which is then at
    the head of the used list.  [Memory::putPage] of an address in use finishes
    its search within an explicit bound and puts that page at the head of the
    free list; of any other address, 0xfffff000 apart, the search of the used
    list does not end: the test of [PageCluster::find] for the sentinel, a
    masked address compared with the unmasked [Invalid], never holds.  The
    exception is [AddressMask], the masked address of the sentinel itself, which
    the search would take for a page. *)
Theorem frames_refine_pool m fl ul : pages_ok m fl ul ->
  get_refines m fl ul /\ forall a, put_refines m fl ul a.
Proof.
  intros Hok. split; [by apply getPage_refines_pool|]. intros a. by apply putPage_refines_pool.
Qed.

(** ** Sequences of requests *)

Inductive page_op := OpGet | OpPut (a : Z).

#[export] Instance page_op_eq_dec : EqDecision page_op.
Proof. solve_decision. Defined.

(** What a request returned to its caller: the address of the page it got, or
    the page it gave back. *)
Inductive page_event := Got (a : Z) | Gave (a : Z).

#[export] Instance page_event_eq_dec : EqDecision page_event.
Proof. solve_decision. Defined.

Definition event_addr (e : page_event) : Z :=
  match e with Got a | Gave a => a end.

Definition page_step (m : pages) (fuel : nat) (o : page_op) : res (page_event * pages) :=
  match o with
  | OpGet => '(a, m) ← getPage m; mret (Got a, m)
  | OpPut a => m ← putPage fuel a m; mret (Gave a, m)
  end.

Fixpoint page_run (m : pages) (fuel : nat) (os : list page_op)
    : res (list page_event * pages) :=
  match os with
  | [] => mret ([], m)
  | o :: os =>
      '(e, m) ← page_step m fuel o;
      '(es, m) ← page_run m fuel os;
      mret (e :: es, m)
  end.

Definition all_addrs (m : pages) (fl ul : list loc) : list Z :=
  page_addr (pg_st m) <$> fl ++ ul.

(** The addresses in use. *)
Definition used_addrs (m : pages) (ul : list loc) : gset Z :=
  list_to_set (page_addr (pg_st m) <$> ul).

(** The callers' side: who watches only the answers keeps the set of addresses
    that were handed out and not yet given back.  An address handed out while
    it is held, or given back while it is not, breaks the bookkeeping. *)
Definition own_event (held : gset Z) (e : page_event) : option (gset Z) :=
  match e with
  | Got a => if decide (a ∈ held) then None else Some ({[a]} ∪ held)
  | Gave a => if decide (a ∈ held) then Some (held ∖ {[a]}) else None
  end.

Fixpoint owners (held : gset Z) (es : list page_event) : option (gset Z) :=
  match es with
  | [] => Some held
  | e :: es => own_event held e ≫= λ held, owners held es
  end.

Lemma page_step_ok m fl ul o e m' fuel : pages_ok m fl ul ->
  (forall a, o = OpPut a -> a <> AddressMask) ->
  (length ul < fuel)%nat ->
  page_step m fuel o = Ok (e, m') ->
  exists fl' ul', pages_ok m' fl' ul' /\ all_addrs m' fl' ul' ≡ₚ all_addrs m fl ul /\
    event_addr e ∈ all_addrs m fl ul /\
    own_event (used_addrs m ul) e = Some (used_addrs m' ul').
Proof.
  intros Hok Hmask Hfuel Hs. pose proof (po_inj _ _ _ Hok) as Hnd.
  unfold all_addrs, used_addrs. destruct o as [|a]; cbn in Hs.
  - destruct fl as [|p fl]; [by rewrite (getPage_empty _ _ Hok) in Hs|].
    destruct (getPage_pool _ _ _ _ Hok) as (m1 & E & Hok' & Ha). rewrite E in Hs.
    injection Hs as <- <-. exists fl, (p :: ul).
    rewrite !(fmap_addr_ext _ _ _ Ha). split_and!; [done| |cbn; set_solver|].
    + by rewrite <-Permutation_middle.
    + cbn [own_event]. rewrite decide_False; [done|].
      cbn in Hnd. apply NoDup_cons in Hnd as [Hn _]. rewrite fmap_app in Hn. set_solver.
  - destruct (decide (a ∈ (page_addr (pg_st m) <$> ul))) as [Hin|Hin].
    2:{ by rewrite (putPage_unused _ _ _ _ _ Hok Hin) in Hs by eauto. }
    destruct (fmap_addr_split _ _ _ Hin) as (l & p & k & -> & <- & Hn).
    destruct (putPage_pool m fl l p k fuel Hok) as (m1 & E & Hok' & Ha).
    { rewrite length_app in Hfuel. lia. }
    rewrite E in Hs. injection Hs as <- <-. exists (p :: fl), (l ++ k).
    rewrite !(fmap_addr_ext _ _ _ Ha). split_and!; [done| |cbn; set_solver|].
    + apply fmap_Permutation. cbn. solve_Permutation.
    + cbn [own_event]. rewrite decide_True by set_solver. f_equal.
      rewrite fmap_app in Hnd. apply NoDup_app in Hnd as (_ & _ & Hnd).
      rewrite fmap_app in Hnd. cbn in Hnd. apply (NoDup_app_cons_comm (page_addr (pg_st m) <$> l)) in Hnd.
      apply NoDup_cons in Hnd as [Hnd _]. rewrite <-fmap_app in Hnd.
      rewrite !fmap_app, fmap_cons in *. set_solver.
Qed.

(** C2: no page is lost or handed out twice.  Whatever the sequence of requests
    that a well-formed state completes, whoever watches the answers can keep
    account of who holds what: no request gets an address that was handed out
    before and not given back since, no address is given back that is not held,
    and the addresses so held at the end are exactly those of the used list.
    The pages the state tracks afterwards are the same as before, every one on
    exactly one of the two lists, and every address handed out or given back is
    one of them.  (Putting back [AddressMask], 0xfffff000, is left out: that is
    the masked address of the list's sentinel, which [PageCluster::find] takes
    for a page.) *)
Theorem page_run_conserves m fl ul os fuel es m' :
  pages_ok m fl ul ->
  (length fl + length ul < fuel)%nat ->
  OpPut AddressMask ∉ os ->
  page_run m fuel os = Ok (es, m') ->
  exists fl' ul', pages_ok m' fl' ul' /\ all_addrs m' fl' ul' ≡ₚ all_addrs m fl ul /\
    NoDup (all_addrs m' fl' ul') /\
    Forall (λ e, event_addr e ∈ all_addrs m fl ul) es /\
    owners (used_addrs m ul) es = Some (used_addrs m' ul').
Proof.
  revert m fl ul es; induction os as [|o os IH]; intros m fl ul es Hok Hfuel Hmask Hrun; cbn in Hrun.
  - injection Hrun as <- <-. exists fl, ul. split_and!; [done|done|apply Hok|done|done].
  - apply res_bind_ok in Hrun as ([e m1] & Hs & Hrun).
    apply res_bind_ok in Hrun as ([es1 m2] & Hrun & [= <- <-]).
    destruct (page_step_ok m fl ul o e m1 fuel) as (fl1 & ul1 & Hok1 & HP & He & Ho);
      [done| |lia|done|].
    { intros a -> ->. set_solver. }
    destruct (IH m1 fl1 ul1 es1 Hok1) as (fl' & ul' & ? & HP' & ? & Hes & Hos); auto.
    + apply Permutation_length in HP. unfold all_addrs in HP.
      rewrite !length_fmap, !length_app in HP. lia.
    + set_solver.
    + exists fl', ul'. split_and!; auto; [by rewrite HP'| |].
      * constructor; [done|]. eapply Forall_impl; [exact Hes|]. cbn. intros ev. by rewrite HP.
      * cbn [owners]. by rewrite Ho.
Qed.

(** ** A machine with three pages *)

(** Two free pages and a used one. *)
Definition three_pages : pages :=
  Pages (<[16 := Node 64 48 Invalid]> (<[48 := Node 16 64 0x100000]>
         (<[64 := Node 48 16 0x101000]> (<[32 := Node 80 80 Invalid]>
         (<[80 := Node 32 32 0x102000]> ∅)))))
    (Cluster 16 2) (Cluster 32 1).

Lemma three_pages_ok : pages_ok three_pages [48; 64] [80].
Proof.
  constructor; cbn [pg_free pg_used three_pages pc_head].
  - split_and!; [|set_solver|done|done]. split; [by eapply bool_decide_unpack; vm_compute|].
    by vm_compute.
  - split_and!; [|set_solver|done|done]. split; [by eapply bool_decide_unpack; vm_compute|].
    by vm_compute.
  - set_solver.
  - done.
  - by eapply bool_decide_unpack; vm_compute.
  - by eapply bool_decide_unpack; vm_compute.
  - by vm_compute.
Qed.

Lemma getPage_refines_pool_witness :
  get_refines three_pages [48; 64] [80] /\ (fst <$> getPage three_pages) = Ok 0x100000.
Proof. split; [apply (getPage_refines_pool _ _ _ three_pages_ok)|vm_compute; reflexivity]. Defined.

Lemma putPage_refines_pool_witness :
  put_refines three_pages [48; 64] [80] 0x102000 /\ put_refines three_pages [48; 64] [80] 0x100000.
Proof. split; apply (putPage_refines_pool _ _ _ _ three_pages_ok). Defined.

Lemma frames_refine_pool_witness :
  get_refines three_pages [48; 64] [80] /\ (fst <$> getPage three_pages) = Ok 0x100000 /\
  put_refines three_pages [48; 64] [80] 0x102000 /\ put_refines three_pages [48; 64] [80] 0x100000.
Proof.
  destruct (frames_refine_pool _ _ _ three_pages_ok) as [Hg Hp].
  split; [exact Hg|]. split; [vm_compute; reflexivity|]. split; apply Hp.
Defined.

Lemma page_run_conserves_witness : exists m' fl' ul',
  let os := [OpGet; OpPut 0x102000; OpGet; OpGet] in
  let es := [Got 0x100000; Gave 0x102000; Got 0x102000; Got 0x101000] in
  page_run three_pages 5 os = Ok (es, m') /\
  pages_ok m' fl' ul' /\ all_addrs m' fl' ul' ≡ₚ [0x100000; 0x101000; 0x102000] /\
  owners {[0x102000]} es = Some (used_addrs m' ul') /\
  owners {[0x102000]} [Got 0x100000; Got 0x100000] = None.
Proof.
  destruct (page_run three_pages 5 [OpGet; OpPut 0x102000; OpGet; OpGet]) as [[es m']| | |] eqn:E;
    try (vm_compute in E; discriminate E).
  destruct (page_run_conserves three_pages [48; 64] [80] [OpGet; OpPut 0x102000; OpGet; OpGet]
    5 es m' three_pages_ok) as (fl' & ul' & ? & HP & _ & _ & Ho); [cbn; lia| |done|].
  - by eapply bool_decide_unpack; vm_compute.
  - assert (es = [Got 0x100000; Gave 0x102000; Got 0x102000; Got 0x101000]) as ->.
    { revert E. vm_compute. congruence. }
    exists m', fl', ul'. split; [done|]. split; [done|]. split; [|split].
    + rewrite HP. vm_compute. reflexivity.
    + rewrite <-Ho. f_equal.
    + reflexivity.
Defined.
