(* ===== verification/PageTables.v ===== *)
(** * Page directory and page tables

    Models the run-time half of X86/PageDirectory.cc: the two-level x86 tables
    seen through the recursive mapping.  Directory entry 1023 maps the
    directory itself, so the kernel reads and writes table words at virtual
    addresses: the entry of the page at [v] is the word at
    [PageTableBase + 4 * (v / 4096)], and the directory entry of [v] the word at
    [PageDirectoryBase + 4 * (v / 2^22)], which is itself one of the former
    words.  [mm_pt] holds the words of that window, so the aliasing between the
    two kinds of entry is the machine's.  [x86_invlpg] has no effect here: the
    model has no translation cache.

    The contract is the map [entry] from page addresses to table words: mapping
    and unmapping a page change that word and no other page's. *)

From S2P Require Import Prelude.
From S2P Require Import Words.
From S2P Require Import PhysPages.
From Stdlib Require Import ZArith Lia.
From stdpp Require Import prelude gmap list.

Open Scope Z_scope.

(** ** Constants (Include/X86/Parameters.hh, X86/PageDirectory.cc) *)

Definition PageTableBase : Z := 0xffc00000.
Definition PageDirectoryBase : Z := 0xfffff000.

Definition Present : Z := Z.shiftl 1 0.
Definition Writable : Z := Z.shiftl 1 1.
Definition User : Z := Z.shiftl 1 2.
Definition DontCache : Z := Z.shiftl 1 4.
Definition Lazy : Z := Z.shiftl 1 8.

Module Flags.
Definition None : Z := 0.
Definition Lazy : Z := Z.shiftl 1 0.
Definition Uncacheable : Z := Z.shiftl 1 1.
Definition User : Z := Z.shiftl 1 2.
End Flags.

(** [x & y] used as a condition. *)
Definition has (x y : Z) : bool := negb (Z.land x y =? 0).

(** ** State *)

Record mm : Type := MM {
  mm_pages : pages;
  mm_pt : gmap Z Z;
  mm_mapEnd : Z;
}.

Definition rd (pt : gmap Z Z) (a : Z) : Z := default 0 (pt !! a).

(** [memset((void * )a, 0, PageSize)] on the window: absent words read as 0. *)
Definition pt_clear (a : Z) (pt : gmap Z Z) : gmap Z Z :=
  filter (λ e : Z * Z, ¬ (a <= e.1 < a + PageSize)) pt.

(** ** Addresses of entries *)

Definition addressToPdeIndex (address : Z) : Z := Z.shiftr address 22.

Definition addressToPteIndex (address : Z) : Z :=
  Z.land (Z.shiftr address 12) 0x3ff.

Definition addressToPde (address pageDirectoryBase : Z) : Z :=
  let index := addressToPdeIndex address in
  u32 (pageDirectoryBase + u32 (index * 4)).

Definition addressToPte (address pageTableBase : Z) : Z :=
  let pdeIndex := addressToPdeIndex address in
  let pteIndex := addressToPteIndex address in
  u32 (pageTableBase + u32 (pdeIndex * 0x1000) + u32 (pteIndex * 4)).

(** ** Operations *)

(** The directory entry: allocate a page for the table if there is none. *)
Definition ensure_pde (vAddress pageTableBase pde : Z) (m : mm) : res mm :=
  if negb (has (rd (mm_pt m) pde) Present) then
    '(newPde, pgs) ← getPage (mm_pages m);
    kassert (negb (newPde =? 0));;
    let newPde := Z.lor newPde (Z.lor Present Writable) in
    let pt := <[pde := newPde]> (mm_pt m) in
    let newpte := Z.land (addressToPte vAddress pageTableBase) (wnot 32 PageMask) in
    mret (MM pgs (pt_clear newpte pt) (mm_mapEnd m))
  else mret m.

Definition set_pde_user (flags pde : Z) (m : mm) : mm :=
  if has flags Flags.User && negb (has (rd (mm_pt m) pde) User) then
    MM (mm_pages m) (<[pde := Z.lor (rd (mm_pt m) pde) User]> (mm_pt m)) (mm_mapEnd m)
  else m.

(** The attribute bits computed from [flags]. *)
Definition entry_flags (flags : Z) : Z :=
  let fl := Writable in
  let fl := if has flags Flags.Uncacheable then Z.lor fl DontCache else fl in
  let fl := if has flags Flags.User then Z.lor fl User else fl in
  if has flags Flags.Lazy then Z.lor fl Lazy else Z.lor fl Present.

Definition mapPage_at (pageDirectoryBase pageTableBase vAddress pAddress flags : Z)
    (m : mm) : res (bool * mm) :=
  kassert (Z.land vAddress PageMask =? 0);;
  kassert (Z.land pAddress PageMask =? 0);;
  let pde := addressToPde vAddress pageDirectoryBase in
  m ← ensure_pde vAddress pageTableBase pde m;
  let m := set_pde_user flags pde m in
  let pte := addressToPte vAddress pageTableBase in
  if has (rd (mm_pt m) pte) Present then Panic
  else
    let word := Z.lor (Z.land pAddress (wnot 32 0xfff)) (entry_flags flags) in
    mret (true, MM (mm_pages m) (<[pte := word]> (mm_pt m)) (mm_mapEnd m)).

Definition mapPage (vAddress pAddress flags : Z) (m : mm) : res (bool * mm) :=
  mapPage_at PageDirectoryBase PageTableBase vAddress pAddress flags m.

Definition mapSecondaryPage (vAddress pAddress flags : Z) (m : mm) : res (bool * mm) :=
  mapPage_at PageDirectoryBase PageTableBase vAddress pAddress flags m.

Definition unmapPage (vAddress : Z) (m : mm) : res (bool * mm) :=
  kassert (Z.land vAddress PageMask =? 0);;
  let pde := addressToPde vAddress PageDirectoryBase in
  if negb (has (rd (mm_pt m) pde) Present) then Panic
  else
    let pte := addressToPte vAddress PageTableBase in
    if negb (has (rd (mm_pt m) pte) Present) then Panic
    else mret (true, MM (mm_pages m) (<[pte := Writable]> (mm_pt m)) (mm_mapEnd m)).

Definition getPageTableEntry (vAddress : Z) (m : mm) : res Z :=
  kassert (Z.land vAddress PageMask =? 0);;
  let pde := addressToPde vAddress PageDirectoryBase in
  if negb (has (rd (mm_pt m) pde) Present) then mret 0
  else mret (rd (mm_pt m) (addressToPte vAddress PageTableBase)).

Definition getPhysicalPage (vAddress : Z) (m : mm) : res Z :=
  (λ e, Z.land e (wnot 32 PageMask)) <$> getPageTableEntry vAddress m.

Definition isMapped (vAddress : Z) (m : mm) : bool :=
  let vAddress := Z.land vAddress (wnot 32 PageMask) in
  let pde := addressToPde vAddress PageDirectoryBase in
  if negb (has (rd (mm_pt m) pde) Present) then false
  else
    let pte := addressToPte vAddress PageTableBase in
    if negb (has (rd (mm_pt m) pte) Present) then false else true.

(** ** The abstract view *)

(** The table word of the page at [v]: 0 when its table does not exist. *)
Definition entry (m : mm) (v : Z) : Z :=
  if has (rd (mm_pt m) (addressToPde v PageDirectoryBase)) Present
  then rd (mm_pt m) (addressToPte v PageTableBase) else 0.

(** A page address below the recursive window. *)
Definition user_page (v : Z) : Prop := 0 <= v < PageTableBase /\ v mod PageSize = 0.

(** ** Arithmetic of the window *)

Lemma addressToPde_eq v : 0 <= v < 2 ^ 32 ->
  addressToPde v PageDirectoryBase = PageDirectoryBase + 4 * (v / 2 ^ 22).
Proof.
  intros Hv. unfold addressToPde, addressToPdeIndex, PageDirectoryBase.
  rewrite Z.shiftr_div_pow2 by lia. change (2 ^ 22) with 4194304.
  assert (0 <= v / 4194304 < 1024) by (Z.div_mod_to_equations; lia).
  rewrite (wrap_id 32 (_ * 4)) by (unfold uint; lia).
  rewrite wrap_id by (unfold uint; lia). lia.
Qed.

Lemma addressToPte_eq v : 0 <= v < 2 ^ 32 ->
  addressToPte v PageTableBase = PageTableBase + 4 * (v / PageSize).
Proof.
  intros Hv. unfold addressToPte, addressToPdeIndex, addressToPteIndex, PageTableBase, PageSize.
  change 0x3ff with (2 ^ 10 - 1). rewrite land_ones_low, !Z.shiftr_div_pow2 by lia.
  change (2 ^ 22) with 4194304. change (2 ^ 12) with 4096. change (2 ^ 10) with 1024.
  assert (0 <= v / 4194304 < 1024) by (Z.div_mod_to_equations; lia).
  assert (0 <= v / 4096 mod 1024 < 1024) by (Z.div_mod_to_equations; lia).
  assert (v / 4096 = v / 4194304 * 1024 + v / 4096 mod 1024) as E.
  { pose proof (Z.div_mod (v / 4096) 1024 ltac:(lia)) as E. rewrite Z.div_div in E by lia.
    change (4096 * 1024) with 4194304 in E. lia. }
  rewrite (wrap_id 32 (_ * 0x1000)), (wrap_id 32 (_ * 4)) by (unfold uint; lia).
  rewrite wrap_id by (unfold uint; lia). lia.
Qed.

Lemma newpte_eq v : 0 <= v < 2 ^ 32 ->
  Z.land (addressToPte v PageTableBase) (wnot 32 PageMask)
  = PageTableBase + PageSize * (v / 2 ^ 22).
Proof.
  intros Hv. rewrite addressToPte_eq by done. unfold PageTableBase, PageSize, PageMask, PageSize.
  change (wnot 32 (4096 - 1)) with (2 ^ 32 - 2 ^ 12). change (2 ^ 22) with 4194304.
  assert (0 <= v / 4096 < 2 ^ 20) by (Z.div_mod_to_equations; lia).
  rewrite land_mask32 by (unfold uint; lia). change (2 ^ 12) with 4096.
  assert (v / 4194304 = v / 4096 / 1024) as -> by (rewrite Z.div_div by lia; f_equal).
  Z.div_mod_to_equations. lia.
Qed.

Lemma page_aligned v : 0 <= v -> Z.land v PageMask = v mod PageSize.
Proof. intros. apply (land_ones_low v 12). lia. Qed.

Lemma rd_insert pt a b w : rd (<[a := w]> pt) b = if decide (a = b) then w else rd pt b.
Proof. unfold rd. rewrite lookup_insert. by case_decide. Qed.

Lemma rd_clear pt a b : rd (pt_clear a pt) b = if decide (a <= b < a + PageSize) then 0 else rd pt b.
Proof.
  unfold rd, pt_clear. case_decide as H.
  - rewrite map_lookup_filter_None_2; [done|]. right. intros ? _ Hn. by apply Hn.
  - destruct (pt !! b) eqn:E.
    + rewrite (map_lookup_filter_Some_2 _ _ _ z); auto.
    + rewrite map_lookup_filter_None_2; auto.
Qed.

(** ** The window below and above [PageDirectoryBase] *)

Section window.
Implicit Types v w : Z.

Lemma user_page_word v : user_page v -> 0 <= v < 2 ^ 32.
Proof. unfold user_page, PageTableBase. lia. Qed.

Lemma pte_below_pdes v : user_page v ->
  PageTableBase <= addressToPte v PageTableBase < PageDirectoryBase.
Proof.
  intros Hv. rewrite addressToPte_eq by by apply user_page_word.
  destruct Hv as [Hv _]. unfold PageTableBase, PageDirectoryBase, PageSize in *.
  Z.div_mod_to_equations. lia.
Qed.

Lemma pde_range v : 0 <= v < 2 ^ 32 ->
  PageDirectoryBase <= addressToPde v PageDirectoryBase < 2 ^ 32.
Proof.
  intros Hv. rewrite addressToPde_eq by done. change (2 ^ 22) with 4194304.
  unfold PageDirectoryBase in *. Z.div_mod_to_equations. lia.
Qed.

Lemma pte_inj v w : user_page v -> user_page w ->
  addressToPte v PageTableBase = addressToPte w PageTableBase -> v = w.
Proof.
  intros Hv Hw. rewrite !addressToPte_eq by by apply user_page_word.
  destruct Hv as [_ Hv], Hw as [_ Hw]. unfold PageSize in *.
  Z.div_mod_to_equations. lia.
Qed.

(** The 1024 entries of the table of [v] are those of its 4 MB region. *)
Lemma pte_in_table v w : user_page v -> user_page w ->
  let a := Z.land (addressToPte v PageTableBase) (wnot 32 PageMask) in
  a <= addressToPte w PageTableBase < a + PageSize <->
  addressToPde w PageDirectoryBase = addressToPde v PageDirectoryBase.
Proof.
  intros Hv Hw a. subst a. rewrite newpte_eq, addressToPte_eq, !addressToPde_eq
    by by apply user_page_word.
  apply user_page_word in Hv, Hw. unfold PageSize.
  change (2 ^ 22) with 4194304.
  assert (v / 4194304 = v / 4096 / 1024) as -> by (rewrite Z.div_div by lia; f_equal).
  assert (w / 4194304 = w / 4096 / 1024) as -> by (rewrite Z.div_div by lia; f_equal).
  Z.div_mod_to_equations. lia.
Qed.

Lemma pde_not_in_table v b : user_page v -> PageDirectoryBase <= b ->
  let a := Z.land (addressToPte v PageTableBase) (wnot 32 PageMask) in
  ~ (a <= b < a + PageSize).
Proof.
  intros Hv Hb a. subst a. rewrite newpte_eq by by apply user_page_word.
  destruct Hv as [Hv _]. unfold PageTableBase, PageDirectoryBase, PageSize in *.
  change (2 ^ 22) with 4194304. Z.div_mod_to_equations. lia.
Qed.
End window.

(** *** Bits of entries *)

Lemma has_lor x y b : has (Z.lor x y) b = has x b || has y b.
Proof.
  unfold has. rewrite Z.land_lor_distr_l.
  destruct (Z.land x b =? 0) eqn:E1, (Z.land y b =? 0) eqn:E2; zbool; cbn.
  - by rewrite E1, E2.
  - apply negb_true_iff, Z.eqb_neq. rewrite E1. done.
  - apply negb_true_iff, Z.eqb_neq. rewrite Z.lor_eq_0_iff. tauto.
  - apply negb_true_iff, Z.eqb_neq. rewrite Z.lor_eq_0_iff. tauto.
Qed.

Lemma has_entry_flags_present flags :
  has (entry_flags flags) Present = negb (has flags Flags.Lazy).
Proof. unfold entry_flags. by repeat case_match; rewrite ?has_lor. Qed.

Lemma entry_flags_range flags : 0 <= entry_flags flags < 2 ^ 12.
Proof. unfold entry_flags. repeat case_match; split; vm_compute; congruence. Qed.

(** The physical page and the flags of a composed word do not interfere. *)
Lemma entry_word_phys p fl : 0 <= p < 2 ^ 32 -> p mod PageSize = 0 -> 0 <= fl < 2 ^ 12 ->
  Z.land (Z.lor p fl) (wnot 32 PageMask) = p.
Proof.
  intros Hp Hm Hf. unfold PageMask, PageSize in *.
  change (wnot 32 (4096 - 1)) with (2 ^ 32 - 2 ^ 12).
  assert (p = p / 2 ^ 12 * 2 ^ 12) as E by (change (2 ^ 12) with 4096; Z.div_mod_to_equations; lia).
  rewrite Z.lor_comm. rewrite E at 1. rewrite lor_add_shift by (done || lia). rewrite <-E.
  rewrite land_mask32; [|lia|].
  - change (2 ^ 12) with 4096 in *. Z.div_mod_to_equations. lia.
  - change (2 ^ 12) with 4096 in *. unfold uint. Z.div_mod_to_equations. lia.
Qed.

(** ** Taking pages from the free list *)

(** From [p] to [p'] exactly the page structures [t] left the free list. *)
Definition took (p : pages) (fl ul : list Z) (p' : pages) (t fl' : list Z) : Prop :=
  fl = t ++ fl' /\ pages_ok p' fl' (reverse t ++ ul) /\
  (forall q, page_addr (pg_st p') q = page_addr (pg_st p) q).

Lemma took_nil p fl ul : pages_ok p fl ul -> took p fl ul p [] fl.
Proof. intros H. repeat split; auto; apply H. Qed.

Lemma took_trans p fl ul p1 t1 fl1 p2 t2 fl2 :
  took p fl ul p1 t1 fl1 -> took p1 fl1 (reverse t1 ++ ul) p2 t2 fl2 ->
  took p fl ul p2 (t1 ++ t2) fl2.
Proof.
  intros (-> & H1 & A1) (-> & H2 & A2). split; [|split].
  - by rewrite app_assoc.
  - by rewrite reverse_app, <-app_assoc.
  - intros q. by rewrite A2.
Qed.

Lemma took_ok p fl ul p' t fl' : took p fl ul p' t fl' -> pages_ok p' fl' (reverse t ++ ul).
Proof. by intros (_ & H & _). Qed.

Lemma getPage_took p q fl ul : pages_ok p (q :: fl) ul ->
  exists p', getPage p = Ok (page_addr (pg_st p) q, p') /\ took p (q :: fl) ul p' [q] fl.
Proof.
  intros H. destruct (getPage_pool _ _ _ _ H) as (p' & E & Hok & Ha).
  exists p'. split; [done|]. split; [done|]. split; [done|]. done.
Qed.

(** The same from lists whose addresses need not be distinct; no structure is
    made or lost. *)
Definition drew (p : pages) (fl ul : list Z) (p' : pages) (t fl' : list Z) : Prop :=
  fl = t ++ fl' /\ lists_ok p' fl' (reverse t ++ ul) /\
  (forall q, page_addr (pg_st p') q = page_addr (pg_st p) q) /\
  (forall q, is_Some (pg_st p' !! q) <-> is_Some (pg_st p !! q)).

Lemma drew_nil p fl ul : lists_ok p fl ul -> drew p fl ul p [] fl.
Proof. intros H. repeat split; auto; apply H. Qed.

Lemma drew_ok p fl ul p' t fl' : drew p fl ul p' t fl' -> lists_ok p' fl' (reverse t ++ ul).
Proof. by intros (_ & H & _). Qed.

Lemma drew_trans p fl ul p1 t1 fl1 p2 t2 fl2 :
  drew p fl ul p1 t1 fl1 -> drew p1 fl1 (reverse t1 ++ ul) p2 t2 fl2 ->
  drew p fl ul p2 (t1 ++ t2) fl2.
Proof.
  intros (-> & H1 & A1 & D1) (-> & H2 & A2 & D2). split; [|split; [|split]].
  - by rewrite app_assoc.
  - by rewrite reverse_app, <-app_assoc.
  - intros q. by rewrite A2.
  - intros q. by rewrite D2.
Qed.

Lemma drew_took p fl ul p' t fl' : pages_ok p fl ul -> drew p fl ul p' t fl' ->
  took p fl ul p' t fl'.
Proof.
  rewrite pages_lists. intros [_ Hi] (-> & Hl & Ha & _). split; [done|]. split; [|done].
  apply pages_lists. split; [done|]. rewrite (fmap_addr_ext _ _ _ Ha).
  assert ((t ++ fl') ++ ul ≡ₚ fl' ++ reverse t ++ ul) as HP.
  { rewrite reverse_Permutation. solve_Permutation. }
  by rewrite <-HP.
Qed.

Lemma getPage_drew p q fl ul : lists_ok p (q :: fl) ul ->
  exists p', getPage p = Ok (page_addr (pg_st p) q, p') /\ drew p (q :: fl) ul p' [q] fl.
Proof.
  intros H. destruct (getPage_lists _ _ _ _ H) as (p' & E & Hok & Ha & Hd).
  exists p'. split; [done|]. split; [done|]. split; [done|]. split; [exact Ha|exact Hd].
Qed.

(** ** Mapping *)

Definition pde_present (m : mm) (v : Z) : bool :=
  has (rd (mm_pt m) (addressToPde v PageDirectoryBase)) Present.

(** [same_entries m m']: no page below the window changed. *)
Definition same_entries (m m' : mm) : Prop :=
  forall w, user_page w -> entry m' w = entry m w.

Lemma ensure_pde_ok m fl ul v : lists_ok (mm_pages m) fl ul -> user_page v ->
  pde_present m v = true \/ fl <> [] ->
  exists m' t fl', ensure_pde v PageTableBase (addressToPde v PageDirectoryBase) m = Ok m' /\
    drew (mm_pages m) fl ul (mm_pages m') t fl' /\ (length t <= 1)%nat /\ mm_mapEnd m' = mm_mapEnd m /\
    pde_present m' v = true /\ same_entries m m' /\
    (pde_present m v = true -> m' = m).
Proof.
  intros Hok Hv Hcase. unfold ensure_pde. fold (pde_present m v).
  destruct (pde_present m v) eqn:Hp; cbn [negb].
  { exists m, [], fl. split_and!; auto using drew_nil; try (cbn; lia); by intros ?. }
  destruct Hcase as [|Hne]; [done|]. destruct fl as [|q fl]; [done|].
  destruct (getPage_drew _ _ _ _ Hok) as (p' & E & Ht). rewrite E. cbn [mbind res_bind].
  rewrite (proj2 (Z.eqb_neq _ _)).
  2:{ intros E0. apply (lo_nz _ _ _ Hok). rewrite <-E0. cbn. left. }
  cbn [kassert negb mbind res_bind].
  eexists _, [q], fl. split; [done|]. cbn [mm_pages mm_mapEnd mm_pt].
  split_and!; auto; try done.
  - unfold pde_present. cbn [mm_pt]. rewrite rd_clear, decide_False, rd_insert, decide_True
      by first [done | apply pde_not_in_table; [done|]; apply pde_range, user_page_word, Hv].
    rewrite has_lor. apply orb_true_r.
  - intros w Hw. unfold entry. cbn [mm_pt].
    assert (Hpw := user_page_word _ Hw). pose proof (pde_range _ Hpw).
    pose proof (pte_below_pdes _ Hw).
    pose proof (pde_range _ (user_page_word _ Hv)).
    rewrite !rd_clear, !rd_insert.
    rewrite (decide_False (P := _ <= addressToPde w _ < _))
      by (apply pde_not_in_table; [done|lia]).
    rewrite (decide_False (P := addressToPde v _ = addressToPte w _)) by lia.
    unfold pde_present in Hp.
    case_decide as Hpde; case_decide as Htab; rewrite ?has_lor, ?orb_true_r.
    + by rewrite <-Hpde, Hp.
    + exfalso. apply Htab. by apply pte_in_table.
    + apply pte_in_table in Htab; [|done|done]. congruence.
    + done.
Qed.

Lemma set_pde_user_ok m v flags : user_page v -> pde_present m v = true ->
  let m' := set_pde_user flags (addressToPde v PageDirectoryBase) m in
  mm_pages m' = mm_pages m /\ mm_mapEnd m' = mm_mapEnd m /\
  pde_present m' v = true /\ same_entries m m'.
Proof.
  intros Hv Hp m'. subst m'. unfold set_pde_user. case_match; [|done].
  split_and!; [done|done| |].
  - unfold pde_present. cbn. rewrite rd_insert, decide_True, has_lor by done.
    unfold pde_present in Hp. by rewrite Hp.
  - intros w Hw. unfold entry. cbn.
    pose proof (pte_below_pdes _ Hw). pose proof (pde_range _ (user_page_word _ Hv)).
    rewrite !rd_insert. rewrite (decide_False (P := _ = addressToPte w _)) by lia.
    case_decide as E; [|done]. rewrite has_lor, <-E.
    unfold pde_present in Hp. by rewrite Hp.
Qed.

Definition no_frame (m : mm) (fl : list Z) (v : Z) : bool :=
  negb (pde_present m v) && match fl with [] => true | _ :: _ => false end.

(** A physical page address. *)
Definition frame_addr (p : Z) : Prop := 0 <= p < 2 ^ 32 /\ p mod PageSize = 0.

Lemma kassert_aligned v A (k : unit -> res A) : 0 <= v -> v mod PageSize = 0 ->
  (kassert (Z.land v PageMask =? 0) ≫= k) = k tt.
Proof. intros H1 H2. rewrite page_aligned, H2 by done. done. Qed.

Lemma mapPage_ok m fl ul v p flags : lists_ok (mm_pages m) fl ul ->
  user_page v -> frame_addr p -> has (entry m v) Present = false ->
  no_frame m fl v = false ->
  exists m' t fl', mapPage v p flags m = Ok (true, m') /\
    drew (mm_pages m) fl ul (mm_pages m') t fl' /\ (length t <= 1)%nat /\ mm_mapEnd m' = mm_mapEnd m /\
    (forall w, user_page w ->
       entry m' w = if decide (w = v) then Z.lor p (entry_flags flags) else entry m w).
Proof.
  intros Hok Hv Hp He Hnf.
  assert (Hcase : pde_present m v = true \/ fl <> []).
  { unfold no_frame in Hnf. destruct (pde_present m v); [by left|right].
    by destruct fl. }
  destruct (ensure_pde_ok _ _ _ _ Hok Hv Hcase) as (m1 & t & fl1 & E1 & T1 & L1 & M1 & P1 & S1 & _).
  destruct (set_pde_user_ok m1 v flags Hv P1) as (G2 & M2 & P2 & S2).
  set (m2 := set_pde_user flags (addressToPde v PageDirectoryBase) m1) in *.
  unfold mapPage, mapPage_at.
  rewrite !kassert_aligned by first [apply Hv | apply Hp].
  rewrite E1. cbn [mbind res_bind]. fold m2.
  assert (He2 : has (rd (mm_pt m2) (addressToPte v PageTableBase)) Present = false).
  { rewrite <-He, <-(S1 v Hv), <-(S2 v Hv). unfold entry. unfold pde_present in P2. by rewrite P2. }
  rewrite He2. eexists _, t, fl1. split; [done|]. cbn [mm_pages mm_mapEnd].
  split; [by rewrite G2|]. split; [exact L1|]. split; [congruence|].
  intros w Hw. unfold entry. cbn [mm_pt]. rewrite !rd_insert.
  pose proof (pte_below_pdes _ Hv). pose proof (pde_range _ (user_page_word _ Hw)).
  rewrite (decide_False (P := addressToPte v PageTableBase = addressToPde w PageDirectoryBase)) by lia.
  case_decide as E; case_decide as E'.
  - subst w. unfold pde_present in P2. rewrite P2. f_equal.
    destruct Hp as [Hp1 Hp2]. change (wnot 32 0xfff) with (2 ^ 32 - 2 ^ 12).
    rewrite land_mask32 by (done || lia). unfold PageSize in Hp2. change (2 ^ 12) with 4096. lia.
  - by apply pte_inj in E.
  - by subst w.
  - assert (E2 : entry m2 w = entry m w) by (by rewrite S2, S1). exact E2.
Qed.

Lemma mapPage_panics m fl ul v p flags : lists_ok (mm_pages m) fl ul ->
  user_page v -> frame_addr p ->
  has (entry m v) Present = true \/ no_frame m fl v = true ->
  mapPage v p flags m = Panic.
Proof.
  intros Hok Hv Hp Hcase. unfold mapPage, mapPage_at.
  rewrite !kassert_aligned by first [apply Hv | apply Hp].
  destruct (pde_present m v) eqn:Hpde.
  - destruct Hcase as [He|Hnf]; [|unfold no_frame in Hnf; by rewrite Hpde in Hnf].
    unfold ensure_pde. fold (pde_present m v). rewrite Hpde. cbn [negb mret res_ret mbind res_bind].
    destruct (set_pde_user_ok m v flags Hv Hpde) as (_ & _ & P2 & S2).
    set (m2 := set_pde_user flags (addressToPde v PageDirectoryBase) m) in *.
    assert (He2 : has (rd (mm_pt m2) (addressToPte v PageTableBase)) Present = true).
    { rewrite <-He, <-(S2 v Hv). unfold entry. unfold pde_present in P2. by rewrite P2. }
    cbv zeta. fold m2. by rewrite He2.
  - destruct Hcase as [He|Hnf].
    + unfold entry in He. unfold pde_present in Hpde. by rewrite Hpde in He.
    + unfold no_frame in Hnf. rewrite Hpde in Hnf. destruct fl; [|done].
      unfold ensure_pde. fold (pde_present m v). rewrite Hpde. cbn [negb].
      by rewrite (getPage_dry _ _ Hok).
Qed.

Lemma mapPage_spec m fl ul v p flags :
  pages_ok (mm_pages m) fl ul -> user_page v -> frame_addr p ->
  if has (entry m v) Present || no_frame m fl v then mapPage v p flags m = Panic
  else exists m' t fl', mapPage v p flags m = Ok (true, m') /\
    took (mm_pages m) fl ul (mm_pages m') t fl' /\ mm_mapEnd m' = mm_mapEnd m /\
    (forall w, user_page w ->
       entry m' w = if decide (w = v) then Z.lor p (entry_flags flags) else entry m w) /\
    getPhysicalPage v m' = Ok p /\ isMapped v m' = negb (has flags Flags.Lazy).
Proof.
  intros Hok Hv Hp. destruct (_ || _) eqn:Hb.
  { apply orb_true_iff in Hb. apply pages_lists in Hok as [Hl _]. eapply mapPage_panics; eauto. }
  apply orb_false_iff in Hb as [He Hnf].
  destruct (mapPage_ok m fl ul v p flags (proj1 (proj1 (pages_lists _ _ _) Hok)) Hv Hp He Hnf)
    as (m' & t & fl' & E & T%drew_took & _ & M & HE); [|done].
  exists m', t, fl'. split; [done|]. split; [done|]. split; [done|]. split; [done|].
  specialize (HE v Hv). rewrite decide_True in HE by done.
  assert (Hpde : has (rd (mm_pt m') (addressToPde v PageDirectoryBase)) Present = true).
  { unfold entry in HE.
    destruct (has (rd (mm_pt m') (addressToPde v PageDirectoryBase)) Present); [done|]. exfalso.
    pose proof (entry_flags_range flags). symmetry in HE. apply Z.lor_eq_0_iff in HE as [_ HE].
    unfold entry_flags in HE. repeat case_match; discriminate. }
  unfold entry in HE. rewrite Hpde in HE. split.
  - unfold getPhysicalPage, getPageTableEntry.
    rewrite kassert_aligned by apply Hv. rewrite Hpde, HE. cbn.
    f_equal. by apply entry_word_phys; [apply Hp | apply Hp | apply entry_flags_range].
  - unfold isMapped.
    assert (Z.land v (wnot 32 PageMask) = v) as ->.
    { assert (Hw := user_page_word _ Hv). change (wnot 32 PageMask) with (2 ^ 32 - 2 ^ 12).
      rewrite land_mask32 by (done || lia). destruct Hv as [_ Hv]. unfold PageSize in Hv.
      change (2 ^ 12) with 4096. lia. }
    rewrite Hpde, HE, has_lor, has_entry_flags_present.
    assert (has p Present = false) as ->.
    { unfold has. apply negb_false_iff, Z.eqb_eq. change Present with (2 ^ 1 - 1).
      rewrite land_ones_low by lia. destruct Hp as [_ Hp]. unfold PageSize in Hp.
      change (2 ^ 1) with 2. Z.div_mod_to_equations. lia. }
    cbn. by destruct (has flags Flags.Lazy).
Qed.

Lemma unmapPage_spec m v : user_page v ->
  if has (entry m v) Present then
    exists m', unmapPage v m = Ok (true, m') /\ mm_pages m' = mm_pages m /\
      isMapped v m' = false /\
      (forall w, user_page w -> entry m' w = if decide (w = v) then Writable else entry m w)
  else unmapPage v m = Panic.
Proof.
  intros Hv. unfold unmapPage. rewrite kassert_aligned by apply Hv. unfold entry at 1.
  destruct (has (rd (mm_pt m) (addressToPde v PageDirectoryBase)) Present) eqn:Hpde;
    cbn [negb]; [|done].
  destruct (has (rd (mm_pt m) (addressToPte v PageTableBase)) Present) eqn:Hpte;
    cbn [negb]; [|done].
  assert (Hall : forall w, user_page w ->
    entry (MM (mm_pages m) (<[addressToPte v PageTableBase := Writable]> (mm_pt m)) (mm_mapEnd m)) w
    = if decide (w = v) then Writable else entry m w).
  { intros w Hw. unfold entry. cbn [mm_pt]. rewrite !rd_insert.
    pose proof (pte_below_pdes _ Hv). pose proof (pde_range _ (user_page_word _ Hw)).
    rewrite (decide_False (P := addressToPte v PageTableBase = addressToPde w PageDirectoryBase)) by lia.
    case_decide as E; case_decide as E'.
    - subst w. by rewrite Hpde.
    - by apply pte_inj in E.
    - by subst w.
    - done. }
  eexists. split; [done|]. split; [done|]. split; [|done].
  unfold isMapped.
  assert (Z.land v (wnot 32 PageMask) = v) as ->.
  { assert (Hw := user_page_word _ Hv). change (wnot 32 PageMask) with (2 ^ 32 - 2 ^ 12).
    rewrite land_mask32 by (done || lia). destruct Hv as [_ Hv]. unfold PageSize in Hv.
    change (2 ^ 12) with 4096. lia. }
  cbv zeta. cbn [mm_pt]. rewrite (rd_insert _ _ (addressToPte v PageTableBase)), decide_True by done.
  by case_match.
Qed.

(** ** Contracts of the page directory *)

(** [PageDirectory::mapPage] on a page below the recursive window.  It
    panics exactly when the page is already present, or its page table is
    missing and no physical page is left.  Otherwise it returns [true], the
    table word of that page is the frame with the attribute bits of [flags],
    the word of every other page is unchanged (although the words of the page
    tables and of the directory alias), the physical pages consumed came off
    the head of the free list, and the page can be looked up again. *)
Theorem mapPage_refines m fl ul v p flags :
  pages_ok (mm_pages m) fl ul -> user_page v -> frame_addr p ->
  if has (entry m v) Present || no_frame m fl v then mapPage v p flags m = Panic
  else exists m' t fl', mapPage v p flags m = Ok (true, m') /\
    took (mm_pages m) fl ul (mm_pages m') t fl' /\ mm_mapEnd m' = mm_mapEnd m /\
    (forall w, user_page w ->
       entry m' w = if decide (w = v) then Z.lor p (entry_flags flags) else entry m w) /\
    getPhysicalPage v m' = Ok p /\ isMapped v m' = negb (has flags Flags.Lazy).
Proof. apply mapPage_spec. Qed.

(** [PageDirectory::unmapPage] panics exactly on a page that is not
    present; otherwise that page's word becomes [Writable] without [Present],
    and no other page's word and no physical page changes. *)
Theorem unmapPage_refines m v : user_page v ->
  if has (entry m v) Present then
    exists m', unmapPage v m = Ok (true, m') /\ mm_pages m' = mm_pages m /\
      isMapped v m' = false /\
      (forall w, user_page w -> entry m' w = if decide (w = v) then Writable else entry m w)
  else unmapPage v m = Panic.
Proof. apply unmapPage_spec. Qed.

(** C3: the page directory is a map from pages to table words, of which every
    operation changes one.  On a page below the recursive window,
    [PageDirectory::mapPage] panics exactly when the page is present, or its
    table is missing and no frame is left; otherwise it sets the word of that
    page to the frame with the attribute bits of [flags], takes what it consumes
    off the head of the free list, and the page can be looked up again.
    [PageDirectory::unmapPage] panics exactly on a page that is not present,
    and otherwise leaves its word without [Present].  The word of every other
    page is unchanged, although tables and directory alias in the window. *)
Theorem page_directory_refined m fl ul v p flags :
  pages_ok (mm_pages m) fl ul -> user_page v -> frame_addr p ->
  (if has (entry m v) Present || no_frame m fl v then mapPage v p flags m = Panic
   else exists m' t fl', mapPage v p flags m = Ok (true, m') /\
     took (mm_pages m) fl ul (mm_pages m') t fl' /\ mm_mapEnd m' = mm_mapEnd m /\
     (forall w, user_page w ->
        entry m' w = if decide (w = v) then Z.lor p (entry_flags flags) else entry m w) /\
     getPhysicalPage v m' = Ok p /\ isMapped v m' = negb (has flags Flags.Lazy)) /\
  (if has (entry m v) Present then
     exists m', unmapPage v m = Ok (true, m') /\ mm_pages m' = mm_pages m /\
       isMapped v m' = false /\
       (forall w, user_page w -> entry m' w = if decide (w = v) then Writable else entry m w)
   else unmapPage v m = Panic).
Proof. intros Hok Hv Hp. split; [by apply mapPage_spec|by apply unmapPage_spec]. Qed.

(** A page directory that maps only itself, with two free frames. *)
Definition self_only : mm := MM three_pages (<[0xfffffffc := 0x103003]> ∅) 0xffbf0000.

Lemma mapPage_refines_witness :
  exists m', mapPage 0xffbef000 0x5000 Flags.User self_only = Ok (true, m') /\
    getPhysicalPage 0xffbef000 m' = Ok 0x5000.
Proof.
  pose proof (mapPage_refines self_only [48; 64] [80] 0xffbef000 0x5000 Flags.User
    three_pages_ok ltac:(done) ltac:(done)) as H.
  replace (has (entry self_only 0xffbef000) Present || no_frame self_only [48; 64] 0xffbef000)
    with false in H by (vm_compute; reflexivity).
  destruct H as (m' & t & fl' & E & _ & _ & _ & G & _).
  exists m'. exact (conj E G).
Defined.

Lemma unmapPage_refines_witness :
  (exists m m', mapPage 0xffbef000 0x5000 Flags.User self_only = Ok (true, m) /\
     unmapPage 0xffbef000 m = Ok (true, m') /\ isMapped 0xffbef000 m' = false) /\
  unmapPage 0xffbee000 self_only = Panic.
Proof.
  assert (Hu : user_page 0xffbef000) by done.
  split.
  - destruct (proj1 (res_fmap_ok (mapPage 0xffbef000 0x5000 Flags.User self_only)
      (λ r, (r.1, has (entry r.2 0xffbef000) Present)) (true, true)) ltac:(vm_compute; reflexivity))
      as ([b m] & E & [Hb Hp]%pair_eq). cbn [fst snd] in Hb, Hp. subst b.
    pose proof (unmapPage_refines m 0xffbef000 Hu) as H.
    rewrite Hp in H. destruct H as (m' & H & _ & H' & _).
    exists m, m'. exact (conj E (conj H H')).
  - pose proof (unmapPage_refines self_only 0xffbee000 ltac:(done)) as H.
    replace (has (entry self_only 0xffbee000) Present) with false in H
      by (vm_compute; reflexivity). exact H.
Defined.

Lemma page_directory_refined_witness :
  (exists m', mapPage 0xffbef000 0x5000 Flags.User self_only = Ok (true, m') /\
    getPhysicalPage 0xffbef000 m' = Ok 0x5000) /\
  unmapPage 0xffbef000 self_only = Panic.
Proof.
  destruct (page_directory_refined self_only [48; 64] [80] 0xffbef000 0x5000 Flags.User
    three_pages_ok ltac:(done) ltac:(done)) as [H H2].
  replace (has (entry self_only 0xffbef000) Present || no_frame self_only [48; 64] 0xffbef000)
    with false in H by (vm_compute; reflexivity).
  replace (has (entry self_only 0xffbef000) Present) with false in H2 by (vm_compute; reflexivity).
  destruct H as (m' & t & fl' & E & _ & _ & _ & G & _).
  split; [exists m'; exact (conj E G)|exact H2].
Defined.
