(* ===== verification/MemoryMap.v ===== *)
(** * Anonymous mappings: the kernel's address space

    Models the mapping routines of Kernel/Memory.cc: [mapAnonymousPage],
    [mapAnonymousRegion], [mapRegion], [unmapRegion] and [createKernelStack].
    The kernel hands out virtual addresses downwards from [MapStart]: [mapEnd]
    is the lowest address given out so far.  The spin locks of the original
    serialise the calls; here a call is one step.

    The contract: a region is placed directly below the previous one, every
    page of it is backed by a physical page of its own that was free before,
    and nothing else that was mapped changes. *)

From S2P Require Import Prelude.
From S2P Require Import Words.
From S2P Require Import Ring.
From S2P Require Import PhysPages.
From S2P Require Import PageTables.
From Stdlib Require Import ZArith Lia.
From stdpp Require Import prelude gmap list.

Open Scope Z_scope.

Definition KernelStackStart : Z := PageTableBase.
Definition KernelStackSize : Z := 0x10000.
Definition MapStart : Z := KernelStackStart - KernelStackSize.

(** [&__end_kernel], a symbol of the linker script. *)
Class KernelImage := { end_kernel : Z }.

Definition with_pages (m : mm) (p : pages) : mm := MM p (mm_pt m) (mm_mapEnd m).
Definition with_mapEnd (m : mm) (e : Z) : mm := MM (mm_pages m) (mm_pt m) e.

Section operations.
Context `{KernelImage}.

Definition mapAnonymousPage (phys flags : Z) (m : mm) : res (Z * mm) :=
  let m := with_mapEnd m (u32 (mm_mapEnd m - PageSize)) in
  let virt := mm_mapEnd m in
  if virt <=? end_kernel then Panic
  else
    '(success, m) ← mapPage virt phys flags m;
    if negb success then mret (0, m) else mret (virt, m).

(** The page loop of [mapAnonymousRegion]. *)
Fixpoint anon_loop (fuel : nat) (page rsize vaddr flags : Z) (m : mm) : res mm :=
  match fuel with
  | O => NoFuel
  | S fuel =>
      if page <? rsize then
        '(emptyPage, pgs) ← getPage (mm_pages m);
        kassert (negb (emptyPage =? 0));;
        '(success, m) ← mapPage (u32 (vaddr + page)) emptyPage flags (with_pages m pgs);
        if negb success then Panic
        else anon_loop fuel (u32 (page + PageSize)) rsize vaddr flags m
      else mret m
  end.

Definition region_fuel (rsize : Z) : nat := S (Z.to_nat (rsize / PageSize)).

Definition mapAnonymousRegion (size flags : Z) (m : mm) : res (Z * mm) :=
  kassert (negb (size =? 0));;
  let rsize := roundTo size PageSize in
  let m := with_mapEnd m (u32 (mm_mapEnd m - rsize)) in
  let vaddr := mm_mapEnd m in
  if vaddr <=? end_kernel then Panic
  else
    m ← anon_loop (region_fuel rsize) 0 rsize vaddr flags m;
    mret (vaddr, m).

(** The page loop of [mapRegion]: [vaddr] advances with [page]. *)
Fixpoint region_loop (fuel : nat) (page lastPage vaddr flags : Z) (m : mm) : res mm :=
  match fuel with
  | O => NoFuel
  | S fuel =>
      if negb (page =? lastPage) then
        '(success, m) ← mapPage vaddr page flags m;
        if negb success then Panic
        else region_loop fuel (u32 (page + PageSize)) lastPage (u32 (vaddr + PageSize)) flags m
      else mret m
  end.

Definition mapRegion (paddr size flags : Z) (m : mm) : res (Z * mm) :=
  kassert (negb (size =? 0));;
  let firstPage := roundDown paddr PageSize in
  let lastPage := roundTo (u32 (paddr + size)) PageSize in
  let rsize := u32 (lastPage - firstPage) in
  let m := with_mapEnd m (u32 (mm_mapEnd m - rsize)) in
  let vaddr := mm_mapEnd m in
  let offset := u32 (paddr - firstPage) in
  if vaddr <=? end_kernel then Panic
  else
    m ← region_loop (region_fuel rsize) firstPage lastPage vaddr flags m;
    mret (u32 (mm_mapEnd m + offset), m).

Fixpoint unmap_loop (fuel : nat) (page lastPage : Z) (m : mm) : res mm :=
  match fuel with
  | O => NoFuel
  | S fuel =>
      if negb (page =? lastPage) then
        '(success, m) ← unmapPage page m;
        if negb success then Panic
        else unmap_loop fuel (u32 (page + PageSize)) lastPage m
      else mret m
  end.

Definition unmapRegion (paddr size : Z) (m : mm) : res (bool * mm) :=
  kassert (negb (size =? 0));;
  let firstPage := roundDown paddr PageSize in
  let lastPage := roundTo (u32 (paddr + size)) PageSize in
  m ← unmap_loop (region_fuel (u32 (lastPage - firstPage))) firstPage lastPage m;
  mret (true, m).

(** Returns the top of the new stack. *)
Definition createKernelStack (m : mm) : res (bool * Z * mm) :=
  '(stackPage, pgs) ← getPage (mm_pages m);
  kassert (negb (stackPage =? 0));;
  '(bottom, m) ← mapAnonymousPage stackPage Flags.None (with_pages m pgs);
  kassert (negb (bottom =? 0));;
  mret (true, u32 (bottom + PageSize), m).
End operations.

(** ** The page loops *)

(** Every page of the [n] pages from [v] satisfies [P i (v + 4096 i)]. *)
Definition in_pages (v : Z) (n : nat) (w : Z) : Prop :=
  v <= w < v + PageSize * Z.of_nat n.

Lemma took_frame_addr p q : frame_addr (page_addr (pg_st p) q).
Proof.
  unfold page_addr, AddressMask, frame_addr, PageMask, PageSize.
  generalize (default 0 (vl (pg_st p) q)); intros a.
  assert (Z.land a (wnot 32 (4096 - 1)) = Z.land (u32 a) (2 ^ 32 - 2 ^ 12)) as ->.
  { unfold wrap. rewrite <-Z.land_ones by lia. rewrite <-Z.land_assoc. f_equal. }
  rewrite (land_mask32 _ 12) by (try lia; by apply wrap_range).
  pose proof (wrap_range 32 a ltac:(lia)) as [??]. change (2 ^ 12) with 4096.
  Z.div_mod_to_equations. lia.
Qed.

Lemma took_fmap p fl ul p' t fl' (l : list Z) : took p fl ul p' t fl' ->
  page_addr (pg_st p') <$> l = page_addr (pg_st p) <$> l.
Proof. intros (_ & _ & H). by apply fmap_addr_ext. Qed.

(** What a loop that backs the [n] pages from [v] with fresh frames does. *)
Definition backed (m m' : mm) (fl ul : list Z) (v : Z) (n : nat) (flags : Z) : Prop :=
  exists t fl' fr,
    took (mm_pages m) fl ul (mm_pages m') t fl' /\ mm_mapEnd m' = mm_mapEnd m /\
    length fr = n /\ fr `sublist_of` t /\
    (forall i q, fr !! i = Some q ->
       entry m' (v + PageSize * Z.of_nat i)
       = Z.lor (page_addr (pg_st (mm_pages m)) q) (entry_flags flags)) /\
    (forall w, user_page w -> ~ in_pages v n w -> entry m' w = entry m w).

Lemma backed_nil m fl ul v flags : pages_ok (mm_pages m) fl ul ->
  backed m m fl ul v 0 flags.
Proof.
  intros Hok. exists [], fl, []. split; [by apply took_nil|].
  split_and!; done.
Qed.

Lemma user_page_step v n : user_page v -> v + PageSize * Z.of_nat (S n) <= PageTableBase ->
  n <> 0%nat -> user_page (v + PageSize).
Proof.
  unfold user_page, PageSize. intros [H1 H2] Hn ?. split; [lia|].
  Z.div_mod_to_equations. lia.
Qed.

(** One iteration, then the rest. *)
Lemma backed_step m m2 m' q fl ul fl2 t2 p1 v n flags :
  pages_ok (mm_pages m) (q :: fl) ul -> user_page v ->
  took (mm_pages m) (q :: fl) ul p1 [q] fl ->
  took p1 fl ([q] ++ ul) (mm_pages m2) t2 fl2 ->
  mm_mapEnd m2 = mm_mapEnd m ->
  (forall w, user_page w -> entry m2 w =
     if decide (w = v) then Z.lor (page_addr (pg_st (mm_pages m)) q) (entry_flags flags)
     else entry m w) ->
  backed m2 m' fl2 (reverse t2 ++ [q] ++ ul) (v + PageSize) n flags ->
  backed m m' (q :: fl) ul v (S n) flags.
Proof.
  intros Hok Hv T1 T2 HM HE (t3 & fl3 & fr & T3 & M3 & Hlen & Hsub & Hfr & Hframe).
  pose proof (took_trans _ _ _ _ _ _ _ _ _ T1 T2) as T12.
  exists ([q] ++ t2 ++ t3), fl3, (q :: fr). split.
  { rewrite app_assoc. eapply took_trans; [exact T12|]. by rewrite reverse_app, <-app_assoc. }
  split; [congruence|]. split; [by cbn; rewrite Hlen|].
  split; [cbn; by apply sublist_skip, sublist_inserts_l|]. split.
  - intros [|i] q' Hq'; cbn in Hq'.
    + injection Hq' as <-. replace (v + PageSize * Z.of_nat 0) with v by lia.
      rewrite Hframe; [|done|unfold in_pages, PageSize; lia].
      rewrite HE by done. by rewrite decide_True.
    + replace (v + PageSize * Z.of_nat (S i)) with (v + PageSize + PageSize * Z.of_nat i) by lia.
      rewrite (Hfr _ _ Hq'). destruct T12 as (_ & _ & A). by rewrite A.
  - intros w Hw Hnin. rewrite Hframe; [|done|unfold in_pages, PageSize in *; lia].
    rewrite HE by done. rewrite decide_False; [done|].
    intros ->. apply Hnin. unfold in_pages, PageSize. lia.
Qed.

Lemma anon_loop_inv fuel page rsize v flags m m' fl ul n `{KernelImage} :
  pages_ok (mm_pages m) fl ul ->
  0 <= page -> rsize = page + PageSize * Z.of_nat n ->
  (n = 0%nat \/ user_page (v + page)) -> 0 <= v -> v + rsize <= PageTableBase ->
  anon_loop fuel page rsize v flags m = Ok m' ->
  backed m m' fl ul (v + page) n flags.
Proof.
  revert page m fl ul n; induction fuel as [|fuel IH]; intros page m fl ul n Hok Hp Hr Hv Hv0 Hb Hrun;
    [done|].
  unfold PageTableBase, PageSize in *. cbn [anon_loop] in Hrun.
  destruct (page <? rsize) eqn:Hlt; zbool.
  2:{ injection Hrun as <-. assert (n = 0%nat) as -> by lia. by apply backed_nil. }
  destruct n as [|n]; [lia|]. destruct Hv as [|Hv]; [done|].
  destruct fl as [|q fl]; [by rewrite (getPage_empty _ _ Hok) in Hrun|].
  destruct (getPage_took _ _ _ _ Hok) as (p1 & E1 & T1). rewrite E1 in Hrun.
  cbn [mbind res_bind] in Hrun.
  assert (Hnz : page_addr (pg_st (mm_pages m)) q <> 0).
  { intros E0. apply (po_nz _ _ _ Hok). rewrite <-E0. cbn. left. }
  rewrite (proj2 (Z.eqb_neq _ _) Hnz) in Hrun. cbn [negb kassert mbind res_bind] in Hrun.
  rewrite (wrap_id 32 (v + page)) in Hrun by (unfold uint; lia).
  pose proof (mapPage_spec (with_pages m p1) fl ([q] ++ ul) (v + page)
    (page_addr (pg_st (mm_pages m)) q) flags (took_ok _ _ _ _ _ _ T1) Hv
    (took_frame_addr _ _)) as HM.
  destruct (_ || _); [by rewrite HM in Hrun|].
  destruct HM as (m2 & t2 & fl2 & E2 & T2 & M2 & HE & _). rewrite E2 in Hrun.
  cbn [negb mbind res_bind] in Hrun. rewrite wrap_id in Hrun by (unfold uint, PageSize; lia).
  eapply (backed_step m m2); eauto.
  replace (v + page + PageSize) with (v + (page + 4096)) by (unfold PageSize; lia).
  eapply IH; eauto using took_ok; [unfold PageSize in *; lia..|].
  destruct n as [|n]; [by left|right].
  rewrite Z.add_assoc. apply (user_page_step _ (S n)); unfold PageTableBase, PageSize in *; auto; lia.
Qed.

(** ** The recursive entry guards the top of the address space *)

Definition SelfEntry : Z := 0xfffffffc.
Definition self_mapped (m : mm) : Prop := has (rd (mm_pt m) SelfEntry) Present = true.

Lemma ensure_pde_self v m m' : 0 <= v < 2 ^ 32 -> self_mapped m ->
  ensure_pde v PageTableBase (addressToPde v PageDirectoryBase) m = Ok m' -> self_mapped m'.
Proof.
  intros Hv Hs. unfold ensure_pde. destruct (has _ Present) eqn:Hp; cbn [negb].
  { by intros <-%Ok_inj. }
  destruct (getPage _) as [[a p]| | |]; cbn [mbind res_bind]; try done.
  destruct (negb (a =? 0)); cbn [kassert mbind res_bind]; [|done]. intros <-%Ok_inj.
  unfold self_mapped in *. cbn [mm_pt]. rewrite newpte_eq, rd_clear by done.
  assert (v / 2 ^ 22 <> 1023) as Hne.
  { intros E. rewrite addressToPde_eq, E in Hp by done.
    change (PageDirectoryBase + 4 * 1023) with SelfEntry in Hp. by rewrite Hs in Hp. }
  assert (0 <= v / 2 ^ 22 < 1024) by (change (2 ^ 22) with 4194304; Z.div_mod_to_equations; lia).
  rewrite decide_False by (unfold PageTableBase, PageSize, SelfEntry in *; lia).
  rewrite rd_insert. case_decide as E; [|done].
  rewrite addressToPde_eq in E by done. unfold PageDirectoryBase, SelfEntry in *. lia.
Qed.

Lemma set_pde_user_self flags pde m : self_mapped m -> self_mapped (set_pde_user flags pde m).
Proof.
  intros Hs. unfold set_pde_user. case_match; [|done]. unfold self_mapped in *. cbn.
  rewrite rd_insert. case_decide; [|done]. subst. by rewrite has_lor, Hs.
Qed.

(** Mapping keeps the recursive entry, and can not map the directory's page. *)
Lemma mapPage_self v p flags m b m' : 0 <= v < 2 ^ 32 -> v mod PageSize = 0 -> self_mapped m ->
  mapPage v p flags m = Ok (b, m') -> b = true /\ self_mapped m' /\ v <> PageDirectoryBase.
Proof.
  intros Hv Ha Hs. unfold mapPage, mapPage_at. rewrite kassert_aligned by (done || lia).
  destruct (Z.land p PageMask =? 0); cbn [kassert mbind res_bind]; [|done].
  destruct (ensure_pde _ _ _ _) as [m1| | |] eqn:E1; cbn [mbind res_bind]; try done.
  apply ensure_pde_self in E1; [|done|done].
  apply (set_pde_user_self flags (addressToPde v PageDirectoryBase)) in E1.
  set (m2 := set_pde_user flags (addressToPde v PageDirectoryBase) m1) in *.
  destruct (has _ Present) eqn:Hp; [done|]. intros E%Ok_inj.
  apply pair_eq in E as [<- <-].
  assert (addressToPte v PageTableBase <> SelfEntry) as Hne.
  { intros E. rewrite E in Hp. unfold self_mapped in E1. congruence. }
  split_and!; [done| |].
  - unfold self_mapped. cbn. by rewrite rd_insert, decide_False.
  - intros ->. by apply Hne.
Qed.

(** A region that wraps past the top of the address space runs into the page
    directory and panics; [anon_loop] never completes it. *)
(** Unmapping touches neither the globals nor the directory's own entry. *)
Lemma unmapPage_state v m m' b : user_page v -> unmapPage v m = Ok (b, m') ->
  mm_pages m' = mm_pages m /\ mm_mapEnd m' = mm_mapEnd m /\
  (self_mapped m -> self_mapped m').
Proof.
  intros Hv. unfold unmapPage. rewrite kassert_aligned by apply Hv.
  destruct (negb (has (rd (mm_pt m) (addressToPde _ _)) _)); [intros [=]|].
  destruct (negb (has (rd (mm_pt m) (addressToPte _ _)) _)); [intros [=]|].
  intros H. apply Ok_inj, (f_equal snd) in H. cbn [snd] in H. subst m'.
  split; [reflexivity|]. split; [reflexivity|].
  unfold self_mapped. cbn [mm_pt]. rewrite rd_insert. pose proof (pte_below_pdes _ Hv).
  rewrite decide_False; [done|]. unfold SelfEntry, PageDirectoryBase in *. lia.
Qed.

Lemma anon_loop_wrapped fuel page rsize v flags m m' :
  self_mapped m -> 0 <= v -> v mod PageSize = 0 -> 0 <= page -> page mod PageSize = 0 ->
  rsize < 2 ^ 32 -> v + page <= PageDirectoryBase < v + rsize ->
  anon_loop fuel page rsize v flags m <> Ok m'.
Proof.
  revert page m; induction fuel as [|fuel IH]; intros page m Hs Hv Hva Hp Hpa Hr Hb Hrun; [done|].
  unfold PageDirectoryBase in *. cbn [anon_loop] in Hrun.
  rewrite (proj2 (Z.ltb_lt _ _)) in Hrun by lia.
  destruct (getPage _) as [[a p1]| | |]; cbn [mbind res_bind] in Hrun; try done.
  destruct (negb (a =? 0)); cbn [kassert mbind res_bind] in Hrun; [|done].
  rewrite (wrap_id 32 (v + page)) in Hrun by (unfold uint; lia).
  destruct (mapPage _ _ _ _) as [[b m2]| | |] eqn:E; cbn [mbind res_bind] in Hrun; try done.
  apply mapPage_self in E as (-> & Hs2 & Hne); [|lia| |done].
  2:{ unfold PageSize in *. Z.div_mod_to_equations. lia. }
  cbn [negb] in Hrun. unfold PageDirectoryBase in *.
  assert (v + page + 4096 <= 0xfffff000).
  { unfold PageSize in *. Z.div_mod_to_equations. lia. }
  rewrite wrap_id in Hrun by (unfold uint, PageSize; lia).
  revert Hrun. apply IH; unfold PageSize in *; try done; try lia.
  Z.div_mod_to_equations. lia.
Qed.

(** ** mapAnonymousRegion *)

Record mm_ok (m : mm) (fl ul : list Z) : Prop := {
  mo_pages : pages_ok (mm_pages m) fl ul;
  mo_self : self_mapped m;
  mo_end : 0 <= mm_mapEnd m <= MapStart;
  mo_align : mm_mapEnd m mod PageSize = 0;
}.

Lemma anon_loop_self fuel page rsize v flags m m' :
  self_mapped m -> 0 <= v -> v mod PageSize = 0 -> 0 <= page -> page mod PageSize = 0 ->
  v + rsize <= PageTableBase ->
  anon_loop fuel page rsize v flags m = Ok m' -> self_mapped m'.
Proof.
  revert page m; induction fuel as [|fuel IH]; intros page m Hs Hv Hva Hp Hpa Hb Hrun; [done|].
  unfold PageTableBase in *. cbn [anon_loop] in Hrun. destruct (page <? rsize) eqn:Hlt; zbool.
  2:{ by injection Hrun as <-. }
  destruct (getPage _) as [[a p1]| | |]; cbn [mbind res_bind] in Hrun; try done.
  destruct (negb (a =? 0)); cbn [kassert mbind res_bind] in Hrun; [|done].
  rewrite (wrap_id 32 (v + page)) in Hrun by (unfold uint; lia).
  destruct (mapPage _ _ _ _) as [[b m2]| | |] eqn:E; cbn [mbind res_bind] in Hrun; try done.
  apply mapPage_self in E as (-> & Hs2 & _); [|lia| |done].
  2:{ unfold PageSize in *. Z.div_mod_to_equations. lia. }
  cbn [negb] in Hrun.
  assert (page + 4096 < 2 ^ 32) by (unfold PageSize in *; Z.div_mod_to_equations; lia).
  rewrite wrap_id in Hrun by (unfold uint, PageSize; lia).
  eapply (IH _ m2); [..|exact Hrun]; unfold PageSize in *; try done; try lia.
  Z.div_mod_to_equations. lia.
Qed.

(** The fuel is enough: the loop never stops for want of it. *)
Lemma getPage_fuel p : getPage p <> NoFuel.
Proof.
  intros H. unfold getPage, cluster_get, cluster_remove, cluster_insert, getAddress, get_val,
    get_next, get_prev, set_next, set_prev in H. nofuel.
Qed.

Lemma mapPage_fuel v p flags m : mapPage v p flags m <> NoFuel.
Proof.
  intros H. unfold mapPage, mapPage_at, ensure_pde in H. nofuel. by eapply getPage_fuel.
Qed.

Lemma anon_loop_fuel fuel page n v flags m :
  0 <= page -> page + PageSize * Z.of_nat n < 2 ^ 32 -> (n < fuel)%nat ->
  anon_loop fuel page (page + PageSize * Z.of_nat n) v flags m <> NoFuel.
Proof.
  revert page n m; induction fuel as [|fuel IH]; intros page n m Hp Hr Hf H; [lia|].
  unfold PageSize in *. cbn [anon_loop] in H. destruct (_ <? _) eqn:Hlt; zbool; [|done].
  destruct n as [|n]; [lia|].
  rewrite (wrap_id 32 (page + PageSize)) in H by (unfold uint, PageSize; lia).
  unfold PageSize in H.
  replace (page + 4096 * Z.of_nat (S n)) with (page + 4096 + 4096 * Z.of_nat n) in H by lia.
  nofuel; [by eapply getPage_fuel | by eapply mapPage_fuel | eapply (IH _ _ _); [..|exact H]; lia].
Qed.

Lemma mapAnonymousRegion_fuel `{KernelImage} size flags m :
  0 <= size -> size + PageMask < 2 ^ 32 -> mapAnonymousRegion size flags m <> NoFuel.
Proof.
  intros Hs Hl H0. unfold mapAnonymousRegion in H0. nofuel.
  destruct (roundTo_bounds size Hs Hl) as (Hb & k & Hk).
  assert (Hp : 0 <= k < 2 ^ 20) by (unfold PageMask, PageSize in *; lia).
  revert H0. unfold region_fuel. rewrite Hk, Z.div_mul by done.
  replace (k * PageSize) with (0 + PageSize * Z.of_nat (Z.to_nat k)) by (unfold PageSize; lia).
  apply anon_loop_fuel; unfold PageSize; lia.
Qed.

Lemma mapAnonymousRegion_ok `{KernelImage} m fl ul size flags v m' :
  mm_ok m fl ul -> 0 <= size -> size + PageMask < 2 ^ 32 -> 0 <= end_kernel ->
  mapAnonymousRegion size flags m = Ok (v, m') ->
  let n := Z.to_nat (roundTo size PageSize / PageSize) in
  v + PageSize * Z.of_nat n = mm_mapEnd m /\ size <= PageSize * Z.of_nat n /\
  end_kernel < v /\ v mod PageSize = 0 /\
  (exists ul', mm_ok m' (drop (length ul' - length ul) fl) ul' /\ mm_mapEnd m' = v /\
     backed (with_mapEnd m v) m' fl ul v n flags).
Proof.
  intros [Hok Hself Hend Hal] Hs Hl Hk Hrun n.
  destruct (roundTo_bounds size Hs Hl) as (Hb & k & Hkr).
  assert (Hkp : 0 <= k < 2 ^ 20) by (unfold PageMask, PageSize in *; lia).
  assert (Hn : n = Z.to_nat k) by (subst n; by rewrite Hkr, Z.div_mul).
  clearbody n. subst n. unfold mapAnonymousRegion in Hrun.
  destruct (size =? 0) eqn:Hz; cbn [negb kassert mbind res_bind] in Hrun; [done|]. zbool.
  set (v0 := u32 (mm_mapEnd m - roundTo size PageSize)) in *.
  destruct (_ <=? end_kernel) eqn:Hke in Hrun; [done|]. zbool.
  cbn [mm_mapEnd with_mapEnd] in *.
  apply res_bind_ok in Hrun as (m1 & Hrun & [= <- <-]).
  assert (HMS : MapStart = 0xffbf0000) by done.
  unfold PageTableBase, PageDirectoryBase in *. unfold PageSize in Hal.
  assert (Hv0 : v0 mod 4096 = 0).
  { subst v0. unfold wrap. rewrite Hkr. unfold PageSize. Z.div_mod_to_equations. lia. }
  destruct (decide (roundTo size PageSize <= mm_mapEnd m)) as [Hnw|Hw].
  2:{ exfalso. revert Hrun.
      assert (v0 = mm_mapEnd m - roundTo size PageSize + 2 ^ 32) as Ev.
      { subst v0. unfold wrap. unfold PageSize, PageMask in *. Z.div_mod_to_equations. lia. }
      apply anon_loop_wrapped; try done; unfold PageDirectoryBase, PageSize, PageMask in *;
        try lia; Z.div_mod_to_equations; lia. }
  assert (v0 = mm_mapEnd m - roundTo size PageSize) as Ev.
  { subst v0. apply wrap_id. unfold uint, PageSize, PageMask in *. lia. }
  assert (Hvp : 0 <= v0) by lia.
  assert (HB : backed (with_mapEnd m v0) m1 fl ul (v0 + 0) (Z.to_nat k) flags).
  { eapply anon_loop_inv; [..|exact Hrun]; try done; unfold PageTableBase, PageSize in *; try lia.
    right. unfold user_page, PageTableBase, PageSize. rewrite Z.add_0_r. lia. }
  rewrite Z.add_0_r in HB. unfold PageSize in *.
  split_and!; try lia.
  destruct HB as (t & fl' & fr & T & M & Hrest).
  exists (reverse t ++ ul). split; [|split; [done|by exists t, fl', fr]].
  assert (Hd : drop (length (reverse t ++ ul) - length ul) fl = fl').
  { destruct T as (-> & _). rewrite length_app, length_reverse.
    replace (length t + length ul - length ul)%nat with (length t) by lia. apply drop_app_length. }
  rewrite Hd. constructor.
  - by eapply took_ok.
  - eapply anon_loop_self; [..|exact Hrun]; try done; unfold PageTableBase, PageSize; lia.
  - rewrite M. cbn. lia.
  - rewrite M. done.
Qed.

(** C9: [Memory::mapAnonymousRegion].  The call always finishes within the
    fuel given (one iteration per page).  When it returns, the region is the
    rounded-up size directly below the previous [mapEnd], page aligned and
    above the kernel image; its pages are backed, in order, by distinct frames
    taken from the head of the free list, which are from then on in use; no
    page outside the region changed, and the state stays well formed. *)
Theorem mapAnonymousRegion_spec `{KernelImage} m fl ul size flags :
  mm_ok m fl ul -> 0 <= size -> size + PageMask < 2 ^ 32 -> 0 <= end_kernel ->
  mapAnonymousRegion size flags m <> NoFuel /\
  forall v m', mapAnonymousRegion size flags m = Ok (v, m') ->
  let n := Z.to_nat (roundTo size PageSize / PageSize) in
  v + PageSize * Z.of_nat n = mm_mapEnd m /\ size <= PageSize * Z.of_nat n /\
  end_kernel < v /\ v mod PageSize = 0 /\
  (exists ul', mm_ok m' (drop (length ul' - length ul) fl) ul' /\ mm_mapEnd m' = v /\
     backed (with_mapEnd m v) m' fl ul v n flags).
Proof.
  intros Hok Hs Hl Hk. split; [by apply mapAnonymousRegion_fuel|].
  intros v m' Hrun. by apply mapAnonymousRegion_ok.
Qed.

Definition small_image : KernelImage := {| end_kernel := 0xc0400000 |}.

Lemma self_only_ok : mm_ok self_only [48; 64] [80].
Proof. constructor; [apply three_pages_ok|done|done|done]. Qed.

Lemma mapAnonymousRegion_spec_witness :
  exists m', @mapAnonymousRegion small_image 100 Flags.None self_only = Ok (0xffbef000, m') /\
    mm_mapEnd m' = 0xffbef000.
Proof.
  destruct (@mapAnonymousRegion_spec small_image self_only [48; 64] [80] 100 Flags.None
    self_only_ok ltac:(done) ltac:(done) ltac:(done)) as [_ H].
  destruct (proj1 (res_fmap_ok (@mapAnonymousRegion small_image 100 Flags.None self_only) fst
    0xffbef000) ltac:(vm_compute; reflexivity)) as ([v m'] & E & Ev). cbn [fst] in Ev. subst v.
  destruct (H _ _ E) as (_ & _ & _ & _ & ul' & _ & He & _).
  exists m'. exact (conj E He).
Defined.
