(* ===== verification/FrameAlloc.v ===== *)
(** * The boot-time frame allocator

    Models Kernel/PageFrameAllocator.cc: a pool of [PageFrameCount] frames
    directly behind the kernel image, with one byte per frame.  The page tables
    of the boot-time directory (BootPaging.v) come from it, before the lists of
    PhysPages.v exist.

    The contract: the allocator is the ordered list of the pool's free frames;
    [getFreePage] takes its first element, or answers 0 when there is none, and
    [putFreePage] puts a frame back to its place. *)

From S2P Require Import Prelude.
From S2P Require Import Words.
From Stdlib Require Import ZArith Lia.
From stdpp Require Import prelude gmap list.

Open Scope Z_scope.

(** ** Constants (Include/Parameters.hh, Include/X86/Parameters.hh) *)

Definition PageFrameCount : Z := 10.
Definition KernelVirtualBase : Z := 0xc0000000.

(** ** State and operations *)

Record pfa : Type := Pfa {
  pfa_start : Z;
  pfa_bitmap : list Z;
}.

Fixpoint free_loop (n : nat) (i : Z) (a : pfa) : res (Z * pfa) :=
  match n with
  | O => mret (0, a)
  | S n =>
      b ← deref (pfa_bitmap a !! Z.to_nat i);
      if b =? 0 then
        let a := Pfa (pfa_start a) (<[Z.to_nat i := 1]> (pfa_bitmap a)) in
        let page := u32 (pfa_start a + u32 (PageSize * i)) in
        kassert (Z.land page PageMask =? 0);;
        mret (page, a)
      else free_loop n (i + 1) a
  end.

Definition getFreePage (a : pfa) : res (Z * pfa) :=
  free_loop (Z.to_nat PageFrameCount) 0 a.

(** The write to [bitmap[index]] is not checked: beyond the array it faults. *)
Definition putFreePage (page : Z) (a : pfa) : res pfa :=
  kassert (Z.land page PageMask =? 0);;
  let index := u32 (page - pfa_start a) / PageSize in
  if index <? PageFrameCount then
    mret (Pfa (pfa_start a) (<[Z.to_nat index := 0]> (pfa_bitmap a)))
  else Fault.

(** [PageFrameAllocator::init], given [&__end_kernel] and [__end_modules]. *)
Definition pool_end (end_kernel end_modules : Z) : Z :=
  Z.max end_kernel (u32 (end_modules + KernelVirtualBase)).

Definition PageFrameAllocator_init (end_kernel end_modules : Z) : pfa :=
  Pfa (roundTo (pool_end end_kernel end_modules) PageSize)
      (replicate (Z.to_nat PageFrameCount) 0).

(** ** The contract *)

Definition frame (s : Z) (i : nat) : Z := s + PageSize * Z.of_nat i.

(** The addresses of the free frames of a bitmap whose first frame is [s]. *)
Fixpoint free_from (s : Z) (bits : list Z) : list Z :=
  match bits with
  | [] => []
  | b :: bits => (if b =? 0 then [s] else []) ++ free_from (s + PageSize) bits
  end.

Definition free_frames (a : pfa) : list Z := free_from (pfa_start a) (pfa_bitmap a).

Record pfa_ok (a : pfa) : Prop := {
  fo_start : 0 < pfa_start a /\ pfa_start a mod PageSize = 0;
  fo_end : pfa_start a + PageSize * PageFrameCount <= 2 ^ 32;
  fo_length : length (pfa_bitmap a) = Z.to_nat PageFrameCount;
}.

Lemma free_from_app s k l :
  free_from s (k ++ l) = free_from s k ++ free_from (s + PageSize * Z.of_nat (length k)) l.
Proof.
  revert s; induction k as [|b k IH]; intros s; cbn [app free_from length].
  - f_equal. lia.
  - rewrite IH, <-app_assoc. do 3 f_equal. lia.
Qed.

(** A frame of a pool is a non-null, page aligned 32-bit word. *)
Lemma frame_word a i : pfa_ok a -> (i < Z.to_nat PageFrameCount)%nat ->
  0 < frame (pfa_start a) i <= 2 ^ 32 - PageSize /\ frame (pfa_start a) i mod PageSize = 0.
Proof.
  intros [[Hs Ha] He _] Hi. unfold frame, PageFrameCount, PageSize in *.
  split; [lia|]. Z.div_mod_to_equations. lia.
Qed.

Lemma land_page v : 0 <= v -> v mod PageSize = 0 -> (Z.land v PageMask =? 0) = true.
Proof. intros ? H. apply Z.eqb_eq. unfold PageMask. change (PageSize - 1) with (2 ^ 12 - 1).
  by rewrite land_ones_low. Qed.

(** The loop skips the frames in use and takes the first free one. *)
Lemma free_loop_found a u l n : pfa_ok a ->
  pfa_bitmap a = u ++ 0 :: l -> Forall (fun b => b <> 0) u ->
  forall k, (k <= length u)%nat -> n = (length u - k + S (length l))%nat ->
  free_loop n (Z.of_nat k) a
  = Ok (frame (pfa_start a) (length u), Pfa (pfa_start a) (u ++ 1 :: l)).
Proof.
  intros Hok Hb Hu. induction n as [|n IH]; intros k Hk Hn; [lia|].
  cbn [free_loop]. rewrite Nat2Z.id, Hb.
  destruct (decide (k = length u)) as [->|Hne].
  - rewrite lookup_app_r, Nat.sub_diag by lia. cbn [lookup list_lookup deref mbind res_bind].
    assert (length u < Z.to_nat PageFrameCount)%nat as Hlt.
    { rewrite <-(fo_length _ Hok), Hb, length_app. cbn [length]. lia. }
    destruct (frame_word a _ Hok Hlt) as [Hw Ha]. unfold frame in *. cbn [pfa_start pfa_bitmap Z.eqb].
    destruct (fo_start _ Hok) as [Hs _]. assert (0 < PageSize) by done.
    rewrite (wrap_id 32 (PageSize * _)), wrap_id by (unfold uint; lia).
    rewrite land_page by lia. cbn. do 3 f_equal.
    rewrite insert_app_r_alt, Nat.sub_diag by lia. done.
  - destruct (lookup_lt_is_Some_2 u k ltac:(lia)) as [b Eb].
    rewrite (lookup_app_l_Some _ _ _ _ Eb). cbn [deref mbind res_bind].
    rewrite Forall_lookup in Hu. specialize (Hu _ _ Eb). cbn beta in Hu.
    apply Z.eqb_neq in Hu as ->. replace (Z.of_nat k + 1) with (Z.of_nat (S k)) by lia.
    apply IH; lia.
Qed.

Lemma free_loop_none a n : Forall (fun b => b <> 0) (pfa_bitmap a) ->
  forall k, (k + n = length (pfa_bitmap a))%nat -> free_loop n (Z.of_nat k) a = Ok (0, a).
Proof.
  intros Hu. induction n as [|n IH]; intros k Hn; [done|].
  cbn [free_loop]. rewrite Nat2Z.id.
  destruct (lookup_lt_is_Some_2 (pfa_bitmap a) k ltac:(lia)) as [b Eb].
  rewrite Eb. cbn [deref mbind res_bind]. rewrite Forall_lookup in Hu.
  specialize (Hu _ _ Eb). cbn beta in Hu. apply Z.eqb_neq in Hu as ->.
  replace (Z.of_nat k + 1) with (Z.of_nat (S k)) by lia. apply IH; lia.
Qed.

Lemma free_from_used s u : Forall (fun b => b <> 0) u -> free_from s u = [].
Proof.
  intros Hu. revert s. induction Hu as [|b u Hb Hu IH]; intros s; [done|].
  cbn [free_from]. apply Z.eqb_neq in Hb as ->. apply IH.
Qed.

(** A bitmap either has a first free entry or none. *)
Lemma first_free bits : Forall (fun b => b <> 0) bits \/
  exists u l, bits = u ++ 0 :: l /\ Forall (fun b => b <> 0) u.
Proof.
  induction bits as [|b bits [IH|(u & l & -> & Hu)]]; [by left| |].
  - destruct (decide (b = 0)) as [->|]; [right; by exists [], bits|left; by constructor].
  - destruct (decide (b = 0)) as [->|]; right;
      [by eexists [], _|exists (b :: u), l; split; [done|by constructor]].
Qed.

(** ** The operations on the list of free frames *)

Lemma getFreePage_spec a : pfa_ok a ->
  match free_frames a with
  | [] => getFreePage a = Ok (0, a)
  | p :: l => exists a', getFreePage a = Ok (p, a') /\ pfa_ok a' /\
      pfa_start a' = pfa_start a /\ free_frames a' = l
  end.
Proof.
  intros Hok. pose proof (fo_length _ Hok) as Hlen. unfold free_frames.
  destruct (first_free (pfa_bitmap a)) as [Hu|(u & l & Hb & Hu)].
  - rewrite free_from_used by done. apply (free_loop_none _ _ Hu 0). lia.
  - rewrite Hb, free_from_app, free_from_used by done. cbn [app free_from Z.eqb].
    eexists. split; [|split; [|split]].
    + apply (free_loop_found _ _ _ _ Hok Hb Hu 0); [lia|].
      rewrite Hb, length_app in Hlen. cbn [length] in Hlen. lia.
    + destruct Hok as [? ? _]. split; [done|done|]. cbn [pfa_bitmap].
      rewrite Hb, length_app in Hlen. rewrite length_app. done.
    + done.
    + cbn [pfa_start pfa_bitmap]. rewrite free_from_app, free_from_used by done. done.
Qed.

(** Putting a frame back marks it free and leaves the others as they are. *)
Lemma putFreePage_spec a i : pfa_ok a -> (i < Z.to_nat PageFrameCount)%nat ->
  putFreePage (frame (pfa_start a) i) a
  = Ok (Pfa (pfa_start a) (<[i := 0]> (pfa_bitmap a))).
Proof.
  intros Hok Hi. destruct (frame_word a i Hok Hi) as [Hw Ha]. unfold putFreePage.
  rewrite land_page by lia. cbn [kassert mbind res_bind]. unfold frame in *.
  unfold PageFrameCount, PageSize in *.
  replace (_ - pfa_start a) with (4096 * Z.of_nat i) by lia.
  rewrite wrap_id by (unfold uint; lia). rewrite Z.mul_comm, Z.div_mul by lia.
  destruct (Z.ltb_spec (Z.of_nat i) 10); [|lia]. by rewrite Nat2Z.id.
Qed.

(** An address below the pool, or behind it, makes [putFreePage] write outside
    the bitmap. *)
Lemma putFreePage_stray a p : pfa_ok a -> uint 32 p -> p mod PageSize = 0 ->
  p < pfa_start a \/ pfa_start a + PageSize * PageFrameCount <= p ->
  putFreePage p a = Fault.
Proof.
  intros [[Hs Ha] He _] Hp Hpa Hout. unfold putFreePage.
  rewrite land_page by (unfold uint in *; lia). cbn [kassert mbind res_bind].
  destruct (Z.ltb_spec (u32 (p - pfa_start a) / PageSize) PageFrameCount) as [H|H]; [|done].
  exfalso. unfold PageFrameCount, PageSize, uint, wrap in *. change (2 ^ 32) with 4294967296 in *.
  Z.div_mod_to_equations. lia.
Qed.

(** Taking a frame and putting it back restores the allocator. *)
Theorem get_put a p a' : pfa_ok a -> getFreePage a = Ok (p, a') -> p <> 0 ->
  putFreePage p a' = Ok a.
Proof.
  intros Hok Hget Hp. pose proof (fo_length _ Hok) as Hlen.
  destruct (first_free (pfa_bitmap a)) as [Hu|(u & l & Hb & Hu)].
  { unfold getFreePage in Hget. rewrite (free_loop_none a _ Hu 0) in Hget by lia.
    by injection Hget as <- _. }
  unfold getFreePage in Hget. rewrite Hb, length_app in Hlen. cbn [length] in Hlen.
  rewrite (free_loop_found _ _ _ _ Hok Hb Hu 0) in Hget by lia. injection Hget as <- <-.
  assert (pfa_ok (Pfa (pfa_start a) (u ++ 1 :: l))) as Hok'.
  { destruct Hok as [? ? _]. split; [done|done|]. cbn [pfa_bitmap].
    rewrite length_app. cbn [length]. done. }
  rewrite (putFreePage_spec (Pfa _ _) _ Hok') by lia. cbn [pfa_start pfa_bitmap].
  rewrite insert_app_r_alt, Nat.sub_diag by lia. cbn. destruct a; cbn in *. by subst.
Qed.
