(* ===== verification/BootPaging.v ===== *)
(** * The boot-time page directory

    Models the other half of X86/PageDirectory.cc: [PageDirectory::init], which
    builds the kernel's page directory in frames of FrameAlloc.v before paging
    is on, the overloads of [mapPage] and [unmapPage] it uses, which reach the
    tables through an explicit directory, and [createPageDirectory], which
    copies the kernel's half into the directory of a new process.

    Before paging, tables are plain words of memory: a partial map from kernel
    virtual addresses to words; an access outside of it faults.  Turning paging
    on changes the view, not the words: [window] computes what the recursive
    mapping of directory entry 1023 shows of the memory, which is the state
    [mm_pt] that PageTables.v starts from. *)

From S2P Require Import Prelude.
From S2P Require Import Words.
From S2P Require Import PhysPages.
From S2P Require Import PageTables.
From S2P Require Import MemoryMap.
From S2P Require Import FrameAlloc.
From Stdlib Require Import ZArith Lia.
From stdpp Require Import prelude gmap list.

Open Scope Z_scope.

Definition KernelLoadAddress : Z := 0x100000.

Definition phystov (p : Z) : Z := u32 (p + KernelVirtualBase).
Definition vtophys (p : Z) : Z := u32 (p - KernelVirtualBase).

(** ** Memory *)

#[local] Notation memory := (gmap Z Z).

(** A 32-bit access at any address: one that is not aligned combines two
    words, as the processor does. *)
Definition load32 (mem : memory) (a : Z) : res Z :=
  let k := a mod 4 in
  if k =? 0 then deref (mem !! a)
  else
    lo ← deref (mem !! (a - k));
    hi ← deref (mem !! (a - k + 4));
    mret (Z.lor (Z.shiftr lo (8 * k)) (wshl 32 hi (32 - 8 * k))).

(** Stores are to aligned addresses only, apart from the one of [unmapPage]. *)
Definition store32 (mem : memory) (a w : Z) : res memory :=
  let k := a mod 4 in
  if k =? 0 then (fun _ => <[a := w]> mem) <$> deref (mem !! a)
  else
    lo ← deref (mem !! (a - k));
    hi ← deref (mem !! (a - k + 4));
    let lo := Z.lor (Z.land lo (2 ^ (8 * k) - 1)) (wshl 32 w (8 * k)) in
    let hi := Z.lor (wshl 32 (Z.shiftr hi (8 * k)) (8 * k)) (Z.shiftr w (32 - 8 * k)) in
    mret (<[a - k + 4 := hi]> (<[a - k := lo]> mem)).

(** [std::memset((void* )a, 0, 4 * n)] *)
Fixpoint zero_words (n : nat) (a : Z) (mem : memory) : res memory :=
  match n with
  | O => mret mem
  | S n => mem ← store32 mem a 0; zero_words n (a + 4) mem
  end.

(** ** State *)

Record boot : Type := Boot {
  bt_frames : pfa;
  bt_mem : memory;
}.

(** ** Operations on an explicit directory *)

(** The directory entry of a page, after a table was allocated if there was
    none. *)
Definition pd_table (vAddress pageDirectory : Z) (b : boot) : res (Z * boot) :=
  let slot := u32 (pageDirectory + 4 * addressToPdeIndex vAddress) in
  pt ← load32 (bt_mem b) slot;
  if Z.land pt Present =? 0 then
    '(newPt, frames) ← getFreePage (bt_frames b);
    mem ← zero_words 1024 newPt (bt_mem b);
    let newPt := Z.lor newPt (Z.lor Present Writable) in
    let pt := vtophys newPt in
    mem ← store32 mem slot pt;
    mret (pt, Boot frames mem)
  else mret (pt, b).

Definition mapPage_pd (vAddress pAddress pageDirectory : Z) (b : boot) : res (bool * boot) :=
  kassert (Z.land vAddress PageMask =? 0);;
  kassert (Z.land pAddress PageMask =? 0);;
  '(pt, b) ← pd_table vAddress pageDirectory b;
  let pt := Z.land pt 0xfffff000 in
  let vpt := phystov pt in
  let pte := u32 (vpt + 4 * addressToPteIndex vAddress) in
  w ← load32 (bt_mem b) pte;
  if negb (w =? 0) then Panic
  else
    mem ← store32 (bt_mem b) pte (Z.lor pAddress (Z.lor Present Writable));
    mret (true, Boot (bt_frames b) mem).

(** The low bits of the directory entry are not masked here. *)
Definition unmapPage_pd (vAddress pageDirectory : Z) (b : boot) : res (bool * boot) :=
  kassert (Z.land vAddress PageMask =? 0);;
  pt ← load32 (bt_mem b) (u32 (pageDirectory + 4 * addressToPdeIndex vAddress));
  if Z.land pt Present =? 0 then mret (false, b)
  else
    let vpt := phystov pt in
    let pte := u32 (vpt + 4 * addressToPteIndex vAddress) in
    w ← load32 (bt_mem b) pte;
    if w =? 0 then mret (false, b)
    else
      mem ← store32 (bt_mem b) pte 0;
      mret (true, Boot (bt_frames b) mem).

(** ** init *)

(** The loops of [init] that map [off + p] to [p] for [p] in [[p, last)]. *)
Fixpoint map_range (fuel : nat) (off p last pageDirectory : Z) (b : boot) : res boot :=
  match fuel with
  | O => NoFuel
  | S fuel =>
      if p <? last then
        '(rc, b) ← mapPage_pd (u32 (off + p)) p pageDirectory b;
        kassert rc;;
        map_range fuel off (u32 (p + PageSize)) last pageDirectory b
      else mret b
  end.

(** The loop that unmaps the identity mapping, through the window. *)
Fixpoint unmap_range (fuel : nat) (p last : Z) (m : mm) : res mm :=
  match fuel with
  | O => NoFuel
  | S fuel =>
      if p <? last then
        '(rc, m) ← PageTables.unmapPage p m;
        kassert rc;;
        unmap_range fuel (u32 (p + PageSize)) last m
      else mret m
  end.

(** What the recursive mapping shows under the directory at the physical
    address [cr3]: one page of words per directory entry that is present. *)
Definition window_pde (mem : memory) (cr3 i : Z) : Z :=
  default 0 (mem !! (phystov cr3 + 4 * i)).

Definition window_word (mem : memory) (cr3 a : Z) : Z :=
  let pde := window_pde mem cr3 ((a - PageTableBase) / PageSize) in
  default 0 (mem !! (phystov (Z.land pde (wnot 32 PageMask)) + a mod PageSize)).

Definition window_keys (mem : memory) (cr3 : Z) : list Z :=
  mjoin ((fun i =>
    if has (window_pde mem cr3 i) Present
    then (fun k => PageTableBase + PageSize * i + 4 * k) <$> seqZ 0 1024
    else []) <$> seqZ 0 1024).

Definition window (mem : memory) (cr3 : Z) : gmap Z Z :=
  list_to_map ((fun a => (a, window_word mem cr3 a)) <$> window_keys mem cr3).

Definition range_fuel (p last : Z) : nat := S (Z.to_nat ((last - p) / PageSize)).

(** The end of the mapped range: the image, the pool, and the page on which
    [Memory::init] bootstraps the lists of frames. *)
Definition last_page (highestKernelAddress : Z) : Z :=
  u32 (u32 (roundTo highestKernelAddress PageSize + PageSize * PageFrameCount + PageSize)
       - KernelVirtualBase).

(** [PageDirectory::init]: the result is [kernelPageDirectory] and the tables
    seen through the window; [pgs] and [mapEnd] are the globals of
    Kernel/Memory.cc, which it does not touch. *)
Definition PageDirectory_init `{KernelImage} (end_modules : Z) (mem : memory)
    (pgs : pages) (mapEnd : Z) : res (Z * mm) :=
  let frames := PageFrameAllocator_init end_kernel end_modules in
  '(pageDirectory, frames) ← getFreePage frames;
  kassert (negb (pageDirectory =? 0));;
  mem ← zero_words 1024 pageDirectory mem;
  mem ← store32 mem (pageDirectory + 4 * 1023) (Z.lor (vtophys pageDirectory) Present);
  let first := KernelLoadAddress in
  let last := last_page (pool_end end_kernel end_modules) in
  b ← map_range (range_fuel first last) KernelVirtualBase first last pageDirectory
        (Boot frames mem);
  b ← map_range (range_fuel first last) 0 first last pageDirectory b;
  let m := MM pgs (window (bt_mem b) (vtophys pageDirectory)) mapEnd in
  m ← unmap_range (range_fuel first last) first last m;
  mret (pageDirectory, m).

Definition getKernelPageDirectory (kernelPageDirectory : Z) : Z := vtophys kernelPageDirectory.

(** ** Memory accesses *)

Lemma load32_word mem a w : a mod 4 = 0 -> mem !! a = Some w -> load32 mem a = Ok w.
Proof. intros Ha E. unfold load32. by rewrite Ha, E. Qed.

Lemma store32_word mem a w : a mod 4 = 0 -> is_Some (mem !! a) ->
  store32 mem a w = Ok (<[a := w]> mem).
Proof. intros Ha [x E]. unfold store32. by rewrite Ha, E. Qed.

(** Clearing [n] words sets exactly them. *)
Lemma zero_words_ok n a mem : a mod 4 = 0 ->
  (forall b, a <= b < a + 4 * Z.of_nat n -> b mod 4 = 0 -> is_Some (mem !! b)) ->
  exists mem', zero_words n a mem = Ok mem' /\
    forall b, mem' !! b =
      if decide (a <= b < a + 4 * Z.of_nat n /\ b mod 4 = 0) then Some 0 else mem !! b.
Proof.
  revert a mem. induction n as [|n IH]; intros a mem Ha Hm.
  { exists mem. split; [done|]. intros b. by rewrite decide_False by lia. }
  cbn [zero_words]. rewrite store32_word by (done || apply Hm; lia). cbn [mbind res_bind].
  destruct (IH (a + 4) (<[a := 0]> mem)) as (mem' & E & H).
  - Z.div_mod_to_equations. lia.
  - intros b Hb Hb4. rewrite lookup_insert_ne by lia. apply Hm; [lia|done].
  - exists mem'. split; [done|]. intros b. rewrite H.
    destruct (decide (a = b)) as [<-|Hne].
    + rewrite lookup_insert_eq. repeat case_decide; done || lia.
    + rewrite lookup_insert_ne by done.
      repeat case_decide; try done; Z.div_mod_to_equations; lia.
Qed.

Lemma zero_words_fault n a mem : a mod 4 = 0 -> mem !! a = None -> zero_words (S n) a mem = Fault.
Proof. intros Ha Hm. cbn [zero_words]. unfold store32. by rewrite Ha, Hm. Qed.

(** Flags are added to the address of a page. *)
Lemma page_flags p fl : p mod PageSize = 0 -> 0 <= fl < PageSize -> Z.lor p fl = p + fl.
Proof.
  intros Hp Hf. unfold PageSize in *.
  assert (p = p / 4096 * 2 ^ 12) as E by (change (2 ^ 12) with 4096; Z.div_mod_to_equations; lia).
  rewrite Z.lor_comm, E, lor_add_shift by (done || lia). lia.
Qed.

(** ** The directory under construction *)

(** The frame of the [j]-th page table of a pool that starts at [s]: the
    directory itself has frame 0. *)
Definition table (s : Z) (j : nat) : Z := frame s (S j).

Definition pdi (v : Z) : Z := v / 2 ^ 22.

(** The directory at [s] has the tables of the entries [dirs], in the order of
    their frames, and its page entries are [E]. *)
Record boot_ok (s : Z) (dirs : list Z) (E : Z -> Z) (b : boot) : Prop := {
  bo_start : KernelVirtualBase <= s /\ s mod PageSize = 0 /\
    s + PageSize * PageFrameCount <= 2 ^ 32;
  bo_frames : bt_frames b = Pfa s (replicate (S (length dirs)) 1
    ++ replicate (9 - length dirs) 0);
  bo_len : (length dirs <= 9)%nat;
  bo_dup : NoDup dirs;
  bo_range : Forall (fun i => 0 <= i < 1023) dirs;
  bo_mem : forall a, s <= a < s + PageSize * PageFrameCount -> a mod 4 = 0 ->
    is_Some (bt_mem b !! a);
  bo_self : bt_mem b !! (s + 4 * 1023) = Some (vtophys s + Present);
  bo_none : forall i, 0 <= i < 1023 -> i ∉ dirs -> bt_mem b !! (s + 4 * i) = Some 0;
  bo_dir : forall j i, dirs !! j = Some i ->
    bt_mem b !! (s + 4 * i) = Some (vtophys (table s j) + 3);
  bo_entry : forall j i, dirs !! j = Some i -> forall k, 0 <= k < 1024 ->
    bt_mem b !! (table s j + 4 * k) = Some (E (2 ^ 22 * i + PageSize * k));
  bo_empty : forall v, user_page v -> pdi v ∉ dirs -> E v = 0;
}.

Definition add_dir (dirs : list Z) (i : Z) : list Z :=
  if decide (i ∈ dirs) then dirs else dirs ++ [i].

Lemma pdi_range v : user_page v -> 0 <= pdi v < 1023.
Proof.
  intros [Hv _]. unfold pdi, PageTableBase in *. change (2 ^ 22) with 4194304.
  Z.div_mod_to_equations. lia.
Qed.

Lemma pdi_eq v : addressToPdeIndex v = pdi v.
Proof. unfold addressToPdeIndex. by rewrite Z.shiftr_div_pow2. Qed.

(** Index and offset of a page in its table. *)
Lemma pti_eq v : user_page v -> exists k, addressToPteIndex v = k /\ 0 <= k < 1024 /\
  v = 2 ^ 22 * pdi v + PageSize * k.
Proof.
  intros [Hv Ha]. exists (v / PageSize mod 1024). unfold addressToPteIndex, pdi.
  change 0x3ff with (2 ^ 10 - 1). rewrite land_ones_low, Z.shiftr_div_pow2 by lia.
  split; [done|]. unfold PageSize in *. change (2 ^ 22) with (4096 * 1024).
  rewrite <-Z.div_div by lia. Z.div_mod_to_equations. lia.
Qed.

Lemma table_phys s j : KernelVirtualBase <= s -> s mod PageSize = 0 ->
  s + PageSize * PageFrameCount <= 2 ^ 32 -> (j < 9)%nat ->
  0 < vtophys (table s j) <= 2 ^ 30 /\ vtophys (table s j) mod PageSize = 0 /\
  phystov (vtophys (table s j)) = table s j.
Proof.
  intros Hs Ha He Hj. unfold vtophys, phystov, table, frame, KernelVirtualBase,
    PageFrameCount, PageSize in *.
  rewrite (wrap_id 32 (s + 4096 * Z.of_nat (S j) - 0xc0000000)) by (unfold uint; lia).
  rewrite wrap_id by (unfold uint; lia). Z.div_mod_to_equations. lia.
Qed.

(** The address of the table, out of a directory entry. *)
Lemma pde_table s j : KernelVirtualBase <= s -> s mod PageSize = 0 ->
  s + PageSize * PageFrameCount <= 2 ^ 32 -> (j < 9)%nat ->
  Z.land (vtophys (table s j) + 3) Present = 1 /\
  phystov (Z.land (vtophys (table s j) + 3) 0xfffff000) = table s j.
Proof.
  intros Hs Ha He Hj. destruct (table_phys s j Hs Ha He Hj) as (Hr & Hm & Hp).
  unfold PageSize in Hm. split.
  - change Present with (2 ^ 1 - 1). rewrite land_ones_low by lia. change (2 ^ 1) with 2.
    Z.div_mod_to_equations. lia.
  - change 0xfffff000 with (2 ^ 32 - 2 ^ 12). rewrite land_mask32 by (unfold uint; lia).
    change (2 ^ 12) with 4096. set (t := vtophys (table s j)) in *.
    replace (t + 3 - (t + 3) mod 4096) with t by (Z.div_mod_to_equations; lia). done.
Qed.

Section directory.
Context (s : Z).
Implicit Types (dirs : list Z) (E : Z -> Z) (b : boot).

Lemma frames_ok dirs E b : boot_ok s dirs E b -> pfa_ok (bt_frames b).
Proof.
  intros Hb. destruct (bo_start _ _ _ _ Hb) as (Hs & Ha & He). pose proof (bo_len _ _ _ _ Hb).
  rewrite (bo_frames _ _ _ _ Hb). unfold KernelVirtualBase in *.
  split; cbn [pfa_start pfa_bitmap]; [split; [lia|done]|done|].
  rewrite length_app, !length_replicate. unfold PageFrameCount. lia.
Qed.

(** The next frame of the pool. *)
Lemma next_frame dirs E b : boot_ok s dirs E b -> (length dirs < 9)%nat ->
  getFreePage (bt_frames b) = Ok (table s (length dirs),
    Pfa s (replicate (S (S (length dirs))) 1 ++ replicate (8 - length dirs) 0)).
Proof.
  intros Hb Hl. pose proof (frames_ok _ _ _ Hb) as Hok.
  assert (pfa_bitmap (bt_frames b) = replicate (S (length dirs)) 1
    ++ 0 :: replicate (8 - length dirs) 0) as Hbit.
  { rewrite (bo_frames _ _ _ _ Hb). cbn [pfa_bitmap].
    by replace (9 - length dirs)%nat with (S (8 - length dirs)) by lia. }
  unfold getFreePage. rewrite (free_loop_found _ _ _ _ Hok Hbit ltac:(by apply Forall_replicate) 0);
    rewrite ?length_replicate; [|lia|unfold PageFrameCount; lia].
  rewrite (bo_frames _ _ _ _ Hb). cbn [pfa_start]. unfold table. do 3 f_equal.
  rewrite (replicate_S_end (S (length dirs))), <-app_assoc. done.
Qed.

(** The addresses of the words of the pool. *)
Lemma pool_word dirs E b i k : boot_ok s dirs E b -> (i < 10)%nat -> 0 <= k < 1024 ->
  uint 32 (frame s i + 4 * k) /\ (frame s i + 4 * k) mod 4 = 0 /\
  is_Some (bt_mem b !! (frame s i + 4 * k)).
Proof.
  intros Hb Hi Hk. destruct (bo_start _ _ _ _ Hb) as (Hs & Ha & He).
  assert (H4 : (frame s i + 4 * k) mod 4 = 0).
  { unfold frame, PageSize in *. Z.div_mod_to_equations. lia. }
  split; [|split; [done|apply (bo_mem _ _ _ _ Hb); [|done]]];
    unfold frame, KernelVirtualBase, PageFrameCount, PageSize, uint in *; lia.
Qed.

Lemma frame_0 : frame s 0 = s.
Proof. unfold frame. lia. Qed.

Lemma dirs_index dirs E b j i : boot_ok s dirs E b -> dirs !! j = Some i ->
  (j < 9)%nat /\ 0 <= i < 1023.
Proof.
  intros Hb Hj. pose proof (bo_len _ _ _ _ Hb). pose proof (lookup_lt_Some _ _ _ Hj).
  split; [lia|]. pose proof (bo_range _ _ _ _ Hb) as H1. rewrite Forall_lookup in H1. by eapply H1.
Qed.

(** Adding a cleared table to the directory. *)
Lemma boot_ok_add dirs E b i mem : boot_ok s dirs E b -> i ∉ dirs -> 0 <= i < 1023 ->
  (length dirs < 9)%nat ->
  (forall a, mem !! a = if decide (table s (length dirs) <= a < table s (length dirs) + PageSize
                                   /\ a mod 4 = 0) then Some 0 else bt_mem b !! a) ->
  boot_ok s (dirs ++ [i]) E (Boot
    (Pfa s (replicate (S (S (length dirs))) 1 ++ replicate (8 - length dirs) 0))
    (<[s + 4 * i := vtophys (table s (length dirs)) + 3]> mem)).
Proof.
  intros Hb Hi Hr Hl Hm. pose proof (fun j i => dirs_index dirs E b j i Hb) as Hdi.
  destruct (bo_start _ _ _ _ Hb) as (Hs & Ha & He).
  assert (Ht : forall a, a < table s (length dirs) \/ table s (length dirs) + PageSize <= a ->
    mem !! a = bt_mem b !! a) by (intros a H1; rewrite Hm; by rewrite decide_False by lia).
  assert (forall j, table s j = s + 4096 + 4096 * Z.of_nat j) as Et
    by (intros; unfold table, frame, PageSize; lia).
  pose proof (Et (length dirs)) as Et0.
  unfold PageSize, PageFrameCount in *.
  split; cbn [bt_frames bt_mem]; rewrite ?length_app; cbn [length]; try done.
  - by replace (length dirs + 1)%nat with (S (length dirs)) by lia.
  - lia.
  - apply NoDup_app. split_and!; [apply Hb| |apply NoDup_singleton].
    intros x Hx Hx'. apply list_elem_of_singleton in Hx' as ->. done.
  - apply Forall_app. split; [apply Hb|by apply Forall_singleton].
  - intros a Haa Ha4. rewrite lookup_insert. case_decide; [done|]. rewrite Hm.
    case_decide; [done|]. by apply (bo_mem _ _ _ _ Hb).
  - rewrite lookup_insert_ne, Ht by lia. apply Hb.
  - intros i' Hi' Hn. rewrite not_elem_of_app, list_elem_of_singleton in Hn.
    destruct Hn as [Hn Hne]. rewrite lookup_insert_ne, Ht by lia. by apply Hb.
  - intros j i' Hj. apply lookup_app_Some in Hj as [Hj|[Hge Hj]].
    + destruct (Hdi _ _ Hj). assert (i' <> i) by (intros ->; apply Hi; by eapply list_elem_of_lookup_2).
      rewrite lookup_insert_ne, Ht by lia. by apply (bo_dir _ _ _ _ Hb).
    + apply list_lookup_singleton_Some in Hj as [Hj ->].
      assert (j = length dirs) as -> by lia. by rewrite lookup_insert_eq.
  - intros j i' Hj k Hk. rewrite lookup_insert_ne by (rewrite Et; lia).
    apply lookup_app_Some in Hj as [Hj|[Hge Hj]].
    + pose proof (lookup_lt_Some _ _ _ Hj). rewrite Ht by (rewrite !Et; lia).
      by apply (bo_entry _ _ _ _ Hb).
    + apply list_lookup_singleton_Some in Hj as [Hj <-].
      assert (j = length dirs) as -> by lia. rewrite Hm, decide_True.
      * symmetry. f_equal. apply (bo_empty _ _ _ _ Hb).
        -- unfold user_page, PageTableBase, PageSize. change (2 ^ 22) with 4194304.
           Z.div_mod_to_equations. lia.
        -- unfold pdi, PageSize. change (2 ^ 22) with 4194304.
           replace ((4194304 * i + 4096 * k) / 4194304) with i; [done|].
           Z.div_mod_to_equations. lia.
      * rewrite Et. unfold PageSize. Z.div_mod_to_equations. lia.
  - intros v Hv Hn. apply (bo_empty _ _ _ _ Hb); [done|]. intros H1. apply Hn.
    apply elem_of_app. by left.
Qed.
(** The table of a page exists after [pd_table]. *)
Lemma pd_table_ok dirs E b v : boot_ok s dirs E b -> user_page v ->
  pdi v ∈ dirs \/ (length dirs < 9)%nat ->
  exists j b', pd_table v s b = Ok (vtophys (table s j) + 3, b') /\
    boot_ok s (add_dir dirs (pdi v)) E b' /\ add_dir dirs (pdi v) !! j = Some (pdi v).
Proof.
  intros Hb Hv Hcase. pose proof (pdi_range _ Hv) as Hr. unfold pd_table. rewrite pdi_eq.
  destruct (bo_start _ _ _ _ Hb) as (Hs & Ha & He).
  destruct (pool_word _ _ _ 0 (pdi v) Hb ltac:(lia) ltac:(lia)) as (Hw & H4 & Hm).
  rewrite frame_0 in Hw, H4, Hm. rewrite wrap_id by done. unfold add_dir.
  destruct (decide (pdi v ∈ dirs)) as [Hin|Hin].
  - apply list_elem_of_lookup in Hin as [j Hj].
    destruct (dirs_index _ _ _ _ _ Hb Hj) as [Hj9 _].
    rewrite (load32_word _ _ _ H4 (bo_dir _ _ _ _ Hb _ _ Hj)). cbn [mbind res_bind].
    destruct (pde_table s j Hs Ha He Hj9) as [-> _]. cbn [Z.eqb]. by eauto.
  - destruct Hcase as [?|Hl]; [done|].
    rewrite (load32_word _ _ _ H4 (bo_none _ _ _ _ Hb _ Hr Hin)). cbn [mbind res_bind].
    cbn [Z.land Z.eqb]. rewrite (next_frame _ _ _ Hb Hl). cbn [mbind res_bind].
    destruct (pool_word _ _ _ (S (length dirs)) 0 Hb ltac:(lia) ltac:(lia)) as (Tw & T4 & _).
    rewrite Z.add_0_r in Tw, T4. fold (table s (length dirs)) in Tw, T4.
    destruct (zero_words_ok 1024 (table s (length dirs)) (bt_mem b) T4) as (mem & -> & Hz).
    { intros a Haa Ha4. apply (bo_mem _ _ _ _ Hb); [|done].
      unfold table, frame, PageSize, PageFrameCount in *. lia. }
    cbn [mbind res_bind]. change (Z.lor Present Writable) with 3.
    set (t := table s (length dirs)) in *.
    assert (t mod PageSize = 0 /\ vtophys (t + 3) = vtophys t + 3) as [Ht Hv3].
    { subst t. unfold table, frame, vtophys, KernelVirtualBase, PageSize, PageFrameCount in *.
      rewrite !wrap_id by (unfold uint; lia). Z.div_mod_to_equations. lia. }
    rewrite page_flags, Hv3 by done. rewrite store32_word; [|done|].
    2:{ rewrite Hz. case_decide; [done|exact Hm]. }
    cbn [mbind res_bind]. exists (length dirs). eexists. split_and!; [done| |].
    + apply (boot_ok_add _ _ _ _ _ Hb Hin Hr Hl). exact Hz.
    + by rewrite lookup_app_r, Nat.sub_diag by lia.
Qed.
(** Writing the entry of the page at index [k] of the [j]-th table. *)
Lemma boot_ok_store dirs E b j i k w : boot_ok s dirs E b -> dirs !! j = Some i ->
  0 <= k < 1024 ->
  boot_ok s dirs (fun v => if decide (v = 2 ^ 22 * i + PageSize * k) then w else E v)
    (Boot (bt_frames b) (<[table s j + 4 * k := w]> (bt_mem b))).
Proof.
  intros Hb Hj Hk. pose proof (fun j i => dirs_index dirs E b j i Hb) as Hdi.
  destruct (Hdi _ _ Hj) as [Hj9 Hi]. destruct (bo_start _ _ _ _ Hb) as (Hs & Ha & He).
  assert (forall j, table s j = s + 4096 + 4096 * Z.of_nat j) as Et
    by (intros; unfold table, frame, PageSize; lia).
  pose proof (Et j) as Et0.
  split; cbn [bt_frames bt_mem]; try apply Hb.
  - intros a Haa Ha4. rewrite lookup_insert. case_decide; [done|]. by apply (bo_mem _ _ _ _ Hb).
  - rewrite lookup_insert_ne by lia. apply Hb.
  - intros i' Hi' Hn. rewrite lookup_insert_ne by lia. by apply Hb.
  - intros j' i' Hj'. destruct (Hdi _ _ Hj'). rewrite lookup_insert_ne by lia.
    by apply (bo_dir _ _ _ _ Hb).
  - intros j' i' Hj' k' Hk'. pose proof (bo_entry _ _ _ _ Hb _ _ Hj' _ Hk') as E1.
    rewrite lookup_insert. change (2 ^ 22) with 4194304 in *. unfold PageSize in *.
    destruct (decide (j' = j)) as [->|Hne].
    + rewrite Hj in Hj'. injection Hj' as <-.
      repeat case_decide; try done; lia.
    + assert (i' <> i) as Hii.
      { intros ->. by apply Hne, (NoDup_lookup dirs _ _ i); [apply Hb| |]. }
      pose proof (Et j'). repeat case_decide; try done; lia.
  - intros v Hv Hn. case_decide as Hvk; [|by apply (bo_empty _ _ _ _ Hb)].
    exfalso. apply Hn. replace (pdi v) with i; [by eapply list_elem_of_lookup_2|].
    subst v. unfold pdi, PageSize. change (2 ^ 22) with 4194304. Z.div_mod_to_equations. lia.
Qed.

Lemma boot_ok_ext dirs E E' b : (forall v, user_page v -> E v = E' v) ->
  boot_ok s dirs E b -> boot_ok s dirs E' b.
Proof.
  intros H Hb. pose proof (fun j i => dirs_index dirs E b j i Hb) as Hdi.
  destruct Hb as [? ? ? ? ? ? ? ? ? He Hn]. split; try done.
  - intros j i Hj k Hk. rewrite <-H; [by apply He|]. apply Hdi in Hj as [_ Hi].
    unfold user_page, PageTableBase, PageSize. change (2 ^ 22) with 4194304.
    Z.div_mod_to_equations. lia.
  - intros v Hv ?. rewrite <-H by done. by apply Hn.
Qed.

Lemma mapPage_pd_ok dirs E b v p : boot_ok s dirs E b -> user_page v -> frame_addr p ->
  pdi v ∈ dirs \/ (length dirs < 9)%nat ->
  if E v =? 0 then
    exists b', mapPage_pd v p s b = Ok (true, b') /\
      boot_ok s (add_dir dirs (pdi v)) (fun w => if decide (w = v) then p + 3 else E w) b'
  else mapPage_pd v p s b = Panic.
Proof.
  intros Hb Hv Hp Hcase. unfold mapPage_pd.
  destruct (bo_start _ _ _ _ Hb) as (Hs & Ha & He).
  rewrite (kassert_aligned v) by apply Hv. rewrite kassert_aligned by apply Hp.
  destruct (pd_table_ok _ _ _ _ Hb Hv Hcase) as (j & b1 & -> & Hb1 & Hj).
  cbn [mbind res_bind]. destruct (dirs_index _ _ _ _ _ Hb1 Hj) as [Hj9 _].
  destruct (pde_table s j Hs Ha He Hj9) as [_ ->].
  destruct (pti_eq _ Hv) as (k & -> & Hk & Evk).
  destruct (pool_word _ _ _ (S j) k Hb1 ltac:(lia) Hk) as (Hw & H4 & Hm).
  fold (table s j) in Hw, H4, Hm. rewrite wrap_id by done.
  rewrite (load32_word _ _ _ H4 (bo_entry _ _ _ _ Hb1 _ _ Hj _ Hk)). rewrite <-Evk.
  cbn [mbind res_bind]. destruct (E v =? 0); cbn [negb]; [|done].
  rewrite (store32_word _ _ _ H4 Hm). cbn [mbind res_bind].
  change (Z.lor Present Writable) with 3. rewrite page_flags by (done || apply Hp).
  eexists. split; [done|]. pose proof (boot_ok_store _ _ _ j _ k (p + 3) Hb1 Hj Hk) as H.
  rewrite <-Evk in H. exact H.
Qed.
(** A list without duplicates that misses an element of [allowed] is shorter. *)
Lemma room dirs allowed i : NoDup dirs -> (forall x, x ∈ dirs -> x ∈ allowed) ->
  i ∈ allowed -> (length allowed <= 9)%nat -> i ∈ dirs \/ (length dirs < 9)%nat.
Proof.
  intros Hd Hsub Hi Hl. destruct (decide (i ∈ dirs)) as [|Hin]; [by left|right].
  assert (i :: dirs ⊆+ allowed) as Hs.
  { apply NoDup_submseteq; [by constructor|]. intros x [->|Hx]%elem_of_cons; auto. }
  apply submseteq_length in Hs. cbn [length] in Hs. lia.
Qed.

Lemma map_range_ok allowed off last : 0 <= off -> off mod PageSize = 0 ->
  off + last <= PageTableBase -> (length allowed <= 9)%nat ->
  forall n fuel p dirs E b, (n < fuel)%nat -> 0 <= p -> p mod PageSize = 0 ->
  last = p + PageSize * Z.of_nat n -> boot_ok s dirs E b ->
  (forall x, x ∈ dirs -> x ∈ allowed) ->
  (forall q, p <= q < last -> pdi (off + q) ∈ allowed) ->
  (forall v, user_page v -> off + p <= v < off + last -> E v = 0) ->
  exists dirs' b', map_range fuel off p last s b = Ok b' /\
    boot_ok s dirs' (fun v => if decide (off + p <= v < off + last) then v - off + 3 else E v) b' /\
    (forall x, x ∈ dirs' -> x ∈ allowed).
Proof.
  intros Ho Hoa Hend Hl. induction n as [|n IH]; intros fuel p dirs E b Hf Hp Hpa Hlast Hb Hsub Hall HE;
    (destruct fuel as [|fuel]; [lia|]); cbn [map_range]; destruct (Z.ltb_spec p last) as [Hlt|Hge];
    try (unfold PageSize in *; lia).
  - exists dirs, b. split_and!; [done| |done]. eapply boot_ok_ext; [|exact Hb].
    intros v _. cbn beta. by rewrite decide_False by lia.
  - assert (user_page (off + p)) as Hv.
    { split; [lia|]. unfold PageSize in *. Z.div_mod_to_equations. lia. }
    unfold PageTableBase in *.
    rewrite (wrap_id 32 (off + p)) by (unfold uint; lia).
    assert (frame_addr p) as Hpf by (split; [lia|done]).
    pose proof (room dirs allowed (pdi (off + p)) (bo_dup _ _ _ _ Hb) Hsub (Hall p ltac:(lia)) Hl)
      as Hroom.
    pose proof (mapPage_pd_ok dirs E b (off + p) p Hb Hv Hpf Hroom) as Hstep.
    rewrite HE in Hstep by (done || lia). destruct Hstep as (b1 & -> & Hb1).
    cbn [mbind res_bind kassert]. unfold PageSize in Hlast.
    rewrite (wrap_id 32 (p + PageSize)) by (unfold uint, PageSize; lia).
    destruct (IH fuel (p + PageSize) (add_dir dirs (pdi (off + p)))
        (fun w => if decide (w = off + p) then p + 3 else E w) b1 ltac:(lia) ltac:(unfold PageSize; lia)) as
      (dirs' & b' & -> & Hb' & Hsub'); [| |exact Hb1|..].
    + unfold PageSize in *. Z.div_mod_to_equations. lia.
    + unfold PageSize. lia.
    + intros x Hx. unfold add_dir in Hx. case_decide; [auto|].
      apply elem_of_app in Hx as [Hx|Hx%list_elem_of_singleton]; [auto|]. subst x. apply Hall. lia.
    + intros q Hq. apply Hall. unfold PageSize in Hq. lia.
    + intros v Hv' Hr. unfold PageSize in Hr. rewrite decide_False by lia. apply HE; [done|lia].
    + exists dirs', b'. split_and!; [done| |done]. eapply boot_ok_ext; [|exact Hb'].
      intros v [_ Hva]. cbn beta. unfold PageSize in *.
      repeat case_decide; try lia; exfalso; Z.div_mod_to_equations; lia.
Qed.
End directory.

(** ** Turning paging on *)

Lemma lookup_graph {A} (f : Z -> A) (l : list Z) a :
  (list_to_map ((fun b => (b, f b)) <$> l) : gmap Z A) !! a
  = if decide (a ∈ l) then Some (f a) else None.
Proof.
  induction l as [|b l IH]; cbn [fmap list_fmap list_to_map foldr]; [done|].
  destruct (decide (b = a)) as [->|Hne].
  - rewrite lookup_insert_eq, decide_True; [done|]. by left.
  - rewrite lookup_insert_ne, IH by done. repeat case_decide; try done; set_solver.
Qed.

(** The word the window shows at entry [k] of the [i]-th page. *)
Lemma window_lookup mem cr3 i k : 0 <= i < 1024 -> 0 <= k < 1024 ->
  rd (window mem cr3) (PageTableBase + PageSize * i + 4 * k)
  = if has (window_pde mem cr3 i) Present
    then default 0 (mem !! (phystov (Z.land (window_pde mem cr3 i) (wnot 32 PageMask)) + 4 * k))
    else 0.
Proof.
  intros Hi Hk. unfold rd, window. rewrite lookup_graph. unfold window_word.
  replace ((PageTableBase + PageSize * i + 4 * k - PageTableBase) / PageSize) with i
    by (unfold PageSize; Z.div_mod_to_equations; lia).
  replace ((PageTableBase + PageSize * i + 4 * k) mod PageSize) with (4 * k)
    by (unfold PageSize, PageTableBase; Z.div_mod_to_equations; lia).
  destruct (has (window_pde mem cr3 i) Present) eqn:Hp; case_decide as Hin; try done.
  - exfalso. apply Hin, list_elem_of_join. eexists. split.
    2:{ apply list_elem_of_fmap. exists i. split; [done|]. apply elem_of_seqZ. lia. }
    rewrite Hp. apply list_elem_of_fmap. exists k. split; [done|]. apply elem_of_seqZ. lia.
  - exfalso. apply list_elem_of_join in Hin as (l & Hl & (i' & -> & Hi')%list_elem_of_fmap).
    destruct (has (window_pde mem cr3 i') Present) eqn:Hp'; [|by apply elem_of_nil in Hl].
    apply list_elem_of_fmap in Hl as (k' & Hk' & Hks). apply elem_of_seqZ in Hi', Hks.
    unfold PageSize in Hk'. assert (i' = i) as -> by lia. congruence.
Qed.

Section paging.
Context (s : Z) (dirs : list Z) (E : Z -> Z) (b : boot) (Hb : boot_ok s dirs E b).
Let cr3 := vtophys s.
Let win := window (bt_mem b) cr3.

Lemma cr3_phys : phystov cr3 = s /\ 0 <= cr3 < 2 ^ 32 /\ cr3 mod PageSize = 0.
Proof.
  destruct (bo_start _ _ _ _ Hb) as (Hs & Ha & He). subst cr3. unfold phystov, vtophys.
  unfold KernelVirtualBase, PageFrameCount, PageSize in *.
  rewrite (wrap_id 32 (s - 0xc0000000)), wrap_id by (unfold uint; lia).
  Z.div_mod_to_equations. lia.
Qed.

Lemma self_present : window_pde (bt_mem b) cr3 1023 = cr3 + 1.
Proof.
  destruct cr3_phys as (E1 & _ & _). unfold window_pde. rewrite E1.
  rewrite (bo_self _ _ _ _ Hb). done.
Qed.

(** The last page of the window is the directory itself. *)
Lemma window_directory i : 0 <= i < 1024 ->
  rd win (PageDirectoryBase + 4 * i) = window_pde (bt_mem b) cr3 i.
Proof.
  intros Hi. change PageDirectoryBase with (PageTableBase + PageSize * 1023).
  subst win. rewrite window_lookup, self_present by lia.
  destruct cr3_phys as (E1 & Hr & Ha). rewrite <-(page_flags cr3 1) by done.
  rewrite entry_word_phys, has_lor, orb_true_r by done. done.
Qed.

Lemma window_self m : mm_pt m = win -> self_mapped m.
Proof.
  intros Hm. unfold self_mapped. rewrite Hm. change SelfEntry with (PageDirectoryBase + 4 * 1023).
  rewrite window_directory, self_present, <-(page_flags cr3 1) by (done || lia || apply cr3_phys).
  by rewrite has_lor, orb_true_r.
Qed.

(** Through the window, the run-time page directory sees the entries that were
    written before. *)
Lemma window_entry m v : mm_pt m = win -> user_page v -> entry m v = E v.
Proof.
  intros Hm Hv. pose proof (pdi_range _ Hv) as Hr. unfold entry. rewrite Hm.
  rewrite addressToPde_eq, addressToPte_eq by by apply user_page_word.
  fold (pdi v). rewrite window_directory by lia. destruct cr3_phys as (E1 & _ & _).
  destruct (decide (pdi v ∈ dirs)) as [Hin|Hin].
  - apply list_elem_of_lookup in Hin as [j Hj]. destruct (dirs_index _ _ _ _ _ _ Hb Hj) as [Hj9 _].
    destruct (bo_start _ _ _ _ Hb) as (Hs & Ha & He).
    destruct (table_phys s j Hs Ha He Hj9) as (Tr & Ta & Tp).
    assert (window_pde (bt_mem b) cr3 (pdi v) = Z.lor (vtophys (table s j)) 3) as Epde.
    { unfold window_pde. rewrite E1, (bo_dir _ _ _ _ Hb _ _ Hj). cbn [default].
      by rewrite page_flags. }
    rewrite Epde, has_lor, orb_true_r. destruct (pti_eq _ Hv) as (k & _ & Hk & Evk).
    replace (PageTableBase + 4 * (v / PageSize)) with (PageTableBase + PageSize * pdi v + 4 * k).
    2:{ rewrite Evk at 2. unfold PageSize. change (2 ^ 22) with 4194304.
        Z.div_mod_to_equations. lia. }
    subst win. rewrite window_lookup by lia. rewrite Epde, has_lor, orb_true_r, entry_word_phys by (done || lia).
    rewrite Tp, (bo_entry _ _ _ _ Hb _ _ Hj _ Hk), <-Evk. done.
  - unfold window_pde. rewrite E1, (bo_none _ _ _ _ Hb) by done. cbn.
    symmetry. by apply (bo_empty _ _ _ _ Hb).
Qed.
End paging.

(** ** Taking the identity mapping away *)

Lemma unmap_range_ok last : last <= PageTableBase -> forall n fuel p m,
  (n < fuel)%nat -> 0 <= p -> p mod PageSize = 0 -> last = p + PageSize * Z.of_nat n ->
  self_mapped m ->
  (forall v, user_page v -> p <= v < last -> has (entry m v) Present = true) ->
  exists m', unmap_range fuel p last m = Ok m' /\ mm_pages m' = mm_pages m /\
    mm_mapEnd m' = mm_mapEnd m /\ self_mapped m' /\
    forall v, user_page v -> entry m' v = if decide (p <= v < last) then Writable else entry m v.
Proof.
  intros Hend. induction n as [|n IH]; intros fuel p m Hf Hp Hpa Hlast Hself Hpres;
    (destruct fuel as [|fuel]; [lia|]); cbn [unmap_range]; destruct (Z.ltb_spec p last) as [Hlt|Hge];
    try (unfold PageSize in *; lia).
  - exists m. split_and!; try done. intros v _. by rewrite decide_False by lia.
  - assert (user_page p) as Hv by (split; [lia|done]).
    pose proof (unmapPage_spec m p Hv) as Hstep. rewrite Hpres in Hstep by (done || lia).
    destruct Hstep as (m1 & E1 & _ & _ & H1). rewrite E1. cbn [mbind res_bind kassert].
    destruct (unmapPage_state _ _ _ _ Hv E1) as (Ep & Ee & Hs1).
    unfold PageSize, PageTableBase in *. rewrite (wrap_id 32 (p + 4096)) by (unfold uint; lia).
    destruct (IH fuel (p + 4096) m1) as (m' & -> & Ep' & Ee' & Hs' & H'); try lia; auto.
    + Z.div_mod_to_equations. lia.
    + intros v Hv' Hr. rewrite H1, decide_False by (done || lia). apply Hpres; [done|lia].
    + exists m'. split_and!; [done|congruence|congruence|done|].
      intros v Hv'. rewrite H', H1 by done. destruct Hv' as [_ Hva]. unfold PageSize in Hva.
      repeat case_decide; try done; try lia; exfalso; Z.div_mod_to_equations; lia.
Qed.

(** ** The kernel's page directory *)

(** The boot-time page entries: the kernel range is mapped behind
    [KernelVirtualBase]; the entries of the former identity mapping are left
    without [Present]. *)
Definition kernel_entry (last v : Z) : Z :=
  if decide (KernelVirtualBase + KernelLoadAddress <= v < KernelVirtualBase + last)
  then v - KernelVirtualBase + 3
  else if decide (KernelLoadAddress <= v < last) then Writable else 0.

(** The frames of the pool are memory. *)
Definition pool_memory (mem : gmap Z Z) (s : Z) : Prop :=
  forall a, s <= a < s + PageSize * PageFrameCount -> a mod 4 = 0 -> is_Some (mem !! a).

Section image.
Context (top : Z).
Context (Htop : KernelVirtualBase + KernelLoadAddress <= top <= KernelVirtualBase + 0xff5000).
Let s := roundTo top PageSize.

Lemma pool_start : top <= s < top + PageSize /\ s mod PageSize = 0 /\
  s <= KernelVirtualBase + 0xff5000.
Proof.
  unfold KernelVirtualBase, KernelLoadAddress in *.
  destruct (roundTo_bounds top) as [H1 [k H2]]; [lia|unfold PageMask, PageSize; lia|].
  fold s in H1, H2. unfold PageSize in *. Z.div_mod_to_equations. lia.
Qed.

Lemma last_page_eq : last_page top = s + PageSize * (PageFrameCount + 1) - KernelVirtualBase /\
  last_page top mod PageSize = 0 /\ KernelLoadAddress < last_page top <= 2 ^ 24.
Proof.
  pose proof pool_start as (H1 & H2 & H3). unfold last_page. fold s.
  unfold KernelVirtualBase, KernelLoadAddress, PageFrameCount, PageSize in *.
  rewrite (wrap_id 32 (s + 4096 * 10 + 4096)), wrap_id by (unfold uint; lia).
  Z.div_mod_to_equations. lia.
Qed.

(** The directory before the first page is mapped. *)
Lemma boot_ok_init mem mem' : pool_memory mem s ->
  (forall b, mem' !! b = if decide (s <= b < s + PageSize /\ b mod 4 = 0) then Some 0 else mem !! b) ->
  boot_ok s [] (fun _ => 0) (Boot (Pfa s (replicate 1 1 ++ replicate 9 0))
    (<[s + 4 * 1023 := Z.lor (vtophys s) Present]> mem')).
Proof.
  intros Hm Hz. pose proof pool_start as (H1 & H2 & H3).
  unfold KernelVirtualBase, KernelLoadAddress in *.
  assert (0 <= vtophys s /\ vtophys s mod PageSize = 0) as [Hp0 Hpa].
  { unfold vtophys, KernelVirtualBase, PageSize in *. rewrite wrap_id by (unfold uint; lia).
    Z.div_mod_to_equations. lia. }
  split; cbn [bt_frames bt_mem length]; try done.
  - unfold KernelVirtualBase, PageFrameCount, PageSize in *. lia.
  - lia.
  - constructor.
  - intros a Ha Ha4. rewrite lookup_insert. case_decide; [done|]. rewrite Hz.
    case_decide; [done|by apply Hm].
  - by rewrite lookup_insert_eq, page_flags.
  - intros i Hi _. rewrite lookup_insert_ne, Hz, decide_True; [done| |lia].
    unfold PageSize in *. Z.div_mod_to_equations. lia.
Qed.
End image.

(** The entries of the tables that the two loops need: four of each half. *)
Definition boot_dirs : list Z := seqZ 0 4 ++ seqZ 768 4.

Lemma length_boot_dirs : (length boot_dirs <= 9)%nat.
Proof. unfold boot_dirs. rewrite length_app, !length_seqZ. lia. Qed.

Lemma low_dirs q : 0 <= q < 2 ^ 24 -> pdi (0 + q) ∈ boot_dirs.
Proof.
  intros Hq. unfold boot_dirs, pdi. rewrite elem_of_app, !elem_of_seqZ.
  change (2 ^ 22) with 4194304. Z.div_mod_to_equations. lia.
Qed.

Lemma high_dirs q : 0 <= q < 2 ^ 24 -> pdi (KernelVirtualBase + q) ∈ boot_dirs.
Proof.
  intros Hq. unfold boot_dirs, pdi, KernelVirtualBase. rewrite elem_of_app, !elem_of_seqZ.
  change (2 ^ 22) with 4194304. Z.div_mod_to_equations. lia.
Qed.

Lemma range_pages last : last mod PageSize = 0 -> KernelLoadAddress < last ->
  last = KernelLoadAddress + PageSize * Z.of_nat (Z.to_nat ((last - KernelLoadAddress) / PageSize)).
Proof.
  intros Ha Hl. unfold KernelLoadAddress, PageSize in *.
  rewrite Z2Nat.id by (Z.div_mod_to_equations; lia). Z.div_mod_to_equations. lia.
Qed.

(** Both loops of [init]: the kernel range is mapped twice. *)
Lemma boot_maps last s b : last mod PageSize = 0 -> KernelLoadAddress < last <= 2 ^ 24 ->
  boot_ok s [] (fun _ => 0) b ->
  exists dirs b1 b2,
    map_range (range_fuel KernelLoadAddress last) KernelVirtualBase KernelLoadAddress last s b = Ok b1 /\
    map_range (range_fuel KernelLoadAddress last) 0 KernelLoadAddress last s b1 = Ok b2 /\
    boot_ok s dirs (fun v => if decide (KernelLoadAddress <= v < last) then v + 3
      else if decide (KernelVirtualBase + KernelLoadAddress <= v < KernelVirtualBase + last)
      then v - KernelVirtualBase + 3 else 0) b2.
Proof.
  intros Ha Hl Hb. pose proof (range_pages last Ha ltac:(lia)) as Hn.
  unfold range_fuel. set (n := Z.to_nat _) in *.
  assert (0 <= KernelLoadAddress /\ KernelLoadAddress mod PageSize = 0) as [K0 Ka] by done.
  assert (KernelVirtualBase mod PageSize = 0 /\ KernelVirtualBase = 0xc0000000) as [Va Ve] by done.
  destruct (map_range_ok s boot_dirs KernelVirtualBase last ltac:(lia) Va
    ltac:(unfold PageTableBase; lia) length_boot_dirs n (S n) KernelLoadAddress [] _ b ltac:(lia) K0 Ka Hn Hb)
    as (d1 & b1 & E1 & Hb1 & Hs1).
  { intros x []%elem_of_nil. } { intros q Hq. apply high_dirs. lia. } { done. }
  destruct (map_range_ok s boot_dirs 0 last ltac:(lia) ltac:(done)
    ltac:(unfold PageTableBase; lia) length_boot_dirs n (S n) KernelLoadAddress d1 _ b1 ltac:(lia) K0 Ka Hn Hb1)
    as (d2 & b2 & E2 & Hb2 & _).
  { exact Hs1. } { intros q Hq. apply low_dirs. lia. }
  { intros v Hv Hr. cbn beta. by rewrite decide_False by lia. }
  exists d2, b1, b2. split_and!; [exact E1|exact E2|]. eapply boot_ok_ext; [|exact Hb2].
  intros v Hv. cbn beta. repeat case_decide; lia.
Qed.

(** The first frame of the pool. *)
Lemma first_frame s : 0 < s -> s mod PageSize = 0 -> s + PageSize * PageFrameCount <= 2 ^ 32 ->
  getFreePage (Pfa s (replicate (Z.to_nat PageFrameCount) 0))
  = Ok (s, Pfa s (replicate 1 1 ++ replicate 9 0)).
Proof.
  intros H0 Ha He. unfold getFreePage.
  rewrite (free_loop_found _ [] (replicate 9 0)) with (k := 0%nat); try done.
  cbn [length pfa_start]. unfold frame. do 3 f_equal. lia.
Qed.

(** The directory that maps nothing but itself. *)
Lemma empty_directory top mem :
  KernelVirtualBase + KernelLoadAddress <= top <= KernelVirtualBase + 0xff5000 ->
  let s := roundTo top PageSize in pool_memory mem s ->
  exists mem1 mem2, zero_words 1024 s mem = Ok mem1 /\
    store32 mem1 (s + 4 * 1023) (Z.lor (vtophys s) Present) = Ok mem2 /\
    boot_ok s [] (fun _ => 0) (Boot (Pfa s (replicate 1 1 ++ replicate 9 0)) mem2).
Proof.
  intros Ht s Hm. pose proof (pool_start top Ht) as (S1 & S2 & S3). fold s in S1, S2, S3.
  assert (s mod 4 = 0) as S4 by (unfold PageSize in *; Z.div_mod_to_equations; lia).
  destruct (zero_words_ok 1024 s mem S4) as (mem1 & E1 & Hz).
  { intros a Ha Ha4. apply Hm; [|done]. unfold PageFrameCount, PageSize. lia. }
  exists mem1. eexists. split; [exact E1|]. split; [|exact (boot_ok_init top Ht mem mem1 Hm Hz)].
  assert ((s + 4 * 1023) mod 4 = 0) by (Z.div_mod_to_equations; lia).
  apply store32_word; [done|]. rewrite Hz. case_decide; [done|].
  apply Hm; [fold s; unfold PageFrameCount, PageSize; lia|done].
Qed.

(** The third loop, on the window of the two mappings. *)
Lemma unmap_identity s dirs b last m : last mod PageSize = 0 ->
  KernelLoadAddress < last <= 2 ^ 24 ->
  boot_ok s dirs (fun v => if decide (KernelLoadAddress <= v < last) then v + 3
      else if decide (KernelVirtualBase + KernelLoadAddress <= v < KernelVirtualBase + last)
      then v - KernelVirtualBase + 3 else 0) b ->
  mm_pt m = window (bt_mem b) (vtophys s) ->
  exists m', unmap_range (range_fuel KernelLoadAddress last) KernelLoadAddress last m = Ok m' /\
    mm_pages m' = mm_pages m /\ mm_mapEnd m' = mm_mapEnd m /\ self_mapped m' /\
    forall v, user_page v -> entry m' v = kernel_entry last v.
Proof.
  intros La Ll Hb Hw. pose proof (fun v => window_entry s dirs _ b Hb m v Hw) as He.
  destruct (unmap_range_ok last ltac:(unfold PageTableBase; lia)
    (Z.to_nat ((last - KernelLoadAddress) / PageSize)) (range_fuel KernelLoadAddress last)
    KernelLoadAddress m) as (m' & E & Ep & Ee & Hself & Hent); try done.
  { unfold range_fuel. lia. }
  { apply range_pages; [exact La|lia]. }
  { by eapply window_self. }
  { intros v Hv Hr. rewrite He, decide_True by done. rewrite <-page_flags by (done || apply Hv).
    by rewrite has_lor, orb_true_r. }
  exists m'. split_and!; [done|exact Ep|exact Ee|done|]. intros v Hv. rewrite Hent, He by done.
  unfold kernel_entry, KernelVirtualBase, KernelLoadAddress in *.
  repeat case_decide; done || lia.
Qed.

(** C4: [PageDirectory::init] builds the kernel's address space: for a kernel
    image (and modules) of less than 16 MB it returns, the ten frames of the
    bitmap allocator suffice for the directory and the tables of both
    mappings, the directory is the first frame behind the image, and through
    the recursive mapping the run-time page directory sees the kernel's range
    (image, frame pool, bootstrap page) mapped behind [KernelVirtualBase], the
    identity mapping gone, and nothing else mapped. *)
Theorem init_maps `{KernelImage} end_modules mem pgs mapEnd :
  let top := pool_end end_kernel end_modules in
  let s := roundTo top PageSize in
  KernelVirtualBase + KernelLoadAddress <= top <= KernelVirtualBase + 0xff5000 ->
  pool_memory mem s ->
  exists m, PageDirectory_init end_modules mem pgs mapEnd = Ok (s, m) /\
    mm_pages m = pgs /\ mm_mapEnd m = mapEnd /\ self_mapped m /\
    forall v, user_page v -> entry m v = kernel_entry (last_page top) v.
Proof.
  intros top s Ht Hm. pose proof (pool_start top Ht) as (S1 & S2 & S3).
  destruct (last_page_eq top Ht) as (_ & La & Ll). fold s in S1, S2, S3.
  assert (Hs : 0xc0100000 <= s <= 0xc0ff5000) by (unfold KernelVirtualBase, KernelLoadAddress in *; lia).
  destruct (empty_directory top mem Ht Hm) as (mem1 & mem2 & E1 & E2 & Hb). fold s in E1, E2, Hb.
  destruct (boot_maps (last_page top) s _ La Ll Hb) as (dirs & b1 & b2 & E3 & E4 & Hb2).
  destruct (unmap_identity s dirs b2 (last_page top)
    (MM pgs (window (bt_mem b2) (vtophys s)) mapEnd) La Ll Hb2 eq_refl)
    as (m & E5 & Ep & Ee & Hself & Hent).
  exists m. split_and!; [|exact Ep|exact Ee|done|done].
  unfold PageDirectory_init, PageFrameAllocator_init. fold top s.
  rewrite first_frame by (lia || done || unfold PageFrameCount, PageSize; lia).
  cbn [mbind res_bind]. rewrite (proj2 (Z.eqb_neq s 0)) by lia. cbn [negb kassert mbind res_bind].
  rewrite E1. cbn [mbind res_bind]. rewrite E2. cbn [mbind res_bind]. cbv zeta.
  rewrite E3. cbn [mbind res_bind]. rewrite E4. cbn [mbind res_bind]. rewrite E5. done.
Qed.

(** *** Limits of the boot-time operations *)

(** [mapPage] does not check that it got a frame for a table: when the pool is
    used up, it clears page 0 instead, which faults. *)
Theorem mapPage_pd_exhausted s dirs E b v p : boot_ok s dirs E b -> user_page v ->
  frame_addr p -> length dirs = 9%nat -> pdi v ∉ dirs -> bt_mem b !! 0 = None ->
  mapPage_pd v p s b = Fault.
Proof.
  intros Hb Hv Hp Hl Hin H0. unfold mapPage_pd, pd_table.
  rewrite (kassert_aligned v) by apply Hv. rewrite kassert_aligned by apply Hp. rewrite pdi_eq.
  pose proof (pdi_range _ Hv) as Hr.
  destruct (pool_word _ _ _ _ 0 (pdi v) Hb ltac:(lia) ltac:(lia)) as (Hw & H4 & _).
  rewrite frame_0 in Hw, H4. rewrite wrap_id by done.
  rewrite (load32_word _ _ _ H4 (bo_none _ _ _ _ Hb _ Hr Hin)). cbn [mbind res_bind Z.land Z.eqb].
  unfold getFreePage. rewrite (free_loop_none (bt_frames b) _ ltac:(
    rewrite (bo_frames _ _ _ _ Hb), Hl; repeat constructor; done) 0).
  - cbn [mbind res_bind]. by rewrite (zero_words_fault 1023 0).
  - by rewrite (bo_frames _ _ _ _ Hb), Hl.
Qed.

(** The explicit-directory [unmapPage] uses the directory entry with its flag
    bits as an address: it reads the table three bytes off.  For a page that is
    mapped to a frame below 16 MB, behind which no page is mapped, it answers
    that the page was not mapped, and leaves it mapped. *)
Theorem unmapPage_pd_misses s dirs E b v p : boot_ok s dirs E b -> user_page v ->
  pdi v ∈ dirs -> E v = p + 3 -> frame_addr p -> p < 2 ^ 24 ->
  pdi (v + PageSize) = pdi v -> E (v + PageSize) = 0 ->
  unmapPage_pd v s b = Ok (false, b).
Proof.
  intros Hb Hv Hin HE Hp Hp24 Hnext HE0. unfold unmapPage_pd.
  rewrite kassert_aligned by apply Hv. rewrite pdi_eq. pose proof (pdi_range _ Hv) as Hr.
  destruct (bo_start _ _ _ _ Hb) as (Hs & Ha & He).
  destruct (pool_word _ _ _ _ 0 (pdi v) Hb ltac:(lia) ltac:(lia)) as (Hw & H4 & _).
  rewrite frame_0 in Hw, H4. rewrite wrap_id by done.
  apply list_elem_of_lookup in Hin as [j Hj]. destruct (dirs_index _ _ _ _ _ _ Hb Hj) as [Hj9 _].
  rewrite (load32_word _ _ _ H4 (bo_dir _ _ _ _ Hb _ _ Hj)). cbn [mbind res_bind].
  destruct (pde_table s j Hs Ha He Hj9) as [-> _]. cbn [Z.eqb].
  destruct (pti_eq _ Hv) as (k & -> & Hk & Evk).
  assert (k + 1 < 1024) as Hk1.
  { rewrite Evk in Hnext at 1. unfold pdi, PageSize in Hnext.
    change (2 ^ 22) with 4194304 in Hnext. Z.div_mod_to_equations. lia. }
  pose proof (bo_entry _ _ _ _ Hb _ _ Hj _ Hk) as W1. rewrite <-Evk, HE in W1.
  pose proof (bo_entry _ _ _ _ Hb _ _ Hj (k + 1) ltac:(lia)) as W2.
  replace (2 ^ 22 * pdi v + PageSize * (k + 1)) with (v + PageSize) in W2 by lia. rewrite HE0 in W2.
  destruct (table_phys s j Hs Ha He Hj9) as (Tr & Ta & Tp).
  destruct (pool_word _ _ _ _ (S j) (k + 1) Hb ltac:(lia) ltac:(lia)) as (Hw1 & Hw4 & _).
  fold (table s j) in Hw1, Hw4.
  assert (0xc0000000 <= table s j) as Ht.
  { unfold table, frame, KernelVirtualBase, PageSize in *. lia. }
  set (t := table s j) in *. unfold uint in Hw1.
  assert (u32 (phystov (vtophys t + 3) + 4 * k) = t + 4 * k + 3) as ->.
  { unfold phystov, vtophys, KernelVirtualBase.
    rewrite (wrap_id 32 (t - 0xc0000000)) by (unfold uint; lia).
    rewrite (wrap_id 32 (t - _ + 3 + _)) by (unfold uint; lia).
    rewrite wrap_id by (unfold uint; lia). lia. }
  assert ((t + 4 * k + 3) mod 4 = 3) as Em by (Z.div_mod_to_equations; lia).
  unfold load32. rewrite Em. cbn [Z.eqb].
  replace (t + 4 * k + 3 - 3) with (t + 4 * k) by lia.
  replace (t + 4 * k + 4) with (t + 4 * (k + 1)) by lia. rewrite W1, W2.
  cbn [deref mbind res_bind]. change (8 * 3) with 24. rewrite Z.shiftr_div_pow2 by lia.
  destruct Hp as [Hp0 Hpa]. unfold PageSize in Hpa.
  replace ((p + 3) / 2 ^ 24) with 0; [done|].
  change (2 ^ 24) with 16777216 in *. Z.div_mod_to_equations. lia.
Qed.

(** A 4 MB image, followed by a pool that holds no zeros. *)
Definition sample_pool : gmap Z Z :=
  list_to_map ((fun a => (a, 0xdeadbeef)) <$> ((fun k => 0xc0400000 + 4 * k) <$> seqZ 0 10240)).

Lemma sample_pool_memory : pool_memory sample_pool 0xc0400000.
Proof.
  intros a Ha Ha4. unfold sample_pool. rewrite (lookup_graph (fun _ => 0xdeadbeef)).
  rewrite decide_True; [done|]. unfold PageFrameCount, PageSize in Ha.
  apply list_elem_of_fmap. exists ((a - 0xc0400000) / 4). split.
  - Z.div_mod_to_equations. lia.
  - apply elem_of_seqZ. Z.div_mod_to_equations. lia.
Qed.

Lemma init_maps_witness : exists m,
  @PageDirectory_init small_image 0 sample_pool three_pages MapStart = Ok (0xc0400000, m) /\
  self_mapped m /\ entry m 0xc0100000 = 0x100003 /\ entry m 0x100000 = Writable /\
  entry m 0xc040b000 = 0.
Proof.
  assert (user_page 0xc0100000 /\ user_page 0x100000 /\ user_page 0xc040b000) as (U1 & U2 & U3) by done.
  destruct (@init_maps small_image 0 sample_pool three_pages MapStart ltac:(vm_compute; split; discriminate)
    sample_pool_memory) as (m & E & _ & _ & Hs & H).
  exists m. split; [exact E|]. split; [exact Hs|]. rewrite (H _ U1), (H _ U2), (H _ U3).
  vm_compute. repeat split.
Defined.
