(* ===== verification/ProcessDir.v ===== *)
(** * Page directories of processes

    Models [PageDirectory::createPageDirectory] (X86/PageDirectory.cc): the
    directory of a new process is written through a temporary mapping: it maps
    itself by its last entry, shares the kernel's tables, and is otherwise
    empty.  The kernel's own directory is the list [kpd] of its 1024 words, and
    the page under construction the list of its words. *)

From S2P Require Import Prelude.
From S2P Require Import Words.
From S2P Require Import PhysPages.
From S2P Require Import PageTables.
From S2P Require Import MemoryMap.
From Stdlib Require Import ZArith Lia.
From stdpp Require Import prelude gmap list.

Open Scope Z_scope.

(** The loop [for (int i = 767; i < 1023; i++)], with [n] rounds left. *)
Fixpoint copy_entries (n : nat) (i : Z) (kpd pageDirectory : list Z) : res (list Z) :=
  match n with
  | O => mret pageDirectory
  | S n =>
      e ← deref (kpd !! Z.to_nat i);
      copy_entries n (i + 1) kpd (<[Z.to_nat i := e]> pageDirectory)
  end.

(** The result is the physical page, the words of the directory in it, and the
    kernel's address space.  The page is written where it is mapped; were it
    not mapped, the first access would fault. *)
Definition createPageDirectory `{KernelImage} (kpd : list Z) (m : mm)
    : res (Z * list Z * mm) :=
  '(physicalPage, pgs) ← getPage (mm_pages m);
  '(pageDirectory, m) ← mapAnonymousPage physicalPage 0 (with_pages m pgs);
  if negb (isMapped pageDirectory m) then Fault
  else
    let words := replicate 1024 0 in
    let words := <[1023%nat := Z.lor physicalPage Present]> words in
    words ← copy_entries 256 767 kpd words;
    e ← deref (kpd !! 64%nat);
    let words := <[64%nat := e]> words in
    '(_, m) ← unmapPage pageDirectory m;
    mret (physicalPage, words, m).

(** ** The directory *)

(** What entry [i] of the new directory at [physicalPage] is. *)
Definition new_entry (kpd : list Z) (physicalPage : Z) (i : nat) : Z :=
  if decide (i = 1023)%nat then Z.lor physicalPage Present
  else if decide (767 <= i)%nat then default 0 (kpd !! i)
  else if decide (i = 64)%nat then default 0 (kpd !! 64%nat)
  else 0.

(** Entries of the kernel's half, [0xc0000000] and above, apart from the
    recursive one. *)
Definition kernel_half (i : nat) : Prop := (768 <= i < 1023)%nat.

Lemma copy_entries_ok kpd n i words : (Z.to_nat i + n <= length kpd)%nat -> 0 <= i ->
  (Z.to_nat i + n <= length words)%nat ->
  exists words', copy_entries n i kpd words = Ok words' /\ length words' = length words /\
    forall j, words' !! j = if decide (Z.to_nat i <= j < Z.to_nat i + n)%nat
                            then kpd !! j else words !! j.
Proof.
  revert i words. induction n as [|n IH]; intros i words Hk Hi Hw; cbn [copy_entries].
  { exists words. split_and!; [done|done|]. intros j. by rewrite decide_False by lia. }
  destruct (lookup_lt_is_Some_2 kpd (Z.to_nat i) ltac:(lia)) as [e Ee]. rewrite Ee.
  cbn [deref mbind res_bind].
  destruct (IH (i + 1) (<[Z.to_nat i := e]> words)) as (w' & -> & Hl & H); try lia.
  { rewrite length_insert. lia. }
  exists w'. split_and!; [done|by rewrite Hl, length_insert|]. intros j. rewrite H.
  replace (Z.to_nat (i + 1)) with (S (Z.to_nat i)) by lia.
  destruct (decide (j = Z.to_nat i)) as [->|Hne].
  - rewrite decide_False, list_lookup_insert_eq by lia. rewrite decide_True by lia. done.
  - rewrite list_lookup_insert_ne by done. repeat case_decide; done || lia.
Qed.

Section create.
Context `{KernelImage} (kpd : list Z) (Hkpd : length kpd = 1024%nat).

(** The stores to the new directory. *)
Lemma new_directory phys : exists words,
  copy_entries 256 767 kpd (<[1023%nat := Z.lor phys Present]> (replicate 1024 0)) = Ok words /\
  length words = 1024%nat /\
  forall e, kpd !! 64%nat = Some e -> forall i, (i < 1024)%nat ->
    <[64%nat := e]> words !! i = Some (new_entry kpd phys i).
Proof.
  destruct (copy_entries_ok kpd 256 767 (<[1023%nat := Z.lor phys Present]> (replicate 1024 0)))
    as (words & E & Hl & Hw); rewrite ?length_insert, ?length_replicate in *; try lia.
  exists words. split_and!; [done|done|]. intros e He i Hi. unfold new_entry.
  destruct (lookup_lt_is_Some_2 kpd i ltac:(lia)) as [x Ex].
  destruct (decide (i = 64%nat)) as [->|Hne].
  - rewrite list_lookup_insert_eq by lia. by rewrite He.
  - rewrite list_lookup_insert_ne, Hw by done. change (Z.to_nat 767) with 767%nat.
    destruct (decide (i = 1023%nat)) as [->|].
    + rewrite decide_False, list_lookup_insert_eq by (rewrite ?length_replicate; lia). done.
    + rewrite list_lookup_insert_ne by done. rewrite lookup_replicate_2, Ex by done.
      repeat case_decide; done || lia.
Qed.

(** The temporary mapping. *)
Lemma map_temporary m p fl ul : mm_ok m (p :: fl) ul ->
  0 <= end_kernel -> end_kernel < mm_mapEnd m - PageSize ->
  has (entry m (mm_mapEnd m - PageSize)) Present = false ->
  no_frame m fl (mm_mapEnd m - PageSize) = false ->
  let v := mm_mapEnd m - PageSize in
  let phys := page_addr (pg_st (mm_pages m)) p in
  exists pgs m1 t fl',
    getPage (mm_pages m) = Ok (phys, pgs) /\
    mapAnonymousPage phys 0 (with_pages m pgs) = Ok (v, m1) /\
    took (mm_pages m) (p :: fl) ul (mm_pages m1) (p :: t) fl' /\ mm_mapEnd m1 = v /\
    user_page v /\ isMapped v m1 = true /\
    forall w, user_page w ->
      entry m1 w = if decide (w = v) then Z.lor phys (entry_flags 0) else entry m w.
Proof.
  intros Hm Hk Hlt He Hnf v phys. destruct (getPage_took _ _ _ _ (mo_pages _ _ _ Hm)) as (pgs & E1 & T1).
  destruct (mo_end _ _ _ Hm) as [Hme1 Hme2]. pose proof (mo_align _ _ _ Hm) as Hal.
  unfold MapStart, KernelStackStart, KernelStackSize, PageTableBase in *.
  assert (user_page v) as Hv.
  { subst v. split; unfold PageTableBase, PageSize in *; [lia|Z.div_mod_to_equations; lia]. }
  set (m0 := with_mapEnd (with_pages m pgs) v).
  pose proof (mapPage_spec m0 fl (reverse [p] ++ ul) v phys 0 (took_ok _ _ _ _ _ _ T1) Hv
    (took_frame_addr _ _)) as Hmap.
  assert (has (entry m0 v) Present = false) as He0 by exact He.
  assert (no_frame m0 fl v = false) as Hnf0 by exact Hnf.
  rewrite He0, Hnf0 in Hmap. destruct Hmap as (m1 & t & fl' & E2 & T2 & M2 & H2 & _ & Hi).
  exists pgs, m1, t, fl'. split_and!; try done.
  - unfold mapAnonymousPage. cbn [mm_mapEnd with_pages with_mapEnd].
    rewrite wrap_id by (unfold uint, PageSize in *; lia). fold v.
    rewrite (proj2 (Z.leb_gt v end_kernel)) by (subst v; lia).
    change (with_mapEnd (with_pages m pgs) v) with m0. rewrite E2. done.
  - exact (took_trans _ _ _ _ _ _ _ _ _ T1 T2).
Qed.

(** C11: [PageDirectory::createPageDirectory].  When the page below [mapEnd] is
    not in use and a frame is left for its table, the call returns the first
    free frame, and the directory written to it maps itself by entry 1023, has
    the kernel directory's entries 767 to 1022 and 64, and no others: every
    address of the kernel's half has the same table in the new process.  The
    temporary mapping is taken away again, no other page of the kernel's
    address space changes, but the address it had is used up. *)
Theorem createPageDirectory_spec m p fl ul :
  mm_ok m (p :: fl) ul -> 0 <= end_kernel -> end_kernel < mm_mapEnd m - PageSize ->
  has (entry m (mm_mapEnd m - PageSize)) Present = false ->
  no_frame m fl (mm_mapEnd m - PageSize) = false ->
  let v := mm_mapEnd m - PageSize in
  let phys := page_addr (pg_st (mm_pages m)) p in
  exists words m' t fl', createPageDirectory kpd m = Ok (phys, words, m') /\
    (forall i, (i < 1024)%nat -> words !! i = Some (new_entry kpd phys i)) /\
    (forall i, kernel_half i -> words !! i = kpd !! i) /\
    took (mm_pages m) (p :: fl) ul (mm_pages m') (p :: t) fl' /\ mm_mapEnd m' = v /\
    forall w, user_page w -> entry m' w = if decide (w = v) then Writable else entry m w.
Proof.
  intros Hm Hk Hlt He Hnf v phys.
  destruct (map_temporary m p fl ul Hm Hk Hlt He Hnf)
    as (pgs & m1 & t & fl' & E1 & E2 & T & M & Hv & Hi & H1). fold v phys in E1, E2, M, Hv, Hi, H1.
  destruct (new_directory phys) as (words & E3 & Hl & Hw).
  destruct (lookup_lt_is_Some_2 kpd 64 ltac:(lia)) as [e He64].
  pose proof (unmapPage_spec m1 v Hv) as Hun. rewrite H1, decide_True in Hun by done.
  rewrite has_lor, has_entry_flags_present, orb_true_r in Hun.
  destruct Hun as (m' & E4 & Ep & _ & H4). exists (<[64%nat := e]> words), m', t, fl'.
  split_and!.
  - unfold createPageDirectory. rewrite E1. cbn [mbind res_bind]. rewrite E2.
    cbn [mbind res_bind]. rewrite Hi. cbn [negb]. rewrite E3. cbn [mbind res_bind].
    rewrite He64. cbn [deref mbind res_bind]. rewrite E4. done.
  - by apply Hw.
  - intros i [Hi1 Hi2]. rewrite Hw by (done || lia). unfold new_entry.
    rewrite decide_False, decide_True by lia.
    destruct (lookup_lt_is_Some_2 kpd i ltac:(lia)) as [x ->]. done.
  - by rewrite Ep.
  - destruct (unmapPage_state _ _ _ _ Hv E4) as (_ & -> & _). done.
  - intros w Hw'. rewrite H4, H1 by done. by case_decide.
Qed.
End create.

(** The self-mapped directory of PageTables.v, whose first free frame becomes a
    process's directory. *)
Lemma createPageDirectory_spec_witness : exists words m',
  @createPageDirectory small_image (replicate 1024 7) self_only = Ok (0x100000, words, m') /\
  words !! 1023%nat = Some 0x100001 /\ words !! 768%nat = Some 7 /\ words !! 100%nat = Some 0.
Proof.
  destruct (@createPageDirectory_spec small_image (replicate 1024 7) eq_refl self_only 48 [64] [80]
    self_only_ok ltac:(done) ltac:(done) ltac:(vm_compute; reflexivity) ltac:(vm_compute; reflexivity))
    as (words & m' & t & fl' & E & H & _).
  exists words, m'. split; [exact E|].
  split; [rewrite H by lia; reflexivity|]. split; rewrite H by lia; reflexivity.
Defined.
