(* ===== verification/PhysRead.v ===== *)
(** * Reading physical memory (Kernel/Memory.cc)

    [Memory::readPhysicalMemory] maps the frames around a physical address
    behind the other mappings, copies from there and unmaps them.  The bytes of
    the physical memory are an argument, [ram]; what the copy reads at a virtual
    address goes through the page tables, as the processor does it.  The result
    is the list of bytes that are stored at [destination].

    The mapping is taken away again, its addresses are not: [mapEnd] only goes
    down, and after enough calls the kernel has no addresses left. *)

From S2P Require Import Prelude Words PhysPages PageTables MemoryMap.
From Stdlib Require Import ZArith Lia.
From stdpp Require Import prelude gmap list.

Open Scope Z_scope.

Section operations.
Context `{KernelImage} (ram : Z -> Z).

(** The byte at a virtual address. *)
Definition load8 (m : mm) (v : Z) : res Z :=
  let e := entry m (roundDown v PageSize) in
  if has e Present
  then mret (ram (Z.land e (wnot 32 PageMask) + Z.land v PageMask))
  else Fault.

(** [std::memcpy], as far as it reads. *)
Fixpoint load_bytes (n : nat) (v : Z) (m : mm) : res (list Z) :=
  match n with
  | O => mret []
  | S n =>
      b ← load8 m v;
      l ← load_bytes n (u32 (v + 1)) m;
      mret (b :: l)
  end.

Definition readPhysicalMemory (source size : Z) (m : mm) : res (list Z * mm) :=
  kassert (negb (size =? 0));;
  let mapFirst := roundDown source PageSize in
  let mapLast := roundTo (u32 (source + size)) PageSize in
  '(mapped, m) ← mapRegion mapFirst (u32 (mapLast - mapFirst)) Flags.None m;
  bytes ← load_bytes (Z.to_nat size) (u32 (mapped + u32 (source - mapFirst))) m;
  '(_, m) ← unmapRegion mapped (u32 (mapLast - mapFirst)) m;
  mret (bytes, m).
End operations.

(** ** The loops *)

Lemma region_loop_ok flags n fuel page v m fl ul :
  lists_ok (mm_pages m) fl ul -> (n <= length fl)%nat -> (n < fuel)%nat ->
  frame_addr page -> page + PageSize * Z.of_nat n < 2 ^ 32 ->
  0 <= v -> v mod PageSize = 0 -> v + PageSize * Z.of_nat n <= PageTableBase ->
  (forall w, user_page w -> v <= w < v + PageSize * Z.of_nat n -> has (entry m w) Present = false) ->
  exists m' t fl',
    region_loop fuel page (page + PageSize * Z.of_nat n) v flags m = Ok m' /\
    drew (mm_pages m) fl ul (mm_pages m') t fl' /\ (length t <= n)%nat /\
    mm_mapEnd m' = mm_mapEnd m /\
    forall w, user_page w -> entry m' w =
      if decide (v <= w < v + PageSize * Z.of_nat n)
      then Z.lor (page + (w - v)) (entry_flags flags) else entry m w.
Proof.
  revert fuel page v m fl ul. induction n as [|n IH]; intros [|fuel] page v m fl ul Hl Hn Hf Hp Hw
    Hv Hva Hb Habs; try lia; cbn [region_loop].
  { rewrite Z.mul_0_r, !Z.add_0_r, Z.eqb_refl. cbn [negb]. exists m, [], fl.
    split; [done|]. split; [by apply drew_nil|]. split; [done|]. split; [done|].
    intros w Hu. by rewrite decide_False by lia. }
  destruct Hp as [Hp Hpa].
  rewrite (proj2 (Z.eqb_neq _ _)) by (unfold PageSize in *; lia). cbn [negb].
  assert (user_page v) as Hu by (unfold user_page, PageSize, PageTableBase in *; lia).
  destruct (mapPage_ok m fl ul v page flags Hl Hu (conj Hp Hpa))
    as (m1 & t1 & fl1 & -> & T1 & L1 & M1 & E1).
  { apply Habs; [done|]. unfold PageSize. lia. }
  { unfold no_frame. destruct fl; [cbn in Hn; lia|]. apply andb_false_r. }
  cbn [mbind res_bind negb]. unfold PageSize, PageTableBase in *.
  rewrite !wrap_id by (unfold uint; lia).
  assert (page + 4096 * Z.of_nat (S n) = page + 4096 + 4096 * Z.of_nat n) as -> by lia.
  pose proof T1 as (-> & _). rewrite length_app in Hn.
  destruct (IH fuel (page + 4096) (v + 4096) m1 fl1 (reverse t1 ++ ul))
    as (m2 & t2 & fl2 & E & T2 & L2 & M2 & E2).
  { by eapply drew_ok. }
  { destruct t1 as [|? [|]]; cbn in *; lia. }
  { lia. }
  { split; [lia|]. unfold PageSize. Z.div_mod_to_equations. lia. }
  1-2: lia.
  { Z.div_mod_to_equations. lia. }
  { lia. }
  { intros w Hw' Hin. rewrite E1 by done. rewrite decide_False by lia. apply Habs; [done|lia]. }
  exists m2, (t1 ++ t2), fl2. split; [exact E|]. split; [by eapply drew_trans|].
  split; [rewrite length_app; lia|]. split; [congruence|].
  intros w Hw'. rewrite E2, E1 by done. destruct Hw' as [_ Hwa]. unfold PageSize in Hwa.
  repeat case_decide; try lia; try done.
  - f_equal. lia.
  - subst w. f_equal. lia.
  - exfalso. Z.div_mod_to_equations. lia.
Qed.

Lemma unmap_loop_ok n fuel v m :
  (n < fuel)%nat -> 0 <= v -> v mod PageSize = 0 -> v + PageSize * Z.of_nat n <= PageTableBase ->
  (forall w, user_page w -> v <= w < v + PageSize * Z.of_nat n -> has (entry m w) Present = true) ->
  exists m', unmap_loop fuel v (v + PageSize * Z.of_nat n) m = Ok m' /\
    mm_pages m' = mm_pages m /\ mm_mapEnd m' = mm_mapEnd m /\
    forall w, user_page w -> entry m' w =
      if decide (v <= w < v + PageSize * Z.of_nat n) then Writable else entry m w.
Proof.
  revert fuel v m. induction n as [|n IH]; intros [|fuel] v m Hf Hv Hva Hb Hpres; try lia;
    cbn [unmap_loop].
  { rewrite Z.mul_0_r, !Z.add_0_r, Z.eqb_refl. cbn [negb]. exists m. do 3 (split; [done|]).
    intros w Hu. by rewrite decide_False by lia. }
  rewrite (proj2 (Z.eqb_neq _ _)) by (unfold PageSize in *; lia). cbn [negb].
  assert (user_page v) as Hu by (unfold user_page, PageSize, PageTableBase in *; lia).
  pose proof (unmapPage_spec m v Hu) as H1. rewrite Hpres in H1 by (done || (unfold PageSize; lia)).
  destruct H1 as (m1 & Eq & P1 & _ & E1). pose proof (unmapPage_state _ _ _ _ Hu Eq) as (_ & M1 & _).
  rewrite Eq. cbn [mbind res_bind negb]. unfold PageSize, PageTableBase in *.
  rewrite wrap_id by (unfold uint; lia).
  assert (v + 4096 * Z.of_nat (S n) = v + 4096 + 4096 * Z.of_nat n) as -> by lia.
  destruct (IH fuel (v + 4096) m1) as (m2 & E & P2 & M2 & E2); [lia|lia| |lia| |].
  { Z.div_mod_to_equations. lia. }
  { intros w Hw' Hin. rewrite E1 by done. rewrite decide_False by lia. apply Hpres; [done|lia]. }
  exists m2. split; [exact E|]. split; [congruence|]. split; [congruence|].
  intros w Hw'. rewrite E2, E1 by done. destruct Hw' as [_ Hwa]. unfold PageSize in Hwa.
  repeat case_decide; try lia; try done. exfalso. Z.div_mod_to_equations. lia.
Qed.

(** ** Whole pages *)

Lemma round_aligned a : 0 <= a < 2 ^ 32 -> a mod PageSize = 0 ->
  roundDown a PageSize = a /\ roundTo a PageSize = a.
Proof.
  intros Ha Ham. rewrite roundDown_spec by done.
  rewrite roundTo_spec; [|lia|unfold PageMask, PageSize in *; Z.div_mod_to_equations; lia].
  rewrite Z.mod_opp_l_z, Ham by done. lia.
Qed.

Lemma mapRegion_pages `{KernelImage} first n flags m : frame_addr first ->
  (0 < n)%nat -> first + PageSize * Z.of_nat n < 2 ^ 32 ->
  PageSize * Z.of_nat n <= mm_mapEnd m < 2 ^ 32 ->
  let v := mm_mapEnd m - PageSize * Z.of_nat n in
  mapRegion first (PageSize * Z.of_nat n) flags m =
    if v <=? end_kernel then Panic
    else
      m' ← region_loop (S n) first (first + PageSize * Z.of_nat n) v flags (with_mapEnd m v);
      Ok (u32 (mm_mapEnd m'), m').
Proof.
  intros [Hf Hfa] Hn Hw He v. unfold mapRegion.
  assert (0 < PageSize * Z.of_nat n) as H0 by (unfold PageSize; lia).
  rewrite (proj2 (Z.eqb_neq _ 0)) by lia. cbn [negb kassert mbind res_bind]. cbv zeta.
  assert ((first + PageSize * Z.of_nat n) mod PageSize = 0) as Hla.
  { rewrite Z.mul_comm, Z_mod_plus_full. done. }
  rewrite (proj1 (round_aligned first Hf Hfa)).
  rewrite (wrap_id 32 (first + _)) by (unfold uint; lia).
  rewrite (proj2 (round_aligned (first + PageSize * Z.of_nat n) ltac:(lia) Hla)).
  replace (first + PageSize * Z.of_nat n - first) with (PageSize * Z.of_nat n) by lia.
  rewrite (wrap_id 32 (PageSize * _)) by (unfold uint; lia). fold v.
  rewrite (wrap_id 32 v) by (unfold uint; lia). cbn [mm_mapEnd with_mapEnd].
  rewrite Z.sub_diag. destruct (v <=? end_kernel); [done|].
  unfold region_fuel. rewrite Z.mul_comm, Z.div_mul, Nat2Z.id by done.
  destruct (region_loop _ _ _ _ _ _); cbn [mbind res_bind]; [|done..].
  unfold mret, res_ret. change (u32 0) with 0. by rewrite Z.add_0_r.
Qed.

Lemma unmapRegion_pages v n m : frame_addr v -> (0 < n)%nat ->
  v + PageSize * Z.of_nat n < 2 ^ 32 ->
  unmapRegion v (PageSize * Z.of_nat n) m =
    m' ← unmap_loop (S n) v (v + PageSize * Z.of_nat n) m; Ok (true, m').
Proof.
  intros [Hf Hfa] Hn Hw. unfold unmapRegion.
  assert (0 < PageSize * Z.of_nat n) as H0 by (unfold PageSize; lia).
  rewrite (proj2 (Z.eqb_neq _ 0)) by lia. cbn [negb kassert mbind res_bind]. cbv zeta.
  assert ((v + PageSize * Z.of_nat n) mod PageSize = 0) as Hla.
  { rewrite Z.mul_comm, Z_mod_plus_full. done. }
  rewrite (proj1 (round_aligned v Hf Hfa)).
  rewrite (wrap_id 32 (v + _)) by (unfold uint; lia).
  rewrite (proj2 (round_aligned (v + PageSize * Z.of_nat n) ltac:(lia) Hla)).
  replace (v + PageSize * Z.of_nat n - v) with (PageSize * Z.of_nat n) by lia.
  rewrite (wrap_id 32 (PageSize * _)) by (unfold uint; lia).
  unfold region_fuel. rewrite (Z.mul_comm PageSize), Z.div_mul, Nat2Z.id by done.
  by rewrite (Z.mul_comm _ PageSize).
Qed.

(** ** One call *)

Section read.
Context `{KernelImage} (ram : Z -> Z).
Context (Hkernel : 0xc0000000 <= end_kernel).
Implicit Types m : mm.

Definition bytes_at (source size : Z) : list Z := (fun i => ram (source + i)) <$> seqZ 0 size.

Lemma load8_ok m base first n v : 0 <= base -> base mod PageSize = 0 -> frame_addr first ->
  base + PageSize * n <= PageTableBase -> first + PageSize * n < 2 ^ 32 ->
  base <= v < base + PageSize * n ->
  (forall w, user_page w -> base <= w < base + PageSize * n ->
     entry m w = Z.lor (first + (w - base)) (entry_flags Flags.None)) ->
  load8 ram m v = Ok (ram (first + (v - base))).
Proof.
  intros Hb Hba [Hf Hfa] Hl Hw Hv He. unfold load8, PageTableBase, PageSize in *.
  rewrite roundDown_spec by (unfold uint; lia). unfold PageSize.
  rewrite He; [|unfold user_page, PageTableBase, PageSize; Z.div_mod_to_equations; lia..].
  set (w := v - v mod 4096). assert (w mod 4096 = 0 /\ base <= w <= v) as [Hwa Hwb].
  { subst w. Z.div_mod_to_equations. lia. }
  rewrite has_lor. change (has (entry_flags Flags.None) Present) with true. rewrite orb_true_r.
  rewrite entry_word_phys; [|lia| |apply entry_flags_range].
  - rewrite page_aligned by lia. unfold mret, res_ret. do 2 f_equal. subst w. unfold PageSize. lia.
  - unfold PageSize. clearbody w. Z.div_mod_to_equations. lia.
Qed.

Lemma load_bytes_ok m base first n k v : 0 <= base -> base mod PageSize = 0 -> frame_addr first ->
  base + PageSize * n <= PageTableBase -> first + PageSize * n < 2 ^ 32 ->
  base <= v -> v + Z.of_nat k <= base + PageSize * n ->
  (forall w, user_page w -> base <= w < base + PageSize * n ->
     entry m w = Z.lor (first + (w - base)) (entry_flags Flags.None)) ->
  load_bytes ram k v m = Ok (bytes_at (first + (v - base)) (Z.of_nat k)).
Proof.
  intros Hb Hba Hf Hl Hw. revert v. induction k as [|k IH]; intros v Hv Hk He; [done|].
  cbn [load_bytes]. rewrite (load8_ok m base first n v) by (done || lia).
  cbn [mbind res_bind]. unfold PageTableBase, PageSize in *.
  rewrite wrap_id by (unfold uint; lia). rewrite IH by (done || lia).
  cbn [mbind res_bind]. unfold mret, res_ret, bytes_at. f_equal.
  rewrite (seqZ_cons 0 (Z.of_nat (S k))) by lia. cbn [fmap list_fmap]. f_equal; [by rewrite Z.add_0_r|].
  replace (Z.pred (Z.of_nat (S k))) with (Z.of_nat k) by lia.
  change (Z.succ 0) with (1 + 0). rewrite <- (fmap_add_seqZ 1), <- list_fmap_compose.
  apply list_fmap_ext. intros i x _. cbn. f_equal. lia.
Qed.

(** A request that does not reach the end of the address space. *)
Definition request_ok (r : Z * Z) : Prop :=
  0 <= r.1 /\ 0 < r.2 < 2 ^ 31 /\ r.1 + r.2 + PageSize <= 2 ^ 32.

(** How many pages the call maps. *)
Definition pages_of (r : Z * Z) : nat :=
  Z.to_nat ((r.1 mod PageSize + r.2 + PageMask) / PageSize).

Lemma request_pages r : request_ok r ->
  let n := Z.of_nat (pages_of r) in let first := roundDown r.1 PageSize in
  first = r.1 - r.1 mod PageSize /\
  roundTo (u32 (r.1 + r.2)) PageSize = first + PageSize * n /\
  0 < n < 2 ^ 20 /\ first + PageSize * n < 2 ^ 32 /\ PageSize * n < 0xc0000000 /\
  r.1 + r.2 <= first + PageSize * n /\ first mod PageSize = 0 /\ 0 <= first.
Proof.
  destruct r as [a k]. unfold request_ok, pages_of. cbn [fst snd]. intros (Ha & Hk & Hs). cbv zeta.
  unfold PageMask, PageSize in *. rewrite wrap_id by (unfold uint; lia).
  pose proof (roundDown_spec a) as Hd. pose proof (roundTo_spec (a + k)) as Ht.
  unfold PageMask, PageSize in Hd, Ht. rewrite Hd by (unfold uint; lia). rewrite Ht by lia.
  rewrite Z2Nat.id by (Z.div_mod_to_equations; lia).
  split; [done|]. Z.div_mod_to_equations. lia.
Qed.

(** The addresses between the kernel and [mapEnd] are not in use. *)
Record readable m fl ul : Prop := {
  re_lists : lists_ok (mm_pages m) fl ul;
  re_end : end_kernel < mm_mapEnd m <= MapStart;
  re_align : mm_mapEnd m mod PageSize = 0;
  re_absent w : user_page w -> end_kernel < w < mm_mapEnd m -> has (entry m w) Present = false;
}.

Lemma read_ok m fl ul r : readable m fl ul -> request_ok r -> (pages_of r <= length fl)%nat ->
  let n := Z.of_nat (pages_of r) in
  if decide (mm_mapEnd m - PageSize * n <= end_kernel)
  then readPhysicalMemory ram r.1 r.2 m = Panic
  else exists m' t fl', readPhysicalMemory ram r.1 r.2 m = Ok (bytes_at r.1 r.2, m') /\
    drew (mm_pages m) fl ul (mm_pages m') t fl' /\ (length t <= pages_of r)%nat /\
    mm_mapEnd m' = mm_mapEnd m - PageSize * n /\ readable m' fl' (reverse t ++ ul) /\
    forall w, user_page w -> entry m' w =
      if decide (mm_mapEnd m' <= w < mm_mapEnd m) then Writable else entry m w.
Proof.
  intros [Hl Hend Hal Habs] Hr Hfl n. pose proof (request_pages r Hr) as H1. cbv zeta in H1.
  fold n in H1. destruct H1 as (Hf & Ht & Hn & Hw & Hb & Hin & Hfa & Hf0).
  set (first := roundDown r.1 PageSize) in *. set (v := mm_mapEnd m - PageSize * n) in *.
  assert (0 < PageSize * n) as Hpos by (unfold PageSize; lia).
  assert (MapStart = 0xffbf0000) as HMS by done. rewrite HMS in Hend. destruct Hr as (Ha & Hk & Hs).
  unfold readPhysicalMemory. rewrite (proj2 (Z.eqb_neq r.2 0)) by lia.
  cbn [negb kassert mbind res_bind]. cbv zeta. fold first. rewrite Ht.
  replace (first + PageSize * n - first) with (PageSize * n) by lia.
  rewrite (wrap_id 32 (PageSize * n)) by (unfold uint; lia).
  rewrite (mapRegion_pages first (pages_of r)) by first [done | lia | (unfold frame_addr; lia)]. fold n. fold v.
  case_decide as Hroom; [by rewrite (proj2 (Z.leb_le _ _)) by lia|].
  rewrite (proj2 (Z.leb_gt _ _)) by lia.
  assert (0 <= r.1 - first < PageSize) as Hoff.
  { rewrite Hf. unfold PageSize. Z.div_mod_to_equations. lia. }
  assert (v mod PageSize = 0) as Hva.
  { subst v. unfold PageSize in *. Z.div_mod_to_equations. lia. }
  destruct (region_loop_ok Flags.None (pages_of r) (S (pages_of r)) first v (with_mapEnd m v) fl ul)
    as (m1 & t & fl1 & E1 & T1 & L1 & M1 & H1); fold n; try done; try lia.
  { unfold frame_addr. lia. }
  { unfold PageTableBase. lia. }
  { intros w Hu Hwr. apply (Habs w Hu). lia. }
  fold n in E1, H1. cbn [mm_pages mm_mapEnd with_mapEnd] in T1, M1.
  rewrite E1. cbn [mbind res_bind]. rewrite M1.
  assert (v < 2 ^ 32 /\ r.1 < 2 ^ 32 /\ v + (r.1 - first) < 2 ^ 32) as (? & ? & ?)
    by (unfold PageSize in *; lia).
  rewrite (wrap_id 32 v), (wrap_id 32 (r.1 - first)), wrap_id by (unfold uint; lia).
  rewrite (load_bytes_ok m1 v first n (Z.to_nat r.2) (v + (r.1 - first)));
    [|unfold PageTableBase, frame_addr; first [done|lia|idtac]..].
  2:{ intros w Hu Hwr. rewrite H1 by done. by rewrite decide_True. }
  cbn [mbind res_bind]. rewrite (unmapRegion_pages v (pages_of r)) by (unfold frame_addr; fold n; lia).
  fold n.
  destruct (unmap_loop_ok (pages_of r) (S (pages_of r)) v m1) as (m2 & E2 & P2 & M2 & HU);
    fold n; [lia|lia|done|unfold PageTableBase; lia| |].
  { intros w Hu Hwr. rewrite H1 by done. rewrite decide_True by done.
    rewrite has_lor. by rewrite orb_true_r. }
  fold n in E2, HU. rewrite E2. cbn [mbind res_bind].
  assert (forall w, user_page w -> entry m2 w =
    if decide (v <= w < mm_mapEnd m) then Writable else entry m w) as HE.
  { intros w Hu. rewrite HU, H1 by done. replace (v + PageSize * n) with (mm_mapEnd m) by (subst v; lia).
    by case_decide. }
  exists m2, t, fl1. unfold mret, res_ret. split.
  { rewrite Z2Nat.id by lia.
    replace (first + (v + (r.1 - first) - v)) with r.1 by lia. done. }
  rewrite P2, M2, M1. do 3 (split; [done|]). split; [|done].
  constructor.
  - rewrite P2. by eapply drew_ok.
  - rewrite M2, M1, HMS. lia.
  - by rewrite M2, M1.
  - rewrite M2, M1. intros w Hu Hwr. rewrite HE by done. rewrite decide_False by lia.
    apply Habs; [done|lia].
Qed.

(** ** A sequence of calls *)

Fixpoint read_all (reqs : list (Z * Z)) m : res (list (list Z) * mm) :=
  match reqs with
  | [] => mret ([], m)
  | r :: reqs =>
      '(b, m) ← readPhysicalMemory ram r.1 r.2 m;
      '(l, m) ← read_all reqs m;
      mret (b :: l, m)
  end.

Fixpoint total_pages (reqs : list (Z * Z)) : nat :=
  match reqs with [] => O | r :: reqs => (pages_of r + total_pages reqs)%nat end.

(** C10: [Memory::readPhysicalMemory].  A sequence of calls returns the bytes of the
    physical memory at each address, whatever the alignment and the size of the
    requests, and leaves every page as it was before, or not present; frames are
    only used for tables.  But each call lowers [mapEnd] by the pages it maps
    and nothing raises it again: as soon as the pages of all calls so far reach
    the kernel image, the next call panics, although no page is mapped. *)
Theorem read_physical m fl ul reqs :
  readable m fl ul -> Forall request_ok reqs -> (total_pages reqs <= length fl)%nat ->
  let low := mm_mapEnd m - PageSize * Z.of_nat (total_pages reqs) in
  if decide (low <= end_kernel) then read_all reqs m = Panic
  else exists m' fl' ul',
    read_all reqs m = Ok ((fun r => bytes_at r.1 r.2) <$> reqs, m') /\
    readable m' fl' ul' /\ mm_mapEnd m' = low /\
    forall w, user_page w ->
      if decide (low <= w < mm_mapEnd m) then has (entry m' w) Present = false
      else entry m' w = entry m w.
Proof.
  intros Hm Hr. revert m fl ul Hm.
  induction Hr as [|r reqs Hr _ IH]; intros m fl ul Hm Hfl; cbn [read_all fmap list_fmap total_pages] in *.
  { pose proof (re_end _ _ _ Hm). rewrite Z.mul_0_r, Z.sub_0_r. rewrite decide_False by lia.
    exists m, fl, ul. do 3 (split; [done|]). intros w Hu. by rewrite decide_False by lia. }
  pose proof (read_ok m fl ul r Hm Hr ltac:(lia)) as H1. cbv zeta in H1.
  pose proof (re_end _ _ _ Hm) as Hend. rewrite Nat2Z.inj_add.
  assert (0 <= PageSize * Z.of_nat (total_pages reqs)) as Hpos by (unfold PageSize; lia).
  case_decide as Hroom; [rewrite H1, decide_True by lia; done|].
  destruct H1 as (m1 & t & fl1 & -> & T1 & L1 & M1 & Hm1 & E1). cbn [mbind res_bind].
  assert (length fl = length t + length fl1)%nat as Hlen by (destruct T1 as (-> & _); apply length_app).
  specialize (IH m1 fl1 _ Hm1 ltac:(lia)). cbv zeta in IH. rewrite M1 in IH.
  replace (mm_mapEnd m - PageSize * (Z.of_nat (pages_of r) + Z.of_nat (total_pages reqs)))
    with (mm_mapEnd m - PageSize * Z.of_nat (pages_of r)
          - PageSize * Z.of_nat (total_pages reqs)) by lia.
  case_decide as Hlow; [by rewrite IH|].
  destruct IH as (m2 & fl2 & ul2 & -> & Hm2 & M2 & E2). cbn [mbind res_bind].
  exists m2, fl2, ul2. unfold mret, res_ret. split; [done|]. split; [done|]. split; [done|].
  intros w Hu. specialize (E1 w Hu). specialize (E2 w Hu). rewrite M1 in E1.
  assert (0 <= PageSize * Z.of_nat (pages_of r)) as Hpos1 by (unfold PageSize; lia).
  repeat case_decide; try lia; try done; rewrite E2, E1; done.
Qed.
End read.

Lemma self_only_absent p e w : user_page w ->
  has (entry (MM p (<[0xfffffffc := 0x103003]> ∅) e) w) Present = false.
Proof.
  intros Hu. unfold entry. cbn [mm_pt]. rewrite rd_insert.
  rewrite addressToPde_eq by (destruct Hu; unfold PageTableBase in *; lia).
  rewrite decide_False; [done|]. destruct Hu as [Hu _].
  unfold PageTableBase, PageDirectoryBase in *. change (2 ^ 22) with 4194304.
  Z.div_mod_to_equations. lia.
Qed.

Lemma self_only_readable e : 0xc0400000 < e <= MapStart -> e mod PageSize = 0 ->
  readable (H := small_image) (MM three_pages (<[0xfffffffc := 0x103003]> ∅) e) [48; 64] [80].
Proof.
  intros He Ha. constructor; [|done..|].
  - apply pages_lists, three_pages_ok.
  - intros w Hu _. by apply self_only_absent.
Qed.

(** Reading across a page border, and a machine that is out of addresses. *)
Lemma read_physical_witness :
  let ram := fun a => a mod 256 in
  let full := MM three_pages (<[0xfffffffc := 0x103003]> ∅) 0xc0402000 in
  (exists m, read_all (H := small_image) ram [(0x1fff, 2)] self_only = Ok ([[255; 0]], m) /\
     mm_mapEnd m = MapStart - 2 * PageSize) /\
  read_all (H := small_image) ram [(0x3000, 1); (0x3000, 1)] full = Panic.
Proof.
  intros ram full.
  assert (request_ok (0x1fff, 2)) as Hr by (unfold request_ok, PageSize; cbn; lia).
  assert (request_ok (0x3000, 1)) as Hs by (unfold request_ok, PageSize; cbn; lia).
  split.
  - pose proof (read_physical (H := small_image) ram ltac:(done) self_only [48; 64] [80] [(0x1fff, 2)]
      (self_only_readable 0xffbf0000 ltac:(done) ltac:(done))
      (proj2 (Forall_singleton _ _) Hr) ltac:(apply Nat.leb_le; vm_compute; reflexivity)) as T.
    cbv zeta in T. rewrite decide_False in T by (apply Z.lt_nge, Z.ltb_lt; vm_compute; reflexivity).
    destruct T as (m & fl & ul & E & _ & M & _). exists m. split; [exact E|exact M].
  - pose proof (read_physical (H := small_image) ram ltac:(done) full [48; 64] [80]
      [(0x3000, 1); (0x3000, 1)] (self_only_readable 0xc0402000 ltac:(done) ltac:(done))
      (proj2 (Forall_cons _ _ _) (conj Hs (proj2 (Forall_singleton _ _) Hs)))
      ltac:(apply Nat.leb_le; vm_compute; reflexivity)) as T.
    cbv zeta in T. rewrite decide_True in T by (apply Z.leb_le; vm_compute; reflexivity). exact T.
Defined.
