(* ===== verification/MemInit.v ===== *)
(** * Memory::init (Kernel/Memory.cc)

    At boot the physical memory of the boot loader's map is put under the
    control of PhysPages.v: every frame of the map gets a [PhysicalPage], which
    goes to the used list if the kernel or a module is in the frame and to the
    free list otherwise.  The first structures are in a bootstrap page behind
    the kernel; when a page of structures is full, a frame is taken from the
    free list, which is being built, and mapped.  Then the boot stack and the
    area for code are mapped.

    The printing is left out, and so is the copy of four bytes to the code area,
    which the page tables do not show. *)

From S2P Require Import Prelude Words Ring PhysPages PageTables MemoryMap FrameAlloc.
From S2P Require Import BootPaging.
From Stdlib Require Import ZArith Lia.
From stdpp Require Import prelude gmap list.

Open Scope Z_scope.

(** ** Data *)

(** The [bitmap] pointer of the class is left out: it is set to null and never
    read. *)
Record MemorySegment : Type := Segment { address : Z; size : Z }.

Definition MemoryMapMax : Z := 32.

Definition addMemoryMapEntry (start length : Z) (memoryMap : list MemorySegment) :
    res (list MemorySegment) :=
  kassert (Z.of_nat (List.length memoryMap) <? MemoryMapMax);;
  mret (memoryMap ++ [Segment start length]).

Definition CodeStart : Z := 0x10000000.
Definition CodeSize : Z := 0x400000.

(** [sizeof (PhysicalPage)]: three words. *)
Definition sizeof_PhysicalPage : Z := 12.

(** The next structure and how many are left behind it, with the kernel's
    memory. *)
Record boot : Type := Boot { b_mm : mm; b_p : loc; freeStructures : Z }.

(** ** Operations *)

Section operations.
Context `{KernelImage} (start_modules end_modules : Z).

Definition firstUsableMemory : Z := Z.max end_kernel end_modules.
Definition firstFreePage : Z :=
  u32 (roundTo firstUsableMemory PageSize + PageSize * PageFrameCount).

Definition used_by_kernel (addr : Z) : bool :=
  (KernelLoadAddress <=? addr) && (addr <? u32 (firstFreePage - KernelVirtualBase)).
Definition used_by_modules (addr : Z) : bool :=
  negb (end_modules =? 0) && (start_modules <=? addr) && (addr <? end_modules).

(** A new page of structures, if the last one is used up. *)
Definition more_structures (s : boot) : res boot :=
  if freeStructures s =? 0 then
    '(ppage, pgs) ← getPage (mm_pages (b_mm s));
    kassert (negb (ppage =? 0));;
    '(p, m) ← mapAnonymousPage ppage Flags.None (with_pages (b_mm s) pgs);
    kassert (negb (p =? 0));;
    mret (Boot m p (PageSize / sizeof_PhysicalPage))
  else mret s.

(** The body of the loop over the frames. *)
Definition add_frame (addr : Z) (s : boot) : res boot :=
  s ← more_structures s;
  let pgs := mm_pages (b_mm s) in
  let p := b_p s in
  let st := page_init_at p addr (pg_st pgs) in
  pgs ← (if used_by_kernel addr || used_by_modules addr then
           '(st, used) ← cluster_insert (pg_used pgs) p st;
           mret (Pages st (pg_free pgs) used)
         else
           '(st, free) ← cluster_insert (pg_free pgs) p st;
           mret (Pages st free (pg_used pgs)));
  mret (Boot (with_pages (b_mm s) pgs) (u32 (p + sizeof_PhysicalPage)) (freeStructures s - 1)).

Fixpoint frames_loop (fuel : nat) (addr last : Z) (s : boot) : res boot :=
  match fuel with
  | O => NoFuel
  | S fuel =>
      if addr <? last then
        s ← add_frame addr s;
        frames_loop fuel (u32 (addr + PageSize)) last s
      else mret s
  end.

Definition frames_fuel (r : MemorySegment) : nat := S (S (Z.to_nat (size r / PageSize))).

Fixpoint segments_loop (memoryMap : list MemorySegment) (s : boot) : res boot :=
  match memoryMap with
  | [] => mret s
  | r :: memoryMap =>
      s ← frames_loop (frames_fuel r) (address r) (u32 (address r + size r)) s;
      segments_loop memoryMap s
  end.

(** The loops that map the boot stack and the code area on new frames. *)
Fixpoint back_loop (fuel : nat) (v last flags : Z) (m : mm) : res mm :=
  match fuel with
  | O => NoFuel
  | S fuel =>
      if v <? last then
        '(page, pgs) ← getPage (mm_pages m);
        kassert (negb (page =? 0));;
        '(success, m) ← mapPage v page flags (with_pages m pgs);
        kassert success;;
        back_loop fuel (u32 (v + PageSize)) last flags m
      else mret m
  end.

(** [used_head] and [free_head] are the addresses of the two clusters; the page
    tables and the memory before are those of [m].  The results are [stackEnd]
    and the kernel's memory. *)
Definition Memory_init (used_head free_head : loc) (memoryMap : list MemorySegment) (m : mm) :
    res (Z * mm) :=
  let '(st, used) := cluster_init used_head (pg_st (mm_pages m)) in
  let '(st, free) := cluster_init free_head st in
  let bootstrapPage := firstFreePage in
  let st := page_init_at bootstrapPage (u32 (bootstrapPage - KernelVirtualBase)) st in
  '(st, used) ← cluster_insert used bootstrapPage st;
  let freeStructures := PageSize / sizeof_PhysicalPage - 1 in
  kassert (0 <? freeStructures);;
  s ← segments_loop memoryMap
        (Boot (with_pages m (Pages st free used)) (u32 (bootstrapPage + sizeof_PhysicalPage))
           freeStructures);
  let start := KernelStackStart in
  m ← back_loop (region_fuel KernelStackSize) (start - KernelStackSize) start Flags.None (b_mm s);
  let stackEnd := start - KernelStackSize - PageSize in
  m ← back_loop (region_fuel CodeSize) CodeStart (CodeStart + CodeSize) Flags.User m;
  mret (stackEnd, m).
End operations.

(** ** Frames of the map *)

Definition frames_of (r : MemorySegment) : list Z :=
  (fun i => address r + PageSize * i) <$> seqZ 0 ((size r + PageMask) / PageSize).

Definition map_frames (memoryMap : list MemorySegment) : list Z := mjoin (frames_of <$> memoryMap).

(** A segment of whole frames, not at 0, that ends below 4 GB. *)
Definition segment_ok (r : MemorySegment) : Prop :=
  0 < address r /\ address r mod PageSize = 0 /\ 0 <= size r /\
  address r + size r + PageSize <= 2 ^ 32.

Section loops.
Context `{KernelImage} (start_modules end_modules : Z).
Implicit Types s : boot.

Fixpoint add_all (l : list Z) s : res boot :=
  match l with
  | [] => mret s
  | a :: l => s ← add_frame start_modules end_modules a s; add_all l s
  end.

Lemma add_all_app l k s : add_all (l ++ k) s = s ← add_all l s; add_all k s.
Proof.
  revert s. induction l as [|a l IH]; intros s; cbn [add_all app]; [done|].
  destruct (add_frame _ _ a s) as [s1| | |]; cbn [mbind res_bind]; [apply IH|done..].
Qed.

Lemma frames_loop_all n a last fuel s : 0 <= a -> a + PageSize * Z.of_nat n < 2 ^ 32 ->
  last <= a + PageSize * Z.of_nat n -> (n = 0%nat \/ a + PageSize * (Z.of_nat n - 1) < last) ->
  (n < fuel)%nat ->
  frames_loop start_modules end_modules fuel a last s =
    add_all ((fun i => a + PageSize * i) <$> seqZ 0 (Z.of_nat n)) s.
Proof.
  revert a fuel s. induction n as [|n IH]; intros a [|fuel] s Ha Hw Hl Hn Hf; try lia;
    cbn [frames_loop].
  - rewrite (proj2 (Z.ltb_ge _ _)) by lia. done.
  - rewrite (proj2 (Z.ltb_lt _ _)) by (destruct Hn as [|Hn]; [done|unfold PageSize in *; lia]).
    rewrite seqZ_cons by lia. cbn [fmap list_fmap add_all]. rewrite Z.mul_0_r, Z.add_0_r.
    destruct (add_frame _ _ a s) as [s1| | |]; cbn [mbind res_bind]; try done.
    rewrite wrap_id by (unfold uint, PageSize in *; lia).
    rewrite IH; [|unfold PageSize in *; lia..]. f_equal.
    replace (Z.pred (Z.of_nat (S n))) with (Z.of_nat n) by lia.
    change (Z.succ 0) with (1 + 0). rewrite <- (fmap_add_seqZ 1). rewrite <- list_fmap_compose.
    apply list_fmap_ext. intros i x _. cbn. unfold PageSize. lia.
Qed.

Lemma segment_frames r s : segment_ok r ->
  frames_loop start_modules end_modules (frames_fuel r) (address r) (u32 (address r + size r)) s =
    add_all (frames_of r) s.
Proof.
  intros (Ha & Hal & Hs & He). unfold frames_of, frames_fuel.
  rewrite wrap_id by (unfold uint, PageSize in *; lia).
  assert (0 <= (size r + PageMask) / PageSize) as H0 by (apply Z.div_pos; unfold PageMask, PageSize; lia).
  rewrite <- (Z2Nat.id ((size r + PageMask) / PageSize)) by done.
  apply frames_loop_all; rewrite ?Z2Nat.id by done; unfold PageMask, PageSize in *;
    Z.div_mod_to_equations; lia.
Qed.

Lemma segments_all memoryMap s : Forall segment_ok memoryMap ->
  segments_loop start_modules end_modules memoryMap s = add_all (map_frames memoryMap) s.
Proof.
  intros Hok. revert s. induction Hok as [|r l Hr _ IH]; intros s; [done|].
  cbn [segments_loop]. unfold map_frames. cbn [fmap list_fmap mjoin list_join].
  rewrite add_all_app, segment_frames by done.
  destruct (add_all (frames_of r) s) as [s1| | |]; cbn [mbind res_bind]; [apply IH|done..].
Qed.
End loops.

(** ** The state while the lists are filled *)

Section init.
Context `{KernelImage} (start_modules end_modules : Z).
Context (Hkernel : KernelVirtualBase + KernelLoadAddress <= end_kernel <= KernelVirtualBase + 0xff5000).
Context (Hmodules : 0 <= end_modules <= end_kernel).
Implicit Types (s : boot) (l : list Z) (fl ul : list loc).

Notation F := (firstFreePage end_modules).

(** The frame of the bootstrap page. *)
Definition boot_frame : Z := F - KernelVirtualBase.

Definition in_use (a : Z) : bool :=
  used_by_kernel end_modules a || used_by_modules start_modules end_modules a.

Definition used_count l : Z := Z.of_nat (length (filter (fun a => in_use a = true) l)).

Lemma filter_id l : Forall (fun a => in_use a = true) l -> filter (fun a => in_use a = true) l = l.
Proof.
  induction 1 as [|a l Ha _ IH]; [done|]. rewrite filter_cons, decide_True by done. by rewrite IH.
Qed.

Lemma first_free_page : F = roundTo end_kernel PageSize + 40960 /\ F mod PageSize = 0 /\
  end_kernel + 40960 <= F <= KernelVirtualBase + 0xfff000.
Proof.
  unfold KernelVirtualBase, KernelLoadAddress in *. unfold firstFreePage, firstUsableMemory.
  rewrite Z.max_l by lia.
  destruct (roundTo_bounds end_kernel) as [R1 [q R2]]; [lia|unfold PageMask, PageSize; lia|].
  change (PageSize * PageFrameCount) with 40960. unfold PageSize in *.
  rewrite wrap_id by (unfold uint; lia). split; [done|]. split; [Z.div_mod_to_equations; lia|].
  split; [lia|]. Z.div_mod_to_equations. lia.
Qed.

Lemma boot_frame_eq : u32 (F - KernelVirtualBase) = boot_frame /\ KernelLoadAddress < boot_frame /\
  boot_frame mod PageSize = 0 /\ boot_frame < 2 ^ 24.
Proof.
  destruct first_free_page as (_ & Hm & Hb). unfold boot_frame, KernelVirtualBase, KernelLoadAddress in *.
  rewrite wrap_id by (unfold uint; lia). unfold PageSize in *. split; [done|]. split; [lia|].
  split; [|lia]. Z.div_mod_to_equations. lia.
Qed.

(** The memory before, of which only the page tables matter: the pages that
    [init] maps are not present. *)
Context (m0 : mm).
Context (Habsent : forall v, user_page v -> F + PageSize <= v \/ CodeStart <= v < CodeStart + CodeSize ->
  has (entry m0 v) Present = false).

(** After the frames [l] of the map and [k] more pages of structures. *)
Record filled (k : Z) l s fl ul : Prop := {
  fi_lists : lists_ok (mm_pages (b_mm s)) fl ul;
  fi_addrs : (page_addr (pg_st (mm_pages (b_mm s))) <$> fl ++ ul) ≡ₚ boot_frame :: l;
  fi_used a : in_use a = true -> a ∉ (page_addr (pg_st (mm_pages (b_mm s))) <$> fl);
  fi_fresh i : 0 <= i < freeStructures s ->
    pg_st (mm_pages (b_mm s)) !! (b_p s + sizeof_PhysicalPage * i) = None;
  fi_p : 0 < b_p s /\ 0 <= freeStructures s /\
    (b_p s + sizeof_PhysicalPage * freeStructures s <= F + PageSize \/
     mm_mapEnd (b_mm s) <= b_p s /\ b_p s + sizeof_PhysicalPage * freeStructures s <= MapStart);
  fi_dom q : is_Some (pg_st (mm_pages (b_mm s)) !! q) ->
    q < F + PageSize \/ mm_mapEnd (b_mm s) <= q;
  fi_end : mm_mapEnd (b_mm s) = MapStart - PageSize * k;
  fi_count : 0 <= k /\ Z.of_nat (length l) + freeStructures s = 340 + 341 * k;
  fi_free : Z.of_nat (length l) - used_count l - 2 * k <= Z.of_nat (length fl);
  fi_most : Z.of_nat (length fl) <= Z.of_nat (length l) - used_count l;
  fi_entries v : user_page v -> v < mm_mapEnd (b_mm s) \/ MapStart <= v ->
    entry (b_mm s) v = entry m0 v;
}.

(** Taking frames keeps what the lists hold. *)
Lemma drew_addrs p fl ul p' t fl' : drew p fl ul p' t fl' ->
  (page_addr (pg_st p') <$> fl' ++ reverse t ++ ul) ≡ₚ (page_addr (pg_st p) <$> fl ++ ul).
Proof.
  intros (-> & _ & Ha & _). rewrite (fmap_addr_ext _ _ _ Ha).
  apply fmap_Permutation. rewrite reverse_Permutation. solve_Permutation.
Qed.

Lemma drew_free p fl ul p' t fl' a : drew p fl ul p' t fl' ->
  a ∉ (page_addr (pg_st p) <$> fl) -> a ∉ (page_addr (pg_st p') <$> fl').
Proof.
  intros (-> & _ & Ha & _) Hn. rewrite (fmap_addr_ext _ _ _ Ha). rewrite fmap_app in Hn.
  intros Hin. apply Hn. apply elem_of_app. by right.
Qed.

Lemma drew_length p fl ul p' t fl' : drew p fl ul p' t fl' ->
  length fl = (length t + length fl')%nat.
Proof. intros (-> & _). apply length_app. Qed.

(** A page of structures. *)
Lemma more_structures_ok k l s fl ul : filled k l s fl ul ->
  (freeStructures s = 0 -> (2 <= length fl)%nat /\ k < 3100) ->
  exists k' s' fl' ul', more_structures s = Ok s' /\ filled k' l s' fl' ul' /\
    0 < freeStructures s' /\
    (freeStructures s <= 340 -> freeStructures s' <= 341).
Proof.
  intros Hi Hneed. unfold more_structures. destruct Hi as [I1 I2 I3 I4 I5 I6 I7 I8 I9 I11 I10].
  destruct (Z.eqb_spec (freeStructures s) 0) as [Hz|Hnz].
  2:{ exists k, s, fl, ul. split; [done|]. split; [by constructor|]. split; lia. }
  destruct (Hneed Hz) as [Hfl Hk]. destruct fl as [|q fl]; [cbn in Hfl; lia|].
  destruct (getPage_drew _ _ _ _ I1) as (p1 & -> & T1). cbn [mbind res_bind].
  assert (page_addr (pg_st (mm_pages (b_mm s))) q <> 0) as Hq0.
  { intros E0. apply (lo_nz _ _ _ I1). rewrite <- E0. left. }
  rewrite (proj2 (Z.eqb_neq _ _)) by done. cbn [negb kassert mbind res_bind].
  unfold mapAnonymousPage. cbn [mm_mapEnd with_pages with_mapEnd].
  destruct first_free_page as (_ & HF1 & HF2).
  unfold MapStart, KernelStackStart, KernelStackSize, PageTableBase, KernelVirtualBase,
    KernelLoadAddress, PageSize in *.
  rewrite wrap_id by (rewrite I7; unfold uint; lia). rewrite (proj2 (Z.leb_gt _ _)) by lia.
  set (v := mm_mapEnd (b_mm s) - 4096). assert (user_page v) as Hv.
  { unfold user_page, v, PageTableBase, PageSize. rewrite I7. split; [lia|]. Z.div_mod_to_equations. lia. }
  set (m1 := with_mapEnd (with_pages (b_mm s) p1) v).
  assert (forall w, entry m1 w = entry (b_mm s) w) as Hm1 by done.
  destruct (mapPage_ok m1 fl ([q] ++ ul) v (page_addr (pg_st (mm_pages (b_mm s))) q) Flags.None)
    as (m2 & t & fl2 & E2 & T2 & Ht & M2 & HE2).
  - exact (drew_ok _ _ _ _ _ _ T1).
  - exact Hv.
  - apply took_frame_addr.
  - rewrite Hm1, I10 by (done || (left; unfold v; lia)). apply Habsent; [done|].
    left. unfold v. rewrite I7. unfold PageSize. lia.
  - unfold no_frame. destruct fl; [cbn in Hfl; lia|]. apply andb_false_r.
  - change (mm_pages m1) with p1 in T2. match goal with |- context [mapPage ?a _ _ ?d] => change a with v; change d with m1 end.
    rewrite E2. cbn [mret res_ret mbind res_bind negb].
    rewrite (proj2 (Z.eqb_neq v 0)) by (unfold v; lia). cbn [negb kassert mbind res_bind].
    pose proof (drew_trans _ _ _ _ _ _ _ _ _ T1 T2) as T.
    exists (k + 1), (Boot m2 v (4096 / sizeof_PhysicalPage)), fl2, (reverse ([q] ++ t) ++ ul).
    split; [done|]. split; [|cbn; split; [done|intros _; vm_compute; discriminate]].
    assert (mm_mapEnd m2 = v) as Ev by exact M2.
    pose proof (drew_length _ _ _ _ _ _ T) as Hlen.
    constructor; cbn [b_mm b_p freeStructures].
    + exact (drew_ok _ _ _ _ _ _ T).
    + by rewrite (drew_addrs _ _ _ _ _ _ T).
    + intros a Hu. eapply drew_free; [exact T|]. by apply I3.
    + intros i Hr. destruct (pg_st (mm_pages m2) !! _) eqn:El; [|done].
      assert (is_Some (pg_st (mm_pages (b_mm s)) !! (v + sizeof_PhysicalPage * i))) as Hs.
      { apply T. by rewrite El. }
      apply I6 in Hs. change (4096 / sizeof_PhysicalPage) with 341 in Hr.
      unfold sizeof_PhysicalPage in *. unfold v in *. lia.
    + change (4096 / sizeof_PhysicalPage) with 341. unfold sizeof_PhysicalPage. rewrite Ev.
      unfold v, MapStart, KernelStackStart, KernelStackSize, PageTableBase. lia.
    + intros w Hw. rewrite Ev. apply T in Hw. apply I6 in Hw. unfold v, PageSize. lia.
    + rewrite Ev. unfold v, MapStart, KernelStackStart, KernelStackSize, PageTableBase, PageSize. lia.
    + change (4096 / sizeof_PhysicalPage) with 341. lia.
    + cbn [length app] in *. lia.
    + cbn [length app] in *. lia.
    + intros w Hw Hr. rewrite Ev in Hr. rewrite HE2 by done. rewrite decide_False.
      * rewrite Hm1. apply I10; [done|].
        unfold v, MapStart, KernelStackStart, KernelStackSize, PageTableBase in Hr. lia.
      * intros ->. unfold v, MapStart, KernelStackStart, KernelStackSize, PageTableBase in Hr. lia.
Qed.

(** *** One frame *)

Lemma page_addr_aligned a : 0 <= a < 2 ^ 32 -> a mod PageSize = 0 -> Z.land a AddressMask = a.
Proof.
  intros Ha Hm. unfold AddressMask, PageMask, PageSize in *.
  change (wnot 32 (4096 - 1)) with (2 ^ 32 - 2 ^ 12). rewrite land_mask32 by (done || lia).
  change (2 ^ 12) with 4096. lia.
Qed.

Lemma fmap_addr_off (st st' : page_store) p a (l : list loc) : p ∉ l ->
  (forall q, page_addr st' q = if decide (q = p) then a else page_addr st q) ->
  page_addr st' <$> l = page_addr st <$> l.
Proof.
  intros Hp He. apply list_fmap_ext. intros i q Hq. rewrite He, decide_False; [done|].
  intros ->. apply Hp. by eapply list_elem_of_lookup_2.
Qed.

Lemma used_count_snoc l a : used_count (l ++ [a]) = used_count l + (if in_use a then 1 else 0).
Proof.
  unfold used_count. rewrite filter_app, length_app, filter_cons, filter_nil.
  destruct (in_use a) eqn:E; [rewrite decide_True by done|rewrite decide_False by congruence];
    cbn [length]; lia.
Qed.

(** What [add_frame] does with a structure at hand. *)
Lemma add_frame_ready k l s fl ul a : filled k l s fl ul -> 0 < freeStructures s ->
  0 < a < 2 ^ 32 -> a mod PageSize = 0 -> Z.of_nat (length l) < 2 ^ 31 ->
  exists s' fl' ul', add_frame start_modules end_modules a s = Ok s' /\
    filled k (l ++ [a]) s' fl' ul' /\ freeStructures s' = freeStructures s - 1.
Proof.
  intros [I1 I2 I3 I4 I5 I6 I7 I8 I9 I11 I10] Hn Ha Hal Hl. unfold add_frame, more_structures.
  rewrite (proj2 (Z.eqb_neq _ _)) by lia. cbn [mret res_ret mbind res_bind].
  fold (in_use a). set (p := b_p s) in *. set (st := pg_st (mm_pages (b_mm s))) in *.
  assert (st !! p = None) as Hp.
  { specialize (I4 0). rewrite Z.mul_0_r, Z.add_0_r in I4. apply I4. lia. }
  assert (length (fl ++ ul) = S (length l)) as Hlen.
  { rewrite <- (length_fmap (page_addr st)), I2. done. }
  rewrite length_app in Hlen. destruct I1 as [L1 L2 L3 L4 L5 L6]. fold st in L1, L2, L5, L6.
  assert (p + sizeof_PhysicalPage < 2 ^ 32) as Hw.
  { destruct first_free_page as (_ & _ & HF). unfold sizeof_PhysicalPage, MapStart, KernelStackStart,
      KernelStackSize, PageTableBase, KernelVirtualBase, PageSize in *. lia. }
  assert (p <> 0) as Hp0 by lia.
  assert (p ∉ fl /\ p ∉ ul) as [Hpf Hpu].
  { split; intros Hin; [eapply or_intror in Hin; eapply elem_of_cons, (holds_alloc _ _ _ _ L1) in Hin
      |eapply or_intror in Hin; eapply elem_of_cons, (holds_alloc _ _ _ _ L2) in Hin];
      destruct Hin as [x Hx]; congruence. }
  assert (forall st' : page_store, (forall q, is_Some (st' !! q) <-> q = p \/ is_Some (st !! q)) ->
    forall i, 0 <= i < freeStructures s - 1 ->
      st' !! (u32 (p + sizeof_PhysicalPage) + sizeof_PhysicalPage * i) = None) as Hfresh.
  { intros st' Hd i Hi. rewrite wrap_id by (unfold uint, sizeof_PhysicalPage in *; lia).
    destruct (st' !! _) eqn:E; [|done]. exfalso.
    assert (is_Some (st' !! (p + sizeof_PhysicalPage + sizeof_PhysicalPage * i))) as Hs by (by rewrite E).
    apply Hd in Hs as [Hs|[x Hs]]; [unfold sizeof_PhysicalPage in Hs; lia|].
    replace (p + sizeof_PhysicalPage + sizeof_PhysicalPage * i)
      with (p + sizeof_PhysicalPage * (i + 1)) in Hs by lia.
    rewrite I4 in Hs by lia. done. }
  assert (used_count (l ++ [a]) = used_count l + (if in_use a then 1 else 0)) as Huc
    by apply used_count_snoc.
  destruct (in_use a) eqn:Eu.
  - destruct (insert_fresh st _ _ _ _ p a L2 L1 ltac:(clear -L3; set_solver) Hp Hp0 ltac:(lia))
      as (st' & c' & -> & Hc & H2' & H1' & Hn2 & Ha' & Hd'). cbn [mbind res_bind].
    rewrite page_addr_aligned in Ha' by (done || lia).
    eexists _, fl, (p :: ul). split; [done|]. split; [|done].
    constructor; cbn [b_mm b_p freeStructures mm_pages with_pages pg_st pg_free pg_used mm_mapEnd].
    + constructor; cbn [pg_st pg_free pg_used]; try done.
      * rewrite Hc. clear -L3 Hn2. set_solver.
      * cbn [length]. lia.
      * rewrite fmap_app, fmap_cons, !(fmap_addr_off st st' p a) by done. rewrite Ha', decide_True by done.
        intros [Hin|[E|Hin]%elem_of_cons]%elem_of_app; [|lia|];
          apply L5; rewrite fmap_app; apply elem_of_app; [by left|by right].
      * rewrite Ha', Hc, decide_False; [done|]. intros E.
        destruct (holds_alloc _ _ _ _ L2 ltac:(by left)) as [x Hx]. congruence.
    + rewrite fmap_app, fmap_cons, !(fmap_addr_off st st' p a) by done. rewrite Ha', decide_True by done.
      rewrite <- Permutation_middle, <- fmap_app, I2. solve_Permutation.
    + intros b Hb. rewrite (fmap_addr_off st st' p a) by done. by apply I3.
    + by apply Hfresh.
    + rewrite wrap_id by (unfold uint, sizeof_PhysicalPage in *; lia).
      unfold sizeof_PhysicalPage in *. lia.
    + intros q [->|Hq]%Hd'; [unfold sizeof_PhysicalPage in *; lia|by apply I6].
    + done.
    + rewrite length_app. cbn. lia.
    + rewrite length_app, Huc. cbn. lia.
    + rewrite length_app, Huc. cbn [length]. lia.
    + exact I10.
  - destruct (insert_fresh st _ _ _ _ p a L1 L2 L3 Hp Hp0 ltac:(lia))
      as (st' & c' & -> & Hc & H1' & H2' & Hn2 & Ha' & Hd'). cbn [mbind res_bind].
    rewrite page_addr_aligned in Ha' by (done || lia).
    eexists _, (p :: fl), ul. split; [done|]. split; [|done].
    constructor; cbn [b_mm b_p freeStructures mm_pages with_pages pg_st pg_free pg_used mm_mapEnd].
    + constructor; cbn [pg_st pg_free pg_used]; try done.
      * rewrite Hc. clear -L3 Hn2. set_solver.
      * cbn [length]. lia.
      * cbn [app]. rewrite fmap_cons, fmap_app, !(fmap_addr_off st st' p a) by done.
        rewrite Ha', decide_True by done. rewrite <- fmap_app.
        intros [E|Hin]%elem_of_cons; [lia|done].
      * rewrite Ha', decide_False; [done|]. intros E.
        destruct (holds_alloc _ _ _ _ L2 ltac:(by left)) as [x Hx]. congruence.
    + cbn [app]. rewrite fmap_cons, fmap_app, !(fmap_addr_off st st' p a) by done.
      rewrite Ha', decide_True by done. rewrite <- fmap_app, I2. solve_Permutation.
    + intros b Hb. rewrite fmap_cons, (fmap_addr_off st st' p a) by done. rewrite Ha', decide_True by done.
      intros [E|Hin]%elem_of_cons; [congruence|by apply I3 in Hin].
    + by apply Hfresh.
    + rewrite wrap_id by (unfold uint, sizeof_PhysicalPage in *; lia).
      unfold sizeof_PhysicalPage in *. lia.
    + intros q [->|Hq]%Hd'; [unfold sizeof_PhysicalPage in *; lia|by apply I6].
    + done.
    + rewrite length_app. cbn. lia.
    + rewrite length_app, Huc. cbn. lia.
    + rewrite length_app, Huc. cbn [length]. lia.
    + exact I10.
Qed.

(** *** All frames *)

Lemma add_frame_more s s1 a : more_structures s = Ok s1 -> 0 < freeStructures s1 ->
  add_frame start_modules end_modules a s = add_frame start_modules end_modules a s1.
Proof.
  intros E Hn. unfold add_frame. rewrite E. cbn [mbind res_bind]. unfold more_structures.
  rewrite (proj2 (Z.eqb_neq _ _)) by lia. done.
Qed.

Lemma used_count_app l l' : used_count (l ++ l') = used_count l + used_count l'.
Proof. unfold used_count. rewrite filter_app, length_app. lia. Qed.

Definition frame_ok (a : Z) : Prop := 0 < a < 2 ^ 32 /\ a mod PageSize = 0.

(** With at most 338 frames in use there is always a frame for the next page of
    structures, and for the table that maps it; the first 340 frames need none. *)
Lemma add_all_ok l l0 k s fl ul : filled k l0 s fl ul -> Forall frame_ok l ->
  freeStructures s <= 340 -> Z.of_nat (length (l0 ++ l)) <= 2 ^ 20 ->
  used_count (l0 ++ l) <= 338 \/ (length (l0 ++ l) <= 340)%nat ->
  exists k' s' fl' ul', add_all start_modules end_modules l s = Ok s' /\
    filled k' (l0 ++ l) s' fl' ul' /\ freeStructures s' <= 340.
Proof.
  revert l0 k s fl ul. induction l as [|a l IH]; intros l0 k s fl ul Hf Hl Hs Hlen Hu; cbn [add_all].
  - rewrite app_nil_r. by exists k, s, fl, ul.
  - apply Forall_cons in Hl as [[Ha Hal] Hl].
    destruct (more_structures_ok k l0 s fl ul Hf) as (k1 & s1 & fl1 & ul1 & E1 & F1 & N1 & N2).
    { intros Hz. pose proof (fi_count _ _ _ _ _ Hf) as [Hk Hc].
      pose proof (fi_free _ _ _ _ _ Hf) as Hfr. rewrite used_count_app in Hu.
      assert (0 <= used_count (a :: l)) by (unfold used_count; lia).
      rewrite length_app in Hlen, Hu. cbn [length] in Hlen, Hu. lia. }
    rewrite (add_frame_more s s1 a E1 N1).
    assert (Z.of_nat (length l0) < 2 ^ 31) as Hl0 by (rewrite length_app in Hlen; lia).
    destruct (add_frame_ready k1 l0 s1 fl1 ul1 a F1 N1 Ha Hal Hl0) as (s2 & fl2 & ul2 & -> & F2 & N3).
    cbn [mbind res_bind].
    destruct (IH (l0 ++ [a]) k1 s2 fl2 ul2 F2 Hl) as (k3 & s3 & fl3 & ul3 & E3 & F3 & N4);
      rewrite <-?app_assoc; try done; [specialize (N2 Hs); lia|].
    rewrite <- app_assoc in F3. by exists k3, s3, fl3, ul3.
Qed.

(** *** The loops behind the lists *)

(** The pages from [v] on are backed by [fr], frames that were free. *)
Definition backs (m m' : mm) (fl : list loc) (v : Z) (fr : list loc) (flags : Z) : Prop :=
  (forall i q, fr !! i = Some q -> entry m' (v + PageSize * Z.of_nat i) =
     Z.lor (page_addr (pg_st (mm_pages m)) q) (entry_flags flags)) /\
  (forall w, user_page w -> ~ in_pages v (length fr) w -> entry m' w = entry m w).

Lemma back_loop_ok n fuel v flags m fl ul : lists_ok (mm_pages m) fl ul ->
  0 <= v -> v mod PageSize = 0 -> v + PageSize * Z.of_nat n <= PageTableBase ->
  (forall w, user_page w -> in_pages v n w -> has (entry m w) Present = false) ->
  (2 * n <= length fl)%nat -> (n < fuel)%nat ->
  exists m' t fl' fr, back_loop fuel v (v + PageSize * Z.of_nat n) flags m = Ok m' /\
    drew (mm_pages m) fl ul (mm_pages m') t fl' /\ (length t <= 2 * n)%nat /\
    mm_mapEnd m' = mm_mapEnd m /\ length fr = n /\ fr `sublist_of` t /\ backs m m' fl v fr flags.
Proof.
  revert fuel v m fl ul. induction n as [|n IH]; intros [|fuel] v m fl ul Hok Hv Hva Hb Habs Hfl Hf;
    try lia; cbn [back_loop].
  - rewrite (proj2 (Z.ltb_ge _ _)) by lia. exists m, [], fl, [].
    split_and!; try done; by apply drew_nil.
  - unfold PageTableBase, PageSize in *. rewrite (proj2 (Z.ltb_lt _ _)) by lia.
    destruct fl as [|q fl]; [cbn in Hfl; lia|].
    destruct (getPage_drew _ _ _ _ Hok) as (p1 & -> & T1). cbn [mbind res_bind].
    assert (page_addr (pg_st (mm_pages m)) q <> 0) as Hq0.
    { intros E0. apply (lo_nz _ _ _ Hok). rewrite <- E0. left. }
    rewrite (proj2 (Z.eqb_neq _ _)) by done. cbn [negb kassert mbind res_bind].
    assert (user_page v) as Huv by (unfold user_page, PageTableBase, PageSize; split; [lia|done]).
    destruct (mapPage_ok (with_pages m p1) fl ([q] ++ ul) v (page_addr (pg_st (mm_pages m)) q) flags)
      as (m2 & t2 & fl2 & E2 & T2 & Ht2 & M2 & HE2).
    { exact (drew_ok _ _ _ _ _ _ T1). }
    { done. }
    { apply took_frame_addr. }
    { apply Habs; [done|]. unfold in_pages, PageSize. lia. }
    { unfold no_frame. destruct fl; [cbn in Hfl; lia|]. apply andb_false_r. }
    rewrite E2. cbn [mbind res_bind kassert]. cbn [mm_pages with_pages] in T2.
    pose proof (drew_trans _ _ _ _ _ _ _ _ _ T1 T2) as T.
    rewrite wrap_id by (unfold uint; lia).
    replace (v + 4096 * Z.of_nat (S n)) with (v + 4096 + 4096 * Z.of_nat n) by lia.
    destruct (IH fuel (v + 4096) m2 fl2 (reverse ([q] ++ t2) ++ ul))
      as (m3 & t3 & fl3 & fr & -> & T3 & Ht3 & M3 & Hfr & Hsub & Hent & Hrest).
    { exact (drew_ok _ _ _ _ _ _ T). }
    { lia. }
    { Z.div_mod_to_equations. lia. }
    { lia. }
    { intros w Hw Hin. unfold in_pages, PageSize in Hin. rewrite HE2 by done.
      rewrite decide_False by lia. apply Habs; [done|]. unfold in_pages, PageSize. lia. }
    { pose proof (drew_length _ _ _ _ _ _ T). cbn [length app] in *. lia. }
    { lia. }
    exists m3, (([q] ++ t2) ++ t3), fl3, (q :: fr). split; [done|].
    split; [by eapply drew_trans|]. split; [rewrite !length_app; cbn; lia|].
    split; [rewrite M3; exact M2|]. split; [cbn; lia|].
    split; [cbn; by apply sublist_skip, sublist_inserts_l|]. split.
    + intros [|i] q' Hq'; cbn in Hq'.
      * injection Hq' as <-. rewrite Z.mul_0_r, Z.add_0_r.
        rewrite Hrest; [|done|unfold in_pages, PageSize; lia]. rewrite HE2 by done.
        by rewrite decide_True.
      * replace (v + PageSize * Z.of_nat (S i)) with (v + 4096 + PageSize * Z.of_nat i)
          by (unfold PageSize; lia).
        rewrite (Hent _ _ Hq'). destruct T as (_ & _ & A & _). by rewrite A.
    + intros w Hw Hnin. cbn [length] in Hnin. rewrite Hrest; [|done|].
      * rewrite HE2 by done. rewrite decide_False; [done|]. intros ->. apply Hnin.
        unfold in_pages, PageSize. lia.
      * intros Hin. apply Hnin. unfold in_pages, PageSize in *. lia.
Qed.

(** *** The bootstrap page *)

Definition first_boot (m : mm) (st : page_store) (free used : cluster) : boot :=
  Boot (with_pages m (Pages st free used)) (u32 (F + sizeof_PhysicalPage))
    (PageSize / sizeof_PhysicalPage - 1).

Lemma cluster_init_holds h st : h <> 0 ->
  let '(st', c) := cluster_init h st in
  holds st' c [] /\ pc_head c = h /\ page_addr st' h = AddressMask /\
  (forall q, q <> h -> st' !! q = st !! q).
Proof.
  intros Hh. unfold cluster_init, page_init. rewrite insert_insert_eq. split_and!.
  - split_and!; cbn; [|set_solver|done|lia]. split; [apply NoDup_singleton|].
    cbn. unfold nx, pv. by rewrite lookup_insert_eq.
  - done.
  - unfold page_addr, vl. by rewrite lookup_insert_eq.
  - intros q Hq. by rewrite lookup_insert_ne.
Qed.

Lemma start_ok used_head free_head : 0 < used_head < end_kernel -> 0 < free_head < end_kernel ->
  used_head <> free_head -> (forall q, is_Some (pg_st (mm_pages m0) !! q) -> q < F) ->
  mm_mapEnd m0 = MapStart ->
  exists st used st0 free st1 used1,
    cluster_init used_head (pg_st (mm_pages m0)) = (st, used) /\
    cluster_init free_head st = (st0, free) /\
    cluster_insert used F (page_init_at F (u32 (F - KernelVirtualBase)) st0) = Ok (st1, used1) /\
    filled 0 [] (first_boot m0 st1 free used1) [] [F].
Proof.
  intros Hu Hfr Hne Hdom Hend. destruct first_free_page as (_ & _ & HF).
  destruct boot_frame_eq as (Eb & Hb1 & Hb2 & Hb3).
  pose proof (cluster_init_holds used_head (pg_st (mm_pages m0)) ltac:(lia)) as H1.
  destruct (cluster_init used_head _) as [st used] eqn:E1. destruct H1 as (U1 & U2 & U3 & U4).
  pose proof (cluster_init_holds free_head st ltac:(lia)) as H2.
  destruct (cluster_init free_head st) as [st0 free] eqn:E2. destruct H2 as (V1 & V2 & V3 & V4).
  assert (holds st0 used []) as U1'.
  { destruct U1 as (Hr & Hx). split; [|exact Hx]. eapply ring_frame; [exact Hr|].
    rewrite U2. intros q ->%list_elem_of_singleton. unfold nx, pv. by rewrite V4. }
  assert (forall q, is_Some (st0 !! q) -> q < F) as Hd0.
  { intros q Hq. destruct (decide (q = free_head)) as [->|Hq1]; [lia|]. rewrite V4 in Hq by done.
    destruct (decide (q = used_head)) as [->|Hq2]; [lia|]. rewrite U4 in Hq by done. by apply Hdom. }
  assert (st0 !! F = None) as HF0.
  { destruct (st0 !! F) eqn:E; [|done]. specialize (Hd0 F ltac:(by rewrite E)). lia. }
  destruct (insert_fresh st0 used [] free [] F (u32 (F - KernelVirtualBase)) U1' V1)
    as (st1 & used1 & E3 & Hc & H' & Hf' & Hn & Ha & Hd); [|done|lia|cbn; lia|].
  { rewrite U2, V2. set_solver. }
  exists st, used, st0, free, st1, used1. split; [done|]. split; [done|]. split; [exact E3|].
  rewrite Eb in Ha.
  assert (page_addr st1 F = boot_frame) as HaF.
  { rewrite Ha, decide_True by done. apply page_addr_aligned; [|done].
    unfold KernelLoadAddress in *. lia. }
  unfold MapStart, KernelStackStart, KernelStackSize, PageTableBase, KernelVirtualBase, PageSize in *.
  constructor; cbn [b_mm b_p freeStructures first_boot mm_pages with_pages pg_st pg_free pg_used mm_mapEnd].
  - constructor; cbn [pg_st pg_free pg_used]; try done.
    + rewrite Hc, U2, V2. rewrite V2 in Hn. clear -Hn Hne. set_solver.
    + cbn. rewrite HaF. intros E%list_elem_of_singleton. unfold KernelLoadAddress in *. lia.
    + rewrite Hc, U2, Ha, decide_False by lia. unfold page_addr, vl. rewrite V4 by done. exact U3.
  - cbn. by rewrite HaF.
  - intros a _ Hin. by apply elem_of_nil in Hin.
  - intros i Hi. rewrite wrap_id by (unfold uint, sizeof_PhysicalPage; lia).
    destruct (st1 !! _) eqn:E; [|done].
    assert (is_Some (st1 !! (F + sizeof_PhysicalPage + sizeof_PhysicalPage * i))) as Hs by (by rewrite E).
    apply Hd in Hs as [Hs|Hs]; [|apply Hd0 in Hs]; unfold sizeof_PhysicalPage in Hs; lia.
  - rewrite wrap_id by (unfold uint, sizeof_PhysicalPage; lia).
    change (PageSize / sizeof_PhysicalPage - 1) with 340. unfold sizeof_PhysicalPage, PageSize. lia.
  - intros q [->|Hq%Hd0]%Hd; unfold PageSize; lia.
  - rewrite Hend. unfold MapStart, KernelStackStart, KernelStackSize, PageTableBase, PageSize. lia.
  - change (PageSize / sizeof_PhysicalPage - 1) with 340. cbn. lia.
  - done.
  - done.
  - done.
Qed.

(** *** The frames of the map *)

Lemma segment_frame_ok r : segment_ok r -> Forall frame_ok (frames_of r).
Proof.
  intros (Ha & Hal & Hs & He). apply Forall_fmap, Forall_forall. intros i Hi%elem_of_seqZ.
  unfold frame_ok, PageMask, PageSize in *. cbn. split.
  - Z.div_mod_to_equations. lia.
  - rewrite Z.mul_comm, Z.mod_add by lia. done.
Qed.

Lemma map_frames_ok memoryMap : Forall segment_ok memoryMap -> Forall frame_ok (map_frames memoryMap).
Proof.
  induction 1 as [|r l Hr _ IH]; [done|]. unfold map_frames. cbn [fmap list_fmap mjoin list_join].
  apply Forall_app. split; [by apply segment_frame_ok|exact IH].
Qed.

(** There are no more frames than addresses. *)
Lemma frames_bound l : Forall frame_ok l -> NoDup l -> Z.of_nat (length l) <= 2 ^ 20.
Proof.
  intros Hl Hnd.
  assert (l ⊆ (fun i => PageSize * i) <$> seqZ 0 (2 ^ 20)) as Hsub.
  { intros a Ha. rewrite Forall_forall in Hl. destruct (Hl a Ha) as [Hr Hm].
    apply list_elem_of_fmap. exists (a / PageSize). unfold PageSize in *.
    split; [Z.div_mod_to_equations; lia|]. apply elem_of_seqZ. Z.div_mod_to_equations. lia. }
  apply NoDup_submseteq in Hsub; [|done]. apply submseteq_length in Hsub.
  rewrite length_fmap, length_seqZ in Hsub. lia.
Qed.

(** ** Contract *)

(** What [init] leaves, with the structures [stack] and [code] of the frames
    behind the boot stack and the code area. *)
Record initialised (frames : list Z) (m : mm) fl ul (stack code : list loc) : Prop := {
  in_lists : lists_ok (mm_pages m) fl ul;
  in_frames : (page_addr (pg_st (mm_pages m)) <$> fl ++ ul) ≡ₚ boot_frame :: frames;
  in_used a : in_use a = true -> a ∉ (page_addr (pg_st (mm_pages m)) <$> fl);
  in_apart : NoDup (stack ++ code) /\ stack ++ code ⊆ ul;
  in_sizes : length stack = 16%nat /\ length code = 1024%nat;
  in_stack i q : stack !! i = Some q -> entry m (MapStart + PageSize * Z.of_nat i) =
    Z.lor (page_addr (pg_st (mm_pages m)) q) (entry_flags Flags.None);
  in_code i q : code !! i = Some q -> entry m (CodeStart + PageSize * Z.of_nat i) =
    Z.lor (page_addr (pg_st (mm_pages m)) q) (entry_flags Flags.User);
}.

(** The two loops behind the lists. *)
Lemma areas_ok k l s fl ul : filled k l s fl ul -> Z.of_nat (length l) <= 2 ^ 20 ->
  freeStructures s <= 340 -> (2080 <= length fl)%nat ->
  exists m1 m2 fl' ul' stack code,
    back_loop (region_fuel KernelStackSize) (KernelStackStart - KernelStackSize) KernelStackStart
      Flags.None (b_mm s) = Ok m1 /\
    back_loop (region_fuel CodeSize) CodeStart (CodeStart + CodeSize) Flags.User m1 = Ok m2 /\
    initialised l m2 fl' ul' stack code.
Proof.
  intros [I1 I2 I3 I4 I5 I6 I7 I8 I9 I11 I10] Hlen Hn Hfl. destruct first_free_page as (_ & _ & HF).
  assert (forall v, user_page v -> CodeStart <= v < CodeStart + CodeSize \/ MapStart <= v ->
    has (entry (b_mm s) v) Present = false) as Habs.
  { intros v Hv Hr. rewrite I10; [apply Habsent|..]; try done;
      unfold CodeStart, CodeSize, MapStart, KernelStackStart, KernelStackSize, PageTableBase,
        KernelVirtualBase, PageSize in *; lia. }
  destruct (back_loop_ok 16 (region_fuel KernelStackSize) MapStart Flags.None (b_mm s) fl ul I1)
    as (m1 & t1 & fl1 & stack & E1 & T1 & L1 & M1 & S1 & B1 & N1 & R1).
  1-3: unfold MapStart, KernelStackStart, KernelStackSize, PageTableBase, PageSize; done.
  { intros w Hw [Hr _]. apply Habs; [done|by right]. }
  { lia. }
  { vm_compute. lia. }
  destruct (back_loop_ok 1024 (region_fuel CodeSize) CodeStart Flags.User m1 fl1 (reverse t1 ++ ul))
    as (m2 & t2 & fl2 & code & E2 & T2 & L2 & M2 & S2 & B2 & N2 & R2).
  { exact (drew_ok _ _ _ _ _ _ T1). }
  1-3: unfold CodeStart, PageTableBase, PageSize; done.
  { intros w Hw Hr. rewrite R1; [apply Habs; [done|left]|done|].
    - unfold in_pages, CodeStart, CodeSize, PageSize in *. lia.
    - unfold in_pages, CodeStart, MapStart, KernelStackStart, KernelStackSize, PageTableBase, PageSize in *.
      lia. }
  { pose proof (drew_length _ _ _ _ _ _ T1). lia. }
  { vm_compute. lia. }
  exists m1, m2, fl2, (reverse t2 ++ reverse t1 ++ ul), stack, code.
  split; [exact E1|]. split; [exact E2|].
  pose proof (drew_trans _ _ _ _ _ _ _ _ _ T1 T2) as T.
  assert (fl = t1 ++ t2 ++ fl2) as Efl.
  { destruct T as (-> & _). by rewrite <- app_assoc. }
  assert (NoDup fl) as Hnd.
  { destruct (lo_free _ _ _ I1) as ([Hnd _] & _). by apply NoDup_cons in Hnd as [_ ?]. }
  constructor.
  - exact (drew_ok _ _ _ _ _ _ T2).
  - rewrite (drew_addrs _ _ _ _ _ _ T2), (drew_addrs _ _ _ _ _ _ T1). exact I2.
  - intros a Ha. eapply drew_free; [exact T2|]. eapply drew_free; [exact T1|]. by apply I3.
  - split.
    + eapply sublist_NoDup; [|by apply sublist_app].
      rewrite Efl, app_assoc in Hnd. by apply NoDup_app in Hnd as [? _].
    + intros q [Hq|Hq]%elem_of_app.
      * apply elem_of_app. right. apply elem_of_app. left. apply elem_of_reverse.
        by eapply elem_of_sublist.
      * apply elem_of_app. left. apply elem_of_reverse. by eapply elem_of_sublist.
  - done.
  - intros i q Hq. rewrite R2.
    + rewrite (N1 _ _ Hq). destruct T as (_ & _ & A & _). by rewrite A.
    + apply lookup_lt_Some in Hq. unfold user_page, MapStart, KernelStackStart, KernelStackSize,
        PageTableBase, PageSize. split; [lia|]. Z.div_mod_to_equations. lia.
    + unfold in_pages, CodeStart, MapStart, KernelStackStart, KernelStackSize, PageTableBase, PageSize in *.
      lia.
  - intros i q Hq. rewrite (N2 _ _ Hq). destruct T2 as (_ & _ & A & _). by rewrite A.
Qed.

Lemma init_runs used_head free_head memoryMap :
  0 < used_head < end_kernel -> 0 < free_head < end_kernel -> used_head <> free_head ->
  (forall q, is_Some (pg_st (mm_pages m0) !! q) -> q < F) -> mm_mapEnd m0 = MapStart ->
  Forall segment_ok memoryMap ->
  exists s0 ul0, filled 0 [] s0 [] ul0 /\ freeStructures s0 = 340 /\
    Memory_init start_modules end_modules used_head free_head memoryMap m0 =
      (s ← add_all start_modules end_modules (map_frames memoryMap) s0;
       m ← back_loop (region_fuel KernelStackSize) (KernelStackStart - KernelStackSize)
             KernelStackStart Flags.None (b_mm s);
       m ← back_loop (region_fuel CodeSize) CodeStart (CodeStart + CodeSize) Flags.User m;
       mret (KernelStackStart - KernelStackSize - PageSize, m)).
Proof.
  intros Hu Hfr Hne Hdom Hend Hok.
  destruct (start_ok used_head free_head Hu Hfr Hne Hdom Hend)
    as (st & used & st0 & free & st1 & used1 & E1 & E2 & E3 & F0).
  exists (first_boot m0 st1 free used1), [F]. split; [exact F0|]. split; [done|].
  unfold Memory_init. rewrite E1, E2. cbv zeta. rewrite E3. cbn [mbind res_bind].
  change (0 <? PageSize / sizeof_PhysicalPage - 1) with true. cbn [kassert mbind res_bind].
  by rewrite segments_all.
Qed.

(** C5: [Memory::init] puts every frame of the memory map under the
    page lists: for disjoint segments of whole frames, of which the kernel and
    the modules use at most 338, and enough memory for the structures, the boot
    stack and the code area, it returns, with one structure for every frame of
    the map and one more for the bootstrap page, no frame that is in use on the
    free list, and the two areas backed by frames of their own.  The bootstrap
    page is not counted as the kernel's, so if its frame is in the map, as it
    always is, it has two structures: the lists are then not what [getPage] and
    [putPage] rely on.  If the kernel and the modules fill the first 340 frames
    there is no frame for the next structures, and [init] panics. *)
Theorem init_accounts used_head free_head memoryMap :
  0 < used_head < end_kernel -> 0 < free_head < end_kernel -> used_head <> free_head ->
  (forall q, is_Some (pg_st (mm_pages m0) !! q) -> q < F) -> mm_mapEnd m0 = MapStart ->
  Forall segment_ok memoryMap -> NoDup (map_frames memoryMap) ->
  let frames := map_frames memoryMap in
  let N := Z.of_nat (length frames) in
  (used_count frames <= 338 -> used_count frames + 2 * (N / 341 + 1) + 2080 <= N ->
   exists m fl ul stack code,
     Memory_init start_modules end_modules used_head free_head memoryMap m0 =
       Ok (KernelStackStart - KernelStackSize - PageSize, m) /\
     initialised frames m fl ul stack code /\
     (pages_ok (mm_pages m) fl ul <-> boot_frame ∉ frames)) /\
  (Forall (fun a => in_use a = true) (take 340 frames) -> 340 < N ->
   Memory_init start_modules end_modules used_head free_head memoryMap m0 = Panic).
Proof.
  intros Hu Hfr Hne Hdom Hend Hok Hnd frames N.
  destruct (init_runs used_head free_head memoryMap Hu Hfr Hne Hdom Hend Hok)
    as (s0 & ul0 & F0 & N0 & ->).
  pose proof (map_frames_ok _ Hok) as Hfs. fold frames in Hfs, Hnd |- *.
  pose proof (frames_bound _ Hfs Hnd) as Hb. fold N in Hb. split.
  - intros Huc Hcap. destruct (add_all_ok frames [] 0 s0 [] ul0 F0 Hfs) as (k & s & fl & ul & -> & F1 & N1);
      [lia|exact Hb|by left|]. cbn [app] in F1. cbn [mbind res_bind].
    pose proof (fi_free _ _ _ _ _ F1) as Hfree. pose proof (fi_count _ _ _ _ _ F1) as [Hk Hc].
    assert (k <= N / 341 + 1) as HkN.
    { fold N in Hc. Z.div_mod_to_equations. lia. }
    destruct (areas_ok k frames s fl ul F1 Hb N1) as (m1 & m2 & fl' & ul' & stack & code & -> & E2 & Hi).
    { fold N in Hfree. lia. }
    cbn [mbind res_bind]. rewrite E2. cbn [mbind res_bind].
    exists m2, fl', ul', stack, code. split; [done|]. split; [exact Hi|].
    rewrite pages_lists, (in_frames _ _ _ _ _ _ Hi), NoDup_cons. pose proof (in_lists _ _ _ _ _ _ Hi).
    tauto.
  - intros Huse HN. destruct (drop 340 frames) as [|a l] eqn:Ed.
    { apply (f_equal length) in Ed. rewrite length_drop in Ed. cbn in Ed. lia. }
    assert (frames = take 340 frames ++ a :: l) as Ef by (by rewrite <- Ed, take_drop).
    rewrite Ef, add_all_app. pose proof Hfs as Hfs'. rewrite Ef in Hfs'.
    apply Forall_app in Hfs' as [Hf1 Hf2].
    assert (length (take 340 frames) = 340%nat) as Hl by (rewrite length_take; lia).
    destruct (add_all_ok (take 340 frames) [] 0 s0 [] ul0 F0 Hf1) as (k & s & fl & ul & -> & F1 & N1);
      [lia|cbn [app]; lia|right; cbn [app]; lia|]. cbn [app] in F1. cbn [mbind res_bind add_all].
    pose proof (fi_count _ _ _ _ _ F1) as [Hk Hc]. rewrite Hl in Hc.
    pose proof (fi_p _ _ _ _ _ F1) as (_ & Hn0 & _).
    assert (freeStructures s = 0) as Hz by lia.
    assert (fl = []) as ->.
    { pose proof (fi_most _ _ _ _ _ F1) as Hm. unfold used_count in Hm.
      rewrite filter_id in Hm by done. destruct fl; [done|]. cbn in Hm. lia. }
    assert (add_frame start_modules end_modules a s = Panic) as ->; [|done].
    unfold add_frame, more_structures. rewrite Hz, Z.eqb_refl.
    by rewrite (getPage_dry _ _ (fi_lists _ _ _ _ _ F1)).
Qed.
End init.

(** ** A machine with 16 MB *)

(** A kernel image up to 0xc0140000, no modules, the memory behind the first
    megabyte. *)
Section sample.
#[local] Instance sample_image : KernelImage := {| end_kernel := 0xc0140000 |}.

Definition sample_map : list MemorySegment := [Segment 0x100000 0xf00000].
Definition sample_mm : mm := MM (Pages ∅ (Cluster 0 0) (Cluster 0 0)) ∅ MapStart.

Lemma sample_absent v : has (entry sample_mm v) Present = false.
Proof. unfold entry, rd, sample_mm. cbn [mm_pt]. by rewrite !lookup_empty. Qed.

Lemma sample_layout : KernelVirtualBase + KernelLoadAddress <= end_kernel <= KernelVirtualBase + 0xff5000 /\
  0 <= 0 <= end_kernel.
Proof. vm_compute. repeat split; discriminate. Qed.

Lemma sample_segments : Forall segment_ok sample_map /\ NoDup (map_frames sample_map).
Proof.
  split.
  - constructor; [|constructor]. vm_compute. repeat split; discriminate.
  - unfold map_frames, sample_map, frames_of. cbn [fmap list_fmap mjoin list_join].
    rewrite app_nil_r. apply NoDup_fmap_2; [|apply NoDup_seqZ].
    intros i j E. unfold PageSize in E. lia.
Qed.

Lemma sample_room : used_count 0xffffffff 0 (map_frames sample_map) = 74 /\
  length (map_frames sample_map) = 3840%nat /\ boot_frame 0 ∈ map_frames sample_map.
Proof.
  split; [vm_compute; reflexivity|]. split; [vm_compute; reflexivity|].
  apply (bool_decide_unpack _). vm_compute. exact I.
Qed.

Lemma init_accounts_witness : exists m fl ul stack code,
  Memory_init 0xffffffff 0 0xc0130000 0xc0130010 sample_map sample_mm =
    Ok (KernelStackStart - KernelStackSize - PageSize, m) /\
  initialised 0xffffffff 0 (map_frames sample_map) m fl ul stack code /\
  ~ pages_ok (mm_pages m) fl ul.
Proof.
  pose proof (init_accounts 0xffffffff 0 (proj1 sample_layout) (proj2 sample_layout) sample_mm
    (fun v _ _ => sample_absent v) 0xc0130000 0xc0130010 sample_map) as Hi.
  specialize (Hi (conj eq_refl eq_refl) (conj eq_refl eq_refl)). cbv zeta in Hi.
  destruct sample_segments as [S1 S2], sample_room as (R1 & R2 & R3).
  destruct Hi as [Hi _]; [discriminate| |reflexivity|exact S1|exact S2|].
  { intros q [x Hx]. discriminate Hx. }
  rewrite R1, R2 in Hi. destruct Hi as (m & fl & ul & stack & code & E & Hi & Hp).
  - discriminate.
  - vm_compute. discriminate.
  - exists m, fl, ul, stack, code. split; [exact E|]. split; [exact Hi|].
    intros Hpo. apply Hp in Hpo. by apply Hpo.
Defined.
End sample.
