(* ===== verification/BootData.v ===== *)
(** * What the boot loader passes

    Models X86/X86Memory.cc, which copies the memory map of the multiboot
    structure for [Memory::init] (MemInit.v), and [Modules::init] and
    [Modules::add] of Kernel/Modules.cc, which register the modules that were
    loaded with the kernel.  The boot loader's memory is a function from
    addresses to words, and one to strings.  The printing is left out. *)

From S2P Require Import Prelude Words PhysPages FrameAlloc BootPaging MemInit.
From Stdlib Require Import ZArith Lia.
From stdpp Require Import prelude list.

Open Scope Z_scope.

(** ** The memory map (Include/Multiboot.hh, X86/X86Memory.cc) *)

(** An entry: 64-bit address and length, and a type.  The entries are taken to
    be next to each other, as the code takes them; their [size] is not read. *)
Record MemoryMap : Type := Map { map_address : Z; map_length : Z; map_type : Z }.

Definition Available : Z := 1.

(** The loop over the entries; the flag says that one of them was added. *)
Fixpoint map_loop (maps : list MemoryMap) (foundUsableMemory : bool)
    (memoryMap : list MemorySegment) : res (bool * list MemorySegment) :=
  match maps with
  | [] => mret (foundUsableMemory, memoryMap)
  | map :: maps =>
      if map_type map =? Available then
        if u64 (map_address map + map_length map) <=? 0x100000 then
          map_loop maps foundUsableMemory memoryMap
        else
          memoryMap ← addMemoryMapEntry (u32 (map_address map)) (u32 (map_length map)) memoryMap;
          map_loop maps true memoryMap
      else map_loop maps foundUsableMemory memoryMap
  end.

Definition copyMemoryMap (maps : list MemoryMap) : res (list MemorySegment) :=
  '(foundUsableMemory, memoryMap) ← map_loop maps false [];
  kassert foundUsableMemory;;
  mret memoryMap.

(** ** Modules (Include/Modules.hh, Kernel/Modules.cc) *)

Record Module_ : Type := Mod { mod_address : Z; mod_size : Z; mod_name : list Z }.

Definition ModulesMax : Z := 32.
Definition PathMax : Z := 256.
Definition ModulesValid : Z := Z.shiftl 1 3.

(** [__start_modules], [__end_modules] and the first [nextFree] elements of
    [list]. *)
Record modules : Type := Mods { start_modules : Z; end_modules : Z; mod_list : list Module_ }.

Definition no_modules : modules := Mods (wnot 32 0) 0 [].

(** The name is cut to its array, as [strlcpy] does. *)
Definition Modules_add (addr size : Z) (name : list Z) (m : modules) : res modules :=
  kassert (Z.of_nat (length (mod_list m)) <? ModulesMax);;
  mret (Mods (start_modules m) (end_modules m)
    (mod_list m ++ [Mod addr size (take (Z.to_nat (PathMax - 1)) name)])).

Section loader.
Context (word : Z -> Z) (cstring : Z -> list Z).

(** [modulesAddress] does not change from one round to the next. *)
Fixpoint modules_loop (count : nat) (modulesAddress : Z) (m : modules) : res modules :=
  match count with
  | O => mret m
  | S count =>
      let moduleStart := word modulesAddress in
      let moduleEnd := word (u32 (modulesAddress + 4)) in
      let moduleName := cstring (word (u32 (modulesAddress + 8))) in
      let moduleSize := u32 (moduleEnd - moduleStart) in
      let e := if end_modules m <? moduleEnd then moduleEnd else end_modules m in
      let s := if moduleStart <? start_modules m then moduleStart else start_modules m in
      m ← Modules_add (u32 (moduleStart + KernelVirtualBase)) moduleSize moduleName
            (Mods s e (mod_list m));
      modules_loop count modulesAddress m
  end.

Definition Modules_init (flags modulesCount modulesAddress : Z) (m : modules) : res modules :=
  if negb (Z.land flags ModulesValid =? 0)
  then modules_loop (Z.to_nat modulesCount) modulesAddress m
  else mret m.
End loader.

(** ** What is registered *)

(** The regions that are passed on. *)
Definition usable (e : MemoryMap) : bool :=
  (map_type e =? Available) && negb (u64 (map_address e + map_length e) <=? 0x100000).

Definition segment_of (e : MemoryMap) : MemorySegment :=
  Segment (u32 (map_address e)) (u32 (map_length e)).

Definition usable_maps (maps : list MemoryMap) : list MemoryMap :=
  filter (fun e => usable e = true) maps.

Lemma map_loop_cons e maps b l :
  map_loop (e :: maps) b l =
    if usable e then l' ← addMemoryMapEntry (u32 (map_address e)) (u32 (map_length e)) l;
      map_loop maps true l'
    else map_loop maps b l.
Proof. unfold usable. cbn [map_loop]. by destruct (_ =? Available), (_ <=? 0x100000). Qed.

Lemma usable_maps_cons e maps :
  usable_maps (e :: maps) = if usable e then e :: usable_maps maps else usable_maps maps.
Proof. unfold usable_maps. rewrite filter_cons. by destruct (usable e). Qed.

Lemma map_loop_ok maps b l : (length l <= 32)%nat ->
  map_loop maps b l =
    if decide (length l + length (usable_maps maps) <= 32)%nat
    then Ok (b || bool_decide (usable_maps maps <> []), l ++ (segment_of <$> usable_maps maps))
    else Panic.
Proof.
  revert b l. induction maps as [|e maps IH]; intros b l Hl.
  - unfold usable_maps. rewrite filter_nil. cbn [fmap list_fmap length]. rewrite app_nil_r.
    rewrite bool_decide_eq_false_2 by (intros Hx; by apply Hx).
    rewrite orb_false_r. by rewrite decide_True by lia.
  - rewrite map_loop_cons, usable_maps_cons. destruct (usable e); [|by apply IH].
    rewrite bool_decide_eq_true_2 by done. rewrite orb_true_r. unfold addMemoryMapEntry.
    destruct (Z.ltb_spec (Z.of_nat (length l)) MemoryMapMax) as [Hlt|Hge];
      unfold MemoryMapMax in *; cbn [kassert mbind res_bind mret res_ret length].
    + rewrite IH by (rewrite length_app; cbn; lia).
      rewrite length_app. cbn [length orb fmap list_fmap].
      rewrite <- app_assoc. cbn [app]. rewrite <- Nat.add_assoc. done.
    + by rewrite decide_False by lia.
Qed.

Lemma modules_loop_ok word cstring n a m : 0 <= word a < 2 ^ 32 -> 0 <= word (u32 (a + 4)) < 2 ^ 32 ->
  start_modules m = wnot 32 0 /\ end_modules m = 0 \/
    start_modules m = word a /\ end_modules m = word (u32 (a + 4)) ->
  (length (mod_list m) <= 32)%nat ->
  modules_loop word cstring n a m =
    if decide (n = 0%nat) then Ok m
    else if decide (length (mod_list m) + n <= 32)%nat then
      Ok (Mods (word a) (word (u32 (a + 4)))
        (mod_list m ++ replicate n (Mod (u32 (word a + KernelVirtualBase))
           (u32 (word (u32 (a + 4)) - word a)) (take 255 (cstring (word (u32 (a + 8))))))))
    else Panic.
Proof.
  intros Hs He. revert m. induction n as [|n IH]; intros m Hm Hl; cbn [modules_loop];
    [by rewrite decide_True|].
  rewrite (decide_False (P := S n = 0%nat)) by done.
  set (s := if word a <? start_modules m then word a else start_modules m).
  set (e := if end_modules m <? word (u32 (a + 4)) then word (u32 (a + 4)) else end_modules m).
  assert (s = word a) as ->.
  { unfold s. change (wnot 32 0) with (2 ^ 32 - 1) in Hm. destruct (Z.ltb_spec (word a) (start_modules m)); lia. }
  assert (e = word (u32 (a + 4))) as ->.
  { unfold e. destruct (Z.ltb_spec (end_modules m) (word (u32 (a + 4)))); lia. }
  unfold Modules_add. cbn [mod_list start_modules end_modules].
  destruct (Z.ltb_spec (Z.of_nat (length (mod_list m))) ModulesMax) as [Hlt|Hge]; unfold ModulesMax in *;
    cbn [kassert mbind res_bind mret res_ret]; [|by rewrite decide_False by lia].
  rewrite IH; cbn [mod_list start_modules end_modules]; [|by right|rewrite length_app; cbn; lia].
  rewrite length_app. cbn [length]. case_decide as Hn.
  - subst n. by rewrite decide_True by lia.
  - replace (length (mod_list m) + 1 + n)%nat with (length (mod_list m) + S n)%nat by lia.
    case_decide; [|done]. by rewrite <- app_assoc.
Qed.

(** C6: [copyMemoryMap] passes on the available regions that do not
    end in the first megabyte, at most 32 of them, and panics when there is none
    or there are more; addresses and lengths are cut to 32 bits, so that a region
    behind 4 GB is passed on as one at the bottom of memory.  [Modules::init]
    registers as many modules as the loader says, all of them with the data of
    the first one. *)
Theorem boot_data maps word cstring flags count a :
  0 <= word a < 2 ^ 32 -> 0 <= word (u32 (a + 4)) < 2 ^ 32 -> 0 <= count ->
  copyMemoryMap maps =
    (if decide (0 < length (usable_maps maps) <= 32)%nat
     then Ok (segment_of <$> usable_maps maps) else Panic) /\
  Modules_init word cstring flags count a no_modules =
    (if decide (Z.land flags ModulesValid = 0 \/ count = 0) then Ok no_modules
     else if decide (count <= 32) then
       Ok (Mods (word a) (word (u32 (a + 4)))
         (replicate (Z.to_nat count) (Mod (u32 (word a + KernelVirtualBase))
            (u32 (word (u32 (a + 4)) - word a)) (take 255 (cstring (word (u32 (a + 8))))))))
     else Panic).
Proof.
  intros Hs He Hc. split.
  - unfold copyMemoryMap. rewrite map_loop_ok by (cbn; lia). cbn [length app orb]. rewrite Nat.add_0_l.
    destruct (usable_maps maps) as [|e l] eqn:Eu.
    + cbn [length]. rewrite (decide_True (P := (0 <= 32)%nat)) by lia.
      rewrite (decide_False (P := (0 < 0 <= 32)%nat)) by lia. done.
    + rewrite (bool_decide_eq_true_2 (e :: l <> [])) by done.
      destruct (decide (length (e :: l) <= 32)%nat) as [Hle|Hgt].
      * rewrite decide_True by (cbn in *; lia). done.
      * rewrite decide_False by lia. done.
  - unfold Modules_init. destruct (Z.eqb_spec (Z.land flags ModulesValid) 0) as [Hz|Hz]; cbn [negb].
    { rewrite decide_True by (by left). done. }
    rewrite modules_loop_ok; [|done|done|by left|cbn; lia]. cbn [mod_list no_modules app length].
    destruct (decide (count = 0)) as [->|Hn].
    + rewrite decide_True by done. rewrite decide_True by (by right). done.
    + rewrite decide_False by lia. rewrite (decide_False (P := _ \/ _)) by (intros [|]; done).
      destruct (decide (count <= 32)) as [Hle|Hgt].
      * by rewrite decide_True by lia.
      * by rewrite decide_False by lia.
Qed.

(** A machine with memory behind 4 GB, and two modules of one page each. *)
Lemma boot_data_witness :
  let maps := [Map 0 0x9fc00 1; Map 0x100000 0xff00000 1; Map 0x100000000 0x40000000 1] in
  let word a := if decide (a = 0x1000) then 0x200000 else if decide (a = 0x1004) then 0x201000
                else if decide (a = 0x1010) then 0x300000 else 0 in
  copyMemoryMap maps = Ok [Segment 0x100000 0xff00000; Segment 0 0x40000000] /\
  Modules_init word (fun _ => [109]) 8 2 0x1000 no_modules =
    Ok (Mods 0x200000 0x201000 [Mod 0xc0200000 0x1000 [109]; Mod 0xc0200000 0x1000 [109]]).
Proof.
  intros maps word. destruct (boot_data maps word (fun _ => [109]) 8 2 0x1000) as [H1 H2].
  - vm_compute. split; [discriminate|reflexivity].
  - vm_compute. split; [discriminate|reflexivity].
  - discriminate.
  - split; [rewrite H1; vm_compute; reflexivity|rewrite H2; vm_compute; reflexivity].
Defined.
