(* ===== verification/Acpi.v ===== *)
(** * The ACPI tables (X86/Acpi.cc)

    The driver looks for the root pointer in the extended BIOS data area and in
    the BIOS ROM, follows it to the root table, and creates an object for each
    interrupt controller that the table of interrupt controllers lists.  The
    physical memory is reached through [Memory::mapRegion],
    [Memory::unmapRegion] and [Memory::readPhysicalMemory], whose contracts are
    those of PageTables.v, MemoryMap.v and PhysRead.v; here they are a class, as
    are the constructors of the controllers.  Loads that only serve to print are
    left out. *)

From S2P Require Import Prelude Words.
From Stdlib Require Import ZArith Lia.
From stdpp Require Import prelude list.

Open Scope Z_scope.

(** ** The memory and the controllers *)

Class AcpiWorld (W : Type) := {
  mapRegion : Z -> Z -> W -> res (Z * W);
  unmapRegion : Z -> Z -> W -> res W;
  readPhysicalMemory : Z -> Z -> W -> res (list Z * W);
  load_byte : W -> Z -> res Z;
  LocalApic_new : Z -> W -> res W;
  IoApic_new : Z -> Z -> W -> res W;
}.

(** ** Constants (Include/X86/Bios.hh) *)

Definition X86_BIOS_EBDA_ADDRESS : Z := Z.shiftl 0x000e 4 + 0x0040.


(** "RSD PTR " and "APIC". *)
Definition rsdp_signature : list Z := [82; 83; 68; 32; 80; 84; 82; 32].
Definition madt_signature : list Z := [65; 80; 73; 67].


Section acpi.
Context {W : Type} `{AcpiWorld W}.
Implicit Types (w : W).










(** ** The table of interrupt controllers *)




(** ** The root table *)




(** ** The driver; the result of [init], the variables, and the world *)


End acpi.

(** ** What the memory promises *)

Inductive controller := NewLocalApic (address : Z) | NewIoApic (address id : Z).

(** A result that is neither a fault nor an endless loop; a panic, of the
    memory for want of addresses for example, is allowed. *)
Definition returns {A} (r : res A) (P : A -> Prop) : Prop :=
  match r with Ok x => P x | Panic => True | _ => False end.



(** What is readable stays readable. *)
Definition keeps {W} `{AcpiWorld W} (w w' : W) : Prop :=
  forall v b, load_byte w v = Ok b -> load_byte w' v = Ok b.

Fixpoint bytes_from (phys : Z -> Z) (a : Z) (n : nat) : list Z :=
  match n with O => [] | S n => phys a :: bytes_from phys (a + 1) n end.

Definition view {W} `{AcpiWorld W} (phys : Z -> Z) (w : W) (v a n : Z) : Prop :=
  forall i, 0 <= i < n -> load_byte w (v + i) = Ok (phys (a + i)).

(** [phys] is the contents of the physical memory, [made] the controllers that
    were created so far.  A region is mapped by whole pages, so that what can be
    read goes on to the end of its last page ([Memory::mapRegion]). *)
Class AcpiLaws (W : Type) `{AcpiWorld W} := {
  phys : Z -> Z;
  made : W -> list controller;
  law_phys a : 0 <= phys a < 256;
  law_map a n w : 0 <= a -> 0 <= n -> a + n + PageSize <= 2 ^ 32 -> returns (mapRegion a n w)
    (fun '(v, w') => 0 < v /\ view phys w' v a (roundTo (a + n) PageSize - a) /\ keeps w w' /\
      made w' = made w);
  law_read a n w : 0 <= a -> 0 <= n -> a + n + PageSize <= 2 ^ 32 -> returns (readPhysicalMemory a n w)
    (fun '(l, w') => l = bytes_from phys a (Z.to_nat n) /\ keeps w w' /\ made w' = made w);
  law_unmap v n w : returns (unmapRegion v n w) (fun w' => made w' = made w);
  law_lapic a w : returns (LocalApic_new a w)
    (fun w' => keeps w w' /\ made w' = made w ++ [NewLocalApic a]);
  law_ioapic a id w : returns (IoApic_new a id w)
    (fun w' => keeps w w' /\ made w' = made w ++ [NewIoApic a id]);
}.

Section contracts.
Context {W : Type} `{AcpiLaws W}.
Implicit Types (w : W).

Definition bytes (a : Z) (n : nat) : list Z := bytes_from phys a n.

(** The root pointer: the signature, and a checksum of 0. *)
Definition has_sig (a : Z) : Prop := bytes a 8 = rsdp_signature.
Definition is_rsdp (a : Z) : Prop := has_sig a /\ u8 (foldr Z.add 0 (bytes a 20)) = 0.

#[local] Instance is_rsdp_dec a : Decision (is_rsdp a).
Proof. unfold is_rsdp, has_sig. apply _. Defined.



(** An entry of the table of interrupt controllers. *)
Record madt_entry : Type := Ent { me_type : Z; me_payload : list Z }.

Definition encode (e : madt_entry) : list Z :=
  me_type e :: (2 + Z.of_nat (length (me_payload e))) :: me_payload e.







(** *** Bytes *)














(** *** The search *)







(** The extended BIOS data area, by the word that is read for it. *)
Definition ebda_area : Z := Z.shiftl (le_word (bytes X86_BIOS_EBDA_ADDRESS 2)) 4.















(** *** The table of interrupt controllers *)








(** *** The tables *)





End contracts.

(** A machine whose addresses are the physical ones plus 1 GB.  The area that is
    searched is at 0x400, the root pointer at 0x410, the root table at 0x2000, the table of interrupt controllers
    at 0x3000. *)
Module Sample.
Definition entries : list madt_entry :=
  [Ent 0 [0; 0; 1; 0; 0; 0]; Ent 1 [2; 0; 0; 0; 192; 254; 0; 0; 0; 0]; Ent 4 [255; 0; 0; 1]].

Fixpoint at_segment (segments : list (Z * list Z)) (a : Z) : Z :=
  match segments with
  | [] => 0
  | (base, l) :: segments =>
      if (base <=? a) && (a <? base + Z.of_nat (length l))
      then List.nth (Z.to_nat (a - base)) l 0 else at_segment segments a
  end.

Definition segments : list (Z * list Z) :=
  [(0x120, [64; 0]); (0x410, rsdp_signature ++ [193] ++ replicate 7 0 ++ [0; 32; 0; 0]);
   (0x2004, [40; 0; 0; 0]); (0x2024, [0; 48; 0; 0]);
   (0x3000, madt_signature ++ [70; 0; 0; 0]); (0x3024, [0; 0; 224; 254]);
   (0x302c, mjoin (encode <$> entries))].

Definition memory : Z -> Z := at_segment segments.

Definition window : Z := 0x40000000.

#[global] Instance world : AcpiWorld (list controller) := {|
  mapRegion := fun a _ w => Ok (window + a, w);
  unmapRegion := fun _ _ w => Ok w;
  readPhysicalMemory := fun a n w => Ok (bytes_from memory a (Z.to_nat n), w);
  load_byte := fun _ v => Ok (memory (v - window));
  LocalApic_new := fun a w => Ok (w ++ [NewLocalApic a]);
  IoApic_new := fun a id w => Ok (w ++ [NewIoApic a id]);
|}.

Lemma segment_byte l a : Forall (fun s => bytes_ok s.2) l -> 0 <= at_segment l a < 256.
Proof.
  induction 1 as [|[base k] l Hk _ IH]; cbn [at_segment]; [lia|].
  destruct (_ && _); [|exact IH].
  destruct (List.nth_in_or_default (Z.to_nat (a - base)) k 0) as [Hi|E]; [|rewrite E; lia].
  apply (proj1 (Forall_forall byte_ok k) Hk), list_elem_of_In, Hi.
Qed.

Lemma memory_byte a : 0 <= memory a < 256.
Proof.
  apply segment_byte. repeat (constructor; [repeat (constructor; [by split; vm_compute|]); constructor|]).
  constructor.
Qed.

#[global] Program Instance laws : AcpiLaws (list controller) := {|
  phys := memory;
  made := fun w => w;
  law_phys := memory_byte;
|}.
Next Obligation.
  intros a n w Ha _ _.
  change (0 < window + a /\ view memory w (window + a) a (roundTo (a + n) PageSize - a) /\
    keeps w w /\ w = w).
  split; [unfold window; lia|]. split; [|split; [by intros v b Hb|done]]. intros i Hi.
  change (Ok (memory (window + a + i - window)) = Ok (memory (a + i))).
  assert (window + a + i - window = a + i) as E by (generalize window; lia). by rewrite E.
Qed.
Next Obligation. intros a n w _ _ _. split; [done|]. split; [by intros v b Hb|done]. Qed.
Next Obligation. done. Qed.
Next Obligation. intros a w. split; [by intros v b Hb|done]. Qed.
Next Obligation. intros a id w. split; [by intros v b Hb|done]. Qed.



Lemma ebda_sample : ebda_area (W := list controller) = 0x400.
Proof. vm_compute. reflexivity. Qed.

End Sample.

