(* ===== verification/Heap.v ===== *)
(** * The kernel heap

    Models Include/Segment.hh, Include/SegmentList.hh, Kernel/Heap.cc and
    CLibrary/stdlib/malloc.cc.  A block is a [Segment] header followed by
    [getSize()] bytes; free blocks are on an intrusive list ([SegmentList]),
    first fit, never split or merged; when no free block is large enough the
    heap maps a new region ([RegionMapper], which Kernel/Memory.cc implements).

    The contract: an allocated block is at least as large as asked for, was not
    allocated before, is zeroed, and is disjoint from every other block
    ([heap_ok]); [deallocate] makes it available again. *)

From S2P Require Import Prelude.
From S2P Require Import Words.
From S2P Require Import Ring.
From S2P Require Import PhysPages.
From S2P Require Import PageTables.
From S2P Require Import MemoryMap.
From Stdlib Require Import ZArith Lia.
From stdpp Require Import prelude gmap list.

Open Scope Z_scope.

(** ** What the heap asks of the memory manager *)

Class RegionMapper (B : Type) := {
  rm_map : Z -> B -> res (Z * B);      (** [Memory::mapAnonymousRegion(size)] *)
  rm_brk : B -> Z;                     (** lowest address handed out so far *)
  rm_ok : B -> Prop;
  rm_floor : Z;                        (** end of the kernel image *)
  rm_spec : forall size b v b', rm_ok b -> 0 <= size -> size + PageMask < 2 ^ 32 ->
    rm_map size b = Ok (v, b') ->
    rm_ok b' /\ rm_brk b' = v /\ v + roundTo size PageSize = rm_brk b /\
    rm_floor < v /\ v mod PageSize = 0;
  rm_range : forall b, rm_ok b -> 0 <= rm_brk b < 2 ^ 32;
  rm_floor_nonneg : 0 <= rm_floor;
}.

(** Kernel/Memory.cc keeps that promise. *)
#[export] Program Instance mm_region_mapper (K : KernelImage) (Hk : 0 <= end_kernel) :
    RegionMapper mm := {|
  rm_map := fun size m => mapAnonymousRegion size Flags.None m;
  rm_brk := mm_mapEnd;
  rm_ok := fun m => exists fl ul, mm_ok m fl ul;
  rm_floor := end_kernel;
|}.
Next Obligation.
  intros K Hk size m v m' (fl & ul & Hok) Hs Hl Hrun.
  destruct (mapAnonymousRegion_ok m fl ul size Flags.None v m' Hok Hs Hl Hk Hrun)
    as (H1 & _ & H2 & H3 & ul' & Hok' & HE & _).
  destruct (roundTo_bounds size Hs Hl) as (Hb & k & Hkr).
  rewrite Hkr, Z.div_mul in H1 by done. rewrite Hkr.
  split; [by eexists _, _|]. unfold PageSize in *. split_and!; try done. lia.
Qed.
Next Obligation.
  intros K Hk m (fl & ul & [_ _ He _]).
  unfold MapStart, KernelStackStart, KernelStackSize, PageTableBase in He. lia.
Qed.
Next Obligation. intros K Hk. exact Hk. Qed.

(** ** Segment *)

(** The fields of a [Segment] besides its links; [s_pad] are the two bytes of
    padding that the checksum also covers. *)
Record seg : Type := Seg {
  s_size : Z;
  s_alloc : bool;
  s_checksum : Z;
  s_pad : Z * Z;
}.

Abbreviation seg_store := (gmap Z (node seg)).

(** [sizeof(Segment)]: two words of links, a size, two bytes, aligned to 16. *)
Definition SegmentSize : Z := 16.

Definition segment_bytes (n : node seg) : list Z :=
  le_bytes 4 (s_size (n_val n)) ++ le_bytes 4 (n_prev n) ++ le_bytes 4 (n_next n) ++
  [if s_alloc (n_val n) then 1 else 0; u8 (s_checksum (n_val n));
   u8 (s_pad (n_val n)).1; u8 (s_pad (n_val n)).2].

Definition xor_bytes (l : list Z) : Z := fold_left Z.lxor l 0.

Definition with_val (f : seg -> seg) (n : node seg) : node seg :=
  Node (n_prev n) (n_next n) (f (n_val n)).

Definition seg_set_checksum (c : Z) (s : seg) : seg := Seg (s_size s) (s_alloc s) c (s_pad s).
Definition seg_set_size (z : Z) (s : seg) : seg := Seg z (s_alloc s) (s_checksum s) (s_pad s).
Definition seg_set_alloc (b : bool) (s : seg) : seg := Seg (s_size s) b (s_checksum s) (s_pad s).

(** [checksum = 0], then the exclusive or of all the bytes of the object. *)
Definition updateChecksum_node (n : node seg) : node seg :=
  let n := with_val (seg_set_checksum 0) n in
  with_val (seg_set_checksum (xor_bytes (segment_bytes n))) n.

Definition verifyChecksum_node (n : node seg) : bool := xor_bytes (segment_bytes n) =? 0.

(** Apply a member function of the segment at [p]. *)
Definition on_seg (f : node seg -> node seg) (p : loc) (st : seg_store) : res seg_store :=
  n ← deref (st !! p);
  mret (<[p := f n]> st).

Definition updateChecksum (p : loc) (st : seg_store) := on_seg updateChecksum_node p st.
Definition markAllocated (p : loc) (st : seg_store) := on_seg (with_val (seg_set_alloc true)) p st.
Definition markUnallocated (p : loc) (st : seg_store) := on_seg (with_val (seg_set_alloc false)) p st.
Definition setSize (z : Z) (p : loc) (st : seg_store) := on_seg (with_val (seg_set_size z)) p st.
Definition getSize (st : seg_store) (p : loc) : res Z := s_size <$> get_val st p.
Definition isAllocated (st : seg_store) (p : loc) : res bool := s_alloc <$> get_val st p.
Definition segment_address (p : loc) : Z := u32 (p + SegmentSize).

(** [new (data) Segment] on zeroed memory *)
Definition new_segment (p : loc) (st : seg_store) : seg_store :=
  <[p := updateChecksum_node (Node p p (Seg 0 false 0 (0, 0)))]> st.

(** ** SegmentList *)

Record seglist : Type := SegList { sl_head : loc; sl_count : Z }.

Definition sl_begin (st : seg_store) (l : seglist) : res loc := get_next st (sl_head l).
Definition sl_end (l : seglist) : loc := sl_head l.

Definition sl_add (l : seglist) (item : loc) (st : seg_store) : res (seg_store * seglist) :=
  prev ← get_prev st (sl_head l);
  let next := sl_head l in
  st ← set_next st item next;
  st ← set_prev st item prev;
  st ← set_next st prev item;
  st ← set_prev st next item;
  mret (st, SegList (sl_head l) (u32 (sl_count l + 1))).

Definition sl_remove (l : seglist) (item : loc) (st : seg_store)
    : res (loc * seg_store * seglist) :=
  oldNext ← get_next st item;
  oldPrev ← get_prev st item;
  st ← set_next st oldPrev oldNext;
  st ← set_prev st oldNext oldPrev;
  mret (oldNext, st, SegList (sl_head l) (u32 (sl_count l - 1))).

(** ** Heap *)

(** Contents of memory, by address. *)
Abbreviation bytes := (Z -> Z).

Definition memset (a c n : Z) (m : bytes) : bytes :=
  fun x => if (a <=? x) && (x <? a + n) then c else m x.

Definition memcpy (dst src n : Z) (m : bytes) : bytes :=
  fun x => if (dst <=? x) && (x <? dst + n) then m (src + (x - dst)) else m x.

Record heap (B : Type) : Type := HeapState {
  hp_st : seg_store;
  hp_free : seglist;
  hp_mem : bytes;
  hp_back : B;
}.

Arguments HeapState {B} _ _ _ _.
Arguments hp_st {B} _.
Arguments hp_free {B} _.
Arguments hp_mem {B} _.
Arguments hp_back {B} _.

Section heap_ops.
Context {B : Type} `{RegionMapper B}.

Definition headerOf (data : Z) : loc := u32 (data - SegmentSize).

Definition allocateBackend (size : Z) (h : heap B) : res (Z * heap B) :=
  let rsize := roundTo size PageSize in
  '(data, b) ← rm_map rsize (hp_back h);
  kassert (negb (data =? 0));;
  mret (data, HeapState (hp_st h) (hp_free h) (memset data 0 rsize (hp_mem h)) b).

(** The search of the free list: the first segment that is large enough. *)
Fixpoint find_fit (fuel : nat) (st : seg_store) (l : seglist) (s size : Z) : res (option loc) :=
  match fuel with
  | O => NoFuel
  | S fuel =>
      if s =? sl_end l then mret None
      else
        z ← getSize st s;
        if size <=? z then mret (Some s)
        else
          s' ← get_next st s;
          find_fit fuel st l s' size
  end.

Definition allocate (fuel : nat) (size : Z) (h : heap B) : res (Z * heap B) :=
  first ← sl_begin (hp_st h) (hp_free h);
  fit ← find_fit fuel (hp_st h) (hp_free h) first size;
  match fit with
  | Some s =>
      '(_, st, l) ← sl_remove (hp_free h) s (hp_st h);
      st ← updateChecksum s st;
      st ← markAllocated s st;
      z ← getSize st s;
      mret (segment_address s,
            HeapState st l (memset (segment_address s) 0 z (hp_mem h)) (hp_back h))
  | None =>
      let rsize := roundTo (u32 (size + SegmentSize)) PageSize in
      '(segment, h) ← allocateBackend rsize h;
      let st := new_segment segment (hp_st h) in
      st ← setSize (u32 (rsize - SegmentSize)) segment st;
      st ← markAllocated segment st;
      st ← updateChecksum segment st;
      mret (segment_address segment, HeapState st (hp_free h) (hp_mem h) (hp_back h))
  end.

Definition deallocate (data : Z) (h : heap B) : res (heap B) :=
  let segment := headerOf data in
  a ← isAllocated (hp_st h) segment;
  kassert a;;
  st ← markUnallocated segment (hp_st h);
  '(st, l) ← sl_add (hp_free h) segment st;
  st ← updateChecksum segment st;
  mret (HeapState st l (hp_mem h) (hp_back h)).

Definition reallocate (fuel : nat) (data size : Z) (h : heap B) : res (Z * heap B) :=
  let segment := headerOf data in
  oldSize ← getSize (hp_st h) segment;
  if size =? 0 then
    h ← deallocate data h;
    mret (0, h)
  else
    '(newData, h) ← allocate fuel size h;
    if negb (data =? 0) then
      let h := HeapState (hp_st h) (hp_free h) (memcpy newData data oldSize (hp_mem h)) (hp_back h) in
      h ← deallocate data h;
      mret (newData, h)
    else mret (newData, h).

(** CLibrary/stdlib/malloc.cc *)
Definition calloc (fuel : nat) (nelem elemsz : Z) (h : heap B) : res (Z * heap B) :=
  let size := u32 (nelem * elemsz) in
  '(mem, h) ← allocate fuel size h;
  mret (mem, HeapState (hp_st h) (hp_free h) (memset mem 0 size (hp_mem h)) (hp_back h)).
End heap_ops.

(** ** Segments and their checksum *)

Lemma with_val_links f (n : node seg) :
  n_prev (with_val f n) = n_prev n /\ n_next (with_val f n) = n_next n.
Proof. done. Qed.

Lemma xor_bytes_app l k : xor_bytes (l ++ k) = Z.lxor (xor_bytes l) (xor_bytes k).
Proof.
  unfold xor_bytes. rewrite fold_left_app. generalize (fold_left Z.lxor l 0). intros a.
  assert (forall a b, fold_left Z.lxor k (Z.lxor a b) = Z.lxor a (fold_left Z.lxor k b)) as Hk.
  { induction k as [|x k IH]; intros u b; cbn; [done|]. by rewrite Z.lxor_assoc, IH. }
  rewrite <-(Z.lxor_0_r a) at 1. apply Hk.
Qed.

Lemma xor_bytes_cons b l : xor_bytes (b :: l) = Z.lxor b (xor_bytes l).
Proof. change (b :: l) with ([b] ++ l). rewrite xor_bytes_app. done. Qed.

Lemma xor_bytes_ok l : bytes_ok l -> byte_ok (xor_bytes l).
Proof.
  induction 1; [vm_compute; split; congruence|]. rewrite xor_bytes_cons.
  apply uint_lxor; auto. lia.
Qed.

Lemma segment_bytes_ok n : bytes_ok (segment_bytes n).
Proof.
  unfold segment_bytes. repeat apply Forall_app_2; try apply le_bytes_ok.
  repeat constructor; try (by apply wrap_range). all: destruct (s_alloc _); lia.
Qed.

(** The bytes of a segment before and after its checksum byte. *)
Definition bytes_before (n : node seg) : list Z :=
  le_bytes 4 (s_size (n_val n)) ++ le_bytes 4 (n_prev n) ++ le_bytes 4 (n_next n) ++
  [if s_alloc (n_val n) then 1 else 0].
Definition bytes_after (n : node seg) : list Z :=
  [u8 (s_pad (n_val n)).1; u8 (s_pad (n_val n)).2].

Lemma segment_bytes_split n : xor_bytes (segment_bytes n) =
  Z.lxor (u8 (s_checksum (n_val n)))
    (Z.lxor (xor_bytes (bytes_before n)) (xor_bytes (bytes_after n))).
Proof.
  assert (segment_bytes n = bytes_before n ++ u8 (s_checksum (n_val n)) :: bytes_after n) as ->.
  { unfold segment_bytes, bytes_before, bytes_after. by rewrite <-!app_assoc. }
  rewrite xor_bytes_app, xor_bytes_cons.
  rewrite <-!Z.lxor_assoc. f_equal. apply Z.lxor_comm.
Qed.

Lemma segment_xor_ok n :
  byte_ok (Z.lxor (xor_bytes (bytes_before n)) (xor_bytes (bytes_after n))).
Proof.
  apply uint_lxor; [lia|apply xor_bytes_ok..].
  - unfold bytes_before. repeat apply Forall_app_2; try apply le_bytes_ok.
    repeat constructor; destruct (s_alloc _); lia.
  - repeat constructor; apply wrap_range; lia.
Qed.

(** A segment whose checksum was just updated verifies; from then on it
    verifies exactly while the exclusive or of its other bytes is unchanged. *)
Lemma updateChecksum_verifies n n' :
  verifyChecksum_node (updateChecksum_node n) = true /\
  (s_checksum (n_val n') = s_checksum (n_val (updateChecksum_node n)) ->
   verifyChecksum_node n' = true <->
   Z.lxor (xor_bytes (bytes_before n')) (xor_bytes (bytes_after n'))
   = Z.lxor (xor_bytes (bytes_before n)) (xor_bytes (bytes_after n))).
Proof.
  set (x := Z.lxor (xor_bytes (bytes_before n)) (xor_bytes (bytes_after n))).
  assert (Hc : s_checksum (n_val (updateChecksum_node n)) = x).
  { unfold updateChecksum_node. cbn [with_val n_val seg_set_checksum s_checksum].
    rewrite segment_bytes_split. cbn [with_val n_val seg_set_checksum s_checksum].
    change (u8 0) with 0. by rewrite Z.lxor_0_l. }
  assert (Hx : u8 x = x) by (apply wrap_id, segment_xor_ok).
  unfold verifyChecksum_node. split.
  - rewrite segment_bytes_split, Hc, Hx. apply Z.eqb_eq, Z.lxor_eq_0_iff. done.
  - intros Hn. rewrite segment_bytes_split, Hn, Hc, Hx, Z.eqb_eq, Z.lxor_eq_0_iff.
    split; congruence.
Qed.

(** The order of [allocate]'s free-list path: the checksum is refreshed before
    the [allocated] byte is set, so the header handed out no longer verifies. *)
Lemma stale_checksum n :
  s_alloc (n_val n) = false ->
  verifyChecksum_node (with_val (seg_set_alloc true) (updateChecksum_node n)) = false.
Proof.
  intros Ha. destruct (updateChecksum_verifies n
    (with_val (seg_set_alloc true) (updateChecksum_node n))) as [_ H].
  apply not_true_iff_false. rewrite H by by destruct (updateChecksum_node n) as [?? []].
  clear H.
  unfold bytes_before, bytes_after.
  cbn [with_val n_val n_prev n_next seg_set_alloc updateChecksum_node seg_set_checksum
       s_size s_alloc s_pad]. rewrite Ha.
  rewrite !xor_bytes_app. generalize (xor_bytes (le_bytes 4 (s_size (n_val n)))).
  generalize (xor_bytes (le_bytes 4 (n_prev n))), (xor_bytes (le_bytes 4 (n_next n))).
  intros a b c Heq. change (xor_bytes [1]) with 1 in Heq. change (xor_bytes [0]) with 0 in Heq.
  apply (f_equal (λ z, Z.testbit z 0)) in Heq. rewrite !Z.lxor_spec in Heq.
  change (Z.testbit 1 0) with true in Heq. change (Z.testbit 0 0) with false in Heq.
  destruct (Z.testbit a 0), (Z.testbit b 0), (Z.testbit c 0), (Z.testbit (xor_bytes _) 0);
    discriminate Heq.
Qed.

(** ** Lists of segments *)

(** Only links change: payloads and allocation are those of before. *)
Definition same_payload (st st' : seg_store) : Prop :=
  (forall a, vl st' a = vl st a) /\ (forall a, is_Some (st' !! a) <-> is_Some (st !! a)).

Lemma sl_add_ok st l x c : ring st (sl_head c) l -> x ∉ sl_head c :: l -> is_Some (st !! x) ->
  exists st', sl_add c x st = Ok (st', SegList (sl_head c) (u32 (sl_count c + 1))) /\
    ring st' (sl_head c) (l ++ [x]) /\ same_payload st st'.
Proof.
  intros Hr Hx Ha. set (h := sl_head c) in *.
  assert (Hp : get_prev st h = Ok (last_of h l)) by by apply get_prev_ok, ring_last.
  assert (Hl := last_of_in h l).
  assert (is_Some (st !! last_of h l)) by by eapply ring_dom.
  assert (is_Some (st !! h)) by (eapply ring_dom; [done|left]).
  assert (x <> last_of h l /\ x <> h) as [Hxl Hxh].
  { split; eapply elem_neq; try exact Hx; [done|left]. }
  unfold sl_add. fold h. rewrite Hp. cbn [mbind res_bind].
  do_write. do_write; [naive_solver|]. do_write; [naive_solver|]. do_write; [naive_solver|].
  eexists. split; [done|]. split.
  - apply (ring_insert st _ h l [] x (last_of h l) h); rewrite ?app_nil_r; auto.
    all: intros; rewrite ?Hpv2, ?Hpv1, ?Hpv0, ?Hpv, ?Hnx2, ?Hnx1, ?Hnx0, ?Hnx;
      repeat case_decide; congruence.
  - split; intros a; [by rewrite Hvl2, Hvl1, Hvl0, Hvl | by rewrite Hdom2, Hdom1, Hdom0, Hdom].
Qed.

Lemma sl_remove_ok st l k x c : ring st (sl_head c) (l ++ x :: k) ->
  exists st', sl_remove c x st
      = Ok (List.hd (sl_head c) k, st', SegList (sl_head c) (u32 (sl_count c - 1))) /\
    ring st' (sl_head c) (l ++ k) /\ same_payload st st'.
Proof.
  intros Hr. set (h := sl_head c) in *.
  assert (Hd := proj2 Hr). apply dseg_app in Hd as [Hd1 Hd2].
  assert (Hpp : get_prev st x = Ok (last_of h l)) by (apply get_prev_ok; by apply dseg_last).
  assert (Hpn : get_next st x = Ok (List.hd h k)).
  { apply get_next_ok. destruct k; cbn in *; tauto. }
  assert (Hlast := last_of_in h l). assert (Hhd := hd_in h k).
  assert (is_Some (st !! last_of h l)).
  { eapply ring_dom; [exact Hr|]. clear -Hlast; set_solver. }
  assert (is_Some (st !! List.hd h k)).
  { eapply ring_dom; [exact Hr|]. clear -Hhd; set_solver. }
  unfold sl_remove. rewrite Hpn, Hpp. cbn [mbind res_bind].
  do_write. do_write; [naive_solver|].
  eexists. split; [done|]. split.
  - eapply (ring_remove st _ h l k x); [exact Hr|done|done|..];
      intros; rewrite ?Hpv0, ?Hpv, ?Hnx0, ?Hnx; repeat case_decide; congruence.
  - split; intros a; [by rewrite Hvl0, Hvl | by rewrite Hdom0, Hdom].
Qed.

(** A member function that keeps the links. *)
Definition keeps_links (f : node seg -> node seg) : Prop :=
  forall n, n_prev (f n) = n_prev n /\ n_next (f n) = n_next n.

Lemma on_seg_ok f p st n : st !! p = Some n -> keeps_links f ->
  exists st', on_seg f p st = Ok st' /\ st' !! p = Some (f n) /\
    (forall a, nx st' a = nx st a) /\ (forall a, pv st' a = pv st a) /\
    (forall a, vl st' a = if decide (a = p) then Some (n_val (f n)) else vl st a).
Proof.
  intros Hn Hf. unfold on_seg. rewrite Hn. cbn. eexists. split; [done|].
  split; [by rewrite lookup_insert_eq|]. unfold nx, pv, vl. destruct (Hf n) as [Hp Hx].
  split_and!; intros a; rewrite lookup_insert; repeat case_decide; subst; cbn;
    rewrite ?Hn; cbn; congruence.
Qed.

Lemma keeps_with_val f : keeps_links (with_val f).
Proof. done. Qed.

Lemma keeps_checksum : keeps_links updateChecksum_node.
Proof. done. Qed.

Lemma updateChecksum_val n : s_size (n_val (updateChecksum_node n)) = s_size (n_val n) /\
  s_alloc (n_val (updateChecksum_node n)) = s_alloc (n_val n).
Proof. done. Qed.

(** ** The state of the heap *)

Definition SegmentTop : Z := 2 ^ 32.

Section heap_inv.
Context {B : Type} `{RegionMapper B}.
Implicit Types (h : heap B) (p q : loc) (s t : seg).

(** The segment at [p], other than the list's sentinel. *)
Definition block h p s : Prop := p <> sl_head (hp_free h) /\ vl (hp_st h) p = Some s.

Record heap_ok h (fl : list loc) : Prop := {
  ho_back : rm_ok (hp_back h);
  ho_ring : ring (hp_st h) (sl_head (hp_free h)) fl;
  ho_count : sl_count (hp_free h) = u32 (Z.of_nat (length fl));
  ho_head : sl_head (hp_free h) <= rm_floor;
  ho_range : forall p s, block h p s -> rm_brk (hp_back h) <= p /\ 0 <= s_size s /\
    p + SegmentSize + s_size s <= SegmentTop - 1;
  ho_free : forall p s, block h p s -> s_alloc s = false <-> p ∈ fl;
  ho_disj : forall p q s t, block h p s -> block h q t -> p <> q ->
    p + SegmentSize + s_size s <= q \/ q + SegmentSize + s_size t <= p;
}.

(** [p] is an allocated block of [z] bytes, whose data is at [p + 16]. *)
Definition live h p (z : Z) : Prop := exists s, block h p s /\ s_alloc s = true /\ s_size s = z.

Lemma block_dom h fl p : heap_ok h fl -> p ∈ fl -> exists s, block h p s /\ s_alloc s = false.
Proof.
  intros Hok Hp. destruct (ring_dom _ _ _ p (ho_ring _ _ Hok)) as [n Hn]; [by right|].
  assert (block h p (n_val n)) as Hb.
  { split; [|unfold vl; by rewrite Hn].
    destruct (ho_ring _ _ Hok) as [Hnd _]. apply NoDup_cons in Hnd as [Hh _].
    eapply elem_neq'; eauto. }
  exists (n_val n). split; [done|]. by apply (ho_free _ _ Hok _ _ Hb).
Qed.

Lemma block_node h p s : block h p s -> exists n, hp_st h !! p = Some n /\ n_val n = s.
Proof. intros [_ Hv]. unfold vl in Hv. destruct (hp_st h !! p); naive_solver. Qed.

Lemma block_size h p s : block h p s -> getSize (hp_st h) p = Ok (s_size s).
Proof. intros (n & Hn & <-)%block_node. unfold getSize, get_val. by rewrite Hn. Qed.

(** Replacing the store, the list and the mapper: what must be re-checked. *)
Definition size_of h p : Z := default 0 (s_size <$> vl (hp_st h) p).

(** First fit. *)
Definition fits h (size : Z) p : bool := size <=? size_of h p.

Lemma find_fit_ok h a l size fuel x :
  dseg (hp_st h) a l (sl_head (hp_free h)) -> x = List.hd (sl_head (hp_free h)) l ->
  sl_head (hp_free h) ∉ l -> (forall p, p ∈ l -> exists s, block h p s) ->
  (length l < fuel)%nat ->
  find_fit fuel (hp_st h) (hp_free h) x size = Ok (List.find (fits h size) l).
Proof.
  revert a x fuel; induction l as [|p l IH]; intros a x [|fuel] Hd -> Hh Hb Hf; try (cbn in Hf; lia).
  - cbn. unfold sl_end. by rewrite Z.eqb_refl.
  - cbn [find_fit List.hd List.find]. unfold sl_end.
    rewrite (proj2 (Z.eqb_neq _ _)) by (eapply elem_neq'; [exact Hh|left]).
    destruct (Hb p ltac:(left)) as [s Hs]. rewrite (block_size _ _ _ Hs). cbn [mbind res_bind].
    assert (fits h size p = (size <=? s_size s)) as ->.
    { unfold fits, size_of. destruct Hs as [_ ->]. done. }
    destruct (size <=? s_size s); [done|].
    destruct Hd as (_ & _ & Hd).
    assert (get_next (hp_st h) p = Ok (List.hd (sl_head (hp_free h)) l)) as ->.
    { apply get_next_ok. destruct l; cbn in Hd; tauto. }
    cbn [mbind res_bind]. eapply IH; eauto; [set_solver|set_solver|cbn in Hf; lia].
Qed.

Lemma heap_find_fit h fl size fuel : heap_ok h fl -> (length fl < fuel)%nat ->
  (first ← sl_begin (hp_st h) (hp_free h);
   find_fit fuel (hp_st h) (hp_free h) first size) = Ok (List.find (fits h size) fl).
Proof.
  intros Hok Hf. destruct (ho_ring _ _ Hok) as [Hnd Hd]. unfold sl_begin.
  rewrite (proj2 (get_next_ok _ _ _) (ring_first _ _ _ (ho_ring _ _ Hok))).
  cbn [mbind res_bind]. eapply find_fit_ok; eauto.
  - by apply NoDup_cons in Hnd as [? _].
  - intros p Hp. destruct (block_dom _ _ _ Hok Hp) as (s & ? & _). eauto.
Qed.

(** Rebuilding the invariant when only the link structure and the
    [allocated] flag of one block [p] change. *)
Lemma heap_ok_relink h h' fl fl' p b s :
  heap_ok h fl -> block h p s ->
  hp_back h' = hp_back h -> sl_head (hp_free h') = sl_head (hp_free h) ->
  sl_count (hp_free h') = u32 (Z.of_nat (length fl')) ->
  ring (hp_st h') (sl_head (hp_free h)) fl' ->
  (forall q, q <> p -> vl (hp_st h') q = vl (hp_st h) q) ->
  (exists s', vl (hp_st h') p = Some s' /\ s_size s' = s_size s /\ s_alloc s' = b) ->
  (b = false <-> p ∈ fl') -> (forall q, q <> p -> q ∈ fl' <-> q ∈ fl) ->
  heap_ok h' fl'.
Proof.
  intros [Hb Hr Hc Hh Hrg Hfr Hdj] Hp Eb Eh Ec Er Ev (s' & Es & Ez & Ea) Hpb Hq.
  assert (HB : forall q t, block h' q t -> exists t0, block h q t0 /\ s_size t0 = s_size t /\
    (q = p /\ s_alloc t = b \/ q <> p /\ t0 = t)).
  { intros q t [Hne Hv]. rewrite Eh in Hne. destruct (decide (q = p)) as [->|Hqp].
    - rewrite Es in Hv. injection Hv as <-. exists s. split; [done|]. split; [done|]. by left.
    - rewrite Ev in Hv by done. exists t. split; [done|]. split; [done|]. by right. }
  constructor; rewrite ?Eb, ?Eh; auto.
  - intros q t Hbt. destruct (HB _ _ Hbt) as (t0 & Hb0 & <- & _). by apply Hrg.
  - intros q t Hbt. destruct (HB _ _ Hbt) as (t0 & Hb0 & _ & [[-> ->]|[Hne ->]]); [done|].
    rewrite Hq by done. by apply Hfr.
  - intros q r t u Hbt Hbu Hne. destruct (HB _ _ Hbt) as (t0 & Ht0 & <- & _).
    destruct (HB _ _ Hbu) as (u0 & Hu0 & <- & _). by eapply Hdj.
Qed.
End heap_inv.

Lemma memset_in a c n m x : a <= x < a + n -> memset a c n m x = c.
Proof. intros. unfold memset. destruct (_ && _) eqn:E; [done|]. lia. Qed.

Lemma memset_out a c n m x : ~ (a <= x < a + n) -> memset a c n m x = m x.
Proof. intros. unfold memset. destruct (_ && _) eqn:E; [|done]. lia. Qed.

Section heap_thms.
Context {B : Type} `{RegionMapper B}.
Implicit Types (h : heap B) (p q : loc) (s t : seg).

(** What an allocation of [size] bytes that returned [a] did. *)
Definition alloc_post h h' (size a : Z) : Prop :=
  exists p z, a = p + SegmentSize /\ live h' p z /\ size <= z /\
    (forall z', ~ live h p z') /\
    (forall q z', q <> p -> live h' q z' <-> live h q z') /\
    (forall x, a <= x < a + z -> hp_mem h' x = 0) /\
    (forall x, ~ (p <= x < a + z) -> hp_mem h' x = hp_mem h x).

Lemma live_relink h h' p :
  sl_head (hp_free h') = sl_head (hp_free h) ->
  (forall q, q <> p -> vl (hp_st h') q = vl (hp_st h) q) ->
  forall q z, q <> p -> live h' q z <-> live h q z.
Proof.
  intros Eh Ev q z Hne. unfold live, block. rewrite Eh. by setoid_rewrite (Ev q Hne).
Qed.

Lemma live_not_free h fl p z : heap_ok h fl -> p ∈ fl -> ~ live h p z.
Proof.
  intros Hok Hp (s & Hs & Ha & _). apply (ho_free _ _ Hok _ _ Hs) in Hp. congruence.
Qed.

Lemma segment_address_eq h fl p s : heap_ok h fl -> block h p s ->
  segment_address p = p + SegmentSize /\ headerOf (p + SegmentSize) = p.
Proof.
  intros Hok Hs. destruct (ho_range _ _ Hok _ _ Hs) as (Hb & Hz & Ht).
  pose proof (rm_range _ (ho_back _ _ Hok)). unfold SegmentTop, SegmentSize in *.
  unfold segment_address, headerOf, SegmentSize.
  rewrite !wrap_id by (unfold uint; lia). lia.
Qed.

(** The free-list path. *)
Lemma allocate_fit h fl size fuel p :
  heap_ok h fl -> (length fl < fuel)%nat -> Z.of_nat (length fl) < 2 ^ 32 ->
  List.find (fits h size) fl = Some p ->
  exists h' fl', allocate fuel size h = Ok (p + SegmentSize, h') /\
    heap_ok h' fl' /\ alloc_post h h' size (p + SegmentSize) /\
    hp_back h' = hp_back h /\ p :: fl' ≡ₚ fl /\
    (exists n, hp_st h' !! p = Some n /\ verifyChecksum_node n = false).
Proof.
  intros Hok Hfuel Hlen Hfind. unfold allocate.
  pose proof (heap_find_fit h fl size fuel Hok Hfuel) as Hff.
  apply res_bind_ok in Hff as (first & E1 & E2). rewrite E1. cbn [mbind res_bind].
  rewrite E2, Hfind. cbn [mbind res_bind].
  destruct (List.find_some _ _ Hfind) as [Hin Hfit]. apply list_elem_of_In in Hin.
  destruct (block_dom _ _ _ Hok Hin) as (s & Hs & Hfree).
  destruct (segment_address_eq _ _ _ _ Hok Hs) as [Haddr _].
  apply list_elem_of_split in Hin as (l & k & ->).
  destruct (sl_remove_ok (hp_st h) l k p (hp_free h) (ho_ring _ _ Hok))
    as (st1 & R1 & Hr1 & Hv1 & Hd1). rewrite R1. cbn [mbind res_bind].
  destruct (block_node _ _ _ Hs) as (n & Hn & Hns).
  assert (exists n1, st1 !! p = Some n1 /\ n_val n1 = s) as (n1 & Hn1 & Hns1).
  { specialize (Hv1 p). unfold vl in Hv1. rewrite Hn in Hv1. cbn in Hv1.
    destruct (st1 !! p) as [n1|]; [|done]. exists n1. split; [done|]. naive_solver. }
  destruct (on_seg_ok updateChecksum_node p st1 n1 Hn1 keeps_checksum)
    as (st2 & U2 & Hn2 & Hnx2 & Hpv2 & Hv2).
  unfold updateChecksum. rewrite U2. cbn [mbind res_bind].
  destruct (on_seg_ok (with_val (seg_set_alloc true)) p st2 _ Hn2 (keeps_with_val _))
    as (st3 & U3 & Hn3 & Hnx3 & Hpv3 & Hv3).
  unfold markAllocated. rewrite U3. cbn [mbind res_bind].
  unfold getSize, get_val. rewrite Hn3. cbn [fmap res_fmap deref mbind res_bind].
  set (s3 := n_val (with_val (seg_set_alloc true) (updateChecksum_node n1))) in *.
  assert (s_size s3 = s_size s /\ s_alloc s3 = true) as [Ez Ea].
  { subst s3. rewrite <-Hns1. split; reflexivity. }
  clearbody s3. rewrite Ez, Haddr.
  assert (Hother : forall q, q <> p -> vl st3 q = vl (hp_st h) q).
  { intros q Hq. by rewrite Hv3, decide_False, Hv2, decide_False, Hv1 by done. }
  assert (Hnp : p ∉ l ++ k).
  { destruct (ho_ring _ _ Hok) as [Hnd _]. apply NoDup_cons in Hnd as [_ Hnd].
    apply NoDup_app_cons_comm, NoDup_cons in Hnd as [? _]. done. }
  eexists _, (l ++ k). split; [done|]. split; [|split; [|split; [done|]]].
  - eapply heap_ok_relink with (p := p) (b := true); eauto; cbn [hp_st hp_free sl_head sl_count].
    + rewrite (ho_count _ _ Hok), wrap_sub_l, !length_app. cbn [length].
      f_equal. lia.
    + eapply ring_frame; [exact Hr1|]. intros q _. by rewrite Hnx3, Hnx2, Hpv3, Hpv2.
    + exists s3. by rewrite Hv3, decide_True.
    + split; [done|]. intros. by destruct Hnp.
    + intros q Hq. set_solver.
  - exists p, (s_size s). split; [done|]. split_and!; cbn [hp_mem].
    + exists s3. split; [|done]. split; [apply Hs|]. by rewrite Hv3, decide_True.
    + unfold fits, size_of in Hfit. destruct Hs as [_ Hs]. rewrite Hs in Hfit. cbn in Hfit. by zbool.
    + intros z'. eapply live_not_free; [done|]. set_solver.
    + by apply live_relink.
    + intros x Hx. by apply memset_in.
    + intros x Hx. apply memset_out. unfold SegmentSize in *. lia.
  - split; [apply Permutation_middle|]. eexists. split; [exact Hn3|]. apply stale_checksum.
    by rewrite Hns1.
Qed.

(** The path that maps a new region. *)
Lemma allocate_fresh h fl size fuel a h' :
  heap_ok h fl -> (length fl < fuel)%nat ->
  0 <= size -> size + SegmentSize + PageMask < 2 ^ 32 ->
  List.find (fits h size) fl = None ->
  allocate fuel size h = Ok (a, h') ->
  heap_ok h' fl /\ alloc_post h h' size a /\
  (exists n, hp_st h' !! (a - SegmentSize) = Some n /\ verifyChecksum_node n = true).
Proof.
  intros Hok Hfuel Hsz Hlim Hfind. unfold allocate.
  pose proof (heap_find_fit h fl size fuel Hok Hfuel) as Hff.
  apply res_bind_ok in Hff as (first & E1 & E2). rewrite E1. cbn [mbind res_bind].
  rewrite E2, Hfind. cbn [mbind res_bind].
  rewrite (wrap_id 32 (size + SegmentSize)) by (unfold uint, SegmentSize, PageMask, PageSize in *; lia).
  destruct (roundTo_bounds (size + SegmentSize)) as (Hb & k & Hk);
    [unfold SegmentSize; lia|lia|].
  set (rsize := roundTo (size + SegmentSize) PageSize) in *.
  assert (Hr2 : rsize + PageMask < 2 ^ 32) by (unfold SegmentSize, PageMask, PageSize in *; lia).
  assert (Hr0 : 0 <= rsize) by (unfold SegmentSize in *; lia).
  assert (Hrr : roundTo rsize PageSize = rsize).
  { destruct (roundTo_bounds rsize Hr0 Hr2) as (Hb2 & k2 & Hk2).
    unfold PageSize in *. lia. }
  unfold allocateBackend. rewrite Hrr. intros Hrun.
  apply res_bind_ok in Hrun as ([seg0 h1] & Hback & Hrun).
  apply res_bind_ok in Hback as ([v b'] & Hmap & Hback).
  destruct (v =? 0) eqn:Hvz; cbn [negb kassert mbind res_bind] in Hback; [done|].
  apply Ok_inj, pair_eq in Hback as [<- <-]. cbn [hp_st hp_free hp_mem hp_back] in Hrun.
  destruct (rm_spec _ _ _ _ (ho_back _ _ Hok) Hr0 Hr2 Hmap) as (Hb' & Ebrk & Etop & Hfl & Hal).
  rewrite Hrr in Etop.
  pose proof (rm_range _ (ho_back _ _ Hok)) as Hrg.
  pose proof (rm_floor_nonneg) as Hfl0.
  assert (Hvh : v <> sl_head (hp_free h)) by (pose proof (ho_head _ _ Hok); lia).
  assert (Hnb : forall s, ~ block h v s).
  { intros s Hs. pose proof (ho_range _ _ Hok _ _ Hs). unfold SegmentSize in *. lia. }
  assert (Hnf : v ∉ fl).
  { intros Hin. destruct (block_dom _ _ _ Hok Hin) as (s & Hs & _). by eapply Hnb. }
  unfold new_segment in Hrun.
  set (n0 := updateChecksum_node _) in Hrun. set (st0 := <[v := n0]> (hp_st h)) in Hrun.
  assert (Hn0 : st0 !! v = Some n0) by apply lookup_insert_eq.
  destruct (on_seg_ok (with_val (seg_set_size (u32 (rsize - SegmentSize)))) v st0 n0 Hn0 (keeps_with_val _))
    as (st1 & U1 & Hn1 & Hnx1 & Hpv1 & Hv1).
  unfold setSize in Hrun. rewrite U1 in Hrun. cbn [mbind res_bind] in Hrun.
  destruct (on_seg_ok (with_val (seg_set_alloc true)) v st1 _ Hn1 (keeps_with_val _))
    as (st2 & U2 & Hn2 & Hnx2 & Hpv2 & Hv2).
  unfold markAllocated in Hrun. rewrite U2 in Hrun. cbn [mbind res_bind] in Hrun.
  destruct (on_seg_ok updateChecksum_node v st2 _ Hn2 keeps_checksum)
    as (st3 & U3 & Hn3 & Hnx3 & Hpv3 & Hv3).
  unfold updateChecksum in Hrun. rewrite U3 in Hrun. cbn [mbind res_bind] in Hrun.
  apply Ok_inj, pair_eq in Hrun as [<- <-].
  set (s3 := n_val (updateChecksum_node (with_val _ (with_val _ n0)))) in *.
  assert (s_size s3 = rsize - SegmentSize /\ s_alloc s3 = true) as [Ez Ea].
  { assert (s_size s3 = u32 (rsize - SegmentSize) /\ s_alloc s3 = true) as [-> ->] by done.
    rewrite wrap_id; [done|]. unfold uint, SegmentSize, PageMask, PageSize in *. lia. }
  clearbody s3. clear U3.
  assert (Hother : forall q, q <> v -> vl st3 q = vl (hp_st h) q).
  { intros q Hq. rewrite Hv3, decide_False, Hv2, decide_False, Hv1, decide_False by done.
    unfold vl, st0. by rewrite lookup_insert_ne. }
  assert (Hself : vl st3 v = Some s3) by by rewrite Hv3, decide_True.
  assert (segment_address v = v + SegmentSize) as ->.
  { unfold segment_address. apply wrap_id. unfold uint, SegmentSize, PageMask, PageSize in *. lia. }
  set (h' := HeapState _ _ _ _).
  assert (HB : forall q t, block h' q t -> q = v /\ t = s3 \/ q <> v /\ block h q t).
  { intros q t [Hne Hv]. cbn in Hv, Hne. destruct (decide (q = v)) as [->|Hq].
    - left. split; [done|congruence].
    - right. split; [done|]. split; [done|]. by rewrite <-Hother. }
  split; [|split; [|eexists; rewrite Z.add_simpl_r; split; [exact Hn3|]; 
                     apply (updateChecksum_verifies _ n0)]].
  - constructor; cbn [h' hp_st hp_free hp_back].
    + done.
    + eapply ring_frame; [apply (ho_ring _ _ Hok)|]. intros q Hq.
      assert (q <> v) by (intros ->; apply elem_of_cons in Hq as [->|Hq]; done).
      rewrite Hnx3, Hnx2, Hnx1, Hpv3, Hpv2, Hpv1. unfold nx, pv, st0.
      by rewrite !lookup_insert_ne.
    + apply (ho_count _ _ Hok).
    + apply (ho_head _ _ Hok).
    + intros q t Hq. rewrite Ebrk. unfold SegmentTop in *.
      destruct (HB _ _ Hq) as [[-> ->]|[_ Hq']].
      * rewrite Ez. unfold SegmentSize in *. lia.
      * pose proof (ho_range _ _ Hok _ _ Hq'). unfold SegmentTop, SegmentSize in *. lia.
    + intros q t Hq. destruct (HB _ _ Hq) as [[-> ->]|[_ Hq']].
      * rewrite Ea. split; [done|]. intros. by destruct Hnf.
      * by apply (ho_free _ _ Hok).
    + intros q r t u Hq Hr Hne.
      destruct (HB _ _ Hq) as [[-> ->]|[_ Hq']], (HB _ _ Hr) as [[-> ->]|[_ Hr']].
      * done.
      * left. rewrite Ez. pose proof (ho_range _ _ Hok _ _ Hr'). unfold SegmentSize in *. lia.
      * right. rewrite Ez. pose proof (ho_range _ _ Hok _ _ Hq'). unfold SegmentSize in *. lia.
      * by eapply (ho_disj _ _ Hok).
  - exists v, (rsize - SegmentSize). split; [done|]. split_and!; cbn [h' hp_mem].
    + exists s3. split; [|done]. split; [done|]. done.
    + lia.
    + intros z' (s & Hs & _). by eapply Hnb.
    + by apply live_relink.
    + intros x Hx. apply memset_in. unfold SegmentSize in *. lia.
    + intros x Hx. apply memset_out. unfold SegmentSize in *. lia.
Qed.

(** ** [deallocate] *)

Lemma deallocate_ok h fl p z : heap_ok h fl -> live h p z ->
  exists h', deallocate (p + SegmentSize) h = Ok h' /\ heap_ok h' (fl ++ [p]) /\
    hp_mem h' = hp_mem h /\ hp_back h' = hp_back h /\ size_of h' p = z /\
    (forall q z', live h' q z' <-> q <> p /\ live h q z').
Proof.
  intros Hok (s & Hs & Ha & Hz).
  destruct (segment_address_eq _ _ _ _ Hok Hs) as [_ Hhdr].
  destruct (block_node _ _ _ Hs) as (n & Hn & Hns).
  unfold deallocate. rewrite Hhdr. unfold isAllocated, get_val. rewrite Hn.
  cbn [fmap res_fmap deref mbind res_bind]. rewrite Hns, Ha. cbn [kassert mbind res_bind].
  destruct (on_seg_ok (with_val (seg_set_alloc false)) p (hp_st h) _ Hn (keeps_with_val _))
    as (st1 & U1 & Hn1 & Hnx1 & Hpv1 & Hv1).
  unfold markUnallocated. rewrite U1. cbn [mbind res_bind].
  assert (Hr1 : ring st1 (sl_head (hp_free h)) fl).
  { eapply ring_frame; [apply (ho_ring _ _ Hok)|]. intros q _. by rewrite Hnx1, Hpv1. }
  assert (Hnp : p ∉ fl).
  { intros Hin. apply (ho_free _ _ Hok _ _ Hs) in Hin. congruence. }
  assert (Hnh : p ∉ sl_head (hp_free h) :: fl).
  { intros [->|?]%elem_of_cons; [by destruct Hs|done]. }
  destruct (sl_add_ok st1 fl p (hp_free h) Hr1 Hnh ltac:(by eexists))
    as (st2 & R2 & Hr2 & Hv2 & Hd2). rewrite R2. cbn [mbind res_bind].
  destruct (proj2 (Hd2 p) ltac:(by eexists)) as [n2 Hn2].
  assert (n_val n2 = seg_set_alloc false s) as Hns2.
  { specialize (Hv2 p). rewrite Hv1, decide_True in Hv2 by done. unfold vl in Hv2.
    rewrite Hn2 in Hv2. cbn in Hv2. injection Hv2 as ->. by rewrite <-Hns. }
  destruct (on_seg_ok updateChecksum_node p st2 n2 Hn2 keeps_checksum)
    as (st3 & U3 & Hn3 & Hnx3 & Hpv3 & Hv3).
  unfold updateChecksum. rewrite U3. cbn [mbind res_bind].
  set (s3 := n_val (updateChecksum_node n2)) in *.
  assert (s_size s3 = s_size s /\ s_alloc s3 = false) as [Ez Ea].
  { subst s3. destruct (updateChecksum_val n2) as [-> ->]. rewrite Hns2. split; reflexivity. }
  clearbody s3.
  assert (Hself : vl st3 p = Some s3) by by rewrite Hv3, decide_True.
  assert (Hother : forall q, q <> p -> vl st3 q = vl (hp_st h) q).
  { intros q Hq. by rewrite Hv3, decide_False, Hv2, Hv1, decide_False by done. }
  eexists. split; [done|]. split; [|split; [done|split; [done|]]].
  - eapply heap_ok_relink with (p := p) (b := false); eauto; cbn [hp_st hp_free sl_head sl_count].
    + rewrite (ho_count _ _ Hok), wrap_add_l, !length_app. cbn [length]. f_equal. lia.
    + eapply ring_frame; [exact Hr2|]. intros q _. by rewrite Hnx3, Hpv3.
    + set_solver.
    + intros q Hq. clear -Hq. set_solver.
  - split; [unfold size_of; cbn [hp_st]; rewrite Hself; cbn; congruence|].
    intros q z'. destruct (decide (q = p)) as [->|Hq].
    + split; [|tauto]. intros (t & [_ Ht] & Hta & _). cbn in Ht. congruence.
    + match goal with |- live ?h1 _ _ <-> _ => rewrite (live_relink h h1 p) by done end. tauto.
Qed.

(** Freeing what is not allocated stops at the assertion. *)
Lemma deallocate_free_panics h fl p : heap_ok h fl -> p ∈ fl ->
  deallocate (p + SegmentSize) h = Panic.
Proof.
  intros Hok Hp. destruct (block_dom _ _ _ Hok Hp) as (s & Hs & Ha).
  destruct (segment_address_eq _ _ _ _ Hok Hs) as [_ Hhdr].
  destruct (block_node _ _ _ Hs) as (n & Hn & Hns).
  unfold deallocate. rewrite Hhdr. unfold isAllocated, get_val. rewrite Hn.
  cbn [fmap res_fmap deref mbind res_bind]. rewrite Hns, Ha. reflexivity.
Qed.

Lemma find_fits_some h size l p : p ∈ l -> size <= size_of h p ->
  exists q, List.find (fits h size) l = Some q.
Proof.
  intros Hin Hsz. destruct (List.find (fits h size) l) as [q|] eqn:E; [eauto|].
  exfalso. eapply List.find_none in E; [|by apply list_elem_of_In].
  unfold fits in E. zbool. lia.
Qed.

Lemma live_disjoint h fl p q z z' : heap_ok h fl -> live h p z -> live h q z' -> p <> q ->
  p + SegmentSize + z <= q \/ q + SegmentSize + z' <= p.
Proof. intros Hok (s & Hs & _ & <-) (u & Hu & _ & <-). by apply (ho_disj _ _ Hok). Qed.

(** A new region is mapped when nothing fits; then the call succeeds. *)
Lemma allocate_fresh_total h fl size fuel v b' :
  heap_ok h fl -> (length fl < fuel)%nat ->
  0 <= size -> size + SegmentSize + PageMask < 2 ^ 32 ->
  List.find (fits h size) fl = None ->
  rm_map (roundTo (size + SegmentSize) PageSize) (hp_back h) = Ok (v, b') ->
  exists h', allocate fuel size h = Ok (v + SegmentSize, h') /\ hp_back h' = b'.
Proof.
  intros Hok Hfuel Hsz Hlim Hfind Hmap. unfold allocate.
  pose proof (heap_find_fit h fl size fuel Hok Hfuel) as Hff.
  apply res_bind_ok in Hff as (first & E1 & E2). rewrite E1. cbn [mbind res_bind].
  rewrite E2, Hfind. cbn [mbind res_bind].
  rewrite (wrap_id 32 (size + SegmentSize)) by (unfold uint, SegmentSize, PageMask, PageSize in *; lia).
  destruct (roundTo_bounds (size + SegmentSize)) as (Hb & k & Hk);
    [unfold SegmentSize; lia|lia|].
  set (rsize := roundTo (size + SegmentSize) PageSize) in *.
  assert (Hr : 0 <= rsize /\ rsize + PageMask < 2 ^ 32)
    by (unfold SegmentSize, PageMask, PageSize in *; lia).
  assert (Hrr : roundTo rsize PageSize = rsize).
  { destruct (roundTo_bounds rsize) as (Hb2 & k2 & Hk2); [lia..|]. unfold PageSize in *. lia. }
  unfold allocateBackend. rewrite Hrr, Hmap. cbn [mbind res_bind].
  destruct (rm_spec _ _ _ _ (ho_back _ _ Hok) (proj1 Hr) (proj2 Hr) Hmap)
    as (Hb' & Ebrk & Etop & Hfl & Hal). pose proof rm_floor_nonneg.
  rewrite (proj2 (Z.eqb_neq v 0)) by lia. cbn [negb kassert mbind res_bind mret res_ret].
  unfold new_segment, setSize, markAllocated, updateChecksum, on_seg.
  cbn [hp_st hp_free hp_mem hp_back].
  repeat (rewrite lookup_insert_eq; cbn [deref mbind res_bind mret res_ret]).
  eexists. split; [apply f_equal, pair_eq; split; [|reflexivity]|reflexivity]. apply wrap_id.
  pose proof (rm_range _ (ho_back _ _ Hok)). rewrite Hrr in Etop.
  unfold uint, SegmentSize in *. lia.
Qed.

Lemma allocate_fresh_panics h fl size fuel :
  heap_ok h fl -> (length fl < fuel)%nat ->
  0 <= size -> size + SegmentSize + PageMask < 2 ^ 32 ->
  List.find (fits h size) fl = None ->
  rm_map (roundTo (size + SegmentSize) PageSize) (hp_back h) = Panic ->
  allocate fuel size h = Panic.
Proof.
  intros Hok Hfuel Hsz Hlim Hfind Hmap. unfold allocate.
  pose proof (heap_find_fit h fl size fuel Hok Hfuel) as Hff.
  apply res_bind_ok in Hff as (first & E1 & E2). rewrite E1. cbn [mbind res_bind].
  rewrite E2, Hfind. cbn [mbind res_bind].
  rewrite (wrap_id 32 (size + SegmentSize)) by (unfold uint, SegmentSize, PageMask, PageSize in *; lia).
  destruct (roundTo_bounds (size + SegmentSize)) as (Hb & k & Hk);
    [unfold SegmentSize; lia|lia|].
  set (rsize := roundTo (size + SegmentSize) PageSize) in *.
  assert (Hrr : roundTo rsize PageSize = rsize).
  { destruct (roundTo_bounds rsize) as (Hb2 & k2 & Hk2);
      unfold SegmentSize, PageMask, PageSize in *; lia. }
  unfold allocateBackend. rewrite Hrr, Hmap. done.
Qed.

(** The checksum of the header an allocation hands out.  A block taken
    from a new region verifies; a block taken from the free list never does,
    because that path refreshes the checksum before it sets the [allocated]
    byte, which the checksum covers. *)
Lemma allocated_checksum h fl size fuel a h' :
  heap_ok h fl -> (length fl < fuel)%nat -> Z.of_nat (length fl) < 2 ^ 32 ->
  0 <= size -> size + SegmentSize + PageMask < 2 ^ 32 ->
  allocate fuel size h = Ok (a, h') ->
  exists n, hp_st h' !! (a - SegmentSize) = Some n /\
    verifyChecksum_node n = negb (existsb (fits h size) fl).
Proof.
  intros Hok Hfuel Hlen Hsz Hlim E.
  destruct (List.find (fits h size) fl) as [p|] eqn:Hfind.
  - destruct (allocate_fit h fl size fuel p Hok Hfuel Hlen Hfind)
      as (h2 & fl' & E2 & _ & _ & _ & _ & n & Hn & Hv).
    rewrite E in E2. apply Ok_inj, pair_eq in E2 as [-> ->].
    exists n. rewrite Z.add_simpl_r. split; [done|]. rewrite Hv. symmetry.
    apply negb_false_iff, existsb_exists. exists p. by apply List.find_some.
  - destruct (allocate_fresh h fl size fuel a h' Hok Hfuel Hsz Hlim Hfind E)
      as (_ & _ & n & Hn & Hv).
    exists n. split; [done|]. rewrite Hv. symmetry. apply negb_true_iff, not_true_iff_false.
    intros (p & Hp & Hfit)%existsb_exists.
    by rewrite (List.find_none _ _ Hfind _ Hp) in Hfit.
Qed.

(** C12: [Heap::allocate].  With enough fuel for the free list, the call
    succeeds whenever a free block is large enough (then nothing is mapped
    and that block leaves the free list) or the memory manager can map the
    rounded-up size; it panics when the latter does.  When it succeeds, the
    block returned is at least as large as asked for, was not allocated
    before, is zeroed, overlaps no other allocated block, every other block
    and the rest of memory are as before, and the heap is well formed.  The
    checksum of its header verifies when the block was mapped for it, but never
    when it was taken from the free list. *)
Theorem allocate_spec h fl size fuel :
  heap_ok h fl -> (length fl < fuel)%nat -> Z.of_nat (length fl) < 2 ^ 32 ->
  0 <= size -> size + SegmentSize + PageMask < 2 ^ 32 ->
  (forall a h', allocate fuel size h = Ok (a, h') ->
    exists fl', heap_ok h' fl' /\ alloc_post h h' size a /\
      (forall p q z z', live h' p z -> live h' q z' -> p <> q ->
         p + SegmentSize + z <= q \/ q + SegmentSize + z' <= p) /\
      exists n, hp_st h' !! (a - SegmentSize) = Some n /\
        verifyChecksum_node n = negb (existsb (fits h size) fl)) /\
  match List.find (fits h size) fl with
  | Some p => exists h' fl', allocate fuel size h = Ok (p + SegmentSize, h') /\
      hp_back h' = hp_back h /\ heap_ok h' fl' /\ p :: fl' ≡ₚ fl
  | None =>
      match rm_map (roundTo (size + SegmentSize) PageSize) (hp_back h) with
      | Ok (v, b) => exists h', allocate fuel size h = Ok (v + SegmentSize, h') /\
          hp_back h' = b /\ heap_ok h' fl
      | Panic => allocate fuel size h = Panic
      | _ => True
      end
  end.
Proof.
  intros Hok Hfuel Hlen Hsz Hlim.
  destruct (List.find (fits h size) fl) as [p|] eqn:Hfind.
  - destruct (allocate_fit h fl size fuel p Hok Hfuel Hlen Hfind)
      as (h' & fl' & E & Hok' & Hpost & Hb & HP & _).
    split; [|by exists h', fl'].
    intros a h2 E2. rewrite E in E2. apply Ok_inj, pair_eq in E2 as [<- <-].
    exists fl'. split; [done|]. split; [done|].
    split; [intros; by eapply live_disjoint|by apply (allocated_checksum h fl size fuel)].
  - split.
    + intros a h' E. destruct (allocate_fresh h fl size fuel a h' Hok Hfuel Hsz Hlim Hfind E)
        as (Hok' & Hpost & _).
      exists fl. split; [done|]. split; [done|].
      split; [intros; by eapply live_disjoint|by apply (allocated_checksum h fl size fuel)].
    + destruct (rm_map _ _) as [[v b]| | |] eqn:Hmap; try done.
      * destruct (allocate_fresh_total h fl size fuel v b Hok Hfuel Hsz Hlim Hfind Hmap)
          as (h' & E & Eb).
        exists h'. split; [done|]. split; [done|].
        by apply (allocate_fresh h fl size fuel _ h' Hok Hfuel Hsz Hlim Hfind E).
      * by apply (allocate_fresh_panics h fl).
Qed.

(** C13: [Heap::deallocate].  Freeing an allocated block puts it at the end of
    the free list and changes nothing else; the block can be reused: a later
    request that is not larger succeeds without mapping memory.  Freeing a
    block that is already free stops at the assertion. *)
Theorem deallocate_spec h fl p : heap_ok h fl ->
  (forall z, live h p z -> exists h', deallocate (p + SegmentSize) h = Ok h' /\
     heap_ok h' (fl ++ [p]) /\ hp_mem h' = hp_mem h /\ hp_back h' = hp_back h /\
     (forall q z', live h' q z' <-> q <> p /\ live h q z') /\
     (forall size fuel, size <= z -> (S (length fl) < fuel)%nat ->
        Z.of_nat (S (length fl)) < 2 ^ 32 ->
        exists a h2, allocate fuel size h' = Ok (a, h2) /\ hp_back h2 = hp_back h)) /\
  (p ∈ fl -> deallocate (p + SegmentSize) h = Panic).
Proof.
  intros Hok. split; [|by apply deallocate_free_panics].
  intros z Hz. destruct (deallocate_ok h fl p z Hok Hz) as (h' & E & Hok' & Em & Eb & Es & Hl).
  exists h'. do 5 (split; [done|]). intros size fuel Hs Hf Hn.
  destruct (find_fits_some h' size (fl ++ [p]) p) as [q Hq]; [set_solver|lia|].
  destruct (allocate_fit h' (fl ++ [p]) size fuel q Hok') as (h2 & ? & E2 & _ & _ & Eb2 & _ & _);
    [rewrite length_app; cbn; lia..|done|].
  exists (q + SegmentSize), h2. split; [done|]. congruence.
Qed.
End heap_thms.

(** ** A heap *)

(** A memory manager that hands out regions downwards from a break. *)
#[export] Program Instance bump_mapper : RegionMapper Z := {|
  rm_map := fun size b =>
    if (b - roundTo size PageSize <=? 0x100000) || negb (b mod PageSize =? 0) then Panic
    else Ok (b - roundTo size PageSize, b - roundTo size PageSize);
  rm_brk := fun b => b;
  rm_ok := fun b => 0 <= b < 2 ^ 32;
  rm_floor := 0x100000;
|}.
Next Obligation.
  intros size b v b' Hb Hs Hl. cbn.
  destruct (_ || _) eqn:E; [done|]. intros H%Ok_inj. apply pair_eq in H as [<- <-]. zbool.
  destruct (roundTo_bounds size Hs Hl) as (Hr & k & Hk).
  unfold PageSize in *. split; [lia|]. split; [done|]. split; [lia|]. split; [lia|].
  rewrite Hk. Z.div_mod_to_equations. lia.
Qed.
Next Obligation. done. Qed.
Next Obligation. done. Qed.

(** An empty heap, its sentinel in the kernel image. *)
Definition empty_heap : heap Z :=
  HeapState (<[0x1000 := Node 0x1000 0x1000 (Seg 0 false 0 (0, 0))]> ∅)
    (SegList 0x1000 0) (fun _ => 0xff) 0x80000000.

Lemma empty_heap_ok : heap_ok empty_heap [].
Proof.
  assert (Hnb : forall p s, ~ block empty_heap p s).
  { intros p s [Hp Hv]. unfold vl in Hv. cbn [empty_heap hp_st hp_free sl_head] in *.
    rewrite lookup_insert_ne in Hv by congruence. by rewrite lookup_empty in Hv. }
  constructor; try (intros; exfalso; by eapply Hnb); try done.
  split; [apply NoDup_singleton|]. by vm_compute.
Qed.

Lemma demo_bounds : (length (@nil loc) < 1)%nat /\ Z.of_nat (length (@nil loc)) < 2 ^ 32 /\
  0 <= 100 /\ 100 + SegmentSize + PageMask < 2 ^ 32.
Proof. cbn. unfold SegmentSize, PageMask, PageSize. lia. Qed.

Lemma demo_alloc : exists h, allocate 1 100 empty_heap = Ok (0x7ffff010, h).
Proof.
  assert (fst <$> allocate 1 100 empty_heap = Ok 0x7ffff010) as E by (vm_compute; reflexivity).
  apply res_fmap_ok in E as ([a h] & E & Ea). cbn [fst] in Ea. exists h. by rewrite <-Ea.
Qed.

Lemma allocate_spec_witness : exists h' fl',
  allocate 1 100 empty_heap = Ok (0x7ffff010, h') /\ heap_ok h' fl' /\
  alloc_post empty_heap h' 100 0x7ffff010.
Proof.
  destruct demo_bounds as (D1 & D2 & D3 & D4).
  destruct (allocate_spec empty_heap [] 100 1 empty_heap_ok D1 D2 D3 D4) as [H1 H2].
  destruct demo_alloc as (h' & E).
  destruct (H1 _ _ E) as (fl' & Hok & Hpost & _). exists h', fl'. exact (conj E (conj Hok Hpost)).
Defined.

Lemma deallocate_spec_witness : exists h h',
  allocate 1 100 empty_heap = Ok (0x7ffff010, h) /\
  deallocate 0x7ffff010 h = Ok h' /\ heap_ok h' [0x7ffff000].
Proof.
  destruct demo_alloc as (h & E).
  destruct demo_bounds as (D1 & D2 & D3 & D4).
  destruct (allocate_fresh empty_heap [] 100 1 _ _ empty_heap_ok D1 D3 D4 eq_refl E) as (Hok & (p & z & Hp & Hl & _) & _).
  assert (p = 0x7ffff000) as -> by (unfold SegmentSize in Hp; lia).
  destruct (deallocate_spec h [] 0x7ffff000 Hok) as [H _].
  destruct (H z Hl) as (h' & E' & Hok' & _).
  exists h, h'. exact (conj E (conj E' Hok')).
Defined.
