(* ===== verification/Containers.v ===== *)
(** * The container templates (Templates/)

    [DoublyLinkedList] and [SinglyLinkedList] thread their items on a circular
    list whose head is an item of the list object itself.  The store of the
    former is the one of Ring.v; the latter keeps one pointer per item.  A null
    pointer is the address 0, at which there is no item.

    [FileSystem] (FileSystem/FileSystem.cc) is the template's user: its
    constructor puts the object on a static list, and [mount] asks the
    file systems on it one after the other. *)

From S2P Require Import Prelude Words Ring.
From Stdlib Require Import ZArith Lia.
From stdpp Require Import prelude gmap list.

Open Scope Z_scope.

(** ** Doubly linked lists (DoublyLinkedItem.hh, DoublyLinkedList.hh) *)

Section doubly.
Context {V : Type}.
Implicit Types (st : gmap loc (node V)) (p item : loc).

Definition DoublyLinkedItem_new p (v : V) st : gmap loc (node V) := <[p := Node p p v]> st.

Definition insertAfter this item st : res (gmap loc (node V)) :=
  next ← get_next st this;
  st ← set_next st item next;
  st ← set_prev st item this;
  next ← get_next st this;
  st ← set_prev st next item;
  set_next st this item.

Definition unlink this st : res (gmap loc (node V)) :=
  prev ← get_prev st this;
  next ← get_next st this;
  st ← set_next st prev next;
  prev ← get_prev st this;
  next ← get_next st this;
  st ← set_prev st next prev;
  st ← set_next st this 0;
  set_prev st this 0.

(** The address of [head], and [count]. *)
Record DoublyLinkedList : Type := DList { dl_head : loc; dl_count : Z }.

Definition DoublyLinkedList_new head (v : V) st : DoublyLinkedList * gmap loc (node V) :=
  (DList head 0, DoublyLinkedItem_new head v st).

Definition insertLast (l : DoublyLinkedList) item st : res (DoublyLinkedList * gmap loc (node V)) :=
  p ← get_prev st (dl_head l);
  st ← insertAfter p item st;
  mret (DList (dl_head l) (u32 (dl_count l + 1)), st).

Definition insertFirst (l : DoublyLinkedList) item st : res (DoublyLinkedList * gmap loc (node V)) :=
  st ← insertAfter (dl_head l) item st;
  mret (DList (dl_head l) (u32 (dl_count l + 1)), st).

Definition remove (l : DoublyLinkedList) item st : res (DoublyLinkedList * gmap loc (node V)) :=
  st ← unlink item st;
  mret (DList (dl_head l) (u32 (dl_count l - 1)), st).

(** *** Ranges: [firstItem] and [lastItem], the item behind the last *)

Record Range : Type := RangeOf { firstItem : loc; lastItem : loc }.

Definition range (l : DoublyLinkedList) st : res Range :=
  first ← get_next st (dl_head l);
  mret (RangeOf first (dl_head l)).

Definition empty (r : Range) : bool := firstItem r =? lastItem r.
Definition front (r : Range) : loc := firstItem r.
Definition back (r : Range) st : res loc := get_prev st (lastItem r).

Definition popFront (r : Range) st : res Range :=
  n ← get_next st (firstItem r);
  mret (RangeOf n (lastItem r)).

Definition popBack (r : Range) st : res Range :=
  p ← get_prev st (lastItem r);
  mret (RangeOf (firstItem r) p).

(** The items of a range, each taken from the front or from the back, as long
    as there are any; the caller's loop. *)
Fixpoint drain (fronts : list bool) (r : Range) st : res (list loc) :=
  match fronts with
  | [] => mret []
  | f :: fronts =>
      if empty r then mret []
      else if f then
        r' ← popFront r st;
        l ← drain fronts r' st;
        mret (front r :: l)
      else
        b ← back r st;
        r' ← popBack r st;
        l ← drain fronts r' st;
        mret (b :: l)
  end.

(** *** A sequence of changes *)

Inductive change := First (p : loc) | Last (p : loc) | Remove (p : loc).

Definition change_step (c : change) (s : DoublyLinkedList * gmap loc (node V)) :
    res (DoublyLinkedList * gmap loc (node V)) :=
  match c with
  | First p => insertFirst s.1 p s.2
  | Last p => insertLast s.1 p s.2
  | Remove p => remove s.1 p s.2
  end.

Fixpoint changes (cs : list change) (s : DoublyLinkedList * gmap loc (node V)) :
    res (DoublyLinkedList * gmap loc (node V)) :=
  match cs with
  | [] => mret s
  | c :: cs => s ← change_step c s; changes cs s
  end.
End doubly.

(** ** Singly linked lists (SinglyLinkedItem.hh, SinglyLinkedList.hh) *)

Section singly.
Implicit Types (st : gmap loc loc) (this item head : loc).

Definition SinglyLinkedItem_new this st : gmap loc loc := <[this := this]> st.

Definition next_of st this : res loc := deref (st !! this).

Definition set_next_of st this (n : loc) : res (gmap loc loc) :=
  _ ← deref (st !! this);
  mret (<[this := n]> st).

Definition sl_insertAfter this item st : res (gmap loc loc) :=
  next ← next_of st this;
  st ← set_next_of st item next;
  set_next_of st this item.

Definition sl_insertFirst head item st : res (gmap loc loc) := sl_insertAfter head item st.

(** [while (last->next == lastItem())] *)
Fixpoint last_loop (fuel : nat) head (last : loc) st : res loc :=
  match fuel with
  | O => NoFuel
  | S fuel =>
      next ← next_of st last;
      if next =? head then last_loop fuel head next st
      else mret last
  end.

Definition sl_insertLast head item st : res (gmap loc loc) :=
  first ← next_of st head;
  last ← (if negb (head =? first) then last_loop 3 head first st else mret first);
  sl_insertAfter last item st.

(** The loop of a caller over the list's [range()]. *)
Fixpoint sl_items (fuel : nat) head (first : loc) st : res (list loc) :=
  match fuel with
  | O => NoFuel
  | S fuel =>
      if first =? head then mret []
      else
        next ← next_of st first;
        l ← sl_items fuel head next st;
        mret (first :: l)
  end.
End singly.

(** ** File systems (FileSystem/FileSystem.cc) *)

Inductive ErrorCode := EOk | NoEntity | UnknownFsType.

#[global] Instance ErrorCode_eq_dec : EqDecision ErrorCode.
Proof. solve_decision. Defined.

Section filesystems.
Context {V : Type}.
Implicit Types (st : gmap loc (node V)).

(** What the classes that are derived from [FileSystem] answer. *)
Context (fs_mount : loc -> list Z -> ErrorCode).

Definition FileSystem_new this (v : V) (l : DoublyLinkedList) st :
    res (DoublyLinkedList * gmap loc (node V)) :=
  insertLast l this (DoublyLinkedItem_new this v st).

(** The static list: its head is a [FileSystem] too. *)
Definition FileSystem_list head (v : V) st : res (DoublyLinkedList * gmap loc (node V)) :=
  FileSystem_new head v (DList head 0) st.

(** [for (auto& fs : list)]: the iterators are the item and the head. *)
Fixpoint mount_loop (fuel : nat) (path : list Z) (l : DoublyLinkedList) (item : loc) st : res ErrorCode :=
  match fuel with
  | O => NoFuel
  | S fuel =>
      if item =? dl_head l then mret UnknownFsType
      else
        let error := fs_mount item path in
        if decide (error = UnknownFsType)
        then next ← get_next st item; mount_loop fuel path l next st
        else mret error
  end.

Definition mount (fuel : nat) (path : list Z) (l : DoublyLinkedList) st : res ErrorCode :=
  first ← get_next st (dl_head l);
  mount_loop fuel path l first st.
End filesystems.

(** ** Neighbours on a ring *)

Section ring.
Context {V : Type}.
Implicit Types (st : gmap loc (node V)) (h p x : loc) (l k : list loc).

Lemma dseg_end st a l b : dseg st a l b -> nx st (last_of a l) = Some b.
Proof.
  revert a. induction l as [|x l IH]; intros a H; cbn in *; [tauto|].
  destruct H as (_ & _ & H). by rewrite last_of_cons, IH.
Qed.

Lemma ring_mid st h l k : ring st h (l ++ k) ->
  nx st (last_of h l) = Some (List.hd h k) /\ pv st (List.hd h k) = Some (last_of h l).
Proof.
  intros [_ H]. destruct k as [|x k]; cbn [List.hd].
  - rewrite app_nil_r in H. split; [by apply dseg_end|by eapply dseg_last].
  - apply dseg_app in H as [H _]. split; [by apply dseg_end|by eapply dseg_last].
Qed.

Definition same_dom st st' : Prop := forall a, is_Some (st' !! a) <-> is_Some (st !! a).

Lemma insertAfter_ok st h l k x : ring st h (l ++ k) -> x ∉ h :: l ++ k -> is_Some (st !! x) ->
  exists st', insertAfter (last_of h l) x st = Ok st' /\ ring st' h (l ++ x :: k) /\ same_dom st st'.
Proof.
  intros Hr Hx Hsx. pose proof (ring_mid _ _ _ _ Hr) as [Hn Hp].
  set (p := last_of h l) in *. set (q := List.hd h k) in *.
  assert (p ∈ h :: l ++ k) as Hpin by (pose proof (last_of_in h l); subst p; set_solver).
  assert (q ∈ h :: l ++ k) as Hqin by (pose proof (hd_in h k); subst q; set_solver).
  assert (x <> p /\ x <> q) as [Hxp Hxq] by (split; intros ->; done).
  pose proof (ring_dom _ _ _ _ Hr Hpin) as Hsp. pose proof (ring_dom _ _ _ _ Hr Hqin) as Hsq.
  unfold insertAfter. rewrite (proj2 (get_next_ok st p q)) by done. cbn [mbind res_bind].
  do_write. do_write; [naive_solver|].
  rewrite (proj2 (get_next_ok _ p q)) by (rewrite Hnx0, Hnx, decide_False by done; done).
  cbn [mbind res_bind]. do_write; [naive_solver|].
  destruct (set_next_ok st2 p x) as (st3 & E3 & Hnx2 & Hpv2 & _ & Hdom2); [naive_solver|].
  exists st3. split; [done|]. split.
  - apply (ring_insert st _ _ l k x p q); auto.
    all: intros; rewrite ?Hpv2, ?Hpv1, ?Hpv0, ?Hpv, ?Hnx2, ?Hnx1, ?Hnx0, ?Hnx;
      repeat case_decide; congruence.
  - intros a. by rewrite Hdom2, Hdom1, Hdom0, Hdom.
Qed.

Lemma unlink_ok st h l k x : ring st h (l ++ x :: k) ->
  exists st', unlink x st = Ok st' /\ ring st' h (l ++ k) /\ same_dom st st' /\
    nx st' x = Some 0 /\ pv st' x = Some 0.
Proof.
  intros Hr. pose proof (proj1 Hr) as Hnd.
  pose proof (ring_mid _ _ l (x :: k) Hr) as [_ Hp]. cbn [List.hd] in Hp.
  assert (ring st h ((l ++ [x]) ++ k)) as Hr2 by (by rewrite <- app_assoc).
  pose proof (ring_mid _ _ (l ++ [x]) k Hr2) as [Hn _]. rewrite last_of_snoc in Hn.
  set (p := last_of h l) in *. set (q := List.hd h k) in *.
  assert (p ∈ h :: l) as Hpin by apply last_of_in. assert (q ∈ h :: k) as Hqin by apply hd_in.
  assert (x ∉ h :: l ++ k) as Hx.
  { apply (NoDup_app_cons_comm (h :: l) k x) in Hnd. by apply NoDup_cons in Hnd as [? _]. }
  assert (x <> p /\ x <> q) as [Hxp Hxq] by (clear -Hpin Hqin Hx; set_solver).
  assert (is_Some (st !! p) /\ is_Some (st !! q) /\ is_Some (st !! x)) as (Hsp & Hsq & Hsx).
  { split_and!; eapply ring_dom; try exact Hr; clear -Hpin Hqin; set_solver. }
  unfold unlink. rewrite (proj2 (get_prev_ok st x p)), (proj2 (get_next_ok st x q)) by done.
  cbn [mbind res_bind]. do_write.
  rewrite (proj2 (get_prev_ok _ x p)) by (by rewrite Hpv). cbn [mbind res_bind].
  rewrite (proj2 (get_next_ok _ x q)) by (rewrite Hnx, decide_False by done; done).
  cbn [mbind res_bind]. do_write; [naive_solver|].
  assert (ring st1 h (l ++ k)) as Hr1.
  { apply (ring_remove st st1 h l k x p q); auto.
    all: intros; rewrite ?Hpv0, ?Hpv, ?Hnx0, ?Hnx; repeat case_decide; congruence. }
  do_write; [naive_solver|].
  destruct (set_prev_ok st2 x 0) as (st3 & E3 & Hpv2 & Hnx2 & _ & Hdom2); [naive_solver|].
  exists st3. split; [done|]. split; [|split; [|split]].
  - eapply ring_frame; [exact Hr1|]. intros a Ha.
    assert (a <> x) as Hax by (intros ->; done).
    rewrite Hpv2, Hnx2, Hnx1, Hpv1. by rewrite !decide_False by done.
  - intros a. by rewrite Hdom2, Hdom1, Hdom0, Hdom.
  - by rewrite Hnx2, Hnx1, decide_True.
  - by rewrite Hpv2, decide_True.
Qed.

(** A second [unlink] dereferences null. *)
Lemma unlink_twice st x : nx st x = Some 0 -> pv st x = Some 0 -> st !! 0 = None ->
  unlink x st = Fault.
Proof.
  intros Hn Hp H0. unfold unlink.
  rewrite (proj2 (get_prev_ok st x 0)), (proj2 (get_next_ok st x 0)) by done.
  cbn [mbind res_bind]. unfold set_next. by rewrite H0.
Qed.
End ring.

(** ** What the operations do to the list *)

(** [fronts] taken from a list. *)
Fixpoint deque (fronts : list bool) (l : list loc) : list loc :=
  match fronts with
  | [] => []
  | true :: fronts => match l with [] => [] | x :: l => x :: deque fronts l end
  | false :: fronts =>
      match last l with None => [] | Some x => x :: deque fronts (removelast l) end
  end.

Definition changed (c : change) (l : list loc) : list loc :=
  match c with
  | First p => p :: l
  | Last p => l ++ [p]
  | Remove p => filter (fun q => q <> p) l
  end.

Definition all_changed (cs : list change) (l : list loc) : list loc :=
  foldl (fun l c => changed c l) l cs.

(** Items are inserted that are not on the list, and removed that are. *)
Fixpoint allowed (h : loc) (items : loc -> Prop) (cs : list change) (l : list loc) : Prop :=
  match cs with
  | [] => True
  | c :: cs =>
      match c with
      | First p | Last p => p ∉ h :: l /\ items p
      | Remove p => p ∈ l
      end /\ allowed h items cs (changed c l)
  end.

Section doubly_linked.
Context {V : Type}.
Implicit Types (st : gmap loc (node V)) (l : DoublyLinkedList) (k : list loc).

Definition dlist l st k : Prop :=
  ring st (dl_head l) k /\ dl_count l = u32 (Z.of_nat (length k)).

Lemma hd_app (a : loc) k k' : List.hd a (k ++ k') = List.hd (List.hd a k') k.
Proof. by destruct k. Qed.

Lemma filter_remove x k k' : NoDup (k ++ x :: k') ->
  filter (fun q => q <> x) (k ++ x :: k') = k ++ k'.
Proof.
  intros Hnd. apply NoDup_app_cons_comm, NoDup_cons in Hnd as [Hx _].
  rewrite filter_app, filter_cons, decide_False by auto.
  assert (forall r : list Z, x ∉ r -> filter (fun q => q <> x) r = r) as Hid.
  { induction r as [|y r IH]; intros Hr; [done|]. apply not_elem_of_cons in Hr as [Hy Hr].
    rewrite filter_cons, decide_True by done. by rewrite IH. }
  rewrite !Hid by (clear -Hx; set_solver). done.
Qed.

Lemma change_ok c l st k : dlist l st k ->
  match c with
  | First p | Last p => p ∉ dl_head l :: k /\ is_Some (st !! p)
  | Remove p => p ∈ k
  end ->
  exists l' st', change_step c (l, st) = Ok (l', st') /\ dl_head l' = dl_head l /\
    dlist l' st' (changed c k) /\ same_dom st st' /\
    (forall p, c = Remove p -> nx st' p = Some 0 /\ pv st' p = Some 0).
Proof.
  intros [Hr Hc] Hok. destruct c as [p|p|p]; cbn [change_step fst snd changed].
  - destruct Hok as [Hp Hs].
    destruct (insertAfter_ok st (dl_head l) [] k p Hr Hp Hs) as (st' & E & Hr' & Hd).
    cbn [last_of last default from_option] in E. unfold insertFirst. change (dl_head l) with (last_of (dl_head l) []) at 1.
    rewrite E. cbn [mbind res_bind]. eexists _, _. split; [done|]. split; [done|].
    split; [|split; [done|discriminate]]. split; [done|]. cbn [dl_count length].
    rewrite Hc, wrap_add_l by lia. f_equal. lia.
  - destruct Hok as [Hp Hs]. unfold insertLast.
    rewrite (proj2 (get_prev_ok st _ _) (ring_last _ _ _ Hr)). cbn [mbind res_bind].
    destruct (insertAfter_ok st (dl_head l) k [] p) as (st' & -> & Hr' & Hd);
      [by rewrite app_nil_r|by rewrite app_nil_r|done|].
    cbn [mbind res_bind]. eexists _, _. split; [done|]. split; [done|].
    split; [|split; [done|discriminate]]. split; [done|]. cbn [dl_count].
    rewrite Hc, wrap_add_l, length_app by lia. f_equal. cbn [length]. lia.
  - apply list_elem_of_split in Hok as (k1 & k2 & ->).
    destruct (unlink_ok st (dl_head l) k1 k2 p Hr) as (st' & E & Hr' & Hd & Hz).
    unfold remove. rewrite E. cbn [mbind res_bind]. eexists _, _. split; [done|]. split; [done|].
    rewrite filter_remove by (destruct Hr as [Hnd _]; by apply NoDup_cons in Hnd as [_ ?]).
    split; [|split; [done|intros ? [= <-]; exact Hz]]. split; [done|]. cbn [dl_count].
    rewrite Hc, !length_app. cbn [length]. rewrite wrap_sub_l by lia. f_equal. lia.
Qed.

Lemma changes_ok cs l st k (items : loc -> Prop) : dlist l st k ->
  (forall p, items p -> is_Some (st !! p)) -> allowed (dl_head l) items cs k ->
  exists l' st', changes cs (l, st) = Ok (l', st') /\ dl_head l' = dl_head l /\
    dlist l' st' (all_changed cs k) /\ same_dom st st'.
Proof.
  revert l st k. induction cs as [|c cs IH]; intros l st k Hl Hi Ha; cbn [changes allowed] in *.
  { exists l, st. split; [done|]. split; [done|]. split; [exact Hl|]. done. }
  destruct Ha as [Hc Ha].
  destruct (change_ok c l st k Hl) as (l1 & st1 & -> & Hh & Hl1 & Hd & _).
  { destruct c; intuition. }
  cbn [mbind res_bind]. destruct (IH l1 st1 _ Hl1) as (l2 & st2 & -> & Hh2 & Hl2 & Hd2).
  { intros p Hp. apply Hd. auto. }
  { by rewrite Hh. }
  exists l2, st2. split; [done|]. split; [congruence|]. split; [exact Hl2|].
  intros a. unfold same_dom in Hd, Hd2. by rewrite Hd2, Hd.
Qed.

Lemma drain_ok fronts st h pre k post : ring st h (pre ++ k ++ post) ->
  drain fronts (RangeOf (List.hd (List.hd h post) k) (List.hd h post)) st = Ok (deque fronts k).
Proof.
  revert pre k post. induction fronts as [|f fronts IH]; intros pre k post Hr; [done|].
  cbn [drain]. unfold empty. cbn [firstItem lastItem].
  destruct k as [|x k]; cbn [List.hd].
  { rewrite Z.eqb_refl. by destruct f. }
  assert (x <> List.hd h post) as Hx.
  { destruct Hr as [Hnd _]. pose proof (hd_in h post) as Hin. intros E. rewrite <- E in Hin.
    apply NoDup_cons in Hnd as [Hh Hnd]. apply NoDup_app in Hnd as (_ & _ & Hnd).
    cbn in Hnd. apply NoDup_cons in Hnd as [Hn _]. clear -Hin Hh Hn. set_solver. }
  rewrite (proj2 (Z.eqb_neq _ _)) by done. destruct f.
  - assert (ring st h ((pre ++ [x]) ++ k ++ post)) as Hr2 by (by rewrite <- app_assoc).
    pose proof (ring_mid _ _ _ _ Hr2) as [Hn _]. rewrite last_of_snoc, hd_app in Hn.
    unfold popFront. cbn [firstItem lastItem].
    rewrite (proj2 (get_next_ok _ _ _) Hn). cbn [mbind res_bind mret res_ret].
    by rewrite (IH _ _ _ Hr2).
  - destruct (exists_last (l := x :: k)) as (k' & y & Ek); [done|]. rewrite Ek in Hr |- *.
    assert (ring st h (pre ++ k' ++ y :: post)) as Hr2 by (by rewrite <- app_assoc in Hr).
    pose proof (ring_mid st h (pre ++ k' ++ [y]) post) as Hm.
    rewrite !app_assoc, last_of_snoc in Hm. rewrite <- !app_assoc in Hm. specialize (Hm Hr2).
    destruct Hm as [_ Hp]. unfold back, popBack. cbn [firstItem lastItem].
    rewrite (proj2 (get_prev_ok _ _ _) Hp). cbn [mbind res_bind mret res_ret deque].
    rewrite last_snoc, removelast_last. specialize (IH _ _ _ Hr2). cbn [List.hd] in IH.
    assert (x = List.hd y k') as -> by (destruct k'; cbn in Ek |- *; congruence). by rewrite IH.
Qed.
End doubly_linked.

(** ** Singly linked lists *)

Section singly_linked.
Implicit Types (st : gmap loc loc) (h x : loc) (l k : list loc).

Fixpoint sseg st (a : loc) l (b : loc) : Prop :=
  match l with
  | [] => st !! a = Some b
  | x :: l => st !! a = Some x /\ sseg st x l b
  end.

Definition chain st h l : Prop := NoDup (h :: l) /\ sseg st h l h.

Lemma sseg_frame st st' a l b : sseg st a l b -> (forall p, p ∈ a :: l -> st' !! p = st !! p) ->
  sseg st' a l b.
Proof.
  revert a. induction l as [|x l IH]; intros a H Hf; cbn in *.
  - by rewrite Hf by left.
  - destruct H as [H1 H2]. split; [by rewrite Hf by left|]. apply IH; [done|].
    intros p Hp. apply Hf. by right.
Qed.

Lemma sseg_end st a l k b : sseg st a (l ++ k) b -> st !! last_of a l = Some (List.hd b k).
Proof.
  revert a. induction l as [|x l IH]; intros a H; cbn [app sseg] in *.
  - destruct k; cbn in *; [done|]. tauto.
  - rewrite last_of_cons. apply IH. tauto.
Qed.

Lemma sseg_insert st a l k b x : NoDup (a :: l ++ k) -> x ∉ a :: l ++ k ->
  sseg st a (l ++ k) b ->
  sseg (<[last_of a l := x]> (<[x := List.hd b k]> st)) a (l ++ x :: k) b.
Proof.
  revert a. induction l as [|z l IH]; intros a Hnd Hx H; cbn [app] in *.
  - change (last_of a []) with a. apply NoDup_cons in Hnd as [Ha Hnd].
    assert (x <> a) as Hxa by (intros ->; apply Hx; left).
    cbn [sseg]. split; [by rewrite lookup_insert_eq|].
    destruct k as [|y k]; cbn [List.hd sseg] in *.
    + by rewrite lookup_insert_ne, lookup_insert_eq by done.
    + split; [by rewrite lookup_insert_ne, lookup_insert_eq by done|].
      eapply sseg_frame; [apply H|]. intros p Hp.
      rewrite !lookup_insert_ne; [done|intros ->|intros ->]; [apply Hx; by right|by apply Ha].
  - rewrite last_of_cons. cbn [sseg] in *. destruct H as [H1 H2].
    apply NoDup_cons in Hnd as [Ha Hnd]. split.
    + pose proof (last_of_in z l) as Hin.
      rewrite !lookup_insert_ne; [done|intros ->; apply Hx; left|].
      intros E. rewrite E in Hin. apply Ha. clear -Hin. set_solver.
    + apply IH; [done| |done]. intros Hin. apply Hx. by right.
Qed.

Lemma sl_insertAfter_ok st h l k x : chain st h (l ++ k) -> x ∉ h :: l ++ k -> is_Some (st !! x) ->
  exists st', sl_insertAfter (last_of h l) x st = Ok st' /\ chain st' h (l ++ x :: k).
Proof.
  intros [Hnd Hs] Hx [n Hn]. pose proof (sseg_end _ _ _ _ _ Hs) as He.
  unfold sl_insertAfter, next_of, set_next_of. rewrite He. cbn [deref mbind res_bind].
  rewrite Hn. cbn [deref mbind res_bind mret res_ret].
  assert (last_of h l ∈ h :: l ++ k) as Hin by (pose proof (last_of_in h l); set_solver).
  rewrite lookup_insert_ne by (intros ->; done). rewrite He. cbn [deref mbind res_bind].
  eexists. split; [done|]. split; [|by apply sseg_insert].
  apply (NoDup_app_cons_comm (h :: l) k x). by constructor.
Qed.

(** What [insertLast] does: it inserts behind the first item. *)
Definition inserted_last x l : list loc :=
  match l with [] => [x] | y :: l => if decide (l = []) then [x; y] else y :: x :: l end.

Lemma sl_insertLast_ok st h l x : chain st h l -> x ∉ h :: l -> is_Some (st !! x) ->
  exists st', sl_insertLast h x st = Ok st' /\ chain st' h (inserted_last x l).
Proof.
  intros Hc Hx Hs. pose proof Hc as [Hnd Hseg]. unfold sl_insertLast, next_of at 1.
  pose proof (sseg_end st h [] l h Hseg) as H0. cbn in H0. rewrite H0.
  cbn [deref mbind res_bind]. destruct l as [|y l]; cbn [List.hd inserted_last] in *.
  - rewrite Z.eqb_refl. cbn [negb mret res_ret mbind res_bind].
    exact (sl_insertAfter_ok st h [] [] x Hc Hx Hs).
  - assert (h <> y) as Hhy by (intros ->; apply NoDup_cons in Hnd as [Hn _]; apply Hn; left).
    rewrite (proj2 (Z.eqb_neq _ _)) by done. cbn [negb last_loop].
    pose proof (sseg_end st h [y] l h Hseg) as H1. cbn in H1.
    unfold next_of. rewrite H1. cbn [deref mbind res_bind]. destruct l as [|z l]; cbn [List.hd] in *.
    + rewrite Z.eqb_refl, H0. cbn [deref mbind res_bind].
      rewrite (proj2 (Z.eqb_neq _ _)) by done. cbn [mret res_ret mbind res_bind].
      rewrite decide_True by done. exact (sl_insertAfter_ok st h [] [y] x Hc Hx Hs).
    + assert (z <> h) as Hhz.
      { intros ->. apply NoDup_cons in Hnd as [Hn _]. apply Hn. right. left. }
      rewrite (proj2 (Z.eqb_neq _ _)) by done. cbn [mret res_ret mbind res_bind].
      rewrite decide_False by done. exact (sl_insertAfter_ok st h [y] (z :: l) x Hc Hx Hs).
Qed.

Lemma sl_items_ok st h a l fuel : h ∉ l -> sseg st a l h -> (length l < fuel)%nat ->
  sl_items fuel h (List.hd h l) st = Ok l.
Proof.
  revert a fuel. induction l as [|x l IH]; intros a [|fuel] Hn Hs Hf; cbn in Hf |- *; try lia.
  - by rewrite Z.eqb_refl.
  - apply not_elem_of_cons in Hn as [Hx Hn]. rewrite (proj2 (Z.eqb_neq _ _)) by done.
    destruct Hs as [_ Hs]. pose proof (sseg_end st x [] l h Hs) as H1. cbn in H1.
    unfold next_of. rewrite H1. cbn [deref mbind res_bind].
    rewrite (IH x) by (done || lia). done.
Qed.
End singly_linked.

(** C14: The list templates.  Any sequence of insertions of new items at both ends
    and of removals of items on the list leaves a [DoublyLinkedList] well linked
    with exactly the items of the abstract list, and the number of them in its
    count; its range gives them in order, whichever end each is taken from; an
    item that is removed twice is dereferenced through null.  A
    [SinglyLinkedList] iterates over its items in order, and [insertFirst] puts
    the item at the front; but [insertLast] appends to the empty list only: its
    loop stops at once, so that the item becomes the first of a list of one and
    the second of a longer one. *)
Theorem lists_correct {V : Type} (l : DoublyLinkedList) (st : gmap loc (node V)) k cs
    (sst : gmap loc loc) h sk x :
  dlist l st k -> st !! 0 = None ->
  allowed (dl_head l) (fun p => is_Some (st !! p)) cs k ->
  chain sst h sk -> x ∉ h :: sk -> is_Some (sst !! x) ->
  (exists l' st', changes cs (l, st) = Ok (l', st') /\ dlist l' st' (all_changed cs k) /\
    (exists r, range l' st' = Ok r /\
       forall fronts, drain fronts r st' = Ok (deque fronts (all_changed cs k))) /\
    (forall p, p ∈ all_changed cs k -> exists l2 st2, remove l' p st' = Ok (l2, st2) /\
       dlist l2 st2 (changed (Remove p) (all_changed cs k)) /\ remove l2 p st2 = Fault)) /\
  (forall fuel, (length sk < fuel)%nat -> sl_items fuel h (List.hd h sk) sst = Ok sk) /\
  (exists sst', sl_insertFirst h x sst = Ok sst' /\ chain sst' h (x :: sk)) /\
  (exists sst', sl_insertLast h x sst = Ok sst' /\ chain sst' h (inserted_last x sk) /\
     (inserted_last x sk = sk ++ [x] <-> sk = [])).
Proof.
  intros Hl H0 Ha Hs Hx Hsx. split; [|split; [|split]].
  - destruct (changes_ok cs l st k (fun p => is_Some (st !! p)) Hl) as (l' & st' & E & Hh & Hl' & Hd);
      [done|done|].
    exists l', st'. split; [exact E|]. split; [exact Hl'|]. split.
    + exists (RangeOf (List.hd (dl_head l') (all_changed cs k)) (dl_head l')). split.
      * unfold range. by rewrite (proj2 (get_next_ok _ _ _) (ring_first _ _ _ (proj1 Hl'))).
      * intros fronts. apply (drain_ok fronts st' (dl_head l') [] _ []).
        rewrite app_nil_r. apply Hl'.
    + intros p Hp. destruct (change_ok (Remove p) l' st' _ Hl' Hp) as (l2 & st2 & E2 & _ & Hl2 & Hd2 & Hz).
      exists l2, st2. split; [exact E2|]. split; [exact Hl2|]. destruct (Hz p eq_refl) as [Hz1 Hz2].
      unfold remove. rewrite unlink_twice; [done|done|done|].
      apply eq_None_not_Some. unfold same_dom in Hd, Hd2. rewrite Hd2, Hd, H0. by intros [? [=]].
  - intros fuel Hf. destruct Hs as [Hnd Hseg]. apply NoDup_cons in Hnd as [Hn _].
    by apply (sl_items_ok sst h h).
  - exact (sl_insertAfter_ok sst h [] sk x Hs Hx Hsx).
  - destruct (sl_insertLast_ok sst h sk x Hs Hx Hsx) as (sst' & E & Hc).
    exists sst'. split; [exact E|]. split; [exact Hc|]. split; [|by intros ->].
    destruct sk as [|y sk]; [done|]. cbn [inserted_last]. case_decide as Hk.
    + subst sk. intros [= -> _]. exfalso. apply Hx. right. left.
    + intros E2. exfalso. destruct sk as [|z sk]; [done|]. injection E2 as <- _.
      apply Hx. right. right. left.
Qed.

(** Three items, one at the front, one removed; and three appended items, of
    which the third comes second. *)
Lemma lists_correct_witness :
  let st := DoublyLinkedItem_new 3 tt (DoublyLinkedItem_new 2 tt (DoublyLinkedItem_new 1 tt
              (DoublyLinkedList_new 9 tt ∅).2)) in
  let cs := [Last 1; Last 2; First 3; Remove 1] in
  let sst := SinglyLinkedItem_new 3 (<[9 := 1]> (<[1 := 2]> (<[2 := 9]> ∅))) in
  (exists l' st' r, changes cs (DList 9 0, st) = Ok (l', st') /\ range l' st' = Ok r /\
     drain [false; true; true] r st' = Ok [2; 3] /\ dl_count l' = 2) /\
  (exists sst', sl_insertLast 9 3 sst = Ok sst' /\ chain sst' 9 [1; 3; 2]).
Proof.
  intros st cs sst.
  assert (dlist (DList 9 0) st []) as Hl.
  { split; [split; [by apply NoDup_singleton|by split; vm_compute]|done]. }
  assert (chain sst 9 [1; 2]) as Hc.
  { split; [repeat constructor; set_solver|by split_and!; vm_compute]. }
  destruct (lists_correct (DList 9 0) st [] cs sst 9 [1; 2] 3 Hl) as (H1 & _ & _ & H4).
  - by vm_compute.
  - cbn [cs allowed changed dl_head]. split_and!;
      first [set_solver | by eexists; vm_compute | done].
  - exact Hc.
  - set_solver.
  - by eexists; vm_compute.
  - split.
    + destruct H1 as (l' & st' & E & [_ Hn] & (r & Er & Hd) & _). exists l', st', r.
      split; [exact E|]. split; [exact Er|]. split; [exact (Hd _)|exact Hn].
    + destruct H4 as (sst' & E & Hs & _). exists sst'. exact (conj E Hs).
Defined.

(** ** The list of file systems *)

Section file_systems.
Context {V : Type} (fs_mount : loc -> list Z -> ErrorCode) (v : V).
Implicit Types (st : gmap loc (node V)) (k : list loc).

(** The constructors of the file systems, in the order they run. *)
Fixpoint register_all k (s : DoublyLinkedList * gmap loc (node V)) :
    res (DoublyLinkedList * gmap loc (node V)) :=
  match k with
  | [] => mret s
  | p :: k => s ← FileSystem_new p v s.1 s.2; register_all k s
  end.

(** The first answer that is not [UnknownFsType]. *)
Fixpoint first_answer (path : list Z) k : ErrorCode :=
  match k with
  | [] => UnknownFsType
  | p :: k => if decide (fs_mount p path = UnknownFsType) then first_answer path k
              else fs_mount p path
  end.

Lemma register_ok l st k p : ring st (dl_head l) k -> p ∉ dl_head l :: k ->
  exists st', FileSystem_new p v l st = Ok (DList (dl_head l) (u32 (dl_count l + 1)), st') /\
    ring st' (dl_head l) (k ++ [p]).
Proof.
  intros Hr Hp. unfold FileSystem_new, insertLast.
  assert (ring (DoublyLinkedItem_new p v st) (dl_head l) (k ++ [])) as Hr1.
  { rewrite app_nil_r. eapply ring_frame; [exact Hr|]. intros a Ha.
    assert (p <> a) by (intros ->; done). unfold nx, pv, DoublyLinkedItem_new.
    by rewrite lookup_insert_ne. }
  rewrite (proj2 (get_prev_ok _ _ (last_of (dl_head l) k)))
    by (apply ring_last; by rewrite app_nil_r in Hr1).
  cbn [mbind res_bind].
  destruct (insertAfter_ok _ _ k [] p Hr1) as (st' & -> & Hr' & _).
  - by rewrite app_nil_r.
  - unfold DoublyLinkedItem_new. rewrite lookup_insert_eq. by eexists.
  - by exists st'.
Qed.

Lemma register_all_ok items l st k : ring st (dl_head l) k -> NoDup (dl_head l :: k ++ items) ->
  exists l' st', register_all items (l, st) = Ok (l', st') /\ dl_head l' = dl_head l /\
    ring st' (dl_head l) (k ++ items) /\
    u32 (dl_count l') = u32 (dl_count l + Z.of_nat (length items)).
Proof.
  revert l st k. induction items as [|p items IH]; intros l st k Hr Hnd; cbn [register_all].
  { exists l, st. rewrite app_nil_r. split; [done|]. split; [done|]. split; [done|]. f_equal. cbn. lia. }
  destruct (register_ok l st k p Hr) as (st1 & E & Hr1).
  { apply (NoDup_app_cons_comm (dl_head l :: k)) in Hnd. apply NoDup_cons in Hnd as [Hn _].
    clear -Hn. set_solver. }
  cbn [fst snd]. rewrite E. cbn [mbind res_bind].
  destruct (IH (DList (dl_head l) (u32 (dl_count l + 1))) st1 (k ++ [p])) as (l' & st' & E' & Hh & Hr' & Hc).
  { exact Hr1. }
  { by rewrite <- app_assoc. }
  cbn [dl_head dl_count] in *. exists l', st'. rewrite <- app_assoc in Hr'.
  split; [exact E'|]. split; [exact Hh|]. split; [exact Hr'|].
  rewrite Hc, wrap_add_l. f_equal. cbn [length]. lia.
Qed.

Lemma mount_loop_ok path l st pre k fuel : ring st (dl_head l) (pre ++ k) -> (length k < fuel)%nat ->
  mount_loop fs_mount fuel path l (List.hd (dl_head l) k) st = Ok (first_answer path k).
Proof.
  revert pre fuel. induction k as [|p k IH]; intros pre [|fuel] Hr Hf; cbn in Hf; try lia;
    cbn [mount_loop List.hd first_answer].
  { by rewrite Z.eqb_refl. }
  assert (p <> dl_head l) as Hp.
  { destruct Hr as [Hnd _]. apply NoDup_cons in Hnd as [Hn _]. intros ->. apply Hn. set_solver. }
  rewrite (proj2 (Z.eqb_neq _ _)) by done. case_decide; [|done].
  assert (ring st (dl_head l) ((pre ++ [p]) ++ k)) as Hr2 by (by rewrite <- app_assoc).
  pose proof (ring_mid _ _ _ _ Hr2) as [Hn _]. rewrite last_of_snoc in Hn.
  rewrite (proj2 (get_next_ok _ _ _) Hn). cbn [mbind res_bind].
  apply (IH (pre ++ [p])); [done|lia].
Qed.

(** The list of file systems.  It holds the objects in the order of their
    construction, and [FileSystem::mount] asks them in that order and returns
    the first answer that is not [UnknownFsType].  The list's head is a
    [FileSystem] itself, whose constructor registers it, so that the count is
    one more than the number of file systems. *)
Theorem file_systems head items (st : gmap loc (node V)) : NoDup (head :: items) ->
  exists l0 st0 l st', FileSystem_list head v st = Ok (l0, st0) /\
    register_all items (l0, st0) = Ok (l, st') /\ ring st' head items /\
    u32 (dl_count l) = u32 (Z.of_nat (length items) + 1) /\
    forall path, mount fs_mount (S (length items)) path l st' = Ok (first_answer path items).
Proof.
  intros Hnd.
  assert (exists st0, FileSystem_list head v st = Ok (DList head 1, st0) /\ ring st0 head []) as (st0 & E0 & Hr0).
  { unfold FileSystem_list, FileSystem_new, insertLast, insertAfter, DoublyLinkedItem_new.
    cbn [dl_head dl_count].
    assert (forall n, get_next (<[head := n]> st) head = Ok (n_next n)) as Gn
      by (intros n; unfold get_next; by rewrite lookup_insert_eq).
    assert (forall n, get_prev (<[head := n]> st) head = Ok (n_prev n)) as Gp
      by (intros n; unfold get_prev; by rewrite lookup_insert_eq).
    assert (forall n a, set_next (<[head := n]> st) head a = Ok (<[head := Node (n_prev n) a (n_val n)]> st)) as Sn
      by (intros n a; unfold set_next; rewrite lookup_insert_eq; cbn; by rewrite insert_insert_eq).
    assert (forall n a, set_prev (<[head := n]> st) head a = Ok (<[head := Node a (n_next n) (n_val n)]> st)) as Sp
      by (intros n a; unfold set_prev; rewrite lookup_insert_eq; cbn; by rewrite insert_insert_eq).
    rewrite Gp. cbn [mbind res_bind n_prev]. rewrite Gn. cbn [mbind res_bind n_next].
    rewrite Sn. cbn [mbind res_bind]. rewrite Sp. cbn [mbind res_bind]. rewrite Gn.
    cbn [mbind res_bind n_next]. rewrite Sp. cbn [mbind res_bind]. rewrite Sn. cbn [mbind res_bind].
    eexists. split; [done|]. split; [by apply NoDup_singleton|].
    cbn [dseg]. unfold nx, pv. by rewrite lookup_insert_eq. }
  destruct (register_all_ok items (DList head 1) st0 [] Hr0 Hnd) as (l & st' & E & Hh & Hr & Hc).
  cbn [dl_head dl_count app] in *. exists (DList head 1), st0, l, st'.
  split; [exact E0|]. split; [exact E|]. split; [exact Hr|]. split; [rewrite Hc; f_equal; lia|].
  intros path. unfold mount. rewrite Hh.
  rewrite (proj2 (get_next_ok _ _ _) (ring_first _ _ _ Hr)). cbn [mbind res_bind].
  pose proof (mount_loop_ok path l st' [] items (S (length items))) as T. rewrite Hh in T.
  apply T; [done|lia].
Qed.
End file_systems.

(** A disk that does not know the path, and a RAM disk that mounts anything. *)
Lemma file_systems_witness :
  let answer := fun (p : loc) (path : list Z) => if p =? 2 then EOk else UnknownFsType in
  exists l (st : gmap loc (node unit)), mount answer 3 [] l st = Ok EOk /\ ring st 9 [1; 2] /\ u32 (dl_count l) = 3.
Proof.
  intros answer.
  destruct (file_systems answer tt 9 [1; 2] ∅) as (_ & _ & l & st & _ & _ & Hr & Hc & Hm).
  - repeat constructor; set_solver.
  - exists l, st. split; [exact (Hm [])|]. split; [exact Hr|exact Hc].
Defined.
