(* ===== verification/Hash.v ===== *)
(** * Block hashing

    What the four digests of CLibrary/hash have in common.  Each keeps a chaining
    state, a bit count and a block buffer, and offers [Init], [Update] and
    [Final].  [holds] says that a state and a buffer have consumed a message:
    the whole blocks are folded into the state and the buffer starts with the
    rest.  The lemmas on [holds] are the steps of every [Update].

    [Digest] is the interface the four implementations discharge; against it,
    once and for all, [run_digest_ok]: however a message is split into calls of
    [Update], [Final] returns the reference digest of the whole message. *)

From S2P Require Import Prelude.
From S2P Require Import Words.
From Stdlib Require Import ZArith Lia.
From stdpp Require Import prelude gmap list.

Open Scope Z_scope.

(** [memcpy(buf + off, src, length src)] inside the array [buf]. *)
Definition splice (off : nat) (src buf : list Z) : list Z :=
  take off buf ++ src ++ drop (off + length src) buf.

Lemma splice_length off src buf : (off + length src <= length buf)%nat ->
  length (splice off src buf) = length buf.
Proof. intros. unfold splice. rewrite !length_app, length_take, length_drop. lia. Qed.

Lemma splice_take off src buf : (off + length src <= length buf)%nat ->
  take (off + length src) (splice off src buf) = take off buf ++ src.
Proof.
  intros. unfold splice. rewrite app_assoc. apply take_app_length'.
  rewrite length_app, length_take. lia.
Qed.

Lemma splice_full off src buf : (off + length src)%nat = length buf ->
  splice off src buf = take off buf ++ src.
Proof. intros. unfold splice. rewrite drop_ge by lia. by rewrite app_nil_r. Qed.

Lemma splice_bytes off src buf : bytes_ok src -> bytes_ok buf -> bytes_ok (splice off src buf).
Proof.
  intros. unfold splice. apply Forall_app_2; [by apply Forall_take|].
  apply Forall_app_2; [done|by apply Forall_drop].
Qed.

Lemma splice_nil off buf : splice off [] buf = buf.
Proof. unfold splice. cbn [length]. rewrite Nat.add_0_r, app_nil_l. apply take_drop. Qed.

(** The array [buf] starts with [l]. *)
Definition begins (l buf : list Z) : Prop := take (length l) buf = l.

Lemma begins_splice l src buf : begins l buf -> (length l + length src <= length buf)%nat ->
  begins (l ++ src) (splice (length l) src buf).
Proof. intros Hb Hl. unfold begins. rewrite length_app, splice_take by done. by rewrite Hb. Qed.

Lemma begins_start src buf : (length src <= length buf)%nat -> begins src (splice 0 src buf).
Proof. exact (splice_take 0 src buf). Qed.

Lemma begins_prefix l k buf : begins (l ++ k) buf -> begins l buf.
Proof.
  unfold begins. intros H. rewrite <-(take_app_length l k) at 2. rewrite <-H, take_take.
  rewrite length_app. f_equal. lia.
Qed.

Lemma insert_splice (u : nat) x (buf : list Z) : (u < length buf)%nat ->
  <[u := x]> buf = splice u [x] buf.
Proof.
  intros Hu. unfold splice. rewrite insert_take_drop by done. cbn [length app].
  by rewrite Nat.add_1_r.
Qed.

(** A guarded [memcpy]. *)
Lemma splice_if off src buf :
  (if negb (length src =? 0)%nat then splice off src buf else buf) = splice off src buf.
Proof. destruct src; cbn [length Nat.eqb negb]; [by rewrite splice_nil|done]. Qed.

(** A bit count modulo [2^64], the fill of a 64-byte buffer it stands for, and
    how a piece advances it. *)
Lemma count_fill (n : nat) : Z.land (Z.shiftr (u64 (8 * Z.of_nat n)) 3) 63 = Z.of_nat (n mod 64).
Proof.
  change 63 with (2 ^ 6 - 1). rewrite land_ones_low, Z.shiftr_div_pow2 by lia.
  unfold wrap. rewrite Nat2Z.inj_mod.
  change (2 ^ 64) with (8 * 2 ^ 61). change (2 ^ 3) with 8.
  rewrite Z.mul_mod_distr_l by lia. rewrite (Z.mul_comm 8), Z.div_mul by lia.
  symmetry. change (Z.of_nat 64) with (2 ^ 6). apply Znumtheory.Zmod_div_mod; [lia..|].
  by exists (2 ^ 55).
Qed.

Lemma count_step (n k : nat) :
  u64 (u64 (8 * Z.of_nat n) + wshl 64 (Z.of_nat k) 3) = u64 (8 * Z.of_nat (n + k)).
Proof.
  unfold wshl. rewrite Z.shiftl_mul_pow2 by lia. change (2 ^ 3) with 8.
  rewrite Nat2Z.inj_add. wrap_ring.
Qed.

Section blocks.
Context {St : Type} (BL : nat) (HBL : (0 < BL)%nat) (compress : St -> list Z -> St) (iv : St).
Implicit Types (s : St) (m d buf : list Z).

(** [n] whole blocks from the front of [m]. *)
Fixpoint absorb_n (n : nat) s m : St :=
  match n with
  | O => s
  | S n => absorb_n n (compress s (take BL m)) (drop BL m)
  end.

(** All whole blocks of [m]. *)
Definition absorb s m : St := absorb_n (length m / BL) s m.

(** What is left after the whole blocks. *)
Definition rest m : list Z := drop (BL * (length m / BL)) m.

(** [while (len >= BL) { compress(state, input); input += BL; len -= BL; }] *)
Fixpoint blocks_loop (fuel : nat) s d : res (St * list Z) :=
  match fuel with
  | O => NoFuel
  | S fuel =>
      if (BL <=? length d)%nat then blocks_loop fuel (compress s (take BL d)) (drop BL d)
      else mret (s, d)
  end.

Lemma absorb_n_app n s m d : (BL * n <= length m)%nat -> absorb_n n s (m ++ d) = absorb_n n s m.
Proof.
  revert s m; induction n as [|n IH]; intros s m Hn; cbn; [done|].
  rewrite take_app_le, drop_app_le by lia. apply IH. rewrite length_drop. lia.
Qed.

Lemma absorb_n_add a b s m : absorb_n (a + b) s m = absorb_n b (absorb_n a s m) (drop (BL * a) m).
Proof.
  revert s m; induction a as [|a IH]; intros s m; cbn [absorb_n Nat.add].
  - by rewrite Nat.mul_0_r, drop_0.
  - rewrite IH, drop_drop. do 2 f_equal. lia.
Qed.

(** A message whose length is a number of blocks, then more. *)
Lemma absorb_app s m d : (length m mod BL = 0)%nat -> absorb s (m ++ d) = absorb (absorb s m) d.
Proof.
  intros Hm. unfold absorb. rewrite length_app.
  assert (Hl : length m = (BL * (length m / BL))%nat).
  { pose proof (Nat.div_mod (length m) BL). lia. }
  replace ((length m + length d) / BL)%nat with (length m / BL + length d / BL)%nat.
  2:{ rewrite Hl at 2. rewrite (Nat.add_comm (BL * _)), (Nat.mul_comm BL), Nat.div_add by lia. lia. }
  rewrite absorb_n_add, absorb_n_app by lia. rewrite <-Hl. by rewrite drop_app_length.
Qed.

Lemma absorb_one s d : length d = BL -> absorb s d = compress s d.
Proof.
  intros Hd. unfold absorb. rewrite Hd, Nat.div_same by lia. cbn.
  by rewrite take_ge by lia.
Qed.

Lemma absorb_short s d : (length d < BL)%nat -> absorb s d = s.
Proof. intros Hd. unfold absorb. by rewrite Nat.div_small. Qed.

Lemma rest_split m : exists k, m = k ++ rest m /\ (length k mod BL = 0)%nat /\
  length (rest m) = (length m mod BL)%nat.
Proof.
  exists (take (BL * (length m / BL)) m). unfold rest.
  pose proof (Nat.div_mod (length m) BL). rewrite take_drop, length_take, length_drop.
  split; [done|]. split; [|lia].
  rewrite Nat.min_l by lia. by rewrite Nat.mul_comm, Nat.Div0.mod_mul.
Qed.

Lemma mod_eq_add a b : ((BL * a + b) mod BL = b mod BL)%nat.
Proof. rewrite Nat.add_comm, (Nat.mul_comm BL). apply Nat.Div0.mod_add. Qed.

Lemma rest_app k d : (length k mod BL = 0)%nat -> (length d < BL)%nat -> rest (k ++ d) = d.
Proof.
  intros Hk Hd. unfold rest. rewrite length_app.
  assert (Hl : length k = (BL * (length k / BL))%nat) by (pose proof (Nat.div_mod (length k) BL); lia).
  replace ((length k + length d) / BL)%nat with (length k / BL)%nat.
  { rewrite <-Hl. apply drop_app_length. }
  rewrite Hl at 2. rewrite (Nat.add_comm (BL * _)), (Nat.mul_comm BL), Nat.div_add by lia.
  rewrite (Nat.div_small (length d)) by lia. lia.
Qed.

(** The state and the buffer have consumed [m]. *)
Definition holds s buf m : Prop :=
  s = absorb iv m /\ (BL <= length buf)%nat /\ take (length m mod BL) buf = rest m.

Lemma holds_nil buf : (BL <= length buf)%nat -> holds iv buf [].
Proof.
  intros. split; [by rewrite absorb_short by (cbn; lia)|]. split; [done|].
  cbn [length]. rewrite Nat.Div0.mod_0_l. unfold rest. by rewrite drop_nil.
Qed.

(** Not enough for a block: the bytes go to the buffer. *)
Lemma holds_short s buf m d : holds s buf m -> (length m mod BL + length d < BL)%nat ->
  holds s (splice (length m mod BL) d buf) (m ++ d).
Proof.
  intros (-> & Hb & Hr) Hd. destruct (rest_split m) as (k & Hm & Hk & Hl).
  assert (Hmd : m ++ d = k ++ (rest m ++ d)) by (rewrite Hm at 1; by rewrite <-app_assoc).
  assert (Hmod : (length (m ++ d) mod BL = length m mod BL + length d)%nat).
  { rewrite Hmd, !length_app. rewrite Hl.
    rewrite <-Nat.Div0.add_mod_idemp_l, Hk, Nat.add_0_l, Nat.mod_small; lia. }
  split; [|split].
  - rewrite Hmd, absorb_app by done.
    rewrite (absorb_short _ (rest m ++ d)) by (rewrite length_app; lia).
    rewrite Hm at 1. rewrite absorb_app by done. by rewrite absorb_short by lia.
  - rewrite splice_length; lia.
  - rewrite Hmod, splice_take by lia. rewrite Hmd, rest_app by (rewrite ?length_app; lia).
    by rewrite Hr.
Qed.

(** The same with an empty buffer. *)
Lemma holds_tail s buf m d : holds s buf m -> (length m mod BL = 0)%nat ->
  (length d < BL)%nat -> holds s (splice 0 d buf) (m ++ d).
Proof. intros Hh Hm Hd. pose proof (holds_short s buf m d Hh) as H. rewrite Hm in H. auto. Qed.

(** The buffer becomes a whole block. *)
Lemma holds_fill s buf buf' m d : holds s buf m -> (length m mod BL + length d)%nat = BL ->
  (BL <= length buf')%nat ->
  holds (compress s (take BL (splice (length m mod BL) d buf))) buf' (m ++ d) /\
  (length (m ++ d) mod BL = 0)%nat.
Proof.
  intros (-> & Hb & Hr) Hd Hb'. destruct (rest_split m) as (k & Hm & Hk & Hl).
  assert (Hmd : m ++ d = k ++ (rest m ++ d)) by (rewrite Hm at 1; by rewrite <-app_assoc).
  assert (Hmod : (length (m ++ d) mod BL = 0)%nat).
  { rewrite Hmd, !length_app, Hl, Hd. rewrite <-Nat.Div0.add_mod_idemp_l, Hk.
    apply Nat.Div0.mod_same. }
  split; [|done]. split; [|split; [done|]].
  - assert (take BL (splice (length m mod BL) d buf) = rest m ++ d) as ->.
    { transitivity (take (length m mod BL + length d) (splice (length m mod BL) d buf));
        [by rewrite Hd|by rewrite splice_take, Hr by lia]. }
    rewrite Hmd, absorb_app by done.
    rewrite (absorb_one _ (rest m ++ d)) by (rewrite length_app; lia). f_equal.
    pose proof (Nat.mod_upper_bound (length m) BL).
    rewrite Hm at 1. rewrite absorb_app by done. by rewrite absorb_short by lia.
  - rewrite Hmod, take_0. rewrite <-(app_nil_r (m ++ d)). rewrite rest_app; [done|done|cbn; lia].
Qed.

(** The loop over whole blocks. *)
Lemma holds_loop fuel s buf m d : holds s buf m -> (length m mod BL = 0)%nat ->
  (length d < fuel)%nat ->
  exists s' k d', blocks_loop fuel s d = Ok (s', d') /\ d = k ++ d' /\ (length d' < BL)%nat /\
    holds s' buf (m ++ k) /\ (length (m ++ k) mod BL = 0)%nat.
Proof.
  revert s m d; induction fuel as [|fuel IH]; intros s m d Hh Hm Hf; [lia|].
  cbn [blocks_loop]. destruct (BL <=? length d)%nat eqn:E.
  - apply Nat.leb_le in E.
    assert (Hlt : length (take BL d) = BL) by (rewrite length_take; lia).
    destruct (holds_fill s buf buf m (take BL d) Hh) as [Hh' Hm'];
      [lia|by destruct Hh as (_ & ? & _)|].
    rewrite Hm in Hh'.
    assert (take BL (splice 0 (take BL d) buf) = take BL d) as E2.
    { transitivity (take (0 + length (take BL d)) (splice 0 (take BL d) buf));
        [by rewrite Hlt|]. rewrite splice_take by (destruct Hh as (_ & ? & _); lia). done. }
    rewrite E2 in Hh'.
    destruct (IH _ _ (drop BL d) Hh' Hm') as (s' & k & d' & El & Ed & Hd' & Hh2 & Hm2).
    { rewrite length_drop. lia. }
    exists s', (take BL d ++ k), d'. split; [done|].
    rewrite <-app_assoc, <-Ed, take_drop. split; [done|]. split; [done|].
    by rewrite app_assoc.
  - apply Nat.leb_gt in E. exists s, [], d. rewrite app_nil_r. done.
Qed.
End blocks.

(** The words of a block. *)
Definition words (dec : list Z -> Z) (n cnt : nat) (block : list Z) : list Z :=
  (fun i => dec (take n (drop (n * i) block))) <$> seq 0 cnt.

Lemma absorb_eq {St} BL (c1 c2 : St -> list Z -> St) s m : (forall s b, c1 s b = c2 s b) ->
  absorb BL c1 s m = absorb BL c2 s m.
Proof.
  intros Hc. unfold absorb. generalize (length m / BL)%nat. intros n.
  revert s m; induction n as [|n IH]; intros s m; cbn; [done|]. by rewrite Hc, IH.
Qed.

(** Folding a compression function that agrees with another one on blocks. *)
Lemma absorb_ext {St} BL (c1 c2 : St -> list Z -> St) s m :
  (0 < BL)%nat -> (forall s b, length b = BL -> bytes_ok b -> c1 s b = c2 s b) -> bytes_ok m ->
  absorb BL c1 s m = absorb BL c2 s m.
Proof.
  intros HBL Hc. unfold absorb. assert (Hn := Nat.Div0.mul_div_le (length m) BL).
  revert Hn. generalize (length m / BL)%nat. intros n.
  revert s m; induction n as [|n IH]; intros s m Hn Hm; cbn; [done|].
  rewrite Hc by (rewrite ?length_take; try lia; by apply Forall_take).
  apply IH; [rewrite length_drop; lia|by apply Forall_drop].
Qed.

(** Padding of a message of [n] bytes to a whole number of 64-byte blocks, with
    an 8-byte length. *)
Definition md_zeros (n : nat) : nat := (119 - n mod 64) mod 64.

Lemma md_zeros_eq n : let padlen := (64 - n mod 64)%nat in
  ((if padlen <? 1 + 8 then padlen + 64 else padlen) = md_zeros n + 9)%nat.
Proof.
  cbv zeta. unfold md_zeros. pose proof (Nat.mod_upper_bound n 64).
  destruct (_ <? _)%nat eqn:E; [apply Nat.ltb_lt in E|apply Nat.ltb_ge in E].
  - rewrite (Nat.mod_small (119 - _)); lia.
  - replace (119 - n mod 64)%nat with (55 - n mod 64 + 1 * 64)%nat by lia.
    rewrite Nat.Div0.mod_add, (Nat.mod_small (55 - _)); lia.
Qed.

Lemma md_zeros_whole n : ((n + (md_zeros n + 9)) mod 64 = 0)%nat /\ (md_zeros n < 64)%nat.
Proof.
  split; [|by apply Nat.mod_upper_bound]. rewrite <-(md_zeros_eq n).
  pose proof (Nat.div_mod n 64). pose proof (Nat.mod_upper_bound n 64).
  destruct (_ <? _)%nat.
  - replace (n + (64 - n mod 64 + 64))%nat with ((n / 64 + 2) * 64)%nat by lia.
    apply Nat.Div0.mod_mul.
  - replace (n + (64 - n mod 64))%nat with ((n / 64 + 1) * 64)%nat by lia.
    apply Nat.Div0.mod_mul.
Qed.

(** ** The interface *)

Class Digest (C : Type) := {
  dg_wf : C -> Prop;                        (** the arrays have their lengths *)
  dg_init : C -> C;
  dg_update : C -> list Z -> res C;
  dg_final : C -> res (list Z);
  dg_max : Z;                               (** longest piece [Update] counts *)
  dg_reference : list Z -> list Z;
  dg_absorbed : C -> list Z -> Prop;
  dg_init_ok : forall c, dg_wf c -> dg_absorbed (dg_init c) [];
  dg_update_ok : forall c m d, dg_absorbed c m -> bytes_ok d -> Z.of_nat (length d) < dg_max ->
    exists c', dg_update c d = Ok c' /\ dg_absorbed c' (m ++ d);
  dg_final_ok : forall c m, dg_absorbed c m -> dg_final c = Ok (dg_reference m);
}.

Section digest.
Context {C : Type} `{Digest C}.

(** A client: the pieces one after the other. *)
Fixpoint updates (c : C) (ds : list (list Z)) : res C :=
  match ds with
  | [] => mret c
  | d :: ds => c' ← dg_update c d; updates c' ds
  end.

Definition run_digest (c : C) (ds : list (list Z)) : res (list Z) :=
  c ← updates (dg_init c) ds;
  dg_final c.

Lemma updates_ok c m ds : dg_absorbed c m ->
  Forall (fun d => bytes_ok d /\ Z.of_nat (length d) < dg_max) ds ->
  exists c', updates c ds = Ok c' /\ dg_absorbed c' (m ++ concat ds).
Proof.
  intros Hc Hds. revert c m Hc; induction Hds as [|d ds [Hd Hl] _ IH]; intros c m Hc; cbn.
  - exists c. by rewrite app_nil_r.
  - destruct (dg_update_ok c m d Hc Hd Hl) as (c1 & -> & Hc1). cbn.
    destruct (IH _ _ Hc1) as (c' & -> & Hc'). exists c'. by rewrite app_assoc.
Qed.

Lemma run_digest_ok c ds : dg_wf c ->
  Forall (fun d => bytes_ok d /\ Z.of_nat (length d) < dg_max) ds ->
  run_digest c ds = Ok (dg_reference (concat ds)).
Proof.
  intros Hc Hds. unfold run_digest.
  destruct (updates_ok (dg_init c) [] ds (dg_init_ok c Hc) Hds) as (c' & -> & Hc'). cbn.
  by apply dg_final_ok.
Qed.
End digest.

(** ** Offsets

    [SHA1Update] and [RMD160Update] keep the input pointer and advance an
    offset [off] into it, in [size_t]; [more off len] is the loop's test. *)
Section offsets.
Context {St : Type} (compress : St -> list Z -> St) (more : Z -> Z -> bool).

Fixpoint offset_loop (fuel : nat) (s : St) (data : list Z) (off : Z) : res (St * Z) :=
  match fuel with
  | O => NoFuel
  | S fuel =>
      if more off (Z.of_nat (length data)) then
        offset_loop fuel (compress s (take 64 (drop (Z.to_nat off) data))) data (u32 (off + 64))
      else mret (s, off)
  end.

(** It is the loop over the rest of the input. *)
Lemma offset_loop_ok fuel s data off :
  (forall i, 0 <= i <= Z.of_nat (length data) ->
     more i (Z.of_nat (length data)) = (i + 64 <=? Z.of_nat (length data))) ->
  Z.of_nat (length data) < 2 ^ 32 -> 0 <= off <= Z.of_nat (length data) ->
  offset_loop fuel s data off
  = (fun '(s', d') => (s', Z.of_nat (length data) - Z.of_nat (length d')))
      <$> blocks_loop 64 compress fuel s (drop (Z.to_nat off) data).
Proof.
  intros Hmore Hlen. revert s off; induction fuel as [|fuel IH]; intros s off Hoff; [done|].
  cbn [offset_loop blocks_loop]. rewrite Hmore, length_drop by lia.
  destruct (off + 64 <=? Z.of_nat (length data)) eqn:E; zbool.
  - rewrite (wrap_id 32) by (unfold uint; lia). rewrite IH by lia.
    rewrite (proj2 (Nat.leb_le 64 _)) by lia. rewrite drop_drop.
    do 2 f_equal. f_equal. lia.
  - rewrite (proj2 (Nat.leb_gt 64 _)) by lia. cbn [mret res_ret fmap res_fmap].
    rewrite length_drop. do 2 f_equal. lia.
Qed.
End offsets.

(** [i & 15], an index into the circular buffers of SHA-1 and SHA-2. *)
Definition and15 (i : nat) : nat := Z.to_nat (Z.land (Z.of_nat i) 15).

Lemma and15_mod i : and15 i = (i mod 16)%nat.
Proof.
  unfold and15. change 15 with (2 ^ 4 - 1). rewrite land_ones_low by lia.
  change (2 ^ 4) with (Z.of_nat 16). by rewrite <-Nat2Z.inj_mod, Nat2Z.id.
Qed.

(** ** Message schedules in a circular buffer of sixteen words *)

Section schedule.
Context (next : list Z -> nat -> Z) (X : list Z) (HX : length X = 16%nat).

(** The reference: [16 + n] words, each computed from the list before it. *)
Fixpoint schedule (n : nat) : list Z :=
  match n with
  | O => X
  | S n => let W := schedule n in W ++ [next W n]
  end.

Lemma schedule_length n : length (schedule n) = (16 + n)%nat.
Proof. induction n as [|n IH]; cbn [schedule]; [done|]. rewrite length_app, IH. cbn. lia. Qed.

Lemma schedule_prefix n k t : (t < 16 + n)%nat -> schedule (n + k) !!! t = schedule n !!! t.
Proof.
  intros Ht. induction k as [|k IH]; [by rewrite Nat.add_0_r|].
  rewrite Nat.add_succ_r. cbn [schedule].
  by rewrite lookup_total_app_l by (rewrite schedule_length; lia).
Qed.

Lemma schedule_step n t : (16 <= t < 16 + n)%nat ->
  schedule n !!! t = next (schedule (t - 16)) (t - 16).
Proof.
  intros Ht. replace n with (S (t - 16) + (n - S (t - 16)))%nat by lia.
  rewrite schedule_prefix by lia. cbn [schedule].
  rewrite lookup_total_app_r by (rewrite schedule_length; lia). rewrite schedule_length.
  by replace (t - (16 + (t - 16)))%nat with 0%nat by lia.
Qed.

(** Before step [t] the buffer holds the last sixteen words. *)
Definition circular (n t : nat) (l : list Z) : Prop :=
  length l = 16%nat /\
  (forall s, (s < t <= s + 16)%nat -> l !!! (s mod 16)%nat = schedule n !!! s).

Lemma circular_0 n l : length l = 16%nat -> circular n 0 l.
Proof. intros. split; [done|]. lia. Qed.

Lemma circular_next n t l : circular n t l ->
  circular n (S t) (<[(t mod 16)%nat := schedule n !!! t]> l).
Proof.
  intros (Hl & Hw). pose proof (Nat.mod_upper_bound t 16).
  split; [by rewrite length_insert|]. intros s Hs. destruct (decide (s = t)) as [->|Hne].
  - by rewrite list_lookup_total_insert_eq by lia.
  - rewrite list_lookup_total_insert_ne; [apply Hw; lia|].
    intros E. pose proof (Nat.div_mod t 16). pose proof (Nat.div_mod s 16). lia.
Qed.

(** The word [k] steps back is at offset [16 - k]. *)
Lemma circular_back n t l k j : circular n t l -> (0 < k <= t)%nat -> (k + j = 16)%nat ->
  l !!! ((t + j) mod 16)%nat = schedule n !!! (t - k)%nat.
Proof.
  intros (_ & Hw) Hk Hj. rewrite <-Hw by lia. f_equal.
  replace (t + j)%nat with (t - k + 1 * 16)%nat by lia. apply Nat.Div0.mod_add.
Qed.
End schedule.

(** ** Roots, from which the standards take their constants *)

(** The integer cube root of [x], below [2^n], by bits. *)
Fixpoint cbrt_bits (n : nat) (x acc : Z) : Z :=
  match n with
  | O => acc
  | S n => let a := acc + 2 ^ Z.of_nat n in
           cbrt_bits n x (if a * a * a <=? x then a else acc)
  end.

Definition is_prime (p : nat) : bool :=
  (2 <=? p)%nat && forallb (fun d => negb (p mod d =? 0)%nat) (seq 2 (p - 2)).

(** The first eighty primes. *)
Definition primes : list Z := Z.of_nat <$> List.filter is_prime (seq 0 410).

(** ** Five registers (SHA-1, RIPEMD-160) *)

Module Five.
Inductive reg := A | B | C | D | E.

Record regs : Type := Regs { ra : Z; rb : Z; rc : Z; rd : Z; re : Z }.

Definition get (r : regs) (x : reg) : Z :=
  match x with A => ra r | B => rb r | C => rc r | D => rd r | E => re r end.

Definition set (r : regs) (x : reg) (v : Z) : regs :=
  match x with
  | A => Regs v (rb r) (rc r) (rd r) (re r)
  | B => Regs (ra r) v (rc r) (rd r) (re r)
  | C => Regs (ra r) (rb r) v (rd r) (re r)
  | D => Regs (ra r) (rb r) (rc r) v (re r)
  | E => Regs (ra r) (rb r) (rc r) (rd r) v
  end.

Definition list_of (r : regs) : list Z := [ra r; rb r; rc r; rd r; re r].

(** [state[k] += x_k] *)
Definition add (r s : regs) : regs :=
  Regs (u32 (ra r + ra s)) (u32 (rb r + rb s)) (u32 (rc r + rc s))
       (u32 (rd r + rd s)) (u32 (re r + re s)).

(** The order in which step [i] of an unrolled loop names the registers. *)
Definition rot (i : nat) : reg * reg * reg * reg * reg :=
  match (i mod 5)%nat with
  | 0%nat => (A, B, C, D, E) | 1%nat => (E, A, B, C, D) | 2%nat => (D, E, A, B, C)
  | 3%nat => (C, D, E, A, B) | _ => (B, C, D, E, A)
  end.

Definition view (i : nat) (r : regs) : Z * Z * Z * Z * Z :=
  let '(v, w, x, y, z) := rot i in (get r v, get r w, get r x, get r y, get r z).

Lemma mod5_cases (i : nat) : ((i mod 5 = 0 /\ S i mod 5 = 1) \/ (i mod 5 = 1 /\ S i mod 5 = 2) \/
  (i mod 5 = 2 /\ S i mod 5 = 3) \/ (i mod 5 = 3 /\ S i mod 5 = 4) \/
  (i mod 5 = 4 /\ S i mod 5 = 0))%nat.
Proof.
  pose proof (Nat.mod_upper_bound i 5). rewrite <-(Nat.add_1_r i), <-Nat.Div0.add_mod_idemp_l.
  destruct (i mod 5)%nat as [|[|[|[|[|]]]]]; cbn; lia.
Qed.
End Five.
