(* ===== verification/Md5.v ===== *)
(** * MD5

    CLibrary/hash/md5.c.  [MD5Transform] is the unrolled code: [md5_program] is
    its 64 macro calls as data, in order, and [md5_step] is the macro.  The
    reference is RFC 1321: the four rounds as one loop over a rotating register
    file, with the message indices, shift amounts and constants by formula
    (the constants are the integer parts of [2^32 * |sin i|], computed here
    from the power series of the sine), and the padding rule. *)

From S2P Require Import Prelude.
From S2P Require Import Words.
From S2P Require Import Hash.
From Stdlib Require Import ZArith Lia.
From stdpp Require Import prelude gmap list.

Open Scope Z_scope.

(** ** The code *)

Definition MD5_BLOCK_LENGTH : nat := 64.

Inductive fn := F1 | F2 | F3 | F4.
Inductive reg := A | B | C | D.

(** The local variables [a], [b], [c], [d]; also [state[4]]. *)
Record regs : Type := Regs { ra : Z; rb : Z; rc : Z; rd : Z }.

Definition get (r : regs) (x : reg) : Z :=
  match x with A => ra r | B => rb r | C => rc r | D => rd r end.

Definition set (r : regs) (x : reg) (v : Z) : regs :=
  match x with
  | A => Regs v (rb r) (rc r) (rd r)
  | B => Regs (ra r) v (rc r) (rd r)
  | C => Regs (ra r) (rb r) v (rd r)
  | D => Regs (ra r) (rb r) (rc r) v
  end.

Definition eval_F1 (x y z : Z) : Z := Z.lxor z (Z.land x (Z.lxor y z)).

Definition eval (f : fn) (x y z : Z) : Z :=
  match f with
  | F1 => eval_F1 x y z
  | F2 => eval_F1 z x y
  | F3 => Z.lxor (Z.lxor x y) z
  | F4 => Z.lxor y (Z.lor x (wnot 32 z))
  end.

(** A call [MD5STEP(f, w, x, y, z, in[k] + t, s)]. *)
Record step : Type := MD5STEP {
  st_f : fn; st_w : reg; st_x : reg; st_y : reg; st_z : reg;
  st_k : nat; st_t : Z; st_s : Z;
}.

Definition md5_step (in_ : list Z) (r : regs) (p : step) : regs :=
  let data := u32 (in_ !!! st_k p + st_t p) in
  let r := set r (st_w p) (u32 (get r (st_w p)
    + u32 (eval (st_f p) (get r (st_x p)) (get r (st_y p)) (get r (st_z p)) + data))) in
  let r := set r (st_w p) (wrotl 32 (get r (st_w p)) (st_s p)) in
  set r (st_w p) (u32 (get r (st_w p) + get r (st_x p))).

Definition md5_round1 : list step :=
  [MD5STEP F1 A B C D  0 0xd76aa478  7;
   MD5STEP F1 D A B C  1 0xe8c7b756 12;
   MD5STEP F1 C D A B  2 0x242070db 17;
   MD5STEP F1 B C D A  3 0xc1bdceee 22;
   MD5STEP F1 A B C D  4 0xf57c0faf  7;
   MD5STEP F1 D A B C  5 0x4787c62a 12;
   MD5STEP F1 C D A B  6 0xa8304613 17;
   MD5STEP F1 B C D A  7 0xfd469501 22;
   MD5STEP F1 A B C D  8 0x698098d8  7;
   MD5STEP F1 D A B C  9 0x8b44f7af 12;
   MD5STEP F1 C D A B 10 0xffff5bb1 17;
   MD5STEP F1 B C D A 11 0x895cd7be 22;
   MD5STEP F1 A B C D 12 0x6b901122  7;
   MD5STEP F1 D A B C 13 0xfd987193 12;
   MD5STEP F1 C D A B 14 0xa679438e 17;
   MD5STEP F1 B C D A 15 0x49b40821 22].

Definition md5_round2 : list step :=
  [MD5STEP F2 A B C D  1 0xf61e2562  5;
   MD5STEP F2 D A B C  6 0xc040b340  9;
   MD5STEP F2 C D A B 11 0x265e5a51 14;
   MD5STEP F2 B C D A  0 0xe9b6c7aa 20;
   MD5STEP F2 A B C D  5 0xd62f105d  5;
   MD5STEP F2 D A B C 10 0x02441453  9;
   MD5STEP F2 C D A B 15 0xd8a1e681 14;
   MD5STEP F2 B C D A  4 0xe7d3fbc8 20;
   MD5STEP F2 A B C D  9 0x21e1cde6  5;
   MD5STEP F2 D A B C 14 0xc33707d6  9;
   MD5STEP F2 C D A B  3 0xf4d50d87 14;
   MD5STEP F2 B C D A  8 0x455a14ed 20;
   MD5STEP F2 A B C D 13 0xa9e3e905  5;
   MD5STEP F2 D A B C  2 0xfcefa3f8  9;
   MD5STEP F2 C D A B  7 0x676f02d9 14;
   MD5STEP F2 B C D A 12 0x8d2a4c8a 20].

Definition md5_round3 : list step :=
  [MD5STEP F3 A B C D  5 0xfffa3942  4;
   MD5STEP F3 D A B C  8 0x8771f681 11;
   MD5STEP F3 C D A B 11 0x6d9d6122 16;
   MD5STEP F3 B C D A 14 0xfde5380c 23;
   MD5STEP F3 A B C D  1 0xa4beea44  4;
   MD5STEP F3 D A B C  4 0x4bdecfa9 11;
   MD5STEP F3 C D A B  7 0xf6bb4b60 16;
   MD5STEP F3 B C D A 10 0xbebfbc70 23;
   MD5STEP F3 A B C D 13 0x289b7ec6  4;
   MD5STEP F3 D A B C  0 0xeaa127fa 11;
   MD5STEP F3 C D A B  3 0xd4ef3085 16;
   MD5STEP F3 B C D A  6 0x04881d05 23;
   MD5STEP F3 A B C D  9 0xd9d4d039  4;
   MD5STEP F3 D A B C 12 0xe6db99e5 11;
   MD5STEP F3 C D A B 15 0x1fa27cf8 16;
   MD5STEP F3 B C D A  2 0xc4ac5665 23].

Definition md5_round4 : list step :=
  [MD5STEP F4 A B C D  0 0xf4292244  6;
   MD5STEP F4 D A B C  7 0x432aff97 10;
   MD5STEP F4 C D A B 14 0xab9423a7 15;
   MD5STEP F4 B C D A  5 0xfc93a039 21;
   MD5STEP F4 A B C D 12 0x655b59c3  6;
   MD5STEP F4 D A B C  3 0x8f0ccc92 10;
   MD5STEP F4 C D A B 10 0xffeff47d 15;
   MD5STEP F4 B C D A  1 0x85845dd1 21;
   MD5STEP F4 A B C D  8 0x6fa87e4f  6;
   MD5STEP F4 D A B C 15 0xfe2ce6e0 10;
   MD5STEP F4 C D A B  6 0xa3014314 15;
   MD5STEP F4 B C D A 13 0x4e0811a1 21;
   MD5STEP F4 A B C D  4 0xf7537e82  6;
   MD5STEP F4 D A B C 11 0xbd3af235 10;
   MD5STEP F4 C D A B  2 0x2ad7d2bb 15;
   MD5STEP F4 B C D A  9 0xeb86d391 21].

Definition md5_program : list step := md5_round1 ++ md5_round2 ++ md5_round3 ++ md5_round4.

Definition MD5Transform (state : regs) (block : list Z) : regs :=
  let in_ := words le_word 4 16 block in
  let r := fold_left (md5_step in_) md5_program state in
  Regs (u32 (ra state + ra r)) (u32 (rb state + rb r))
       (u32 (rc state + rc r)) (u32 (rd state + rd r)).

Record MD5_CTX : Type := Ctx { state : regs; count : Z; buffer : list Z }.

Definition MD5Init (ctx : MD5_CTX) : MD5_CTX :=
  Ctx (Regs 0x67452301 0xefcdab89 0x98badcfe 0x10325476) 0 (buffer ctx).

Definition MD5Update (ctx : MD5_CTX) (input : list Z) : res MD5_CTX :=
  let len := length input in
  let have := Z.to_nat (Z.land (Z.shiftr (count ctx) 3) 63) in
  let need := (MD5_BLOCK_LENGTH - have)%nat in
  let count' := u64 (count ctx + wshl 64 (Z.of_nat len) 3) in
  '(state', buffer', have, input) ←
    (if (need <=? len)%nat then
       let '(state', buffer', have, input) :=
         if negb (have =? 0)%nat then
           let buffer' := splice have (take need input) (buffer ctx) in
           (MD5Transform (state ctx) buffer', buffer', 0%nat, drop need input)
         else (state ctx, buffer ctx, have, input) in
       '(state', input) ← blocks_loop MD5_BLOCK_LENGTH MD5Transform (S len) state' input;
       mret (state', buffer', have, input)
     else mret (state ctx, buffer ctx, have, input));
  mret (Ctx state' count'
    (if negb (length input =? 0)%nat then splice have input buffer' else buffer')).

Definition PADDING : list Z := 0x80 :: replicate 63 0.

Definition MD5Pad (ctx : MD5_CTX) : res MD5_CTX :=
  let count_bytes := le_bytes 8 (count ctx) in
  let padlen := (MD5_BLOCK_LENGTH - Z.to_nat (Z.land (Z.shiftr (count ctx) 3) 63))%nat in
  let padlen := (if padlen <? 1 + 8 then padlen + MD5_BLOCK_LENGTH else padlen)%nat in
  ctx ← MD5Update ctx (take (padlen - 8) PADDING);
  MD5Update ctx count_bytes.

(** The digest, and the context as [memset] leaves it. *)
Definition MD5Final (ctx : MD5_CTX) : res (list Z * MD5_CTX) :=
  ctx ← MD5Pad ctx;
  let s := state ctx in
  mret (concat (le_bytes 4 <$> [ra s; rb s; rc s; rd s]),
        Ctx (Regs 0 0 0 0) 0 (replicate MD5_BLOCK_LENGTH 0)).

(** ** RFC 1321 *)

Module Rfc.
(** [x^(2n+1) / (2n+1)!] and its sum, scaled by [2^200]; 150 terms are far
    more than an argument of at most 64 needs. *)
Fixpoint sine (terms : nat) (n x term acc : Z) : Z :=
  match terms with
  | O => acc
  | S terms => sine terms (n + 2) x (- (term * x * x / ((n + 1) * (n + 2)))) (acc + term)
  end.

(** [T[i]], 1-based. *)
Definition T (i : Z) : Z := Z.abs (sine 150 1 i (i * 2 ^ 200) 0) * 2 ^ 32 / 2 ^ 200.

Definition F (x y z : Z) : Z := Z.lor (Z.land x y) (Z.land (wnot 32 x) z).
Definition G (x y z : Z) : Z := Z.lor (Z.land x z) (Z.land y (wnot 32 z)).
Definition H (x y z : Z) : Z := Z.lxor x (Z.lxor y z).
Definition I (x y z : Z) : Z := Z.lxor y (Z.lor x (wnot 32 z)).

(** Step [i] of 64, on [(a, b, c, d)]: the message word, the shift. *)
Definition fun_of (i : nat) : Z -> Z -> Z -> Z :=
  match (i / 16)%nat with 0%nat => F | 1%nat => G | 2%nat => H | _ => I end.

Definition word_of (i : nat) : nat :=
  match (i / 16)%nat with
  | 0%nat => i | 1%nat => 5 * i + 1 | 2%nat => 3 * i + 5 | _ => 7 * i end mod 16.

Definition shift_of (i : nat) : Z :=
  match (i / 16)%nat with
  | 0%nat => [7; 12; 17; 22] | 1%nat => [5; 9; 14; 20]
  | 2%nat => [4; 11; 16; 23] | _ => [6; 10; 15; 21] end !!! (i mod 4)%nat.

Definition step (X : list Z) (q : Z * Z * Z * Z) (i : nat) : Z * Z * Z * Z :=
  let '(a, b, c, d) := q in
  (d, u32 (b + wrotl 32 (u32 (a + fun_of i b c d + X !!! word_of i + T (Z.of_nat i + 1)))
                     (shift_of i)), b, c).

Definition compress (s : regs) (block : list Z) : regs :=
  let X := words le_word 4 16 block in
  let '(a, b, c, d) := fold_left (step X) (seq 0 64) (ra s, rb s, rc s, rd s) in
  Regs (u32 (ra s + a)) (u32 (rb s + b)) (u32 (rc s + c)) (u32 (rd s + d)).

Definition iv : regs := Regs 0x67452301 0xefcdab89 0x98badcfe 0x10325476.

Definition pad (m : list Z) : list Z :=
  m ++ 0x80 :: replicate (md_zeros (length m)) 0 ++
  le_bytes 8 (8 * Z.of_nat (length m)).

Definition md5 (m : list Z) : list Z :=
  let s := absorb 64 compress iv (pad m) in
  concat (le_bytes 4 <$> [ra s; rb s; rc s; rd s]).
End Rfc.

(** ** The unrolled rounds compute the RFC's *)

Definition f_of (i : nat) : fn :=
  match (i / 16)%nat with 0%nat => F1 | 1%nat => F2 | 2%nat => F3 | _ => F4 end.

(** The registers a step names as [w, x, y, z]. *)
Definition rot (i : nat) : reg * reg * reg * reg :=
  match (i mod 4)%nat with
  | 0%nat => (A, B, C, D) | 1%nat => (D, A, B, C) | 2%nat => (C, D, A, B) | _ => (B, C, D, A)
  end.

Definition expected (i : nat) : step :=
  let '(w, x, y, z) := rot i in
  MD5STEP (f_of i) w x y z (Rfc.word_of i) (Rfc.T (Z.of_nat i + 1)) (Rfc.shift_of i).

Definition view (i : nat) (r : regs) : Z * Z * Z * Z :=
  let '(w, x, y, z) := rot i in (get r w, get r x, get r y, get r z).

Lemma md5_program_expected : md5_program = expected <$> seq 0 64.
Proof. vm_compute. reflexivity. Qed.

Lemma eval_fun_of i x y z : u32 (eval (f_of i) x y z) = u32 (Rfc.fun_of i x y z).
Proof.
  unfold f_of, Rfc.fun_of. destruct (i / 16)%nat as [|[|[|]]];
    unfold eval, eval_F1, Rfc.F, Rfc.G, Rfc.H, Rfc.I; word_bits.
Qed.

Lemma mod4_cases (i : nat) : ((i mod 4 = 0 /\ S i mod 4 = 1) \/ (i mod 4 = 1 /\ S i mod 4 = 2) \/
  (i mod 4 = 2 /\ S i mod 4 = 3) \/ (i mod 4 = 3 /\ S i mod 4 = 0))%nat.
Proof.
  pose proof (Nat.mod_upper_bound i 4). rewrite <-(Nat.add_1_r i), <-Nat.Div0.add_mod_idemp_l.
  destruct (i mod 4)%nat as [|[|[|[|]]]]; cbn; lia.
Qed.

Lemma md5_sum f g w x t : u32 f = u32 g ->
  u32 (w + u32 (f + u32 (x + t))) = u32 (w + g + x + t).
Proof.
  intros E. change (eqw 32 f g) in E. transitivity (u32 (w + (f + (x + t)))); [wrap_ring|].
  change (eqw 32 (w + (f + (x + t))) (w + g + x + t)). rewrite E. unfold eqw. f_equal. ring.
Qed.

Lemma md5_step_view X r i : view (S i) (md5_step X r (expected i)) = Rfc.step X (view i r) i.
Proof.
  assert (HE : forall w x y z, wrotl 32 (u32 (w + u32 (eval (f_of i) x y z
      + u32 (X !!! Rfc.word_of i + Rfc.T (Z.of_nat i + 1))))) (Rfc.shift_of i)
    = wrotl 32 (u32 (w + Rfc.fun_of i x y z + X !!! Rfc.word_of i + Rfc.T (Z.of_nat i + 1)))
        (Rfc.shift_of i)).
  { intros w x y z. f_equal. apply md5_sum, eval_fun_of. }
  unfold view, expected, rot, Rfc.step.
  destruct (mod4_cases i) as [[-> ->]|[[-> ->]|[[-> ->]|[-> ->]]]];
    unfold md5_step; destruct r as [a b c d];
    cbn [get set ra rb rc rd st_f st_w st_x st_y st_z st_k st_t st_s];
    rewrite HE, Z.add_comm; reflexivity.
Qed.

Lemma md5_fold X n i r : view (i + n) (fold_left (md5_step X) (expected <$> seq i n) r)
  = fold_left (Rfc.step X) (seq i n) (view i r).
Proof.
  revert i r; induction n as [|n IH]; intros i r; cbn [seq fmap list_fmap fold_left].
  - by rewrite Nat.add_0_r.
  - rewrite <-md5_step_view, <-IH. f_equal. lia.
Qed.

Lemma md5_rounds X s :
  fold_left (Rfc.step X) (seq 0 64) (view 0 s) = view 64 (fold_left (md5_step X) md5_program s).
Proof. rewrite md5_program_expected. symmetry. apply (md5_fold X 64 0 s). Qed.

Lemma md5_feed s r :
  (let '(a, b, c, d) := view 64 r in
   Regs (u32 (ra s + a)) (u32 (rb s + b)) (u32 (rc s + c)) (u32 (rd s + d)))
  = Regs (u32 (ra s + ra r)) (u32 (rb s + rb r)) (u32 (rc s + rc r)) (u32 (rd s + rd r)).
Proof. reflexivity. Qed.

Lemma MD5Transform_rfc s block : MD5Transform s block = Rfc.compress s block.
Proof.
  unfold MD5Transform, Rfc.compress. change (ra s, rb s, rc s, rd s) with (view 0 s).
  by rewrite (md5_rounds _ s), md5_feed.
Qed.

(** ** The context *)

Definition absorbed (c : MD5_CTX) (m : list Z) : Prop :=
  holds 64 MD5Transform Rfc.iv (state c) (buffer c) m /\ length (buffer c) = 64%nat /\
  count c = u64 (8 * Z.of_nat (length m)).

Lemma MD5Update_ok c m d : absorbed c m ->
  exists c', MD5Update c d = Ok c' /\ absorbed c' (m ++ d).
Proof.
  intros (Hh & Hb & Hc). unfold MD5Update. rewrite Hc, count_fill, Nat2Z.id, count_step.
  set (have := (length m mod 64)%nat). unfold MD5_BLOCK_LENGTH.
  assert (Hhave : (have < 64)%nat) by by apply Nat.mod_upper_bound.
  destruct (64 - have <=? length d)%nat eqn:E; [apply Nat.leb_le in E|apply Nat.leb_gt in E].
  2:{ cbn [mbind res_bind mret res_ret]. rewrite splice_if. eexists. split; [reflexivity|].
      split; [|split; cbn [state buffer count]].
      - apply holds_short; [lia|done|]. fold have. lia.
      - rewrite splice_length; lia.
      - by rewrite length_app. }
  destruct (have =? 0)%nat eqn:H0; cbn [negb].
  - apply Nat.eqb_eq in H0.
    destruct (holds_loop 64 ltac:(lia) MD5Transform Rfc.iv (S (length d)) _ _ m d Hh H0 ltac:(lia))
      as (s' & k & d' & -> & -> & Hd' & Hh' & Hm').
    cbn [mbind res_bind mret res_ret]. rewrite splice_if, H0. eexists. split; [reflexivity|].
    rewrite app_assoc. split; [|split; cbn [state buffer count]].
    + apply holds_tail; [lia|done..].
    + rewrite splice_length; lia.
    + by rewrite <-app_assoc, (length_app m).
  - set (buf' := splice have (take (64 - have) d) (buffer c)).
    assert (Hlt : length (take (64 - have) d) = (64 - have)%nat) by (rewrite length_take; lia).
    assert (Hb' : length buf' = 64%nat) by (unfold buf'; rewrite splice_length; lia).
    destruct (holds_fill 64 ltac:(lia) MD5Transform Rfc.iv _ _ buf' m (take (64 - have) d) Hh)
      as [Hh1 Hm1]; [fold have; lia|lia|]. fold have in Hh1.
    rewrite (take_ge (splice _ _ _)) in Hh1 by (fold buf'; lia). fold buf' in Hh1.
    destruct (holds_loop 64 ltac:(lia) MD5Transform Rfc.iv (S (length d)) _ _ _ (drop (64 - have) d)
      Hh1 Hm1) as (s' & k & d' & -> & Ed & Hd' & Hh' & Hm'); [rewrite length_drop; lia|].
    cbn [mbind res_bind mret res_ret]. rewrite splice_if. eexists. split; [reflexivity|].
    rewrite <-(take_drop (64 - have) d), Ed, !app_assoc.
    split; [|split; cbn [state buffer count]].
    + apply holds_tail; [lia|done..].
    + rewrite splice_length; lia.
    + rewrite <-!app_assoc, <-Ed, take_drop, length_app. done.
Qed.

Lemma MD5Pad_ok c m : absorbed c m ->
  exists c', MD5Pad c = Ok c' /\ absorbed c' (Rfc.pad m).
Proof.
  intros Hc. pose proof Hc as (_ & _ & Hn). unfold MD5Pad.
  rewrite Hn, count_fill, Nat2Z.id. unfold MD5_BLOCK_LENGTH. rewrite md_zeros_eq.
  destruct (md_zeros_whole (length m)) as [_ Hz].
  assert (take (md_zeros (length m) + 9 - 8) PADDING
    = 0x80 :: replicate (md_zeros (length m)) 0) as ->.
  { replace (md_zeros (length m) + 9 - 8)%nat with (S (md_zeros (length m))) by lia.
    unfold PADDING. cbn [take]. f_equal. rewrite take_replicate. f_equal. lia. }
  destruct (MD5Update_ok c m (0x80 :: replicate (md_zeros (length m)) 0) Hc) as (c1 & -> & Hc1). cbn [mbind res_bind].
  assert (le_bytes 8 (u64 (8 * Z.of_nat (length m))) = le_bytes 8 (8 * Z.of_nat (length m))) as ->
    by (apply le_bytes_wrap; lia).
  destruct (MD5Update_ok c1 _ (le_bytes 8 (8 * Z.of_nat (length m))) Hc1) as (c2 & -> & Hc2).
  exists c2. split; [done|]. unfold Rfc.pad. by rewrite <-app_assoc in Hc2.
Qed.

Lemma MD5Final_ok c m : absorbed c m ->
  MD5Final c = Ok (Rfc.md5 m, Ctx (Regs 0 0 0 0) 0 (replicate MD5_BLOCK_LENGTH 0)).
Proof.
  intros Hc. unfold MD5Final. destruct (MD5Pad_ok c m Hc) as (c' & -> & (Hs & _) & _).
  cbn [mbind res_bind]. unfold Rfc.md5. rewrite Hs.
  by rewrite (absorb_eq 64 _ _ _ _ MD5Transform_rfc).
Qed.

#[export] Program Instance md5_digest : Digest MD5_CTX := {|
  dg_wf c := length (buffer c) = 64%nat;
  dg_init := MD5Init;
  dg_update := MD5Update;
  dg_final c := fst <$> MD5Final c;
  dg_max := 2 ^ 32;
  dg_reference := Rfc.md5;
  dg_absorbed := absorbed;
|}.
Next Obligation.
  intros c Hc. cbv beta in Hc. split; [|split; [done|done]].
  apply holds_nil; [lia|]. cbn [buffer MD5Init]. lia.
Qed.
Next Obligation. intros c m d Hc _ _. by apply MD5Update_ok. Qed.
Next Obligation. intros c m Hc. cbv beta. rewrite (MD5Final_ok c m Hc). reflexivity. Qed.

(** MD5.  Whatever the pieces a message is passed in, [MD5Init],
    [MD5Update] on each piece and [MD5Final] return the RFC 1321 digest of the
    whole message; no call runs out of fuel. *)
Lemma MD5_correct (c : MD5_CTX) (ds : list (list Z)) :
  length (buffer c) = 64%nat ->
  Forall (fun d => bytes_ok d /\ Z.of_nat (length d) < 2 ^ 32) ds ->
  run_digest c ds = Ok (Rfc.md5 (concat ds)).
Proof. exact (run_digest_ok c ds). Qed.
