(* ===== verification/Sha1.v ===== *)
(** * SHA-1

    CLibrary/hash/sha1.c.  The 80 macro calls of [SHA1Transform] are
    [sha1_program]; they work in place on a 16-word circular buffer, whose
    words are byte-swapped when first used ([blk0]) and overwritten by the
    message schedule after that ([blk]).  The reference is FIPS 180-4: the
    80-word schedule and the loop over [(a, b, c, d, e)]. *)

From S2P Require Import Prelude.
From S2P Require Import Words.
From S2P Require Import Hash.
From Stdlib Require Import ZArith Lia.
From stdpp Require Import prelude gmap list.

Import Five.
Open Scope Z_scope.

(** ** The code *)

Definition SHA1_BLOCK_LENGTH : nat := 64.
Definition SHA1_DIGEST_LENGTH : nat := 20.

Definition rol (value bits : Z) : Z := wrotl 32 value bits.

(** The expressions [blk0(i)] and [blk(i)]: the value, and the buffer after the
    assignment. *)
Definition swap32 (l : Z) : Z :=
  Z.lor (Z.land (rol l 24) 0xFF00FF00) (Z.land (rol l 8) 0x00FF00FF).

Definition blk0 (l : list Z) (i : nat) : Z * list Z :=
  let v := swap32 (l !!! i) in (v, <[i := v]> l).

Definition blk (l : list Z) (i : nat) : Z * list Z :=
  let v := rol (Z.lxor (Z.lxor (Z.lxor (l !!! and15 (i + 13)) (l !!! and15 (i + 8)))
                               (l !!! and15 (i + 2))) (l !!! and15 i)) 1 in
  (v, <[and15 i := v]> l).

Inductive round := Round0 | Round1 | Round2 | Round3 | Round4.

(** A call [Rn(v, w, x, y, z, i)]. *)
Record step : Type := Step {
  st_n : round; st_v : reg; st_w : reg; st_x : reg; st_y : reg; st_z : reg; st_i : nat;
}.

Definition R0 := Step Round0.
Definition R1 := Step Round1.
Definition R2 := Step Round2.
Definition R3 := Step Round3.
Definition R4 := Step Round4.

Definition fun_n (n : round) (w x y : Z) : Z :=
  match n with
  | Round0 | Round1 => Z.lxor (Z.land w (Z.lxor x y)) y
  | Round2 | Round4 => Z.lxor (Z.lxor w x) y
  | Round3 => Z.lor (Z.land (Z.lor w x) y) (Z.land w x)
  end.

Definition const_n (n : round) : Z :=
  match n with
  | Round0 | Round1 => 0x5A827999
  | Round2 => 0x6ED9EBA1
  | Round3 => 0x8F1BBCDC
  | Round4 => 0xCA62C1D6
  end.

Definition sha1_step (rl : regs * list Z) (p : step) : regs * list Z :=
  let '(r, l) := rl in
  let '(b, l) := match st_n p with Round0 => blk0 l (st_i p) | _ => blk l (st_i p) end in
  let sum := u32 (u32 (u32 (fun_n (st_n p) (get r (st_w p)) (get r (st_x p)) (get r (st_y p)) + b)
                       + const_n (st_n p)) + rol (get r (st_v p)) 5) in
  let r := set r (st_z p) (u32 (get r (st_z p) + sum)) in
  let r := set r (st_w p) (rol (get r (st_w p)) 30) in
  (r, l).

Definition sha1_program : list step :=
  [R0 A B C D E 0; R0 E A B C D 1; R0 D E A B C 2; R0 C D E A B 3;
   R0 B C D E A 4; R0 A B C D E 5; R0 E A B C D 6; R0 D E A B C 7;
   R0 C D E A B 8; R0 B C D E A 9; R0 A B C D E 10; R0 E A B C D 11;
   R0 D E A B C 12; R0 C D E A B 13; R0 B C D E A 14; R0 A B C D E 15;
   R1 E A B C D 16; R1 D E A B C 17; R1 C D E A B 18; R1 B C D E A 19;
   R2 A B C D E 20; R2 E A B C D 21; R2 D E A B C 22; R2 C D E A B 23;
   R2 B C D E A 24; R2 A B C D E 25; R2 E A B C D 26; R2 D E A B C 27;
   R2 C D E A B 28; R2 B C D E A 29; R2 A B C D E 30; R2 E A B C D 31;
   R2 D E A B C 32; R2 C D E A B 33; R2 B C D E A 34; R2 A B C D E 35;
   R2 E A B C D 36; R2 D E A B C 37; R2 C D E A B 38; R2 B C D E A 39;
   R3 A B C D E 40; R3 E A B C D 41; R3 D E A B C 42; R3 C D E A B 43;
   R3 B C D E A 44; R3 A B C D E 45; R3 E A B C D 46; R3 D E A B C 47;
   R3 C D E A B 48; R3 B C D E A 49; R3 A B C D E 50; R3 E A B C D 51;
   R3 D E A B C 52; R3 C D E A B 53; R3 B C D E A 54; R3 A B C D E 55;
   R3 E A B C D 56; R3 D E A B C 57; R3 C D E A B 58; R3 B C D E A 59;
   R4 A B C D E 60; R4 E A B C D 61; R4 D E A B C 62; R4 C D E A B 63;
   R4 B C D E A 64; R4 A B C D E 65; R4 E A B C D 66; R4 D E A B C 67;
   R4 C D E A B 68; R4 B C D E A 69; R4 A B C D E 70; R4 E A B C D 71;
   R4 D E A B C 72; R4 C D E A B 73; R4 B C D E A 74; R4 A B C D E 75;
   R4 E A B C D 76; R4 D E A B C 77; R4 C D E A B 78; R4 B C D E A 79].

Definition SHA1Transform (state : regs) (buffer : list Z) : regs :=
  let block := words le_word 4 16 buffer in
  let r := (fold_left sha1_step sha1_program (state, block)).1 in
  add state r.

Record SHA1_CTX : Type := Ctx { state : regs; count : Z; buffer : list Z }.

Definition SHA1Init (context : SHA1_CTX) : SHA1_CTX :=
  Ctx (Regs 0x67452301 0xEFCDAB89 0x98BADCFE 0x10325476 0xC3D2E1F0) 0 (buffer context).

(** [i + 63 < len], in [size_t] *)
Definition more (i len : Z) : bool := u32 (i + 63) <? len.

Definition SHA1Update (context : SHA1_CTX) (data : list Z) : res SHA1_CTX :=
  let len := Z.of_nat (length data) in
  let j := Z.land (Z.shiftr (count context) 3) 63 in
  let count' := u64 (count context + wshl 32 len 3) in
  '(state', buffer', i, j) ←
    (if 63 <? u32 (j + len) then
       let i := u32 (64 - j) in
       let buffer' := splice (Z.to_nat j) (take (Z.to_nat i) data) (buffer context) in
       let state' := SHA1Transform (state context) buffer' in
       '(state', i) ← offset_loop SHA1Transform more (S (length data)) state' data i;
       mret (state', buffer', i, 0)
     else mret (state context, buffer context, 0, j));
  mret (Ctx state' count' (splice (Z.to_nat j) (drop (Z.to_nat i) data) buffer')).

Fixpoint pad_loop (fuel : nat) (context : SHA1_CTX) : res SHA1_CTX :=
  match fuel with
  | O => NoFuel
  | S fuel =>
      if negb (Z.land (count context) 504 =? 448) then
        context ← SHA1Update context [0];
        pad_loop fuel context
      else mret context
  end.

Definition SHA1Pad (context : SHA1_CTX) : res SHA1_CTX :=
  let finalcount := (fun i =>
    u8 (Z.land (Z.shiftr (count context) ((7 - Z.land i 7) * 8)) 255)) <$> (Z.of_nat <$> seq 0 8) in
  context ← SHA1Update context [0x80];
  context ← pad_loop 64 context;
  SHA1Update context finalcount.

Definition SHA1Final (context : SHA1_CTX) : res (list Z * SHA1_CTX) :=
  context ← SHA1Pad context;
  let digest := (fun i =>
    u8 (Z.land (Z.shiftr (list_of (state context) !!! Z.to_nat (Z.shiftr i 2))
                         ((3 - Z.land i 3) * 8)) 255))
    <$> (Z.of_nat <$> seq 0 SHA1_DIGEST_LENGTH) in
  mret (digest, Ctx (Regs 0 0 0 0 0) 0 (replicate SHA1_BLOCK_LENGTH 0)).

(** ** FIPS 180-4 *)

Module Fips.
Definition Ch (x y z : Z) : Z := Z.lxor (Z.land x y) (Z.land (wnot 32 x) z).
Definition Parity (x y z : Z) : Z := Z.lxor x (Z.lxor y z).
Definition Maj (x y z : Z) : Z :=
  Z.lxor (Z.lxor (Z.land x y) (Z.land x z)) (Z.land y z).

Definition f (t : nat) : Z -> Z -> Z -> Z :=
  match (t / 20)%nat with 0%nat => Ch | 1%nat => Parity | 2%nat => Maj | _ => Parity end.

(** [2^30] times the square roots of 2, 3, 5 and 10. *)
Definition K (t : nat) : Z :=
  Z.sqrt (match (t / 20)%nat with 0%nat => 2 | 1%nat => 3 | 2%nat => 5 | _ => 10 end * 2 ^ 60).

(** The message schedule: [W_t] for [t = n + 16]. *)
Definition next (W : list Z) (n : nat) : Z :=
  wrotl 32 (Z.lxor (Z.lxor (Z.lxor (W !!! (n + 13)%nat) (W !!! (n + 8)%nat))
                           (W !!! (n + 2)%nat)) (W !!! n)) 1.

Definition step (W : list Z) (q : Z * Z * Z * Z * Z) (t : nat) : Z * Z * Z * Z * Z :=
  let '(a, b, c, d, e) := q in
  (u32 (wrotl 32 a 5 + f t b c d + e + K t + W !!! t), a, wrotl 32 b 30, c, d).

Definition compress (s : regs) (block : list Z) : regs :=
  let W := schedule next (words be_word 4 16 block) 64 in
  let '(a, b, c, d, e) := fold_left (step W) (seq 0 80) (view 0 s) in
  add s (Regs a b c d e).

Definition iv : regs := Regs 0x67452301 0xefcdab89 0x98badcfe 0x10325476 0xc3d2e1f0.

Definition pad (m : list Z) : list Z :=
  m ++ 0x80 :: replicate (md_zeros (length m)) 0 ++ be_bytes 8 (8 * Z.of_nat (length m)).

Definition sha1 (m : list Z) : list Z :=
  concat (be_bytes 4 <$> list_of (absorb 64 compress iv (pad m))).
End Fips.

(** ** Byte order *)

Lemma swap32_be l : bytes_ok l -> length l = 4%nat -> swap32 (le_word l) = be_word l.
Proof.
  intros Hl Hn. destruct l as [|a [|b [|c [|d [|]]]]]; try discriminate Hn. clear Hn.
  apply Forall_cons in Hl as [Ha Hl]. apply Forall_cons in Hl as [Hb Hl].
  apply Forall_cons in Hl as [Hc Hl]. apply Forall_cons in Hl as [Hd _].
  assert (Hw : forall p q r s, byte_ok p -> byte_ok q -> byte_ok r -> byte_ok s ->
    uint 32 (le_word [p; q; r; s])).
  { intros. apply (le_word_range [p; q; r; s]).
    repeat (apply List.Forall_cons; [assumption|]). apply List.Forall_nil. }
  assert (Hrol : forall x n, 0 <= n < 32 -> uint 32 x -> uint 32 (rol x n))
    by (intros; apply uint_wrotl; [lia|done]).
  assert (H1 : uint 32 (le_word [a; b; c; d])) by auto.
  assert (H2 : uint 32 (le_word [d; c; b; a])) by auto.
  rewrite <-(wrap_id 32 (be_word _)), <-(wrap_id 32 (swap32 _)).
  2:{ apply uint_lor; [lia| |]; apply uint_land; try lia; apply Hrol; try lia; done. }
  2:{ exact H2. }
  change (be_word [a; b; c; d]) with (le_word [d; c; b; a]).
  apply wrap_ext; [lia|]. intros i Hi. unfold swap32, rol.
  rewrite Z.lor_spec, !Z.land_spec, !testbit_wrotl by (done || lia).
  assert (Hbits : forall p q r s j, byte_ok p -> byte_ok q -> byte_ok r -> byte_ok s -> 0 <= j < 32 ->
    Z.testbit (le_word [p; q; r; s]) j
    = if j <? 8 then Z.testbit p j else if j <? 16 then Z.testbit q (j - 8)
      else if j <? 24 then Z.testbit r (j - 16) else Z.testbit s (j - 24)).
  { intros p q r s j Hp Hq Hr Hs Hj. unfold le_word.
    assert (H8 : j <? 8 = true \/ j <? 8 = false /\ 0 <= j - 8) by (destruct (j <? 8) eqn:?; zbool; lia).
    rewrite (testbit_cons8 p) by (done || lia). destruct H8 as [->|[-> ?]]; [done|].
    rewrite (testbit_cons8 q) by (done || lia).
    assert ((j - 8 <? 8) = (j <? 16)) as -> by (apply Bool.eq_iff_eq_true; rewrite !Z.ltb_lt; lia).
    destruct (j <? 16) eqn:?; zbool; [done|]. rewrite (testbit_cons8 r) by (done || lia).
    assert ((j - 8 - 8 <? 8) = (j <? 24)) as ->
      by (apply Bool.eq_iff_eq_true; rewrite !Z.ltb_lt; lia).
    destruct (j <? 24) eqn:?; zbool.
    - f_equal. lia.
    - rewrite Z.mul_0_r, Z.add_0_r. f_equal. lia. }
  rewrite !Hbits by (try done; try lia; zcase; lia).
  assert (Hcase : i ∈ seqZ 0 32) by (apply elem_of_seqZ; lia). revert Hcase. clear.
  intros Hin. cbn in Hin.
  repeat (apply elem_of_cons in Hin as [->|Hin];
    [repeat match goal with
     | |- context [Z.testbit (Zpos ?x) ?k] =>
         let v := eval vm_compute in (Z.testbit (Zpos x) k) in change (Z.testbit (Zpos x) k) with v
     | |- context [?p <? ?q] =>
         let v := eval vm_compute in (p <? q) in change (p <? q) with v; cbv iota
     end;
     cbv [Z.add Z.sub Z.opp Z.pos_sub Pos.add Pos.add_carry Pos.pred_double Z.double Z.succ_double
          Z.pred_double];
     rewrite ?andb_true_r, ?andb_false_r, ?orb_false_r, ?orb_false_l; reflexivity|]).
  by apply elem_of_nil in Hin.
Qed.

(** ** The schedule in a circular buffer *)

Section words.
Context (raw : list Z) (HX : length raw = 16%nat).
Local Notation X := (swap32 <$> raw).

Lemma X_words : length X = 16%nat.
Proof. by rewrite length_fmap. Qed.

Definition word_at (t : nat) : Z := schedule Fips.next X 64 !!! t.

Lemma word_low t : (t < 16)%nat -> word_at t = swap32 (raw !!! t).
Proof.
  intros Ht. unfold word_at. rewrite (schedule_prefix _ _ X_words 0 64) by lia. cbn [schedule].
  rewrite !list_lookup_total_alt, list_lookup_fmap.
  destruct (lookup_lt_is_Some_2 raw t) as [x ->]; [lia|done].
Qed.

Lemma word_high t : (16 <= t < 80)%nat ->
  word_at t = rol (Z.lxor (Z.lxor (Z.lxor (word_at (t - 3)) (word_at (t - 8)))
                                 (word_at (t - 14))) (word_at (t - 16))) 1.
Proof.
  intros Ht. unfold word_at.
  assert (Hp : forall s, (s < t)%nat -> schedule Fips.next X 64 !!! s
    = schedule Fips.next X (t - 16) !!! s).
  { intros s Hs. replace 64%nat with (t - 16 + (80 - t))%nat by lia.
    apply (schedule_prefix _ _ X_words). lia. }
  rewrite (Hp (t - 3)%nat), (Hp (t - 8)%nat), (Hp (t - 14)%nat), (Hp (t - 16)%nat) by lia.
  rewrite (schedule_step _ _ X_words 64 t) by lia.
  unfold rol. replace (t - 3)%nat with (t - 16 + 13)%nat by lia.
  replace (t - 8)%nat with (t - 16 + 8)%nat by lia.
  replace (t - 14)%nat with (t - 16 + 2)%nat by lia. reflexivity.
Qed.

(** Before step [t] the buffer holds the last sixteen words, and below 16
    the raw words not yet used. *)
Definition circ (t : nat) (l : list Z) : Prop :=
  length l = 16%nat /\
  (forall s, (s < t <= s + 16)%nat -> l !!! (s mod 16)%nat = word_at s) /\
  (forall j, (t <= j < 16)%nat -> l !!! j = raw !!! j).

Lemma circ_0 : circ 0 raw.
Proof. split; [done|]. split; [lia|done]. Qed.

Lemma circ_next t l : circ t l -> circ (S t) (<[(t mod 16)%nat := word_at t]> l).
Proof.
  intros (Hl & Hw & Hr). pose proof (Nat.mod_upper_bound t 16).
  split; [by rewrite length_insert|]. split.
  - intros s Hs. destruct (decide (s = t)) as [->|Hne].
    + by rewrite list_lookup_total_insert_eq by lia.
    + rewrite list_lookup_total_insert_ne; [apply Hw; lia|].
      intros E. pose proof (Nat.div_mod t 16). pose proof (Nat.div_mod s 16). lia.
  - intros j Hj. rewrite Nat.mod_small by lia. rewrite list_lookup_total_insert_ne by lia.
    apply Hr. lia.
Qed.

Lemma blk0_ok t l : circ t l -> (t < 16)%nat -> blk0 l t = (word_at t, <[(t mod 16)%nat := word_at t]> l).
Proof.
  intros (_ & _ & Hr) Ht. unfold blk0. rewrite Hr by lia.
  rewrite <-word_low by lia. by rewrite Nat.mod_small by lia.
Qed.

Lemma blk_ok t l : circ t l -> (16 <= t < 80)%nat ->
  blk l t = (word_at t, <[(t mod 16)%nat := word_at t]> l).
Proof.
  intros (_ & Hw & _) Ht. unfold blk. rewrite !and15_mod.
  assert (Hs : forall k j, (0 < k /\ k + j = 16)%nat -> l !!! ((t + j) mod 16)%nat = word_at (t - k)).
  { intros k j Hk. rewrite <-Hw by lia. f_equal.
    replace (t + j)%nat with (t - k + 1 * 16)%nat by lia. apply Nat.Div0.mod_add. }
  rewrite (Hs 3%nat 13%nat), (Hs 8%nat 8%nat), (Hs 14%nat 2%nat) by lia.
  pose proof (Hs 16%nat 0%nat ltac:(lia)) as H16. rewrite Nat.add_0_r in H16.
  by rewrite H16, <-word_high by lia.
Qed.
End words.

(** ** The unrolled rounds *)

Definition round_of (i : nat) : round :=
  if (i <? 16)%nat then Round0
  else match (i / 20)%nat with 0%nat => Round1 | 1%nat => Round2 | 2%nat => Round3 | _ => Round4 end.

Definition expected (i : nat) : step :=
  let '(v, w, x, y, z) := rot i in Step (round_of i) v w x y z i.

Lemma sha1_program_expected : sha1_program = expected <$> seq 0 80.
Proof. reflexivity. Qed.

Lemma fun_round_of i w x y : u32 (fun_n (round_of i) w x y) = u32 (Fips.f i w x y).
Proof.
  unfold round_of, Fips.f. destruct (i <? 16)%nat eqn:E.
  - apply Nat.ltb_lt in E. rewrite Nat.div_small by lia. unfold fun_n, Fips.Ch. word_bits.
  - destruct (i / 20)%nat as [|[|[|]]]; unfold fun_n, Fips.Ch, Fips.Parity, Fips.Maj; word_bits.
Qed.

Lemma const_round_of i : const_n (round_of i) = Fips.K i.
Proof.
  unfold round_of, Fips.K. destruct (i <? 16)%nat eqn:E.
  - apply Nat.ltb_lt in E. by rewrite Nat.div_small by lia.
  - by destruct (i / 20)%nat as [|[|[|]]].
Qed.

Lemma sha1_sum f g b k r z : u32 f = u32 g ->
  u32 (z + u32 (u32 (u32 (f + b) + k) + r)) = u32 (r + g + z + k + b).
Proof.
  intros E. change (eqw 32 f g) in E. transitivity (u32 (z + (f + b + k + r))); [wrap_ring|].
  change (eqw 32 (z + (f + b + k + r)) (r + g + z + k + b)). rewrite E. unfold eqw. f_equal. ring.
Qed.

(** One call, given the word [b] its [blk] expression yields. *)
Lemma sha1_step_reg t r l l' b :
  match round_of t with Round0 => blk0 l t | _ => blk l t end = (b, l') ->
  exists r', sha1_step (r, l) (expected t) = (r', l') /\
    view (S t) r' = (let '(v, w, x, y, z) := view t r in
      (u32 (wrotl 32 v 5 + Fips.f t w x y + z + Fips.K t + b), v, wrotl 32 w 30, x, y)).
Proof.
  intros Hb.
  assert (Hsum : forall v w x y z, u32 (z + u32 (u32 (u32 (fun_n (round_of t) w x y + b)
      + const_n (round_of t)) + rol v 5))
    = u32 (wrotl 32 v 5 + Fips.f t w x y + z + Fips.K t + b)).
  { intros. rewrite const_round_of. apply sha1_sum, fun_round_of. }
  exists (sha1_step (r, l) (expected t)).1. unfold expected, view, rot.
  destruct (mod5_cases t) as [[E1 E2]|[[E1 E2]|[[E1 E2]|[[E1 E2]|[E1 E2]]]]];
    rewrite E1, E2; unfold sha1_step; destruct r as [va vb vc vd ve];
    cbn [st_n st_v st_w st_x st_y st_z st_i]; rewrite Hb;
    (split; [reflexivity|]);
    cbn [get set ra rb rc rd re fst]; rewrite Hsum; reflexivity.
Qed.

Lemma sha1_step_view raw t r l : length raw = 16%nat -> (t < 80)%nat -> circ raw t l ->
  exists r' l', sha1_step (r, l) (expected t) = (r', l') /\ circ raw (S t) l' /\
    view (S t) r' = Fips.step (schedule Fips.next (swap32 <$> raw) 64) (view t r) t.
Proof.
  intros HX Ht Hc.
  assert (Hb : match round_of t with Round0 => blk0 l t | _ => blk l t end
    = (word_at raw t, <[(t mod 16)%nat := word_at raw t]> l)).
  { unfold round_of. destruct (t <? 16)%nat eqn:E.
    - apply Nat.ltb_lt in E. by apply blk0_ok.
    - apply Nat.ltb_ge in E. rewrite (blk_ok raw HX) by (done || lia).
      by destruct (t / 20)%nat as [|[|[|]]]. }
  destruct (sha1_step_reg t r l _ _ Hb) as (r' & E & V).
  exists r', (<[(t mod 16)%nat := word_at raw t]> l).
  split; [exact E|]. split; [apply circ_next; assumption|]. rewrite V.
  unfold Fips.step, word_at. destruct (view t r) as [[[[??]?]?]?]. reflexivity.
Qed.

Lemma sha1_fold raw n : length raw = 16%nat -> forall t r l, (t + n <= 80)%nat -> circ raw t l ->
  view (t + n) (fold_left sha1_step (expected <$> seq t n) (r, l)).1
  = fold_left (Fips.step (schedule Fips.next (swap32 <$> raw) 64)) (seq t n) (view t r).
Proof.
  intros HX. induction n as [|n IH]; intros t r l Ht Hc; cbn [seq fmap list_fmap fold_left].
  - by rewrite Nat.add_0_r.
  - destruct (sha1_step_view raw t r l HX ltac:(lia) Hc) as (r' & l' & -> & Hc' & <-).
    rewrite <-(IH _ _ l') by (done || lia). f_equal. lia.
Qed.

Lemma sha1_rounds raw s : length raw = 16%nat ->
  fold_left (Fips.step (schedule Fips.next (swap32 <$> raw) 64)) (seq 0 80) (view 0 s)
  = view 80 (fold_left sha1_step sha1_program (s, raw)).1.
Proof.
  intros HX. rewrite sha1_program_expected. symmetry.
  apply (sha1_fold raw 80 HX 0); [lia|by apply circ_0].
Qed.

Lemma words_swap block : bytes_ok block -> length block = 64%nat ->
  words be_word 4 16 block = swap32 <$> words le_word 4 16 block.
Proof.
  intros Hb Hl. unfold words. rewrite <-list_fmap_compose. apply list_fmap_ext.
  intros i k Hk. apply lookup_seq in Hk as [-> Hk]. cbn. symmetry. apply swap32_be.
  - by apply Forall_take, Forall_drop.
  - rewrite length_take, length_drop. lia.
Qed.

Lemma sha1_feed s r : (let '(a, b, c, d, e) := view 80 r in add s (Regs a b c d e)) = add s r.
Proof. by destruct r. Qed.

Lemma SHA1Transform_fips s block : length block = 64%nat -> bytes_ok block ->
  SHA1Transform s block = Fips.compress s block.
Proof.
  intros Hl Hb. unfold SHA1Transform, Fips.compress.
  rewrite words_swap by done.
  rewrite (sha1_rounds (words le_word 4 16 block) s), sha1_feed; [done|].
  unfold words. by rewrite length_fmap, length_seq.
Qed.

(** ** The context *)

Definition absorbed (c : SHA1_CTX) (m : list Z) : Prop :=
  holds 64 SHA1Transform Fips.iv (state c) (buffer c) m /\ length (buffer c) = 64%nat /\
  count c = u64 (8 * Z.of_nat (length m)) /\ bytes_ok m.

(** The piece is short enough that [len << 3] does not lose bits in
    [size_t]. *)
Lemma count_step32 (n k : nat) : Z.of_nat k < 2 ^ 29 ->
  u64 (u64 (8 * Z.of_nat n) + wshl 32 (Z.of_nat k) 3) = u64 (8 * Z.of_nat (n + k)).
Proof.
  intros Hk. rewrite <-count_step. do 2 f_equal. unfold wshl.
  rewrite Z.shiftl_mul_pow2 by lia. change (2 ^ 3) with 8.
  rewrite !wrap_id; [done|unfold uint; lia..].
Qed.

Lemma SHA1Update_ok c m d : absorbed c m -> bytes_ok d -> Z.of_nat (length d) < 2 ^ 29 ->
  exists c', SHA1Update c d = Ok c' /\ absorbed c' (m ++ d).
Proof.
  intros (Hh & Hb & Hc & Hm) Hd Hlen. unfold SHA1Update.
  rewrite Hc, count_fill, count_step32, <-length_app by done.
  set (have := (length m mod 64)%nat).
  assert (Hhave : (have < 64)%nat) by by apply Nat.mod_upper_bound.
  rewrite (wrap_id 32 (Z.of_nat have + _)) by (unfold uint; lia).
  assert (Hmd : bytes_ok (m ++ d)) by by apply Forall_app_2.
  destruct (63 <? _) eqn:E; zbool.
  2:{ cbn [mbind res_bind mret res_ret]. rewrite Nat2Z.id. change (Z.to_nat 0) with 0%nat.
      rewrite drop_0. eexists. split; [reflexivity|].
      split; [|split; cbn [state buffer count]; [|done]].
      - apply holds_short; [lia|done|]. fold have. lia.
      - rewrite splice_length; lia. }
  rewrite (wrap_id 32) by (unfold uint; lia). rewrite Nat2Z.id.
  replace (Z.to_nat (64 - Z.of_nat have)) with (64 - have)%nat by lia.
  set (buf' := splice have (take (64 - have) d) (buffer c)).
  assert (Hlt : length (take (64 - have) d) = (64 - have)%nat) by (rewrite length_take; lia).
  assert (Hb' : length buf' = 64%nat) by (unfold buf'; rewrite splice_length; lia).
  destruct (holds_fill 64 ltac:(lia) SHA1Transform Fips.iv _ _ buf' m (take (64 - have) d) Hh)
    as [Hh1 Hm1]; [fold have; lia|lia|]. fold have in Hh1.
  rewrite (take_ge (splice _ _ _)) in Hh1 by (fold buf'; lia). fold buf' in Hh1.
  rewrite offset_loop_ok; [|intros i Hi; unfold more; rewrite wrap_id by (unfold uint; lia);
    apply Bool.eq_iff_eq_true; rewrite Z.ltb_lt, Z.leb_le; lia|lia|lia].
  replace (Z.to_nat (64 - Z.of_nat have)) with (64 - have)%nat by lia.
  destruct (holds_loop 64 ltac:(lia) SHA1Transform Fips.iv (S (length d)) _ _ _ (drop (64 - have) d)
    Hh1 Hm1) as (s' & k & d' & -> & Ed & Hd' & Hh' & Hm'); [rewrite length_drop; lia|].
  cbn [mbind res_bind mret res_ret fmap res_fmap]. change (Z.to_nat 0) with 0%nat.
  assert (Hlen' : (length d = (64 - have) + length k + length d')%nat).
  { rewrite <-(take_drop (64 - have) d), Ed, !length_app, Hlt. lia. }
  assert (drop (Z.to_nat (Z.of_nat (length d) - Z.of_nat (length d'))) d = d') as ->.
  { replace (Z.to_nat (Z.of_nat (length d) - Z.of_nat (length d')))
      with (64 - have + length k)%nat by lia.
    rewrite <-drop_drop, Ed. apply drop_app_length. }
  eexists. split; [reflexivity|]. split; [|split; cbn [state buffer count]; [|done]].
  - rewrite <-(take_drop (64 - have) d), Ed, !app_assoc. apply holds_tail; [lia|done..].
  - rewrite splice_length; lia.
Qed.

(** The padding loop runs until the length is 56 modulo 64. *)
Lemma count_504 (n : nat) : Z.land (u64 (8 * Z.of_nat n)) 504 = 8 * Z.of_nat (n mod 64).
Proof.
  rewrite <-count_fill. generalize (u64 (8 * Z.of_nat n)). intros x.
  apply Z.bits_inj'. intros i Hi.
  replace (8 * Z.land (Z.shiftr x 3) 63) with (Z.shiftl (Z.land (Z.shiftr x 3) 63) 3)
    by (rewrite Z.shiftl_mul_pow2 by lia; lia).
  rewrite Z.land_spec, Z.shiftl_spec, Z.land_spec by lia.
  destruct (decide (i < 3)).
  - rewrite (Z.testbit_neg_r 63) by lia.
    assert (Z.testbit 504 i = false) as ->; [|by rewrite !andb_false_r].
    change 504 with (Z.shiftl 63 3). rewrite Z.shiftl_spec by lia. by apply Z.testbit_neg_r; lia.
  - rewrite Z.shiftr_spec by lia. replace (i - 3 + 3) with i by lia. f_equal.
    change 504 with (Z.shiftl 63 3). by rewrite Z.shiftl_spec by lia.
Qed.

Lemma pad_loop_ok n : forall fuel c m, absorbed c m -> (n < fuel)%nat -> (n < 64)%nat ->
  ((length m + n) mod 64 = 56)%nat ->
  exists c', pad_loop fuel c = Ok c' /\ absorbed c' (m ++ replicate n 0).
Proof.
  induction n as [|n IH]; intros [|fuel] c m Hc Hf Hn Hm; try lia; cbn [pad_loop];
    pose proof Hc as (_ & _ & Hcount & _); rewrite Hcount, count_504.
  - rewrite Nat.add_0_r in Hm. rewrite Hm. cbn. exists c. by rewrite app_nil_r.
  - destruct (8 * Z.of_nat (length m mod 64) =? 448) eqn:E; zbool; cbn [negb].
    { exfalso. assert (E' : (length m mod 64 = 56)%nat) by lia.
      rewrite <-Nat.Div0.add_mod_idemp_l, E' in Hm.
      destruct (Nat.lt_ge_cases (S n) 8).
      - rewrite Nat.mod_small in Hm; lia.
      - replace (56 + S n)%nat with (S n - 8 + 1 * 64)%nat in Hm by lia.
        rewrite Nat.Div0.mod_add, Nat.mod_small in Hm; lia. }
    destruct (SHA1Update_ok c m [0] Hc) as (c1 & -> & Hc1);
      [by repeat constructor|cbn; lia|]. cbn [mbind res_bind].
    destruct (IH fuel c1 _ Hc1) as (c' & -> & Hc'); [lia|lia| |].
    { rewrite length_app. cbn [length]. rewrite <-Nat.add_assoc. exact Hm. }
    exists c'. split; [done|]. by rewrite <-app_assoc in Hc'.
Qed.

Lemma be_bytes_shift n x :
  (fun i => u8 (Z.land (Z.shiftr x ((Z.of_nat n - 1 - i) * 8)) 255)) <$> (Z.of_nat <$> seq 0 n)
  = be_bytes n x.
Proof.
  assert (H255 : forall y, u8 (Z.land y 255) = u8 y).
  { intros y. change 255 with (2 ^ 8 - 1). rewrite land_ones_low by lia. apply wrap_wrap. }
  unfold be_bytes. induction n as [|n IH] in x |- *; [done|].
  cbn [le_bytes]. rewrite reverse_cons, <-IH, seq_S, !fmap_app. cbn [fmap list_fmap Nat.add]. f_equal.
  - rewrite <-!list_fmap_compose. apply list_fmap_ext. intros i k Hk.
    apply lookup_seq in Hk as [-> Hk]. cbn. rewrite !H255, Z.shiftr_shiftr by lia.
    do 2 f_equal. lia.
  - rewrite H255. do 2 f_equal. replace ((Z.of_nat (S n) - 1 - Z.of_nat n) * 8) with 0 by lia.
    apply Z.shiftr_0_r.
Qed.

Lemma finalcount_be x :
  (fun i => u8 (Z.land (Z.shiftr x ((7 - Z.land i 7) * 8)) 255)) <$> (Z.of_nat <$> seq 0 8)
  = be_bytes 8 x.
Proof. rewrite <-be_bytes_shift. reflexivity. Qed.

Lemma digest_be (r : regs) :
  (fun i => u8 (Z.land (Z.shiftr (list_of r !!! Z.to_nat (Z.shiftr i 2)) ((3 - Z.land i 3) * 8)) 255))
    <$> (Z.of_nat <$> seq 0 SHA1_DIGEST_LENGTH)
  = concat (be_bytes 4 <$> list_of r).
Proof.
  destruct r as [a b c d e]. cbn [list_of fmap list_fmap concat ra rb rc rd re].
  rewrite <-!be_bytes_shift. reflexivity.
Qed.

Lemma SHA1Pad_ok c m : absorbed c m ->
  exists c', SHA1Pad c = Ok c' /\ absorbed c' (Fips.pad m).
Proof.
  intros Hc. pose proof Hc as (_ & _ & Hn & _). unfold SHA1Pad. rewrite finalcount_be, Hn.
  destruct (SHA1Update_ok c m [0x80] Hc) as (c1 & -> & Hc1); [by repeat constructor|cbn; lia|].
  cbn [mbind res_bind]. destruct (md_zeros_whole (length m)) as [Hw Hz].
  destruct (pad_loop_ok (md_zeros (length m)) 64 c1 _ Hc1) as (c2 & -> & Hc2); [lia|lia| |].
  { rewrite length_app. cbn [length].
    pose proof (Nat.div_mod (length m + (md_zeros (length m) + 9)) 64).
    pose proof (Nat.div_mod (length m + 1 + md_zeros (length m)) 64).
    pose proof (Nat.mod_upper_bound (length m + 1 + md_zeros (length m)) 64). lia. }
  cbn [mbind res_bind].
  assert (be_bytes 8 (u64 (8 * Z.of_nat (length m))) = be_bytes 8 (8 * Z.of_nat (length m))) as ->.
  { unfold be_bytes. f_equal. apply le_bytes_wrap. lia. }
  destruct (SHA1Update_ok c2 _ (be_bytes 8 (8 * Z.of_nat (length m))) Hc2) as (c3 & -> & Hc3);
    [apply be_bytes_ok|rewrite length_be_bytes; lia|].
  exists c3. split; [done|]. unfold Fips.pad. by rewrite <-!app_assoc in Hc3.
Qed.

Lemma SHA1Final_ok c m : absorbed c m ->
  SHA1Final c = Ok (Fips.sha1 m, Ctx (Regs 0 0 0 0 0) 0 (replicate SHA1_BLOCK_LENGTH 0)).
Proof.
  intros Hc. unfold SHA1Final. destruct (SHA1Pad_ok c m Hc) as (c' & -> & (Hs & _) & _ & _ & Hm).
  cbn [mbind res_bind]. rewrite digest_be. unfold Fips.sha1. rewrite Hs.
  rewrite (absorb_ext 64 SHA1Transform Fips.compress); [done|lia|apply SHA1Transform_fips|done].
Qed.

#[export] Program Instance sha1_digest : Digest SHA1_CTX := {|
  dg_wf c := length (buffer c) = 64%nat;
  dg_init := SHA1Init;
  dg_update := SHA1Update;
  dg_final c := fst <$> SHA1Final c;
  dg_max := 2 ^ 29;
  dg_reference := Fips.sha1;
  dg_absorbed := absorbed;
|}.
Next Obligation.
  intros c Hc. cbv beta in Hc. split; [|split; [done|split; [done|by constructor]]].
  apply holds_nil; [lia|]. cbn [buffer SHA1Init]. lia.
Qed.
Next Obligation. exact SHA1Update_ok. Qed.
Next Obligation. intros c m Hc. cbv beta. rewrite (SHA1Final_ok c m Hc). reflexivity. Qed.

(** SHA-1.  Whatever the pieces a message is passed in, provided none is
    512 MiB or longer, [SHA1Init], [SHA1Update] on each piece and [SHA1Final]
    return the FIPS 180-4 digest of the whole message; no call runs out of
    fuel. *)
Lemma SHA1_correct (c : SHA1_CTX) (ds : list (list Z)) :
  length (buffer c) = 64%nat ->
  Forall (fun d => bytes_ok d /\ Z.of_nat (length d) < 2 ^ 29) ds ->
  run_digest c ds = Ok (Fips.sha1 (concat ds)).
Proof. exact (run_digest_ok c ds). Qed.

(** The limit on the pieces is the code's.  [len << 3] is computed in the
    32-bit [size_t] before it is added to the 64-bit count, so the bit count,
    which the digest covers, advances by [8 * len] modulo [2^32] only; a piece
    of 512 MiB leaves it unchanged. *)
Theorem SHA1Update_count (c : SHA1_CTX) (d : list Z) c' :
  SHA1Update c d = Ok c' ->
  count c' = u64 (count c + u32 (8 * Z.of_nat (length d))) /\
  (Z.of_nat (length d) mod 2 ^ 29 = 0 -> count c' = u64 (count c)).
Proof.
  unfold SHA1Update. intros H.
  apply res_bind_ok in H as ([[[s b] i] j] & _ & H). apply Ok_inj in H as <-. cbn [count].
  assert (wshl 32 (Z.of_nat (length d)) 3 = u32 (8 * Z.of_nat (length d))) as ->.
  { unfold wshl. rewrite Z.shiftl_mul_pow2 by lia. f_equal. lia. }
  split; [done|]. intros H0.
  assert (u32 (8 * Z.of_nat (length d)) = 0) as ->; [|by rewrite Z.add_0_r].
  unfold wrap. change (2 ^ 32) with (8 * 2 ^ 29). rewrite Z.mul_mod_distr_l, H0; lia.
Qed.

Lemma SHA1Update_count_witness : exists c',
  SHA1Update (Ctx (Regs 0 0 0 0 0) 0 (replicate 64 0)) [97] = Ok c' /\ count c' = 8.
Proof.
  eexists. split; [reflexivity|].
  by rewrite (proj1 (SHA1Update_count (Ctx (Regs 0 0 0 0 0) 0 (replicate 64 0)) [97] _ eq_refl)).
Defined.
