(* ===== verification/Rmd160.v ===== *)
(** * RIPEMD-160

    CLibrary/hash/rmd160.c.  The two lines of 80 macro calls of
    [RMD160Transform] are the lists [left_line] and [right_line].  The reference
    is the definition of Dobbertin, Bosselaers and Preneel: the message word of
    step [j] is given by powers of the permutation [rho] (after [pi] on the
    right), the shift by a table indexed by the message word, the constants by
    square and cube roots. *)

From S2P Require Import Prelude.
From S2P Require Import Words.
From S2P Require Import Hash.
From Stdlib Require Import ZArith Lia.
From stdpp Require Import prelude gmap list.

Import Five.
Open Scope Z_scope.

(** ** The code *)

Definition RMD160_BLOCK_LENGTH : nat := 64.

Definition H0 : Z := 0x67452301.
Definition H1 : Z := 0xEFCDAB89.
Definition H2 : Z := 0x98BADCFE.
Definition H3 : Z := 0x10325476.
Definition H4 : Z := 0xC3D2E1F0.

Definition K0 : Z := 0x00000000.
Definition K1 : Z := 0x5A827999.
Definition K2 : Z := 0x6ED9EBA1.
Definition K3 : Z := 0x8F1BBCDC.
Definition K4 : Z := 0xA953FD4E.

Definition KK0 : Z := 0x50A28BE6.
Definition KK1 : Z := 0x5C4DD124.
Definition KK2 : Z := 0x6D703EF3.
Definition KK3 : Z := 0x7A6D76E9.
Definition KK4 : Z := 0x00000000.

Definition ROL (n x : Z) : Z := wrotl 32 x n.

Inductive fn := F0 | F1 | F2 | F3 | F4.

Definition eval (f : fn) (x y z : Z) : Z :=
  match f with
  | F0 => Z.lxor (Z.lxor x y) z
  | F1 => Z.lor (Z.land x y) (Z.land (wnot 32 x) z)
  | F2 => Z.lxor (Z.lor x (wnot 32 y)) z
  | F3 => Z.lor (Z.land x z) (Z.land y (wnot 32 z))
  | F4 => Z.lxor x (Z.lor y (wnot 32 z))
  end.

(** A call [R(a, b, c, d, e, Fj, Kj, sj, rj)]. *)
Record step : Type := R {
  st_a : reg; st_b : reg; st_c : reg; st_d : reg; st_e : reg;
  st_F : fn; st_K : Z; st_s : Z; st_r : nat;
}.

Definition rmd_step (x : list Z) (r : regs) (p : step) : regs :=
  let sum := u32 (u32 (u32 (get r (st_a p)
      + eval (st_F p) (get r (st_b p)) (get r (st_c p)) (get r (st_d p)))
      + x !!! st_r p) + st_K p) in
  let r := set r (st_a p) (u32 (ROL (st_s p) sum + get r (st_e p))) in
  set r (st_c p) (ROL 10 (get r (st_c p))).

Definition round1 : list step :=
  [R A B C D E F0 K0 11  0;
   R E A B C D F0 K0 14  1;
   R D E A B C F0 K0 15  2;
   R C D E A B F0 K0 12  3;
   R B C D E A F0 K0  5  4;
   R A B C D E F0 K0  8  5;
   R E A B C D F0 K0  7  6;
   R D E A B C F0 K0  9  7;
   R C D E A B F0 K0 11  8;
   R B C D E A F0 K0 13  9;
   R A B C D E F0 K0 14 10;
   R E A B C D F0 K0 15 11;
   R D E A B C F0 K0  6 12;
   R C D E A B F0 K0  7 13;
   R B C D E A F0 K0  9 14;
   R A B C D E F0 K0  8 15].

Definition round2 : list step :=
  [R E A B C D F1 K1  7  7;
   R D E A B C F1 K1  6  4;
   R C D E A B F1 K1  8 13;
   R B C D E A F1 K1 13  1;
   R A B C D E F1 K1 11 10;
   R E A B C D F1 K1  9  6;
   R D E A B C F1 K1  7 15;
   R C D E A B F1 K1 15  3;
   R B C D E A F1 K1  7 12;
   R A B C D E F1 K1 12  0;
   R E A B C D F1 K1 15  9;
   R D E A B C F1 K1  9  5;
   R C D E A B F1 K1 11  2;
   R B C D E A F1 K1  7 14;
   R A B C D E F1 K1 13 11;
   R E A B C D F1 K1 12  8].

Definition round3 : list step :=
  [R D E A B C F2 K2 11  3;
   R C D E A B F2 K2 13 10;
   R B C D E A F2 K2  6 14;
   R A B C D E F2 K2  7  4;
   R E A B C D F2 K2 14  9;
   R D E A B C F2 K2  9 15;
   R C D E A B F2 K2 13  8;
   R B C D E A F2 K2 15  1;
   R A B C D E F2 K2 14  2;
   R E A B C D F2 K2  8  7;
   R D E A B C F2 K2 13  0;
   R C D E A B F2 K2  6  6;
   R B C D E A F2 K2  5 13;
   R A B C D E F2 K2 12 11;
   R E A B C D F2 K2  7  5;
   R D E A B C F2 K2  5 12].

Definition round4 : list step :=
  [R C D E A B F3 K3 11  1;
   R B C D E A F3 K3 12  9;
   R A B C D E F3 K3 14 11;
   R E A B C D F3 K3 15 10;
   R D E A B C F3 K3 14  0;
   R C D E A B F3 K3 15  8;
   R B C D E A F3 K3  9 12;
   R A B C D E F3 K3  8  4;
   R E A B C D F3 K3  9 13;
   R D E A B C F3 K3 14  3;
   R C D E A B F3 K3  5  7;
   R B C D E A F3 K3  6 15;
   R A B C D E F3 K3  8 14;
   R E A B C D F3 K3  6  5;
   R D E A B C F3 K3  5  6;
   R C D E A B F3 K3 12  2].

Definition round5 : list step :=
  [R B C D E A F4 K4  9  4;
   R A B C D E F4 K4 15  0;
   R E A B C D F4 K4  5  5;
   R D E A B C F4 K4 11  9;
   R C D E A B F4 K4  6  7;
   R B C D E A F4 K4  8 12;
   R A B C D E F4 K4 13  2;
   R E A B C D F4 K4 12 10;
   R D E A B C F4 K4  5 14;
   R C D E A B F4 K4 12  1;
   R B C D E A F4 K4 13  3;
   R A B C D E F4 K4 14  8;
   R E A B C D F4 K4 11 11;
   R D E A B C F4 K4  8  6;
   R C D E A B F4 K4  5 15;
   R B C D E A F4 K4  6 13].

Definition parallel_round1 : list step :=
  [R A B C D E F4 KK0  8  5;
   R E A B C D F4 KK0  9 14;
   R D E A B C F4 KK0  9  7;
   R C D E A B F4 KK0 11  0;
   R B C D E A F4 KK0 13  9;
   R A B C D E F4 KK0 15  2;
   R E A B C D F4 KK0 15 11;
   R D E A B C F4 KK0  5  4;
   R C D E A B F4 KK0  7 13;
   R B C D E A F4 KK0  7  6;
   R A B C D E F4 KK0  8 15;
   R E A B C D F4 KK0 11  8;
   R D E A B C F4 KK0 14  1;
   R C D E A B F4 KK0 14 10;
   R B C D E A F4 KK0 12  3;
   R A B C D E F4 KK0  6 12].

Definition parallel_round2 : list step :=
  [R E A B C D F3 KK1  9  6;
   R D E A B C F3 KK1 13 11;
   R C D E A B F3 KK1 15  3;
   R B C D E A F3 KK1  7  7;
   R A B C D E F3 KK1 12  0;
   R E A B C D F3 KK1  8 13;
   R D E A B C F3 KK1  9  5;
   R C D E A B F3 KK1 11 10;
   R B C D E A F3 KK1  7 14;
   R A B C D E F3 KK1  7 15;
   R E A B C D F3 KK1 12  8;
   R D E A B C F3 KK1  7 12;
   R C D E A B F3 KK1  6  4;
   R B C D E A F3 KK1 15  9;
   R A B C D E F3 KK1 13  1;
   R E A B C D F3 KK1 11  2].

Definition parallel_round3 : list step :=
  [R D E A B C F2 KK2  9 15;
   R C D E A B F2 KK2  7  5;
   R B C D E A F2 KK2 15  1;
   R A B C D E F2 KK2 11  3;
   R E A B C D F2 KK2  8  7;
   R D E A B C F2 KK2  6 14;
   R C D E A B F2 KK2  6  6;
   R B C D E A F2 KK2 14  9;
   R A B C D E F2 KK2 12 11;
   R E A B C D F2 KK2 13  8;
   R D E A B C F2 KK2  5 12;
   R C D E A B F2 KK2 14  2;
   R B C D E A F2 KK2 13 10;
   R A B C D E F2 KK2 13  0;
   R E A B C D F2 KK2  7  4;
   R D E A B C F2 KK2  5 13].

Definition parallel_round4 : list step :=
  [R C D E A B F1 KK3 15  8;
   R B C D E A F1 KK3  5  6;
   R A B C D E F1 KK3  8  4;
   R E A B C D F1 KK3 11  1;
   R D E A B C F1 KK3 14  3;
   R C D E A B F1 KK3 14 11;
   R B C D E A F1 KK3  6 15;
   R A B C D E F1 KK3 14  0;
   R E A B C D F1 KK3  6  5;
   R D E A B C F1 KK3  9 12;
   R C D E A B F1 KK3 12  2;
   R B C D E A F1 KK3  9 13;
   R A B C D E F1 KK3 12  9;
   R E A B C D F1 KK3  5  7;
   R D E A B C F1 KK3 15 10;
   R C D E A B F1 KK3  8 14].

Definition parallel_round5 : list step :=
  [R B C D E A F0 KK4  8 12;
   R A B C D E F0 KK4  5 15;
   R E A B C D F0 KK4 12 10;
   R D E A B C F0 KK4  9  4;
   R C D E A B F0 KK4 12  1;
   R B C D E A F0 KK4  5  5;
   R A B C D E F0 KK4 14  8;
   R E A B C D F0 KK4  6  7;
   R D E A B C F0 KK4  8  6;
   R C D E A B F0 KK4 13  2;
   R B C D E A F0 KK4  6 13;
   R A B C D E F0 KK4  5 14;
   R E A B C D F0 KK4 15  0;
   R D E A B C F0 KK4 13  3;
   R C D E A B F0 KK4 11  9;
   R B C D E A F0 KK4 11 11].

Definition left_line : list step := round1 ++ round2 ++ round3 ++ round4 ++ round5.
Definition right_line : list step :=
  parallel_round1 ++ parallel_round2 ++ parallel_round3 ++ parallel_round4 ++ parallel_round5.

Definition RMD160Transform (state : regs) (block : list Z) : regs :=
  let x := words le_word 4 16 block in
  let l := fold_left (rmd_step x) left_line state in
  let r := fold_left (rmd_step x) right_line state in
  let t := u32 (u32 (rb state + rc l) + rd r) in
  Regs t
    (u32 (u32 (rc state + rd l) + re r))
    (u32 (u32 (rd state + re l) + ra r))
    (u32 (u32 (re state + ra l) + rb r))
    (u32 (u32 (ra state + rb l) + rc r)).

Record RMD160_CTX : Type := Ctx { state : regs; count : Z; buffer : list Z }.

Definition RMD160Init (ctx : RMD160_CTX) : RMD160_CTX :=
  Ctx (Regs H0 H1 H2 H3 H4) 0 (buffer ctx).

(** [off + RMD160_BLOCK_LENGTH <= len], in [size_t] *)
Definition more (off len : Z) : bool := u32 (off + 64) <=? len.

Definition RMD160Update (ctx : RMD160_CTX) (input : list Z) : res RMD160_CTX :=
  let len := Z.of_nat (length input) in
  let have := (count ctx / 8) mod 64 in
  let need := 64 - have in
  let count' := u64 (count ctx + u32 (8 * len)) in
  '(state', buffer', off, have) ←
    (if need <=? len then
       let '(state', buffer', off, have) :=
         if negb (have =? 0) then
           let buffer' := splice (Z.to_nat have) (take (Z.to_nat need) input) (buffer ctx) in
           (RMD160Transform (state ctx) buffer', buffer', need, 0)
         else (state ctx, buffer ctx, 0, have) in
       '(state', off) ← offset_loop RMD160Transform more (S (length input)) state' input off;
       mret (state', buffer', off, have)
     else mret (state ctx, buffer ctx, 0, have));
  mret (Ctx state' count'
    (if off <? len then splice (Z.to_nat have) (drop (Z.to_nat off) input) buffer' else buffer')).

Definition PADDING : list Z := 0x80 :: replicate 63 0.

Definition RMD160Pad (ctx : RMD160_CTX) : res RMD160_CTX :=
  let size := le_bytes 8 (count ctx) in
  let padlen := (RMD160_BLOCK_LENGTH - Z.to_nat ((count ctx / 8) mod 64))%nat in
  let padlen := (if padlen <? 1 + 8 then padlen + RMD160_BLOCK_LENGTH else padlen)%nat in
  ctx ← RMD160Update ctx (take (padlen - 8) PADDING);
  RMD160Update ctx size.

Definition RMD160Final (ctx : RMD160_CTX) : res (list Z * RMD160_CTX) :=
  ctx ← RMD160Pad ctx;
  mret (concat (le_bytes 4 <$> list_of (state ctx)),
        Ctx (Regs 0 0 0 0 0) 0 (replicate RMD160_BLOCK_LENGTH 0)).

(** ** The reference *)

Module Ref.
Definition rho (i : nat) : nat :=
  [7; 4; 13; 1; 10; 6; 15; 3; 12; 0; 9; 5; 2; 14; 11; 8]%nat !!! i.
Definition pi (i : nat) : nat := ((9 * i + 5) mod 16)%nat.

(** Message words of step [j] of the two lines. *)
Definition r (j : nat) : nat := (Nat.iter (j / 16) rho (j mod 16))%nat.
Definition r' (j : nat) : nat := (Nat.iter (j / 16) rho (pi (j mod 16)))%nat.

(** Shifts, by round and message word. *)
Definition shifts (j : nat) : list Z :=
  match (j / 16)%nat with
  | 0%nat => [11; 14; 15; 12; 5; 8; 7; 9; 11; 13; 14; 15; 6; 7; 9; 8]
  | 1%nat => [12; 13; 11; 15; 6; 9; 9; 7; 12; 15; 11; 13; 7; 8; 7; 7]
  | 2%nat => [13; 15; 14; 11; 7; 7; 6; 8; 13; 14; 13; 12; 5; 5; 6; 9]
  | 3%nat => [14; 11; 12; 14; 8; 6; 5; 5; 15; 12; 15; 14; 9; 9; 8; 6]
  | _ => [15; 12; 13; 13; 9; 5; 8; 6; 14; 11; 12; 11; 8; 6; 5; 5]
  end.

Definition f (j : nat) (x y z : Z) : Z :=
  match (j / 16)%nat with
  | 0%nat => Z.lxor x (Z.lxor y z)
  | 1%nat => Z.lor (Z.land x y) (Z.land (wnot 32 x) z)
  | 2%nat => Z.lxor (Z.lor x (wnot 32 y)) z
  | 3%nat => Z.lor (Z.land x z) (Z.land y (wnot 32 z))
  | _ => Z.lxor x (Z.lor y (wnot 32 z))
  end.

Definition prime (k : nat) : Z := [2; 3; 5; 7] !!! k.

Definition K (j : nat) : Z :=
  match (j / 16)%nat with 0%nat => 0 | S k => Z.sqrt (prime k * 2 ^ 60) end.
Definition K' (j : nat) : Z :=
  match (j / 16)%nat with 4%nat => 0 | k => cbrt_bits 40 (prime k * 2 ^ 90) 0 end.

Definition step (X : list Z) (q : Z * Z * Z * Z * Z) (F : Z -> Z -> Z -> Z) (k s : Z) (w : nat)
    : Z * Z * Z * Z * Z :=
  let '(a, b, c, d, e) := q in
  (e, u32 (wrotl 32 (u32 (a + F b c d + X !!! w + k)) s + e), b, wrotl 32 c 10, d).

Definition left (X : list Z) (q : Z * Z * Z * Z * Z) (j : nat) : Z * Z * Z * Z * Z :=
  step X q (f j) (K j) (shifts j !!! r j) (r j).
Definition right (X : list Z) (q : Z * Z * Z * Z * Z) (j : nat) : Z * Z * Z * Z * Z :=
  step X q (f (79 - j)%nat) (K' j) (shifts j !!! r' j) (r' j).

Definition compress (s : regs) (block : list Z) : regs :=
  let X := words le_word 4 16 block in
  let '(a, b, c, d, e) := fold_left (left X) (seq 0 80) (view 0 s) in
  let '(a', b', c', d', e') := fold_left (right X) (seq 0 80) (view 0 s) in
  Regs (u32 (rb s + c + d')) (u32 (rc s + d + e')) (u32 (rd s + e + a'))
       (u32 (re s + a + b')) (u32 (ra s + b + c')).

Definition iv : regs := Regs 0x67452301 0xefcdab89 0x98badcfe 0x10325476 0xc3d2e1f0.

Definition pad (m : list Z) : list Z :=
  m ++ 0x80 :: replicate (md_zeros (length m)) 0 ++ le_bytes 8 (8 * Z.of_nat (length m)).

Definition rmd160 (m : list Z) : list Z :=
  concat (le_bytes 4 <$> list_of (absorb 64 compress iv (pad m))).
End Ref.

(** ** The unrolled lines *)

Definition fn_of (j : nat) : fn :=
  match (j / 16)%nat with 0%nat => F0 | 1%nat => F1 | 2%nat => F2 | 3%nat => F3 | _ => F4 end.

Definition call (j : nat) (f : fn) (k s : Z) (w : nat) : step :=
  let '(a, b, c, d, e) := rot j in R a b c d e f k s w.

Definition expected_left (j : nat) : step :=
  call j (fn_of j) (Ref.K j) (Ref.shifts j !!! Ref.r j) (Ref.r j).
Definition expected_right (j : nat) : step :=
  call j (fn_of (79 - j)) (Ref.K' j) (Ref.shifts j !!! Ref.r' j) (Ref.r' j).

Lemma left_expected : left_line = expected_left <$> seq 0 80.
Proof. vm_compute. reflexivity. Qed.

Lemma right_expected : right_line = expected_right <$> seq 0 80.
Proof. vm_compute. reflexivity. Qed.

Lemma eval_fn_of j x y z : u32 (eval (fn_of j) x y z) = u32 (Ref.f j x y z).
Proof. unfold fn_of, Ref.f. destruct (j / 16)%nat as [|[|[|[|]]]]; unfold eval; word_bits. Qed.

Lemma rmd_sum f g a x k : u32 f = u32 g -> u32 (u32 (u32 (a + f) + x) + k) = u32 (a + g + x + k).
Proof.
  intros E. change (eqw 32 f g) in E. transitivity (u32 (a + f + x + k)); [wrap_ring|].
  change (eqw 32 (a + f + x + k) (a + g + x + k)). by rewrite E.
Qed.

Lemma rmd_step_view X r j f F k s w : (forall x y z, u32 (eval f x y z) = u32 (F x y z)) ->
  view (S j) (rmd_step X r (call j f k s w)) = Ref.step X (view j r) F k s w.
Proof.
  intros HF. unfold Ref.step.
  assert (Hsum : forall a b c d, u32 (u32 (u32 (a + eval f b c d) + X !!! w) + k)
    = u32 (a + F b c d + X !!! w + k)) by (intros; by apply rmd_sum).
  unfold call, view, rot.
  destruct (mod5_cases j) as [[E1 E2]|[[E1 E2]|[[E1 E2]|[[E1 E2]|[E1 E2]]]]];
    rewrite E1, E2; unfold rmd_step; destruct r as [va vb vc vd ve];
    cbn [st_a st_b st_c st_d st_e st_F st_K st_s st_r get set ra rb rc rd re];
    rewrite Hsum; reflexivity.
Qed.

(** A line of calls computes the reference's loop. *)
Lemma line_fold X (call_of : nat -> step) (ref : Z * Z * Z * Z * Z -> nat -> Z * Z * Z * Z * Z) :
  (forall j r, view (S j) (rmd_step X r (call_of j)) = ref (view j r) j) ->
  forall n j r, view (j + n) (fold_left (rmd_step X) (call_of <$> seq j n) r)
    = fold_left ref (seq j n) (view j r).
Proof.
  intros Hs. induction n as [|n IH]; intros j r; cbn [seq fmap list_fmap fold_left].
  - by rewrite Nat.add_0_r.
  - rewrite <-Hs, <-IH. f_equal. lia.
Qed.

Lemma left_rounds X s : fold_left (Ref.left X) (seq 0 80) (view 0 s)
  = view 80 (fold_left (rmd_step X) left_line s).
Proof.
  rewrite left_expected. symmetry. apply (line_fold X expected_left (Ref.left X) 
    (fun j r => rmd_step_view X r j _ _ _ _ _ (eval_fn_of j)) 80 0 s).
Qed.

Lemma right_rounds X s : fold_left (Ref.right X) (seq 0 80) (view 0 s)
  = view 80 (fold_left (rmd_step X) right_line s).
Proof.
  rewrite right_expected. symmetry. apply (line_fold X expected_right (Ref.right X) 
    (fun j r => rmd_step_view X r j _ _ _ _ _ (eval_fn_of (79 - j))) 80 0 s).
Qed.

Lemma rmd_feed s l r :
  (let '(a, b, c, d, e) := view 80 l in
   let '(a', b', c', d', e') := view 80 r in
   Regs (u32 (rb s + c + d')) (u32 (rc s + d + e')) (u32 (rd s + e + a'))
        (u32 (re s + a + b')) (u32 (ra s + b + c')))
  = Regs (u32 (u32 (rb s + rc l) + rd r)) (u32 (u32 (rc s + rd l) + re r))
      (u32 (u32 (rd s + re l) + ra r)) (u32 (u32 (re s + ra l) + rb r))
      (u32 (u32 (ra s + rb l) + rc r)).
Proof. destruct l, r. cbn [ra rb rc rd re]. by rewrite !wrap_add_l. Qed.

Lemma RMD160Transform_ref s block : RMD160Transform s block = Ref.compress s block.
Proof.
  unfold RMD160Transform, Ref.compress.
  by rewrite (left_rounds _ s), (right_rounds _ s), rmd_feed.
Qed.

(** ** The context *)

Definition absorbed (c : RMD160_CTX) (m : list Z) : Prop :=
  holds 64 RMD160Transform Ref.iv (state c) (buffer c) m /\ length (buffer c) = 64%nat /\
  count c = u64 (8 * Z.of_nat (length m)).

Lemma count_fill8 (n : nat) : (u64 (8 * Z.of_nat n) / 8) mod 64 = Z.of_nat (n mod 64).
Proof.
  rewrite <-count_fill. change 63 with (2 ^ 6 - 1).
  by rewrite land_ones_low, Z.shiftr_div_pow2 by lia.
Qed.

Lemma count_step8 (n k : nat) : Z.of_nat k < 2 ^ 29 ->
  u64 (u64 (8 * Z.of_nat n) + u32 (8 * Z.of_nat k)) = u64 (8 * Z.of_nat (n + k)).
Proof.
  intros Hk. rewrite (wrap_id 32) by (unfold uint; lia). rewrite wrap_add_l. f_equal. lia.
Qed.

(** The guarded copy of the last bytes. *)
Lemma tail_copy off (d buf : list Z) (have : nat) : 0 <= off <= Z.of_nat (length d) ->
  (if off <? Z.of_nat (length d) then splice have (drop (Z.to_nat off) d) buf else buf)
  = splice have (drop (Z.to_nat off) d) buf.
Proof.
  intros Ho. destruct (_ <? _) eqn:E; zbool; [done|].
  rewrite drop_ge by lia. by rewrite splice_nil.
Qed.

(** The loop and the copy, once the buffer is empty. *)
Lemma rmd_loop_ok s buf m d off : holds 64 RMD160Transform Ref.iv s buf m ->
  (length m mod 64 = 0)%nat -> Z.of_nat (length d) < 2 ^ 29 -> 0 <= off <= Z.of_nat (length d) ->
  exists s' off', offset_loop RMD160Transform more (S (length d)) s d off = Ok (s', off') /\
    0 <= off' <= Z.of_nat (length d) /\ (length (drop (Z.to_nat off') d) < 64)%nat /\
    holds 64 RMD160Transform Ref.iv s' (splice 0 (drop (Z.to_nat off') d) buf)
      (m ++ drop (Z.to_nat off) d).
Proof.
  intros Hh Hm Hlen Hoff.
  rewrite offset_loop_ok; [|intros i Hi; unfold more; by rewrite wrap_id by (unfold uint; lia)|lia|lia].
  destruct (holds_loop 64 ltac:(lia) RMD160Transform Ref.iv (S (length d)) _ _ _
    (drop (Z.to_nat off) d) Hh Hm) as (s' & k & d' & -> & Ed & Hd' & Hh' & Hm');
    [rewrite length_drop; lia|].
  assert (Hl : (length d - Z.to_nat off = length k + length d')%nat)
    by (rewrite <-length_app, <-Ed; by rewrite length_drop).
  cbn [fmap res_fmap]. exists s', (Z.of_nat (length d) - Z.of_nat (length d')).
  assert (drop (Z.to_nat (Z.of_nat (length d) - Z.of_nat (length d'))) d = d') as Edr.
  { replace (Z.to_nat (Z.of_nat (length d) - Z.of_nat (length d')))
      with (Z.to_nat off + length k)%nat by lia.
    rewrite <-drop_drop, Ed. apply drop_app_length. }
  rewrite Edr. split; [done|]. split; [lia|]. split; [done|].
  rewrite Ed, app_assoc. apply holds_tail; [lia|done..].
Qed.

Lemma RMD160Update_ok c m d : absorbed c m -> Z.of_nat (length d) < 2 ^ 29 ->
  exists c', RMD160Update c d = Ok c' /\ absorbed c' (m ++ d).
Proof.
  intros (Hh & Hb & Hc) Hlen. unfold RMD160Update.
  rewrite Hc, count_fill8, count_step8, <-length_app by done.
  set (have := (length m mod 64)%nat).
  assert (Hhave : (have < 64)%nat) by by apply Nat.mod_upper_bound.
  destruct (64 - Z.of_nat have <=? _) eqn:E; zbool.
  2:{ cbn [mbind res_bind mret res_ret]. rewrite tail_copy by lia. change (Z.to_nat 0) with 0%nat.
      rewrite drop_0, Nat2Z.id. eexists. split; [reflexivity|].
      split; [|split; cbn [state buffer count]; [|done]].
      - apply holds_short; [lia|done|]. fold have. lia.
      - rewrite splice_length; lia. }
  destruct (Z.of_nat have =? 0) eqn:H0; zbool; cbn [negb].
  - destruct (rmd_loop_ok (state c) (buffer c) m d 0 Hh) as (s' & off & -> & Ho & Hl & Hh');
      [fold have; lia|lia|lia|].
    cbn [mbind res_bind mret res_ret]. rewrite tail_copy, Nat2Z.id by lia.
    replace have with 0%nat by lia. change (Z.to_nat 0) with 0%nat in Hh'. rewrite drop_0 in Hh'.
    eexists. split; [reflexivity|]. split; [done|]. cbn [buffer count].
    split; [|done]. rewrite splice_length; lia.
  - rewrite Nat2Z.id. replace (Z.to_nat (64 - Z.of_nat have)) with (64 - have)%nat by lia.
    set (buf' := splice have (take (64 - have) d) (buffer c)).
    assert (Hlt : length (take (64 - have) d) = (64 - have)%nat) by (rewrite length_take; lia).
    assert (Hb' : length buf' = 64%nat) by (unfold buf'; rewrite splice_length; lia).
    destruct (holds_fill 64 ltac:(lia) RMD160Transform Ref.iv _ _ buf' m (take (64 - have) d) Hh)
      as [Hh1 Hm1]; [fold have; lia|lia|]. fold have in Hh1.
    rewrite (take_ge (splice _ _ _)) in Hh1 by (fold buf'; lia). fold buf' in Hh1.
    destruct (rmd_loop_ok _ buf' _ d (64 - Z.of_nat have) Hh1 Hm1) as (s' & off & -> & Ho & Hl & Hh');
      [lia|lia|].
    replace (Z.to_nat (64 - Z.of_nat have)) with (64 - have)%nat in Hh' by lia.
    rewrite <-app_assoc, take_drop in Hh'.
    cbn [mbind res_bind mret res_ret]. rewrite tail_copy by lia. change (Z.to_nat 0) with 0%nat.
    eexists. split; [reflexivity|]. split; [done|]. cbn [buffer count].
    split; [|done]. rewrite splice_length; lia.
Qed.

Lemma RMD160Pad_ok c m : absorbed c m ->
  exists c', RMD160Pad c = Ok c' /\ absorbed c' (Ref.pad m).
Proof.
  intros Hc. pose proof Hc as (_ & _ & Hn). unfold RMD160Pad.
  rewrite Hn, count_fill8, Nat2Z.id. unfold RMD160_BLOCK_LENGTH. rewrite md_zeros_eq.
  destruct (md_zeros_whole (length m)) as [_ Hz].
  assert (take (md_zeros (length m) + 9 - 8) PADDING
    = 0x80 :: replicate (md_zeros (length m)) 0) as ->.
  { replace (md_zeros (length m) + 9 - 8)%nat with (S (md_zeros (length m))) by lia.
    unfold PADDING. cbn [take]. f_equal. rewrite take_replicate. f_equal. lia. }
  destruct (RMD160Update_ok c m (0x80 :: replicate (md_zeros (length m)) 0) Hc) as (c1 & -> & Hc1);
    [cbn [length]; rewrite length_replicate; lia|]. cbn [mbind res_bind].
  assert (le_bytes 8 (u64 (8 * Z.of_nat (length m))) = le_bytes 8 (8 * Z.of_nat (length m))) as ->
    by (apply le_bytes_wrap; lia).
  destruct (RMD160Update_ok c1 _ (le_bytes 8 (8 * Z.of_nat (length m))) Hc1) as (c2 & -> & Hc2);
    [rewrite length_le_bytes; lia|].
  exists c2. split; [done|]. unfold Ref.pad. by rewrite <-app_assoc in Hc2.
Qed.

Lemma RMD160Final_ok c m : absorbed c m ->
  RMD160Final c = Ok (Ref.rmd160 m, Ctx (Regs 0 0 0 0 0) 0 (replicate RMD160_BLOCK_LENGTH 0)).
Proof.
  intros Hc. unfold RMD160Final. destruct (RMD160Pad_ok c m Hc) as (c' & -> & (Hs & _) & _).
  cbn [mbind res_bind]. unfold Ref.rmd160. rewrite Hs.
  by rewrite (absorb_eq 64 _ _ _ _ RMD160Transform_ref).
Qed.

#[export] Program Instance rmd160_digest : Digest RMD160_CTX := {|
  dg_wf c := length (buffer c) = 64%nat;
  dg_init := RMD160Init;
  dg_update := RMD160Update;
  dg_final c := fst <$> RMD160Final c;
  dg_max := 2 ^ 29;
  dg_reference := Ref.rmd160;
  dg_absorbed := absorbed;
|}.
Next Obligation.
  intros c Hc. cbv beta in Hc. split; [|split; [done|done]].
  apply holds_nil; [lia|]. cbn [buffer RMD160Init]. lia.
Qed.
Next Obligation. intros c m d Hc _. by apply RMD160Update_ok. Qed.
Next Obligation. intros c m Hc. cbv beta. rewrite (RMD160Final_ok c m Hc). reflexivity. Qed.

(** RIPEMD-160.  Whatever the pieces a message is passed in, provided none
    is 512 MiB or longer, [RMD160Init], [RMD160Update] on each piece and
    [RMD160Final] return the reference digest of the whole message; no call
    runs out of fuel. *)
Lemma RMD160_correct (c : RMD160_CTX) (ds : list (list Z)) :
  length (buffer c) = 64%nat ->
  Forall (fun d => bytes_ok d /\ Z.of_nat (length d) < 2 ^ 29) ds ->
  run_digest c ds = Ok (Ref.rmd160 (concat ds)).
Proof. exact (run_digest_ok c ds). Qed.
