(* ===== verification/Sha2.v ===== *)
(** * SHA-224, SHA-256, SHA-384 and SHA-512

    CLibrary/hash/sha2.c.  The file holds the same code twice, for 32-bit words
    and 64-byte blocks and for 64-bit words and 128-byte blocks; the text
    differs only in widths, constants and the six logical functions, which are
    the fields of [variant].  [Transform] exists in two forms, chosen by
    SHA2_UNROLL_TRANSFORM: a loop that shifts eight variables, and a loop
    unrolled eight times that renames them; both are modelled.  A context is
    used at one width, so the union [state] is eight words.

    The reference is FIPS 180-4, its constants computed as fractional parts of
    square and cube roots of primes. *)

From S2P Require Import Prelude.
From S2P Require Import Words.
From S2P Require Import Hash.
From Stdlib Require Import ZArith Lia.
From stdpp Require Import prelude gmap list.

Open Scope Z_scope.

(** ** Words and bytes *)

Definition BE_8_TO_32 (cp : list Z) : Z :=
  Z.lor (Z.lor (Z.lor (cp !!! 3%nat) (wshl 32 (cp !!! 2%nat) 8))
    (wshl 32 (cp !!! 1%nat) 16)) (wshl 32 (cp !!! 0%nat) 24).

Definition BE_8_TO_64 (cp : list Z) : Z :=
  Z.lor (Z.lor (Z.lor (Z.lor (Z.lor (Z.lor (Z.lor (cp !!! 7%nat) (wshl 64 (cp !!! 6%nat) 8))
    (wshl 64 (cp !!! 5%nat) 16)) (wshl 64 (cp !!! 4%nat) 24)) (wshl 64 (cp !!! 3%nat) 32))
    (wshl 64 (cp !!! 2%nat) 40)) (wshl 64 (cp !!! 1%nat) 48)) (wshl 64 (cp !!! 0%nat) 56).

Definition BE_64_TO_8 (src : Z) : list Z := (fun k => u8 (Z.shiftr src k)) <$> [56; 48; 40; 32; 24; 16; 8; 0].
Definition BE_32_TO_8 (src : Z) : list Z := (fun k => u8 (Z.shiftr src k)) <$> [24; 16; 8; 0].

(** [ADDINC128(w, n)] on [(w[0], w[1])] *)
Definition ADDINC128 (w : Z * Z) (n : Z) : Z * Z :=
  let lo := u64 (w.1 + n) in
  (lo, if lo <? n then u64 (w.2 + 1) else w.2).

(** ** The logical functions *)

Definition R (b x : Z) : Z := Z.shiftr x b.
Definition S32 (b x : Z) : Z := Z.lor (Z.shiftr x b) (wshl 32 x (32 - b)).
Definition S64 (b x : Z) : Z := Z.lor (Z.shiftr x b) (wshl 64 x (64 - b)).

Definition Ch (w x y z : Z) : Z := Z.lxor (Z.land x y) (Z.land (wnot w x) z).
Definition Maj (x y z : Z) : Z := Z.lxor (Z.lxor (Z.land x y) (Z.land x z)) (Z.land y z).

Definition Sigma0_256 (x : Z) : Z := Z.lxor (Z.lxor (S32 2 x) (S32 13 x)) (S32 22 x).
Definition Sigma1_256 (x : Z) : Z := Z.lxor (Z.lxor (S32 6 x) (S32 11 x)) (S32 25 x).
Definition sigma0_256 (x : Z) : Z := Z.lxor (Z.lxor (S32 7 x) (S32 18 x)) (R 3 x).
Definition sigma1_256 (x : Z) : Z := Z.lxor (Z.lxor (S32 17 x) (S32 19 x)) (R 10 x).

Definition Sigma0_512 (x : Z) : Z := Z.lxor (Z.lxor (S64 28 x) (S64 34 x)) (S64 39 x).
Definition Sigma1_512 (x : Z) : Z := Z.lxor (Z.lxor (S64 14 x) (S64 18 x)) (S64 41 x).
Definition sigma0_512 (x : Z) : Z := Z.lxor (Z.lxor (S64 1 x) (S64 8 x)) (R 7 x).
Definition sigma1_512 (x : Z) : Z := Z.lxor (Z.lxor (S64 19 x) (S64 61 x)) (R 6 x).

(** ** Tables *)

(** One line of [K256], four words. *)
Definition row (a b c d : Z) : list Z := [a; b; c; d].

Definition K256 : list Z :=
  row 0x428A2F98 0x71374491 0xB5C0FBCF 0xE9B5DBA5 ++
  row 0x3956C25B 0x59F111F1 0x923F82A4 0xAB1C5ED5 ++
  row 0xD807AA98 0x12835B01 0x243185BE 0x550C7DC3 ++
  row 0x72BE5D74 0x80DEB1FE 0x9BDC06A7 0xC19BF174 ++
  row 0xE49B69C1 0xEFBE4786 0x0FC19DC6 0x240CA1CC ++
  row 0x2DE92C6F 0x4A7484AA 0x5CB0A9DC 0x76F988DA ++
  row 0x983E5152 0xA831C66D 0xB00327C8 0xBF597FC7 ++
  row 0xC6E00BF3 0xD5A79147 0x06CA6351 0x14292967 ++
  row 0x27B70A85 0x2E1B2138 0x4D2C6DFC 0x53380D13 ++
  row 0x650A7354 0x766A0ABB 0x81C2C92E 0x92722C85 ++
  row 0xA2BFE8A1 0xA81A664B 0xC24B8B70 0xC76C51A3 ++
  row 0xD192E819 0xD6990624 0xF40E3585 0x106AA070 ++
  row 0x19A4C116 0x1E376C08 0x2748774C 0x34B0BCB5 ++
  row 0x391C0CB3 0x4ED8AA4A 0x5B9CCA4F 0x682E6FF3 ++
  row 0x748F82EE 0x78A5636F 0x84C87814 0x8CC70208 ++
  row 0x90BEFFFA 0xA4506CEB 0xBEF9A3F7 0xC67178F2.

Definition K512 : list Z :=
  [0x428a2f98d728ae22; 0x7137449123ef65cd;
   0xb5c0fbcfec4d3b2f; 0xe9b5dba58189dbbc;
   0x3956c25bf348b538; 0x59f111f1b605d019;
   0x923f82a4af194f9b; 0xab1c5ed5da6d8118;
   0xd807aa98a3030242; 0x12835b0145706fbe;
   0x243185be4ee4b28c; 0x550c7dc3d5ffb4e2;
   0x72be5d74f27b896f; 0x80deb1fe3b1696b1;
   0x9bdc06a725c71235; 0xc19bf174cf692694;
   0xe49b69c19ef14ad2; 0xefbe4786384f25e3;
   0x0fc19dc68b8cd5b5; 0x240ca1cc77ac9c65;
   0x2de92c6f592b0275; 0x4a7484aa6ea6e483;
   0x5cb0a9dcbd41fbd4; 0x76f988da831153b5;
   0x983e5152ee66dfab; 0xa831c66d2db43210;
   0xb00327c898fb213f; 0xbf597fc7beef0ee4;
   0xc6e00bf33da88fc2; 0xd5a79147930aa725;
   0x06ca6351e003826f; 0x142929670a0e6e70;
   0x27b70a8546d22ffc; 0x2e1b21385c26c926;
   0x4d2c6dfc5ac42aed; 0x53380d139d95b3df;
   0x650a73548baf63de; 0x766a0abb3c77b2a8;
   0x81c2c92e47edaee6; 0x92722c851482353b;
   0xa2bfe8a14cf10364; 0xa81a664bbc423001;
   0xc24b8b70d0f89791; 0xc76c51a30654be30;
   0xd192e819d6ef5218; 0xd69906245565a910;
   0xf40e35855771202a; 0x106aa07032bbd1b8;
   0x19a4c116b8d2d0c8; 0x1e376c085141ab53;
   0x2748774cdf8eeb99; 0x34b0bcb5e19b48a8;
   0x391c0cb3c5c95a63; 0x4ed8aa4ae3418acb;
   0x5b9cca4f7763e373; 0x682e6ff3d6b2b8a3;
   0x748f82ee5defb2fc; 0x78a5636f43172f60;
   0x84c87814a1f0ab72; 0x8cc702081a6439ec;
   0x90befffa23631e28; 0xa4506cebde82bde9;
   0xbef9a3f7b2c67915; 0xc67178f2e372532b;
   0xca273eceea26619c; 0xd186b8c721c0c207;
   0xeada7dd6cde0eb1e; 0xf57d4f7fee6ed178;
   0x06f067aa72176fba; 0x0a637dc5a2c898a6;
   0x113f9804bef90dae; 0x1b710b35131c471b;
   0x28db77f523047d84; 0x32caab7b40c72493;
   0x3c9ebe0a15c9bebc; 0x431d67c49c100d4c;
   0x4cc5d4becb3e42b6; 0x597f299cfc657e2a;
   0x5fcb6fab3ad6faec; 0x6c44198c4a475817].

(** ** The two variants of the code *)

Record variant : Type := Variant {
  v_w : Z;                      (** width of a word *)
  v_bytes : nat;                (** bytes of a word *)
  v_rounds : nat;
  v_BLOCK_LENGTH : nat;
  v_SHORT_BLOCK_LENGTH : nat;
  v_clear : nat;                (** second [memset] of [Pad] *)
  v_load : list Z -> Z;
  v_K : list Z;
  v_Sigma0 : Z -> Z;
  v_Sigma1 : Z -> Z;
  v_sigma0 : Z -> Z;
  v_sigma1 : Z -> Z;
  v_add : Z * Z -> Z -> Z * Z;  (** [bitcount += n] *)
  v_length : Z * Z -> list Z;   (** the length field *)
}.

Definition V256 : variant := {|
  v_w := 32; v_bytes := 4; v_rounds := 64;
  v_BLOCK_LENGTH := 64; v_SHORT_BLOCK_LENGTH := 56; v_clear := 56;
  v_load := BE_8_TO_32; v_K := K256;
  v_Sigma0 := Sigma0_256; v_Sigma1 := Sigma1_256;
  v_sigma0 := sigma0_256; v_sigma1 := sigma1_256;
  v_add := fun bc n => (u64 (bc.1 + n), bc.2);
  v_length := fun bc => BE_64_TO_8 bc.1;
|}.

Definition V512 : variant := {|
  v_w := 64; v_bytes := 8; v_rounds := 80;
  v_BLOCK_LENGTH := 128; v_SHORT_BLOCK_LENGTH := 112; v_clear := 126;
  v_load := BE_8_TO_64; v_K := K512;
  v_Sigma0 := Sigma0_512; v_Sigma1 := Sigma1_512;
  v_sigma0 := sigma0_512; v_sigma1 := sigma1_512;
  v_add := ADDINC128;
  v_length := fun bc => BE_64_TO_8 bc.2 ++ BE_64_TO_8 bc.1;
|}.

Inductive reg := A | B | C | D | E | F | G | H.

Record regs : Type := Regs {
  ra : Z; rb : Z; rc : Z; rd : Z; re : Z; rf : Z; rg : Z; rh : Z }.

Definition get (r : regs) (x : reg) : Z :=
  match x with
  | A => ra r | B => rb r | C => rc r | D => rd r
  | E => re r | F => rf r | G => rg r | H => rh r
  end.

Definition set (r : regs) (x : reg) (v : Z) : regs :=
  let '(Regs a b c d e f g h) := r in
  match x with
  | A => Regs v b c d e f g h | B => Regs a v c d e f g h
  | C => Regs a b v d e f g h | D => Regs a b c v e f g h
  | E => Regs a b c d v f g h | F => Regs a b c d e v g h
  | G => Regs a b c d e f v h | H => Regs a b c d e f g v
  end.

Definition list_of (r : regs) : list Z := [ra r; rb r; rc r; rd r; re r; rf r; rg r; rh r].

Section code.
Context (V : variant).
Local Notation w := (v_w V).
Local Notation BL := (v_BLOCK_LENGTH V).

(** [state[k] += x_k] *)
Definition add (r s : regs) : regs :=
  Regs (wrap w (ra r + ra s)) (wrap w (rb r + rb s)) (wrap w (rc r + rc s))
       (wrap w (rd r + rd s)) (wrap w (re r + re s)) (wrap w (rf r + rf s))
       (wrap w (rg r + rg s)) (wrap w (rh r + rh s)).

(** [BE_8_TO_n(W[j], data); data += n;] *)
Definition load_word (data : list Z) (W : list Z) (j : nat) : list Z :=
  <[j := v_load V (take (v_bytes V) (drop (v_bytes V * j) data))]> W.

(** The message expansion: [W[j&0x0f] += s1 + W[(j+9)&0x0f] + s0]. *)
Definition expand (W : list Z) (j : nat) : list Z :=
  let s0 := v_sigma0 V (W !!! and15 (j + 1)) in
  let s1 := v_sigma1 V (W !!! and15 (j + 14)) in
  <[and15 j := wrap w (W !!! and15 j + (s1 + W !!! and15 (j + 9) + s0))]> W.

Definition temp1 (e f g h k x : Z) : Z := wrap w (h + v_Sigma1 V e + Ch w e f g + k + x).
Definition temp2 (a b c : Z) : Z := wrap w (v_Sigma0 V a + Maj a b c).

(** *** The loop version *)

Definition round (r : regs) (j : nat) (x : Z) : regs :=
  let '(Regs a b c d e f g h) := r in
  let T1 := temp1 e f g h (v_K V !!! j) x in
  let T2 := temp2 a b c in
  Regs (wrap w (T1 + T2)) a b c (wrap w (d + T1)) e f g.

Definition body_0_to_15 (data : list Z) (rW : regs * list Z) (j : nat) : regs * list Z :=
  let '(r, W) := rW in
  let W := load_word data W j in
  (round r j (W !!! j), W).

Definition body (rW : regs * list Z) (j : nat) : regs * list Z :=
  let '(r, W) := rW in
  let W := expand W j in
  (round r j (W !!! and15 j), W).

(** [j] runs over [0..15] in the first loop and up to the number of rounds in
    the second. *)
Definition transform (state : regs) (data : list Z) : regs :=
  let rW := fold_left (body_0_to_15 data) (seq 0 16) (state, replicate 16 0) in
  let rW := fold_left body (seq 16 (v_rounds V - 16)) rW in
  add state rW.1.

(** *** The unrolled version *)

(** The registers of a call [ROUND(a, b, c, d, e, f, g, h)]. *)
Definition names : Type := reg * reg * reg * reg * reg * reg * reg * reg.

Definition ROUND_with (r : regs) (j : nat) (x : Z) (n : names) : regs :=
  let '(a, b, c, d, e, f, g, h) := n in
  let T1 := temp1 (get r e) (get r f) (get r g) (get r h) (v_K V !!! j) x in
  let r := set r d (wrap w (get r d + T1)) in
  set r h (wrap w (T1 + (v_Sigma0 V (get r a) + Maj (get r a) (get r b) (get r c)))).

Definition ROUND_0_TO_15 (data : list Z) (st : regs * list Z * nat) (n : names)
    : regs * list Z * nat :=
  let '(r, W, j) := st in
  let W := load_word data W j in
  (ROUND_with r j (W !!! j) n, W, S j).

Definition ROUND (st : regs * list Z * nat) (n : names) : regs * list Z * nat :=
  let '(r, W, j) := st in
  let W := expand W j in
  (ROUND_with r j (W !!! and15 j) n, W, S j).

Definition eight : list names :=
  [(A, B, C, D, E, F, G, H);
   (H, A, B, C, D, E, F, G);
   (G, H, A, B, C, D, E, F);
   (F, G, H, A, B, C, D, E);
   (E, F, G, H, A, B, C, D);
   (D, E, F, G, H, A, B, C);
   (C, D, E, F, G, H, A, B);
   (B, C, D, E, F, G, H, A)].

(** Each iteration of the two loops makes eight calls. *)
Definition transform_unrolled (state : regs) (data : list Z) : regs :=
  let st := fold_left (fun st _ => fold_left (ROUND_0_TO_15 data) eight st)
              (seq 0 2) (state, replicate 16 0, 0%nat) in
  let st := fold_left (fun st _ => fold_left ROUND eight st)
              (seq 2 (v_rounds V / 8 - 2)) st in
  add state st.1.1.
End code.

(** ** Contexts *)

Record SHA2_CTX : Type := Ctx { state : regs; bitcount : Z * Z; buffer : list Z }.

Definition sha224_initial_hash_value : regs :=
  Regs 0xc1059ed8 0x367cd507 0x3070dd17 0xf70e5939 0xffc00b31 0x68581511 0x64f98fa7 0xbefa4fa4.
Definition sha256_initial_hash_value : regs :=
  Regs 0x6a09e667 0xbb67ae85 0x3c6ef372 0xa54ff53a 0x510e527f 0x9b05688c 0x1f83d9ab 0x5be0cd19.
Definition sha512_initial_hash_value : regs :=
  Regs 0x6a09e667f3bcc908 0xbb67ae8584caa73b 0x3c6ef372fe94f82b 0xa54ff53a5f1d36f1 0x510e527fade682d1 0x9b05688c2b3e6c1f 0x1f83d9abfb41bd6b 0x5be0cd19137e2179.
Definition sha384_initial_hash_value : regs :=
  Regs 0xcbbb9d5dc1059ed8 0x629a292a367cd507 0x9159015a3070dd17 0x152fecd8f70e5939 0x67332667ffc00b31 0x8eb44a8768581511 0xdb0c2e0d64f98fa7 0x47b5481dbefa4fa4.

Definition SHA224Init (context : SHA2_CTX) : SHA2_CTX :=
  Ctx sha224_initial_hash_value (0, (bitcount context).2) (replicate 128 0).
Definition SHA256Init (context : SHA2_CTX) : SHA2_CTX :=
  Ctx sha256_initial_hash_value (0, (bitcount context).2) (replicate 128 0).
Definition SHA512Init (context : SHA2_CTX) : SHA2_CTX :=
  Ctx sha512_initial_hash_value (0, 0) (replicate 128 0).
Definition SHA384Init (context : SHA2_CTX) : SHA2_CTX :=
  Ctx sha384_initial_hash_value (0, 0) (replicate 128 0).

Section context.
Context (V : variant).
Local Notation BL := (v_BLOCK_LENGTH V).
Local Notation SHORT := (v_SHORT_BLOCK_LENGTH V).

Definition usedspace (bc : Z * Z) : nat :=
  Z.to_nat (Z.shiftr bc.1 3 mod Z.of_nat BL).

(** One iteration of the loop of [Update]. *)
Definition absorb_block (sb : regs * (Z * Z)) (data : list Z) : regs * (Z * Z) :=
  (transform V sb.1 data, v_add V sb.2 (Z.shiftl (Z.of_nat BL) 3)).

Definition update (context : SHA2_CTX) (data : list Z) : res SHA2_CTX :=
  if (length data =? 0)%nat then mret context
  else
    let used := usedspace (bitcount context) in
    let freespace := (BL - used)%nat in
    if (0 <? used)%nat && negb (freespace <=? length data)%nat then
      mret (Ctx (state context)
        (v_add V (bitcount context) (wshl 32 (Z.of_nat (length data)) 3))
        (splice used data (buffer context)))
    else
      let '(state', bc, buffer', data) :=
        if (0 <? used)%nat then
          let buffer' := splice used (take freespace data) (buffer context) in
          (transform V (state context) (take BL buffer'),
           v_add V (bitcount context) (wshl 32 (Z.of_nat freespace) 3),
           buffer', drop freespace data)
        else (state context, bitcount context, buffer context, data) in
      '(sb, data) ← blocks_loop BL absorb_block (S (length data)) (state', bc) data;
      mret (if (0 <? length data)%nat then
              Ctx sb.1 (v_add V sb.2 (wshl 32 (Z.of_nat (length data)) 3)) (splice 0 data buffer')
            else Ctx sb.1 sb.2 buffer').

(** [memset(&buffer[from], 0, n)] *)
Definition clear (from n : nat) (buf : list Z) : list Z := splice from (replicate n 0) buf.

(** [Pad] up to the length field: the 1 bit, the zeros, and the block they
    may complete. *)
Definition pad_bits (context : SHA2_CTX) : regs * list Z :=
  let used := usedspace (bitcount context) in
  if (0 <? used)%nat then
    let buf := <[used := 0x80]> (buffer context) in
    let used := S used in
    if (used <=? SHORT)%nat then (state context, clear used (SHORT - used) buf)
    else
      let buf := if (used <? BL)%nat then clear used (BL - used) buf else buf in
      (transform V (state context) (take BL buf), clear 0 (v_clear V) buf)
  else (state context, <[0%nat := 0x80]> (clear 0 SHORT (buffer context))).

Definition pad (context : SHA2_CTX) : SHA2_CTX :=
  let '(state', buffer') := pad_bits context in
  let buffer' := splice SHORT (v_length V (bitcount context)) buffer' in
  Ctx (transform V state' (take BL buffer')) (bitcount context) buffer'.
End context.

Definition cleared : SHA2_CTX := Ctx (Regs 0 0 0 0 0 0 0 0) (0, 0) (replicate 128 0).

Definition SHA256Transform : regs -> list Z -> regs := transform V256.
Definition SHA256Update : SHA2_CTX -> list Z -> res SHA2_CTX := update V256.
Definition SHA256Pad : SHA2_CTX -> SHA2_CTX := pad V256.
Definition SHA256Final (context : SHA2_CTX) : list Z * SHA2_CTX :=
  let context := SHA256Pad context in
  (concat (BE_32_TO_8 <$> take 8 (list_of (state context))), cleared).

(** [__weak_alias(SHA224Update, SHA256Update)] and so on *)
Definition SHA224Update : SHA2_CTX -> list Z -> res SHA2_CTX := SHA256Update.
Definition SHA224Pad : SHA2_CTX -> SHA2_CTX := SHA256Pad.
Definition SHA224Final (context : SHA2_CTX) : list Z * SHA2_CTX :=
  let context := SHA224Pad context in
  (concat (BE_32_TO_8 <$> take 7 (list_of (state context))), cleared).

Definition SHA512Transform : regs -> list Z -> regs := transform V512.
Definition SHA512Update : SHA2_CTX -> list Z -> res SHA2_CTX := update V512.
Definition SHA512Pad : SHA2_CTX -> SHA2_CTX := pad V512.
Definition SHA512Final (context : SHA2_CTX) : list Z * SHA2_CTX :=
  let context := SHA512Pad context in
  (concat (BE_64_TO_8 <$> take 8 (list_of (state context))), cleared).

Definition SHA384Update : SHA2_CTX -> list Z -> res SHA2_CTX := SHA512Update.
Definition SHA384Pad : SHA2_CTX -> SHA2_CTX := SHA512Pad.
Definition SHA384Final (context : SHA2_CTX) : list Z * SHA2_CTX :=
  let context := SHA384Pad context in
  (concat (BE_64_TO_8 <$> take 6 (list_of (state context))), cleared).

(** ** FIPS 180-4 *)

Module Fips.
(** The parameters of one word size. *)
Record spec : Type := Spec {
  f_w : Z; f_bytes : nat; f_rounds : nat; f_block : nat; f_lenbytes : nat;
  f_Sigma0 : Z -> Z; f_Sigma1 : Z -> Z; f_sigma0 : Z -> Z; f_sigma1 : Z -> Z;
}.

Definition ROTR (w n x : Z) : Z := Z.lor (Z.shiftr x n) (wshl w x (w - n)).
Definition SHR (n x : Z) : Z := Z.shiftr x n.
Definition xor3 (x y z : Z) : Z := Z.lxor (Z.lxor x y) z.

Definition S256 : spec := {|
  f_w := 32; f_bytes := 4; f_rounds := 64; f_block := 64; f_lenbytes := 8;
  f_Sigma0 := fun x => xor3 (ROTR 32 2 x) (ROTR 32 13 x) (ROTR 32 22 x);
  f_Sigma1 := fun x => xor3 (ROTR 32 6 x) (ROTR 32 11 x) (ROTR 32 25 x);
  f_sigma0 := fun x => xor3 (ROTR 32 7 x) (ROTR 32 18 x) (SHR 3 x);
  f_sigma1 := fun x => xor3 (ROTR 32 17 x) (ROTR 32 19 x) (SHR 10 x);
|}.

Definition S512 : spec := {|
  f_w := 64; f_bytes := 8; f_rounds := 80; f_block := 128; f_lenbytes := 16;
  f_Sigma0 := fun x => xor3 (ROTR 64 28 x) (ROTR 64 34 x) (ROTR 64 39 x);
  f_Sigma1 := fun x => xor3 (ROTR 64 14 x) (ROTR 64 18 x) (ROTR 64 41 x);
  f_sigma0 := fun x => xor3 (ROTR 64 1 x) (ROTR 64 8 x) (SHR 7 x);
  f_sigma1 := fun x => xor3 (ROTR 64 19 x) (ROTR 64 61 x) (SHR 6 x);
|}.

(** The first [w] bits of the fractional part of the cube root of the
    [t]-th prime, and of the square root. *)
Definition K (w : Z) (t : nat) : Z :=
  wrap w (cbrt_bits (Z.to_nat w + 4) (primes !!! t * 2 ^ (3 * w)) 0).
Definition sqrt_frac (w : Z) (t : nat) : Z := wrap w (Z.sqrt (primes !!! t * 2 ^ (2 * w))).

Definition H256 : list Z := sqrt_frac 32 <$> seq 0 8.
Definition H512 : list Z := sqrt_frac 64 <$> seq 0 8.
Definition H384 : list Z := sqrt_frac 64 <$> seq 8 8.
Definition H224 : list Z := u32 <$> H384.

Definition regs_of (l : list Z) : regs :=
  Regs (l !!! 0%nat) (l !!! 1%nat) (l !!! 2%nat) (l !!! 3%nat)
       (l !!! 4%nat) (l !!! 5%nat) (l !!! 6%nat) (l !!! 7%nat).

Section spec.
Context (P : spec).
Local Notation w := (f_w P).

Definition Ch (x y z : Z) : Z := Z.lxor (Z.land x y) (Z.land (wnot w x) z).
Definition Maj (x y z : Z) : Z := xor3 (Z.land x y) (Z.land x z) (Z.land y z).

(** [W_t] for [t = n + 16]. *)
Definition next (W : list Z) (n : nat) : Z :=
  wrap w (f_sigma1 P (W !!! (n + 14)%nat) + W !!! (n + 9)%nat
          + f_sigma0 P (W !!! (n + 1)%nat) + W !!! n).

Definition step (W : list Z) (r : regs) (t : nat) : regs :=
  let '(Regs a b c d e f g h) := r in
  let T1 := wrap w (h + f_Sigma1 P e + Ch e f g + K w t + W !!! t) in
  let T2 := wrap w (f_Sigma0 P a + Maj a b c) in
  Regs (wrap w (T1 + T2)) a b c (wrap w (d + T1)) e f g.

Definition compress (s : regs) (block : list Z) : regs :=
  let W := schedule next (words be_word (f_bytes P) 16 block) (f_rounds P - 16) in
  let r := fold_left (step W) (seq 0 (f_rounds P)) s in
  Regs (wrap w (ra s + ra r)) (wrap w (rb s + rb r)) (wrap w (rc s + rc r))
       (wrap w (rd s + rd r)) (wrap w (re s + re r)) (wrap w (rf s + rf r))
       (wrap w (rg s + rg r)) (wrap w (rh s + rh r)).

Definition zeros (n : nat) : nat :=
  ((2 * f_block P - f_lenbytes P - 1 - n mod f_block P) mod f_block P)%nat.

Definition pad (m : list Z) : list Z :=
  m ++ 0x80 :: replicate (zeros (length m)) 0 ++ be_bytes (f_lenbytes P) (8 * Z.of_nat (length m)).

Definition digest (iv : list Z) (n : nat) (m : list Z) : list Z :=
  concat (be_bytes (f_bytes P) <$> take n (list_of (absorb (f_block P) compress (regs_of iv) (pad m)))).
End spec.

Definition sha224 : list Z -> list Z := digest S256 H224 7.
Definition sha256 : list Z -> list Z := digest S256 H256 8.
Definition sha384 : list Z -> list Z := digest S512 H384 6.
Definition sha512 : list Z -> list Z := digest S512 H512 8.
End Fips.

(** ** The unrolled version computes what the loop does *)

(** The variables in the order of the [k]-th call. *)
Definition names_at (k : nat) : names := nth (k mod 8) eight (A, B, C, D, E, F, G, H).

Definition view (k : nat) (r : regs) : regs :=
  let '(a, b, c, d, e, f, g, h) := names_at k in
  Regs (get r a) (get r b) (get r c) (get r d) (get r e) (get r f) (get r g) (get r h).

Lemma view_whole r : view 0 r = r /\ view 8 r = r.
Proof. by destruct r. Qed.

Section unrolled.
Context (V : variant).

Lemma ROUND_view r j x k : (k < 8)%nat ->
  view (S k) (ROUND_with V r j x (names_at k)) = round V (view k r) j x.
Proof.
  intros Hk. destruct r as [a b c d e f g h].
  assert (E : forall y, wrap (v_w V) (temp1 V e f g h (v_K V !!! j) x + y)
    = wrap (v_w V) (temp1 V e f g h (v_K V !!! j) x + wrap (v_w V) y))
    by (intros; by rewrite wrap_add_r).
  do 8 (destruct k as [|k]; [cbn -[Z.add wrap temp1 v_Sigma0 Maj];
    unfold temp2; rewrite wrap_add_r; reflexivity|]). lia.
Qed.

(** The common shape of the two kinds of round: [upd] prepares the buffer,
    [pick] reads the word. *)
Context (upd : list Z -> nat -> list Z) (pick : list Z -> nat -> Z).

Definition loop_body (rW : regs * list Z) (j : nat) : regs * list Z :=
  let '(r, W) := rW in (round V r j (pick (upd W j) j), upd W j).

Definition call (st : regs * list Z * nat) (n : names) : regs * list Z * nat :=
  let '(r, W, j) := st in (ROUND_with V r j (pick (upd W j) j) n, upd W j, S j).

Lemma calls_view n : forall k r W j, (n + k = 8)%nat ->
  exists r', fold_left call (drop k eight) (r, W, j)
    = (r', (fold_left loop_body (seq j n) (view k r, W)).2, (j + n)%nat) /\
    view 8 r' = (fold_left loop_body (seq j n) (view k r, W)).1.
Proof.
  induction n as [|n IH]; intros k r W j Hk.
  - replace k with 8%nat by lia. exists r. cbn [seq fold_left drop eight fst snd].
    by rewrite Nat.add_0_r.
  - assert (drop k eight = names_at k :: drop (S k) eight) as ->.
    { unfold names_at. rewrite Nat.mod_small by lia.
      do 8 (destruct k as [|k]; [reflexivity|]). lia. }
    cbn [fold_left seq call]. 
    destruct (IH (S k) (ROUND_with V r j (pick (upd W j) j) (names_at k)) (upd W j) (S j))
      as (r' & -> & E); [lia|].
    rewrite ROUND_view in E by lia. exists r'.
    rewrite ROUND_view by lia. cbn [loop_body]. rewrite E. split; [|done].
    f_equal. lia.
Qed.

Lemma eight_calls r W j :
  fold_left call eight (r, W, j) = (fold_left loop_body (seq j 8) (r, W), (j + 8)%nat).
Proof.
  destruct (calls_view 8 0 r W j eq_refl) as (r' & E & Ev).
  rewrite drop_0 in E. rewrite E. rewrite (proj1 (view_whole r)) in *.
  rewrite (proj2 (view_whole r')) in Ev. rewrite Ev. by destruct (fold_left _ _ _).
Qed.

Lemma iterations n a : forall r W j,
  fold_left (fun st _ => fold_left call eight st) (seq a n) (r, W, j)
  = (fold_left loop_body (seq j (8 * n)) (r, W), (j + 8 * n)%nat).
Proof.
  revert a; induction n as [|n IH]; intros a r W j.
  - cbn [seq fold_left]. by rewrite Nat.mul_0_r, Nat.add_0_r.
  - cbn [seq fold_left]. rewrite eight_calls.
    destruct (fold_left loop_body (seq j 8) (r, W)) as [r1 W1] eqn:E1. rewrite IH.
    replace (8 * S n)%nat with (8 + 8 * n)%nat by lia.
    rewrite (seq_app 8), fold_left_app, E1. f_equal. lia.
Qed.
End unrolled.

Lemma transform_unrolled_eq V state data : (v_rounds V mod 8 = 0)%nat -> (16 <= v_rounds V)%nat ->
  transform_unrolled V state data = transform V state data.
Proof.
  intros H8 H16. unfold transform_unrolled, transform.
  change (ROUND_0_TO_15 V data) with (call V (load_word V data) (fun W j => W !!! j)).
  change (ROUND V) with (call V (expand V) (fun W j => W !!! and15 j)).
  change (body_0_to_15 V data) with (loop_body V (load_word V data) (fun W j => W !!! j)).
  change (body V) with (loop_body V (expand V) (fun W j => W !!! and15 j)).
  rewrite iterations. change (8 * 2)%nat with 16%nat. change (0 + 16)%nat with 16%nat.
  destruct (fold_left _ (seq 0 16) _) as [r1 W1]. rewrite iterations.
  replace (8 * (v_rounds V / 8 - 2))%nat with (v_rounds V - 16)%nat; [done|].
  pose proof (Nat.div_mod (v_rounds V) 8). lia.
Qed.

(** ** A variant of the code implements a word size of the standard *)

Record implements (V : variant) (P : Fips.spec) (counts : Z * Z -> nat -> Prop) : Prop := {
  im_w : v_w V = Fips.f_w P;
  im_bytes : v_bytes V = Fips.f_bytes P;
  im_rounds : v_rounds V = Fips.f_rounds P;
  im_sixteen : (16 <= v_rounds V)%nat;
  im_block : v_BLOCK_LENGTH V = Fips.f_block P;
  im_words : v_BLOCK_LENGTH V = (16 * v_bytes V)%nat;
  im_short : (v_SHORT_BLOCK_LENGTH V + Fips.f_lenbytes P = v_BLOCK_LENGTH V)%nat;
  im_small : (1 <= v_SHORT_BLOCK_LENGTH V /\ v_BLOCK_LENGTH V <= 128)%nat;
  im_pow : (Z.of_nat (v_BLOCK_LENGTH V) | 2 ^ 61);
  im_clear : (v_SHORT_BLOCK_LENGTH V <= v_clear V <= v_BLOCK_LENGTH V)%nat;
  im_load : forall l, bytes_ok l -> length l = v_bytes V -> v_load V l = be_word l;
  im_K : forall t, (t < v_rounds V)%nat -> v_K V !!! t = Fips.K (Fips.f_w P) t;
  im_Sigma0 : forall x, v_Sigma0 V x = Fips.f_Sigma0 P x;
  im_Sigma1 : forall x, v_Sigma1 V x = Fips.f_Sigma1 P x;
  im_sigma0 : forall x, v_sigma0 V x = Fips.f_sigma0 P x;
  im_sigma1 : forall x, v_sigma1 V x = Fips.f_sigma1 P x;
  im_low : forall bc n, counts bc n -> bc.1 = u64 (8 * Z.of_nat n);
  im_add : forall bc n k, counts bc n -> (0 < k <= 128)%nat ->
    counts (v_add V bc (8 * Z.of_nat k)) (n + k)%nat;
  im_length : forall bc n, counts bc n ->
    v_length V bc = be_bytes (Fips.f_lenbytes P) (8 * Z.of_nat n);
}.

Section correct.
Context (V : variant) (P : Fips.spec) (counts : Z * Z -> nat -> Prop)
        (HI : implements V P counts).
Local Notation BL := (v_BLOCK_LENGTH V).
Local Notation SHORT := (v_SHORT_BLOCK_LENGTH V).

Lemma block_pos : (0 < BL)%nat.
Proof. pose proof (im_small _ _ _ HI). pose proof (im_short _ _ _ HI). lia. Qed.

(** *** The rounds *)

Section rounds.
Context (block : list Z) (Hb : bytes_ok block) (Hl : length block = BL).
Local Notation X := (words be_word (Fips.f_bytes P) 16 block).
Local Notation N := (Fips.f_rounds P - 16)%nat.
Local Notation sched := (schedule (Fips.next P) X N).
Local Notation circ := (circular (Fips.next P) X N).

Lemma next_eq W n : Fips.next P W n
  = wrap (Fips.f_w P) (Fips.f_sigma1 P (W !!! (n + 14)%nat) + W !!! (n + 9)%nat
                       + Fips.f_sigma0 P (W !!! (n + 1)%nat) + W !!! n).
Proof. reflexivity. Qed.

Lemma X_length : length X = 16%nat.
Proof. unfold words. by rewrite length_fmap, length_seq. Qed.

Lemma load_word_ok t W : (t < 16)%nat -> load_word V block W t = <[(t mod 16)%nat := sched !!! t]> W.
Proof.
  intros Ht. unfold load_word. rewrite (Nat.mod_small t) by lia. f_equal.
  rewrite (schedule_prefix _ _ X_length 0 N) by lia. cbn [schedule]. unfold words.
  rewrite list_lookup_total_alt, list_lookup_fmap, lookup_seq_lt by lia. cbn.
  rewrite <-(im_bytes _ _ _ HI).
  apply (im_load _ _ _ HI); [by apply Forall_take, Forall_drop|].
  rewrite length_take, length_drop, Hl, (im_words _ _ _ HI). nia.
Qed.

Lemma expand_ok t W : circ t W -> (16 <= t < v_rounds V)%nat ->
  expand V W t = <[(t mod 16)%nat := sched !!! t]> W.
Proof.
  intros Hc Ht. rewrite (im_rounds _ _ _ HI) in Ht. unfold expand. rewrite !and15_mod. f_equal.
  rewrite (circular_back _ _ X_length _ _ W 15 1 Hc), (circular_back _ _ X_length _ _ W 2 14 Hc),
    (circular_back _ _ X_length _ _ W 7 9 Hc) by lia.
  pose proof (circular_back _ _ X_length _ _ W 16 0 Hc ltac:(lia) ltac:(lia)) as E16.
  rewrite Nat.add_0_r in E16. rewrite E16.
  rewrite (schedule_step _ _ X_length N t), next_eq by lia.
  assert (Hp : forall s, (s < t)%nat -> sched !!! s = schedule (Fips.next P) X (t - 16) !!! s).
  { intros s Hs. replace N with (t - 16 + (N - (t - 16)))%nat by lia.
    apply (schedule_prefix _ _ X_length). lia. }
  rewrite (Hp (t - 15)%nat), (Hp (t - 2)%nat), (Hp (t - 7)%nat), (Hp (t - 16)%nat) by lia.
  replace (t - 2)%nat with (t - 16 + 14)%nat by lia.
  replace (t - 7)%nat with (t - 16 + 9)%nat by lia.
  replace (t - 15)%nat with (t - 16 + 1)%nat by lia.
  rewrite (im_sigma0 _ _ _ HI), (im_sigma1 _ _ _ HI), (im_w _ _ _ HI). f_equal. ring.
Qed.

Lemma round_ok r t : (t < v_rounds V)%nat -> round V r t (sched !!! t) = Fips.step P sched r t.
Proof.
  intros Ht. destruct r as [a b c d e f g h]. unfold round, Fips.step, temp1, temp2.
  rewrite (im_K _ _ _ HI), (im_Sigma0 _ _ _ HI), (im_Sigma1 _ _ _ HI), (im_w _ _ _ HI) by done.
  reflexivity.
Qed.

Lemma loop_ok upd pick n : forall a r W,
  (forall t W, (a <= t < a + n)%nat -> circ t W ->
     upd W t = <[(t mod 16)%nat := sched !!! t]> W /\
     (forall W', W' !!! (t mod 16)%nat = pick W' t)) ->
  (a + n <= v_rounds V)%nat -> circ a W ->
  exists W', fold_left (loop_body V upd pick) (seq a n) (r, W)
    = (fold_left (Fips.step P sched) (seq a n) r, W') /\ circ (a + n) W'.
Proof.
  induction n as [|n IH]; intros a r W Hupd Han Hc; cbn [seq fold_left].
  - exists W. by rewrite Nat.add_0_r.
  - destruct (Hupd a W ltac:(lia) Hc) as [Eu Ep]. cbn [loop_body]. rewrite Eu, <-Ep.
    pose proof Hc as [HlW _]. pose proof (Nat.mod_upper_bound a 16).
    rewrite list_lookup_total_insert_eq, round_ok by lia.
    destruct (IH (S a) (Fips.step P sched r a) (<[(a mod 16)%nat := sched !!! a]> W))
      as (W' & -> & Hc').
    + intros t W1 Ht. apply Hupd. lia.
    + lia.
    + by apply (circular_next _ _ X_length).
    + exists W'. split; [done|]. by rewrite Nat.add_succ_r.
Qed.

Lemma transform_fips s : transform V s block = Fips.compress P s block.
Proof.
  pose proof (im_sixteen _ _ _ HI) as H16. unfold transform, Fips.compress.
  change (body_0_to_15 V block) with (loop_body V (load_word V block) (fun W j => W !!! j)).
  change (body V) with (loop_body V (expand V) (fun W j => W !!! and15 j)).
  destruct (loop_ok (load_word V block) (fun W j => W !!! j) 16 0 s (replicate 16 0))
    as (W1 & -> & Hc1).
  { intros t W Ht _. split; [apply load_word_ok; lia|]. intros W'. by rewrite Nat.mod_small by lia. }
  { lia. }
  { by apply (circular_0 _ _ X_length). }
  destruct (loop_ok (expand V) (fun W j => W !!! and15 j) (v_rounds V - 16) 16
    (fold_left (Fips.step P sched) (seq 0 16) s) W1) as (W2 & -> & _).
  { intros t W Ht Hc. split; [apply expand_ok; [done|lia]|]. intros W'. by rewrite and15_mod. }
  { lia. }
  { done. }
  cbn [fst]. rewrite <-fold_left_app.
  replace (seq 0 16 ++ seq 16 (v_rounds V - 16)) with (seq 0 (Fips.f_rounds P)).
  2:{ rewrite <-(im_rounds _ _ _ HI). replace (v_rounds V) with (16 + (v_rounds V - 16))%nat at 1 by lia.
      apply seq_app. }
  unfold add. by rewrite (im_w _ _ _ HI).
Qed.
End rounds.

(** *** [Update] *)

Context (iv : regs).
Local Notation hold := (holds BL (transform V) iv).

Definition absorbed (c : SHA2_CTX) (m : list Z) : Prop :=
  hold (state c) (buffer c) m /\ length (buffer c) = 128%nat /\
  counts (bitcount c) (length m) /\ bytes_ok m.

Lemma usedspace_ok bc n : counts bc n -> usedspace V bc = (n mod BL)%nat.
Proof.
  intros Hc. unfold usedspace. rewrite (im_low _ _ _ HI _ _ Hc).
  rewrite Z.shiftr_div_pow2 by lia. unfold wrap.
  change (2 ^ 64) with (8 * 2 ^ 61). change (2 ^ 3) with 8.
  rewrite Z.mul_mod_distr_l by lia. rewrite (Z.mul_comm 8), Z.div_mul by lia.
  rewrite <-Znumtheory.Zmod_div_mod;
    [|pose proof block_pos; lia|lia|apply (im_pow _ _ _ HI)].
  by rewrite <-Nat2Z.inj_mod, Nat2Z.id.
Qed.

Lemma count_next bc n k : counts bc n -> (0 < k <= 128)%nat ->
  counts (v_add V bc (wshl 32 (Z.of_nat k) 3)) (n + k) /\
  counts (v_add V bc (Z.shiftl (Z.of_nat k) 3)) (n + k).
Proof.
  intros Hc Hk. unfold wshl. rewrite Z.shiftl_mul_pow2 by lia.
  rewrite wrap_id by (unfold uint; lia). replace (Z.of_nat k * 2 ^ 3) with (8 * Z.of_nat k) by lia.
  split; by apply (im_add _ _ _ HI).
Qed.

Lemma update_loop fuel : forall s bc buf m d, hold s buf m -> (length m mod BL = 0)%nat ->
  counts bc (length m) -> (length d < fuel)%nat ->
  exists s' bc' k d', blocks_loop BL (absorb_block V) fuel (s, bc) d = Ok ((s', bc'), d') /\
    d = k ++ d' /\ (length d' < BL)%nat /\ hold s' buf (m ++ k) /\
    (length (m ++ k) mod BL = 0)%nat /\ counts bc' (length (m ++ k)).
Proof.
  pose proof block_pos as HB. pose proof (im_small _ _ _ HI) as [_ H128].
  induction fuel as [|fuel IH]; intros s bc buf m d Hh Hm Hc Hf; [lia|]. cbn [blocks_loop].
  destruct (BL <=? length d)%nat eqn:E; [apply Nat.leb_le in E|apply Nat.leb_gt in E].
  2:{ exists s, bc, [], d. by rewrite app_nil_r. }
  assert (Hlt : length (take BL d) = BL) by (rewrite length_take; lia).
  destruct (holds_loop BL HB (transform V) iv (S BL) s buf m (take BL d) Hh Hm)
    as (s1 & k1 & d1 & E1 & Ed1 & Hd1 & Hh1 & Hm1); [lia|].
  cbn [blocks_loop] in E1. rewrite Hlt, Nat.leb_refl, take_take, Nat.min_id in E1.
  rewrite drop_ge in E1 by lia. destruct BL as [|BL'] eqn:EB; [lia|]. rewrite <-EB in *.
  assert (blocks_loop BL (transform V) BL (transform V s (take BL d)) []
    = Ok (transform V s (take BL d), [])) as E2.
  { rewrite EB at 2. cbn [blocks_loop]. by rewrite (proj2 (Nat.leb_gt BL _)) by (cbn; lia). }
  rewrite E2 in E1. apply Ok_inj, pair_eq in E1 as [<- <-]. rewrite app_nil_r in Ed1. subst k1.
  destruct (IH (transform V s (take BL d)) (v_add V bc (Z.shiftl (Z.of_nat BL) 3)) buf _
    (drop BL d) Hh1 Hm1) as (s' & bc' & k & d' & E3 & Ed & Hd' & Hh' & Hm' & Hc').
  { rewrite length_app, Hlt. apply (count_next bc (length m) BL Hc). lia. }
  { rewrite length_drop. lia. }
  exists s', bc', (take BL d ++ k), d'. split; [exact E3|]. rewrite app_assoc.
  split; [|done]. by rewrite <-app_assoc, <-Ed, take_drop.
Qed.

Lemma update_ok c m d : absorbed c m -> bytes_ok d ->
  exists c', update V c d = Ok c' /\ absorbed c' (m ++ d).
Proof.
  intros (Hh & Hb & Hc & Hm) Hd. pose proof block_pos as HB.
  pose proof (im_small _ _ _ HI) as [_ H128]. unfold update.
  destruct (length d =? 0)%nat eqn:E0.
  { apply Nat.eqb_eq, length_zero_iff_nil in E0 as ->. exists c. by rewrite app_nil_r. }
  apply Nat.eqb_neq in E0. rewrite (usedspace_ok _ _ Hc). cbv zeta.
  assert (Hmd : bytes_ok (m ++ d)) by by apply Forall_app_2.
  set (used := (length m mod BL)%nat).
  assert (Hu : (used < BL)%nat) by (apply Nat.mod_upper_bound; lia).
  destruct ((0 <? used)%nat && negb (BL - used <=? length d)%nat) eqn:E.
  { apply andb_true_iff in E as [_ E]. apply negb_true_iff, Nat.leb_gt in E.
    eexists. split; [reflexivity|]. split; [|split; [|split; [|done]]]; cbn [state buffer bitcount].
    - apply holds_short; [lia|done|fold used; lia].
    - rewrite splice_length; lia.
    - rewrite length_app. apply count_next; [done|lia]. }
  assert (exists s1 bc1 buf1 m1 d1,
    (if (0 <? used)%nat then
       (transform V (state c) (take BL (splice used (take (BL - used) d) (buffer c))),
        v_add V (bitcount c) (wshl 32 (Z.of_nat (BL - used)) 3),
        splice used (take (BL - used) d) (buffer c), drop (BL - used) d)
     else (state c, bitcount c, buffer c, d)) = (s1, bc1, buf1, d1) /\
    m ++ d = m1 ++ d1 /\ hold s1 buf1 m1 /\ (length m1 mod BL = 0)%nat /\
    counts bc1 (length m1) /\ length buf1 = 128%nat) as (s1 & bc1 & buf1 & m1 & d1 & -> & Emd & Hh1 & Hm1 & Hc1 & Hb1).
  { destruct (0 <? used)%nat eqn:E1.
    - apply andb_false_iff in E as [E|E]; [congruence|].
      apply negb_false_iff, Nat.leb_le in E. apply Nat.ltb_lt in E1.
      assert (Hlt : length (take (BL - used) d) = (BL - used)%nat) by (rewrite length_take; lia).
      destruct (holds_fill BL HB (transform V) iv _ _ (splice used (take (BL - used) d) (buffer c))
        m (take (BL - used) d) Hh) as [Hh1 Hm1]; [fold used; lia|rewrite splice_length; lia|].
      do 4 eexists. exists (drop (BL - used) d). split; [reflexivity|].
      split; [|split; [exact Hh1|split; [exact Hm1|split]]].
      + by rewrite <-app_assoc, take_drop.
      + rewrite length_app, Hlt. apply count_next; [done|lia].
      + rewrite splice_length; lia.
    - apply Nat.ltb_ge in E1. exists (state c), (bitcount c), (buffer c), m, d.
      assert (used = 0%nat) as E2 by lia. done. }
  rewrite Emd in *. clear Emd.
  destruct (update_loop (S (length d1)) s1 bc1 buf1 m1 d1 Hh1 Hm1 Hc1 ltac:(lia))
    as (s' & bc' & k & d' & -> & -> & Hd' & Hh' & Hm' & Hc').
  cbn [mbind res_bind mret res_ret fst snd]. rewrite app_assoc in *.
  destruct d' as [|b d']; cbn [length Nat.ltb Nat.leb].
  - rewrite app_nil_r in *. eexists. split; [reflexivity|]. done.
  - eexists. split; [reflexivity|]. split; [|split; [|split; [|done]]]; cbn [state buffer bitcount].
    + apply holds_tail; [lia|done..].
    + rewrite splice_length; cbn [length] in *; lia.
    + rewrite length_app. apply count_next; [done|cbn [length] in *; lia].
Qed.

(** *** [Pad] *)

Lemma zeros_eq u : (u < BL)%nat -> let z := Fips.zeros P u in
  ((u < SHORT -> z = SHORT - 1 - u) /\ (SHORT <= u -> z = BL - 1 - u + SHORT))%nat.
Proof.
  intros Hu. pose proof (im_short _ _ _ HI) as Hs. pose proof (im_small _ _ _ HI) as [H1 _].
  cbv zeta. unfold Fips.zeros. rewrite <-(im_block _ _ _ HI), (Nat.mod_small u) by done.
  split; intros H.
  - replace (2 * BL - Fips.f_lenbytes P - 1 - u)%nat with (SHORT - 1 - u + 1 * BL)%nat by lia.
    rewrite Nat.Div0.mod_add. apply Nat.mod_small. lia.
  - rewrite Nat.mod_small; lia.
Qed.

Lemma zeros_mod n : Fips.zeros P n = Fips.zeros P (n mod BL)%nat.
Proof. unfold Fips.zeros. rewrite <-(im_block _ _ _ HI). by rewrite Nat.Div0.mod_mod. Qed.

(** What [pad_bits] leaves: a state and the first [SHORT] bytes [l] of the
    last block, such that appending the length and transforming is absorbing
    the rest of the padded message. *)
Definition prepared (s : regs) (r : list Z) (sb : regs * list Z) : Prop :=
  exists l, length sb.2 = 128%nat /\ begins l sb.2 /\ length l = SHORT /\
  forall len, length len = Fips.f_lenbytes P ->
    absorb BL (transform V) s (r ++ 0x80 :: replicate (Fips.zeros P (length r)) 0 ++ len)
    = transform V sb.1 (l ++ len).

Section cases.
Context (r buf : list Z) (s : regs).
Context (Hr : (length r < BL)%nat) (Hbr : begins r buf) (Hb : length buf = 128%nat).
Local Notation u := (length r).

Lemma begins_80 : begins (r ++ [0x80]) (<[u := 0x80]> buf) /\ length (r ++ [0x80]) = S u /\
  length (<[u := 0x80]> buf) = 128%nat.
Proof.
  pose proof (im_small _ _ _ HI) as [_ H128]. rewrite length_app, length_insert. cbn [length].
  split; [|lia]. rewrite insert_splice by lia. apply begins_splice; [done|cbn [length]; lia].
Qed.

Lemma prepared_one : (S u <= SHORT)%nat -> 
  prepared s r (s, clear (S u) (SHORT - S u) (<[u := 0x80]> buf)).
Proof.
  intros Hu. destruct begins_80 as (Hb80 & Hlu & Hl128). destruct (zeros_eq u Hr) as [Hz _].
  pose proof (im_short _ _ _ HI) as Hs. pose proof (im_small _ _ _ HI) as [_ H128].
  exists ((r ++ [0x80]) ++ replicate (SHORT - S u) 0). unfold clear. cbn [fst snd].
  split; [rewrite splice_length; rewrite ?length_replicate; lia|]. split.
  { rewrite <-Hlu at 2. apply begins_splice; [done|]. rewrite length_replicate. lia. }
  split; [rewrite length_app, length_replicate; lia|]. intros len Hlen.
  rewrite (Hz ltac:(lia)), <-(absorb_one BL block_pos (transform V) s).
  - f_equal. rewrite <-!app_assoc. cbn [app]. do 4 f_equal. lia.
  - rewrite !length_app, length_replicate. cbn [length]. lia.
Qed.

Lemma prepared_two : (SHORT < S u)%nat ->
  let buf' := if (S u <? BL)%nat then clear (S u) (BL - S u) (<[u := 0x80]> buf)
              else <[u := 0x80]> buf in
  prepared s r (transform V s (take BL buf'), clear 0 (v_clear V) buf').
Proof.
  intros Hu. destruct begins_80 as (Hb80 & Hlu & Hl128). destruct (zeros_eq u Hr) as [_ Hz].
  pose proof (im_short _ _ _ HI) as Hs. pose proof (im_small _ _ _ HI) as [_ H128].
  pose proof (im_clear _ _ _ HI) as Hcl. cbv zeta.
  match goal with |- prepared _ _ (_, clear 0 _ ?b) => set (buf' := b) end.
  assert (begins ((r ++ [0x80]) ++ replicate (BL - S u) 0) buf' /\ length buf' = 128%nat)
    as [Hbb Hbl].
  { unfold buf'. destruct (S u <? BL)%nat eqn:E2; [apply Nat.ltb_lt in E2|apply Nat.ltb_ge in E2].
    - unfold clear. split; [rewrite <-Hlu at 2; apply begins_splice; [done|]|];
        rewrite ?splice_length; rewrite ?length_replicate; lia.
    - replace (BL - S u)%nat with 0%nat by lia. cbn [replicate]. by rewrite app_nil_r. }
  assert (Hl1 : length ((r ++ [0x80]) ++ replicate (BL - S u) 0) = BL)
    by (rewrite length_app, length_replicate; lia).
  unfold begins in Hbb. rewrite Hl1 in Hbb. rewrite Hbb.
  exists (replicate SHORT 0). unfold clear. cbn [fst snd]. rewrite length_replicate.
  split; [rewrite splice_length; rewrite ?length_replicate; lia|]. split.
  { apply (begins_prefix _ (replicate (v_clear V - SHORT) 0)). rewrite <-replicate_add.
    replace (SHORT + (v_clear V - SHORT))%nat with (v_clear V) by lia.
    apply begins_start. rewrite length_replicate. lia. }
  split; [done|]. intros len Hlen.
  rewrite <-(absorb_one BL block_pos (transform V) _ (_ ++ len)) by (rewrite length_app, length_replicate; lia).
  rewrite <-(absorb_one BL block_pos (transform V) s) by done.
  rewrite <-absorb_app; [|apply block_pos|by rewrite Hl1, Nat.Div0.mod_same].
  f_equal. rewrite (Hz ltac:(lia)), <-!app_assoc. cbn [app]. do 2 f_equal.
  rewrite app_assoc, <-replicate_add. do 2 f_equal. lia.
Qed.

Lemma prepared_zero : u = 0%nat -> prepared s r (s, <[0%nat := 0x80]> (clear 0 SHORT buf)).
Proof.
  intros Hu. destruct (zeros_eq u Hr) as [Hz _]. rewrite Hu in Hz.
  pose proof (im_short _ _ _ HI) as Hs. pose proof (im_small _ _ _ HI) as [H1 H128].
  assert (r = []) as -> by by apply length_zero_iff_nil.
  assert (<[0%nat := 0x80]> (clear 0 SHORT buf)
    = splice 0 (0x80 :: replicate (SHORT - 1) 0) buf) as E.
  { unfold clear, splice. rewrite take_0, !app_nil_l. cbn [length]. rewrite !length_replicate.
    destruct SHORT as [|n]; [lia|]. cbn [replicate app insert list_insert].
    by replace (S n - 1)%nat with n by lia. }
  exists (0x80 :: replicate (SHORT - 1) 0). cbn [fst snd]. rewrite E. cbn [length].
  rewrite length_replicate.
  split; [rewrite splice_length; cbn [length]; rewrite ?length_replicate; lia|].
  split; [apply begins_start; cbn [length]; rewrite length_replicate; lia|].
  split; [lia|]. intros len Hlen.
  rewrite (Hz ltac:(lia)), <-(absorb_one BL block_pos (transform V) s).
  - cbn [app]. do 4 f_equal. lia.
  - rewrite length_app. cbn [length]. rewrite length_replicate. lia.
Qed.
End cases.

Lemma pad_ok c m : absorbed c m ->
  state (pad V c) = absorb BL (transform V) iv (Fips.pad P m).
Proof.
  intros ((Hst & _ & Hr) & Hb & Hc & Hm).
  destruct (rest_split BL block_pos m) as (k & Em & Hk & Hlr).
  set (r := rest BL m) in *.
  assert (Hu : (length r < BL)%nat) by (rewrite Hlr; apply Nat.mod_upper_bound; pose proof block_pos; lia).
  set (len := be_bytes (Fips.f_lenbytes P) (8 * Z.of_nat (length m))).
  assert (Hlen : length len = Fips.f_lenbytes P) by apply length_be_bytes.
  assert (Hsk : absorb BL (transform V) iv k = state c).
  { rewrite Hst, Em, absorb_app by (done || apply block_pos).
    by rewrite (absorb_short _ _ _ r) by (done || apply block_pos). }
  assert (absorb BL (transform V) iv (Fips.pad P m) = absorb BL (transform V) (state c)
    (r ++ 0x80 :: replicate (Fips.zeros P (length r)) 0 ++ len)) as ->.
  { unfold Fips.pad. fold len. rewrite zeros_mod, <-Hlr. rewrite Em at 1.
    rewrite <-app_assoc, absorb_app by (done || apply block_pos). by rewrite Hsk. }
  assert (Hbr : begins r (buffer c)) by (unfold begins; by rewrite Hlr).
  assert (prepared (state c) r (pad_bits V c)) as (l & H128 & Hbl & Hl & Hlast).
  2: rewrite (Hlast len Hlen); clear Hlast.
  - unfold pad_bits. rewrite (usedspace_ok _ _ Hc), <-Hlr. cbv zeta.
    destruct (0 <? length r)%nat eqn:E0; [|apply Nat.ltb_ge in E0; apply prepared_zero; (done || lia)].
    destruct (S (length r) <=? SHORT)%nat eqn:E1; [apply Nat.leb_le in E1|apply Nat.leb_gt in E1].
    + by apply prepared_one.
    + by apply prepared_two.
  - unfold pad. rewrite (im_length _ _ _ HI _ _ Hc). fold len.
    destruct (pad_bits V c) as [s' buf']. cbn [fst snd state] in *. f_equal.
    pose proof (im_short _ _ _ HI) as Hs. pose proof (im_small _ _ _ HI) as [_ HB].
    pose proof (begins_splice l len buf' Hbl ltac:(lia)) as Hbg.
    unfold begins in Hbg. rewrite length_app, Hl, Hlen, Hs in Hbg. exact Hbg.
Qed.

Lemma pad_fips c m : absorbed c m ->
  state (pad V c) = absorb (Fips.f_block P) (Fips.compress P) iv (Fips.pad P m).
Proof.
  intros Hc. rewrite (pad_ok c m Hc), (im_block _ _ _ HI) at 1.
  apply absorb_ext.
  - rewrite <-(im_block _ _ _ HI). apply block_pos.
  - intros s b Hl Hb. apply transform_fips; [done|]. by rewrite (im_block _ _ _ HI).
  - destruct Hc as (_ & _ & _ & Hm). unfold Fips.pad. apply Forall_app_2; [done|].
    constructor; [done|]. apply Forall_app_2; [|apply be_bytes_ok].
    apply Forall_replicate. done.
Qed.
End correct.

(** ** The two word sizes *)

Lemma BE_8_TO_32_be l : bytes_ok l -> length l = 4%nat -> BE_8_TO_32 l = be_word l.
Proof.
  intros Hl Hn. destruct l as [|a [|b [|c [|d [|]]]]]; try discriminate Hn. clear Hn.
  repeat (apply Forall_cons in Hl as [? Hl]). clear Hl. unfold byte_ok, uint in *.
  unfold BE_8_TO_32. cbn [lookup_total list_lookup_total]. unfold wshl.
  rewrite !Z.shiftl_mul_pow2 by lia. rewrite !wrap_id by (unfold uint; lia).
  rewrite (lor_add_shift d) by (unfold uint; lia).
  rewrite (lor_add_shift (d + _)) by (unfold uint; lia).
  rewrite (lor_add_shift (d + _ + _)) by (unfold uint; lia).
  change (be_word [a; b; c; d]) with (le_word [d; c; b; a]). cbn [le_word]. lia.
Qed.

Lemma BE_8_TO_64_be l : bytes_ok l -> length l = 8%nat -> BE_8_TO_64 l = be_word l.
Proof.
  intros Hl Hn. do 8 (destruct l as [|? l]; [discriminate Hn|]). destruct l; [|discriminate Hn].
  clear Hn. repeat (apply Forall_cons in Hl as [? Hl]). clear Hl. unfold byte_ok, uint in *.
  unfold BE_8_TO_64. cbn [lookup_total list_lookup_total]. unfold wshl.
  rewrite !Z.shiftl_mul_pow2 by lia. rewrite !wrap_id by (unfold uint; lia).
  repeat match goal with |- context [Z.lor ?x (?y * 2 ^ ?n)] =>
    lazymatch x with context [Z.lor] => fail | _ => idtac end;
    rewrite (lor_add_shift x y n) by (unfold uint; lia) end.
  match goal with |- _ = be_word [?a; ?b; ?c; ?d; ?e; ?f; ?g; ?h] =>
    change (be_word [a; b; c; d; e; f; g; h]) with (le_word [h; g; f; e; d; c; b; a]) end.
  cbn [le_word]. lia.
Qed.

Lemma BE_32_TO_8_be x : BE_32_TO_8 x = be_bytes 4 x.
Proof.
  unfold be_bytes. cbn [le_bytes]. rewrite !Z.shiftr_shiftr by lia.
  unfold BE_32_TO_8. cbn [fmap list_fmap]. by rewrite Z.shiftr_0_r.
Qed.

Lemma BE_64_TO_8_be x : BE_64_TO_8 x = be_bytes 8 x.
Proof.
  unfold be_bytes. cbn [le_bytes]. rewrite !Z.shiftr_shiftr by lia.
  unfold BE_64_TO_8. cbn [fmap list_fmap]. by rewrite Z.shiftr_0_r.
Qed.

Lemma table_lookup (l : list Z) (f : nat -> Z) n t : l = f <$> seq 0 n -> (t < n)%nat -> l !!! t = f t.
Proof.
  intros -> Ht. rewrite list_lookup_total_alt, list_lookup_fmap, lookup_seq_lt by lia. done.
Qed.

Lemma K256_roots : K256 = Fips.K 32 <$> seq 0 64.
Proof. vm_compute. reflexivity. Qed.

Lemma K512_roots : K512 = Fips.K 64 <$> seq 0 80.
Proof. vm_compute. reflexivity. Qed.

Definition counts256 (bc : Z * Z) (n : nat) : Prop := bc.1 = u64 (8 * Z.of_nat n).
Definition counts512 (bc : Z * Z) (n : nat) : Prop :=
  bc.1 = u64 (8 * Z.of_nat n) /\ bc.2 = u64 (8 * Z.of_nat n / 2 ^ 64).

Lemma ADDINC128_counts bc n k : counts512 bc n -> (0 < k <= 128)%nat ->
  counts512 (ADDINC128 bc (8 * Z.of_nat k)) (n + k).
Proof.
  intros [H1 H2] Hk. unfold counts512, ADDINC128. cbn [fst snd]. rewrite H1, H2, Nat2Z.inj_add.
  set (a := 8 * Z.of_nat n) in *. replace (8 * (Z.of_nat n + Z.of_nat k)) with (a + 8 * Z.of_nat k) by lia.
  rewrite wrap_add_l. split; [done|].
  assert (Hq : (a + 8 * Z.of_nat k) / 2 ^ 64
    = a / 2 ^ 64 + (if u64 (a + 8 * Z.of_nat k) <? 8 * Z.of_nat k then 1 else 0)).
  { unfold wrap. destruct (_ <? _) eqn:E; zbool; Z.div_mod_to_equations; lia. }
  rewrite Hq. destruct (_ <? _); [by rewrite wrap_add_l|by rewrite Z.add_0_r].
Qed.

Lemma implements_256 : implements V256 Fips.S256 counts256.
Proof.
  constructor; try done; try (cbn; lia).
  - by exists (2 ^ 55).
  - apply BE_8_TO_32_be.
  - intros t Ht. by apply (table_lookup _ _ 64 t K256_roots).
  - intros bc n k Hc Hk. unfold counts256 in *. cbn [V256 v_add fst]. rewrite Hc, wrap_add_l.
    f_equal. lia.
  - intros bc n Hc. cbn [V256 v_length]. rewrite Hc, BE_64_TO_8_be. apply (be_bytes_wrap 8 64). lia.
Qed.

Lemma implements_512 : implements V512 Fips.S512 counts512.
Proof.
  constructor; try done; try (cbn; lia).
  - by exists (2 ^ 54).
  - apply BE_8_TO_64_be.
  - intros t Ht. by apply (table_lookup _ _ 80 t K512_roots).
  - by intros bc n [Hc _].
  - apply ADDINC128_counts.
  - intros bc n [H1 H2]. cbn [V512 v_length Fips.S512 Fips.f_lenbytes].
    rewrite H1, H2, (BE_64_TO_8_be (u64 (8 * Z.of_nat n))), BE_64_TO_8_be.
    rewrite (be_bytes_wrap 8 64 (8 * Z.of_nat n)), be_bytes_wrap by lia.
    rewrite (be_bytes_app 8 8), Z.shiftr_div_pow2 by lia. done.
Qed.

(** ** The four digests *)

Lemma counts_0 bc : counts256 (0, bc) 0 /\ counts512 (0, 0) 0.
Proof. done. Qed.

Lemma absorbed_init V P counts (HI : implements V P counts) iv bc :
  counts bc 0%nat -> absorbed V counts iv (Ctx iv bc (replicate 128 0)) [].
Proof.
  intros Hc. pose proof (im_small _ _ _ HI). split; [|split; [done|split; [done|by constructor]]].
  apply holds_nil; [by apply (block_pos _ _ _ HI)|].
  cbn [buffer]. rewrite length_replicate. lia.
Qed.

Lemma final_bytes V P counts (HI : implements V P counts) iv (out : Z -> list Z) n c m :
  (forall x, out x = be_bytes (Fips.f_bytes P) x) -> absorbed V counts iv c m ->
  concat (out <$> take n (list_of (state (pad V c))))
  = concat (be_bytes (Fips.f_bytes P)
      <$> take n (list_of (absorb (Fips.f_block P) (Fips.compress P) iv (Fips.pad P m)))).
Proof.
  intros Ho Hc. rewrite (pad_fips _ _ _ HI iv c m Hc). f_equal. by apply list_fmap_ext.
Qed.

(** The initial values are square roots of primes. *)
Lemma iv_roots :
  sha224_initial_hash_value = Fips.regs_of Fips.H224 /\
  sha256_initial_hash_value = Fips.regs_of Fips.H256 /\
  sha384_initial_hash_value = Fips.regs_of Fips.H384 /\
  sha512_initial_hash_value = Fips.regs_of Fips.H512.
Proof. split_and!; vm_compute; reflexivity. Qed.

Definition context_wf (c : SHA2_CTX) : Prop := length (buffer c) = 128%nat.

Program Definition sha256_digest : Digest SHA2_CTX := {|
  dg_wf := context_wf; dg_init := SHA256Init; dg_update := SHA256Update;
  dg_final c := mret (SHA256Final c).1; dg_max := 2 ^ 32; dg_reference := Fips.sha256;
  dg_absorbed := absorbed V256 counts256 sha256_initial_hash_value;
|}.
Next Obligation. intros c _. by apply (absorbed_init _ _ _ implements_256). Qed.
Next Obligation. intros c m d Hc Hd _. by apply (update_ok _ _ _ implements_256). Qed.
Next Obligation.
  intros c m Hc. cbv beta. apply f_equal. unfold SHA256Final, SHA256Pad, Fips.sha256, Fips.digest.
  cbn [fst]. rewrite <-(proj1 (proj2 iv_roots)).
  by apply (final_bytes _ _ _ implements_256 _ _ _ _ _ BE_32_TO_8_be).
Qed.

Program Definition sha224_digest : Digest SHA2_CTX := {|
  dg_wf := context_wf; dg_init := SHA224Init; dg_update := SHA224Update;
  dg_final c := mret (SHA224Final c).1; dg_max := 2 ^ 32; dg_reference := Fips.sha224;
  dg_absorbed := absorbed V256 counts256 sha224_initial_hash_value;
|}.
Next Obligation. intros c _. by apply (absorbed_init _ _ _ implements_256). Qed.
Next Obligation. intros c m d Hc Hd _. by apply (update_ok _ _ _ implements_256). Qed.
Next Obligation.
  intros c m Hc. cbv beta. apply f_equal. unfold SHA224Final, SHA224Pad, SHA256Pad, Fips.sha224, Fips.digest.
  cbn [fst]. rewrite <-(proj1 iv_roots).
  by apply (final_bytes _ _ _ implements_256 _ _ _ _ _ BE_32_TO_8_be).
Qed.

Program Definition sha512_digest : Digest SHA2_CTX := {|
  dg_wf := context_wf; dg_init := SHA512Init; dg_update := SHA512Update;
  dg_final c := mret (SHA512Final c).1; dg_max := 2 ^ 32; dg_reference := Fips.sha512;
  dg_absorbed := absorbed V512 counts512 sha512_initial_hash_value;
|}.
Next Obligation. intros c _. by apply (absorbed_init _ _ _ implements_512). Qed.
Next Obligation. intros c m d Hc Hd _. by apply (update_ok _ _ _ implements_512). Qed.
Next Obligation.
  intros c m Hc. cbv beta. apply f_equal. unfold SHA512Final, SHA512Pad, Fips.sha512, Fips.digest.
  cbn [fst]. rewrite <-(proj2 (proj2 (proj2 iv_roots))).
  by apply (final_bytes _ _ _ implements_512 _ _ _ _ _ BE_64_TO_8_be).
Qed.

Program Definition sha384_digest : Digest SHA2_CTX := {|
  dg_wf := context_wf; dg_init := SHA384Init; dg_update := SHA384Update;
  dg_final c := mret (SHA384Final c).1; dg_max := 2 ^ 32; dg_reference := Fips.sha384;
  dg_absorbed := absorbed V512 counts512 sha384_initial_hash_value;
|}.
Next Obligation. intros c _. by apply (absorbed_init _ _ _ implements_512). Qed.
Next Obligation. intros c m d Hc Hd _. by apply (update_ok _ _ _ implements_512). Qed.
Next Obligation.
  intros c m Hc. cbv beta. apply f_equal. unfold SHA384Final, SHA384Pad, SHA512Pad, Fips.sha384, Fips.digest.
  cbn [fst]. rewrite <-(proj1 (proj2 (proj2 iv_roots))).
  by apply (final_bytes _ _ _ implements_512 _ _ _ _ _ BE_64_TO_8_be).
Qed.

(** SHA-224, SHA-256, SHA-384 and SHA-512.  Whatever the pieces a message
    is passed in, [Init], [Update] on each piece and [Final] return the FIPS
    180-4 digest of the whole message; no call runs out of fuel.  The reference
    computes its round constants and initial values from the primes, so the
    tables of the source are covered.  The loops unrolled eight times
    (SHA2_UNROLL_TRANSFORM), which rename the eight variables instead of moving
    them, compute the same state as the plain loops, for every state and block. *)
Lemma SHA2_all (c : SHA2_CTX) (ds : list (list Z)) (state : regs) (data : list Z) :
  length (buffer c) = 128%nat ->
  Forall (fun d => bytes_ok d /\ Z.of_nat (length d) < 2 ^ 32) ds ->
  (@run_digest _ sha224_digest c ds = Ok (Fips.sha224 (concat ds)) /\
   @run_digest _ sha256_digest c ds = Ok (Fips.sha256 (concat ds)) /\
   @run_digest _ sha384_digest c ds = Ok (Fips.sha384 (concat ds)) /\
   @run_digest _ sha512_digest c ds = Ok (Fips.sha512 (concat ds))) /\
  transform_unrolled V256 state data = SHA256Transform state data /\
  transform_unrolled V512 state data = SHA512Transform state data.
Proof.
  intros Hc Hds. split.
  - split_and!;
    [exact (@run_digest_ok _ sha224_digest c ds Hc Hds)|exact (@run_digest_ok _ sha256_digest c ds Hc Hds)|
     exact (@run_digest_ok _ sha384_digest c ds Hc Hds)|exact (@run_digest_ok _ sha512_digest c ds Hc Hds)].
  - split; (apply transform_unrolled_eq; [reflexivity|cbn [v_rounds V256 V512]; lia]).
Qed.

Definition abc_256 : list Z :=
  [186; 120; 22; 191; 143; 1; 207; 234; 65; 65; 64; 222; 93; 174; 34; 35; 176; 3; 97; 163; 150;
   23; 122; 156; 180; 16; 255; 97; 242; 0; 21; 173].

Definition abc_384 : list Z :=
  [203; 0; 117; 63; 69; 163; 94; 139; 181; 160; 61; 105; 154; 198; 80; 7; 39; 44; 50; 171; 14;
   222; 209; 99; 26; 139; 96; 90; 67; 255; 91; 237; 128; 134; 7; 43; 161; 231; 204; 35; 88; 186;
   236; 161; 52; 200; 37; 167].
