(* ===== verification/Digests.v ===== *)
(** * The message digests

    MD5, SHA-1, RIPEMD-160 and the SHA-2 family keep one contract, the class
    [Digest] of Hash.v: a message may be passed in pieces.  This file states it
    for all of them; their files (Md5.v, Sha1.v, Rmd160.v, Sha2.v) hold the
    definitions, the reference digests and the instances. *)

From S2P Require Import Prelude Words Hash Md5 Sha1 Rmd160 Sha2.
From Stdlib Require Import ZArith Lia.
From stdpp Require Import prelude list.

Open Scope Z_scope.

(** What the pieces of a message have to satisfy. *)
Definition pieces (bits : Z) (ds : list (list Z)) : Prop :=
  Forall (fun d => bytes_ok d /\ Z.of_nat (length d) < 2 ^ bits) ds.

Lemma pieces_weaken b b' ds : 0 <= b <= b' -> pieces b ds -> pieces b' ds.
Proof.
  intros Hb H. refine (Forall_impl _ _ _ H _). intros d [H1 H2]. split; [done|].
  pose proof (Z.pow_le_mono_r 2 b b'). lia.
Qed.

(** C15: The message digests.  Whatever the pieces a message is passed in
    and whatever the context held, [Init], [Update] on each piece and [Final]
    return the RFC 1321 digest, the FIPS 180-4 digest of each SHA or the
    reference RIPEMD-160 digest of the whole message; no call runs out of fuel.
    SHA-1 and RIPEMD-160 count bits in 32 bits per call, so a piece has to be
    shorter than 512 MiB there; the lengths of the messages are not bounded.  The
    reference of SHA-2 computes its round constants and initial values from the
    primes, so the tables of the source are covered; its loops unrolled eight
    times (SHA2_UNROLL_TRANSFORM), which rename the eight variables instead of
    moving them, compute the same state as the plain loops, for every state and
    block. *)
Theorem digests_correct (m : Md5.MD5_CTX) (s : Sha1.SHA1_CTX) (r : Rmd160.RMD160_CTX)
    (c : Sha2.SHA2_CTX) ds (state : Sha2.regs) (data : list Z) :
  length (Md5.buffer m) = 64%nat -> length (Sha1.buffer s) = 64%nat ->
  length (Rmd160.buffer r) = 64%nat -> length (Sha2.buffer c) = 128%nat ->
  (pieces 32 ds ->
    run_digest m ds = Ok (Rfc.md5 (concat ds)) /\
    @run_digest _ sha224_digest c ds = Ok (Sha2.Fips.sha224 (concat ds)) /\
    @run_digest _ sha256_digest c ds = Ok (Sha2.Fips.sha256 (concat ds)) /\
    @run_digest _ sha384_digest c ds = Ok (Sha2.Fips.sha384 (concat ds)) /\
    @run_digest _ sha512_digest c ds = Ok (Sha2.Fips.sha512 (concat ds))) /\
  (pieces 29 ds ->
    run_digest s ds = Ok (Sha1.Fips.sha1 (concat ds)) /\
    run_digest r ds = Ok (Ref.rmd160 (concat ds))) /\
  transform_unrolled V256 state data = SHA256Transform state data /\
  transform_unrolled V512 state data = SHA512Transform state data.
Proof.
  intros Hm Hs Hr Hc. split; [|split].
  - intros H. split; [by apply MD5_correct|]. apply (SHA2_all c ds state data Hc H).
  - intros H. split; [by apply SHA1_correct|by apply RMD160_correct].
  - apply (SHA2_all c [] state data Hc). constructor.
Qed.

(** The published test vectors for "abc", passed as "a" and "bc". *)
Lemma digests_correct_witness :
  run_digest (Md5.Ctx (Md5.Regs 0 0 0 0) 0 (replicate 64 0)) [[97]; [98; 99]]
  = Ok [144; 1; 80; 152; 60; 210; 79; 176; 214; 150; 63; 125; 40; 225; 127; 114] /\
  run_digest (Sha1.Ctx (Five.Regs 0 0 0 0 0) 0 (replicate 64 0)) [[97]; [98; 99]]
  = Ok [169; 153; 62; 54; 71; 6; 129; 106; 186; 62; 37; 113; 120; 80; 194; 108; 156; 208; 216; 157] /\
  run_digest (Rmd160.Ctx (Five.Regs 0 0 0 0 0) 0 (replicate 64 0)) [[97]; [98; 99]]
  = Ok [142; 178; 8; 247; 224; 93; 152; 122; 155; 4; 74; 142; 152; 198; 176; 135; 241; 90; 11; 252] /\
  @run_digest _ sha256_digest cleared [[97]; [98; 99]] = Ok abc_256 /\
  @run_digest _ sha384_digest cleared [[97]; [98; 99]] = Ok abc_384.
Proof.
  assert (E1 : Sha2.Fips.sha256 (concat [[97]; [98; 99]]) = abc_256) by (vm_compute; reflexivity).
  assert (E2 : Sha2.Fips.sha384 (concat [[97]; [98; 99]]) = abc_384) by (vm_compute; reflexivity).
  assert (H : pieces 29 [[97]; [98; 99]]) by (repeat constructor; vm_compute; congruence).
  destruct (digests_correct (Md5.Ctx (Md5.Regs 0 0 0 0) 0 (replicate 64 0))
    (Sha1.Ctx (Five.Regs 0 0 0 0 0) 0 (replicate 64 0))
    (Rmd160.Ctx (Five.Regs 0 0 0 0 0) 0 (replicate 64 0)) cleared [[97]; [98; 99]]
    sha256_initial_hash_value []) as (H1 & H2 & _); [done..|].
  destruct (H2 H) as [H3 H4].
  destruct (H1 (pieces_weaken 29 32 _ ltac:(lia) H)) as (H5 & _ & H6 & H7 & _).
  rewrite H5, H3, H4, H6, H7, E1, E2. split_and!; vm_compute; reflexivity.
Defined.
