(* ===== verification/Quad.v ===== *)
(** * 64-bit arithmetic on a 32-bit machine (src/CLibrary/quad)

    The compiler turns operations on [quad_t] into calls of these routines.  A
    quad is a word of width 64 ([s64] reads it as a signed number); [union uu]
    views it as a high and a low 32-bit word.  Every routine is proved to
    compute the operation of the mathematical integers modulo 2^64.  Shift
    counts of the C operators stay below the width for the inputs the theorems
    are about; overflow of the signed negations of [__muldi3] wraps. *)

From S2P Require Import Prelude Words.
From Stdlib Require Import ZArith Lia.
From stdpp Require Import prelude gmap list.

Open Scope Z_scope.

Definition INT_BITS : Z := 32.
Definition HALF_BITS : Z := 16.

(** [union uu]: [ul[H]] and [ul[L]]; [sl[H]] is [s32] of the same word. *)
Record uu : Type := Uu { ul_H : Z; ul_L : Z }.

(** Writing [q] (or [uq]) and reading it back. *)
Definition uu_of (q : Z) : uu := Uu (u32 (Z.shiftr q 32)) (u32 q).
Definition quad_of (x : uu) : Z := ul_H x * 2 ^ 32 + ul_L x.

Definition uu_ok (x : uu) : Prop := uint 32 (ul_H x) /\ uint 32 (ul_L x).

Definition HHALF (x : Z) : Z := Z.shiftr x HALF_BITS.
Definition LHALF (x : Z) : Z := Z.land x (2 ^ HALF_BITS - 1).
Definition LHUP (x : Z) : Z := wshl 32 x HALF_BITS.

(** ** Addition, subtraction, negation *)

Definition adddi3 (a b : Z) : Z :=
  let aa := uu_of a in
  let bb := uu_of b in
  let sum_L := u32 (ul_L aa + ul_L bb) in
  let sum_H := u32 (ul_H aa + ul_H bb + Z.b2z (sum_L <? ul_L bb)) in
  quad_of (Uu sum_H sum_L).

Definition subdi3 (a b : Z) : Z :=
  let aa := uu_of a in
  let bb := uu_of b in
  let diff_L := u32 (ul_L aa - ul_L bb) in
  let diff_H := u32 (ul_H aa - ul_H bb - Z.b2z (ul_L aa <? diff_L)) in
  quad_of (Uu diff_H diff_L).

Definition negdi2 (a : Z) : Z :=
  let aa := uu_of a in
  let res_L := u32 (- ul_L aa) in
  let res_H := u32 (- ul_H aa - Z.b2z (0 <? res_L)) in
  quad_of (Uu res_H res_L).

(** ** Bitwise operations *)

Definition anddi3 (a b : Z) : Z :=
  let aa := uu_of a in
  let bb := uu_of b in
  quad_of (Uu (Z.land (ul_H aa) (ul_H bb)) (Z.land (ul_L aa) (ul_L bb))).

Definition iordi3 (a b : Z) : Z :=
  let aa := uu_of a in
  let bb := uu_of b in
  quad_of (Uu (Z.lor (ul_H aa) (ul_H bb)) (Z.lor (ul_L aa) (ul_L bb))).

Definition xordi3 (a b : Z) : Z :=
  let aa := uu_of a in
  let bb := uu_of b in
  quad_of (Uu (Z.lxor (ul_H aa) (ul_H bb)) (Z.lxor (ul_L aa) (ul_L bb))).

Definition one_cmpldi2 (a : Z) : Z :=
  let aa := uu_of a in
  quad_of (Uu (wnot 32 (ul_H aa)) (wnot 32 (ul_L aa))).

(** ** Shifts *)

Definition ashldi3 (a shift : Z) : Z :=
  if shift =? 0 then a else
  let aa := uu_of a in
  if INT_BITS <=? shift
  then quad_of (Uu (wshl 32 (ul_L aa) (shift - INT_BITS)) 0)
  else quad_of (Uu (Z.lor (wshl 32 (ul_H aa) shift) (Z.shiftr (ul_L aa) (INT_BITS - shift)))
                   (wshl 32 (ul_L aa) shift)).

Definition lshldi3 (a shift : Z) : Z :=
  if shift =? 0 then a else
  let aa := uu_of a in
  if INT_BITS <=? shift
  then quad_of (Uu (wshl 32 (ul_L aa) (shift - INT_BITS)) 0)
  else quad_of (Uu (Z.lor (wshl 32 (ul_H aa) shift) (Z.shiftr (ul_L aa) (INT_BITS - shift)))
                   (wshl 32 (ul_L aa) shift)).

Definition lshrdi3 (a shift : Z) : Z :=
  if shift =? 0 then a else
  let aa := uu_of a in
  if INT_BITS <=? shift
  then quad_of (Uu 0 (Z.shiftr (ul_H aa) (shift - INT_BITS)))
  else quad_of (Uu (Z.shiftr (ul_H aa) shift)
                   (Z.lor (Z.shiftr (ul_L aa) shift) (wshl 32 (ul_H aa) (INT_BITS - shift)))).

Definition ashrdi3 (a shift : Z) : Z :=
  if shift =? 0 then a else
  let aa := uu_of a in
  if INT_BITS <=? shift
  then
    let s := Z.shiftr (Z.shiftr (s32 (ul_H aa)) (INT_BITS - 1)) 1 in
    quad_of (Uu (u32 s) (u32 (Z.shiftr (s32 (ul_H aa)) (shift - INT_BITS))))
  else quad_of (Uu (u32 (Z.shiftr (s32 (ul_H aa)) shift))
                   (Z.lor (Z.shiftr (ul_L aa) shift) (wshl 32 (ul_H aa) (INT_BITS - shift)))).

(** ** Comparison: 0, 1, 2 for less, equal, greater *)

Definition cmpdi2 (a b : Z) : Z :=
  let aa := uu_of a in
  let bb := uu_of b in
  if s32 (ul_H aa) <? s32 (ul_H bb) then 0
  else if s32 (ul_H bb) <? s32 (ul_H aa) then 2
  else if ul_L aa <? ul_L bb then 0
  else if ul_L bb <? ul_L aa then 2
  else 1.

Definition ucmpdi2 (a b : Z) : Z :=
  let aa := uu_of a in
  let bb := uu_of b in
  if ul_H aa <? ul_H bb then 0
  else if ul_H bb <? ul_H aa then 2
  else if ul_L aa <? ul_L bb then 0
  else if ul_L bb <? ul_L aa then 2
  else 1.

(** ** Multiplication *)

(** [__lmulq]: two 32-bit words to a quad, through 16-bit halves. *)
Definition lmulq (u v : Z) : Z :=
  let u1 := HHALF u in
  let u0 := LHALF u in
  let v1 := HHALF v in
  let v0 := LHALF v in
  let low := u32 (u0 * v0) in
  if (u1 =? 0) && (v1 =? 0) then low else
  let '(udiff, neg) := if u0 <=? u1 then (u32 (u1 - u0), false) else (u32 (u0 - u1), true) in
  let '(vdiff, neg) := if v1 <=? v0 then (u32 (v0 - v1), neg) else (u32 (v1 - v0), negb neg) in
  let mid := u32 (udiff * vdiff) in
  let high := u32 (u1 * v1) in
  let prodh := u32 (high + HHALF high) in
  let prodl := LHUP high in
  let was := prodl in
  let '(prodl, prodh) :=
    if neg : bool then
      let prodl := u32 (prodl - LHUP mid) in
      (prodl, u32 (prodh - (HHALF mid + Z.b2z (was <? prodl))))
    else
      let prodl := u32 (prodl + LHUP mid) in
      (prodl, u32 (prodh + (HHALF mid + Z.b2z (prodl <? was)))) in
  let was := prodl in
  let prodl := u32 (prodl + LHUP low) in
  let prodh := u32 (prodh + (HHALF low + Z.b2z (prodl <? was))) in
  let prodl := u32 (prodl + low) in
  let prodh := if prodl <? low then u32 (prodh + 1) else prodh in
  quad_of (Uu prodh prodl).

Definition muldi3 (a b : Z) : Z :=
  let '(u, negall) := if 0 <=? s64 a then (uu_of a, false) else (uu_of (u64 (- a)), true) in
  let '(v, negall) :=
    if 0 <=? s64 b then (uu_of b, negall) else (uu_of (u64 (- b)), negb negall) in
  let u1 := ul_H u in
  let u0 := ul_L u in
  let v1 := ul_H v in
  let v0 := ul_L v in
  let prod :=
    if (u1 =? 0) && (v1 =? 0) then lmulq u0 v0
    else
      let low := uu_of (lmulq u0 v0) in
      let '(negmid, udiff) :=
        if u0 <=? u1 then (false, u32 (u1 - u0)) else (true, u32 (u0 - u1)) in
      let '(vdiff, negmid) :=
        if v1 <=? v0 then (u32 (v0 - v1), negmid) else (u32 (v1 - v0), negb negmid) in
      let mid := u32 (udiff * vdiff) in
      let high := u32 (u1 * v1) in
      quad_of (Uu (u32 (high + (if negmid : bool then u32 (- mid) else mid) + ul_L low + ul_H low))
                  (ul_L low)) in
  if negall : bool then u64 (- prod) else prod.

(** ** Splitting a quad *)

Lemma quad_uu h l : uint 32 h -> uint 32 l ->
  uu_of (quad_of (Uu h l)) = Uu h l /\ uint 64 (quad_of (Uu h l)).
Proof.
  unfold uint, uu_of, quad_of. cbn [ul_H ul_L]. intros Hh Hl.
  rewrite Z.shiftr_div_pow2 by lia. unfold wrap. split; [f_equal|lia].
  - rewrite Z.add_comm, Z.div_add, (Z.div_small l), Z.mod_small by lia. lia.
  - rewrite Z.add_comm, Z_mod_plus_full. by apply Z.mod_small.
Qed.

Lemma uu_split q : uint 64 q ->
  exists h l, uint 32 h /\ uint 32 l /\ q = quad_of (Uu h l).
Proof.
  intros Hq. exists (q / 2 ^ 32), (q mod 2 ^ 32). unfold uint, quad_of in *.
  cbn [ul_H ul_L]. split_and!.
  1-4: Z.div_mod_to_equations; lia.
  rewrite Z.mul_comm. apply Z.div_mod. lia.
Qed.

Lemma quad_ok x : uu_ok x -> uint 64 (quad_of x).
Proof. destruct x. intros [??]. by apply quad_uu. Qed.

(** [quad_cases a as h l]: the two words of the quad [a]. *)
Tactic Notation "quad_cases" hyp(a) "as" ident(h) ident(l) :=
  let Hh := fresh "H" h in let Hl := fresh "H" l in
  let E := fresh "E" in
  match goal with Ha : uint 64 a |- _ =>
    destruct (uu_split a Ha) as (h & l & Hh & Hl & ->);
    rewrite ?(proj1 (quad_uu h l Hh Hl)); cbn [ul_H ul_L]
  end.

Lemma testbit_quad h l i : uint 32 l -> 0 <= i ->
  Z.testbit (quad_of (Uu h l)) i = if i <? 32 then Z.testbit l i else Z.testbit h (i - 32).
Proof.
  intros Hl Hi. unfold quad_of. cbn [ul_H ul_L].
  rewrite Z.add_comm, <-lor_add_shift, Z.lor_spec by (done || lia).
  rewrite <-Z.shiftl_mul_pow2, Z.shiftl_spec by lia. destruct (i <? 32) eqn:E; zbool.
  - rewrite (Z.testbit_neg_r h) by lia. apply orb_false_r.
  - by rewrite (uint_testbit 32 l i) by (done || lia).
Qed.

Lemma uint_ext w x y : 0 <= w -> uint w x -> uint w y ->
  (forall i, 0 <= i < w -> Z.testbit x i = Z.testbit y i) -> x = y.
Proof. intros. rewrite <-(wrap_id w x), <-(wrap_id w y) by done. by apply wrap_ext. Qed.

(** The signed reading of a quad is that of its high word. *)
Lemma s64_quad h l : uint 32 h -> uint 32 l ->
  s64 (quad_of (Uu h l)) = s32 h * 2 ^ 32 + l.
Proof.
  intros Hh Hl. unfold sgn. rewrite (wrap_id 32), (wrap_id 64) by (done || by apply quad_uu).
  unfold quad_of, uint in *. cbn [ul_H ul_L].
  destruct (_ <? _) eqn:?, (h <? _) eqn:?; zbool; lia.
Qed.

Ltac quad_lia :=
  unfold quad_of, wrap, uint, Z.b2z in *; cbn [ul_H ul_L];
  repeat match goal with |- context [?x <? ?y] => destruct (x <? y) eqn:?; zbool end;
  Z.div_mod_to_equations; lia.

(** ** The carry and the borrow *)

Lemma carry_add h l c d : uint 32 h -> uint 32 l -> uint 32 d ->
  quad_of (Uu (u32 (h + (c + Z.b2z (u32 (l + d) <? l)))) (u32 (l + d)))
  = u64 (quad_of (Uu h l) + (c * 2 ^ 32 + d)).
Proof. intros. quad_lia. Qed.

Lemma borrow_sub h l c d : uint 32 h -> uint 32 l -> uint 32 d ->
  quad_of (Uu (u32 (h - (c + Z.b2z (l <? u32 (l - d))))) (u32 (l - d)))
  = u64 (quad_of (Uu h l) - (c * 2 ^ 32 + d)).
Proof. intros. quad_lia. Qed.

Lemma half_up x : uint 32 x -> HHALF x * 2 ^ 32 + LHUP x = x * 2 ^ 16.
Proof.
  intros Hx. unfold HHALF, LHUP, wshl, HALF_BITS.
  rewrite Z.shiftr_div_pow2, Z.shiftl_mul_pow2 by lia. unfold wrap, uint in *.
  Z.div_mod_to_equations. lia.
Qed.

Lemma half_split x : uint 32 x ->
  x = HHALF x * 2 ^ 16 + LHALF x /\ uint 16 (HHALF x) /\ uint 16 (LHALF x).
Proof.
  intros Hx. unfold HHALF, LHALF, HALF_BITS. rewrite land_ones_low by lia.
  rewrite Z.shiftr_div_pow2 by lia. unfold uint in *. Z.div_mod_to_equations. lia.
Qed.

Lemma LHUP_range x : uint 32 (LHUP x).
Proof. by apply wrap_range. Qed.

(** [|x - y|] with its sign, as both multiplication routines compute it. *)
Lemma abs_diff w x y : uint w x -> uint w y ->
  (if y <=? x then (wrap w (x - y), false) else (wrap w (y - x), true))
  = (Z.abs (x - y), x <? y).
Proof.
  unfold uint. intros Hx Hy. destruct (y <=? x) eqn:E; zbool.
  - rewrite wrap_id by (unfold uint; lia). f_equal; [lia|].
    symmetry. apply Z.ltb_ge. lia.
  - rewrite wrap_id by (unfold uint; lia). f_equal; [lia|].
    symmetry. apply Z.ltb_lt. lia.
Qed.

Lemma abs_diff_neg w x y n : uint w x -> uint w y ->
  (if y <=? x then (wrap w (x - y), n) else (wrap w (y - x), negb n))
  = (Z.abs (x - y), xorb n (x <? y)).
Proof.
  intros Hx Hy. pose proof (abs_diff w x y Hx Hy) as E.
  destruct (y <=? x); injection E as -> <-; by destruct n.
Qed.

(** The sign and the product of the differences. *)
Lemma abs_diff_mul a b c d :
  (if xorb (a <? b) (c <? d) then - (Z.abs (a - b) * Z.abs (c - d))
   else Z.abs (a - b) * Z.abs (c - d)) = (a - b) * (c - d).
Proof.
  destruct (Z.ltb_spec a b), (Z.ltb_spec c d); cbn [xorb];
  repeat match goal with |- context [Z.abs ?x] =>
    first [rewrite (Z.abs_eq x) by lia | rewrite (Z.abs_neq x) by lia] end; lia.
Qed.

(** ** Addition, subtraction, negation: modulo 2^64 *)

Lemma adddi3_wrap a b : uint 64 a -> uint 64 b -> adddi3 a b = u64 (a + b).
Proof.
  intros Ha Hb. unfold adddi3. quad_cases a as h l. quad_cases b as h' l'.
  assert (u32 (l + l') <? l' = (u32 (l + l') <? l)) as ->.
  { unfold wrap, uint in *. apply eq_true_iff_eq. rewrite !Z.ltb_lt.
    Z.div_mod_to_equations. lia. }
  rewrite <-Z.add_assoc, carry_add by done. f_equal.
Qed.

Lemma subdi3_wrap a b : uint 64 a -> uint 64 b -> subdi3 a b = u64 (a - b).
Proof.
  intros Ha Hb. unfold subdi3. quad_cases a as h l. quad_cases b as h' l'.
  rewrite <-Z.sub_add_distr, borrow_sub by done. f_equal.
Qed.

Lemma negdi2_wrap a : uint 64 a -> negdi2 a = u64 (- a).
Proof.
  intros Ha. unfold negdi2. quad_cases a as h l.
  replace (- h) with (0 - h) by lia. replace (- l) with (0 - l) by lia.
  rewrite <-Z.sub_add_distr, borrow_sub by (done || (unfold uint; lia)).
  f_equal.
Qed.

(** ** Bitwise operations and shifts, bit by bit *)

Ltac quad_bits :=
  rewrite ?Z.land_spec, ?Z.lor_spec, ?Z.lxor_spec;
  repeat (rewrite testbit_quad by eauto with word).

Lemma land_quad a b : uint 64 a -> uint 64 b -> anddi3 a b = Z.land a b.
Proof.
  intros Ha Hb. unfold anddi3. quad_cases a as h l. quad_cases b as h' l'.
  apply (uint_ext 64); [lia|apply quad_ok; split; apply uint_land; unfold uint in *; lia|
    apply uint_land; [lia|by apply quad_uu|apply (proj1 (quad_ok (Uu h' l') (conj Hh' Hl')))]|].
  intros i Hi. assert (uint 32 (Z.land l l')) by (apply uint_land; unfold uint in *; lia).
  quad_bits. destruct (i <? 32); by rewrite ?Z.land_spec.
Qed.

Lemma lor_quad a b : uint 64 a -> uint 64 b -> iordi3 a b = Z.lor a b.
Proof.
  intros Ha Hb. unfold iordi3. quad_cases a as h l. quad_cases b as h' l'.
  apply (uint_ext 64); [lia|apply quad_ok; split; by apply uint_lor|
    apply uint_lor; [lia|by apply quad_uu|by apply quad_uu]|].
  intros i Hi. quad_bits. destruct (i <? 32); by rewrite ?Z.lor_spec.
Qed.

Lemma lxor_quad a b : uint 64 a -> uint 64 b -> xordi3 a b = Z.lxor a b.
Proof.
  intros Ha Hb. unfold xordi3. quad_cases a as h l. quad_cases b as h' l'.
  apply (uint_ext 64); [lia|apply quad_ok; split; by apply uint_lxor|
    apply uint_lxor; [lia|by apply quad_uu|by apply quad_uu]|].
  intros i Hi. quad_bits. destruct (i <? 32); by rewrite ?Z.lxor_spec.
Qed.

Lemma not_quad a : uint 64 a -> one_cmpldi2 a = wnot 64 a.
Proof.
  intros Ha. unfold one_cmpldi2. quad_cases a as h l.
  unfold wnot, quad_of. cbn [ul_H ul_L]. lia.
Qed.

(** Bits outside a word are clear; the others are compared by position. *)
Ltac clear_bits :=
  repeat match goal with
  | |- context [Z.testbit ?x ?k] => rewrite (Z.testbit_neg_r x k) by lia
  | |- context [Z.testbit ?x ?k] => rewrite (uint_testbit 32 x k) by (done || lia)
  end; rewrite ?orb_false_r, ?orb_false_l.

Ltac shift_bits i :=
  unfold wshl, INT_BITS; repeat first
    [ rewrite testbit_quad by (lia || eauto with word)
    | rewrite testbit_wrap by lia | rewrite Z.lor_spec | rewrite Z.bits_0
    | rewrite Z.shiftl_spec by lia | rewrite Z.shiftr_spec by lia
    | match goal with |- context [?x <? ?y] => destruct (x <? y) eqn:?; zbool end ];
  clear_bits; try done; try (f_equal; lia).

(** Shift counts from 1 to 63, the quad given by its words. *)
Section shifts.
Variables h l n : Z.
Hypotheses (Hh : uint 32 h) (Hl : uint 32 l) (Hn : 0 < n < 64).

Lemma shl_quad :
  (if INT_BITS <=? n
   then quad_of (Uu (wshl 32 l (n - INT_BITS)) 0)
   else quad_of (Uu (Z.lor (wshl 32 h n) (Z.shiftr l (INT_BITS - n))) (wshl 32 l n)))
  = wshl 64 (quad_of (Uu h l)) n.
Proof.
  assert (uint 32 0) by (unfold uint; lia).
  unfold INT_BITS. destruct (32 <=? n) eqn:E; zbool.
  all: apply (uint_ext 64); [lia|apply quad_ok; split; eauto 6 with word|by apply uint_wshl|].
  all: intros i Hi; destruct (decide (i < n)); shift_bits i.
Qed.

Lemma shr_quad :
  (if INT_BITS <=? n
   then quad_of (Uu 0 (Z.shiftr h (n - INT_BITS)))
   else quad_of (Uu (Z.shiftr h n)
                    (Z.lor (Z.shiftr l n) (wshl 32 h (INT_BITS - n)))))
  = Z.shiftr (quad_of (Uu h l)) n.
Proof.
  assert (uint 32 0) by (unfold uint; lia).
  unfold INT_BITS. destruct (32 <=? n) eqn:E; zbool.
  all: apply (uint_ext 64); [lia|apply quad_ok; split; eauto 6 with word|
    apply uint_shiftr; [lia|by apply quad_uu]|].
  all: intros i Hi; shift_bits i.
Qed.
End shifts.

Lemma ashldi3_wshl a n : uint 64 a -> 0 <= n < 64 -> ashldi3 a n = wshl 64 a n.
Proof.
  intros Ha Hn. unfold ashldi3. destruct (n =? 0) eqn:E; zbool.
  - subst. unfold wshl. by rewrite Z.shiftl_0_r, wrap_id.
  - quad_cases a as h l. by apply shl_quad; [..|lia].
Qed.

Lemma lshrdi3_shiftr a n : uint 64 a -> 0 <= n < 64 -> lshrdi3 a n = Z.shiftr a n.
Proof.
  intros Ha Hn. unfold lshrdi3. destruct (n =? 0) eqn:E; zbool.
  - subst. by rewrite Z.shiftr_0_r.
  - quad_cases a as h l. by apply shr_quad; [..|lia].
Qed.

(** The bits of a two's complement number above its sign bit. *)
Lemma signed_testbit w g i : 0 < w -> - 2 ^ w <= g < 2 ^ w -> w <= i ->
  Z.testbit g i = (g <? 0).
Proof.
  intros Hw Hg Hi. destruct (Z.ltb_spec g 0).
  - apply Z.bits_above_log2_neg; [lia|]. destruct (decide (Z.pred (- g) = 0)) as [->|].
    + change (Z.log2 0) with 0. lia.
    + apply Z.log2_lt_pow2; [lia|]. apply Z.lt_le_trans with (2 ^ w); [lia|].
      apply Z.pow_le_mono_r; lia.
  - apply (uint_testbit w); [unfold uint; lia|done].
Qed.

Lemma ashrdi3_shiftr a n : uint 64 a -> 0 <= n < 64 ->
  ashrdi3 a n = u64 (Z.shiftr (s64 a) n).
Proof.
  intros Ha Hn. unfold ashrdi3. destruct (n =? 0) eqn:E; zbool.
  { subst. rewrite Z.shiftr_0_r, sgn_wrap. by rewrite wrap_id. }
  quad_cases a as h l. rewrite s64_quad by done.
  change (s32 h * 2 ^ 32 + l) with (quad_of (Uu (s32 h) l)).
  pose proof (sgn_range 32 h eq_refl) as Hg. change (32 - 1) with 31 in Hg.
  pose proof (sgn_wrap 32 h) as Hh'. rewrite (wrap_id 32 h) in Hh' by done.
  generalize dependent (s32 h). intros g Hg <-.
  assert (forall i, 31 <= i -> Z.testbit g i = (g <? 0)) as Hs
    by (intros; apply (signed_testbit 31); done || lia).
  unfold INT_BITS. destruct (32 <=? n) eqn:E'; zbool.
  all: apply (uint_ext 64); [lia|apply quad_ok; split; cbn [ul_H ul_L]; eauto 8 with word|
    by apply wrap_range|].
  all: intros i Hi; rewrite (testbit_wrap 64) by done; shift_bits i.
  all: rewrite !Hs by lia; done.
Qed.

(** ** Comparison *)

Lemma cmpdi2_compare a b : uint 64 a -> uint 64 b ->
  cmpdi2 a b = match s64 a ?= s64 b with Lt => 0 | Eq => 1 | Gt => 2 end.
Proof.
  intros Ha Hb. unfold cmpdi2. quad_cases a as h l. quad_cases b as h' l'.
  rewrite !s64_quad by done. unfold uint in *.
  destruct (Z.compare_spec (s32 h * 2 ^ 32 + l) (s32 h' * 2 ^ 32 + l'));
  repeat match goal with |- context [?x <? ?y] => destruct (Z.ltb_spec x y) end; lia.
Qed.

Lemma ucmpdi2_compare a b : uint 64 a -> uint 64 b ->
  ucmpdi2 a b = match a ?= b with Lt => 0 | Eq => 1 | Gt => 2 end.
Proof.
  intros Ha Hb. unfold ucmpdi2. quad_cases a as h l. quad_cases b as h' l'.
  unfold uint, quad_of in *. cbn [ul_H ul_L] in *.
  destruct (Z.compare_spec (h * 2 ^ 32 + l) (h' * 2 ^ 32 + l'));
  repeat match goal with |- context [?x <? ?y] => destruct (Z.ltb_spec x y) end; lia.
Qed.

(** ** Multiplication *)

(** Karatsuba's identity for words of two halves. *)
Lemma karatsuba B u1 u0 v1 v0 :
  (u1 * B + u0) * (v1 * B + v0)
  = (B * B + B) * (u1 * v1) + B * ((u1 - u0) * (v0 - v1)) + (B + 1) * (u0 * v0).
Proof. ring. Qed.

Lemma lmulq_small u v : uint 32 u -> uint 32 v -> HHALF u = 0 -> HHALF v = 0 ->
  u32 (LHALF u * LHALF v) = u * v.
Proof.
  intros Hu Hv E F. destruct (half_split u Hu) as (Eu & _ & Hu0).
  destruct (half_split v Hv) as (Ev & _ & Hv0). rewrite E in Eu. rewrite F in Ev.
  rewrite wrap_id; [f_equal; lia|]. unfold uint in *. nia.
Qed.

(** The assembly of the product: [high], [mid] (with its sign) and [low]
    shifted to their places. *)
Lemma assemble_high high : uint 32 high -> high < 2 ^ 32 - 2 ^ 16 ->
  quad_of (Uu (u32 (high + HHALF high)) (LHUP high)) = high * (2 ^ 32 + 2 ^ 16).
Proof.
  intros Hh Hs. pose proof (half_up high Hh).
  destruct (half_split high Hh) as (? & ? & ?). unfold quad_of. cbn [ul_H ul_L].
  rewrite wrap_id by (unfold uint in *; lia). lia.
Qed.

Lemma assemble_low h l low : uint 32 h -> uint 32 l -> uint 32 low ->
  quad_of (Uu (if u32 (l + low) <? low then u32 (h + 1) else h) (u32 (l + low)))
  = u64 (quad_of (Uu h l) + low).
Proof.
  intros. unfold quad_of. cbn [ul_H ul_L].
  destruct (u32 (l + low) <? low) eqn:E; zbool; unfold wrap, uint in *;
    Z.div_mod_to_equations; lia.
Qed.

Lemma assemble_mid (neg : bool) h l mid : uint 32 h -> uint 32 l -> uint 32 mid ->
  exists l' h',
    (if neg then
       let l' := u32 (l - LHUP mid) in (l', u32 (h - (HHALF mid + Z.b2z (l <? l'))))
     else
       let l' := u32 (l + LHUP mid) in (l', u32 (h + (HHALF mid + Z.b2z (l' <? l)))))
    = (l', h')
    /\ uint 32 l' /\ uint 32 h'
    /\ quad_of (Uu h' l')
       = u64 (quad_of (Uu h l) + 2 ^ 16 * (if neg then - mid else mid)).
Proof.
  intros Hh Hl Hm. pose proof (half_up mid Hm) as E. pose proof (LHUP_range mid).
  destruct neg; cbv zeta; eexists _, _.
  all: split_and!; [reflexivity|by apply wrap_range|by apply wrap_range|].
  - rewrite borrow_sub, E by done. f_equal. lia.
  - rewrite carry_add, E by done. f_equal. lia.
Qed.

Lemma assemble_carry h l low : uint 32 h -> uint 32 l -> uint 32 low ->
  quad_of (Uu (u32 (h + (HHALF low + Z.b2z (u32 (l + LHUP low) <? l)))) (u32 (l + LHUP low)))
  = u64 (quad_of (Uu h l) + 2 ^ 16 * low).
Proof.
  intros Hh Hl Hm. pose proof (half_up low Hm) as E. pose proof (LHUP_range low).
  rewrite carry_add, E by done. f_equal. lia.
Qed.

(** The products of the halves are words. *)
Lemma half_mul_range x y : uint 16 x -> uint 16 y -> uint 32 (x * y) /\ x * y < 2 ^ 32 - 2 ^ 16.
Proof. unfold uint. nia. Qed.

Lemma half_abs_range x y : uint 16 x -> uint 16 y -> uint 16 (Z.abs (x - y)).
Proof. unfold uint. lia. Qed.

Lemma lmulq_mul u v : uint 32 u -> uint 32 v -> lmulq u v = u * v.
Proof.
  intros Hu Hv. unfold lmulq. destruct ((HHALF u =? 0) && (HHALF v =? 0)) eqn:E.
  { apply andb_true_iff in E as [??]; zbool. by apply lmulq_small. }
  clear E. destruct (half_split u Hu) as (Eu & Hu1 & Hu0).
  destruct (half_split v Hv) as (Ev & Hv1 & Hv0).
  assert (uint 64 (u * v)) as Huv by (unfold uint in *; nia).
  assert ((HHALF u * 2 ^ 16 + LHALF u) * (HHALF v * 2 ^ 16 + LHALF v) = u * v) as Euv
    by (by rewrite <-Eu, <-Ev).
  rewrite <-Euv in Huv |- *. clear Euv Eu Ev. revert Hu1 Hu0 Hv1 Hv0 Huv.
  generalize (HHALF u) (LHALF u) (HHALF v) (LHALF v).
  intros u1 u0 v1 v0 Hu1 Hu0 Hv1 Hv0 Huv.
  destruct (half_mul_range _ _ Hu1 Hv1) as [Hh Hh']. destruct (half_mul_range _ _ Hu0 Hv0) as [Hlo _].
  destruct (half_mul_range _ _ (half_abs_range u1 u0 Hu1 Hu0) (half_abs_range v0 v1 Hv0 Hv1))
    as [Hm _].
  rewrite (abs_diff 32 u1 u0), (abs_diff_neg 32 v0 v1) by (unfold uint in *; lia).
  cbv beta iota. rewrite !(wrap_id 32 (_ * _)) by done.
  destruct (assemble_mid (xorb (u1 <? u0) (v0 <? v1)) (u32 (u1 * v1 + HHALF (u1 * v1)))
    (LHUP (u1 * v1)) (Z.abs (u1 - u0) * Z.abs (v0 - v1))) as (l' & h' & E & Hl' & Hh'' & Eq);
    [by apply wrap_range|apply LHUP_range|done|].
  cbv zeta in E |- *. rewrite E. cbv beta iota.
  rewrite assemble_low, assemble_carry, Eq, assemble_high by eauto with word.
  rewrite abs_diff_mul. transitivity (u64 ((u1 * 2 ^ 16 + u0) * (v1 * 2 ^ 16 + v0)));
    [|by apply wrap_id].
  rewrite wrap_add_l, <-Z.add_assoc, wrap_add_l. f_equal. rewrite karatsuba. lia.
Qed.

(** The product modulo 2^64 of non-negative operands. *)
Lemma mul_words u1 u0 v1 v0 : uint 32 u1 -> uint 32 u0 -> uint 32 v1 -> uint 32 v0 ->
  (if (u1 =? 0) && (v1 =? 0) then lmulq u0 v0
   else
     let low := uu_of (lmulq u0 v0) in
     let '(negmid, udiff) :=
       if u0 <=? u1 then (false, u32 (u1 - u0)) else (true, u32 (u0 - u1)) in
     let '(vdiff, negmid) :=
       if v1 <=? v0 then (u32 (v0 - v1), negmid) else (u32 (v1 - v0), negb negmid) in
     let mid := u32 (udiff * vdiff) in
     let high := u32 (u1 * v1) in
     quad_of (Uu (u32 (high + (if negmid : bool then u32 (- mid) else mid) + ul_L low + ul_H low))
                 (ul_L low)))
  = u64 (quad_of (Uu u1 u0) * quad_of (Uu v1 v0)).
Proof.
  intros Hu1 Hu0 Hv1 Hv0. rewrite lmulq_mul by done.
  assert (uint 64 (u0 * v0)) as Hlow by (unfold uint in *; nia).
  destruct ((u1 =? 0) && (v1 =? 0)) eqn:E.
  { apply andb_true_iff in E as [??]; zbool. subst. unfold quad_of. cbn [ul_H ul_L].
    rewrite !Z.mul_0_l, !Z.add_0_l. symmetry. by apply wrap_id. }
  clear E.
  assert ((if u0 <=? u1 then (false, u32 (u1 - u0)) else (true, u32 (u0 - u1)))
    = (u1 <? u0, Z.abs (u1 - u0))) as ->.
  { pose proof (abs_diff 32 u1 u0 Hu1 Hu0) as E. destruct (u0 <=? u1); by injection E as -> <-. }
  rewrite (abs_diff_neg 32 v0 v1) by done. cbv beta iota zeta.
  pose proof (abs_diff_mul u1 u0 v0 v1) as Em.
  assert (forall g : bool, eqw 32 (if g then u32 (- u32 (Z.abs (u1 - u0) * Z.abs (v0 - v1)))
    else u32 (Z.abs (u1 - u0) * Z.abs (v0 - v1)))
    (if g then - (Z.abs (u1 - u0) * Z.abs (v0 - v1))
     else Z.abs (u1 - u0) * Z.abs (v0 - v1))) as Hg.
  { intros []; wrap_drop; done. }
  specialize (Hg (xorb (u1 <? u0) (v0 <? v1))). rewrite Em in Hg.
  remember (if xorb _ _ then u32 _ else _) as mid eqn:Emid. clear Emid Em.
  destruct (uu_split _ Hlow) as (h & l & Hh & Hl & Eq). rewrite Eq at 1 2 3.
  rewrite (proj1 (quad_uu h l Hh Hl)). cbn [ul_H ul_L].
  assert (eqw 32 (u32 (u1 * v1) + mid + l + h) (u1 * v0 + u0 * v1 + h)) as ->.
  { rewrite Hg. wrap_drop. unfold eqw, wrap.
    replace (u1 * v1 + (u1 - u0) * (v0 - v1) + l + h)
      with (u1 * v0 + u0 * v1 + h + (- h) * 2 ^ 32); [apply Z_mod_plus_full|].
    unfold quad_of in Eq. cbn [ul_H ul_L] in Eq. lia. }
  unfold quad_of in *. cbn [ul_H ul_L] in *.
  replace ((u1 * 2 ^ 32 + u0) * (v1 * 2 ^ 32 + v0))
    with ((u1 * v0 + u0 * v1 + h) * 2 ^ 32 + l + (u1 * v1) * 2 ^ 64) by lia.
  unfold wrap at 2. rewrite Z_mod_plus_full. unfold wrap, uint in *.
  Z.div_mod_to_equations. lia.
Qed.

(** The absolute value of a signed quad, with its sign added to [n]. *)
Lemma quad_abs x n : uint 64 x ->
  exists u1 u0, uint 32 u1 /\ uint 32 u0
    /\ (if 0 <=? s64 x then (uu_of x, n) else (uu_of (u64 (- x)), negb n))
       = (Uu u1 u0, xorb n (s64 x <? 0))
    /\ eqw 64 x (if s64 x <? 0 then - quad_of (Uu u1 u0) else quad_of (Uu u1 u0)).
Proof.
  intros Hx. rewrite Z.leb_antisym. destruct (s64 x <? 0) eqn:E; cbn [negb].
  - destruct (uu_split (u64 (- x))) as (h & l & Hh & Hl & Eq); [by apply wrap_range|].
    exists h, l. rewrite <-Eq. rewrite xorb_true_r. split_and!; [done..| |].
    + rewrite Eq. by rewrite (proj1 (quad_uu h l Hh Hl)).
    + rewrite eqw_wrap. unfold eqw. f_equal. lia.
  - destruct (uu_split x Hx) as (h & l & Hh & Hl & Eq).
    exists h, l. rewrite <-Eq. rewrite xorb_false_r. split_and!; [done..| |done].
    rewrite Eq. by rewrite (proj1 (quad_uu h l Hh Hl)).
Qed.

Lemma muldi3_wrap a b : uint 64 a -> uint 64 b -> muldi3 a b = u64 (a * b).
Proof.
  intros Ha Hb. unfold muldi3.
  destruct (quad_abs a false Ha) as (u1 & u0 & Hu1 & Hu0 & E & Ea).
  cbn [negb] in E. rewrite E. clear E. cbv beta iota.
  destruct (quad_abs b (xorb false (s64 a <? 0)) Hb) as (v1 & v0 & Hv1 & Hv0 & -> & Eb).
  cbv beta iota zeta. cbn [ul_H ul_L]. rewrite xorb_false_l.
  pose proof (mul_words u1 u0 v1 v0 Hu1 Hu0 Hv1 Hv0) as E. cbv zeta in E. rewrite E. clear E.
  assert (eqw 64 (a * b) (if xorb (s64 a <? 0) (s64 b <? 0)
    then - u64 (quad_of (Uu u1 u0) * quad_of (Uu v1 v0))
    else u64 (quad_of (Uu u1 u0) * quad_of (Uu v1 v0)))) as Eab.
  { revert Ea Eb. generalize (s64 a <? 0) (s64 b <? 0). intros na nb Ea Eb.
    rewrite Ea, Eb. destruct na, nb; cbn [xorb]; wrap_drop; unfold eqw; f_equal; ring. }
  unfold eqw in Eab. rewrite Eab. destruct (xorb _ _); [done|]. by rewrite wrap_wrap.
Qed.

(** ** The routines compute the operations they stand for *)

(** 64-bit multiplication from 16-bit halves (Karatsuba twice) is
    multiplication modulo 2^64, also of the signed readings; the inner routine
    gives the full 64-bit product of two 32-bit words. *)
Theorem muldi3_correct a b (Ha : uint 64 a) (Hb : uint 64 b) :
  muldi3 a b = u64 (a * b)
  /\ s64 (muldi3 a b) = s64 (s64 a * s64 b)
  /\ (forall u v, uint 32 u -> uint 32 v -> lmulq u v = u * v).
Proof.
  split_and!; [by apply muldi3_wrap| |intros; by apply lmulq_mul].
  rewrite muldi3_wrap by done. unfold sgn at 1 2. rewrite wrap_wrap.
  assert (u64 (s64 a * s64 b) = u64 (a * b)) as ->; [|done].
  by rewrite <-wrap_mul_l, <-wrap_mul_r, !sgn_wrap, wrap_mul_l, wrap_mul_r.
Qed.

Theorem muldi3_correct_witness :
  muldi3 0x123456789ABCDEF0 0xFEDCBA9876543210
    = u64 (0x123456789ABCDEF0 * 0xFEDCBA9876543210)
  /\ s64 (muldi3 0x123456789ABCDEF0 0xFEDCBA9876543210)
    = s64 (s64 0x123456789ABCDEF0 * s64 0xFEDCBA9876543210)
  /\ (forall u v, uint 32 u -> uint 32 v -> lmulq u v = u * v).
Proof. apply muldi3_correct; split; done. Defined.

(** Addition, subtraction, negation and the bitwise operations. *)
Lemma quad_ring_ops a b (Ha : uint 64 a) (Hb : uint 64 b) :
  adddi3 a b = u64 (a + b) /\ subdi3 a b = u64 (a - b) /\ negdi2 a = u64 (- a)
  /\ anddi3 a b = Z.land a b /\ iordi3 a b = Z.lor a b /\ xordi3 a b = Z.lxor a b
  /\ one_cmpldi2 a = u64 (Z.lnot a).
Proof.
  split_and!; [by apply adddi3_wrap|by apply subdi3_wrap|by apply negdi2_wrap|
    by apply land_quad|by apply lor_quad|by apply lxor_quad|].
  rewrite not_quad by done. unfold wnot, Z.lnot. rewrite <-Z.opp_succ.
  rewrite <-(wrap_id 64 (2 ^ 64 - 1 - a)) by (unfold uint in *; lia). unfold wrap.
  replace (2 ^ 64 - 1 - a) with (- Z.succ a + 1 * 2 ^ 64) by lia. apply Z_mod_plus_full.
Qed.

(** Shifts and comparisons. *)
Lemma quad_shift_cmp a b n (Ha : uint 64 a) (Hb : uint 64 b) (Hn : 0 <= n < 64) :
  ashldi3 a n = u64 (a * 2 ^ n) /\ lshldi3 a n = u64 (a * 2 ^ n)
  /\ lshrdi3 a n = a / 2 ^ n
  /\ s64 (ashrdi3 a n) = s64 a / 2 ^ n
  /\ ucmpdi2 a b = match a ?= b with Lt => 0 | Eq => 1 | Gt => 2 end
  /\ cmpdi2 a b = match s64 a ?= s64 b with Lt => 0 | Eq => 1 | Gt => 2 end.
Proof.
  rewrite <-Z.shiftl_mul_pow2 by lia. rewrite <-!Z.shiftr_div_pow2 by lia.
  assert (ashldi3 a n = u64 (Z.shiftl a n)) as E by by apply ashldi3_wshl.
  split_and!; [exact E|exact E|by apply lshrdi3_shiftr| |by apply ucmpdi2_compare|
    by apply cmpdi2_compare].
  rewrite ashrdi3_shiftr by done. unfold sgn at 1. rewrite wrap_wrap.
  apply (sgn_id 64); [done|]. rewrite Z.shiftr_div_pow2 by lia.
  pose proof (sgn_range 64 a eq_refl). assert (1 <= 2 ^ n) by lia.
  change (64 - 1) with 63 in *. split.
  - apply Z.div_le_lower_bound; nia.
  - apply Z.div_lt_upper_bound; nia.
Qed.

(** The other 64-bit operations, done word by word.  Addition, subtraction,
    negation and the bitwise operations, with their explicit carries, are the
    operations modulo 2^64; for a count below 64 the shifts are the logical and
    arithmetic shifts of the quad; the comparisons order the unsigned and the
    signed readings. *)
Theorem quad_words_correct a b n (Ha : uint 64 a) (Hb : uint 64 b) (Hn : 0 <= n < 64) :
  (adddi3 a b = u64 (a + b) /\ subdi3 a b = u64 (a - b) /\ negdi2 a = u64 (- a)
   /\ anddi3 a b = Z.land a b /\ iordi3 a b = Z.lor a b /\ xordi3 a b = Z.lxor a b
   /\ one_cmpldi2 a = u64 (Z.lnot a))
  /\ (ashldi3 a n = u64 (a * 2 ^ n) /\ lshldi3 a n = u64 (a * 2 ^ n)
   /\ lshrdi3 a n = a / 2 ^ n
   /\ s64 (ashrdi3 a n) = s64 a / 2 ^ n
   /\ ucmpdi2 a b = match a ?= b with Lt => 0 | Eq => 1 | Gt => 2 end
   /\ cmpdi2 a b = match s64 a ?= s64 b with Lt => 0 | Eq => 1 | Gt => 2 end).
Proof. split; [by apply quad_ring_ops|by apply quad_shift_cmp]. Qed.

Theorem quad_words_correct_witness :
  let a := 0xFFFFFFFF00000001 in let b := 0x00000001FFFFFFFF in
  (adddi3 a b = u64 (a + b) /\ subdi3 a b = u64 (a - b) /\ negdi2 a = u64 (- a)
   /\ anddi3 a b = Z.land a b /\ iordi3 a b = Z.lor a b /\ xordi3 a b = Z.lxor a b
   /\ one_cmpldi2 a = u64 (Z.lnot a))
  /\ (ashldi3 a 33 = u64 (a * 2 ^ 33) /\ lshldi3 a 33 = u64 (a * 2 ^ 33)
   /\ lshrdi3 a 33 = a / 2 ^ 33
   /\ s64 (ashrdi3 a 33) = s64 a / 2 ^ 33
   /\ ucmpdi2 a b = match a ?= b with Lt => 0 | Eq => 1 | Gt => 2 end
   /\ cmpdi2 a b = match s64 a ?= s64 b with Lt => 0 | Eq => 1 | Gt => 2 end).
Proof. apply quad_words_correct; split; done. Defined.

(** C16: the 64-bit operations, done on words.  Multiplication from 16-bit
    halves (Karatsuba twice) is multiplication modulo 2^64, also of the signed
    readings, and its inner routine gives the full 64-bit product of two 32-bit
    words.  Addition, subtraction, negation and the bitwise operations, with
    their explicit carries, are the operations modulo 2^64; for a count below
    64 the shifts are the logical and arithmetic shifts of the quad; the
    comparisons order the unsigned and the signed readings. *)
Theorem quad_arith_correct a b n (Ha : uint 64 a) (Hb : uint 64 b) (Hn : 0 <= n < 64) :
  (muldi3 a b = u64 (a * b)
   /\ s64 (muldi3 a b) = s64 (s64 a * s64 b)
   /\ (forall u v, uint 32 u -> uint 32 v -> lmulq u v = u * v))
  /\ (adddi3 a b = u64 (a + b) /\ subdi3 a b = u64 (a - b) /\ negdi2 a = u64 (- a)
   /\ anddi3 a b = Z.land a b /\ iordi3 a b = Z.lor a b /\ xordi3 a b = Z.lxor a b
   /\ one_cmpldi2 a = u64 (Z.lnot a))
  /\ (ashldi3 a n = u64 (a * 2 ^ n) /\ lshldi3 a n = u64 (a * 2 ^ n)
   /\ lshrdi3 a n = a / 2 ^ n
   /\ s64 (ashrdi3 a n) = s64 a / 2 ^ n
   /\ ucmpdi2 a b = match a ?= b with Lt => 0 | Eq => 1 | Gt => 2 end
   /\ cmpdi2 a b = match s64 a ?= s64 b with Lt => 0 | Eq => 1 | Gt => 2 end).
Proof. split; [by apply muldi3_correct|by apply quad_words_correct]. Qed.

Theorem quad_arith_correct_witness :
  let a := 0xFFFFFFFF00000001 in let b := 0x00000001FFFFFFFF in
  muldi3 a b = u64 (a * b) /\ adddi3 a b = u64 (a + b) /\ ashldi3 a 33 = u64 (a * 2 ^ 33).
Proof.
  intros a b. destruct (quad_arith_correct a b 33) as ((E1 & _) & (E2 & _) & (E3 & _));
    [split; done|split; done|done|].
  split; [exact E1|]. split; [exact E2|exact E3].
Defined.
