(* ===== verification/QDivRem.v ===== *)
(** * Multiprecision division (src/CLibrary/quad/qdivrem.c and its callers)

    [__qdivrem] is Knuth's Algorithm D on at most four 16-bit digits.  The
    digit arrays [uspace], [vspace] and [qspace] are lists of five cells, a cell
    that was never written being [None], and [u], [v] and [q] are indices into
    them as the C pointers are; a read of an unwritten or absent cell is
    [Fault].  Division by zero traps. *)

From S2P Require Import Prelude Words Quad.
From Stdlib Require Import ZArith Lia.
From stdpp Require Import prelude gmap list.

Open Scope Z_scope.

Definition B : Z := 2 ^ HALF_BITS.

(** [COMBINE] on [u_int] operands. *)
Definition COMBINE (a b : Z) : Z := Z.lor (wshl 32 a HALF_BITS) b.

(** ** Digit arrays *)

Notation cells := (list (option Z)).

Definition rd (a : cells) (i : nat) : res Z := deref (mjoin (a !! i)).
Definition wr (a : cells) (i : nat) (x : Z) : res cells :=
  if decide (i < length a)%nat then Ok (<[i := Some x]> a) else Fault.

(** The conversion to [digit]. *)
Notation digit := u16.

(** [shl(&p[o], len, sh)]; [k] counts the iterations left. *)
Fixpoint shl_loop (p : cells) (o i k : nat) (sh : Z) : res (cells * nat) :=
  match k with
  | O => Ok (p, i)
  | S k' =>
      x ← rd p (o + i);
      y ← rd p (o + (i + 1));
      p ← wr p (o + i) (digit (Z.lor (LHALF (wshl 32 x sh)) (Z.shiftr y (HALF_BITS - sh))));
      shl_loop p o (i + 1) k' sh
  end.

Definition shl (p : cells) (o len : nat) (sh : Z) : res cells :=
  '(p, i) ← shl_loop p o 0 len sh;
  x ← rd p (o + i);
  wr p (o + i) (digit (LHALF (wshl 32 x sh))).

(** The four digits of a quad, most significant first. *)
Definition digits_of (q : Z) : list Z :=
  let tmp := uu_of q in
  [digit (HHALF (ul_H tmp)); digit (LHALF (ul_H tmp));
   digit (HHALF (ul_L tmp)); digit (LHALF (ul_L tmp))].

(** Cells 1 to 4 as a quad. *)
Definition quad_of_cells (a : cells) : res Z :=
  x1 ← rd a 1; x2 ← rd a 2; x3 ← rd a 3; x4 ← rd a 4;
  Ok (quad_of (Uu (COMBINE x1 x2) (COMBINE x3 x4))).

(** ** Division by one digit (exercise 16) *)

Definition divide_short (u : cells) (t : Z) : res (Z * Z) :=
  u1 ← rd u 1; u2 ← rd u 2; u3 ← rd u 3; u4 ← rd u 4;
  let q1 := digit (u1 / t) in
  let rbj := COMBINE (u1 mod t) u2 in
  let q2 := digit (rbj / t) in
  let rbj := COMBINE (rbj mod t) u3 in
  let q3 := digit (rbj / t) in
  let rbj := COMBINE (rbj mod t) u4 in
  let q4 := digit (rbj / t) in
  Ok (quad_of (Uu (COMBINE q1 q2) (COMBINE q3 q4)), rbj mod t).

(** [for (n = 4; v[1] == 0; v++) if (--n == 1) ...]: the offset of [v] and [n],
    or the offset at which the divisor has one digit. *)
Fixpoint leading (v : cells) (o n : nat) : res (nat * nat + nat) :=
  match n with
  | O => NoFuel
  | S n' =>
      x ← rd v (o + 1);
      if x =? 0 then
        if decide (n' = 1)%nat then Ok (inr o) else leading v (o + 1) n'
      else Ok (inl (o, n))
  end.

(** [for (m = 4 - n; u[1] == 0; u++) m--] *)
Fixpoint skip_zeros (fuel : nat) (u : cells) (o : nat) (m : Z) : res (nat * Z) :=
  match fuel with
  | O => NoFuel
  | S fuel' =>
      x ← rd u (o + 1);
      if x =? 0 then skip_zeros fuel' u (o + 1) (m - 1) else Ok (o, m)
  end.

(** [for (i = k; --i >= 0;) q[i] = 0] *)
Fixpoint zero_cells (q : cells) (k : nat) : res cells :=
  match k with
  | O => Ok q
  | S i => q ← wr q i 0; zero_cells q i
  end.

(** D1: [for (t = v[1]; t < B / 2; t <<= 1) d++] *)
Fixpoint normalize (fuel : nat) (t d : Z) : res Z :=
  match fuel with
  | O => NoFuel
  | S fuel' => if t <? B / 2 then normalize fuel' (wshl 32 t 1) (d + 1) else Ok d
  end.

(** D3: the two ways into the correction loop; [qhat_too_big] is the body. *)
Fixpoint correct (fuel : nat) (v1 v2 uj2 qhat rhat : Z) : res Z :=
  match fuel with
  | O => NoFuel
  | S fuel' =>
      if COMBINE rhat uj2 <? u32 (v2 * qhat) then
        let qhat := u32 (qhat - 1) in
        let rhat := u32 (rhat + v1) in
        if B <=? rhat then Ok qhat else correct fuel' v1 v2 uj2 qhat rhat
      else Ok qhat
  end.

Definition guess (fuel : nat) (v1 v2 uj0 uj1 uj2 : Z) : res Z :=
  if uj0 =? v1 then
    let qhat := u32 (B - 1) in
    let rhat := u32 (uj1 + v1) in
    if B <=? rhat then Ok qhat else correct fuel v1 v2 uj2 qhat rhat
  else
    let nn := COMBINE uj0 uj1 in
    correct fuel v1 v2 uj2 (nn / v1) (nn mod v1).

(** D4: [u[j..j+n] -= qhat * v[1..n]]; [i] counts down from [n]. *)
Fixpoint mul_sub (u v : cells) (uo vo : nat) (qhat : Z) (i : nat) (t : Z) : res (cells * Z) :=
  match i with
  | O => Ok (u, t)
  | S i' =>
      x ← rd u (uo + i);
      y ← rd v (vo + i);
      let t := u32 (x - y * qhat - t) in
      u ← wr u (uo + i) (digit (LHALF t));
      mul_sub u v uo vo qhat i' (Z.land (u32 (B - HHALF t)) (B - 1))
  end.

(** D6: [u[j..j+n] += v[1..n]] *)
Fixpoint add_back (u v : cells) (uo vo : nat) (i : nat) (t : Z) : res (cells * Z) :=
  match i with
  | O => Ok (u, t)
  | S i' =>
      x ← rd u (uo + i);
      y ← rd v (vo + i);
      let t := u32 (t + (x + y)) in
      u ← wr u (uo + i) (digit (LHALF t));
      add_back u v uo vo i' (HHALF t)
  end.

(** One round of the loop, with [uo] the index of [u[j]]: the new [u] and the
    digit [q[j]]. *)
Definition divide_step (u v : cells) (uo vo n : nat) (v1 v2 : Z) : res (cells * Z) :=
  uj0 ← rd u uo;
  uj1 ← rd u (uo + 1);
  uj2 ← rd u (uo + 2);
  qhat ← guess 3 v1 v2 uj0 uj1 uj2;
  '(u, t) ← mul_sub u v uo vo qhat n 0;
  x ← rd u uo;
  let t := u32 (x - t) in
  u ← wr u uo (digit (LHALF t));
  if HHALF t =? 0 then Ok (u, digit qhat)
  else
    '(u, t) ← add_back u v uo vo n 0;
    x ← rd u uo;
    u ← wr u uo (digit (LHALF (u32 (x + t))));
    Ok (u, digit (u32 (qhat - 1))).

(** D2..D7: [do ... while (++j <= m)]; [k] rounds are left after this one. *)
Fixpoint divide_loop (u v q : cells) (uo vo qo n : nat) (v1 v2 : Z) (k : nat)
  : res (cells * cells) :=
  '(u, qhat) ← divide_step u v uo vo n v1 v2;
  q ← wr q qo qhat;
  match k with
  | O => Ok (u, q)
  | S k' => divide_loop u v q (uo + 1) vo (qo + 1) n v1 v2 k'
  end.

(** D8: [for (i = m + n; i > m; --i) ...; u[i] = 0]; [k] digits are left. *)
Fixpoint shift_right (u : cells) (i k : nat) (d : Z) : res (cells * nat) :=
  match k with
  | O => Ok (u, i)
  | S k' =>
      x ← rd u i;
      y ← rd u (i - 1);
      u ← wr u i (digit (Z.lor (Z.shiftr x d) (LHALF (wshl 32 y (HALF_BITS - d)))));
      shift_right u (i - 1) k' d
  end.

Definition unnormalize (u : cells) (uo m n : nat) (d : Z) : res cells :=
  if d =? 0 then Ok u
  else
    '(u, i) ← shift_right u (uo + (m + n)) n d;
    wr u i 0.

Definition divide_long (u v q : cells) (vo n : nat) : res (Z * Z) :=
  '(uo, m) ← skip_zeros 5 u 0 (4 - Z.of_nat n);
  let m := Z.to_nat m in
  q ← zero_cells q (4 - m);
  x ← rd v (vo + 1);
  d ← normalize 16 x 0;
  u ← (if 0 <? d then shl u uo (m + n) d else Ok u);
  v ← (if 0 <? d then shl v (vo + 1) (n - 1) d else Ok v);
  v1 ← rd v (vo + 1);
  v2 ← rd v (vo + 2);
  '(u, q) ← divide_loop u v q uo vo (4 - m) n v1 v2 m;
  u ← unnormalize u uo m n d;
  r ← quad_of_cells u;
  q ← quad_of_cells q;
  Ok (q, r).

(** The quotient and the remainder that is stored through [arq]. *)
Definition qdivrem (uq vq : Z) : res (Z * Z) :=
  if vq =? 0 then Fault
  else if uq <? vq then Ok (0, uq)
  else
    let u := Some <$> 0 :: digits_of uq in
    let v := None :: (Some <$> digits_of vq) in
    let q := replicate 5 None in
    l ← leading v 0 4;
    match l with
    | inr o => t ← rd v (o + 2); divide_short u t
    | inl (o, n) => divide_long u v q o n
    end.

(** ** The routines the compiler calls *)

Definition udivdi3 (a b : Z) : res Z := fst <$> qdivrem a b.
Definition umoddi3 (a b : Z) : res Z := snd <$> qdivrem a b.

Definition divdi3 (a b : Z) : res Z :=
  let '(ua, neg) := if s64 a <? 0 then (u64 (- a), true) else (a, false) in
  let '(ub, neg) := if s64 b <? 0 then (u64 (- b), negb neg) else (b, neg) in
  '(uq, _) ← qdivrem ua ub;
  Ok (if neg : bool then u64 (- uq) else uq).

Definition moddi3 (a b : Z) : res Z :=
  let '(ua, neg) := if s64 a <? 0 then (u64 (- a), true) else (a, false) in
  let ub := if s64 b <? 0 then u64 (- b) else b in
  '(_, ur) ← qdivrem ua ub;
  Ok (if neg : bool then u64 (- ur) else ur).

Example qdivrem_samples :
  ((fun '(a, b) => qdivrem a b) <$>
    [(100, 7); (2 ^ 64 - 1, 3); (2 ^ 64 - 1, 2 ^ 33 + 5); (2 ^ 63, 2 ^ 48 - 1);
     (0x7FFF800000000000, 0x800000000001); (0x8000000000000003, 0x2000000000000001)])
  = (fun '(a, b) => Ok (a / b, a mod b)) <$>
    [(100, 7); (2 ^ 64 - 1, 3); (2 ^ 64 - 1, 2 ^ 33 + 5); (2 ^ 63, 2 ^ 48 - 1);
     (0x7FFF800000000000, 0x800000000001); (0x8000000000000003, 0x2000000000000001)].
Proof. vm_compute. reflexivity. Qed.

(** ** Digits and numerals *)

Definition digits (l : list Z) : Prop := Forall (uint 16) l.

(** The number of a big-endian numeral. *)
Definition val (l : list Z) : Z := fold_left (fun a x => a * B + x) l 0.

Lemma val_snoc l x : val (l ++ [x]) = val l * B + x.
Proof. unfold val. by rewrite fold_left_app. Qed.

Lemma val_app l k : val (l ++ k) = val l * B ^ Z.of_nat (length k) + val k.
Proof.
  induction k as [|x k IH] using rev_ind.
  - rewrite app_nil_r. cbn. lia.
  - rewrite app_assoc, !val_snoc, IH, length_app. cbn [length].
    rewrite Nat2Z.inj_add, Z.pow_add_r by lia. change (B ^ Z.of_nat 1) with B. ring.
Qed.

Lemma val_cons x l : val (x :: l) = x * B ^ Z.of_nat (length l) + val l.
Proof. change (x :: l) with ([x] ++ l). rewrite val_app. f_equal. Qed.

Lemma B_pos k : 0 < B ^ Z.of_nat k.
Proof. apply Z.pow_pos_nonneg; [done|lia]. Qed.

Lemma B_succ k : B ^ Z.of_nat (S k) = B * B ^ Z.of_nat k.
Proof. rewrite Nat2Z.inj_succ, Z.pow_succ_r; lia. Qed.

Lemma B_pow k : B ^ Z.of_nat k = 2 ^ (16 * Z.of_nat k).
Proof. unfold B, HALF_BITS. rewrite <-Z.pow_mul_r; [done|lia|lia]. Qed.

Lemma val_range l : digits l -> 0 <= val l < B ^ Z.of_nat (length l).
Proof.
  induction 1 as [|x l Hx Hl IH]; [done|]. rewrite val_cons. cbn [length].
  rewrite B_succ. unfold uint in Hx. change (2 ^ 16) with B in Hx. nia.
Qed.

Lemma val_zeros k l : val (replicate k 0 ++ l) = val l.
Proof. induction k as [|k IH]; [done|]. cbn [replicate app]. rewrite val_cons, IH. lia. Qed.

Lemma digits_app l k : digits (l ++ k) <-> digits l /\ digits k.
Proof. apply Forall_app. Qed.

Lemma digits_snoc l x : digits (l ++ [x]) <-> digits l /\ uint 16 x.
Proof. unfold digits. by rewrite Forall_app, Forall_singleton. Qed.

Lemma digits_cons x l : digits (x :: l) <-> uint 16 x /\ digits l.
Proof. apply Forall_cons. Qed.

Lemma length_snoc_inv {A} (l : list A) n : length l = S n ->
  exists l' x, l = l' ++ [x] /\ length l' = n.
Proof.
  intros Hl. destruct l as [|x l _] using rev_ind; [done|].
  rewrite length_app in Hl. cbn in Hl. exists l, x. split; [done|lia].
Qed.

Lemma digits_of_val q : uint 64 q -> val (digits_of q) = q /\ digits (digits_of q).
Proof.
  intros Hq. unfold digits_of. destruct (uu_split q Hq) as (h & l & Hh & Hl & ->).
  rewrite (proj1 (quad_uu h l Hh Hl)). cbn [ul_H ul_L].
  destruct (half_split h Hh) as (E & ? & ?), (half_split l Hl) as (E' & ? & ?).
  rewrite !wrap_id by done. split; [|by rewrite !digits_cons; split_and!; [..|constructor]].
  unfold val, quad_of, B, HALF_BITS. cbn [fold_left ul_H ul_L]. lia.
Qed.

Lemma COMBINE_val a b : uint 16 a -> uint 16 b -> COMBINE a b = a * B + b.
Proof.
  intros Ha Hb. unfold COMBINE, wshl, B, HALF_BITS. rewrite Z.shiftl_mul_pow2 by lia.
  rewrite wrap_id by (unfold uint in *; lia). rewrite Z.lor_comm, lor_add_shift by (done || lia).
  lia.
Qed.

Lemma HHALF_div x : HHALF x = x / B.
Proof. unfold HHALF, B, HALF_BITS. apply Z.shiftr_div_pow2. lia. Qed.

Lemma LHALF_mod x : LHALF x = x mod B.
Proof. unfold LHALF, B, HALF_BITS. by apply land_ones_low. Qed.

Lemma digit_LHALF x : digit (LHALF x) = x mod B.
Proof. rewrite LHALF_mod. unfold wrap, B, HALF_BITS. apply Zmod_mod. Qed.

Lemma mod_B_digit x : uint 16 (x mod B).
Proof. apply Z.mod_pos_bound. done. Qed.

(** ** Cells *)

Lemma rd_at (p s : cells) x i : i = length p -> rd (p ++ Some x :: s) i = Ok x.
Proof. intros ->. unfold rd. by rewrite list_lookup_middle. Qed.

Lemma wr_at (p s : cells) c x i : i = length p -> wr (p ++ c :: s) i x = Ok (p ++ Some x :: s).
Proof.
  intros ->. unfold wr. rewrite decide_True.
  - by rewrite insert_app_r_alt, Nat.sub_diag by lia.
  - rewrite length_app. cbn. lia.
Qed.

Lemma rd_seg (p s : cells) (l : list Z) k x i : l !! k = Some x -> i = (length p + k)%nat ->
  rd (p ++ (Some <$> l) ++ s) i = Ok x.
Proof.
  intros Hl ->. unfold rd. rewrite lookup_app_r by lia.
  replace (length p + k - length p)%nat with k by lia.
  rewrite lookup_app_l by (rewrite length_fmap; by eapply lookup_lt_Some).
  by rewrite list_lookup_fmap, Hl.
Qed.

(** A segment whose last digit is split off. *)
Lemma seg_snoc (p s : cells) (l : list Z) x :
  p ++ (Some <$> l ++ [x]) ++ s = (p ++ (Some <$> l)) ++ Some x :: s.
Proof. rewrite fmap_app. cbn. by rewrite <-!app_assoc. Qed.

Lemma seg_cons (p s : cells) (l : list Z) x :
  p ++ (Some <$> x :: l) ++ s = p ++ Some x :: (Some <$> l) ++ s.
Proof. done. Qed.

Lemma seg_shift (p s : cells) (l : list Z) c :
  p ++ c :: (Some <$> l) ++ s = (p ++ [c]) ++ (Some <$> l) ++ s.
Proof. by rewrite <-app_assoc. Qed.

(** ** Shifting left *)

Lemma shl_head x y sh : uint 16 x -> uint 16 y -> 0 < sh < 16 ->
  digit (Z.lor (LHALF (wshl 32 x sh)) (Z.shiftr y (HALF_BITS - sh)))
  = (x * 2 ^ sh + y / 2 ^ (16 - sh)) mod B
  /\ y / 2 ^ (16 - sh) < 2 ^ sh.
Proof.
  intros Hx Hy Hsh. unfold HALF_BITS. rewrite Z.shiftr_div_pow2 by lia.
  assert (2 ^ 16 = 2 ^ sh * 2 ^ (16 - sh)) as E by (rewrite <-Z.pow_add_r by lia; f_equal; lia).
  assert (0 < 2 ^ sh) by lia. assert (0 < 2 ^ (16 - sh)) by lia.
  assert (0 <= y / 2 ^ (16 - sh) < 2 ^ sh) as Hy'.
  { unfold uint in Hy. split; [apply Z.div_pos; lia|]. apply Z.div_lt_upper_bound; lia. }
  split; [|lia].
  assert (LHALF (wshl 32 x sh) = x mod 2 ^ (16 - sh) * 2 ^ sh) as ->.
  { rewrite LHALF_mod. unfold wshl, B, HALF_BITS. rewrite Z.shiftl_mul_pow2 by lia.
    change ((wrap 32 (x * 2 ^ sh)) mod 2 ^ 16) with (u16 (u32 (x * 2 ^ sh))).
    rewrite wrap_wrap_le by lia. unfold wrap. rewrite E, (Z.mul_comm (2 ^ sh)).
    by rewrite Z.mul_mod_distr_r by lia. }
  rewrite Z.lor_comm, lor_add_shift by (done || lia).
  unfold wrap, B, HALF_BITS. rewrite Z.add_comm.
  rewrite <-(Zplus_mod_idemp_l (x * 2 ^ sh)). f_equal. f_equal.
  rewrite E, (Z.mul_comm (2 ^ sh)). by rewrite Z.mul_mod_distr_r by lia.
Qed.

Lemma shl_arith x y V sh k : digits (y :: V) -> length V = k -> uint 16 x -> 0 < sh < 16 ->
  (val (x :: y :: V) * 2 ^ sh) mod B ^ Z.of_nat (S (S k))
  = ((x * 2 ^ sh + y / 2 ^ (16 - sh)) mod B) * B ^ Z.of_nat (S k)
    + (val (y :: V) * 2 ^ sh) mod B ^ Z.of_nat (S k).
Proof.
  intros Hd Hk Hx Hsh. rewrite val_cons. cbn [length]. rewrite Hk, (B_succ (S k)).
  pose proof (B_pos (S k)) as HP. set (P := B ^ Z.of_nat (S k)) in *.
  assert (val (y :: V) * 2 ^ sh / P = y / 2 ^ (16 - sh)) as E.
  { apply digits_cons in Hd as [Hy HV]. rewrite val_cons, Hk.
    pose proof (val_range V HV) as HV'. rewrite Hk in HV'.
    unfold P. rewrite B_succ. pose proof (B_pos k). set (Q := B ^ Z.of_nat k) in *.
    assert (B = 2 ^ (16 - sh) * 2 ^ sh) as ->
      by (unfold B, HALF_BITS; rewrite <-Z.pow_add_r by lia; f_equal; lia).
    replace (2 ^ (16 - sh) * 2 ^ sh * Q) with (Q * 2 ^ (16 - sh) * 2 ^ sh) by ring.
    rewrite Z.div_mul_cancel_r by lia. rewrite <-Z.div_div by lia. f_equal.
    rewrite Z.add_comm, Z.div_add, Z.div_small by lia. lia. }
  pose proof (Z.div_mod (val (y :: V) * 2 ^ sh) P ltac:(lia)) as Edm. rewrite E in Edm.
  set (c := y / 2 ^ (16 - sh)) in *. set (R := (val (y :: V) * 2 ^ sh) mod P) in *.
  replace ((x * P + val (y :: V)) * 2 ^ sh) with (R + (x * 2 ^ sh + c) * P) by lia.
  rewrite (Z.mul_comm B P), Z.rem_mul_r by (done || lia).
  rewrite Z.div_add, Z_mod_plus_full by lia.
  assert (0 <= R < P) by (apply Z.mod_pos_bound; lia).
  rewrite (Z.div_small R), (Z.mod_small R), Z.add_0_l by lia. ring.
Qed.

Lemma shl_loop_spec s o sh l : forall x pre i,
  digits (x :: l) -> (o + i)%nat = length pre -> 0 < sh < 16 ->
  exists l',
    ('(p, i) ← shl_loop (pre ++ (Some <$> x :: l) ++ s) o i (length l) sh;
     y ← rd p (o + i); wr p (o + i) (digit (LHALF (wshl 32 y sh))))
    = Ok (pre ++ (Some <$> l') ++ s)
    /\ length l' = S (length l) /\ digits l'
    /\ val l' = (val (x :: l) * 2 ^ sh) mod B ^ Z.of_nat (S (length l)).
Proof.
  induction l as [|y l IH]; intros x pre i Hd Hi Hsh.
  - apply digits_cons in Hd as [Hx _]. exists [(x * 2 ^ sh) mod B].
    cbn [shl_loop length mbind res_bind]. rewrite seg_cons, rd_at by done.
    cbn [mbind res_bind]. rewrite wr_at, digit_LHALF by done. unfold wshl.
    rewrite Z.shiftl_mul_pow2 by lia.
    change (wrap 32 (x * 2 ^ sh) mod B) with (u16 (u32 (x * 2 ^ sh))).
    rewrite wrap_wrap_le by lia. split_and!; [done..| |].
    + apply digits_cons. split; [apply mod_B_digit|constructor].
    + unfold val. cbn. by rewrite Z.pow_1_r.
  - pose proof Hd as Hd'. apply digits_cons in Hd as [Hx Hd].
    pose proof Hd as Hyl. apply digits_cons in Hyl as [Hy _].
    cbn [length shl_loop]. rewrite seg_cons, (rd_at _ _ _ (o + i)) by done. cbn [mbind res_bind].
    rewrite <-seg_cons, (rd_seg _ _ _ 1 y) by (done || lia). cbn [mbind res_bind].
    rewrite seg_cons, wr_at by done. cbn [mbind res_bind].
    destruct (shl_head x y sh Hx Hy Hsh) as [-> _]. rewrite seg_shift.
    destruct (IH y (pre ++ [Some ((x * 2 ^ sh + y / 2 ^ (16 - sh)) mod B)]) (i + 1)%nat)
      as (l' & E & Hl & Hdl & Hv); [done|rewrite length_app; cbn; lia|done|].
    rewrite E. exists ((x * 2 ^ sh + y / 2 ^ (16 - sh)) mod B :: l').
    rewrite seg_cons, seg_shift. split_and!; [done|cbn; lia|by apply digits_cons; split; [apply mod_B_digit|]|].
    rewrite val_cons, Hl, Hv. by rewrite shl_arith.
Qed.

Lemma shl_spec p s x l o sh : digits (x :: l) -> o = length p -> 0 < sh < 16 ->
  exists l', shl (p ++ (Some <$> x :: l) ++ s) o (length l) sh = Ok (p ++ (Some <$> l') ++ s)
    /\ length l' = S (length l) /\ digits l'
    /\ val l' = (val (x :: l) * 2 ^ sh) mod B ^ Z.of_nat (S (length l)).
Proof. intros. apply shl_loop_spec; [done|lia|done]. Qed.

(** ** Multiply and subtract, add back *)

Lemma mod_u32_B x : u32 x mod B = x mod B.
Proof. change (u16 (u32 x) = u16 x). apply wrap_wrap_le. lia. Qed.

(** One digit of [u - v * qhat]: the borrow stays below [B]. *)
Lemma borrow_digit x y q t : uint 16 x -> uint 16 y -> uint 16 q -> uint 16 t ->
  let T := u32 (x - y * q - t) in
  let t' := Z.land (u32 (B - HHALF T)) (B - 1) in
  digit (LHALF T) - t' * B = x - y * q - t /\ uint 16 (digit (LHALF T)) /\ uint 16 t'.
Proof.
  intros Hx Hy Hq Ht T t'. set (w := x - y * q - t).
  assert (- (B - 1) * B <= w < B) as Hw.
  { unfold w, uint, B, HALF_BITS in *. change (2 ^ 16) with 65536 in *.
    assert (0 <= y * q <= 65535 * 65535) by nia. lia. }
  assert (digit (LHALF T) = w mod B) as -> by (rewrite digit_LHALF; apply mod_u32_B).
  assert (t' = - (w / B)) as ->.
  { unfold t'. change (B - 1) with (2 ^ 16 - 1). rewrite land_ones_low by lia.
    change (2 ^ 16) with B. rewrite mod_u32_B. unfold T. rewrite HHALF_div.
    fold w. unfold wrap. change (2 ^ 32) with (B * B).
    rewrite Z.rem_mul_r by done. rewrite (Z.mul_comm B (_ mod B)), Z.div_add by done.
    rewrite (Z.div_small (w mod B)) by (apply Z.mod_pos_bound; done). rewrite Z.add_0_l.
    rewrite Zminus_mod_idemp_r. rewrite <-(Z_mod_plus_full _ (-1)).
    rewrite Z.mod_small; [ring|]. unfold B, HALF_BITS in *. Z.div_mod_to_equations. lia. }
  split_and!; [|apply mod_B_digit|].
  - pose proof (Z.div_mod w B ltac:(done)). lia.
  - unfold uint, B, HALF_BITS in *. Z.div_mod_to_equations. lia.
Qed.

Lemma mul_sub_spec s pv sv q uo vo p i : forall ws vs t,
  length ws = i -> length vs = i -> digits ws -> digits vs -> uint 16 q -> uint 16 t ->
  (uo + 1)%nat = length p -> (vo + 1)%nat = length pv ->
  exists ws' t',
    mul_sub (p ++ (Some <$> ws) ++ s) (pv ++ (Some <$> vs) ++ sv) uo vo q i t
    = Ok (p ++ (Some <$> ws') ++ s, t')
    /\ length ws' = i /\ digits ws' /\ uint 16 t'
    /\ val ws' - t' * B ^ Z.of_nat i = val ws - q * val vs - t.
Proof.
  revert s sv; induction i as [|i IH]; intros s sv ws vs t Hws Hvs Hdw Hdv Hq Ht Hp Hpv.
  - apply nil_length_inv in Hws as ->, Hvs as ->. exists [], t.
    split_and!; [done|done|constructor|done|]. cbn. lia.
  - apply length_snoc_inv in Hws as (ws0 & x & -> & Hws), Hvs as (vs0 & y & -> & Hvs).
    apply digits_snoc in Hdw as [Hdw Hx], Hdv as [Hdv Hy].
    cbn [mul_sub]. rewrite !seg_snoc.
    rewrite !(rd_at (_ ++ _)) by (rewrite length_app, length_fmap; lia). cbn [mbind res_bind].
    rewrite wr_at by (rewrite length_app, length_fmap; lia). cbn [mbind res_bind].
    destruct (borrow_digit x y q t Hx Hy Hq Ht) as (E & Hd & Hb). rewrite <-!app_assoc.
    destruct (IH (Some (digit (LHALF (u32 (x - y * q - t)))) :: s) (Some y :: sv) ws0 vs0
      _ Hws Hvs Hdw Hdv Hq Hb Hp Hpv) as (ws' & t' & Em & Hl & Hdw' & Ht' & Ev).
    rewrite Em. exists (ws' ++ [digit (LHALF (u32 (x - y * q - t)))]), t'.
    rewrite seg_snoc, <-app_assoc. split_and!; [done| |by apply digits_snoc|done|].
    + rewrite length_app. cbn. lia.
    + rewrite !val_snoc, B_succ.
      remember (digit (LHALF _)) as dx eqn:Edx. remember (Z.land _ _) as b eqn:Eb.
      clear Edx Eb. nia.
Qed.

Lemma carry_digit x y t : uint 16 x -> uint 16 y -> 0 <= t <= 1 ->
  let T := u32 (t + (x + y)) in
  digit (LHALF T) + HHALF T * B = t + (x + y) /\ uint 16 (digit (LHALF T)) /\ 0 <= HHALF T <= 1.
Proof.
  intros Hx Hy Ht T. unfold T.
  rewrite digit_LHALF, HHALF_div, wrap_id by (unfold uint in *; lia).
  pose proof (Z.div_mod (t + (x + y)) B ltac:(done)).
  split_and!; [lia|apply mod_B_digit| |];
    unfold uint, B, HALF_BITS in *; Z.div_mod_to_equations; lia.
Qed.

Lemma add_back_spec s pv sv uo vo p i : forall ws vs t,
  length ws = i -> length vs = i -> digits ws -> digits vs -> 0 <= t <= 1 ->
  (uo + 1)%nat = length p -> (vo + 1)%nat = length pv ->
  exists ws' t',
    add_back (p ++ (Some <$> ws) ++ s) (pv ++ (Some <$> vs) ++ sv) uo vo i t
    = Ok (p ++ (Some <$> ws') ++ s, t')
    /\ length ws' = i /\ digits ws' /\ 0 <= t' <= 1
    /\ val ws' + t' * B ^ Z.of_nat i = val ws + val vs + t.
Proof.
  revert s sv; induction i as [|i IH]; intros s sv ws vs t Hws Hvs Hdw Hdv Ht Hp Hpv.
  - apply nil_length_inv in Hws as ->, Hvs as ->. exists [], t.
    split_and!; [done|done|constructor|lia|lia|]. cbn. lia.
  - apply length_snoc_inv in Hws as (ws0 & x & -> & Hws), Hvs as (vs0 & y & -> & Hvs).
    apply digits_snoc in Hdw as [Hdw Hx], Hdv as [Hdv Hy].
    cbn [add_back]. rewrite !seg_snoc.
    rewrite !(rd_at (_ ++ _)) by (rewrite length_app, length_fmap; lia). cbn [mbind res_bind].
    rewrite wr_at by (rewrite length_app, length_fmap; lia). cbn [mbind res_bind].
    destruct (carry_digit x y t Hx Hy Ht) as (E & Hd & Hb). rewrite <-!app_assoc.
    destruct (IH (Some (digit (LHALF (u32 (t + (x + y))))) :: s) (Some y :: sv) ws0 vs0
      _ Hws Hvs Hdw Hdv Hb Hp Hpv) as (ws' & t' & Em & Hl & Hdw' & Ht' & Ev).
    rewrite Em. exists (ws' ++ [digit (LHALF (u32 (t + (x + y))))]), t'.
    rewrite seg_snoc, <-app_assoc. split_and!; [done| |by apply digits_snoc|lia|lia|].
    + rewrite length_app. cbn. lia.
    + rewrite !val_snoc, B_succ.
      remember (digit (LHALF _)) as dx eqn:Edx. remember (HHALF _) as b eqn:Eb.
      clear Edx Eb. nia.
Qed.

(** ** The quotient digit *)

(** The trial quotient is the largest digit that fits the leading three digits
    of the dividend and the leading two of the divisor. *)
Definition fits (v1 v2 w0 w1 w2 q : Z) : Prop :=
  q * (v1 * B + v2) <= (w0 * B + w1) * B + w2.

Section guess.
Variables v1 v2 w0 w1 w2 : Z.
Hypotheses (Hv1 : uint 16 v1) (Hv2 : uint 16 v2) (Hw0 : uint 16 w0) (Hw1 : uint 16 w1)
  (Hw2 : uint 16 w2) (Hn : B <= 2 * v1).

Lemma correct_spec fuel : forall qhat rhat,
  uint 16 qhat -> uint 16 rhat -> qhat * v1 + rhat = w0 * B + w1 ->
  B <= rhat + Z.of_nat fuel * v1 ->
  exists q, correct fuel v1 v2 w2 qhat rhat = Ok q /\ uint 16 q
    /\ fits v1 v2 w0 w1 w2 q
    /\ (forall q', q' <= qhat -> fits v1 v2 w0 w1 w2 q' -> q' <= q).
Proof.
  unfold fits. induction fuel as [|fuel IH]; intros qhat rhat Hq Hr E Hf.
  { unfold uint, B, HALF_BITS in *. lia. }
  cbn [correct]. rewrite COMBINE_val by done.
  assert (0 <= v2 * qhat < B * B) as Hvq by (unfold uint, B, HALF_BITS in *; nia).
  rewrite (wrap_id 32) by (unfold uint, B, HALF_BITS in *; lia).
  destruct (rhat * B + w2 <? v2 * qhat) eqn:Ec; zbool.
  2:{ exists qhat. split_and!; [done|done|nia|auto]. }
  assert (0 < qhat) by (unfold uint, B, HALF_BITS in *; nia).
  rewrite !(wrap_id 32) by (unfold uint, B, HALF_BITS in *; lia).
  assert (forall q', q' <= qhat -> q' * (v1 * B + v2) <= (w0 * B + w1) * B + w2 -> q' <= qhat - 1) as Hlt.
  { intros q' Hq' Hf'. destruct (decide (q' = qhat)) as [->|]; [nia|lia]. }
  assert (uint 16 (qhat - 1)) as Hq1 by (unfold uint in *; lia).
  assert ((qhat - 1) * v1 + (rhat + v1) = w0 * B + w1) as E1 by lia.
  destruct (B <=? rhat + v1) eqn:Eb; zbool.
  - exists (qhat - 1). split_and!; [done|done| |done].
    rewrite <-E1. assert ((qhat - 1) * v2 <= (rhat + v1) * B); [|unfold uint in *; nia].
    unfold uint, B, HALF_BITS in *. nia.
  - destruct (IH (qhat - 1) (rhat + v1)) as (q & Eq & Hqq & Hfit & Hbest);
      [done| |done|lia|].
    { unfold uint, B, HALF_BITS in *. lia. }
    exists q. split_and!; [done..|]. intros q' H1 H2. apply Hbest; [|done]. by apply Hlt.
Qed.

Lemma guess_spec : w0 <= v1 ->
  exists q, guess 3 v1 v2 w0 w1 w2 = Ok q /\ uint 16 q
    /\ fits v1 v2 w0 w1 w2 q
    /\ (forall q', q' < B -> fits v1 v2 w0 w1 w2 q' -> q' <= q).
Proof.
  intros Hle. unfold guess. destruct (w0 =? v1) eqn:E; zbool.
  - rewrite !(wrap_id 32) by (unfold uint, B, HALF_BITS in *; lia).
    destruct (B <=? w1 + v1) eqn:Eb; zbool.
    + exists (B - 1). split_and!; [done|done| |lia].
      unfold fits. unfold uint, B, HALF_BITS in *. nia.
    + destruct (correct_spec 3 (B - 1) (w1 + v1)) as (q & ? & ? & ? & Hb);
        [done|unfold uint, B, HALF_BITS in *; lia|lia|unfold uint in *; lia|].
      exists q. split_and!; [done..|]. intros. apply Hb; [lia|done].
  - rewrite COMBINE_val by done.
    assert (0 < v1) by (unfold uint, B, HALF_BITS in *; lia).
    pose proof (Z.div_mod (w0 * B + w1) v1 ltac:(lia)) as Ed.
    pose proof (Z.mod_pos_bound (w0 * B + w1) v1 ltac:(lia)).
    assert (uint 16 ((w0 * B + w1) / v1)).
    { unfold uint, B, HALF_BITS in *. split; [apply Z.div_pos; lia|].
      apply Z.div_lt_upper_bound; nia. }
    destruct (correct_spec 3 ((w0 * B + w1) / v1) ((w0 * B + w1) mod v1)) as (q & ? & ? & ? & Hb);
      [done|unfold uint in *; lia|lia|unfold uint in *; lia|].
    exists q. split_and!; [done..|]. intros q' Hq' Hf. apply Hb; [|done].
    unfold fits in Hf. apply Z.div_le_lower_bound; [lia|].
    unfold uint, B, HALF_BITS in *. nia.
Qed.
End guess.

(** Knuth's bound: the trial quotient is the quotient digit or one more. *)
Lemma guess_close v1 v2 vs w0 w1 w2 ws q : digits (v1 :: v2 :: vs) ->
  digits (w0 :: w1 :: w2 :: ws) -> length ws = length vs -> B <= 2 * v1 -> uint 16 q ->
  fits v1 v2 w0 w1 w2 q ->
  (q - 1) * val (v1 :: v2 :: vs) <= val (w0 :: w1 :: w2 :: ws).
Proof.
  unfold fits. rewrite !digits_cons, !val_cons. cbn [length]. rewrite !B_succ.
  intros (Hv1 & Hv2 & Hvs) (Hw0 & Hw1 & Hw2 & Hws) Hl Hn Hq Hf. rewrite Hl.
  pose proof (val_range _ Hvs) as Hv. pose proof (val_range _ Hws) as Hw. rewrite Hl in Hw.
  set (P := B ^ Z.of_nat (length vs)) in *. set (V := val vs) in *. set (W := val ws) in *.
  assert (q * V <= B * P) by (unfold uint, B, HALF_BITS in *; nia).
  assert (B * P <= (v1 * B + v2) * P) by (unfold uint, B, HALF_BITS in *; nia).
  assert (q * (v1 * B + v2) * P <= ((w0 * B + w1) * B + w2) * P) by nia.
  nia.
Qed.

(** A digit whose multiple of the divisor fits also fits the leading digits. *)
Lemma fits_leading v1 v2 vs w0 w1 w2 ws q : digits (v1 :: v2 :: vs) ->
  digits (w0 :: w1 :: w2 :: ws) -> length ws = length vs -> 0 <= q ->
  q * val (v1 :: v2 :: vs) <= val (w0 :: w1 :: w2 :: ws) ->
  fits v1 v2 w0 w1 w2 q.
Proof.
  unfold fits. rewrite !digits_cons, !val_cons. cbn [length]. rewrite !B_succ.
  intros (Hv1 & Hv2 & Hvs) (Hw0 & Hw1 & Hw2 & Hws) Hl Hq. rewrite Hl.
  pose proof (val_range _ Hvs) as Hv. pose proof (val_range _ Hws) as Hw. rewrite Hl in Hw.
  set (P := B ^ Z.of_nat (length vs)) in *. set (V := val vs) in *. set (W := val ws) in *.
  intros Hf. assert (0 < P) by apply B_pos. apply Z.lt_succ_r.
  apply Z.mul_lt_mono_pos_r with P; [done|]. nia.
Qed.

(** ** One round of the division *)

(** The divisor: at least two digits, the first one normalised. *)
Section rounds.
Variables (v1 v2 : Z) (vs : list Z) (pv sv : cells) (vo n : nat).
Hypotheses (Hdv : digits (v1 :: v2 :: vs)) (Hnorm : B <= 2 * v1)
  (Hn : n = S (S (length vs))) (Hpv : length pv = S vo).

Local Notation V := (val (v1 :: v2 :: vs)).
Local Notation v := (pv ++ (Some <$> v1 :: v2 :: vs) ++ sv).

Lemma divisor_range : 0 < V < B ^ Z.of_nat n.
Proof.
  rewrite Hn. split; [|by apply (val_range (v1 :: v2 :: vs))].
  rewrite val_cons. apply digits_cons in Hdv as [H1 Hd].
  pose proof (val_range _ Hd). pose proof (B_pos (length (v2 :: vs))).
  assert (0 < v1) by (unfold B, HALF_BITS in *; lia). nia.
Qed.

(** The first digit of the window does not exceed that of the divisor. *)
Lemma head_bound w0 ws : digits (w0 :: ws) -> length ws = n ->
  val (w0 :: ws) < V * B -> w0 <= v1.
Proof.
  intros Hd Hl Hlt. apply digits_cons in Hd as [Hw0 Hd]. rewrite !(val_cons w0) in Hlt.
  pose proof (val_range _ Hd) as Hw.
  pose proof Hdv as Hdv'. apply digits_cons in Hdv' as [_ Hdv'].
  pose proof (val_range _ Hdv') as Hv. rewrite (val_cons v1) in Hlt.
  rewrite Hl, Hn in *. cbn [length] in *. rewrite B_succ in Hlt.
  pose proof (B_pos (S (length vs))). set (P := B ^ Z.of_nat (S (length vs))) in *.
  apply Z.lt_succ_r. apply Z.mul_lt_mono_pos_r with (B * P); [unfold B, HALF_BITS; lia|].
  assert (0 < B) by done. nia.
Qed.

Lemma borrow_head w t : uint 16 w -> uint 16 t ->
  digit (LHALF (u32 (w - t))) = (w - t) mod B
  /\ (HHALF (u32 (w - t)) =? 0) = (t <=? w).
Proof.
  intros Hw Ht. rewrite digit_LHALF, mod_u32_B, HHALF_div. split; [done|].
  unfold wrap, uint, B, HALF_BITS in *. apply eq_true_iff_eq. rewrite Z.eqb_eq, Z.leb_le.
  Z.div_mod_to_equations. lia.
Qed.

Lemma divide_step_spec p s uo w0 ws : length p = uo -> digits (w0 :: ws) -> length ws = n ->
  val (w0 :: ws) < V * B ->
  exists q r,
    divide_step (p ++ (Some <$> w0 :: ws) ++ s) v uo vo n v1 v2
    = Ok (p ++ (Some <$> 0 :: r) ++ s, q)
    /\ length r = n /\ digits r /\ uint 16 q
    /\ val (w0 :: ws) = q * V + val r /\ val r < V.
Proof.
  intros Hp Hdw Hl Hlt. pose proof (head_bound _ _ Hdw Hl Hlt) as Hle.
  pose proof divisor_range as HV.
  destruct ws as [|w1 [|w2 ws]]; [cbn in Hl; lia..|].
  pose proof Hdw as Hdw'. apply digits_cons in Hdw' as (Hw0 & Hdw').
  pose proof Hdw' as Hdw''. rewrite !digits_cons in Hdw''. destruct Hdw'' as (Hw1 & Hw2 & _).
  pose proof Hdv as Hdv'. rewrite !digits_cons in Hdv'. destruct Hdv' as (Hv1 & Hv2 & _).
  unfold divide_step.
  rewrite (rd_seg p s _ 0 w0 uo), (rd_seg p s _ 1 w1 (uo + 1)), (rd_seg p s _ 2 w2 (uo + 2))
    by (done || lia).
  cbn [mbind res_bind].
  destruct (guess_spec v1 v2 w0 w1 w2) as (q & Eg & Hq & Hfit & Hbest); [done..|].
  rewrite Eg. cbn [mbind res_bind]. clear Eg.
  assert (length ws = length vs) as Hlen by (cbn in Hl; lia).
  pose proof (guess_close _ _ _ _ _ _ _ q Hdv Hdw Hlen Hnorm Hq Hfit) as Hclose.
  rewrite (seg_cons p s), (seg_shift p s).
  destruct (mul_sub_spec s pv sv q uo vo (p ++ [Some w0]) n (w1 :: w2 :: ws) (v1 :: v2 :: vs) 0)
    as (ws1 & t & Em & Hl1 & Hd1 & Ht & Ev); [done|cbn; lia|done..| |lia|].
  { rewrite length_app. cbn. lia. }
  rewrite Em. cbn [mbind res_bind]. clear Em.
  rewrite <-(seg_shift p s), rd_at by done. cbn [mbind res_bind]. rewrite wr_at by done.
  cbn [mbind res_bind]. destruct (borrow_head w0 t Hw0 Ht) as [-> ->].
  rewrite (val_cons w0) in *. rewrite Hl in *.
  pose proof (val_range _ Hd1) as Hr1. rewrite Hl1 in Hr1.
  set (W := val (w1 :: w2 :: ws)) in *. set (P := B ^ Z.of_nat n) in *.
  destruct (t <=? w0) eqn:Et; zbool.
  - (* no borrow *)
    assert (w0 * P + W - q * V < V) as HR.
    { destruct (decide (w0 * P + W - q * V < V)); [done|exfalso].
      assert ((q + 1) * V <= w0 * P + W) as Hq1 by lia.
      assert (q + 1 < B) by nia.
      enough (q + 1 <= q) by lia. apply Hbest; [done|].
      apply (fits_leading _ _ vs _ _ _ ws); [done..|unfold uint in Hq; lia|].
      rewrite (val_cons w0), Hl. exact Hq1. }
    assert (w0 - t = 0) as E0 by nia. rewrite E0.
    exists q, ws1. rewrite (wrap_id 16 q) by done.
    split_and!; [done|done|done|done|nia|nia].
  - (* borrow: add the divisor back *)
    rewrite seg_shift.
    destruct (add_back_spec s pv sv uo vo (p ++ [Some ((w0 - t) mod B)]) n ws1
      (v1 :: v2 :: vs) 0) as (ws2 & c & Ea & Hl2 & Hd2 & Hc & Ev2);
      [done|cbn; lia|done|done|lia| |lia|].
    { rewrite length_app. cbn. lia. }
    rewrite Ea. cbn [mbind res_bind]. clear Ea.
    rewrite <-(seg_shift p s), rd_at by done. cbn [mbind res_bind]. rewrite wr_at by done.
    cbn [mbind res_bind].
    pose proof (val_range _ Hd2) as Hr2. rewrite Hl2 in Hr2. fold P in Hr2, Ev2.
    pose proof (val_range _ Hdw') as HW. fold W in HW. unfold uint in Hw0, Hq.
    assert (w0 * P + W - q * V < 0) as Hneg by nia.
    assert (0 < q) by nia.
    assert (w0 - t + c = 0) as E0 by nia.
    rewrite digit_LHALF, mod_u32_B, Zplus_mod_idemp_l, E0.
    exists (q - 1), ws2. rewrite (wrap_id 32), (wrap_id 16) by (unfold uint in *; lia).
    split_and!; [done|done|done|unfold uint in *; lia|nia|nia].
Qed.

(** All rounds: the digits [rest] enter the window one after the other. *)
Lemma divide_loop_spec qs : forall rest p s uo qo qp w0 ws,
  length p = uo -> digits (w0 :: ws ++ rest) -> length ws = n ->
  val (w0 :: ws) < V * B -> length qp = qo -> length qs = length rest ->
  forall c, exists qn r,
    divide_loop (p ++ (Some <$> w0 :: ws ++ rest) ++ s) v (qp ++ c :: qs) uo vo qo n v1 v2
      (length rest)
    = Ok (p ++ (Some <$> replicate (S (length rest)) 0 ++ r) ++ s, qp ++ (Some <$> qn))
    /\ length qn = S (length rest) /\ digits qn /\ length r = n /\ digits r
    /\ val (w0 :: ws ++ rest) = val qn * V + val r /\ val r < V.
Proof.
  induction qs as [|c' qs IH]; intros rest p s uo qo qp w0 ws Hp Hd Hl Hlt Hqp Hqs c.
  all: destruct rest as [|x rest]; [|try done]; try done.
  - rewrite app_nil_r in *. cbn [length divide_loop].
    destruct (divide_step_spec p s uo w0 ws Hp Hd Hl Hlt) as (q & r & E & Hr & Hdr & Hq & Ev & Hvr).
    rewrite E. cbn [mbind res_bind]. rewrite wr_at by done. cbn [mbind res_bind].
    exists [q], r. split_and!; [done|done|by apply digits_cons; split; [|constructor]|done|done|done|done].
  - assert (digits (w0 :: ws)) as Hdw.
    { rewrite digits_cons in Hd. rewrite digits_cons. rewrite digits_app in Hd. tauto. }
    cbn [length divide_loop]. rewrite app_comm_cons, fmap_app, <-app_assoc.
    destruct (divide_step_spec p ((Some <$> x :: rest) ++ s) uo w0 ws Hp Hdw Hl Hlt)
      as (q & r & E & Hr & Hdr & Hq & Ev & Hvr).
    rewrite E. cbn [mbind res_bind]. rewrite wr_at by done. cbn [mbind res_bind].
    assert (exists r0 rs, r = r0 :: rs) as (r0 & rs & ->) by (destruct r; [cbn in Hr; lia|eauto]).
    assert (digits ((rs ++ [x]) ++ rest) /\ uint 16 x) as [Hdr' Hx].
    { rewrite digits_cons, digits_app, digits_cons in Hd. rewrite digits_cons in Hdr.
      rewrite !digits_app, digits_cons. split; [|tauto]. split_and!; [tauto|tauto|constructor|tauto]. }
    specialize (IH rest (p ++ [Some 0]) s (uo + 1)%nat (qo + 1)%nat (qp ++ [Some q]) r0 (rs ++ [x])).
    destruct IH with (c := c') as (qn & r' & E' & Hqn & Hdqn & Hr' & Hdr'' & Ev' & Hvr').
    + rewrite length_app. cbn. lia.
    + apply digits_cons. split; [|done]. by apply digits_cons in Hdr as [? _].
    + rewrite length_app. cbn in *. lia.
    + rewrite app_comm_cons, val_snoc. unfold uint in Hx. change (2 ^ 16) with B in Hx. nia.
    + rewrite length_app. cbn. lia.
    + cbn in Hqs. lia.
    + exists (q :: qn), r'.
      split_and!; [|cbn; lia|by apply digits_cons|done|done| |done].
      * rewrite <-!app_assoc in E'. cbn [app fmap list_fmap] in E' |- *.
        replace (Some <$> rs ++ x :: rest) with ((Some <$> rs) ++ Some x :: (Some <$> rest)) in E'
          by (by rewrite fmap_app).
        rewrite <-app_assoc in E'. exact E'.
      * rewrite val_cons, Hqn. cbn [length] in Hqs.
        replace (w0 :: ws ++ x :: rest) with ((w0 :: ws) ++ x :: rest) by done.
        rewrite val_app. cbn [length]. rewrite Ev.
        replace (r0 :: (rs ++ [x]) ++ rest) with ((r0 :: rs) ++ x :: rest) in Ev'
          by (cbn; by rewrite <-app_assoc).
        rewrite val_app in Ev'. cbn [length] in Ev'. nia.
Qed.
End rounds.

(** ** The loops around the division *)

Lemma leading_zeros l : val l <> 0 ->
  exists z x l', l = replicate z 0 ++ x :: l' /\ x <> 0.
Proof.
  induction l as [|x l IH]; intros Hv; [done|]. destruct (decide (x = 0)) as [->|Hx].
  - rewrite val_cons in Hv. destruct IH as (z & x & l' & -> & Hx'); [lia|].
    by exists (S z), x, l'.
  - by exists 0%nat, x, l.
Qed.

Lemma skip_zeros_spec s x l z : x <> 0 -> forall fuel p c m, (z < fuel)%nat ->
  skip_zeros fuel (p ++ c :: (Some <$> replicate z 0 ++ x :: l) ++ s) (length p) m
  = Ok ((length p + z)%nat, m - Z.of_nat z).
Proof.
  intros Hx. induction z as [|z IH]; intros [|fuel] p c m Hf; try lia.
  all: cbn [skip_zeros replicate app]; rewrite seg_shift, seg_cons, rd_at
    by (rewrite length_app; cbn; lia); cbn [mbind res_bind].
  - rewrite (proj2 (Z.eqb_neq _ _) Hx). f_equal. f_equal; lia.
  - change (0 =? 0) with true. cbv iota.
    replace (length p + 1)%nat with (length (p ++ [c])) by (rewrite length_app; cbn; lia).
    rewrite IH by lia. rewrite length_app. cbn. f_equal. f_equal; lia.
Qed.

Lemma normalize_spec t : forall fuel e, 0 <= e -> 0 < t -> t * 2 ^ e < B ->
  B / 2 <= t * 2 ^ (e + Z.of_nat fuel) ->
  exists d, normalize (S fuel) (t * 2 ^ e) e = Ok d /\ e <= d <= e + Z.of_nat fuel
    /\ B / 2 <= t * 2 ^ d < B.
Proof.
  induction fuel as [|fuel IH]; intros e He Ht Hlt Hf; cbn [normalize].
  - rewrite Z.add_0_r in Hf. rewrite (proj2 (Z.ltb_ge _ _) Hf). exists e. split_and!; done || lia.
  - destruct (t * 2 ^ e <? B / 2) eqn:E; zbool.
    + assert (wshl 32 (t * 2 ^ e) 1 = t * 2 ^ (e + 1)) as ->.
      { unfold wshl. rewrite Z.shiftl_mul_pow2, wrap_id by
          (try unfold uint, B, HALF_BITS in *; lia).
        rewrite Z.pow_add_r by lia. change (2 ^ 1) with 2. ring. }
      destruct (IH (e + 1)) as (d & Ed & Hd & Hb); [lia|done| | |].
      * rewrite Z.pow_add_r by lia. unfold B, HALF_BITS in *. change (2 ^ 16 / 2) with 32768 in E.
        change (2 ^ 16) with 65536. lia.
      * replace (e + 1 + Z.of_nat fuel) with (e + Z.of_nat (S fuel)) by lia. done.
      * exists d. split_and!; [done|lia|lia|lia|lia].
    + exists e. split_and!; [done|lia|lia|done|done].
Qed.

Lemma zero_cells_spec k : forall q, (k <= length q)%nat ->
  zero_cells q k = Ok (replicate k (Some 0) ++ drop k q).
Proof.
  induction k as [|k IH]; intros q Hk; [done|]. cbn [zero_cells].
  destruct (lookup_lt_is_Some_2 q k) as [c Hc]; [lia|].
  rewrite <-(take_drop_middle q k c Hc) at 1. rewrite wr_at by (rewrite length_take; lia).
  cbn [mbind res_bind].
  rewrite IH by (rewrite length_app, length_take, length_cons, length_drop; lia).
  f_equal. rewrite drop_app_ge by (rewrite length_take; lia).
  rewrite length_take. replace (k - k `min` length q)%nat with 0%nat by lia.
  rewrite replicate_S_end, <-app_assoc. done.
Qed.

(** Shifting the remainder back, from the last digit. *)
Lemma shift_digit A x d : 0 <= A -> uint 16 x -> 0 < d < 16 ->
  digit (Z.lor (Z.shiftr x d) (LHALF (wshl 32 (A mod B) (HALF_BITS - d))))
  = ((A * B + x) / 2 ^ d) mod B
  /\ (A * B + x) / 2 ^ d / B = A / 2 ^ d.
Proof.
  intros HA Hx Hd. unfold HALF_BITS.
  assert (B = 2 ^ (16 - d) * 2 ^ d) as EB
    by (unfold B, HALF_BITS; rewrite <-Z.pow_add_r by lia; f_equal; lia).
  assert (0 < 2 ^ d) by lia. assert (0 < 2 ^ (16 - d)) by lia.
  assert (0 <= x / 2 ^ d < 2 ^ (16 - d)) as Hxd.
  { unfold uint in Hx. split; [apply Z.div_pos; lia|]. apply Z.div_lt_upper_bound; [lia|].
    change (2 ^ 16) with B in Hx. lia. }
  assert ((A * B + x) / 2 ^ d = A * 2 ^ (16 - d) + x / 2 ^ d) as ->.
  { rewrite EB. replace (A * (2 ^ (16 - d) * 2 ^ d) + x) with (x + A * 2 ^ (16 - d) * 2 ^ d) by ring.
    rewrite Z.div_add by lia. lia. }
  split.
  - rewrite LHALF_mod. unfold wshl. rewrite Z.shiftl_mul_pow2, mod_u32_B, Zmult_mod_idemp_l by lia.
    rewrite EB at 1. rewrite (Z.mul_comm (2 ^ (16 - d)) (2 ^ d)), Z.mul_mod_distr_r by lia.
    rewrite Z.shiftr_div_pow2, lor_add_shift by (done || lia).
    unfold wrap. change (2 ^ 16) with B.
    replace (A mod 2 ^ d * 2 ^ (16 - d)) with ((A * 2 ^ (16 - d)) mod B)
      by (rewrite EB, (Z.mul_comm (2 ^ (16 - d)) (2 ^ d)); by rewrite Z.mul_mod_distr_r by lia).
    rewrite Zplus_mod_idemp_r. f_equal. lia.
  - rewrite EB, <-Z.div_div by lia. rewrite Z.add_comm, Z.div_add by lia.
    by rewrite (Z.div_small (x / 2 ^ d)) by lia.
Qed.

Lemma shift_right_spec d p y k : 0 < d < 16 -> uint 16 y -> forall r s, length r = k -> digits r ->
  exists r',
    shift_right (p ++ (Some <$> y :: r) ++ s) (length p + k) k d
    = Ok (p ++ (Some <$> y :: r') ++ s, length p)
    /\ length r' = k /\ digits r' /\ val r' = (val (y :: r) / 2 ^ d) mod B ^ Z.of_nat k.
Proof.
  intros Hd Hy. induction k as [|k IH]; intros r s Hr Hdr.
  - apply nil_length_inv in Hr as ->. exists []. rewrite Nat.add_0_r.
    split_and!; [done|done|constructor|]. by rewrite Z.mod_1_r.
  - apply length_snoc_inv in Hr as (r0 & x & -> & Hr). apply digits_snoc in Hdr as [Hdr Hx].
    assert (exists a l, y :: r0 = l ++ [a] /\ length l = k) as (a & l & El & Hll).
    { destruct (length_snoc_inv (y :: r0) k) as (l & a & ? & ?); [cbn; lia|eauto]. }
    assert (digits (l ++ [a])) as Hdl by (rewrite <-El; by apply digits_cons).
    pose proof (val_range _ Hdl) as HA. apply digits_snoc in Hdl as [_ Ha].
    cbn [shift_right]. rewrite app_comm_cons, El.
    assert (((l ++ [a]) ++ [x]) !! S k = Some x) as Hxk
      by (apply list_lookup_middle; rewrite length_app; cbn; lia).
    assert (((l ++ [a]) ++ [x]) !! k = Some a) as Hak
      by (rewrite <-app_assoc; by apply list_lookup_middle).
    rewrite (rd_seg p s _ (S k) x (length p + S k)) by (done || lia). cbn [mbind res_bind].
    rewrite (rd_seg p s _ k a (length p + S k - 1)) by (done || lia).
    cbn [mbind res_bind]. rewrite seg_snoc.
    rewrite wr_at by (rewrite length_app, length_fmap, length_app; cbn; lia).
    cbn [mbind res_bind].
    assert (a = val (l ++ [a]) mod B) as Eam.
    { rewrite val_snoc, Z.add_comm, Z_mod_plus_full. symmetry. apply Z.mod_small, Ha. }
    assert (0 <= val (l ++ [a])) as HA0 by lia.
    destruct (shift_digit (val (l ++ [a])) x d HA0 Hx Hd) as [E1 E2].
    rewrite <-Eam in E1. rewrite E1.
    rewrite <-El in *. rewrite <-app_assoc.
    replace (length p + S k - 1)%nat with (length p + k)%nat by lia.
    set (x' := ((val (y :: r0) * B + x) / 2 ^ d) mod B) in *.
    destruct (IH r0 (Some x' :: s) Hr Hdr) as (r' & E & Hr' & Hdr' & Ev).
    rewrite E. exists (r' ++ [x']).
    split_and!; [by rewrite app_comm_cons, seg_snoc, <-app_assoc|rewrite length_app; cbn; lia|
      apply digits_snoc; split; [done|apply mod_B_digit]|].
    rewrite !val_snoc, Ev, B_succ, Z.rem_mul_r by (done || apply B_pos).
    rewrite E2. fold x'. lia.
Qed.

(** ** Division by one digit *)

Lemma short_digit r x t : uint 16 x -> uint 16 t -> 0 <= r < t ->
  COMBINE r x = r * B + x /\ uint 16 (COMBINE r x / t) /\ 0 <= COMBINE r x mod t < t
  /\ r * B + x = t * digit (COMBINE r x / t) + COMBINE r x mod t.
Proof.
  intros Hx Ht Hr. rewrite COMBINE_val by (unfold uint in *; lia).
  assert (uint 16 ((r * B + x) / t)).
  { unfold uint, B, HALF_BITS in *. split; [apply Z.div_pos; lia|].
    apply Z.div_lt_upper_bound; nia. }
  rewrite wrap_id by done. split_and!; [done|done|apply Z.mod_pos_bound; lia..|].
  apply Z.div_mod. lia.
Qed.

Lemma divide_short_spec l t : digits l -> length l = 4%nat -> uint 16 t -> t <> 0 ->
  divide_short (Some <$> 0 :: l) t = Ok (val l / t, val l mod t).
Proof.
  intros Hd Hl Ht Ht0. destruct l as [|a [|b [|c [|e [|]]]]]; try done.
  rewrite !digits_cons in Hd. destruct Hd as (Ha & Hb & Hc & He & _).
  unfold divide_short. cbn [fmap list_fmap rd lookup list_lookup mjoin option_join deref mbind res_bind].
  assert (0 <= 0 < t) as H0 by (unfold uint in Ht; lia).
  destruct (short_digit 0 a t Ha Ht H0) as (_ & _ & _ & E1).
  assert (COMBINE 0 a = a) as E0 by (rewrite COMBINE_val by (done || split; done); lia).
  rewrite E0 in E1.
  assert (0 <= a mod t < t) as H1 by (apply Z.mod_pos_bound; lia).
  destruct (short_digit _ b t Hb Ht H1) as (_ & _ & H2 & E2).
  destruct (short_digit _ c t Hc Ht H2) as (_ & _ & H3 & E3).
  destruct (short_digit _ e t He Ht H3) as (_ & _ & H4 & E4).
  set (r4 := COMBINE _ e mod t) in *. set (q4 := digit (COMBINE _ e / t)) in *.
  set (r3 := COMBINE _ c mod t) in *. set (q3 := digit (COMBINE _ c / t)) in *.
  set (r2 := COMBINE _ b mod t) in *. set (q2 := digit (COMBINE _ b / t)) in *.
  set (r1 := a mod t) in *. set (q1 := digit (a / t)) in *.
  assert (val [a; b; c; e] = t * val [q1; q2; q3; q4] + r4) as E.
  { unfold val. cbn [fold_left]. lia. }
  rewrite !COMBINE_val by (by apply wrap_range).
  assert (quad_of (Uu (q1 * B + q2) (q3 * B + q4)) = val [q1; q2; q3; q4]) as ->.
  { unfold quad_of, val, B, HALF_BITS. cbn [fold_left ul_H ul_L]. lia. }
  f_equal. f_equal; [by apply Z.div_unique with r4; [left|]|by apply Z.mod_unique with (val [q1; q2; q3; q4]); [left|]].
Qed.

Lemma quad_of_cells_spec l c : digits l -> length l = 4%nat ->
  quad_of_cells (c :: (Some <$> l)) = Ok (val l).
Proof.
  intros Hd Hl. destruct l as [|x1 [|x2 [|x3 [|x4 [|]]]]]; try done.
  rewrite !digits_cons in Hd. destruct Hd as (H1 & H2 & H3 & H4 & _).
  unfold quad_of_cells.
  cbn [fmap list_fmap rd lookup list_lookup mjoin option_join deref mbind res_bind].
  rewrite !COMBINE_val by done. f_equal.
  unfold quad_of, val, B, HALF_BITS. cbn [fold_left ul_H ul_L]. lia.
Qed.

(** ** Leading zeros of the divisor *)

Lemma leading_spec l : digits l -> length l = 4%nat -> val l <> 0 ->
  (exists o v1 v2 vs, leading (None :: (Some <$> l)) 0 4 = Ok (inl (o, S (S (length vs))))
     /\ l = replicate o 0 ++ v1 :: v2 :: vs /\ v1 <> 0)
  \/ (exists t, leading (None :: (Some <$> l)) 0 4 = Ok (inr 2%nat)
     /\ l = [0; 0; 0; t] /\ t <> 0).
Proof.
  intros Hd Hl Hv. destruct l as [|a [|b [|c [|e [|]]]]]; try done.
  destruct (decide (a = 0)) as [->|Ha]; [destruct (decide (b = 0)) as [->|Hb];
    [destruct (decide (c = 0)) as [->|Hc]|]|].
  - right. exists e. split_and!; [done|done|]. unfold val in Hv. cbn in Hv. lia.
  - left. exists 2%nat, c, e, []. split_and!; [|done|done].
    apply Z.eqb_neq in Hc. cbn. by rewrite Hc.
  - left. exists 1%nat, b, c, [e]. split_and!; [|done|done].
    apply Z.eqb_neq in Hb. cbn. by rewrite Hb.
  - left. exists 0%nat, a, b, [c; e]. split_and!; [|done|done].
    apply Z.eqb_neq in Ha. cbn. by rewrite Ha.
Qed.

(** ** Scaling by [2^d] (steps D1 and D8) *)

Lemma scale_spec p s c l d : digits (c :: l) -> 0 <= d < 16 ->
  val (c :: l) * 2 ^ d < B ^ Z.of_nat (S (length l)) ->
  exists l', (if 0 <? d then shl (p ++ (Some <$> c :: l) ++ s) (length p) (length l) d
              else Ok (p ++ (Some <$> c :: l) ++ s)) = Ok (p ++ (Some <$> l') ++ s)
    /\ length l' = S (length l) /\ digits l' /\ val l' = val (c :: l) * 2 ^ d.
Proof.
  intros Hd Hd' Hlt. destruct (0 <? d) eqn:E; zbool.
  - destruct (shl_spec p s c l (length p) d Hd eq_refl) as (l' & E' & Hl & Hdl & Hv); [lia|].
    exists l'. split_and!; [done|done|done|]. rewrite Hv. apply Z.mod_small.
    pose proof (val_range _ Hd). lia.
  - assert (d = 0) as -> by lia. exists (c :: l). split_and!; [done|done|done|].
    change (2 ^ 0) with 1. lia.
Qed.

Lemma unnormalize_spec p s zs r d uo m n : length p = uo -> zs = replicate m 0 ->
  length r = n -> digits r -> 0 <= d < 16 ->
  exists r', unnormalize (p ++ (Some <$> zs ++ 0 :: r) ++ s) uo m n d
             = Ok (p ++ (Some <$> zs ++ 0 :: r') ++ s)
    /\ length r' = n /\ digits r' /\ val r' = val r / 2 ^ d.
Proof.
  intros Hp -> Hr Hdr Hd. unfold unnormalize. destruct (d =? 0) eqn:E; zbool.
  - subst d. exists r. split_and!; [done..|]. change (2 ^ 0) with 1. by rewrite Z.div_1_r.
  - assert (uint 16 0) as H0 by done.
    destruct (shift_right_spec d (p ++ (Some <$> replicate m 0)) 0 n ltac:(lia) H0 r s Hr Hdr)
      as (r' & Es & Hr' & Hdr' & Ev).
    rewrite fmap_app, <-app_assoc, app_assoc.
    rewrite length_app, length_fmap, length_replicate, Hp in Es.
    rewrite Nat.add_assoc. rewrite Es. cbn [mbind res_bind].
    rewrite seg_cons, wr_at by (rewrite length_app, length_fmap, length_replicate; lia).
    exists r'. split_and!; [|done|done|].
    + f_equal. by rewrite fmap_app, <-!app_assoc.
    + rewrite Ev, val_cons, Z.mul_0_l, Z.add_0_l. pose proof (val_range _ Hdr) as Hv.
      rewrite Hr in Hv. apply Z.mod_small. split; [apply Z.div_pos; lia|].
      apply Z.div_lt_upper_bound; [lia|]. assert (1 <= 2 ^ d) by lia. nia.
Qed.

(** The scaled divisor: its first digit is at least [B / 2]. *)
Lemma scaled_divisor v1 vs d : digits (v1 :: vs) -> 0 <= d < 16 ->
  B / 2 <= v1 * 2 ^ d < B ->
  val (v1 :: vs) * 2 ^ d < B ^ Z.of_nat (S (length vs))
  /\ B ^ Z.of_nat (S (length vs)) <= 2 * (val (v1 :: vs) * 2 ^ d).
Proof.
  intros Hd Hd' [H1 H2]. rewrite val_cons, B_succ.
  apply digits_cons in Hd as [Hv1 Hdv]. pose proof (val_range _ Hdv) as Hv.
  set (P := B ^ Z.of_nat (length vs)) in *.
  assert (B = 2 ^ (16 - d) * 2 ^ d) as EB
    by (unfold B, HALF_BITS; rewrite <-Z.pow_add_r by lia; f_equal; lia).
  assert (0 < 2 ^ d) by lia. split.
  - assert (v1 < 2 ^ (16 - d)) by nia. assert ((v1 + 1) * 2 ^ d <= B) by nia. nia.
  - change (B / 2) with 32768 in H1. assert (B <= 2 * (v1 * 2 ^ d)) by (change B with 65536; lia).
    nia.
Qed.

Lemma first_digit v1 vs n : digits (v1 :: vs) -> length vs = n ->
  B ^ Z.of_nat (S n) <= 2 * val (v1 :: vs) -> B <= 2 * v1.
Proof.
  intros Hd Hl Hv. rewrite val_cons, B_succ, Hl in Hv.
  apply digits_cons in Hd as [Hv1 Hdv]. pose proof (val_range _ Hdv) as Hr. rewrite Hl in Hr.
  set (P := B ^ Z.of_nat n) in *. assert (0 < P) by apply B_pos.
  assert (B < 2 * v1 + 2) by nia. unfold B, HALF_BITS in *. change (2 ^ 16) with 65536 in *. lia.
Qed.

(** ** Algorithm D *)

(** The digits of the dividend that reach the first quotient digit. *)
Lemma first_window w0 ws rest d V U n : digits (w0 :: ws ++ rest) -> length ws = n ->
  val (w0 :: ws ++ rest) = U * 2 ^ d -> U < B ^ Z.of_nat (length rest + n) -> 0 <= d < 16 ->
  B ^ Z.of_nat n <= 2 * V -> val (w0 :: ws) < V * B.
Proof.
  intros Hd Hl Hv HU Hd' HV. rewrite app_comm_cons, val_app in Hv.
  rewrite app_comm_cons, digits_app in Hd. destruct Hd as [_ Hr].
  pose proof (val_range _ Hr) as Hrr. rewrite Nat2Z.inj_add, Z.pow_add_r in HU by lia.
  pose proof (B_pos (length rest)). set (R := B ^ Z.of_nat (length rest)) in *.
  assert (2 * 2 ^ d <= B) as Hd2.
  { unfold B, HALF_BITS. rewrite <-(Z.pow_succ_r 2 d) by lia. apply Z.pow_le_mono_r; lia. }
  assert (val (w0 :: ws) * R < B ^ Z.of_nat n * 2 ^ d * R) as H1 by nia.
  apply Z.mul_lt_mono_pos_r in H1; [|done]. nia.
Qed.

(** Undoing the scaling. *)
Lemma unscale U Vq k q r : 0 < k -> 0 < Vq -> 0 <= r < Vq * k -> U * k = q * (Vq * k) + r ->
  U / Vq = q /\ U mod Vq = r / k.
Proof.
  intros Hk HV Hr E. assert (r = (U - q * Vq) * k) as -> by lia.
  rewrite Z.div_mul by lia. assert (0 <= U - q * Vq < Vq) by nia.
  split; [symmetry; apply Z.div_unique with (U - q * Vq); [by left|lia]|].
  symmetry. apply Z.mod_unique with q; [by left|lia].
Qed.

(** From the scaled operands to the end of the routine. *)
Lemma divide_tail z o m n d lu lv pv U Vq :
  length lu = S (m + n) -> length lv = n -> (2 <= n)%nat -> (z + m + n = 4)%nat ->
  length pv = S o -> digits lu -> digits lv -> 0 <= d < 16 ->
  val lu = U * 2 ^ d -> val lv = Vq * 2 ^ d -> 0 <= U < B ^ Z.of_nat (m + n) -> 0 < Vq ->
  B ^ Z.of_nat n <= 2 * (Vq * 2 ^ d) ->
  let v := pv ++ (Some <$> lv) ++ [] in
  (v1 ← rd v (o + 1);
   v2 ← rd v (o + 2);
   '(u, q) ← divide_loop (replicate z (Some 0) ++ (Some <$> lu) ++ []) v
     (replicate (4 - m) (Some 0) ++ replicate (S m) None) z o (4 - m) n v1 v2 m;
   u ← unnormalize u z m n d;
   r ← quad_of_cells u;
   q ← quad_of_cells q;
   Ok (q, r)) = Ok (U / Vq, U mod Vq).
Proof.
  intros Hlu Hlv Hn Hz Hpv Hdu Hdv Hd Hvu Hvv HU HVq HV v. unfold v. clear v.
  destruct lv as [|v1 [|v2 vs]]; [cbn in Hlv; lia..|].
  rewrite (rd_seg _ _ _ 0 v1 (o + 1)), (rd_seg _ _ _ 1 v2 (o + 2)) by (done || lia).
  cbn [mbind res_bind].
  destruct lu as [|w0 lu]; [done|]. rewrite <-(take_drop n lu) in Hvu, Hdu |- *.
  assert (length (take n lu) = n) as Hlt by (rewrite length_take; cbn in Hlu; lia).
  assert (length (drop n lu) = m) as Hld by (rewrite length_drop; cbn in Hlu; lia).
  rewrite <-Hld in HU.
  assert (B <= 2 * v1) as Hnorm.
  { apply (first_digit v1 (v2 :: vs) (n - 1)); [done|cbn in *; lia|].
    replace (S (n - 1)) with n by lia. by rewrite Hvv. }
  pose proof (first_window _ _ _ _ _ _ n Hdu Hlt Hvu (proj2 HU) Hd HV) as Hw. rewrite <-Hvv in Hw.
  destruct (divide_loop_spec v1 v2 vs pv [] o n Hdv Hnorm ltac:(cbn in Hlv; lia) Hpv
    (replicate m None) (drop n lu) (replicate z (Some 0)) [] z (4 - m)%nat
    (replicate (4 - m) (Some 0)) w0 (take n lu)) with (c := None (A := Z))
    as (qn & r & E & Hqn & Hdq & Hr & Hdr & Ev & Hlt');
    [apply length_replicate|done|done|done|apply length_replicate|by rewrite length_replicate|].
  rewrite Hld in E, Hqn. change (None :: replicate m None) with (replicate (S m) (None (A := Z))) in E.
  rewrite E. cbn [mbind res_bind]. clear E.
  destruct (unnormalize_spec (replicate z (Some 0)) [] (replicate m 0) r d z m n)
    as (r' & E & Hr' & Hdr' & Evr); [apply length_replicate|done..|].
  rewrite replicate_S_end, <-app_assoc. cbn [app]. rewrite E. cbn [mbind res_bind]. clear E.
  pose proof (val_range _ Hdr) as Hrr. rewrite Hvu, Hvv in Ev. rewrite Hvv in Hlt'.
  destruct (unscale U Vq (2 ^ d) (val qn) (val r)) as [-> ->]; [lia|done|lia|done|].
  assert (forall k (l : list Z), replicate k (Some 0) ++ (Some <$> l) = Some <$> replicate k 0 ++ l)
    as Hrep by (intros; by rewrite fmap_app, fmap_replicate).
  rewrite app_nil_r, !Hrep.
  assert (forall k (l : list Z), digits l -> (k + length l = 4)%nat ->
    quad_of_cells (Some <$> replicate (S k) 0 ++ l) = Ok (val l)) as Hq.
  { intros k l' Hdl Hl'. cbn [replicate app fmap list_fmap].
    rewrite <-(val_zeros k l'). apply quad_of_cells_spec; [|by rewrite length_app, length_replicate].
    apply digits_app. split; [|done]. apply Forall_replicate. done. }
  assert (replicate z 0 ++ replicate m 0 ++ 0 :: r' = replicate (S (z + m)) 0 ++ r') as ->.
  { rewrite replicate_S_end, replicate_add, <-!app_assoc. done. }
  rewrite Hq by (done || lia). cbn [mbind res_bind].
  replace (4 - m)%nat with (S (3 - m)) by lia. rewrite Hq by (done || lia). cbn [mbind res_bind].
  by rewrite Evr.
Qed.

Lemma divide_long_spec z x l o v1 v2 vs :
  digits (x :: l) -> digits (v1 :: v2 :: vs) -> x <> 0 -> v1 <> 0 ->
  (z + S (length l) = 4)%nat -> (o + S (S (length vs)) = 4)%nat ->
  val (v1 :: v2 :: vs) <= val (x :: l) ->
  divide_long (Some <$> 0 :: replicate z 0 ++ x :: l)
    (None :: (Some <$> replicate o 0 ++ v1 :: v2 :: vs)) (replicate 5 None) o (S (S (length vs)))
  = Ok (val (x :: l) / val (v1 :: v2 :: vs), val (x :: l) mod val (v1 :: v2 :: vs)).
Proof.
  intros Hdu Hdv Hx Hv1 Hz Ho Hle. set (n := S (S (length vs))) in *.
  set (U := val (x :: l)) in *. set (Vq := val (v1 :: v2 :: vs)) in *.
  (* the dividend has at least as many digits as the divisor *)
  pose proof (val_range _ Hdu) as HU. cbn [length] in HU.
  assert (B ^ Z.of_nat (S (length vs)) <= Vq) as HVlow.
  { unfold Vq. rewrite val_cons. cbn [length].
    pose proof Hdv as H. apply digits_cons in H as [H1 H2]. apply val_range in H2.
    pose proof (B_pos (S (length vs))). unfold uint in H1. nia. }
  assert (n <= S (length l))%nat as Hnl.
  { destruct (decide (n <= S (length l))%nat); [done|exfalso].
    assert (B ^ Z.of_nat (S (length l)) <= B ^ Z.of_nat (S (length vs))); [|lia].
    apply Z.pow_le_mono_r; [done|lia]. }
  set (m := (S (length l) - n)%nat). assert (S (length l) = m + n)%nat as Hmn by lia.
  (* the loops before the division *)
  unfold divide_long.
  change (Some <$> 0 :: replicate z 0 ++ x :: l)
    with ([] ++ Some 0 :: (Some <$> replicate z 0 ++ x :: l)).
  rewrite <-(app_nil_r (Some <$> replicate z 0 ++ x :: l)).
  rewrite (skip_zeros_spec [] x l z Hx 5 [] (Some 0)) by lia.
  cbn [mbind res_bind length app Nat.add].
  replace (Z.to_nat (4 - Z.of_nat n - Z.of_nat z)) with m by lia.
  rewrite zero_cells_spec by (rewrite length_replicate; lia). cbn [mbind res_bind].
  assert (None :: (Some <$> replicate o 0 ++ v1 :: v2 :: vs)
    = (None :: replicate o (Some 0)) ++ (Some <$> v1 :: v2 :: vs) ++ []) as ->
    by (by rewrite fmap_app, fmap_replicate, app_nil_r).
  assert (length (None :: replicate o (Some 0)) = (o + 1)%nat) as Hpv
    by (cbn; rewrite length_replicate; lia).
  rewrite (rd_seg _ _ _ 0 v1 (o + 1)) by (done || lia). cbn [mbind res_bind].
  assert (0 < v1 < B) as Hv1r
    by (apply digits_cons in Hdv as [H _]; unfold uint in H; change (2 ^ 16) with B in H; lia).
  destruct (normalize_spec v1 15 0) as (d & En & Hd & Hnorm);
    [lia|lia|change (2 ^ 0) with 1; lia|change (B / 2) with 32768; change (2 ^ (0 + Z.of_nat 15)) with 32768; lia|].
  change (2 ^ 0) with 1 in En. rewrite Z.mul_1_r in En. rewrite En. cbn [mbind res_bind].
  assert (0 <= d < 16) as Hd' by lia.
  (* scaling *)
  assert (Some 0 :: (Some <$> replicate z 0 ++ x :: l) ++ []
    = replicate z (Some 0) ++ (Some <$> 0 :: x :: l) ++ []) as ->.
  { rewrite fmap_app, fmap_replicate, <-app_assoc.
    change (Some 0 :: replicate z (Some 0) ++ (Some <$> x :: l) ++ [])
      with (replicate (S z) (Some 0) ++ (Some <$> x :: l) ++ []).
    rewrite replicate_S_end, <-app_assoc. done. }
  destruct (scaled_divisor v1 (v2 :: vs) d Hdv Hd' Hnorm) as [HV1 HV2].
  change (S (length (v2 :: vs))) with n in HV1, HV2. fold Vq in HV1, HV2.
  assert (digits (0 :: x :: l)) as Hd0 by (by apply digits_cons).
  assert (2 ^ d <= B) as HdB
    by (unfold B, HALF_BITS; apply Z.pow_le_mono_r; lia).
  destruct (scale_spec (replicate z (Some 0)) [] 0 (x :: l) d Hd0 Hd') as (lu & Eu & Hlu & Hdlu & Hvu).
  { rewrite val_cons, Z.mul_0_l, Z.add_0_l, B_succ. cbn [length]. fold U. nia. }
  rewrite length_replicate in Eu. cbn [length] in Eu, Hlu. rewrite Hmn in Eu.
  rewrite Eu. cbn [mbind res_bind]. clear Eu.
  destruct (scale_spec (None :: replicate o (Some 0)) [] v1 (v2 :: vs) d Hdv Hd')
    as (lv & Ev & Hlv & Hdlv & Hvv); [exact HV1|].
  rewrite Hpv in Ev. change (length (v2 :: vs)) with (n - 1)%nat in Ev. rewrite Ev.
  cbn [mbind res_bind]. clear Ev. fold Vq in Hvv.
  replace (drop (4 - m) (replicate 5 None)) with (replicate (S m) (None (A := Z)))
    by (rewrite drop_replicate; f_equal; lia).
  rewrite Hmn in HU. pose proof (B_pos (S (length vs))).
  apply (divide_tail z o m n d lu lv); try done; try lia.
Qed.

Lemma qdivrem_divides u v : uint 64 u -> uint 64 v -> v <> 0 ->
  qdivrem u v = Ok (u / v, u mod v).
Proof.
  intros Hu Hv Hv0. unfold qdivrem. rewrite (proj2 (Z.eqb_neq _ _) Hv0).
  destruct (u <? v) eqn:E; zbool.
  { unfold uint in Hu. by rewrite Z.div_small, Z.mod_small by lia. }
  destruct (digits_of_val u Hu) as [Eu Hdu], (digits_of_val v Hv) as [Ev Hdv].
  destruct (leading_spec (digits_of v) Hdv eq_refl) as
    [(o & v1 & v2 & vs & -> & El & Hv1)|(t & -> & El & Ht)]; [by rewrite Ev| |].
  - cbn [mbind res_bind].
    destruct (leading_zeros (digits_of u)) as (z & x & l & Elu & Hx); [unfold uint in *; lia|].
    assert (length (digits_of u) = 4%nat /\ length (digits_of v) = 4%nat) as [Hlu Hlv] by done.
    rewrite Elu in Eu, Hdu, Hlu |- *. rewrite El in Ev, Hdv, Hlv |- *.
    rewrite val_zeros in Eu, Ev. rewrite length_app, length_replicate in Hlu, Hlv.
    rewrite digits_app in Hdu, Hdv. rewrite divide_long_spec by (tauto || done || lia).
    by rewrite Eu, Ev.
  - cbn [mbind res_bind]. rewrite El.
    rewrite El in Ev, Hdv. rewrite !digits_cons in Hdv.
    change (rd (None :: (Some <$> [0; 0; 0; t])) (2 + 2)) with (Ok t). cbn [mbind res_bind].
    rewrite divide_short_spec by (tauto || done). rewrite Eu.
    assert (t = v) as -> by (rewrite <-Ev; unfold val; cbn; lia). done.
Qed.

(** ** Signed division *)

(** [if (a < 0) ua = -ua, neg ^= 1] gives the absolute value. *)
Lemma magnitude a n : uint 64 a ->
  (if s64 a <? 0 then (u64 (- a), negb n) else (a, n)) = (Z.abs (s64 a), xorb n (s64 a <? 0))
  /\ uint 64 (Z.abs (s64 a)).
Proof.
  intros Ha. pose proof (sgn_range 64 a eq_refl) as Hr. change (64 - 1) with 63 in Hr.
  split; [|unfold uint; lia]. pose proof (sgn_wrap 64 a) as Ew. rewrite (wrap_id 64 a) in Ew by done.
  destruct (s64 a <? 0) eqn:E; zbool.
  - rewrite xorb_true_r. f_equal. rewrite <-Ew at 1.
    replace (u64 (- u64 (s64 a))) with (u64 (- s64 a)).
    + rewrite wrap_id; [lia|unfold uint; lia].
    + change (eqw 64 (- s64 a) (- u64 (s64 a))). by rewrite eqw_wrap.
  - rewrite xorb_false_r. f_equal. rewrite Z.abs_eq by lia. rewrite <-Ew at 1.
    apply wrap_id. unfold uint. lia.
Qed.

Lemma sgn_ext w x y : wrap w x = wrap w y -> sgn w x = sgn w y.
Proof. unfold sgn. by intros ->. Qed.

Lemma divdi3_quot a b : uint 64 a -> uint 64 b -> b <> 0 ->
  exists q, divdi3 a b = Ok q /\ uint 64 q /\ s64 q = s64 (Z.quot (s64 a) (s64 b)).
Proof.
  intros Ha Hb Hb0. unfold divdi3.
  destruct (magnitude a false Ha) as [E1 H1]. cbn [negb] in E1. rewrite E1. cbv beta iota.
  destruct (magnitude b (xorb false (s64 a <? 0)) Hb) as [E2 H2]. rewrite E2. cbv beta iota.
  assert (s64 b <> 0) as Hsb.
  { intros E. apply Hb0. rewrite <-(wrap_id 64 b Hb), <-(sgn_wrap 64 b), E. done. }
  rewrite qdivrem_divides by (done || lia). cbn [mbind res_bind].
  assert (uint 64 (Z.abs (s64 a) / Z.abs (s64 b))) as Hq.
  { unfold uint in *. split; [apply Z.div_pos; lia|]. apply Z.div_lt_upper_bound; nia. }
  clear E1 E2. eexists. split; [reflexivity|]. rewrite xorb_false_l.
  split; [destruct (xorb _ _); [by apply wrap_range|done]|].
  rewrite Z.quot_div by done. apply sgn_ext.
  remember (Z.abs (s64 a) / Z.abs (s64 b)) as q eqn:Eq.
  assert (s64 a = 0 -> q = 0) as Hz by (intros Ez; subst q; rewrite Ez; apply Z.div_0_l; lia).
  clear Eq.
  destruct (Z.ltb_spec (s64 a) 0), (Z.ltb_spec (s64 b) 0); cbn [xorb]; rewrite ?wrap_wrap; f_equal;
    rewrite ?(Z.sgn_neg (s64 a)), ?(Z.sgn_neg (s64 b)), ?(Z.sgn_pos (s64 b)) by lia; try lia.
  all: destruct (decide (s64 a = 0)) as [E|];
    [rewrite Hz by done; lia|rewrite (Z.sgn_pos (s64 a)) by lia; lia].
Qed.

Lemma moddi3_rem a b : uint 64 a -> uint 64 b -> b <> 0 ->
  exists r, moddi3 a b = Ok r /\ uint 64 r /\ s64 r = Z.rem (s64 a) (s64 b).
Proof.
  intros Ha Hb Hb0. unfold moddi3.
  destruct (magnitude a false Ha) as [E1 H1]. cbn [negb] in E1. rewrite E1. cbv beta iota.
  destruct (magnitude b true Hb) as [E2 H2].
  assert ((if s64 b <? 0 then u64 (- b) else b) = Z.abs (s64 b)) as ->
    by (destruct (s64 b <? 0); by injection E2).
  assert (s64 b <> 0) as Hsb.
  { intros E. apply Hb0. rewrite <-(wrap_id 64 b Hb), <-(sgn_wrap 64 b), E. done. }
  rewrite qdivrem_divides by (done || lia). cbn [mbind res_bind].
  pose proof (Z.mod_pos_bound (Z.abs (s64 a)) (Z.abs (s64 b)) ltac:(lia)) as Hm.
  pose proof (sgn_range 64 b eq_refl) as Hr. change (64 - 1) with 63 in Hr.
  eexists. split; [reflexivity|]. rewrite xorb_false_l.
  split; [destruct (s64 a <? 0); [by apply wrap_range|unfold uint; lia]|].
  rewrite Z.rem_mod by done. remember (Z.abs (s64 a) mod Z.abs (s64 b)) as r eqn:Er.
  assert (s64 a = 0 -> r = 0) as Hz by (intros Ez; subst r; rewrite Ez; apply Z.mod_0_l; lia).
  transitivity (s64 (Z.sgn (s64 a) * r)); [|apply sgn_id; [done|change (64 - 1) with 63; nia]].
  apply sgn_ext. destruct (Z.ltb_spec (s64 a) 0).
  - rewrite wrap_wrap. rewrite Z.sgn_neg by done. f_equal; lia.
  - destruct (decide (s64 a = 0)) as [E|]; [by rewrite Hz, E by done|].
    rewrite Z.sgn_pos by lia. f_equal; lia.
Qed.

(** ** The division routines are division *)

(** Algorithm D never leaves its digit arrays nor runs out of its loop
    bounds: for every non-zero divisor it returns quotient and remainder, and
    division by zero traps. *)
Theorem qdivrem_correct u v (Hu : uint 64 u) (Hv : uint 64 v) :
  qdivrem u v = (if decide (v = 0) then Fault else Ok (u / v, u mod v))
  /\ udivdi3 u v = (if decide (v = 0) then Fault else Ok (u / v))
  /\ umoddi3 u v = (if decide (v = 0) then Fault else Ok (u mod v)).
Proof.
  unfold udivdi3, umoddi3. destruct (decide (v = 0)) as [->|Hv0]; [done|].
  by rewrite qdivrem_divides.
Qed.

Theorem qdivrem_correct_witness :
  qdivrem 0x7FFF800000000000 0x800000000001 = Ok (0xFFFE, 0x7FFFFFFF0002)
  /\ udivdi3 0x7FFF800000000000 0x800000000001 = Ok 0xFFFE
  /\ umoddi3 0x7FFF800000000000 0x800000000001 = Ok 0x7FFFFFFF0002.
Proof.
  apply (qdivrem_correct 0x7FFF800000000000 0x800000000001); split; done.
Defined.

(** Signed division truncates towards zero and the remainder has the sign
    of the dividend; the only quotient that does not fit, the minimum divided
    by -1, wraps. *)
Theorem divdi3_correct a b (Ha : uint 64 a) (Hb : uint 64 b) (Hb0 : b <> 0) :
  (exists q, divdi3 a b = Ok q /\ uint 64 q /\ s64 q = s64 (Z.quot (s64 a) (s64 b)))
  /\ (exists r, moddi3 a b = Ok r /\ uint 64 r /\ s64 r = Z.rem (s64 a) (s64 b)).
Proof. split; [by apply divdi3_quot|by apply moddi3_rem]. Qed.

Theorem divdi3_correct_witness :
  (exists q, divdi3 (2 ^ 64 - 7) 2 = Ok q /\ uint 64 q /\ s64 q = s64 (Z.quot (s64 (2 ^ 64 - 7)) (s64 2)))
  /\ (exists r, moddi3 (2 ^ 64 - 7) 2 = Ok r /\ uint 64 r /\ s64 r = Z.rem (s64 (2 ^ 64 - 7)) (s64 2)).
Proof. apply divdi3_correct; [split; done|split; done|done]. Defined.

(** 64-bit division by Algorithm D.  It never leaves its digit arrays nor
    runs out of its loop bounds: for every non-zero divisor it returns quotient
    and remainder, and division by zero traps.  Signed division truncates
    towards zero and the remainder has the sign of the dividend; the only
    quotient that does not fit, the minimum divided by -1, wraps. *)
Lemma division_correct u v (Hu : uint 64 u) (Hv : uint 64 v) :
  (qdivrem u v = (if decide (v = 0) then Fault else Ok (u / v, u mod v))
   /\ udivdi3 u v = (if decide (v = 0) then Fault else Ok (u / v))
   /\ umoddi3 u v = (if decide (v = 0) then Fault else Ok (u mod v)))
  /\ (v <> 0 ->
      (exists q, divdi3 u v = Ok q /\ uint 64 q /\ s64 q = s64 (Z.quot (s64 u) (s64 v)))
      /\ (exists r, moddi3 u v = Ok r /\ uint 64 r /\ s64 r = Z.rem (s64 u) (s64 v))).
Proof. split; [by apply qdivrem_correct|]. intros H. by apply divdi3_correct. Qed.
