(* ===== verification/UDivMod.v ===== *)
(** * Shift-and-subtract division (src/CLibrary/libcompiler_rt/udivmoddi4.c)

    [__udivmoddi4] sorts its operands by which of their words are zero, answers
    the special cases directly and otherwise runs a loop that shifts the pair
    [r:q] left one bit per round and subtracts the divisor without branching.
    [udwords] is [union uu] under another name.  [__builtin_clz] and
    [__builtin_ctz] count the leading and the trailing zeros of a non-zero
    word. *)

From S2P Require Import Prelude Words Quad.
From Stdlib Require Import ZArith Lia.
From stdpp Require Import prelude gmap list.

Open Scope Z_scope.

Definition n_uword_bits : Z := 32.
Definition n_udword_bits : Z := 64.

Definition clz (x : Z) : Z := 31 - Z.log2 x.

Fixpoint ctz_from (fuel : nat) (x : Z) : Z :=
  match fuel with
  | O => 0
  | S fuel' => if Z.odd x then 0 else 1 + ctz_from fuel' (x / 2)
  end.
Definition ctz (x : Z) : Z := ctz_from 32 x.

(** Unsigned 32-bit division; a zero divisor traps. *)
Definition udiv32 (x y : Z) : res Z := if y =? 0 then Fault else Ok (x / y).
Definition umod32 (x y : Z) : res Z := if y =? 0 then Fault else Ok (x mod y).

(** One round: [r:q] shifted left with the previous carry, then the divisor
    subtracted under the mask [s]. *)
Definition round (d : Z) (r q : uu) (carry : Z) : uu * uu * Z :=
  let r_high := Z.lor (wshl 32 (ul_H r) 1) (Z.shiftr (ul_L r) (n_uword_bits - 1)) in
  let r_low := Z.lor (wshl 32 (ul_L r) 1) (Z.shiftr (ul_H q) (n_uword_bits - 1)) in
  let q_high := Z.lor (wshl 32 (ul_H q) 1) (Z.shiftr (ul_L q) (n_uword_bits - 1)) in
  let q_low := Z.lor (wshl 32 (ul_L q) 1) carry in
  let r_all := quad_of (Uu r_high r_low) in
  let s := Z.shiftr (s64 (u64 (d - r_all - 1))) (n_udword_bits - 1) in
  let carry := Z.land s 1 in
  (uu_of (u64 (r_all - u64 (Z.land d s))), Uu q_high q_low, carry).

(** [for (; sr > 0; --sr)] *)
Fixpoint divide (sr : nat) (d : Z) (r q : uu) (carry : Z) : uu * uu * Z :=
  match sr with
  | O => (r, q, carry)
  | S sr' => let '(r, q, carry) := round d r q carry in divide sr' d r q carry
  end.

(** From the initialised [q], [r] and [sr] to the end of the routine. *)
Definition finish (d : Z) (q r : uu) (sr : Z) : res (Z * Z) :=
  let '(r, q, carry) := divide (Z.to_nat sr) d r q 0 in
  Ok (Z.lor (wshl 64 (quad_of q) 1) carry, quad_of r).

(** The three ways to set [q.all = n.all << (64 - sr)] and
    [r.all = n.all >> sr]. *)
Definition init_below (n : uu) (sr : Z) : uu * uu :=
  (Uu (wshl 32 (ul_L n) (n_uword_bits - sr)) 0,
   Uu (Z.shiftr (ul_H n) sr)
      (Z.lor (wshl 32 (ul_H n) (n_uword_bits - sr)) (Z.shiftr (ul_L n) sr))).
Definition init_at (n : uu) : uu * uu := (Uu (ul_L n) 0, Uu 0 (ul_H n)).
Definition init_above (n : uu) (sr : Z) : uu * uu :=
  (Uu (Z.lor (wshl 32 (ul_H n) (n_udword_bits - sr)) (Z.shiftr (ul_L n) (sr - n_uword_bits)))
      (wshl 32 (ul_L n) (n_udword_bits - sr)),
   Uu 0 (Z.shiftr (ul_H n) (sr - n_uword_bits))).

(** [d.s.low == 0]: [n.s.high != 0]. *)
Definition divide_low_zero (n d : uu) : res (Z * Z) :=
  if ul_H d =? 0 then r ← umod32 (ul_H n) (ul_L d); q ← udiv32 (ul_H n) (ul_L d); Ok (q, r)
  else if ul_L n =? 0 then
    r ← umod32 (ul_H n) (ul_H d); q ← udiv32 (ul_H n) (ul_H d); Ok (q, quad_of (Uu r 0))
  else if Z.land (ul_H d) (u32 (ul_H d - 1)) =? 0 then
    Ok (Z.shiftr (ul_H n) (ctz (ul_H d)),
        quad_of (Uu (Z.land (ul_H n) (u32 (ul_H d - 1))) (ul_L n)))
  else
    let sr := u32 (clz (ul_H d) - clz (ul_H n)) in
    if n_uword_bits - 2 <? sr then Ok (0, quad_of n)
    else
      let sr := u32 (sr + 1) in
      let '(q, r) := init_below n sr in
      finish (quad_of d) q r sr.

(** [d.s.low != 0] and [d.s.high == 0]. *)
Definition divide_high_zero (n d : uu) : res (Z * Z) :=
  if Z.land (ul_L d) (u32 (ul_L d - 1)) =? 0 then
    let rem := Z.land (ul_L n) (u32 (ul_L d - 1)) in
    if ul_L d =? 1 then Ok (quad_of n, rem)
    else
      let sr := ctz (ul_L d) in
      Ok (quad_of (Uu (Z.shiftr (ul_H n) sr)
            (Z.lor (wshl 32 (ul_H n) (n_uword_bits - sr)) (Z.shiftr (ul_L n) sr))), rem)
  else
    let sr := u32 (1 + n_uword_bits + clz (ul_L d) - clz (ul_H n)) in
    let '(q, r) :=
      if sr =? n_uword_bits then init_at n
      else if sr <? n_uword_bits then init_below n sr
      else init_above n sr in
    finish (quad_of d) q r sr.

(** Both words of [d] are non-zero. *)
Definition divide_both (n d : uu) : res (Z * Z) :=
  let sr := u32 (clz (ul_H d) - clz (ul_H n)) in
  if n_uword_bits - 1 <? sr then Ok (0, quad_of n)
  else
    let sr := u32 (sr + 1) in
    let '(q, r) := if sr =? n_uword_bits then init_at n else init_below n sr in
    finish (quad_of d) q r sr.

(** The quotient and the remainder stored through [rem]. *)
Definition udivmoddi4 (a b : Z) : res (Z * Z) :=
  let n := uu_of a in
  let d := uu_of b in
  if ul_H n =? 0 then
    if ul_H d =? 0 then r ← umod32 (ul_L n) (ul_L d); q ← udiv32 (ul_L n) (ul_L d); Ok (q, r)
    else Ok (0, ul_L n)
  else if ul_L d =? 0 then divide_low_zero n d
  else if ul_H d =? 0 then divide_high_zero n d
  else divide_both n d.

Example udivmoddi4_samples :
  ((fun '(a, b) => udivmoddi4 a b) <$>
    [(100, 7); (2 ^ 64 - 1, 3); (2 ^ 64 - 1, 2 ^ 33 + 5); (2 ^ 63, 2 ^ 48 - 1);
     (2 ^ 64 - 1, 2 ^ 63 + 1); (5 * 2 ^ 32, 3 * 2 ^ 32); (2 ^ 60 + 1, 2 ^ 40); (2 ^ 64 - 1, 1)])
  = (fun '(a, b) => Ok (a / b, a mod b)) <$>
    [(100, 7); (2 ^ 64 - 1, 3); (2 ^ 64 - 1, 2 ^ 33 + 5); (2 ^ 63, 2 ^ 48 - 1);
     (2 ^ 64 - 1, 2 ^ 63 + 1); (5 * 2 ^ 32, 3 * 2 ^ 32); (2 ^ 60 + 1, 2 ^ 40); (2 ^ 64 - 1, 1)].
Proof. vm_compute. reflexivity. Qed.

(** ** Counting zeros *)

Lemma ctz_pow k : forall fuel, (k < fuel)%nat -> ctz_from fuel (2 ^ Z.of_nat k) = Z.of_nat k.
Proof.
  induction k as [|k IH]; intros [|fuel] Hf; try lia; cbn [ctz_from]; [done|].
  rewrite Nat2Z.inj_succ, Z.pow_succ_r, Z.odd_mul by lia. change (Z.odd 2) with false.
  cbn [andb]. rewrite Z.mul_comm, Z.div_mul, IH by lia. lia.
Qed.

Lemma power_of_two x : uint 32 x -> x <> 0 -> Z.land x (u32 (x - 1)) = 0 ->
  exists k, 0 <= k < 32 /\ x = 2 ^ k /\ ctz x = k /\ u32 (x - 1) = 2 ^ k - 1.
Proof.
  intros Hx Hx0 Hl. rewrite wrap_id in * by (unfold uint in *; lia).
  destruct (Z.log2_spec x) as [H1 H2]; [unfold uint in Hx; lia|].
  pose proof (Z.log2_nonneg x). assert (Z.log2 x < 32).
  { apply Z.log2_lt_pow2; [unfold uint in Hx; lia|apply Hx]. }
  assert (x = 2 ^ Z.log2 x) as E.
  { destruct (decide (x = 2 ^ Z.log2 x)); [done|exfalso].
    assert (Z.log2 (x - 1) = Z.log2 x) as El by (apply Z.log2_unique; lia).
    assert (Z.testbit (Z.land x (x - 1)) (Z.log2 x) = true) as Eb.
    { rewrite Z.land_spec, Z.bit_log2 by lia. rewrite <-El. apply Z.bit_log2. lia. }
    by rewrite Hl, Z.bits_0 in Eb. }
  exists (Z.log2 x). split_and!; [done|done|done| |by rewrite <-E].
  unfold ctz. rewrite E at 1. rewrite <-(Z2Nat.id (Z.log2 x)) at 1 by done.
  rewrite ctz_pow by lia. lia.
Qed.

(** ** The loop *)

Lemma shift_in h l c : uint 32 h -> uint 32 l -> 0 <= c <= 1 ->
  quad_of (Uu (Z.lor (wshl 32 h 1) (Z.shiftr l 31)) (Z.lor (wshl 32 l 1) c))
  = u64 (2 * quad_of (Uu h l) + c)
  /\ uint 32 (Z.lor (wshl 32 h 1) (Z.shiftr l 31)) /\ uint 32 (Z.lor (wshl 32 l 1) c).
Proof.
  intros Hh Hl Hc.
  assert (forall x b, uint 32 x -> 0 <= b <= 1 ->
    Z.lor (wshl 32 x 1) b = b + x mod 2 ^ 31 * 2) as E.
  { intros x b Hx Hb. assert (wshl 32 x 1 = x mod 2 ^ 31 * 2 ^ 1) as ->.
    { unfold wshl. rewrite Z.shiftl_mul_pow2 by lia. unfold wrap.
      change (2 ^ 32) with (2 ^ 31 * 2 ^ 1). apply Z.mul_mod_distr_r; lia. }
    rewrite Z.lor_comm, (lor_add_shift b _ 1) by (unfold uint; lia). done. }
  rewrite Z.shiftr_div_pow2 by lia.
  assert (0 <= l / 2 ^ 31 <= 1) as Hb by (unfold uint in Hl; Z.div_mod_to_equations; lia).
  rewrite !E by done. unfold quad_of, wrap, uint in *. cbn [ul_H ul_L].
  split_and!; Z.div_mod_to_equations; lia.
Qed.

(** The sign of [d - r - 1] tells whether the divisor fits. *)
Lemma mask_spec d r : uint 64 d -> uint 64 r -> - 2 ^ 63 <= d - r - 1 < 2 ^ 63 ->
  let s := Z.shiftr (s64 (u64 (d - r - 1))) 63 in
  Z.land s 1 = (if d <=? r then 1 else 0)
  /\ u64 (r - u64 (Z.land d s)) = if d <=? r then r - d else r.
Proof.
  intros Hd Hr Hrange s. unfold s, sgn. rewrite wrap_wrap. fold (sgn 64 (d - r - 1)).
  rewrite sgn_id by done. rewrite Z.shiftr_div_pow2 by lia.
  destruct (d <=? r) eqn:E; zbool.
  - assert ((d - r - 1) / 2 ^ 63 = -1) as -> by (Z.div_mod_to_equations; lia).
    rewrite Z.land_m1_r. split; [done|]. rewrite (wrap_id 64 d) by done.
    apply wrap_id. unfold uint in *. lia.
  - rewrite Z.div_small by lia. rewrite Z.land_0_r. split; [done|].
    change (u64 0) with 0. rewrite wrap_id; [lia|unfold uint in *; lia].
Qed.

(** The state with [k] rounds left: the remainder and the quotient of the high
    bits [n >> k], the unread bits of [n] at the top of [q]. *)
Record at_round (n d : Z) (k : nat) (r q : uu) (carry : Z) : Prop := {
  ar_r : uu_ok r;
  ar_q : uu_ok q;
  ar_rem : quad_of r = (n / 2 ^ Z.of_nat k) mod d;
  ar_carry : carry = (n / 2 ^ Z.of_nat k / d) mod 2;
  ar_quot : quad_of q = (n mod 2 ^ Z.of_nat k) * 2 ^ (64 - Z.of_nat k)
                        + n / 2 ^ Z.of_nat k / d / 2;
}.

(** The next bit of the dividend. *)
Lemma next_bit n k : 0 <= n -> 0 <= k ->
  n / 2 ^ k = 2 * (n / 2 ^ (k + 1)) + (n / 2 ^ k) mod 2
  /\ n mod 2 ^ (k + 1) = (n / 2 ^ k) mod 2 * 2 ^ k + n mod 2 ^ k.
Proof.
  intros Hn Hk. rewrite Z.pow_add_r by lia. change (2 ^ 1) with 2. assert (0 < 2 ^ k) by lia.
  split.
  - rewrite <-Z.div_div by lia. apply Z.div_mod. lia.
  - rewrite Z.rem_mul_r by lia. lia.
Qed.

Lemma div_step N d b : 0 <= N -> 0 < d -> 0 <= b <= 1 ->
  (2 * N + b) mod d = (if d <=? 2 * (N mod d) + b then 2 * (N mod d) + b - d else 2 * (N mod d) + b)
  /\ (2 * N + b) / d = 2 * (N / d) + (if d <=? 2 * (N mod d) + b then 1 else 0).
Proof.
  intros HN Hd Hb. pose proof (Z.div_mod N d ltac:(lia)) as E.
  pose proof (Z.mod_pos_bound N d Hd) as Hm.
  set (q := N / d) in *. set (r := N mod d) in *.
  destruct (d <=? 2 * r + b) eqn:Ec; zbool.
  - split; [symmetry; apply Z.mod_unique with (2 * q + 1)|symmetry; apply Z.div_unique with (2 * r + b - d)];
      (left; lia) || lia.
  - split; [symmetry; apply Z.mod_unique with (2 * q)|symmetry; apply Z.div_unique with (2 * r + b)];
      (left; lia) || lia.
Qed.

(** The top bit of [q] is the next bit of the dividend; what remains fits. *)
Lemma top_bit n d k q : uint 64 n -> 0 < d -> 0 <= k < 63 ->
  q = (n mod 2 ^ (k + 1)) * 2 ^ (64 - (k + 1)) + n / 2 ^ (k + 1) / d / 2 ->
  let b := (n / 2 ^ k) mod 2 in
  let rest := (n mod 2 ^ k) * 2 ^ (63 - k) + n / 2 ^ (k + 1) / d / 2 in
  q = b * 2 ^ 63 + rest /\ 0 <= rest < 2 ^ 63 /\ 0 <= b <= 1.
Proof.
  intros Hn Hd Hk -> b rest. destruct (next_bit n k) as [_ Em]; [apply Hn|lia|].
  assert (2 ^ 63 = 2 ^ k * 2 ^ (63 - k)) as E63 by (rewrite <-Z.pow_add_r by lia; f_equal; lia).
  assert (0 < 2 ^ k) by lia. assert (0 < 2 ^ (63 - k)) by lia.
  assert (0 <= b <= 1) as Hb by (unfold b; Z.div_mod_to_equations; lia).
  assert (0 <= n / 2 ^ (k + 1) / d / 2 < 2 ^ (63 - k)) as HQ.
  { assert (0 <= n / 2 ^ (k + 1)) by (apply Z.div_pos; [apply Hn|lia]).
    assert (n / 2 ^ (k + 1) < 2 ^ (63 - k)).
    { apply Z.div_lt_upper_bound; [lia|]. rewrite <-Z.pow_add_r by lia.
      replace (k + 1 + (63 - k)) with 64 by lia. apply Hn. }
    assert (0 <= n / 2 ^ (k + 1) / d <= n / 2 ^ (k + 1)).
    { split; [by apply Z.div_pos|]. apply Z.div_le_upper_bound; [lia|nia]. }
    Z.div_mod_to_equations. lia. }
  pose proof (Z.mod_pos_bound n (2 ^ k) ltac:(lia)).
  split_and!; [|unfold rest; lia|unfold rest; nia|lia|lia].
  rewrite Em. fold b. replace (64 - (k + 1)) with (63 - k) by lia.
  unfold rest. rewrite E63. ring.
Qed.

Lemma quad_top q : uu_ok q -> Z.shiftr (ul_H q) 31 = quad_of q / 2 ^ 63.
Proof.
  destruct q as [h l]. intros [Hh Hl]. cbn [ul_H ul_L] in *. rewrite Z.shiftr_div_pow2 by lia.
  unfold quad_of, uint in *. cbn [ul_H ul_L]. Z.div_mod_to_equations. lia.
Qed.

Lemma round_spec n d k r q c : uint 64 n -> uint 64 d -> 0 < d -> (k < 63)%nat ->
  d < 2 ^ 63 \/ (2 ^ 63 <= n /\ k = 0%nat) -> at_round n d (S k) r q c ->
  exists r' q' c', round d r q c = (r', q', c') /\ at_round n d k r' q' c'.
Proof.
  intros Hn Hd Hd0 Hk Hbig [[HrH HrL] Hq Er Ec Eq]. destruct r as [rh rl], q as [qh ql].
  pose proof Hq as Hqok. destruct Hq as [HqH HqL]. cbn [ul_H ul_L] in *.
  replace (Z.of_nat (S k)) with (Z.of_nat k + 1) in * by lia.
  set (k' := Z.of_nat k) in *. assert (0 <= k' < 63) as Hk' by lia.
  destruct (top_bit n d k' _ Hn Hd0 Hk' Eq) as (Eq' & Hrest & Hb).
  destruct (next_bit n k' (proj1 Hn)) as [EN _]; [lia|].
  set (b := (n / 2 ^ k') mod 2) in *. set (N := n / 2 ^ (k' + 1)) in *.
  set (rest := n mod 2 ^ k' * 2 ^ (63 - k') + N / d / 2) in *.
  assert (0 <= N) as HN by (apply Z.div_pos; [apply Hn|lia]).
  assert (Z.shiftr qh 31 = b) as Eb.
  { pose proof (quad_top (Uu qh ql) Hqok) as E. cbn [ul_H] in E. rewrite E, Eq'.
    rewrite Z.add_comm, Z.div_add, Z.div_small by lia. lia. }
  pose proof (Z.mod_pos_bound N d Hd0) as Hm.
  assert (0 <= c <= 1) as Hc by (subst c; Z.div_mod_to_equations; lia).
  destruct (div_step N d b HN Hd0 Hb) as [ER EQ]. rewrite <-EN in ER, EQ.
  unfold round, n_uword_bits. cbn [ul_H ul_L]. change (32 - 1) with 31. rewrite Eb.
  destruct (shift_in rh rl b HrH HrL Hb) as (Es & Hs1 & Hs2).
  destruct (shift_in qh ql c HqH HqL Hc) as (Et & Ht1 & Ht2).
  assert (2 * (N mod d) + b < 2 ^ 64 /\ - 2 ^ 63 <= d - (2 * (N mod d) + b) - 1 < 2 ^ 63) as [Hr64 Hrange].
  { destruct Hbig as [?|[Hn63 ->]]; [lia|]. subst N k'. cbn [Z.of_nat] in *.
    change (2 ^ (0 + 1)) with 2 in *. change (2 ^ 0) with 1 in EN. rewrite Z.div_1_r in EN.
    unfold uint in *. destruct (decide (d < 2 ^ 63)); [lia|]. rewrite Z.mod_small by lia. lia. }
  rewrite Es, Er. rewrite (wrap_id 64 (2 * (N mod d) + b)) by (unfold uint; lia).
  destruct (mask_spec d (2 * (N mod d) + b) Hd ltac:(unfold uint; lia) Hrange) as [E1 E2].
  unfold n_udword_bits. change (64 - 1) with 63. rewrite E1, E2, <-ER.
  eexists _, _, _. split; [reflexivity|].
  assert (0 <= (n / 2 ^ k') mod d < d) as Hm' by (by apply Z.mod_pos_bound).
  destruct (uu_split ((n / 2 ^ k') mod d)) as (h & l & Hh & Hl & Eu); [unfold uint in *; lia|].
  fold k'. split.
  - rewrite Eu, (proj1 (quad_uu h l Hh Hl)). by split.
  - by split.
  - fold k'. rewrite Eu at 1. by rewrite (proj1 (quad_uu h l Hh Hl)).
  - fold k'. rewrite EQ. destruct (d <=? _); Z.div_mod_to_equations; lia.
  - fold k'. rewrite Et, Eq', EQ. 
    replace (2 * (b * 2 ^ 63 + rest) + c) with (2 * rest + c + b * 2 ^ 64) by lia.
    unfold wrap. rewrite Z_mod_plus_full, Z.mod_small by lia. unfold rest.
    replace (64 - k') with (63 - k' + 1) by lia. rewrite Z.pow_add_r by lia. change (2 ^ 1) with 2.
    replace ((2 * (N / d) + (if d <=? 2 * (N mod d) + b then 1 else 0)) / 2) with (N / d)
      by (destruct (d <=? _); Z.div_mod_to_equations; lia).
    subst c. pose proof (Z.div_mod (N / d) 2 ltac:(lia)). lia.
Qed.

Lemma divide_spec n d sr : forall r q c, uint 64 n -> uint 64 d -> 0 < d -> (sr <= 63)%nat ->
  d < 2 ^ 63 \/ (2 ^ 63 <= n /\ (sr <= 1)%nat) -> at_round n d sr r q c ->
  exists r' q' c', divide sr d r q c = (r', q', c') /\ at_round n d 0 r' q' c'.
Proof.
  induction sr as [|sr IH]; intros r q c Hn Hd Hd0 Hsr Hbig Ha; cbn [divide].
  - by exists r, q, c.
  - destruct (round_spec n d sr r q c) as (r' & q' & c' & E & Ha'); [done|done|done|lia|lia|done|].
    rewrite E. apply IH; done || lia.
Qed.

(** The loop started with the dividend shifted so that the divisor does not
    fit yet. *)
Lemma finish_spec n d q r sr : uint 64 n -> uint 64 d -> 0 < n -> 0 < d -> 1 <= sr <= 63 ->
  sr = Z.log2 n - Z.log2 d + 1 -> uu_ok q -> uu_ok r ->
  quad_of r = Z.shiftr n sr -> quad_of q = wshl 64 n (64 - sr) ->
  finish d q r sr = Ok (n / d, n mod d).
Proof.
  intros Hn Hd Hn0 Hd0 Hsr Esr Hq Hr Er Eq. unfold finish.
  destruct (Z.log2_spec n Hn0) as [Hn1 Hn2], (Z.log2_spec d Hd0) as [Hd1 Hd2].
  assert (n / 2 ^ sr < d) as Hlt.
  { apply Z.lt_le_trans with (2 ^ Z.log2 d); [|done]. apply Z.div_lt_upper_bound; [lia|].
    rewrite <-Z.pow_add_r by (apply Z.log2_nonneg || lia).
    replace (sr + Z.log2 d) with (Z.succ (Z.log2 n)) by lia. done. }
  assert (0 <= n / 2 ^ sr) as Hpos by (apply Z.div_pos; lia).
  destruct (divide_spec n d (Z.to_nat sr) r q 0) as (r' & q' & c & -> & Ha);
    [done|done|done|lia| | |].
  - assert (Z.log2 d < 64) by (apply Z.log2_lt_pow2; [done|apply Hd]).
    assert (Z.log2 n < 64) by (apply Z.log2_lt_pow2; [done|apply Hn]).
    destruct (decide (d < 2 ^ 63)); [by left|right].
    assert (63 <= Z.log2 d) by (apply Z.log2_le_pow2; lia).
    assert (Z.log2 n = 63) as E by lia. rewrite E in Hn1. split; [done|lia].
  - split; [done|done|..]; rewrite Z2Nat.id by lia.
    + by rewrite Er, Z.shiftr_div_pow2, Z.mod_small by lia.
    + by rewrite (Z.div_small (n / 2 ^ sr)) by lia.
    + rewrite Eq, (Z.div_small (n / 2 ^ sr)) by lia. change (0 / 2) with 0.
      unfold wshl, wrap. rewrite Z.shiftl_mul_pow2 by lia.
      replace (2 ^ 64) with (2 ^ sr * 2 ^ (64 - sr)) by (rewrite <-Z.pow_add_r by lia; f_equal; lia).
      rewrite Z.mul_mod_distr_r by lia. lia.
  - destruct Ha as [_ _ Er' Ec Eq']. change (2 ^ Z.of_nat 0) with 1 in *.
    rewrite Z.div_1_r in *. rewrite Z.mod_1_r, Z.mul_0_l, Z.add_0_l in Eq'.
    rewrite Eq', Er', Ec. f_equal. f_equal.
    assert (0 <= n / d <= n) as Hnd.
    { split; [apply Z.div_pos; lia|apply Z.div_le_upper_bound; nia]. }
    unfold wshl. rewrite Z.shiftl_mul_pow2, wrap_id by
      (try unfold uint in *; Z.div_mod_to_equations; lia).
    rewrite Z.lor_comm, lor_add_shift by (try unfold uint; Z.div_mod_to_equations; lia).
    change (2 ^ 1) with 2. pose proof (Z.div_mod (n / d) 2 ltac:(lia)). lia.
Qed.

Lemma init_spec h l sr : uint 32 h -> uint 32 l -> 1 <= sr <= 63 ->
  let '(q, r) :=
    if sr =? n_uword_bits then init_at (Uu h l)
    else if sr <? n_uword_bits then init_below (Uu h l) sr
    else init_above (Uu h l) sr in
  uu_ok q /\ uu_ok r /\ quad_of r = Z.shiftr (quad_of (Uu h l)) sr
  /\ quad_of q = wshl 64 (quad_of (Uu h l)) (64 - sr).
Proof.
  intros Hh Hl Hsr. unfold n_uword_bits.
  pose proof (shr_quad h l sr Hh Hl ltac:(lia)) as Er.
  pose proof (shl_quad h l (64 - sr) Hl ltac:(lia)) as Eq.
  unfold INT_BITS in Er, Eq. assert (uint 32 0) as H0 by done.
  destruct (sr =? 32) eqn:E1; zbool; [|destruct (sr <? 32) eqn:E2; zbool].
  - subst sr. change (32 <=? 32) with true in Er. change (32 <=? 64 - 32) with true in Eq.
    change (32 - 32) with 0 in *. change (64 - 32 - 32) with 0 in Eq. cbv iota in Er, Eq.
    unfold wshl in Eq at 1. rewrite Z.shiftr_0_r in Er. rewrite Z.shiftl_0_r, wrap_id in Eq by done.
    by split_and!.
  - rewrite (proj2 (Z.leb_gt _ _)) in Er by lia. rewrite (proj2 (Z.leb_le _ _)) in Eq by lia.
    unfold init_below, n_uword_bits. cbn [ul_H ul_L]. rewrite Z.lor_comm.
    replace (64 - sr - 32) with (32 - sr) in Eq by lia.
    split_and!; [|split; cbn [ul_H ul_L]; eauto 6 with word|done|done]. split; cbn [ul_H ul_L];
      eauto with word.
  - rewrite (proj2 (Z.leb_le _ _)) in Er by lia. rewrite (proj2 (Z.leb_gt _ _)) in Eq by lia.
    unfold init_above, n_uword_bits, n_udword_bits. cbn [ul_H ul_L].
    replace (32 - (64 - sr)) with (sr - 32) in Eq by lia.
    split_and!; [split; cbn [ul_H ul_L]; eauto 6 with word| |done|done].
    split; cbn [ul_H ul_L]; eauto with word.
Qed.

(** ** The cases of the routine *)

Lemma log2_quad h l : uint 32 h -> uint 32 l -> h <> 0 ->
  Z.log2 (quad_of (Uu h l)) = 32 + Z.log2 h /\ 0 <= Z.log2 h < 32.
Proof.
  intros Hh Hl H0. destruct (Z.log2_spec h) as [H1 H2]; [unfold uint in Hh; lia|].
  assert (Z.log2 h < 32) by (apply Z.log2_lt_pow2; unfold uint in Hh; lia).
  pose proof (Z.log2_nonneg h). split; [|lia]. apply Z.log2_unique; [lia|].
  unfold quad_of, uint in *. cbn [ul_H ul_L].
  rewrite Z.pow_succ_r in H2 by lia. rewrite Z.pow_succ_r, Z.pow_add_r by lia. nia.
Qed.

Lemma log2_uint32 x : uint 32 x -> x <> 0 -> 0 <= Z.log2 x < 32.
Proof.
  intros Hx H0. pose proof (Z.log2_nonneg x).
  assert (Z.log2 x < 32) by (apply Z.log2_lt_pow2; unfold uint in Hx; lia). lia.
Qed.

(** The loop is entered with the three-way initialisation of [init_spec]. *)
Lemma start_spec h l d sr : uint 32 h -> uint 32 l -> h <> 0 -> uint 64 d -> 0 < d ->
  1 <= sr <= 63 -> sr = 33 + Z.log2 h - Z.log2 d ->
  (let '(q, r) :=
     if sr =? n_uword_bits then init_at (Uu h l)
     else if sr <? n_uword_bits then init_below (Uu h l) sr
     else init_above (Uu h l) sr in finish d q r sr)
  = Ok (quad_of (Uu h l) / d, quad_of (Uu h l) mod d).
Proof.
  intros Hh Hl Hh0 Hd Hd0 Hsr Es. pose proof (init_spec h l sr Hh Hl Hsr) as Hi.
  destruct (if sr =? n_uword_bits then _ else _) as [q r]. destruct Hi as (Hq & Hr & Er & Eq).
  destruct (log2_quad h l Hh Hl Hh0) as [El _].
  assert (0 < quad_of (Uu h l)) by (unfold quad_of, uint in *; cbn [ul_H ul_L]; lia).
  apply finish_spec; try done; [by apply quad_uu|]. rewrite El. lia.
Qed.

(** A dividend with fewer bits than the divisor. *)
Lemma smaller n d : 0 <= n -> 0 < d -> Z.log2 n < Z.log2 d -> (0, n) = (n / d, n mod d).
Proof.
  intros Hn Hd Hlog. assert (n < d) by (by apply Z.log2_lt_cancel).
  by rewrite Z.div_small, Z.mod_small by lia.
Qed.

(** Division by a multiple of 2^32. *)
Lemma quad_div_high h l k : uint 32 h -> uint 32 l -> 0 < k ->
  quad_of (Uu h l) / quad_of (Uu k 0) = h / k
  /\ quad_of (Uu h l) mod quad_of (Uu k 0) = quad_of (Uu (h mod k) l).
Proof.
  intros Hh Hl Hk. unfold quad_of. cbn [ul_H ul_L]. rewrite Z.add_0_r.
  rewrite (Z.mul_comm k), Z.rem_mul_r, <-Z.div_div by lia.
  rewrite (Z.add_comm (h * _)), Z.div_add, Z_mod_plus_full by lia.
  unfold uint in *. rewrite (Z.div_small l), (Z.mod_small l) by lia. split; [f_equal; lia|].
  rewrite Z.add_0_l. lia.
Qed.

Lemma divide_low_zero_spec h l dh : uint 32 h -> uint 32 l -> h <> 0 -> uint 32 dh -> dh <> 0 ->
  let n := quad_of (Uu h l) in let d := quad_of (Uu dh 0) in
  divide_low_zero (Uu h l) (Uu dh 0) = Ok (n / d, n mod d).
Proof.
  intros Hh Hl Hh0 Hd Hd0 n d. unfold divide_low_zero. cbn [ul_H ul_L].
  assert (0 < dh) as Hpos by (unfold uint in Hd; lia).
  destruct (quad_div_high h l dh Hh Hl Hpos) as [Eq Er]. fold n d in Eq, Er.
  rewrite (proj2 (Z.eqb_neq _ _) Hd0). destruct (l =? 0) eqn:El; zbool.
  { unfold umod32, udiv32. rewrite (proj2 (Z.eqb_neq _ _) Hd0). cbn [mbind res_bind].
    rewrite Eq, Er. by subst l. }
  destruct (Z.land dh (u32 (dh - 1)) =? 0) eqn:Ep; zbool.
  { destruct (power_of_two dh Hd Hd0 Ep) as (k & Hk & E & -> & ->).
    rewrite Eq, Er, land_ones_low, Z.shiftr_div_pow2 by lia. by rewrite <-E. }
  destruct (log2_quad h l Hh Hl Hh0) as [Eln Hln], (log2_quad dh 0 Hd (conj (Z.le_refl 0) eq_refl) Hd0) as [Eld Hld].
  fold n in Eln. fold d in Eld. unfold clz.
  assert (0 < d) as Hd1 by (unfold d, quad_of; cbn [ul_H ul_L]; lia).
  assert (uint 64 n /\ uint 64 d) as [Hn64 Hd64] by (split; by apply quad_uu).
  assert (Z.log2 dh <> 0) as Hlog.
  { intros E. apply Ep. assert (dh = 1) as ->; [|done].
    apply Z.log2_null in E. lia. }
  replace (31 - Z.log2 dh - (31 - Z.log2 h)) with (Z.log2 n - Z.log2 d) by lia.
  destruct (decide (Z.log2 n < Z.log2 d)).
  - rewrite (proj2 (Z.ltb_lt _ _)); [f_equal; apply smaller; [apply Hn64|done|done]|].
    unfold n_uword_bits, wrap. Z.div_mod_to_equations. lia.
  - rewrite !(wrap_id 32) by (unfold uint in *; lia).
    rewrite (proj2 (Z.ltb_ge _ _)) by (unfold n_uword_bits; lia).
    pose proof (start_spec h l d (Z.log2 n - Z.log2 d + 1) Hh Hl Hh0 Hd64 Hd1 ltac:(lia) ltac:(lia)) as E.
    unfold n_uword_bits in E. rewrite (proj2 (Z.eqb_neq _ _)), (proj2 (Z.ltb_lt _ _)) in E by lia.
    exact E.
Qed.

Lemma divide_both_spec h l dh dl : uint 32 h -> uint 32 l -> h <> 0 ->
  uint 32 dh -> uint 32 dl -> dh <> 0 ->
  let n := quad_of (Uu h l) in let d := quad_of (Uu dh dl) in
  divide_both (Uu h l) (Uu dh dl) = Ok (n / d, n mod d).
Proof.
  intros Hh Hl Hh0 Hd Hdl Hd0 n d. unfold divide_both, clz. cbn [ul_H ul_L].
  destruct (log2_quad h l Hh Hl Hh0) as [Eln Hln], (log2_quad dh dl Hd Hdl Hd0) as [Eld Hld].
  fold n in Eln. fold d in Eld.
  assert (uint 64 n /\ uint 64 d) as [Hn64 Hd64] by (split; by apply quad_uu).
  assert (0 < d) as Hd1 by (unfold d, quad_of, uint in *; cbn [ul_H ul_L]; lia).
  replace (31 - Z.log2 dh - (31 - Z.log2 h)) with (Z.log2 n - Z.log2 d) by lia.
  destruct (decide (Z.log2 n < Z.log2 d)).
  - rewrite (proj2 (Z.ltb_lt _ _)); [f_equal; apply smaller; [apply Hn64|done|done]|].
    unfold n_uword_bits, wrap. Z.div_mod_to_equations. lia.
  - rewrite !(wrap_id 32) by (unfold uint in *; lia).
    rewrite (proj2 (Z.ltb_ge _ _)) by (unfold n_uword_bits; lia).
    pose proof (start_spec h l d (Z.log2 n - Z.log2 d + 1) Hh Hl Hh0 Hd64 Hd1 ltac:(lia) ltac:(lia)) as E.
    fold d. destruct (_ =? n_uword_bits) eqn:E32; [exact E|]. zbool.
    rewrite (proj2 (Z.ltb_lt _ n_uword_bits)) in E by (unfold n_uword_bits in *; lia). exact E.
Qed.

Lemma divide_high_zero_spec h l dl : uint 32 h -> uint 32 l -> h <> 0 -> uint 32 dl -> dl <> 0 ->
  let n := quad_of (Uu h l) in
  divide_high_zero (Uu h l) (Uu 0 dl) = Ok (n / dl, n mod dl).
Proof.
  intros Hh Hl Hh0 Hd Hd0 n. unfold divide_high_zero. cbn [ul_H ul_L].
  destruct (Z.land dl (u32 (dl - 1)) =? 0) eqn:Ep; zbool.
  - destruct (power_of_two dl Hd Hd0 Ep) as (k & Hk & E & -> & ->).
    rewrite land_ones_low by lia.
    assert (l mod 2 ^ k = n mod 2 ^ k) as ->.
    { unfold n, quad_of. cbn [ul_H ul_L].
      replace (2 ^ 32) with (2 ^ (32 - k) * 2 ^ k) by (rewrite <-Z.pow_add_r by lia; f_equal; lia).
      by rewrite Z.mul_assoc, Z.add_comm, Z_mod_plus_full. }
    rewrite <-E. destruct (dl =? 1) eqn:E1; zbool.
    + rewrite E1, Z.div_1_r. done.
    + assert (k <> 0) by (intros ->; done).
      pose proof (shr_quad h l k Hh Hl ltac:(lia)) as Es. unfold INT_BITS in Es.
      rewrite (proj2 (Z.leb_gt _ _)) in Es by lia. unfold n_uword_bits.
      rewrite Z.lor_comm, Es, Z.shiftr_div_pow2 by lia. by rewrite <-E.
  - destruct (log2_quad h l Hh Hl Hh0) as [Eln Hln]. pose proof (log2_uint32 dl Hd Hd0) as Hld.
    fold n in Eln. unfold clz.
    assert (Z.log2 dl <> 0) as Hlog.
    { intros E. apply Ep. assert (dl = 1) as ->; [|done].
      apply Z.log2_null in E. unfold uint in Hd. lia. }
    assert (0 < dl) as Hpos by (unfold uint in Hd; lia).
    assert (quad_of (Uu 0 dl) = dl) as -> by done.
    replace (1 + n_uword_bits + (31 - Z.log2 dl) - (31 - Z.log2 h))
      with (33 + Z.log2 h - Z.log2 dl) by (unfold n_uword_bits; lia).
    rewrite wrap_id by (unfold uint; lia).
    apply start_spec; try done; [|lia]. by apply (uint_mono 32).
Qed.

Lemma udivmoddi4_divides a b : uint 64 a -> uint 64 b -> b <> 0 ->
  udivmoddi4 a b = Ok (a / b, a mod b).
Proof.
  intros Ha Hb Hb0. unfold udivmoddi4. quad_cases a as h l. quad_cases b as dh dl.
  destruct (h =? 0) eqn:Eh; zbool; [subst h; destruct (dh =? 0) eqn:Ed; zbool|].
  - subst dh. change (quad_of (Uu 0 dl)) with dl in *. change (quad_of (Uu 0 l)) with l.
    unfold umod32, udiv32. by rewrite (proj2 (Z.eqb_neq _ _) Hb0).
  - change (quad_of (Uu 0 l)) with l. assert (l < quad_of (Uu dh dl)).
    { unfold quad_of, uint in *. cbn [ul_H ul_L]. lia. }
    unfold uint in Hl. by rewrite Z.div_small, Z.mod_small by lia.
  - destruct (dl =? 0) eqn:El; zbool; [subst dl|destruct (dh =? 0) eqn:Ed; zbool].
    + apply divide_low_zero_spec; try done. intros ->. by apply Hb0.
    + subst dh. by apply divide_high_zero_spec.
    + by apply divide_both_spec.
Qed.

(** Shift-and-subtract division returns quotient and remainder for every
    non-zero divisor, whichever special case or initialisation the operands
    select, and traps for a zero divisor. *)
Lemma udivmoddi4_correct a b (Ha : uint 64 a) (Hb : uint 64 b) :
  udivmoddi4 a b = if decide (b = 0) then Fault else Ok (a / b, a mod b).
Proof.
  destruct (decide (b = 0)) as [->|]; [|by apply udivmoddi4_divides].
  unfold udivmoddi4. quad_cases a as h l. cbn. by destruct (h =? 0).
Qed.
