(* ===== verification/Division.v ===== *)
(** * The two 64-bit divisions

    The C library and the compiler's run-time library each divide 64-bit
    integers: CLibrary/quad by Knuth's Algorithm D (QDivRem.v), and
    CLibrary/libcompiler_rt by shifting and subtracting (UDivMod.v).  Both are
    the division of integers, so either can serve the code the compiler
    generates. *)

From S2P Require Import Prelude Words Quad QDivRem UDivMod.
From Stdlib Require Import ZArith Lia.
From stdpp Require Import prelude.

Open Scope Z_scope.

(** The reference: division of integers, and a trap for a zero divisor. *)
Definition divides (u v : Z) : res (Z * Z) :=
  if decide (v = 0) then Fault else Ok (u / v, u mod v).

(** C17: 64-bit division, by Algorithm D and by shift and subtract.  Neither leaves
    its arrays nor runs out of its loop bounds: for every non-zero divisor both
    return quotient and remainder, whichever special case the operands select,
    and division by zero traps in both.  Signed division truncates towards zero
    and the remainder has the sign of the dividend; the only quotient that does
    not fit, the minimum divided by -1, wraps. *)
Theorem divisions_agree u v (Hu : uint 64 u) (Hv : uint 64 v) :
  qdivrem u v = divides u v /\ udivmoddi4 u v = divides u v /\
  udivdi3 u v = fst <$> divides u v /\ umoddi3 u v = snd <$> divides u v /\
  (v <> 0 ->
    (exists q, divdi3 u v = Ok q /\ uint 64 q /\ s64 q = s64 (Z.quot (s64 u) (s64 v))) /\
    (exists r, moddi3 u v = Ok r /\ uint 64 r /\ s64 r = Z.rem (s64 u) (s64 v))).
Proof.
  destruct (division_correct u v Hu Hv) as ((E1 & E2 & E3) & Hs).
  rewrite E1, E2, E3, udivmoddi4_correct by done. unfold divides.
  by case_decide.
Qed.

(** A quotient digit that Algorithm D has to correct, and a negative dividend. *)
Lemma divisions_agree_witness :
  qdivrem 0x7FFF800000000000 0x800000000001 = Ok (0xFFFE, 0x7FFFFFFF0002) /\
  udivmoddi4 (2 ^ 64 - 1) (2 ^ 33 + 5) =
    Ok ((2 ^ 64 - 1) / (2 ^ 33 + 5), (2 ^ 64 - 1) mod (2 ^ 33 + 5)) /\
  exists q, divdi3 (2 ^ 64 - 7) 2 = Ok q /\ uint 64 q /\
    s64 q = s64 (Z.quot (s64 (2 ^ 64 - 7)) (s64 2)).
Proof.
  destruct (divisions_agree 0x7FFF800000000000 0x800000000001) as (E1 & _); [split; done..|].
  destruct (divisions_agree (2 ^ 64 - 1) (2 ^ 33 + 5)) as (_ & E2 & _); [split; done..|].
  destruct (divisions_agree (2 ^ 64 - 7) 2) as (_ & _ & _ & _ & H); [split; done..|].
  split; [exact E1|]. split; [exact E2|]. exact (proj1 (H ltac:(done))).
Defined.
