(* ===== verification/CMem.v ===== *)
(** * Byte memory

    C strings and buffers live in one memory, a finite map from addresses to
    bytes; reading or writing an address outside it is [Fault].  Pointers are
    addresses and [NULL] is 0.  [bytes_at m p l] says that the bytes [l] are
    stored from [p] on, [put p l m] stores them, and [str_at m p s] that [p]
    points to the NUL-terminated string [s].  A loop that reads a new address
    in every round runs with [fuel m], one more than the number of mapped
    bytes. *)

From S2P Require Import Prelude Words.
From Stdlib Require Import ZArith Lia.
From stdpp Require Import prelude gmap list fin_map_dom.

Open Scope Z_scope.

Notation mem := (gmap Z Z).

Definition NULL : Z := 0.

Definition load (m : mem) (p : Z) : res Z := deref (m !! p).
Definition store (m : mem) (p b : Z) : res mem :=
  match m !! p with Some _ => Ok (<[p := u8 b]> m) | None => Fault end.

(** A [char] is signed on this machine. *)
Notation schar := (sgn 8).

Definition fuel (m : mem) : nat := S (size m).

(** ** Contents *)

Definition bytes_at (m : mem) (p : Z) (l : list Z) : Prop :=
  forall i b, l !! i = Some b -> m !! (p + Z.of_nat i) = Some b.

Fixpoint put (p : Z) (l : list Z) (m : mem) : mem :=
  match l with
  | [] => m
  | b :: l' => put (p + 1) l' (<[p := b]> m)
  end.

Definition mapped (m : mem) (p n : Z) : Prop :=
  forall a, p <= a < p + n -> is_Some (m !! a).

Definition nonzero (l : list Z) : Prop := Forall (fun b => b <> 0) l.
Definition str_at (m : mem) (p : Z) (s : list Z) : Prop :=
  bytes_at m p (s ++ [0]) /\ nonzero s.

Create HintDb mem discriminated.

Lemma bytes_at_nil m p : bytes_at m p [].
Proof. intros i b Hi. by rewrite lookup_nil in Hi. Qed.

Lemma bytes_at_cons m p b l :
  bytes_at m p (b :: l) <-> m !! p = Some b /\ bytes_at m (p + 1) l.
Proof.
  split.
  - intros H. split.
    + rewrite <-(H 0%nat b) by done. f_equal. lia.
    + intros i c Hi. rewrite <-(H (S i) c) by done. f_equal. lia.
  - intros [H0 H] [|i] c Hi; cbn in Hi.
    + injection Hi as <-. by rewrite Z.add_0_r.
    + rewrite <-(H i c) by done. f_equal. lia.
Qed.

Lemma bytes_at_app m p l k :
  bytes_at m p (l ++ k) <-> bytes_at m p l /\ bytes_at m (p + Z.of_nat (length l)) k.
Proof.
  revert p; induction l as [|b l IH]; intros p; cbn [app length].
  - rewrite Z.add_0_r. split; [|by intros [_ ?]]. split; [apply bytes_at_nil|done].
  - rewrite !bytes_at_cons, IH. replace (p + 1 + Z.of_nat (length l))
      with (p + Z.of_nat (S (length l))) by lia. tauto.
Qed.

Lemma bytes_at_single m p b : bytes_at m p [b] <-> m !! p = Some b.
Proof. rewrite bytes_at_cons. split; [by intros []|]. split; [done|apply bytes_at_nil]. Qed.

Lemma bytes_at_lookup m p l i b : bytes_at m p l -> l !! i = Some b ->
  m !! (p + Z.of_nat i) = Some b.
Proof. auto. Qed.

Lemma bytes_at_mapped m p l : bytes_at m p l -> mapped m p (Z.of_nat (length l)).
Proof.
  intros H a Ha. destruct (lookup_lt_is_Some_2 l (Z.to_nat (a - p))) as [b Hb]; [lia|].
  exists b. rewrite <-(H _ _ Hb). f_equal. lia.
Qed.

Lemma mapped_bytes m p n : 0 <= n -> mapped m p n ->
  exists l, bytes_at m p l /\ Z.of_nat (length l) = n.
Proof.
  intros Hn. revert p. pattern n. apply natlike_ind; [| |done].
  - intros p _. exists []. split; [apply bytes_at_nil|done].
  - intros k Hk IH p Hm. destruct (Hm p) as [b Hb]; [lia|].
    destruct (IH (p + 1)) as (l & Hl & Hlen); [intros a ?; apply Hm; lia|].
    exists (b :: l). rewrite bytes_at_cons. split; [done|cbn [length]; lia].
Qed.

Lemma mapped_mono m p n q k : mapped m p n -> p <= q -> q + k <= p + n -> mapped m q k.
Proof. intros H ?? a ?. apply H. lia. Qed.

(** A stored list is no longer than the memory. *)
Lemma bytes_at_fuel m p l : bytes_at m p l -> (length l < fuel m)%nat.
Proof.
  intros H. unfold fuel. apply Nat.lt_succ_r. rewrite <-(size_dom (D := gset Z)).
  assert (NoDup ((fun i => p + Z.of_nat i) <$> seq 0 (length l))) as Hnd.
  { apply NoDup_fmap; [intros i j ?; lia|apply NoDup_seq]. }
  assert (length l = length ((fun i => p + Z.of_nat i) <$> seq 0 (length l))) as El
    by (by rewrite length_fmap, length_seq).
  rewrite El, <-(size_list_to_set (C := gset Z) _ Hnd). apply subseteq_size.
  intros a Ha. apply elem_of_list_to_set, list_elem_of_fmap in Ha as (i & -> & Hi).
  apply elem_of_seq in Hi. destruct (lookup_lt_is_Some_2 l i) as [b Hb]; [lia|].
  apply elem_of_dom. exists b. by apply H.
Qed.

Lemma str_at_fuel m p s : str_at m p s -> (S (length s) < fuel m)%nat.
Proof.
  intros [H _]. apply bytes_at_fuel in H. rewrite length_app in H. cbn in H. lia.
Qed.

Lemma str_at_cons m p b s :
  str_at m p (b :: s) <-> m !! p = Some b /\ b <> 0 /\ str_at m (p + 1) s.
Proof.
  unfold str_at. cbn [app]. unfold nonzero. rewrite bytes_at_cons, Forall_cons. tauto.
Qed.

Lemma str_at_nil m p : str_at m p [] <-> m !! p = Some 0.
Proof.
  unfold str_at. cbn [app]. rewrite bytes_at_single. split; [tauto|].
  intros ?. split; [done|constructor].
Qed.

(** ** Writing *)

Lemma put_app p l k m : put p (l ++ k) m = put (p + Z.of_nat (length l)) k (put p l m).
Proof.
  revert p m; induction l as [|b l IH]; intros p m; cbn [app put length].
  - f_equal. lia.
  - rewrite IH. f_equal. lia.
Qed.

Lemma lookup_put_lt p l m a : a < p -> put p l m !! a = m !! a.
Proof.
  revert p m; induction l as [|b l IH]; intros p m Ha; cbn [put]; [done|].
  rewrite IH by lia. apply lookup_insert_ne. lia.
Qed.

Lemma lookup_put_ge p l m a : p + Z.of_nat (length l) <= a -> put p l m !! a = m !! a.
Proof.
  revert p m; induction l as [|b l IH]; intros p m Ha; cbn [put length] in *; [done|].
  rewrite IH by lia. apply lookup_insert_ne. lia.
Qed.

Lemma lookup_put p l m i b : l !! i = Some b -> put p l m !! (p + Z.of_nat i) = Some b.
Proof.
  revert p m i; induction l as [|c l IH]; intros p m [|i] Hi; cbn [put]; try done.
  - injection Hi as ->. rewrite Z.add_0_r, lookup_put_lt by lia. apply lookup_insert_eq.
  - replace (p + Z.of_nat (S i)) with (p + 1 + Z.of_nat i) by lia. by apply IH.
Qed.

Lemma bytes_at_put p l m : bytes_at (put p l m) p l.
Proof. intros i b Hi. by apply lookup_put. Qed.

Lemma bytes_at_put_disjoint p l m q k :
  q + Z.of_nat (length k) <= p \/ p + Z.of_nat (length l) <= q ->
  bytes_at m q k -> bytes_at (put p l m) q k.
Proof.
  intros Hd H i b Hi. pose proof (lookup_lt_Some _ _ _ Hi). rewrite <-(H i b Hi).
  destruct Hd; [apply lookup_put_lt; lia|apply lookup_put_ge; lia].
Qed.

Lemma mapped_insert m p b q n : mapped m q n -> mapped (<[p := b]> m) q n.
Proof. intros H a Ha. destruct (H a Ha) as [c Hc]. apply lookup_insert_is_Some'. eauto. Qed.

Lemma mapped_put m p l q n : mapped m q n -> mapped (put p l m) q n.
Proof.
  revert p m; induction l as [|b l IH]; intros p m H; cbn [put]; [done|].
  by apply IH, mapped_insert.
Qed.

Lemma put_insert p l m a b : a < p \/ p + Z.of_nat (length l) <= a ->
  put p l (<[a := b]> m) = <[a := b]> (put p l m).
Proof.
  revert p m; induction l as [|c l IH]; intros p m Ha; cbn [put length] in *; [done|].
  rewrite <-IH by lia. f_equal. apply insert_insert_ne. lia.
Qed.

Lemma put_cons p b l m : put p (b :: l) m = <[p := b]> (put (p + 1) l m).
Proof. cbn [put]. apply put_insert. lia. Qed.

Lemma put_snoc p l b m : put p (l ++ [b]) m = <[p + Z.of_nat (length l) := b]> (put p l m).
Proof. by rewrite put_app. Qed.

(** Writing two disjoint segments in either order. *)
Lemma put_put_comm p l q k m :
  p + Z.of_nat (length l) <= q \/ q + Z.of_nat (length k) <= p ->
  put p l (put q k m) = put q k (put p l m).
Proof.
  revert q m; induction k as [|b k IH]; intros q m Hd; cbn [put length] in *; [done|].
  rewrite IH by lia. f_equal. apply put_insert. lia.
Qed.

(** Writing twice: the later bytes win. *)
Lemma put_id p l m : bytes_at m p l -> put p l m = m.
Proof.
  revert p m; induction l as [|b l IH]; intros p m H; cbn [put]; [done|].
  apply bytes_at_cons in H as [H1 H2]. rewrite insert_id by done. by apply IH.
Qed.

(** ** Loads and stores *)

Lemma load_ok m p b : m !! p = Some b -> load m p = Ok b.
Proof. unfold load. by intros ->. Qed.

Lemma store_ok m p b : is_Some (m !! p) -> uint 8 b -> store m p b = Ok (<[p := b]> m).
Proof. unfold store. intros [c ->] Hb. by rewrite wrap_id. Qed.

Lemma store_u8 m p b : is_Some (m !! p) -> store m p b = Ok (<[p := u8 b]> m).
Proof. unfold store. by intros [c ->]. Qed.

(** Words are stored little-endian. *)
Definition load32 (m : mem) (p : Z) : res Z :=
  b0 ← load m p; b1 ← load m (p + 1); b2 ← load m (p + 2); b3 ← load m (p + 3);
  Ok (le_word [b0; b1; b2; b3]).

Fixpoint store_bytes (m : mem) (p : Z) (l : list Z) : res mem :=
  match l with
  | [] => Ok m
  | b :: l' => m ← store m p b; store_bytes m (p + 1) l'
  end.

Definition store32 (m : mem) (p w : Z) : res mem := store_bytes m p (le_bytes 4 w).

Lemma load32_ok m p l : bytes_at m p l -> length l = 4%nat -> load32 m p = Ok (le_word l).
Proof.
  intros H Hl. destruct l as [|b0 [|b1 [|b2 [|b3 [|]]]]]; try done.
  rewrite !bytes_at_cons in H. destruct H as (H0 & H1 & H2 & H3 & _).
  replace (p + 1 + 1) with (p + 2) in * by lia. replace (p + 2 + 1) with (p + 3) in * by lia.
  unfold load32. by rewrite !(load_ok _ _ _ H0), (load_ok _ _ _ H1), (load_ok _ _ _ H2),
    (load_ok _ _ _ H3).
Qed.

Lemma store_bytes_ok l : forall m p, mapped m p (Z.of_nat (length l)) -> bytes_ok l ->
  store_bytes m p l = Ok (put p l m).
Proof.
  induction l as [|b l IH]; intros m p Hm Hb; cbn [store_bytes put]; [done|].
  unfold bytes_ok in Hb. apply Forall_cons in Hb as [Hb0 Hb]. cbn [length] in Hm.
  rewrite store_ok by (done || (apply Hm; lia)). cbn [mbind res_bind]. apply IH; [|done].
  apply mapped_insert. intros a Ha. apply Hm. lia.
Qed.

Lemma store32_ok m p l : mapped m p 4 -> bytes_ok l -> length l = 4%nat ->
  store32 m p (le_word l) = Ok (put p l m).
Proof.
  intros Hm Hb Hl. unfold store32. rewrite <-Hl, le_bytes_word by done.
  apply store_bytes_ok; [by rewrite Hl|done].
Qed.

#[export] Hint Resolve bytes_at_nil bytes_at_put mapped_insert mapped_put : mem.
