(* ===== verification/Images.v ===== *)
(** * Boot modules and RAM disk images

    Three programs that share file formats: mkmodule (Tools/mkinitrd), which
    puts a header before a file so that the kernel knows it as a module,
    mkramdisk (Tools/mkramdisk), which packs a directory into one file, and the
    kernel's [Modules::handleModules] (Kernel/Modules.cc), which looks at the
    modules the boot loader has put into memory.  Files are lists of bytes; the
    two tools are modelled for runs without input and output errors.  Loading an
    ELF module is the business of a third-party library: that it is loaded is
    part of the result. *)

From S2P Require Import Prelude Words CMem PhysPages FrameAlloc BootPaging MemInit BootData.
From Stdlib Require Import ZArith Lia.
From stdpp Require Import prelude gmap list.

Open Scope Z_scope.

(** ** Files *)

(** [fread(buffer, 1, n, f)]: what is read, and the rest. *)
Definition fread (n : nat) (f : list Z) : list Z * list Z := (take n f, drop n f).

(** [while ((r = fread(...)))] that writes what was read. *)
Fixpoint copy_loop (fuel : nat) (n : nat) (f out : list Z) : res (list Z) :=
  match fuel with
  | O => NoFuel
  | S fuel =>
      let '(b, f) := fread n f in
      if decide (length b = 0%nat) then mret out
      else copy_loop fuel n f (out ++ b)
  end.

(** ** mkmodule (Tools/mkinitrd/mkmodule.c) *)

Definition RamdiskMagic : Z := 0x30646f4d.
Definition ElfMagic : Z := 0x464c457f.

Record ModuleHeader : Type := Header { magic : Z; type : Z; size : Z; checksum : Z }.

Definition header_bytes (h : ModuleHeader) : list Z :=
  le_bytes 4 (magic h) ++ le_bytes 4 (type h) ++ le_bytes 4 (size h) ++ le_bytes 4 (checksum h).

(** The first pass, which counts; [size_t] of the machine that runs the tool has
    64 bits. *)
Fixpoint count_loop (fuel : nat) (f : list Z) (module_size : Z) : res Z :=
  match fuel with
  | O => NoFuel
  | S fuel =>
      let '(b, f) := fread 512 f in
      if decide (length b = 0%nat) then mret module_size
      else count_loop fuel f (u64 (module_size + Z.of_nat (length b)))
  end.

Definition mkmodule (input : list Z) : res (list Z) :=
  module_size ← count_loop (S (length input)) input 0;
  let header := Header RamdiskMagic 0 (u32 module_size) 0 in
  copy_loop (S (length input)) 512 input (header_bytes header).

(** ** handleModules (Kernel/Modules.cc) *)

Inductive found := FoundRamdisk (type size : Z) | FoundElf (address size : Z) | Other (magic : Z).

Definition handle_module (m : mem) (d : Module_) : res found :=
  magic ← CMem.load32 m (mod_address d);
  if magic =? RamdiskMagic then
    type ← CMem.load32 m (mod_address d + 4);
    size ← CMem.load32 m (mod_address d + 8);
    mret (FoundRamdisk type size)
  else if magic =? ElfMagic then mret (FoundElf (mod_address d) (mod_size d))
  else mret (Other magic).

Fixpoint handleModules (m : mem) (l : list Module_) : res (list found) :=
  match l with
  | [] => mret []
  | d :: l => r ← handle_module m d; rs ← handleModules m l; mret (r :: rs)
  end.

(** ** mkramdisk (Tools/mkramdisk/mkramdisk.cc) *)

(** A file of the directory: its name and its contents. *)
Record entry : Type := Entry { e_name : list Z; e_data : list Z }.

Definition dot : list Z := [46].
Definition dotdot : list Z := [46; 46].

(** [copyFile]: the temporary file, and the size. *)
Fixpoint copyFile (fuel : nat) (f out : list Z) (size : Z) : res (list Z * Z) :=
  match fuel with
  | O => NoFuel
  | S fuel =>
      let '(b, f) := fread 512 f in
      if decide (length b = 0%nat) then mret (out, size)
      else copyFile fuel f (out ++ b) (u32 (size + Z.of_nat (length b)))
  end.

(** The name in a cleared array of 32 bytes; [strcpy] runs over its end if it
    does not fit. *)
Definition name_bytes (name : list Z) : res (list Z) :=
  if decide (length name < 32)%nat then mret (name ++ replicate (32 - length name) 0) else Fault.

(** The loop over the directory: the contents and the header so far. *)
Fixpoint pack_loop (dir : list entry) (offset : Z) (content header : list Z) :
    res (list Z * list Z) :=
  match dir with
  | [] => mret (content, header)
  | e :: dir =>
      if decide (e_name e <> dot /\ e_name e <> dotdot) then
        '(content, size) ← copyFile (S (length (e_data e))) (e_data e) content 0;
        let offset := u32 (offset + size) in
        namebuf ← name_bytes (e_name e);
        pack_loop dir offset content (header ++ namebuf ++ le_bytes 4 offset ++ le_bytes 4 size)
      else pack_loop dir offset content header
  end.

Definition mkramdisk (dir : list entry) : res (list Z) :=
  '(content, header) ← pack_loop dir 0 [] [];
  out ← copy_loop (S (length header)) 128 header [];
  copy_loop (S (length content)) 128 content out.

(** ** The loops *)

Lemma copy_loop_ok n f : forall fuel out, (0 < n)%nat -> (length f < fuel)%nat ->
  copy_loop fuel n f out = Ok (out ++ f).
Proof.
  induction f as [f IH] using (induction_ltof1 _ (@length Z)); unfold ltof in IH.
  intros [|fuel] out Hn Hf; [lia|]. cbn [copy_loop fread].
  destruct f as [|x f]; [rewrite take_nil; by rewrite decide_True, app_nil_r|].
  rewrite decide_False by (rewrite length_take; cbn; lia).
  rewrite IH; [by rewrite <- app_assoc, take_drop|rewrite length_drop; cbn; lia|done|].
  rewrite length_drop. cbn in *. lia.
Qed.

Lemma copyFile_ok f : forall fuel out size, (length f < fuel)%nat ->
  copyFile fuel f out size = Ok (out ++ f, if decide (f = []) then size else u32 (size + Z.of_nat (length f))).
Proof.
  induction f as [f IH] using (induction_ltof1 _ (@length Z)); unfold ltof in IH.
  intros [|fuel] out size Hf; [lia|]. cbn [copyFile fread].
  destruct f as [|x f]; [rewrite !decide_True by done; by rewrite app_nil_r|].
  rewrite decide_False by (rewrite length_take; cbn; lia).
  rewrite IH; [|rewrite length_drop; cbn; lia|rewrite length_drop; cbn in *; lia].
  rewrite <- app_assoc, take_drop. rewrite (decide_False (P := x :: f = [])) by done.
  do 2 f_equal. rewrite length_take, length_drop. case_decide as Hd.
  - apply (f_equal length) in Hd. rewrite length_drop in Hd. cbn [length] in *. do 2 f_equal. lia.
  - rewrite wrap_add_l. f_equal. lia.
Qed.

Lemma count_loop_ok f : forall fuel size, 0 <= size -> size + Z.of_nat (length f) < 2 ^ 64 ->
  (length f < fuel)%nat -> count_loop fuel f size = Ok (size + Z.of_nat (length f)).
Proof.
  induction f as [f IH] using (induction_ltof1 _ (@length Z)); unfold ltof in IH.
  intros [|fuel] size Hs Hl Hf; [lia|]. cbn [count_loop fread].
  destruct f as [|x f]; [by rewrite take_nil, decide_True, Z.add_0_r|].
  rewrite decide_False by (rewrite length_take; cbn; lia).
  rewrite length_take. rewrite wrap_id by (unfold uint; lia).
  rewrite IH; rewrite ?length_drop; cbn [length] in *; try lia. f_equal. lia.
Qed.

(** ** Formats *)

Definition descriptor (e : entry) (offset : Z) : list Z :=
  e_name e ++ replicate (32 - length (e_name e)) 0 ++ le_bytes 4 offset
    ++ le_bytes 4 (Z.of_nat (length (e_data e))).

(** What is packed: not the directory itself and its parent. *)
Definition listed (dir : list entry) : list entry :=
  filter (fun e => e_name e <> dot /\ e_name e <> dotdot) dir.

Definition contents (l : list entry) : list Z := mjoin (e_data <$> l).

(** The descriptors of files that follow [offset] bytes. *)
Fixpoint descriptors (l : list entry) (offset : Z) : list Z :=
  match l with
  | [] => []
  | e :: l =>
      let offset := offset + Z.of_nat (length (e_data e)) in
      descriptor e offset ++ descriptors l offset
  end.

Lemma contents_cons e l : contents (e :: l) = e_data e ++ contents l.
Proof. done. Qed.

Lemma pack_loop_ok dir : forall offset content header,
  0 <= offset -> offset + Z.of_nat (length (contents (listed dir))) < 2 ^ 32 ->
  pack_loop dir offset content header =
    if decide (Forall (fun e => length (e_name e) < 32)%nat (listed dir))
    then Ok (content ++ contents (listed dir), header ++ descriptors (listed dir) offset) else Fault.
Proof.
  unfold listed. induction dir as [|e dir IH]; intros offset content header Ho Hl; cbn [pack_loop].
  { rewrite filter_nil. cbn. rewrite !app_nil_r. done. }
  rewrite filter_cons in Hl |- *. case_decide as He; [|by apply IH].
  rewrite contents_cons, length_app in Hl.
  rewrite copyFile_ok by lia. cbn [mbind res_bind].
  assert ((if decide (e_data e = []) then 0 else u32 (0 + Z.of_nat (length (e_data e))))
    = Z.of_nat (length (e_data e))) as ->.
  { destruct (e_data e) eqn:Hd; [done|]. rewrite decide_False by done. apply wrap_id. unfold uint. lia. }
  rewrite wrap_id by (unfold uint; lia). unfold name_bytes. destruct (decide (length (e_name e) < 32)%nat) as [Hn|Hn]; cbn [mbind res_bind mret res_ret].
  - rewrite IH by lia. case_decide as Hall.
    + rewrite decide_True by (by constructor).
      rewrite contents_cons. cbn [descriptors]. unfold descriptor. by rewrite <- !app_assoc.
    + rewrite decide_False by (rewrite Forall_cons; tauto). done.
  - rewrite decide_False; [done|]. rewrite Forall_cons. tauto.
Qed.

Lemma contents_app l k : contents (l ++ k) = contents l ++ contents k.
Proof. induction l as [|e l IH]; [done|]. cbn [app]. by rewrite !contents_cons, IH, app_assoc. Qed.

Lemma length_descriptor e offset : (length (e_name e) < 32)%nat -> length (descriptor e offset) = 40%nat.
Proof.
  intros Hn. unfold descriptor. rewrite !length_app, length_replicate, !length_le_bytes. lia.
Qed.

Lemma descriptors_lookup l : forall i e base rest, Forall (fun e => length (e_name e) < 32)%nat l ->
  l !! i = Some e ->
  take 40 (drop (40 * i) (descriptors l base ++ rest)) =
    descriptor e (base + Z.of_nat (length (contents (take (S i) l)))).
Proof.
  induction l as [|e0 l IH]; intros i e base rest Hn Hi; [done|].
  apply Forall_cons in Hn as [H0 Hn]. cbn [descriptors]. rewrite <- app_assoc.
  destruct i as [|i]; cbn [lookup list_lookup] in Hi.
  - injection Hi as <-. rewrite Nat.mul_0_r, drop_0.
    rewrite take_app_length' by (by rewrite length_descriptor). rewrite firstn_cons, firstn_O, contents_cons.
    by rewrite app_nil_r.
  - replace (40 * S i)%nat with (40 + 40 * i)%nat by lia.
    rewrite <- drop_drop, drop_app_length' by (by rewrite length_descriptor).
    rewrite (IH i e) by done. rewrite firstn_cons, contents_cons, length_app. f_equal. lia.
Qed.

Lemma length_descriptors l : forall base, Forall (fun e => length (e_name e) < 32)%nat l ->
  length (descriptors l base) = (40 * length l)%nat.
Proof.
  induction l as [|e l IH]; intros base Hn; [done|]. apply Forall_cons in Hn as [H0 Hn].
  cbn [descriptors length]. rewrite length_app, length_descriptor, IH by done. lia.
Qed.

Lemma contents_lookup l : forall i e, l !! i = Some e ->
  take (length (e_data e))
    (drop (length (contents (take (S i) l)) - length (e_data e)) (contents l)) = e_data e.
Proof.
  induction l as [|e0 l IH]; intros i e Hi; [done|].
  rewrite firstn_cons, !contents_cons, length_app. destruct i as [|i]; cbn [lookup list_lookup] in Hi.
  - injection Hi as <-. rewrite firstn_O. change (length (contents [])) with 0%nat.
    rewrite Nat.add_0_r, Nat.sub_diag, drop_0. apply take_app_length.
  - assert (length (e_data e) <= length (contents (take (S i) l)))%nat as Hle.
    { rewrite (take_S_r _ _ _ Hi). rewrite contents_app, contents_cons, !length_app. lia. }
    rewrite <- Nat.add_sub_assoc by done. rewrite <- drop_drop, drop_app_length. by apply IH.
Qed.

(** C8: Images.  mkmodule puts a header before the file and nothing else; wherever
    the kernel finds the result in memory, [handleModules] takes it for a RAM disk
    of the file's size.  mkramdisk writes a descriptor of 40 bytes for each file
    of the directory and then their contents, and overruns its buffer for a name
    of 32 or more bytes; each file can be found again, but from the end: the
    offset in its descriptor is the one of its end in the contents.  There is
    neither a magic number nor a count. *)
Theorem images_correct input m a sz name dir :
  Z.of_nat (length input) < 2 ^ 32 -> Z.of_nat (length (contents (listed dir))) < 2 ^ 32 ->
  (exists img, mkmodule input = Ok img /\ length img = (16 + length input)%nat /\ drop 16 img = input /\
     (bytes_at m a img ->
      handleModules m [Mod a sz name] = Ok [FoundRamdisk 0 (Z.of_nat (length input))])) /\
  (if decide (Forall (fun e => length (e_name e) < 32)%nat (listed dir))
   then exists img, mkramdisk dir = Ok img /\
     forall i e, listed dir !! i = Some e ->
       let offset := length (contents (take (S i) (listed dir))) in
       take 40 (drop (40 * i) img) = descriptor e (Z.of_nat offset) /\
       take (length (e_data e)) (drop (40 * length (listed dir) + (offset - length (e_data e))) img)
       = e_data e
   else mkramdisk dir = Fault).
Proof.
  intros Hi Hd. split.
  - unfold mkmodule. rewrite count_loop_ok by lia. cbn [mbind res_bind].
    rewrite Z.add_0_l, wrap_id by (unfold uint; lia). rewrite copy_loop_ok by lia.
    set (h := header_bytes _). assert (length h = 16%nat) as Hh by done.
    eexists. split; [done|]. split; [by rewrite length_app, Hh|].
    split; [by rewrite drop_app_length' by done|].
    intros Hb. apply bytes_at_app in Hb as [Hb _]. unfold h, header_bytes in Hb. cbn [magic type size checksum] in Hb.
    rewrite !bytes_at_app, !length_le_bytes in Hb. destruct Hb as (H1 & H2 & H3 & _).
    replace (a + Z.of_nat 4 + Z.of_nat 4) with (a + 8) in H3 by lia. change (Z.of_nat 4) with 4 in H2.
    cbn [handleModules]. unfold handle_module. cbn [mod_address].
    rewrite (load32_ok _ _ _ H1), (load32_ok _ _ _ H2), (load32_ok _ _ _ H3) by done.
    rewrite !le_word_bytes. cbn [mbind res_bind]. change (wrap (8 * Z.of_nat 4) RamdiskMagic =? RamdiskMagic) with true.
    cbn [mret res_ret]. change (8 * Z.of_nat 4) with 32. by rewrite !wrap_id by (unfold uint; lia).
  - unfold mkramdisk. rewrite pack_loop_ok by lia. case_decide as Hn; [|done].
    cbn [mbind res_bind]. rewrite !copy_loop_ok by lia. cbn [mbind res_bind app].
    rewrite copy_loop_ok by lia. eexists. split; [done|]. intros i e He. split.
    + rewrite (descriptors_lookup _ i e) by done. by rewrite Z.add_0_l.
    + rewrite <- drop_drop, drop_app_length' by (by rewrite length_descriptors). by apply contents_lookup.
Qed.

(** A module of three bytes at 1 MB, and a directory with two files. *)
Lemma images_correct_witness :
  let dir := [Entry dot []; Entry [97] [1; 2]; Entry [98] [3; 4; 5]] in
  (exists img, mkmodule [7; 8; 9] = Ok img /\
     handleModules (put 0x100000 img ∅) [Mod 0x100000 19 []] = Ok [FoundRamdisk 0 3]) /\
  (exists img, mkramdisk dir = Ok img /\
     take 40 (drop 40 img) = descriptor (Entry [98] [3; 4; 5]) 5 /\ take 3 (drop 82 img) = [3; 4; 5]).
Proof.
  intros dir. split.
  - destruct (images_correct [7; 8; 9] (put 0x100000 (header_bytes (Header RamdiskMagic 0 3 0) ++ [7; 8; 9]) ∅)
      0x100000 19 [] []) as ((img & E & _ & _ & H) & _); [done..|].
    assert (img = header_bytes (Header RamdiskMagic 0 3 0) ++ [7; 8; 9]) as ->
      by (apply Ok_inj; rewrite <- E; vm_compute; reflexivity).
    exists (header_bytes (Header RamdiskMagic 0 3 0) ++ [7; 8; 9]). split; [exact E|].
    apply H, bytes_at_put.
  - destruct (images_correct [] ∅ 0 0 [] dir) as (_ & H); [done..|].
    change (listed dir) with [Entry [97] [1; 2]; Entry [98] [3; 4; 5]] in H.
    rewrite decide_True in H by (repeat (constructor; [cbn; lia|]); constructor).
    destruct H as (img & E & H). exists img. split; [exact E|]. exact (H 1%nat _ eq_refl).
Defined.
