(* ===== verification/CBytes.v ===== *)
(** * Memory routines of the C library (src/CLibrary/string)

    [memmove], [bcopy] and [memcpy] copy whole words after aligning both
    pointers, forwards or backwards; [memcpy] aborts when the regions overlap.
    The others look at one byte at a time.  Counted loops recurse on the number
    of rounds that the C counter leaves. *)

From S2P Require Import Prelude Words CMem.
From Stdlib Require Import ZArith Lia.
From stdpp Require Import prelude gmap list.

Open Scope Z_scope.

(** ** Copying (memmove.c, bcopy.c, memcpy.c) *)

Definition wsize : Z := 4.
Definition wmask : Z := wsize - 1.

(** The state of the copy loops: memory, [dst], [src]. *)
Notation cursor := (mem * Z * Z)%type.

Definition byte_fwd : cursor -> res cursor := fun '(m, dst, src) =>
  b ← load m src; m ← store m dst b; Ok (m, dst + 1, src + 1).
Definition word_fwd : cursor -> res cursor := fun '(m, dst, src) =>
  w ← load32 m src; m ← store32 m dst w; Ok (m, dst + wsize, src + wsize).
Definition byte_bwd : cursor -> res cursor := fun '(m, dst, src) =>
  b ← load m (src - 1); m ← store m (dst - 1) b; Ok (m, dst - 1, src - 1).
Definition word_bwd : cursor -> res cursor := fun '(m, dst, src) =>
  w ← load32 m (src - wsize); m ← store32 m (dst - wsize) w; Ok (m, dst - wsize, src - wsize).

Fixpoint times (k : nat) (s : cursor -> res cursor) (x : cursor) : res cursor :=
  match k with O => Ok x | S k' => x ← s x; times k' s x end.

(** [do { s; } while (--t)]: a zero count wraps around. *)
Definition TLOOP1 (t : Z) (s : cursor -> res cursor) (x : cursor) : res cursor :=
  times (Z.to_nat (if t =? 0 then 2 ^ 32 else t)) s x.
Definition TLOOP (t : Z) (s : cursor -> res cursor) (x : cursor) : res cursor :=
  if t =? 0 then Ok x else TLOOP1 t s x.

(** Words, then the trailing bytes. *)
Definition mop_up (length : Z) (word byte : cursor -> res cursor) (x : cursor) : res cursor :=
  x ← TLOOP (length / wsize) word x;
  TLOOP (Z.land length wmask) byte x.

Definition copy_forward (m : mem) (dst src length : Z) : res cursor :=
  if Z.land (Z.lor src dst) wmask =? 0 then mop_up length word_fwd byte_fwd (m, dst, src)
  else
    let t :=
      if negb (Z.land (Z.lxor src dst) wmask =? 0) || (length <? wsize) then length
      else wsize - Z.land src wmask in
    x ← TLOOP1 t byte_fwd (m, dst, src);
    mop_up (u32 (length - t)) word_fwd byte_fwd x.

Definition copy_backward (m : mem) (dst src length : Z) : res cursor :=
  let src := src + length in
  let dst := dst + length in
  if Z.land (Z.lor src dst) wmask =? 0 then mop_up length word_bwd byte_bwd (m, dst, src)
  else
    let t :=
      if negb (Z.land (Z.lxor src dst) wmask =? 0) || (length <=? wsize) then length
      else Z.land src wmask in
    x ← TLOOP1 t byte_bwd (m, dst, src);
    mop_up (u32 (length - t)) word_bwd byte_bwd x.

Definition memmove (m : mem) (dst0 src0 length : Z) : res (mem * Z) :=
  if (length =? 0) || (dst0 =? src0) then Ok (m, dst0)
  else if dst0 <? src0
  then '(m, _, _) ← copy_forward m dst0 src0 length; Ok (m, dst0)
  else '(m, _, _) ← copy_backward m dst0 src0 length; Ok (m, dst0).

Definition bcopy (m : mem) (src0 dst0 length : Z) : res mem :=
  if (length =? 0) || (dst0 =? src0) then Ok m
  else if dst0 <? src0
  then '(m, _, _) ← copy_forward m dst0 src0 length; Ok m
  else '(m, _, _) ← copy_backward m dst0 src0 length; Ok m.

Definition memcpy (m : mem) (dst0 src0 length : Z) : res (mem * Z) :=
  if (length =? 0) || (dst0 =? src0) then Ok (m, dst0)
  else if ((dst0 <? src0) && (src0 <? dst0 + length))
          || ((src0 <? dst0) && (dst0 <? src0 + length)) then Panic
  else '(m, _, _) ← copy_forward m dst0 src0 length; Ok (m, dst0).

(** ** Filling (memset.c, bzero.c, explicit_bzero.c) *)

Fixpoint memset_loop (m : mem) (d c : Z) (n : nat) : res mem :=
  match n with O => Ok m | S n' => m ← store m d c; memset_loop m (d + 1) c n' end.

Definition memset (m : mem) (dst c n : Z) : res (mem * Z) :=
  m ← memset_loop m dst c (Z.to_nat n); Ok (m, dst).

Fixpoint bzero_loop (m : mem) (p : Z) (length : nat) : res mem :=
  match length with O => Ok m | S n' => m ← store m p 0; bzero_loop m (p + 1) n' end.

Definition bzero (m : mem) (b length : Z) : res mem := bzero_loop m b (Z.to_nat length).

(** The hook of explicit_bzero.c does nothing. *)
Definition explicit_bzero (m : mem) (buf len : Z) : res mem := fst <$> memset m buf 0 len.

(** ** Searching (memchr.c, memrchr.c, memccpy.c) *)

Fixpoint memchr_loop (m : mem) (p c : Z) (n : nat) : res Z :=
  match n with
  | O => Ok NULL
  | S n' => b ← load m p; if b =? u8 c then Ok p else memchr_loop m (p + 1) c n'
  end.
Definition memchr (m : mem) (s c n : Z) : res Z := memchr_loop m s c (Z.to_nat n).

Fixpoint memrchr_loop (m : mem) (cp c : Z) (n : nat) : res Z :=
  match n with
  | O => Ok NULL
  | S n' => b ← load m (cp - 1); if b =? u8 c then Ok (cp - 1) else memrchr_loop m (cp - 1) c n'
  end.
Definition memrchr (m : mem) (s c n : Z) : res Z := memrchr_loop m (s + n) c (Z.to_nat n).

Fixpoint memccpy_loop (m : mem) (tp fp uc : Z) (n : nat) : res (mem * Z) :=
  match n with
  | O => Ok (m, 0)
  | S n' =>
      b ← load m fp;
      m ← store m tp b;
      if b =? uc then Ok (m, tp + 1) else memccpy_loop m (tp + 1) (fp + 1) uc n'
  end.
Definition memccpy (m : mem) (t f c n : Z) : res (mem * Z) :=
  memccpy_loop m t f (u8 c) (Z.to_nat n).

(** ** Comparing (memcmp.c, bcmp.c, timingsafe_bcmp.c, timingsafe_memcmp.c) *)

Fixpoint memcmp_loop (m : mem) (p1 p2 : Z) (n : nat) : res Z :=
  match n with
  | O => Ok 0
  | S n' =>
      a ← load m p1; b ← load m p2;
      if negb (a =? b) then Ok (a - b) else memcmp_loop m (p1 + 1) (p2 + 1) n'
  end.
Definition memcmp (m : mem) (s1 s2 n : Z) : res Z := memcmp_loop m s1 s2 (Z.to_nat n).

Fixpoint bcmp_loop (m : mem) (p1 p2 : Z) (n : nat) : res Z :=
  match n with
  | O => Ok 0
  | S n' =>
      a ← load m p1; b ← load m p2;
      if negb (schar a =? schar b) then Ok 1 else bcmp_loop m (p1 + 1) (p2 + 1) n'
  end.
Definition bcmp (m : mem) (b1 b2 length : Z) : res Z :=
  if length =? 0 then Ok 0 else bcmp_loop m b1 b2 (Z.to_nat length).

Fixpoint timingsafe_bcmp_loop (m : mem) (p1 p2 ret : Z) (n : nat) : res Z :=
  match n with
  | O => Ok ret
  | S n' =>
      a ← load m p1; b ← load m p2;
      timingsafe_bcmp_loop m (p1 + 1) (p2 + 1) (Z.lor ret (Z.lxor a b)) n'
  end.
Definition timingsafe_bcmp (m : mem) (b1 b2 n : Z) : res Z :=
  ret ← timingsafe_bcmp_loop m b1 b2 0 (Z.to_nat n);
  Ok (Z.b2z (negb (ret =? 0))).

Definition CHAR_BIT : Z := 8.

(** [res] and [done] are [int]s; [~] is [Z.lnot]. *)
Fixpoint timingsafe_memcmp_loop (m : mem) (p1 p2 res done : Z) (n : nat) : Prelude.res Z :=
  match n with
  | O => Ok res
  | S n' =>
      a ← load m p1; b ← load m p2;
      let lt := Z.shiftr (a - b) CHAR_BIT in
      let gt := Z.shiftr (b - a) CHAR_BIT in
      let cmp := lt - gt in
      timingsafe_memcmp_loop m (p1 + 1) (p2 + 1) (Z.lor res (Z.land cmp (Z.lnot done)))
        (Z.lor done (Z.lor lt gt)) n'
  end.
Definition timingsafe_memcmp (m : mem) (b1 b2 len : Z) : res Z :=
  timingsafe_memcmp_loop m b1 b2 0 0 (Z.to_nat len).

(** ** memmem.c *)

Fixpoint memmem_loop (m : mem) (cur cs s_len : Z) (k : nat) : res Z :=
  match k with
  | O => Ok NULL
  | S k' =>
      a ← load m cur; b ← load m cs;
      if a =? b then
        r ← memcmp m cur cs s_len;
        if r =? 0 then Ok cur else memmem_loop m (cur + 1) cs s_len k'
      else memmem_loop m (cur + 1) cs s_len k'
  end.

(** [for (cur = cl; cur <= last; cur++)] runs [l_len - s_len + 1] times. *)
Definition memmem (m : mem) (l l_len s s_len : Z) : res Z :=
  if s_len =? 0 then Ok l
  else if l_len <? s_len then Ok NULL
  else if s_len =? 1 then c ← load m s; memchr m l (schar c) l_len
  else memmem_loop m l s s_len (Z.to_nat (l_len - s_len + 1)).

(** ** swab.c *)

Definition STEP : cursor -> res cursor := fun '(m, tp, fp) =>
  temp ← load m fp;
  b ← load m (fp + 1);
  m ← store m tp b;
  m ← store m (tp + 1) temp;
  Ok (m, tp + 2, fp + 2).

(** [while ((--n) & 07) STEP]; the number of rounds is bounded by the fuel. *)
Fixpoint swab_align (fuel : nat) (n : Z) (x : cursor) : res (Z * cursor) :=
  match fuel with
  | O => NoFuel
  | S fuel' =>
      let n := u32 (n - 1) in
      if Z.land n 7 =? 0 then Ok (n, x) else x ← STEP x; swab_align fuel' n x
  end.

Definition swab (m : mem) (from to len : Z) : res mem :=
  '(n, x) ← swab_align 9 (len / 2 + 1) (m, to, from);
  let n := Z.shiftr n 3 in
  if n =? 0 then Ok x.1.1
  else x ← times (Z.to_nat n) (times 8 STEP) x; Ok x.1.1.

(** ** ffs.c *)

Definition ffs_table : list Z := [-28; 1; 2; 1; 3; 1; 2; 1; 4; 1; 2; 1; 3; 1; 2; 1].

Definition ffs (mask : Z) : res Z :=
  let r := u32 mask in
  let '(bit, r) := if Z.land r 0xffff =? 0 then (16, Z.shiftr r 16) else (0, r) in
  let '(bit, r) := if Z.land r 0xff =? 0 then (bit + 8, Z.shiftr r 8) else (bit, r) in
  let '(bit, r) := if Z.land r 0xf =? 0 then (bit + 4, Z.shiftr r 4) else (bit, r) in
  t ← deref (ffs_table !! Z.to_nat (Z.land r 0xf));
  Ok (bit + t).

(** ** The copy loops *)

(** A step that moves [w] bytes from the cursor forwards, and one that moves
    the [w] bytes before it. *)
Definition moves_fwd (w : nat) (f : cursor -> res cursor) : Prop :=
  forall m dst src l, length l = w -> bytes_at m src l -> bytes_ok l ->
    mapped m dst (Z.of_nat w) ->
    f (m, dst, src) = Ok (put dst l m, dst + Z.of_nat w, src + Z.of_nat w).

Definition moves_bwd (w : nat) (f : cursor -> res cursor) : Prop :=
  forall m dst src l, length l = w -> bytes_at m (src - Z.of_nat w) l -> bytes_ok l ->
    mapped m (dst - Z.of_nat w) (Z.of_nat w) ->
    f (m, dst, src) = Ok (put (dst - Z.of_nat w) l m, dst - Z.of_nat w, src - Z.of_nat w).

Lemma bytes_ok_app l k : bytes_ok (l ++ k) <-> bytes_ok l /\ bytes_ok k.
Proof. apply Forall_app. Qed.

Lemma byte_fwd_moves : moves_fwd 1 byte_fwd.
Proof.
  intros m dst src [|b [|]] Hl Hs Hb Hm; try done. apply bytes_at_single in Hs.
  apply Forall_cons in Hb as [Hb _]. unfold byte_fwd. rewrite (load_ok _ _ _ Hs).
  cbn [mbind res_bind]. rewrite store_ok by (done || (apply Hm; lia)). done.
Qed.

Lemma byte_bwd_moves : moves_bwd 1 byte_bwd.
Proof.
  intros m dst src [|b [|]] Hl Hs Hb Hm; try done. apply bytes_at_single in Hs.
  apply Forall_cons in Hb as [Hb _]. unfold byte_bwd. change (Z.of_nat 1) with 1 in *.
  rewrite (load_ok _ _ _ Hs). cbn [mbind res_bind].
  rewrite store_ok by (done || (apply Hm; lia)). done.
Qed.

Lemma word_fwd_moves : moves_fwd 4 word_fwd.
Proof.
  intros m dst src l Hl Hs Hb Hm. unfold word_fwd. rewrite (load32_ok _ _ _ Hs Hl).
  cbn [mbind res_bind]. by rewrite store32_ok.
Qed.

Lemma word_bwd_moves : moves_bwd 4 word_bwd.
Proof.
  intros m dst src l Hl Hs Hb Hm. unfold word_bwd, wsize. change (Z.of_nat 4) with 4 in *.
  rewrite (load32_ok _ _ _ Hs Hl). cbn [mbind res_bind]. by rewrite store32_ok.
Qed.

(** Forwards is safe when the destination is below the source or the regions
    are disjoint. *)
Definition fwd_safe (dst src len : Z) : Prop := dst <= src \/ src + len <= dst.

Lemma times_fwd w f : moves_fwd w f -> forall k m dst src l,
  length l = (k * w)%nat -> bytes_at m src l -> bytes_ok l ->
  mapped m dst (Z.of_nat (length l)) -> fwd_safe dst src (Z.of_nat (length l)) ->
  times k f (m, dst, src)
  = Ok (put dst l m, dst + Z.of_nat (length l), src + Z.of_nat (length l)).
Proof.
  intros Hf. induction k as [|k IH]; intros m dst src l Hl Hs Hb Hm Hd.
  - apply nil_length_inv in Hl as ->. cbn. f_equal. f_equal; [f_equal|]; lia.
  - rewrite <-(take_drop w l) in Hs, Hb |- *. apply bytes_at_app in Hs as [Hs1 Hs2].
    apply bytes_ok_app in Hb as [Hb1 Hb2]. rewrite length_app.
    assert (length (take w l) = w) as Hlt by (rewrite length_take; lia).
    assert (length (drop w l) = (k * w)%nat) as Hld by (rewrite length_drop; lia).
    rewrite Hlt in *. unfold fwd_safe in Hd. cbn [times].
    rewrite (Hf m dst src (take w l)) by (done || (eapply mapped_mono; [exact Hm|lia|lia])).
    cbn [mbind res_bind]. rewrite (IH _ _ _ (drop w l)); [|done| |done| |].
    + rewrite put_app, Hlt. f_equal. f_equal; [f_equal|]; lia.
    + apply bytes_at_put_disjoint; [rewrite Hlt, Hld; lia|done].
    + apply mapped_put. eapply mapped_mono; [exact Hm|lia|lia].
    + unfold fwd_safe. lia.
Qed.

Lemma times_bwd w f : moves_bwd w f -> forall k m dst src l,
  length l = (k * w)%nat -> bytes_at m (src - Z.of_nat (length l)) l -> bytes_ok l ->
  mapped m (dst - Z.of_nat (length l)) (Z.of_nat (length l)) -> src <= dst ->
  times k f (m, dst, src)
  = Ok (put (dst - Z.of_nat (length l)) l m, dst - Z.of_nat (length l), src - Z.of_nat (length l)).
Proof.
  intros Hf. induction k as [|k IH]; intros m dst src l Hl Hs Hb Hm Hd.
  - apply nil_length_inv in Hl as ->. cbn. f_equal. f_equal; [f_equal|]; lia.
  - rewrite <-(take_drop (k * w) l) in Hs, Hb |- *.
    assert (length (take (k * w) l) = (k * w)%nat) as Hlt by (rewrite length_take; lia).
    assert (length (drop (k * w) l) = w) as Hld by (rewrite length_drop; lia).
    rewrite length_app, Hlt, Hld in *. apply bytes_at_app in Hs as [Hs1 Hs2].
    apply bytes_ok_app in Hb as [Hb1 Hb2]. rewrite Hlt in Hs2. cbn [times].
    rewrite (Hf m dst src (drop (k * w) l)); [|done| |done|].
    2:{ replace (src - Z.of_nat w) with (src - Z.of_nat (k * w + w) + Z.of_nat (k * w)) by lia. done. }
    2:{ eapply mapped_mono; [exact Hm|lia|lia]. }
    cbn [mbind res_bind]. rewrite (IH _ _ _ (take (k * w) l)); [|done| |done| |lia].
    + rewrite Hlt, put_app, Hlt. rewrite put_put_comm by (rewrite Hlt, Hld; lia).
      f_equal. f_equal; [f_equal|]; [|lia|lia]. f_equal; [lia|f_equal; lia].
    + rewrite Hlt. apply bytes_at_put_disjoint; [rewrite Hlt; lia|].
      by replace (src - Z.of_nat w - Z.of_nat (k * w)) with (src - Z.of_nat (k * w + w)) by lia.
    + rewrite Hlt. apply mapped_put. eapply mapped_mono; [exact Hm|lia|lia].
Qed.

Lemma TLOOP1_times t f x : 0 < t -> TLOOP1 t f x = times (Z.to_nat t) f x.
Proof. intros. unfold TLOOP1. by rewrite (proj2 (Z.eqb_neq _ _)) by lia. Qed.

Lemma TLOOP_times t f x : 0 <= t -> TLOOP t f x = times (Z.to_nat t) f x.
Proof.
  intros. unfold TLOOP. destruct (t =? 0) eqn:E; zbool; [by subst|]. apply TLOOP1_times. lia.
Qed.

(** Words, then bytes: everything that is left. *)
Lemma mop_up_counts n : 0 <= n ->
  Z.to_nat n = (Z.to_nat (n / wsize) * 4 + Z.to_nat (Z.land n wmask) * 1)%nat
  /\ 0 <= n / wsize /\ 0 <= Z.land n wmask.
Proof.
  intros Hn. unfold wmask, wsize. change (4 - 1) with (2 ^ 2 - 1). rewrite land_ones_low by lia.
  change (2 ^ 2) with 4. Z.div_mod_to_equations. lia.
Qed.

Lemma mop_up_fwd m dst src l : bytes_at m src l -> bytes_ok l ->
  mapped m dst (Z.of_nat (length l)) -> fwd_safe dst src (Z.of_nat (length l)) ->
  mop_up (Z.of_nat (length l)) word_fwd byte_fwd (m, dst, src)
  = Ok (put dst l m, dst + Z.of_nat (length l), src + Z.of_nat (length l)).
Proof.
  intros Hs Hb Hm Hd. set (n := Z.of_nat (length l)).
  destruct (mop_up_counts n) as (En & Hw & Hr); [lia|]. unfold n in En at 1. rewrite Nat2Z.id in En.
  unfold mop_up. rewrite TLOOP_times by done.
  set (k := Z.to_nat (n / wsize)) in *. set (r := Z.to_nat (Z.land n wmask)) in *.
  rewrite <-(take_drop (k * 4) l) in Hs, Hb |- *.
  assert (length (take (k * 4) l) = (k * 4)%nat) as Hlt by (rewrite length_take; lia).
  assert (length (drop (k * 4) l) = (r * 1)%nat) as Hld by (rewrite length_drop; lia).
  apply bytes_at_app in Hs as [Hs1 Hs2]. apply bytes_ok_app in Hb as [Hb1 Hb2].
  assert (n = Z.of_nat (k * 4) + Z.of_nat (r * 1)) as Ek by lia. fold n in Hm, Hd. unfold fwd_safe in Hd.
  rewrite (times_fwd 4 _ word_fwd_moves k m dst src (take (k * 4) l));
    [|done|done|done|eapply mapped_mono; [exact Hm|lia|lia]|unfold fwd_safe; lia].
  cbn [mbind res_bind]. rewrite TLOOP_times by done. fold r.
  rewrite (times_fwd 1 _ byte_fwd_moves r _ _ _ (drop (k * 4) l)); [|done| |done| |].
  - rewrite put_app, Hlt, Hld. f_equal. f_equal; [f_equal|]; lia.
  - apply bytes_at_put_disjoint; [lia|done].
  - apply mapped_put. eapply mapped_mono; [exact Hm|lia|lia].
  - unfold fwd_safe. lia.
Qed.

Lemma mop_up_bwd m dst src l : bytes_at m (src - Z.of_nat (length l)) l -> bytes_ok l ->
  mapped m (dst - Z.of_nat (length l)) (Z.of_nat (length l)) -> src <= dst ->
  mop_up (Z.of_nat (length l)) word_bwd byte_bwd (m, dst, src)
  = Ok (put (dst - Z.of_nat (length l)) l m, dst - Z.of_nat (length l), src - Z.of_nat (length l)).
Proof.
  intros Hs Hb Hm Hd. set (n := Z.of_nat (length l)) in *.
  destruct (mop_up_counts n) as (En & Hw & Hr); [lia|]. unfold n in En at 1. rewrite Nat2Z.id in En.
  unfold mop_up. rewrite TLOOP_times by done.
  set (k := Z.to_nat (n / wsize)) in *. set (r := Z.to_nat (Z.land n wmask)) in *.
  rewrite <-(take_drop (r * 1) l) in Hs, Hb |- *.
  assert (length (take (r * 1) l) = (r * 1)%nat) as Hlt by (rewrite length_take; lia).
  assert (length (drop (r * 1) l) = (k * 4)%nat) as Hld by (rewrite length_drop; lia).
  apply bytes_at_app in Hs as [Hs1 Hs2]. apply bytes_ok_app in Hb as [Hb1 Hb2].
  assert (n = Z.of_nat (k * 4) + Z.of_nat (r * 1)) as Ek by lia.
  rewrite (times_bwd 4 _ word_bwd_moves k m dst src (drop (r * 1) l)); [|done| |done| |done].
  2:{ rewrite Hld. rewrite Hlt in Hs2.
      by replace (src - Z.of_nat (k * 4)) with (src - n + Z.of_nat (r * 1)) by lia. }
  2:{ rewrite Hld. eapply mapped_mono; [exact Hm|lia|lia]. }
  cbn [mbind res_bind]. rewrite TLOOP_times by done. fold r.
  rewrite (times_bwd 1 _ byte_bwd_moves r _ _ _ (take (r * 1) l)); [|done| |done| |lia].
  - rewrite put_app, Hlt, Hld. rewrite put_put_comm by (rewrite Hlt, Hld; lia).
    f_equal. f_equal; [f_equal|]; [|lia|lia]. f_equal; [lia|f_equal; lia].
  - rewrite Hlt, Hld. apply bytes_at_put_disjoint; [lia|].
    by replace (src - Z.of_nat (k * 4) - Z.of_nat (r * 1)) with (src - n) by lia.
  - rewrite Hlt, Hld. apply mapped_put. eapply mapped_mono; [exact Hm|lia|lia].
Qed.

(** The bytes that align the pointers, then the rest. *)
Lemma align_fwd m dst src l t : bytes_at m src l -> bytes_ok l ->
  mapped m dst (Z.of_nat (length l)) -> fwd_safe dst src (Z.of_nat (length l)) ->
  1 <= t <= Z.of_nat (length l) -> Z.of_nat (length l) < 2 ^ 32 ->
  (x ← TLOOP1 t byte_fwd (m, dst, src);
   mop_up (u32 (Z.of_nat (length l) - t)) word_fwd byte_fwd x)
  = Ok (put dst l m, dst + Z.of_nat (length l), src + Z.of_nat (length l)).
Proof.
  intros Hs Hb Hm Hd Ht Hlen. rewrite TLOOP1_times by lia. set (k := Z.to_nat t).
  rewrite <-(take_drop k l) in Hs, Hb |- *.
  assert (length (take k l) = k) as Hlt by (rewrite length_take; lia).
  assert (length (drop k l) = (length l - k)%nat) as Hld by (by rewrite length_drop).
  apply bytes_at_app in Hs as [Hs1 Hs2]. apply bytes_ok_app in Hb as [Hb1 Hb2].
  rewrite Hlt in Hs2. rewrite length_app. unfold fwd_safe in Hd.
  rewrite (times_fwd 1 _ byte_fwd_moves k m dst src (take k l));
    [|lia|done|done|eapply mapped_mono; [exact Hm|lia|lia]|unfold fwd_safe; lia].
  cbn [mbind res_bind]. rewrite Hlt.
  replace (u32 (Z.of_nat (k + length (drop k l)) - t)) with (Z.of_nat (length (drop k l)))
    by (rewrite wrap_id; [lia|unfold uint; lia]).
  rewrite mop_up_fwd.
  - rewrite put_app, Hlt. f_equal. f_equal; [f_equal|]; lia.
  - apply bytes_at_put_disjoint; [lia|done].
  - done.
  - apply mapped_put. eapply mapped_mono; [exact Hm|lia|lia].
  - unfold fwd_safe. lia.
Qed.

Lemma align_bwd m dst src l t : bytes_at m (src - Z.of_nat (length l)) l -> bytes_ok l ->
  mapped m (dst - Z.of_nat (length l)) (Z.of_nat (length l)) -> src <= dst ->
  1 <= t <= Z.of_nat (length l) -> Z.of_nat (length l) < 2 ^ 32 ->
  (x ← TLOOP1 t byte_bwd (m, dst, src);
   mop_up (u32 (Z.of_nat (length l) - t)) word_bwd byte_bwd x)
  = Ok (put (dst - Z.of_nat (length l)) l m, dst - Z.of_nat (length l), src - Z.of_nat (length l)).
Proof.
  intros Hs Hb Hm Hd Ht Hlen. rewrite TLOOP1_times by lia. set (k := Z.to_nat t).
  set (j := (length l - k)%nat). rewrite <-(take_drop j l) in Hs, Hb |- *.
  assert (length (take j l) = j) as Hlt by (rewrite length_take; lia).
  assert (length (drop j l) = k) as Hld by (rewrite length_drop; lia).
  rewrite !length_app, Hlt, Hld in *.
  apply bytes_at_app in Hs as [Hs1 Hs2]. apply bytes_ok_app in Hb as [Hb1 Hb2].
  rewrite Hlt in Hs2.
  rewrite (times_bwd 1 _ byte_bwd_moves k m dst src (drop j l)); [|lia| |done| |done].
  2:{ rewrite Hld. by replace (src - Z.of_nat k) with (src - Z.of_nat (j + k) + Z.of_nat j) by lia. }
  2:{ rewrite Hld. eapply mapped_mono; [exact Hm|lia|lia]. }
  cbn [mbind res_bind]. rewrite Hld.
  replace (u32 (Z.of_nat (j + k) - t)) with (Z.of_nat (length (take j l)))
    by (rewrite wrap_id; [lia|unfold uint; lia]).
  rewrite mop_up_bwd.
  - rewrite Hlt, put_app, Hlt. rewrite put_put_comm by lia.
    f_equal. f_equal; [f_equal|]; [|lia|lia]. f_equal; [lia|f_equal; lia].
  - rewrite Hlt. apply bytes_at_put_disjoint; [lia|].
    by replace (src - Z.of_nat k - Z.of_nat j) with (src - Z.of_nat (j + k)) by lia.
  - done.
  - rewrite Hlt. apply mapped_put. eapply mapped_mono; [exact Hm|lia|lia].
  - lia.
Qed.

Lemma land_wmask x : Z.land x wmask = x mod 4.
Proof. exact (land_ones_low x 2 ltac:(lia)). Qed.

Lemma copy_forward_spec m dst src l : bytes_at m src l -> bytes_ok l ->
  mapped m dst (Z.of_nat (length l)) -> fwd_safe dst src (Z.of_nat (length l)) ->
  0 < Z.of_nat (length l) < 2 ^ 32 ->
  copy_forward m dst src (Z.of_nat (length l))
  = Ok (put dst l m, dst + Z.of_nat (length l), src + Z.of_nat (length l)).
Proof.
  intros Hs Hb Hm Hd Hlen. unfold copy_forward. destruct (_ =? 0); [by apply mop_up_fwd|].
  apply align_fwd; try done; [|lia].
  destruct (_ || _) eqn:E; [lia|]. apply orb_false_iff in E as [_ E]. zbool.
  unfold wsize in *. rewrite land_wmask. Z.div_mod_to_equations. lia.
Qed.

(** Pointers that are congruent but not aligned have a remainder to align. *)
Lemma misaligned src dst : Z.land (Z.lor src dst) wmask <> 0 ->
  Z.land (Z.lxor src dst) wmask = 0 -> 1 <= Z.land src wmask <= 3.
Proof.
  intros Ho Hx. assert (0 <= Z.land src wmask <= 3) as Hr
    by (rewrite land_wmask; Z.div_mod_to_equations; lia).
  destruct (decide (Z.land src wmask = 0)) as [E|]; [exfalso|lia].
  apply Ho. rewrite Z.land_lor_distr_l, E, Z.lor_0_l.
  assert (Z.lxor (Z.land src wmask) (Z.land dst wmask) = 0) as Ex.
  { rewrite <-Hx. apply Z.bits_inj'. intros i Hi. rewrite Z.lxor_spec, !Z.land_spec, Z.lxor_spec.
    by destruct (Z.testbit wmask i), (Z.testbit src i), (Z.testbit dst i). }
  rewrite E in Ex. by rewrite Z.lxor_0_l in Ex.
Qed.

Lemma copy_backward_spec m dst src l : bytes_at m src l -> bytes_ok l ->
  mapped m dst (Z.of_nat (length l)) -> src <= dst ->
  0 < Z.of_nat (length l) < 2 ^ 32 ->
  copy_backward m dst src (Z.of_nat (length l)) = Ok (put dst l m, dst, src).
Proof.
  intros Hs Hb Hm Hd Hlen. unfold copy_backward. set (n := Z.of_nat (length l)) in *.
  assert (dst = dst + n - n) as Ed by lia. assert (src = src + n - n) as Es by lia.
  assert (Ok (put dst l m, dst, src)
    = Ok (put (dst + n - n) l m, dst + n - n, src + n - n)) as -> by (by rewrite <-Ed, <-Es).
  rewrite Es in Hs. rewrite Ed in Hm. destruct (_ =? 0) eqn:Ea; zbool.
  - by apply mop_up_bwd; [..|lia].
  - apply align_bwd; try done; [lia| |lia]. fold n.
    destruct (_ || _) eqn:E; [lia|]. apply orb_false_iff in E as [E1 E]. zbool.
    pose proof (misaligned _ _ Ea E1). unfold wsize in *. lia.
Qed.

(** [memmove] and [bcopy]: the destination gets what the source held before,
    whatever the overlap; nothing else changes. *)
Lemma memmove_spec m dst src l : bytes_at m src l -> bytes_ok l ->
  mapped m dst (Z.of_nat (length l)) -> Z.of_nat (length l) < 2 ^ 32 ->
  memmove m dst src (Z.of_nat (length l)) = Ok (put dst l m, dst)
  /\ bcopy m src dst (Z.of_nat (length l)) = Ok (put dst l m).
Proof.
  intros Hs Hb Hm Hlen. unfold memmove, bcopy.
  destruct (Z.of_nat (length l) =? 0) eqn:E0; zbool.
  { destruct l; [|cbn in E0; lia]. done. }
  destruct (dst =? src) eqn:E1; zbool; cbn [orb].
  { subst. by rewrite put_id. }
  destruct (dst <? src) eqn:E2; zbool.
  - by rewrite copy_forward_spec by (done || (unfold fwd_safe; lia)).
  - by rewrite copy_backward_spec by (done || lia).
Qed.

Lemma memcpy_spec m dst src l : bytes_at m src l -> bytes_ok l ->
  mapped m dst (Z.of_nat (length l)) -> Z.of_nat (length l) < 2 ^ 32 ->
  memcpy m dst src (Z.of_nat (length l))
  = if decide (dst = src \/ dst + Z.of_nat (length l) <= src \/ src + Z.of_nat (length l) <= dst)
    then Ok (put dst l m, dst) else Panic.
Proof.
  intros Hs Hb Hm Hlen. unfold memcpy.
  destruct (Z.of_nat (length l) =? 0) eqn:E0; zbool.
  { destruct l; [|cbn in E0; lia]. rewrite decide_True by lia. done. }
  destruct (dst =? src) eqn:E1; zbool; cbn [orb].
  { subst. rewrite decide_True by auto. by rewrite put_id. }
  destruct (_ || _) eqn:E2.
  - apply orb_true_iff in E2 as [E2|E2]; apply andb_true_iff in E2 as [? ?]; zbool;
      by rewrite decide_False by lia.
  - apply orb_false_iff in E2 as [E2 E3]. apply andb_false_iff in E2, E3.
    assert (dst + Z.of_nat (length l) <= src \/ src + Z.of_nat (length l) <= dst) as Hd
      by (destruct E2, E3; zbool; lia).
    rewrite decide_True by auto. rewrite copy_forward_spec; try done; [|lia].
    unfold fwd_safe. lia.
Qed.

(** ** Filling and searching *)

Lemma memset_loop_spec c n : forall m d, mapped m d (Z.of_nat n) ->
  memset_loop m d c n = Ok (put d (replicate n (u8 c)) m).
Proof.
  induction n as [|n IH]; intros m d Hm; cbn [memset_loop replicate put]; [done|].
  rewrite store_u8 by (apply Hm; lia). cbn [mbind res_bind]. apply IH, mapped_insert.
  eapply mapped_mono; [exact Hm|lia|lia].
Qed.

Lemma bzero_loop_memset n : forall m p, bzero_loop m p n = memset_loop m p 0 n.
Proof. induction n as [|n IH]; intros m p; cbn; [done|]. destruct (store m p 0); cbn; auto. Qed.

(** The address of the first byte that satisfies a test, or [NULL]. *)
Definition first_at (p : Z) (o : option (nat * Z)) : Z :=
  match o with Some (i, _) => p + Z.of_nat i | None => NULL end.

Lemma first_at_shift p o : first_at p (prod_map S id <$> o) = first_at (p + 1) o.
Proof. destruct o as [[i b]|]; cbn; [lia|done]. Qed.

Lemma memchr_loop_spec c l : forall m p, bytes_at m p l ->
  memchr_loop m p c (length l) = Ok (first_at p (list_find (fun b => b = u8 c) l)).
Proof.
  induction l as [|b l IH]; intros m p H; cbn [memchr_loop length list_find]; [done|].
  apply bytes_at_cons in H as [H0 H]. rewrite (load_ok _ _ _ H0). cbn [mbind res_bind].
  case_decide as Ed; [subst b; rewrite Z.eqb_refl; cbn; f_equal; lia|].
  rewrite (proj2 (Z.eqb_neq _ _) Ed), IH by done. by rewrite first_at_shift.
Qed.

Lemma memrchr_loop_spec c l : forall m cp, bytes_at m (cp - Z.of_nat (length l)) l ->
  memrchr_loop m cp c (length l)
  = Ok match list_find (fun b => b = u8 c) (reverse l) with
       | Some (i, _) => cp - 1 - Z.of_nat i
       | None => NULL
       end.
Proof.
  induction l as [|b l IH] using rev_ind; intros m cp H; [done|].
  rewrite length_app, Nat.add_1_r in *. cbn [memrchr_loop]. rewrite reverse_snoc.
  cbn [list_find]. apply bytes_at_app in H as [H H0]. apply bytes_at_single in H0.
  replace (cp - Z.of_nat (S (length l)) + Z.of_nat (length l)) with (cp - 1) in H0 by lia.
  rewrite (load_ok _ _ _ H0). cbn [mbind res_bind].
  case_decide as Ed; [subst b; rewrite Z.eqb_refl; f_equal; lia|].
  rewrite (proj2 (Z.eqb_neq _ _) Ed), IH.
  - destruct (list_find _ (reverse l)) as [[i d]|]; cbn; [f_equal; lia|done].
  - by replace (cp - 1 - Z.of_nat (length l)) with (cp - Z.of_nat (S (length l))) by lia.
Qed.

Lemma memccpy_loop_spec uc l : forall m tp fp, bytes_at m fp l -> bytes_ok l ->
  mapped m tp (Z.of_nat (length l)) -> fwd_safe tp fp (Z.of_nat (length l)) ->
  memccpy_loop m tp fp uc (length l)
  = Ok match list_find (fun b => b = uc) l with
       | Some (i, _) => (put tp (take (S i) l) m, tp + Z.of_nat (S i))
       | None => (put tp l m, NULL)
       end.
Proof.
  induction l as [|b l IH]; intros m tp fp H Hb Hm Hd; [done|].
  cbn [memccpy_loop length list_find]. apply bytes_at_cons in H as [H0 H].
  apply Forall_cons in Hb as [Hb0 Hb]. rewrite (load_ok _ _ _ H0). cbn [mbind res_bind].
  rewrite store_ok by (done || (apply Hm; cbn; lia)). cbn [mbind res_bind].
  unfold fwd_safe in Hd. cbn [length] in *.
  case_decide as Ed; [subst b; rewrite Z.eqb_refl; cbn; do 2 f_equal; lia|].
  rewrite (proj2 (Z.eqb_neq _ _) Ed), IH; [|change (<[tp:=b]> m) with (put tp [b] m)|done| |].
  - destruct (list_find _ l) as [[i d]|]; cbn; [do 2 f_equal; lia|done].
  - apply bytes_at_put_disjoint; [cbn; lia|done].
  - apply mapped_insert. eapply mapped_mono; [exact Hm|lia|lia].
  - unfold fwd_safe. lia.
Qed.

(** ** Comparing *)

(** The difference of the first bytes that differ; 0 when there are none. *)
Fixpoint lex_diff (l k : list Z) : Z :=
  match l, k with
  | a :: l', b :: k' => if a =? b then lex_diff l' k' else a - b
  | _, _ => 0
  end.

Lemma lex_diff_zero l : forall k, length l = length k -> lex_diff l k = 0 <-> l = k.
Proof.
  induction l as [|a l IH]; intros [|b k] Hl; try done. cbn [lex_diff].
  destruct (a =? b) eqn:E; zbool.
  - subst. rewrite IH by (cbn in Hl; lia). split; [by intros ->|by intros [= ->]].
  - split; [lia|intros [=]; lia].
Qed.

(** Two equally long regions read side by side. *)
Ltac both_bytes :=
  match goal with
  | H : bytes_at ?m ?p (?a :: _), K : bytes_at ?m ?q (?b :: _) |- _ =>
      let H0 := fresh "H0" in let K0 := fresh "K0" in
      apply bytes_at_cons in H as [H0 H]; apply bytes_at_cons in K as [K0 K];
      rewrite (load_ok _ _ _ H0); cbn [mbind res_bind];
      rewrite (load_ok _ _ _ K0); cbn [mbind res_bind]
  end.

Lemma memcmp_loop_spec m l : forall k p q, length l = length k ->
  bytes_at m p l -> bytes_at m q k -> memcmp_loop m p q (length l) = Ok (lex_diff l k).
Proof.
  induction l as [|a l IH]; intros [|b k] p q Hl H K; try done.
  cbn [memcmp_loop length lex_diff]. both_bytes.
  destruct (a =? b) eqn:E; cbn [negb]; [|done]. apply IH; [cbn in Hl; lia|done|done].
Qed.

Lemma schar_inj a b : byte_ok a -> byte_ok b -> schar a = schar b -> a = b.
Proof.
  intros Ha Hb E. rewrite <-(wrap_id 8 a Ha), <-(wrap_id 8 b Hb).
  by rewrite <-(sgn_wrap 8 a), <-(sgn_wrap 8 b), E.
Qed.

Lemma bcmp_loop_spec m l : forall k p q, length l = length k ->
  bytes_ok l -> bytes_ok k -> bytes_at m p l -> bytes_at m q k ->
  bcmp_loop m p q (length l) = Ok (if decide (l = k) then 0 else 1).
Proof.
  induction l as [|a l IH]; intros [|b k] p q Hl Hb Hc H K; try done.
  apply Forall_cons in Hb as [Ha Hb], Hc as [Hb' Hc].
  cbn [bcmp_loop length]. both_bytes. destruct (schar a =? schar b) eqn:E; zbool; cbn [negb].
  - apply schar_inj in E; [subst b|done|done]. rewrite (IH k) by (done || (cbn in Hl; lia)).
    f_equal. repeat case_decide; simplify_eq; done.
  - rewrite decide_False; [done|]. intros [=]. subst. done.
Qed.

Lemma timingsafe_bcmp_loop_spec m l : forall k p q ret, length l = length k ->
  bytes_at m p l -> bytes_at m q k ->
  exists r, timingsafe_bcmp_loop m p q ret (length l) = Ok r
    /\ (r = 0 <-> ret = 0 /\ l = k).
Proof.
  induction l as [|a l IH]; intros [|b k] p q ret Hl H K; try done.
  - exists ret. cbn. split; [done|]. split; [by intros ->|by intros []].
  - cbn [timingsafe_bcmp_loop length]. both_bytes.
    destruct (IH k (p + 1) (q + 1) (Z.lor ret (Z.lxor a b))) as (r & E & Hr);
      [cbn in Hl; lia|done|done|].
    exists r. split; [done|]. rewrite Hr, Z.lor_eq_0_iff, Z.lxor_eq_0_iff.
    split; [by intros ([-> ->] & ->)|intros [-> [= -> ->]]; done].
Qed.

(** The sign masks of the constant-time comparison. *)
Lemma diff_mask a b : byte_ok a -> byte_ok b ->
  Z.shiftr (a - b) CHAR_BIT = if a <? b then -1 else 0.
Proof.
  intros Ha Hb. unfold CHAR_BIT, byte_ok, uint in *. rewrite Z.shiftr_div_pow2 by lia.
  destruct (a <? b) eqn:E; zbool; Z.div_mod_to_equations; lia.
Qed.

Lemma timingsafe_memcmp_done m n : forall p q r l k, length l = n -> length k = n ->
  bytes_ok l -> bytes_ok k -> bytes_at m p l -> bytes_at m q k ->
  timingsafe_memcmp_loop m p q r (-1) n = Ok r.
Proof.
  induction n as [|n IH]; intros p q r [|a l] [|b k] Hl Hk Hb Hc H K; try done.
  cbn [timingsafe_memcmp_loop]. both_bytes. change (Z.lnot (-1)) with 0.
  rewrite Z.land_0_r, Z.lor_0_r, Z.lor_m1_l.
  apply Forall_cons in Hb as [_ Hb], Hc as [_ Hc].
  apply (IH _ _ _ l k); cbn in Hl, Hk; done || lia.
Qed.

Lemma timingsafe_memcmp_spec m l : forall k p q, length l = length k ->
  bytes_ok l -> bytes_ok k -> bytes_at m p l -> bytes_at m q k ->
  timingsafe_memcmp_loop m p q 0 0 (length l) = Ok (Z.sgn (lex_diff l k)).
Proof.
  induction l as [|a l IH]; intros [|b k] p q Hl Hb Hc H K; try done.
  apply Forall_cons in Hb as [Ha Hb], Hc as [Hb' Hc].
  cbn [timingsafe_memcmp_loop length lex_diff]. both_bytes. rewrite !diff_mask by done.
  destruct (a =? b) eqn:E; zbool.
  - subst b. rewrite Z.ltb_irrefl. apply (IH k); cbn in Hl; done || lia.
  - cbn in Hl. destruct (Z.ltb_spec a b), (Z.ltb_spec b a); try lia.
    + rewrite Z.sgn_neg by lia. apply (timingsafe_memcmp_done m _ _ _ _ l k); done || lia.
    + rewrite Z.sgn_pos by lia. apply (timingsafe_memcmp_done m _ _ _ _ l k); done || lia.
Qed.

(** ** Searching for a byte string *)

(** The first position at which [s] occurs in [l]. *)
Fixpoint find_sub (s l : list Z) : option nat :=
  if decide (s `prefix_of` l) then Some 0%nat
  else match l with [] => None | _ :: l' => S <$> find_sub s l' end.

Lemma find_sub_short s l : (length l < length s)%nat -> find_sub s l = None.
Proof.
  revert s; induction l as [|a l IH]; intros s Hl; cbn [find_sub];
    (rewrite decide_False by (intros [k E]; apply (f_equal length) in E;
       rewrite length_app in E; cbn in *; lia)); [done|].
  rewrite IH by (cbn in *; lia). done.
Qed.

Lemma find_sub_singleton c l : find_sub [c] l = fst <$> list_find (fun b => b = c) l.
Proof.
  induction l as [|a l IH]; cbn [find_sub list_find].
  - rewrite decide_False; [done|]. intros [k [=]].
  - destruct (decide (a = c)) as [->|Hne].
    + rewrite decide_True; [done|]. by exists l.
    + rewrite decide_False by (intros [k [=]]; congruence). rewrite IH.
      by destruct (list_find _ l) as [[]|].
Qed.

Lemma prefix_take (s l : list Z) : s `prefix_of` l <-> take (length s) l = s.
Proof.
  split; [intros [k ->]; by rewrite take_app_length|].
  intros E. exists (drop (length s) l). rewrite <-E at 1. by rewrite take_drop.
Qed.

Definition at_offset (p : Z) (o : option nat) : Z :=
  match o with Some i => p + Z.of_nat i | None => NULL end.

Lemma at_offset_shift p o : at_offset p (S <$> o) = at_offset (p + 1) o.
Proof. destruct o; cbn; [lia|done]. Qed.

Lemma memmem_loop_spec m s cs : bytes_at m cs s -> s <> [] -> forall k l cur,
  bytes_at m cur l -> length l = (k + length s - 1)%nat ->
  memmem_loop m cur cs (Z.of_nat (length s)) k = Ok (at_offset cur (find_sub s l)).
Proof.
  intros Hs Hs0. induction k as [|k IH]; intros l cur Hl Hlen.
  - destruct s as [|c s]; [done|]. rewrite find_sub_short by (cbn in *; lia). done.
  - destruct s as [|c s]; [done|]. destruct l as [|a l]; [cbn in Hlen; lia|].
    cbn [memmem_loop]. pose proof Hs as Hs'. pose proof Hl as Hl'.
    apply bytes_at_cons in Hs' as [Hc _], Hl' as [Ha Hl'].
    rewrite (load_ok _ _ _ Ha). cbn [mbind res_bind]. rewrite (load_ok _ _ _ Hc).
    cbn [mbind res_bind find_sub].
    assert (memcmp m cur cs (Z.of_nat (length (c :: s)))
      = Ok (lex_diff (take (length (c :: s)) (a :: l)) (c :: s))) as Ecmp.
    { unfold memcmp. rewrite Nat2Z.id.
      rewrite <-(memcmp_loop_spec m _ _ cur cs); try done.
      - f_equal. rewrite length_take. cbn [length] in *. lia.
      - rewrite length_take. cbn [length] in *. lia.
      - rewrite <-(take_drop (length (c :: s)) (a :: l)) in Hl. by apply bytes_at_app in Hl as [? _]. }
    assert (length (take (length (c :: s)) (a :: l)) = length (c :: s)) as Hlt
      by (rewrite length_take; cbn [length] in *; lia).
    case_decide as Hp.
    + apply prefix_take in Hp. pose proof Hp as [= Hac _]. rewrite Hac, Z.eqb_refl, Ecmp.
      cbn [mbind res_bind]. rewrite Hp, (proj2 (lex_diff_zero _ _ eq_refl)) by done.
      cbn. f_equal. lia.
    + rewrite at_offset_shift. assert (memmem_loop m (cur + 1) cs (Z.of_nat (length (c :: s))) k
        = Ok (at_offset (cur + 1) (find_sub (c :: s) l))) as IHl
        by (apply IH; [done|cbn [length] in *; lia]).
      destruct (a =? c) eqn:Eac; zbool; [|done]. rewrite Ecmp. cbn [mbind res_bind].
      destruct (_ =? 0) eqn:Ez; zbool; [|done].
      exfalso. apply Hp, prefix_take. by apply lex_diff_zero.
Qed.

Lemma memmem_spec m l s p q : bytes_at m p l -> bytes_at m q s -> bytes_ok s ->
  memmem m p (Z.of_nat (length l)) q (Z.of_nat (length s)) = Ok (at_offset p (find_sub s l)).
Proof.
  intros Hl Hs Hb. unfold memmem. destruct (_ =? 0) eqn:E0; zbool.
  { destruct s; [|cbn in E0; lia]. destruct l; cbn; rewrite decide_True by apply prefix_nil;
      cbn; f_equal; lia. }
  destruct (_ <? _) eqn:E1; zbool; [by rewrite find_sub_short by lia|].
  destruct (_ =? 1) eqn:E2; zbool.
  - destruct s as [|c [|]]; try (cbn in E2; lia). apply bytes_at_single in Hs.
    rewrite (load_ok _ _ _ Hs). cbn [mbind res_bind]. unfold memchr. rewrite Nat2Z.id.
    rewrite memchr_loop_spec by done. rewrite sgn_wrap. apply Forall_cons in Hb as [Hc _].
    rewrite (wrap_id 8 c) by done. rewrite find_sub_singleton.
    by destruct (list_find _ l) as [[]|].
  - apply memmem_loop_spec; [done|by destruct s|done|lia].
Qed.

(** ** Swapping byte pairs *)

Fixpoint swap_pairs (l : list Z) : list Z :=
  match l with
  | a :: b :: l' => b :: a :: swap_pairs l'
  | _ => []
  end.

Lemma times_add f a b x : times (a + b) f x = (y ← times a f x; times b f y).
Proof.
  revert x; induction a as [|a IH]; intros x; cbn; [done|].
  destruct (f x); cbn; [apply IH|done..].
Qed.

Lemma times_times f a k x : times k (times a f) x = times (k * a) f x.
Proof.
  revert x; induction k as [|k IH]; intros x; cbn; [done|]. rewrite times_add.
  destruct (times a f x); cbn; [apply IH|done..].
Qed.

Lemma times_STEP k : forall m tp fp l, length l = (2 * k)%nat -> bytes_at m fp l -> bytes_ok l ->
  mapped m tp (Z.of_nat (length l)) -> fwd_safe tp fp (Z.of_nat (length l)) ->
  times k STEP (m, tp, fp)
  = Ok (put tp (swap_pairs l) m, tp + Z.of_nat (2 * k), fp + Z.of_nat (2 * k)).
Proof.
  induction k as [|k IH]; intros m tp fp l Hl H Hb Hm Hd.
  - apply nil_length_inv in Hl as ->. cbn. f_equal. f_equal; [f_equal|]; lia.
  - destruct l as [|a [|b l]]; try (cbn in Hl; lia). cbn [length] in *.
    apply Forall_cons in Hb as [Ha Hb]. apply Forall_cons in Hb as [Hb0 Hb].
    pose proof H as H'. rewrite !bytes_at_cons in H'. destruct H' as (H0 & H1 & _).
    cbn [times STEP]. rewrite (load_ok _ _ _ H0). cbn [mbind res_bind].
    rewrite (load_ok _ _ _ H1). cbn [mbind res_bind].
    rewrite store_ok by (done || (apply Hm; lia)). cbn [mbind res_bind].
    rewrite store_ok by (done || (apply mapped_insert with (n := 2) (q := tp); [|lia];
      eapply mapped_mono; [exact Hm|lia|lia])).
    cbn [mbind res_bind]. change (<[tp+1:=a]> (<[tp:=b]> m)) with (put tp [b; a] m).
    unfold fwd_safe in Hd. rewrite (IH _ _ _ l); [|lia| |done| |].
    + cbn [swap_pairs put]. replace (tp + 1 + 1) with (tp + 2) by lia.
      f_equal. f_equal; [f_equal|]; lia.
    + apply bytes_at_put_disjoint; [cbn; lia|]. change (a :: b :: l) with ([a; b] ++ l) in H.
      apply bytes_at_app in H as [_ H]. by replace (fp + 2) with (fp + Z.of_nat (length [a; b])) by (cbn; lia).
    + apply mapped_put. eapply mapped_mono; [exact Hm|lia|lia].
    + unfold fwd_safe. lia.
Qed.

(** The first loop leaves a multiple of eight rounds. *)
Lemma swab_align_spec r : forall fuel q x y, (r < fuel)%nat -> (r < 8)%nat ->
  0 <= q -> 8 * q + Z.of_nat r + 1 < 2 ^ 32 -> times r STEP x = Ok y ->
  swab_align fuel (8 * q + Z.of_nat r + 1) x = Ok (8 * q, y).
Proof.
  induction r as [|r IH]; intros [|fuel] q x y Hf Hr Hq Hlt E; try lia; cbn [swab_align].
  all: rewrite wrap_id by (unfold uint; lia); change 7 with (2 ^ 3 - 1);
    rewrite land_ones_low by lia; change (2 ^ 3) with 8.
  - replace (8 * q + Z.of_nat 0 + 1 - 1) with (q * 8) by lia. rewrite Z_mod_mult.
    cbn in E. injection E as ->. change (0 =? 0) with true. cbv iota. do 2 f_equal. lia.
  - replace (8 * q + Z.of_nat (S r) + 1 - 1) with (8 * q + Z.of_nat r + 1) by lia.
    assert ((8 * q + Z.of_nat r + 1) mod 8 =? 0 = false) as ->.
    { apply Z.eqb_neq. Z.div_mod_to_equations. lia. }
    cbn [times] in E. apply res_bind_ok in E as (z & E1 & E2). rewrite E1. cbn [mbind res_bind].
    apply IH; [lia|lia|done|lia|done].
Qed.

Lemma swab_spec m from to l n : bytes_at m from l -> bytes_ok l -> length l = (2 * n)%nat ->
  mapped m to (Z.of_nat (length l)) -> fwd_safe to from (Z.of_nat (length l)) ->
  forall len, len = Z.of_nat (2 * n) \/ len = Z.of_nat (2 * n) + 1 -> len < 2 ^ 32 ->
  swab m from to len = Ok (put to (swap_pairs l) m).
Proof.
  intros H Hb Hl Hm Hd len Hlen Hlt. unfold swab.
  set (r := (n mod 8)%nat). set (q := (n / 8)%nat).
  assert (n = 8 * q + r /\ r < 8)%nat as [En Hr].
  { unfold q, r. split; [apply Nat.div_mod_eq|apply Nat.mod_upper_bound; lia]. }
  assert (len / 2 + 1 = 8 * Z.of_nat q + Z.of_nat r + 1) as ->
    by (destruct Hlen; subst len; Z.div_mod_to_equations; lia).
  pose proof (times_STEP n m to from l Hl H Hb Hm Hd) as E.
  rewrite En, Nat.add_comm, times_add in E. apply res_bind_ok in E as (y & E1 & E2).
  rewrite (swab_align_spec r 9 (Z.of_nat q) _ y) by (done || lia). cbn [mbind res_bind].
  rewrite Z.shiftr_div_pow2 by lia. replace (8 * Z.of_nat q / 2 ^ 3) with (Z.of_nat q)
    by (change (2 ^ 3) with 8; Z.div_mod_to_equations; lia).
  destruct (Z.of_nat q =? 0) eqn:Eq; zbool.
  - assert (q = 0)%nat as Eq0 by lia. rewrite Eq0 in E2. cbn in E2. by injection E2 as ->.
  - rewrite Nat2Z.id, times_times, Nat.mul_comm, E2. done.
Qed.

(** ** The lowest set bit *)

Lemma nibble_table r : 0 <= r -> Z.land r 0xf = r mod 16 /\
  exists t, ffs_table !! Z.to_nat (r mod 16) = Some t
    /\ (if r mod 16 =? 0 then t = -28
        else 1 <= t <= 4 /\ Z.testbit r (t - 1) = true
             /\ forall j, 0 <= j < t - 1 -> Z.testbit r j = false).
Proof.
  intros Hr. split; [exact (land_ones_low r 4 ltac:(lia))|].
  assert (forall j, 0 <= j < 4 -> Z.testbit r j = Z.testbit (r mod 16) j) as Hbit.
  { intros j Hj. change 16 with (2 ^ 4). by rewrite Z.mod_pow2_bits_low by lia. }
  pose proof (Z.mod_pos_bound r 16 ltac:(lia)) as Hm.
  assert (exists k, (k < 16)%nat /\ r mod 16 = Z.of_nat k) as (k & Hk & Ek)
    by (exists (Z.to_nat (r mod 16)); lia).
  rewrite Ek in *. rewrite Nat2Z.id.
  destruct k as [|[|[|[|[|[|[|[|[|[|[|[|[|[|[|[|k]]]]]]]]]]]]]]]]; [..|lia].
  all: eexists; split; [reflexivity|]; try reflexivity.
  all: cbn; split; [lia|]; split; [rewrite Hbit by lia; reflexivity|].
  all: intros j Hj; rewrite Hbit by lia; assert (j = 0 \/ j = 1 \/ j = 2) as Hj' by lia;
    destruct Hj' as [->|[->| ->]]; try lia; reflexivity.
Qed.

(** One of the halving steps: [w] clear bits are dropped; a set bit remains
    among the lowest [w] of what is left. *)
Definition skipped (r bit r' w : Z) : Prop :=
  0 <= bit /\ r' = r / 2 ^ bit /\ r mod 2 ^ bit = 0 /\ r' mod 2 ^ w <> 0.

Lemma skip_step r bit r' w : 0 <= r -> 0 < w -> skipped r bit r' (2 * w) ->
  let '(bit2, r2) := if Z.land r' (2 ^ w - 1) =? 0 then (bit + w, Z.shiftr r' w) else (bit, r') in
  skipped r bit2 r2 w /\ bit <= bit2 <= bit + w.
Proof.
  intros Hr Hw (Hb & -> & Hm & Hne). rewrite land_ones_low by lia.
  destruct (_ =? 0) eqn:E; zbool; [|split; [by split_and!|lia]]. split; [|lia].
  split_and!; [lia| | |].
  - rewrite Z.shiftr_div_pow2, Z.div_div, Z.pow_add_r by lia. done.
  - rewrite Z.pow_add_r, Z.rem_mul_r by lia. rewrite Hm, E. lia.
  - rewrite Z.shiftr_div_pow2 by lia. intros E2. apply Hne.
    replace (2 * w) with (w + w) by lia. rewrite Z.pow_add_r, Z.rem_mul_r by lia.
    rewrite E, E2. lia.
Qed.

Lemma ffs_spec mask :
  let r := u32 mask in
  if decide (r = 0) then ffs mask = Ok 0
  else exists k, 0 <= k < 32 /\ ffs mask = Ok (k + 1) /\ Z.testbit r k = true
         /\ forall j, 0 <= j < k -> Z.testbit r j = false.
Proof.
  intros r. unfold ffs. fold r. pose proof (wrap_range 32 mask ltac:(lia)) as Hr. fold r in Hr.
  destruct (decide (r = 0)) as [->|Hr0]; [done|].
  assert (0 <= r) as Hpos by apply Hr.
  assert (skipped r 0 r (2 * 16)) as H0.
  { split_and!; [lia|by rewrite Z.div_1_r|by rewrite Z.mod_1_r|].
    rewrite Z.mod_small; [done|exact Hr]. }
  pose proof (skip_step r 0 r 16 Hpos ltac:(lia) H0) as H1. change (2 ^ 16 - 1) with 0xffff in H1.
  change (0 + 16) with 16 in H1.
  destruct (if Z.land r 0xffff =? 0 then _ else _) as [b1 r1]. destruct H1 as [H1 Hb1].
  pose proof (skip_step r b1 r1 8 Hpos ltac:(lia) H1) as H2. change (2 ^ 8 - 1) with 0xff in H2.
  destruct (if Z.land r1 0xff =? 0 then _ else _) as [b2 r2]. destruct H2 as [H2 Hb2].
  pose proof (skip_step r b2 r2 4 Hpos ltac:(lia) H2) as H3. change (2 ^ 4 - 1) with 0xf in H3.
  destruct (if Z.land r2 0xf =? 0 then _ else _) as [b3 r3].
  destruct H3 as [(Hb & E3 & Hm & Hne) Hb3].
  assert (0 <= r3) as Hr3 by (subst r3; apply Z.div_pos; lia).
  destruct (nibble_table r3 Hr3) as (-> & t & -> & Ht). cbn [deref mbind res_bind].
  change (2 ^ 4) with 16 in Hne. rewrite (proj2 (Z.eqb_neq _ _) Hne) in Ht.
  destruct Ht as (Ht & Hset & Hclear).
  assert (forall i, 0 <= i -> Z.testbit r3 i = Z.testbit r (i + b3)) as Hshift.
  { intros i Hi. rewrite E3, <-Z.shiftr_div_pow2 by lia. by apply Z.shiftr_spec. }
  exists (b3 + t - 1). rewrite Hshift in Hset by lia.
  assert (b3 + t - 1 < 32).
  { destruct (decide (b3 + t - 1 < 32)); [done|].
    rewrite (uint_testbit 32) in Hset by (done || lia). done. }
  split_and!; [lia|lia|f_equal; lia|by replace (b3 + t - 1) with (t - 1 + b3) by lia|].
  intros j Hj. destruct (decide (b3 <= j)).
  - replace j with (j - b3 + b3) by lia. rewrite <-Hshift by lia. apply Hclear. lia.
  - rewrite <-(Z.mod_pow2_bits_low r b3 j) by lia. by rewrite Hm, Z.bits_0.
Qed.

(** ** Contracts *)

(** [memmove] and [bcopy] write the old contents of the source to the
    destination and nothing else, whatever the overlap and the alignment;
    [memcpy] does the same when the regions are equal or disjoint and aborts
    otherwise. *)
Lemma memmove_all m dst src l (Hs : bytes_at m src l) (Hb : bytes_ok l)
  (Hm : mapped m dst (Z.of_nat (length l))) (Hlen : Z.of_nat (length l) < 2 ^ 32) :
  memmove m dst src (Z.of_nat (length l)) = Ok (put dst l m, dst)
  /\ bcopy m src dst (Z.of_nat (length l)) = Ok (put dst l m)
  /\ memcpy m dst src (Z.of_nat (length l))
     = (if decide (dst = src \/ dst + Z.of_nat (length l) <= src
                   \/ src + Z.of_nat (length l) <= dst)
        then Ok (put dst l m, dst) else Panic).
Proof.
  destruct (memmove_spec m dst src l Hs Hb Hm Hlen) as [E1 E2].
  split_and!; [exact E1|exact E2|by apply memcpy_spec].
Qed.

Definition sample_mem : mem := put 100 [1; 2; 3; 4; 5; 6; 7; 8; 9; 10; 11; 12] ∅.

Lemma sample_mapped p n : 100 <= p -> p + n <= 112 -> mapped sample_mem p n.
Proof.
  intros H1 H2. eapply mapped_mono; [|exact H1|].
  - apply (bytes_at_mapped _ 100 [1; 2; 3; 4; 5; 6; 7; 8; 9; 10; 11; 12]), bytes_at_put.
  - cbn. lia.
Qed.

Lemma sample_bytes p l : bytes_at sample_mem p l <-> 
  Forall (fun '(i, b) => sample_mem !! (p + Z.of_nat i) = Some b) (zip (seq 0 (length l)) l).
Proof.
  rewrite Forall_lookup. split.
  - intros H i [j b] Hi. apply lookup_zip_Some in Hi as [Hj Hb].
    apply lookup_seq in Hj as [-> _]. by apply H.
  - intros H i b Hi. apply (H i (i, b)). apply lookup_zip_Some. split; [|done].
    apply lookup_seq. split; [done|]. by apply lookup_lt_Some in Hi.
Qed.

(** The four comparisons of equally long regions: [memcmp] returns the
    difference of the first bytes that differ, [bcmp] and [timingsafe_bcmp]
    whether there are any, and [timingsafe_memcmp], which looks at every byte,
    the sign of [memcmp]'s result. *)
Theorem memcmp_correct m p q l k (Hlen : length l = length k) (Hl : bytes_at m p l)
  (Hk : bytes_at m q k) (Hlb : bytes_ok l) (Hkb : bytes_ok k) :
  let n := Z.of_nat (length l) in
  memcmp m p q n = Ok (lex_diff l k)
  /\ (lex_diff l k = 0 <-> l = k)
  /\ bcmp m p q n = Ok (if decide (l = k) then 0 else 1)
  /\ timingsafe_bcmp m p q n = Ok (if decide (l = k) then 0 else 1)
  /\ timingsafe_memcmp m p q n = Ok (Z.sgn (lex_diff l k)).
Proof.
  intros n. unfold n. split_and!.
  - unfold memcmp. rewrite Nat2Z.id. by apply memcmp_loop_spec.
  - by apply lex_diff_zero.
  - unfold bcmp. destruct (_ =? 0) eqn:E; zbool.
    + destruct l, k; done.
    + rewrite Nat2Z.id. by apply bcmp_loop_spec.
  - unfold timingsafe_bcmp. rewrite Nat2Z.id.
    destruct (timingsafe_bcmp_loop_spec m l k p q 0 Hlen Hl Hk) as (r & -> & Hr).
    cbn [mbind res_bind]. f_equal. case_decide as E.
    + by rewrite (proj2 Hr (conj eq_refl E)).
    + destruct (r =? 0) eqn:Ez; zbool; [|done]. by apply Hr in Ez as [_ ?].
  - unfold timingsafe_memcmp. rewrite Nat2Z.id. by apply timingsafe_memcmp_spec.
Qed.

Theorem memcmp_correct_witness :
  memcmp sample_mem 100 104 3 = Ok (-4)
  /\ (lex_diff [1; 2; 3] [5; 6; 7] = 0 <-> [1; 2; 3] = [5; 6; 7])
  /\ bcmp sample_mem 100 104 3 = Ok 1
  /\ timingsafe_bcmp sample_mem 100 104 3 = Ok 1
  /\ timingsafe_memcmp sample_mem 100 104 3 = Ok (-1).
Proof.
  apply (memcmp_correct sample_mem 100 104 [1; 2; 3] [5; 6; 7]); [done|..].
  1-2: apply sample_bytes; repeat constructor.
  1-2: repeat (constructor; [split; [lia|reflexivity]|]); constructor.
Defined.

(** The searches find the first (for [memrchr] the last) occurrence and
    return [NULL] exactly when there is none; [memccpy] copies up to and
    including the byte searched for, or everything. *)
Theorem memchr_correct m p q t c l s (Hl : bytes_at m p l) (Hs : bytes_at m q s)
  (Hlb : bytes_ok l) (Hsb : bytes_ok s) (Ht : mapped m t (Z.of_nat (length l))) :
  let n := Z.of_nat (length l) in
  memchr m p c n = Ok (first_at p (list_find (fun b => b = u8 c) l))
  /\ memrchr m p c n
     = Ok match list_find (fun b => b = u8 c) (reverse l) with
          | Some (i, _) => p + n - 1 - Z.of_nat i
          | None => NULL
          end
  /\ memmem m p n q (Z.of_nat (length s)) = Ok (at_offset p (find_sub s l))
  /\ (fwd_safe t p n -> memccpy m t p c n
     = Ok match list_find (fun b => b = u8 c) l with
          | Some (i, _) => (put t (take (S i) l) m, t + Z.of_nat (S i))
          | None => (put t l m, NULL)
          end).
Proof.
  intros n. unfold n, memchr, memrchr, memccpy. rewrite !Nat2Z.id. split_and!.
  - by apply memchr_loop_spec.
  - apply memrchr_loop_spec. by replace (p + Z.of_nat (length l) - Z.of_nat (length l)) with p by lia.
  - by apply memmem_spec.
  - intros Hd. by apply memccpy_loop_spec.
Qed.

(** C18: the memory routines.  [memmove] and [bcopy] write the old contents of
    the source to the destination and nothing else, whatever the overlap and
    the alignment; [memcpy] does the same when the regions are equal or
    disjoint and aborts otherwise.  [memcmp] returns the difference of the first
    bytes that differ, [bcmp] and [timingsafe_bcmp] whether there are any, and
    [timingsafe_memcmp], which looks at every byte, the sign of [memcmp]'s
    result.  The searches find the first (for [memrchr] the last) occurrence of
    a byte or of a string of bytes, and return [NULL] exactly when there is
    none; [memccpy], which copies forwards, copies up to and including the byte
    searched for, or everything. *)
Theorem memory_correct m p q r t c l k s (Hlen : length l = length k) (Hl : bytes_at m p l)
  (Hk : bytes_at m q k) (Hs : bytes_at m r s) (Hlb : bytes_ok l) (Hkb : bytes_ok k)
  (Hsb : bytes_ok s) (Ht : mapped m t (Z.of_nat (length l))) (Hn : Z.of_nat (length l) < 2 ^ 32) :
  let n := Z.of_nat (length l) in
  (memmove m t p n = Ok (put t l m, t) /\ bcopy m p t n = Ok (put t l m)
   /\ memcpy m t p n = (if decide (t = p \/ t + n <= p \/ p + n <= t) then Ok (put t l m, t) else Panic))
  /\ (memcmp m p q n = Ok (lex_diff l k)
   /\ (lex_diff l k = 0 <-> l = k)
   /\ bcmp m p q n = Ok (if decide (l = k) then 0 else 1)
   /\ timingsafe_bcmp m p q n = Ok (if decide (l = k) then 0 else 1)
   /\ timingsafe_memcmp m p q n = Ok (Z.sgn (lex_diff l k)))
  /\ memchr m p c n = Ok (first_at p (list_find (fun b => b = u8 c) l))
  /\ memrchr m p c n
     = Ok match list_find (fun b => b = u8 c) (reverse l) with
          | Some (i, _) => p + n - 1 - Z.of_nat i
          | None => NULL
          end
  /\ memmem m p n r (Z.of_nat (length s)) = Ok (at_offset p (find_sub s l))
  /\ (fwd_safe t p n -> memccpy m t p c n
     = Ok match list_find (fun b => b = u8 c) l with
          | Some (i, _) => (put t (take (S i) l) m, t + Z.of_nat (S i))
          | None => (put t l m, NULL)
          end).
Proof.
  intros n. split; [by apply memmove_all|].
  split; [by apply memcmp_correct|by apply (memchr_correct m p r)].
Qed.

(** An overlapping move by two, a comparison and searches. *)
Theorem memory_correct_witness :
  memmove sample_mem 103 101 7 = Ok (put 103 [2; 3; 4; 5; 6; 7; 8] sample_mem, 103)
  /\ memcpy sample_mem 103 101 7 = Panic
  /\ memcmp sample_mem 101 104 7 = Ok (-3)
  /\ timingsafe_memcmp sample_mem 101 104 7 = Ok (-1)
  /\ memchr sample_mem 101 (256 + 3) 7 = Ok 102
  /\ memmem sample_mem 101 7 102 2 = Ok 102.
Proof.
  destruct (memory_correct sample_mem 101 104 102 103 (256 + 3) [2; 3; 4; 5; 6; 7; 8]
    [5; 6; 7; 8; 9; 10; 11] [3; 4]) as ((E1 & _ & E2) & (E3 & _ & _ & _ & E4) & E5 & _ & E6 & _);
    [done|..].
  1-3: apply sample_bytes; repeat constructor.
  1-3: repeat (constructor; [split; [lia|reflexivity]|]); constructor.
  - apply sample_mapped; cbn; lia.
  - cbn. lia.
  - split; [exact E1|]. split; [exact E2|]. split; [exact E3|]. split; [exact E4|].
    split; [exact E5|exact E6].
Defined.

(** Filling writes exactly the given number of bytes; [swab], unrolled
    eight pairs at a time, exchanges the bytes of every pair and ignores an odd
    last byte. *)
Theorem memset_correct m d c p l k (Hm : mapped m d (Z.of_nat k)) (Hl : bytes_at m p l)
  (Hlb : bytes_ok l) (Hlen : length l = (2 * k)%nat) (Ht : mapped m d (Z.of_nat (2 * k)))
  (Hd : fwd_safe d p (Z.of_nat (2 * k))) (Hk : 2 * Z.of_nat k + 1 < 2 ^ 32) :
  memset m d c (Z.of_nat k) = Ok (put d (replicate k (u8 c)) m, d)
  /\ bzero m d (Z.of_nat k) = Ok (put d (replicate k 0) m)
  /\ explicit_bzero m d (Z.of_nat k) = Ok (put d (replicate k 0) m)
  /\ swab m p d (2 * Z.of_nat k) = Ok (put d (swap_pairs l) m)
  /\ swab m p d (2 * Z.of_nat k + 1) = Ok (put d (swap_pairs l) m).
Proof.
  unfold explicit_bzero, memset, bzero. rewrite !Nat2Z.id, bzero_loop_memset.
  rewrite !memset_loop_spec by done.
  rewrite !(swab_spec m p d l k) by (done || (rewrite ?Hlen; done) || lia).
  done.
Qed.

Theorem memset_correct_witness :
  memset sample_mem 106 511 3 = Ok (put 106 [255; 255; 255] sample_mem, 106)
  /\ bzero sample_mem 106 3 = Ok (put 106 [0; 0; 0] sample_mem)
  /\ explicit_bzero sample_mem 106 3 = Ok (put 106 [0; 0; 0] sample_mem)
  /\ swab sample_mem 100 106 6 = Ok (put 106 [2; 1; 4; 3; 6; 5] sample_mem)
  /\ swab sample_mem 100 106 7 = Ok (put 106 [2; 1; 4; 3; 6; 5] sample_mem).
Proof.
  apply (memset_correct sample_mem 106 511 100 [1; 2; 3; 4; 5; 6] 3).
  - apply sample_mapped; cbn; lia.
  - apply sample_bytes. repeat constructor.
  - repeat (constructor; [split; [lia|reflexivity]|]). constructor.
  - done.
  - apply sample_mapped; cbn; lia.
  - right. cbn. lia.
  - cbn. lia.
Defined.
