(* ===== verification/Ctype.v ===== *)
(** * Character classes (src/CLibrary/ctype, src/CLibrary/gen)

    The library classifies characters twice: the inline functions of ctype.h
    look them up in the table of gen/ctype_.c, and ctype/ctype.c has functions
    with the ranges written out.  Case conversion is by table. *)

From S2P Require Import Prelude Words.
From Stdlib Require Import ZArith Lia.
From stdpp Require Import prelude gmap list.

Open Scope Z_scope.

Definition EOF : Z := -1.

(** ** The functions of ctype/ctype.c *)

Definition isupper (c : Z) : bool := (65 <=? c) && (c <=? 90).
Definition islower (c : Z) : bool := (97 <=? c) && (c <=? 122).
Definition isalpha (c : Z) : bool := isupper c || islower c.
Definition isdigit (c : Z) : bool :=
  bool_decide (c ∈ [48; 49; 50; 51; 52; 53; 54; 55; 56; 57]).
Definition isprint (c : Z) : bool := (0x1f <? c) && negb (c =? 0x7f).
Definition isspace (c : Z) : bool := bool_decide (c ∈ [32; 9; 10; 11; 12; 13]).
Definition isxdigit (c : Z) : bool :=
  ((97 <=? c) && (c <=? 102)) || ((65 <=? c) && (c <=? 70)) || isdigit c.

(** ** The table of gen/ctype_.c and the inline functions of ctype.h *)

Definition _U : Z := 0x01.
Definition _L : Z := 0x02.
Definition _N : Z := 0x04.
Definition _S : Z := 0x08.
Definition _P : Z := 0x10.
Definition _C : Z := 0x20.
Definition _X : Z := 0x40.
Definition _B : Z := 0x80.
Notation _UX := (Z.lor _U _X).
Notation _LX := (Z.lor _L _X).
Notation _CS := (Z.lor _C _S).
(** A [char]: the sign bit is set. *)
Notation _SB := (Z.lor _S (sgn 8 _B)).

Definition C_ctype : list Z :=
  [0;
   _C; _C; _C; _C; _C; _C; _C; _C;
   _C; _CS; _CS; _CS; _CS; _CS; _C; _C;
   _C; _C; _C; _C; _C; _C; _C; _C;
   _C; _C; _C; _C; _C; _C; _C; _C;
   _SB; _P; _P; _P; _P; _P; _P; _P;
   _P; _P; _P; _P; _P; _P; _P; _P;
   _N; _N; _N; _N; _N; _N; _N; _N;
   _N; _N; _P; _P; _P; _P; _P; _P;
   _P; _UX; _UX; _UX; _UX; _UX; _UX; _U;
   _U; _U; _U; _U; _U; _U; _U; _U;
   _U; _U; _U; _U; _U; _U; _U; _U;
   _U; _U; _U; _P; _P; _P; _P; _P;
   _P; _LX; _LX; _LX; _LX; _LX; _LX; _L;
   _L; _L; _L; _L; _L; _L; _L; _L;
   _L; _L; _L; _L; _L; _L; _L; _L;
   _L; _L; _L; _P; _P; _P; _P; _C;
   0; 0; 0; 0; 0; 0; 0; 0;
   0; 0; 0; 0; 0; 0; 0; 0;
   0; 0; 0; 0; 0; 0; 0; 0;
   0; 0; 0; 0; 0; 0; 0; 0;
   0; 0; 0; 0; 0; 0; 0; 0;
   0; 0; 0; 0; 0; 0; 0; 0;
   0; 0; 0; 0; 0; 0; 0; 0;
   0; 0; 0; 0; 0; 0; 0; 0;
   0; 0; 0; 0; 0; 0; 0; 0;
   0; 0; 0; 0; 0; 0; 0; 0;
   0; 0; 0; 0; 0; 0; 0; 0;
   0; 0; 0; 0; 0; 0; 0; 0;
   0; 0; 0; 0; 0; 0; 0; 0;
   0; 0; 0; 0; 0; 0; 0; 0;
   0; 0; 0; 0; 0; 0; 0; 0;
   0; 0; 0; 0; 0; 0; 0; 0].

(** [(_ctype_ + 1)[(unsigned char)_c] & mask], 0 for [EOF]. *)
Definition classify (mask c : Z) : bool :=
  if c =? EOF then false
  else match C_ctype !! Z.to_nat (u8 c + 1) with
       | Some e => negb (Z.land e mask =? 0)
       | None => false
       end.

Definition inline_isalpha (c : Z) : bool := classify (Z.lor _U _L) c.
Definition inline_isdigit (c : Z) : bool := classify _N c.
Definition inline_islower (c : Z) : bool := classify _L c.
Definition inline_isprint (c : Z) : bool :=
  classify (Z.lor _P (Z.lor _U (Z.lor _L (Z.lor _N _B)))) c.
Definition inline_isspace (c : Z) : bool := classify _S c.
Definition inline_isupper (c : Z) : bool := classify _U c.
Definition inline_isxdigit (c : Z) : bool := classify (Z.lor _N _X) c.

(** ** Case conversion (ctype/tolower.c, ctype/toupper.c) *)

Definition C_tolower : list Z :=
  [EOF;
   0x00; 0x01; 0x02; 0x03; 0x04; 0x05; 0x06; 0x07;
   0x08; 0x09; 0x0a; 0x0b; 0x0c; 0x0d; 0x0e; 0x0f;
   0x10; 0x11; 0x12; 0x13; 0x14; 0x15; 0x16; 0x17;
   0x18; 0x19; 0x1a; 0x1b; 0x1c; 0x1d; 0x1e; 0x1f;
   0x20; 0x21; 0x22; 0x23; 0x24; 0x25; 0x26; 0x27;
   0x28; 0x29; 0x2a; 0x2b; 0x2c; 0x2d; 0x2e; 0x2f;
   0x30; 0x31; 0x32; 0x33; 0x34; 0x35; 0x36; 0x37;
   0x38; 0x39; 0x3a; 0x3b; 0x3c; 0x3d; 0x3e; 0x3f;
   0x40; 0x61; 0x62; 0x63; 0x64; 0x65; 0x66; 0x67;
   0x68; 0x69; 0x6a; 0x6b; 0x6c; 0x6d; 0x6e; 0x6f;
   0x70; 0x71; 0x72; 0x73; 0x74; 0x75; 0x76; 0x77;
   0x78; 0x79; 0x7a; 0x5b; 0x5c; 0x5d; 0x5e; 0x5f;
   0x60; 0x61; 0x62; 0x63; 0x64; 0x65; 0x66; 0x67;
   0x68; 0x69; 0x6a; 0x6b; 0x6c; 0x6d; 0x6e; 0x6f;
   0x70; 0x71; 0x72; 0x73; 0x74; 0x75; 0x76; 0x77;
   0x78; 0x79; 0x7a; 0x7b; 0x7c; 0x7d; 0x7e; 0x7f;
   0x80; 0x81; 0x82; 0x83; 0x84; 0x85; 0x86; 0x87;
   0x88; 0x89; 0x8a; 0x8b; 0x8c; 0x8d; 0x8e; 0x8f;
   0x90; 0x91; 0x92; 0x93; 0x94; 0x95; 0x96; 0x97;
   0x98; 0x99; 0x9a; 0x9b; 0x9c; 0x9d; 0x9e; 0x9f;
   0xa0; 0xa1; 0xa2; 0xa3; 0xa4; 0xa5; 0xa6; 0xa7;
   0xa8; 0xa9; 0xaa; 0xab; 0xac; 0xad; 0xae; 0xaf;
   0xb0; 0xb1; 0xb2; 0xb3; 0xb4; 0xb5; 0xb6; 0xb7;
   0xb8; 0xb9; 0xba; 0xbb; 0xbc; 0xbd; 0xbe; 0xbf;
   0xc0; 0xc1; 0xc2; 0xc3; 0xc4; 0xc5; 0xc6; 0xc7;
   0xc8; 0xc9; 0xca; 0xcb; 0xcc; 0xcd; 0xce; 0xcf;
   0xd0; 0xd1; 0xd2; 0xd3; 0xd4; 0xd5; 0xd6; 0xd7;
   0xd8; 0xd9; 0xda; 0xdb; 0xdc; 0xdd; 0xde; 0xdf;
   0xe0; 0xe1; 0xe2; 0xe3; 0xe4; 0xe5; 0xe6; 0xe7;
   0xe8; 0xe9; 0xea; 0xeb; 0xec; 0xed; 0xee; 0xef;
   0xf0; 0xf1; 0xf2; 0xf3; 0xf4; 0xf5; 0xf6; 0xf7;
   0xf8; 0xf9; 0xfa; 0xfb; 0xfc; 0xfd; 0xfe; 0xff].

Definition C_toupper : list Z :=
  [EOF;
   0x00; 0x01; 0x02; 0x03; 0x04; 0x05; 0x06; 0x07;
   0x08; 0x09; 0x0a; 0x0b; 0x0c; 0x0d; 0x0e; 0x0f;
   0x10; 0x11; 0x12; 0x13; 0x14; 0x15; 0x16; 0x17;
   0x18; 0x19; 0x1a; 0x1b; 0x1c; 0x1d; 0x1e; 0x1f;
   0x20; 0x21; 0x22; 0x23; 0x24; 0x25; 0x26; 0x27;
   0x28; 0x29; 0x2a; 0x2b; 0x2c; 0x2d; 0x2e; 0x2f;
   0x30; 0x31; 0x32; 0x33; 0x34; 0x35; 0x36; 0x37;
   0x38; 0x39; 0x3a; 0x3b; 0x3c; 0x3d; 0x3e; 0x3f;
   0x40; 0x41; 0x42; 0x43; 0x44; 0x45; 0x46; 0x47;
   0x48; 0x49; 0x4a; 0x4b; 0x4c; 0x4d; 0x4e; 0x4f;
   0x50; 0x51; 0x52; 0x53; 0x54; 0x55; 0x56; 0x57;
   0x58; 0x59; 0x5a; 0x5b; 0x5c; 0x5d; 0x5e; 0x5f;
   0x60; 0x41; 0x42; 0x43; 0x44; 0x45; 0x46; 0x47;
   0x48; 0x49; 0x4a; 0x4b; 0x4c; 0x4d; 0x4e; 0x4f;
   0x50; 0x51; 0x52; 0x53; 0x54; 0x55; 0x56; 0x57;
   0x58; 0x59; 0x5a; 0x7b; 0x7c; 0x7d; 0x7e; 0x7f;
   0x80; 0x81; 0x82; 0x83; 0x84; 0x85; 0x86; 0x87;
   0x88; 0x89; 0x8a; 0x8b; 0x8c; 0x8d; 0x8e; 0x8f;
   0x90; 0x91; 0x92; 0x93; 0x94; 0x95; 0x96; 0x97;
   0x98; 0x99; 0x9a; 0x9b; 0x9c; 0x9d; 0x9e; 0x9f;
   0xa0; 0xa1; 0xa2; 0xa3; 0xa4; 0xa5; 0xa6; 0xa7;
   0xa8; 0xa9; 0xaa; 0xab; 0xac; 0xad; 0xae; 0xaf;
   0xb0; 0xb1; 0xb2; 0xb3; 0xb4; 0xb5; 0xb6; 0xb7;
   0xb8; 0xb9; 0xba; 0xbb; 0xbc; 0xbd; 0xbe; 0xbf;
   0xc0; 0xc1; 0xc2; 0xc3; 0xc4; 0xc5; 0xc6; 0xc7;
   0xc8; 0xc9; 0xca; 0xcb; 0xcc; 0xcd; 0xce; 0xcf;
   0xd0; 0xd1; 0xd2; 0xd3; 0xd4; 0xd5; 0xd6; 0xd7;
   0xd8; 0xd9; 0xda; 0xdb; 0xdc; 0xdd; 0xde; 0xdf;
   0xe0; 0xe1; 0xe2; 0xe3; 0xe4; 0xe5; 0xe6; 0xe7;
   0xe8; 0xe9; 0xea; 0xeb; 0xec; 0xed; 0xee; 0xef;
   0xf0; 0xf1; 0xf2; 0xf3; 0xf4; 0xf5; 0xf6; 0xf7;
   0xf8; 0xf9; 0xfa; 0xfb; 0xfc; 0xfd; 0xfe; 0xff].

Definition tolower (c : Z) : res Z :=
  if 255 <? u32 c then Ok c else deref (C_tolower !! Z.to_nat (c + 1)).
Definition toupper (c : Z) : res Z :=
  if 255 <? u32 c then Ok c else deref (C_toupper !! Z.to_nat (c + 1)).

(** The table of string/strcasecmp.c. *)
Definition charmap : list Z :=
  [0x00; 0x01; 0x02; 0x03; 0x04; 0x05; 0x06; 0x07;
   0x08; 0x09; 0x0a; 0x0b; 0x0c; 0x0d; 0x0e; 0x0f;
   0x10; 0x11; 0x12; 0x13; 0x14; 0x15; 0x16; 0x17;
   0x18; 0x19; 0x1a; 0x1b; 0x1c; 0x1d; 0x1e; 0x1f;
   0x20; 0x21; 0x22; 0x23; 0x24; 0x25; 0x26; 0x27;
   0x28; 0x29; 0x2a; 0x2b; 0x2c; 0x2d; 0x2e; 0x2f;
   0x30; 0x31; 0x32; 0x33; 0x34; 0x35; 0x36; 0x37;
   0x38; 0x39; 0x3a; 0x3b; 0x3c; 0x3d; 0x3e; 0x3f;
   0x40; 0x61; 0x62; 0x63; 0x64; 0x65; 0x66; 0x67;
   0x68; 0x69; 0x6a; 0x6b; 0x6c; 0x6d; 0x6e; 0x6f;
   0x70; 0x71; 0x72; 0x73; 0x74; 0x75; 0x76; 0x77;
   0x78; 0x79; 0x7a; 0x5b; 0x5c; 0x5d; 0x5e; 0x5f;
   0x60; 0x61; 0x62; 0x63; 0x64; 0x65; 0x66; 0x67;
   0x68; 0x69; 0x6a; 0x6b; 0x6c; 0x6d; 0x6e; 0x6f;
   0x70; 0x71; 0x72; 0x73; 0x74; 0x75; 0x76; 0x77;
   0x78; 0x79; 0x7a; 0x7b; 0x7c; 0x7d; 0x7e; 0x7f;
   0x80; 0x81; 0x82; 0x83; 0x84; 0x85; 0x86; 0x87;
   0x88; 0x89; 0x8a; 0x8b; 0x8c; 0x8d; 0x8e; 0x8f;
   0x90; 0x91; 0x92; 0x93; 0x94; 0x95; 0x96; 0x97;
   0x98; 0x99; 0x9a; 0x9b; 0x9c; 0x9d; 0x9e; 0x9f;
   0xa0; 0xa1; 0xa2; 0xa3; 0xa4; 0xa5; 0xa6; 0xa7;
   0xa8; 0xa9; 0xaa; 0xab; 0xac; 0xad; 0xae; 0xaf;
   0xb0; 0xb1; 0xb2; 0xb3; 0xb4; 0xb5; 0xb6; 0xb7;
   0xb8; 0xb9; 0xba; 0xbb; 0xbc; 0xbd; 0xbe; 0xbf;
   0xc0; 0xc1; 0xc2; 0xc3; 0xc4; 0xc5; 0xc6; 0xc7;
   0xc8; 0xc9; 0xca; 0xcb; 0xcc; 0xcd; 0xce; 0xcf;
   0xd0; 0xd1; 0xd2; 0xd3; 0xd4; 0xd5; 0xd6; 0xd7;
   0xd8; 0xd9; 0xda; 0xdb; 0xdc; 0xdd; 0xde; 0xdf;
   0xe0; 0xe1; 0xe2; 0xe3; 0xe4; 0xe5; 0xe6; 0xe7;
   0xe8; 0xe9; 0xea; 0xeb; 0xec; 0xed; 0xee; 0xef;
   0xf0; 0xf1; 0xf2; 0xf3; 0xf4; 0xf5; 0xf6; 0xf7;
   0xf8; 0xf9; 0xfa; 0xfb; 0xfc; 0xfd; 0xfe; 0xff].

(** ** Facts, by evaluation over the finite range *)

Definition lower (c : Z) : Z := if isupper c then c + 32 else c.
Definition upper (c : Z) : Z := if islower c then c - 32 else c.

(** [in_range lo n P]: a boolean test holds for the [n] integers from [lo]. *)
Definition in_range (lo n : Z) (P : Z -> bool) : bool := forallb P (seqZ lo n).

Lemma in_range_spec lo n P c : in_range lo n P = true -> lo <= c < lo + n -> P c = true.
Proof.
  unfold in_range. rewrite forallb_forall. intros H Hc. apply H, list_elem_of_In, elem_of_seqZ. lia.
Qed.

Lemma forall_range (P : Z -> Prop) `{forall c, Decision (P c)} lo n c :
  in_range lo n (fun c => bool_decide (P c)) = true -> lo <= c < lo + n -> P c.
Proof.
  intros Hr Hc. apply (in_range_spec _ _ (fun c => bool_decide (P c)) c Hr) in Hc.
  by apply bool_decide_eq_true in Hc.
Qed.

Definition agree (c : Z) : bool :=
  eqb (inline_isupper c) (isupper c) && eqb (inline_islower c) (islower c)
  && eqb (inline_isalpha c) (isalpha c) && eqb (inline_isdigit c) (isdigit c)
  && eqb (inline_isspace c) (isspace c) && eqb (inline_isxdigit c) (isxdigit c)
  && eqb (inline_isprint c) (isprint c && (c <=? 0x7e)).

Lemma agree_all c : -128 <= c <= 255 -> agree c = true.
Proof. intros Hc. apply (in_range_spec (-128) 384); [vm_compute; reflexivity|lia]. Qed.

Lemma tolower_byte c : 0 <= c <= 255 -> tolower c = Ok (lower c).
Proof.
  intros Hc. apply (forall_range (fun c => tolower c = Ok (lower c)) 0 256); [vm_compute; reflexivity|lia].
Qed.

Lemma toupper_byte c : 0 <= c <= 255 -> toupper c = Ok (upper c).
Proof.
  intros Hc. apply (forall_range (fun c => toupper c = Ok (upper c)) 0 256); [vm_compute; reflexivity|lia].
Qed.

Lemma charmap_byte c : 0 <= c <= 255 -> charmap !! Z.to_nat c = Some (lower c).
Proof.
  intros Hc. apply (forall_range (fun c => charmap !! Z.to_nat c = Some (lower c)) 0 256); [vm_compute; reflexivity|lia].
Qed.

(** For every value of a [char] or an [unsigned char] the table and the
    functions classify alike, except that [isprint] of ctype.c also accepts the
    bytes from 0x80 up, which the table does not; the case tables convert
    exactly the ASCII letters. *)
Theorem ctype_equivalent c (Hc : -128 <= c <= 255) :
  inline_isupper c = isupper c /\ inline_islower c = islower c
  /\ inline_isalpha c = isalpha c /\ inline_isdigit c = isdigit c
  /\ inline_isspace c = isspace c /\ inline_isxdigit c = isxdigit c
  /\ inline_isprint c = isprint c && (c <=? 0x7e)
  /\ (0 <= c -> tolower c = Ok (lower c) /\ toupper c = Ok (upper c)
                /\ charmap !! Z.to_nat c = Some (lower c)).
Proof.
  pose proof (agree_all c Hc) as H. unfold agree in H. rewrite !andb_true_iff, !eqb_true_iff in H.
  destruct H as ((((((? & ?) & ?) & ?) & ?) & ?) & ?).
  do 7 (split; [assumption|]). intros Hpos. split_and!.
  - apply tolower_byte. lia.
  - apply toupper_byte. lia.
  - apply charmap_byte. lia.
Qed.

Theorem ctype_equivalent_witness :
  inline_isupper 233 = isupper 233 /\ inline_islower 233 = islower 233
  /\ inline_isalpha 233 = isalpha 233 /\ inline_isdigit 233 = isdigit 233
  /\ inline_isspace 233 = isspace 233 /\ inline_isxdigit 233 = isxdigit 233
  /\ inline_isprint 233 = isprint 233 && (233 <=? 0x7e)
  /\ (0 <= 233 -> tolower 233 = Ok (lower 233) /\ toupper 233 = Ok (upper 233)
                  /\ charmap !! Z.to_nat 233 = Some (lower 233)).
Proof. apply (ctype_equivalent 233). lia. Defined.
