(* ===== verification/CString.v ===== *)
(** * Strings of the C library (src/CLibrary/string)

    NUL-terminated strings in the byte memory of CMem.  A loop that runs to the
    NUL has [fuel m] rounds, which is enough because every round reads another
    mapped address; loops that a counter bounds recurse on the counter. *)

From S2P Require Import Prelude Words CMem CBytes Ctype.
From Stdlib Require Import ZArith Lia.
From stdpp Require Import prelude gmap list.

Open Scope Z_scope.

(** ** Length and characters (strlen.c, strnlen.c, index.c, rindex.c) *)

Fixpoint strlen_loop (k : nat) (m : mem) (s : Z) : res Z :=
  match k with
  | O => NoFuel
  | S k' => c ← load m s; if c =? 0 then Ok s else strlen_loop k' m (s + 1)
  end.
Definition strlen (m : mem) (str : Z) : res Z :=
  s ← strlen_loop (fuel m) m str; Ok (s - str).

Fixpoint strnlen_loop (maxlen : nat) (m : mem) (cp : Z) : res Z :=
  match maxlen with
  | O => Ok cp
  | S k' => c ← load m cp; if c =? 0 then Ok cp else strnlen_loop k' m (cp + 1)
  end.
Definition strnlen (m : mem) (str maxlen : Z) : res Z :=
  cp ← strnlen_loop (Z.to_nat maxlen) m str; Ok (cp - str).

(** [*p == ch] compares a signed [char] with an [int]. *)
Fixpoint index_loop (k : nat) (m : mem) (p ch : Z) : res Z :=
  match k with
  | O => NoFuel
  | S k' =>
      c ← load m p;
      if schar c =? ch then Ok p
      else if c =? 0 then Ok NULL else index_loop k' m (p + 1) ch
  end.
Definition index (m : mem) (p ch : Z) : res Z := index_loop (fuel m) m p ch.

Fixpoint rindex_loop (k : nat) (m : mem) (p ch save : Z) : res Z :=
  match k with
  | O => NoFuel
  | S k' =>
      c ← load m p;
      let save := if schar c =? ch then p else save in
      if c =? 0 then Ok save else rindex_loop k' m (p + 1) ch save
  end.
Definition rindex (m : mem) (p ch : Z) : res Z := rindex_loop (fuel m) m p ch NULL.

(** ** Comparison (strcmp.c, strncmp.c, strcoll.c, strcasecmp.c) *)

Fixpoint strcmp_loop (k : nat) (m : mem) (s1 s2 : Z) : res Z :=
  match k with
  | O => NoFuel
  | S k' =>
      a ← load m s1; b ← load m s2;
      if a =? b then if a =? 0 then Ok 0 else strcmp_loop k' m (s1 + 1) (s2 + 1)
      else Ok (a - b)
  end.
Definition strcmp (m : mem) (s1 s2 : Z) : res Z := strcmp_loop (fuel m) m s1 s2.
Definition strcoll (m : mem) (s1 s2 : Z) : res Z := strcmp m s1 s2.

Fixpoint strncmp_loop (n : nat) (m : mem) (s1 s2 : Z) : res Z :=
  match n with
  | O => Ok 0
  | S n' =>
      a ← load m s1; b ← load m s2;
      if negb (a =? b) then Ok (a - b)
      else if a =? 0 then Ok 0 else strncmp_loop n' m (s1 + 1) (s2 + 1)
  end.
Definition strncmp (m : mem) (s1 s2 n : Z) : res Z := strncmp_loop (Z.to_nat n) m s1 s2.

Definition cm (c : Z) : res Z := deref (charmap !! Z.to_nat c).

Fixpoint strcasecmp_loop (k : nat) (m : mem) (us1 us2 : Z) : res Z :=
  match k with
  | O => NoFuel
  | S k' =>
      a ← load m us1; b ← load m us2;
      x ← cm a; y ← cm b;
      if x =? y then if a =? 0 then Ok 0 else strcasecmp_loop k' m (us1 + 1) (us2 + 1)
      else Ok (x - y)
  end.
Definition strcasecmp (m : mem) (s1 s2 : Z) : res Z := strcasecmp_loop (fuel m) m s1 s2.

Fixpoint strncasecmp_loop (n : nat) (m : mem) (us1 us2 : Z) : res Z :=
  match n with
  | O => Ok 0
  | S n' =>
      a ← load m us1; b ← load m us2;
      x ← cm a; y ← cm b;
      if negb (x =? y) then Ok (x - y)
      else if a =? 0 then Ok 0 else strncasecmp_loop n' m (us1 + 1) (us2 + 1)
  end.
Definition strncasecmp (m : mem) (s1 s2 n : Z) : res Z := strncasecmp_loop (Z.to_nat n) m s1 s2.

(** ** Copying (strcpy.c, stpcpy.c, strncpy.c, stpncpy.c, strlcpy.c, strxfrm.c) *)

(** [for (; ( *to = *from) != '\0'; ++from, ++to);] returns the final [to]. *)
Fixpoint copy_loop (k : nat) (m : mem) (to from : Z) : res (mem * Z) :=
  match k with
  | O => NoFuel
  | S k' =>
      c ← load m from;
      m ← store m to c;
      if c =? 0 then Ok (m, to) else copy_loop k' m (to + 1) (from + 1)
  end.
Definition strcpy (m : mem) (to from : Z) : res (mem * Z) :=
  '(m, _) ← copy_loop (fuel m) m to from; Ok (m, to).
Definition stpcpy (m : mem) (to from : Z) : res (mem * Z) := copy_loop (fuel m) m to from.

(** NUL padding: [while (--n != 0) *d++ = 0;] with [n - 1] left. *)
Fixpoint pad_loop (n : nat) (m : mem) (d : Z) : res mem :=
  match n with O => Ok m | S n' => m ← store m d 0; pad_loop n' m (d + 1) end.

(** The result is the address of the first NUL written, if any. *)
Fixpoint strncpy_loop (n : nat) (m : mem) (d s : Z) : res (mem * option Z) :=
  match n with
  | O => Ok (m, None)
  | S n' =>
      c ← load m s;
      m ← store m d c;
      if c =? 0 then m ← pad_loop n' m (d + 1); Ok (m, Some d)
      else strncpy_loop n' m (d + 1) (s + 1)
  end.
Definition strncpy (m : mem) (dst src n : Z) : res (mem * Z) :=
  '(m, _) ← strncpy_loop (Z.to_nat n) m dst src; Ok (m, dst).
Definition stpncpy (m : mem) (dst src n : Z) : res (mem * Z) :=
  '(m, e) ← strncpy_loop (Z.to_nat n) m dst src;
  Ok (m, match e with Some d => d | None => dst + n end).

(** strlcpy.c: the first loop, with [--n] counting down, stops at the NUL or
    with no room left. *)
Fixpoint strlcpy_loop (n : nat) (m : mem) (d s : Z) : res (mem * Z * Z * bool) :=
  match n with
  | O => Ok (m, d, s, false)
  | S n' =>
      c ← load m s;
      m ← store m d c;
      if c =? 0 then Ok (m, d + 1, s + 1, true) else strlcpy_loop n' m (d + 1) (s + 1)
  end.

(** [while ( *s++ ) ;] *)
Fixpoint skip_loop (k : nat) (m : mem) (s : Z) : res Z :=
  match k with
  | O => NoFuel
  | S k' => c ← load m s; if c =? 0 then Ok (s + 1) else skip_loop k' m (s + 1)
  end.

Definition strlcpy (m : mem) (dst src siz : Z) : res (mem * Z) :=
  if siz =? 0 then s ← skip_loop (fuel m) m src; Ok (m, s - src - 1)
  else
    '(m, d, s, full) ← strlcpy_loop (Z.to_nat (siz - 1)) m dst src;
    if full : bool then Ok (m, s - src - 1)
    else
      m ← store m d 0;
      s ← skip_loop (fuel m) m s;
      Ok (m, s - src - 1).

Definition strxfrm (m : mem) (dst src n : Z) : res (mem * Z) :=
  if n =? 0 then l ← strlen m src; Ok (m, l) else strlcpy m dst src n.

(** ** Concatenation (strcat.c, strncat.c, strlcat.c) *)

Definition strcat (m : mem) (s append : Z) : res (mem * Z) :=
  e ← strlen_loop (fuel m) m s;
  '(m, _) ← copy_loop (fuel m) m e append;
  Ok (m, s).

(** [do { if (( *d = *s++) == 0) break; d++; } while (--n != 0); *d = 0;] *)
Fixpoint strncat_loop (n : nat) (m : mem) (d s : Z) : res (mem * Z) :=
  match n with
  | O => Ok (m, d)
  | S n' =>
      c ← load m s;
      m ← store m d c;
      if c =? 0 then Ok (m, d) else strncat_loop n' m (d + 1) (s + 1)
  end.
Definition strncat (m : mem) (dst src n : Z) : res (mem * Z) :=
  if n =? 0 then Ok (m, dst)
  else
    d ← strlen_loop (fuel m) m dst;
    '(m, d) ← strncat_loop (Z.to_nat n) m d src;
    m ← store m d 0;
    Ok (m, dst).

(** The second loop of strlcat.c: [n] is the room left, NUL included. *)
Fixpoint strlcat_loop (k : nat) (m : mem) (d s n : Z) : res (mem * Z * Z) :=
  match k with
  | O => NoFuel
  | S k' =>
      c ← load m s;
      if c =? 0 then Ok (m, d, s)
      else if negb (n =? 1) then
        m ← store m d c; strlcat_loop k' m (d + 1) (s + 1) (n - 1)
      else strlcat_loop k' m d (s + 1) n
  end.
Definition strlcat (m : mem) (dst src siz : Z) : res (mem * Z) :=
  d ← strnlen_loop (Z.to_nat siz) m dst;
  let dlen := d - dst in
  let n := siz - dlen in
  if n =? 0 then l ← strlen m src; Ok (m, dlen + l)
  else
    '(m, d, s) ← strlcat_loop (fuel m) m d src n;
    m ← store m d 0;
    Ok (m, dlen + (s - src)).

(** ** Reading a string *)

Lemma str_at_load m p s : str_at m p s ->
  load m p = Ok (default 0 (head s)).
Proof.
  destruct s as [|c s]; intros H.
  - apply str_at_nil in H. by rewrite (load_ok _ _ _ H).
  - apply str_at_cons in H as (H & _ & _). by rewrite (load_ok _ _ _ H).
Qed.

(** [str_step H] performs the load at the head of the string [H]. *)
Ltac str_step H :=
  rewrite (str_at_load _ _ _ H); cbn [head default mbind res_bind from_option id].

Ltac nz := match goal with H : ?b <> 0 |- context [?b =? 0] =>
  rewrite (proj2 (Z.eqb_neq b 0) H) end.

Lemma strlen_loop_spec m s : forall k p, str_at m p s -> (length s < k)%nat ->
  strlen_loop k m p = Ok (p + Z.of_nat (length s)).
Proof.
  induction s as [|c s IH]; intros [|k] p H Hk; try (cbn in Hk; lia);
    cbn [strlen_loop]; str_step H.
  - rewrite Z.eqb_refl. f_equal. cbn. lia.
  - apply str_at_cons in H as (_ & Hc & H). nz. rewrite IH by (done || (cbn in Hk; lia)).
    f_equal. cbn. lia.
Qed.

Lemma strlen_spec m p s : str_at m p s -> strlen m p = Ok (Z.of_nat (length s)).
Proof.
  intros H. unfold strlen. rewrite (strlen_loop_spec m s) by
    (done || (apply str_at_fuel in H; lia)). cbn. f_equal. lia.
Qed.

Lemma strnlen_loop_spec m s : forall n p, str_at m p s ->
  strnlen_loop n m p = Ok (p + Z.of_nat (n `min` length s)).
Proof.
  induction s as [|c s IH]; intros [|n] p H; cbn [strnlen_loop length Nat.min].
  1,3: f_equal; lia.
  - str_step H. rewrite Z.eqb_refl. f_equal. lia.
  - str_step H. apply str_at_cons in H as (_ & Hc & H). nz. rewrite IH by done. f_equal. lia.
Qed.

Lemma index_loop_spec m ch s : forall k p, str_at m p s -> (length s < k)%nat ->
  index_loop k m p ch = Ok (first_at p (list_find (fun b => schar b = ch) (s ++ [0]))).
Proof.
  induction s as [|c s IH]; intros [|k] p H Hk; try (cbn in Hk; lia);
    cbn [index_loop app list_find]; str_step H.
  - change (schar 0) with 0. case_decide as E.
    + subst ch. cbn. f_equal. lia.
    + rewrite (proj2 (Z.eqb_neq _ _) E). done.
  - apply str_at_cons in H as (_ & Hc & H). case_decide as E.
    + subst ch. rewrite Z.eqb_refl. cbn. f_equal. lia.
    + rewrite (proj2 (Z.eqb_neq _ _) E). nz. rewrite IH by (done || (cbn in Hk; lia)).
      by rewrite first_at_shift.
Qed.

(** The last occurrence, [save] being the answer so far. *)
Fixpoint last_at (p : Z) (P : Z -> bool) (l : list Z) (save : Z) : Z :=
  match l with
  | [] => save
  | b :: l' => last_at (p + 1) P l' (if P b then p else save)
  end.

Lemma last_at_spec P l : forall p save,
  (forallb (fun b => negb (P b)) l = true /\ last_at p P l save = save)
  \/ exists i b, l !! i = Some b /\ P b = true /\ last_at p P l save = p + Z.of_nat i
       /\ forall j c, (i < j)%nat -> l !! j = Some c -> P c = false.
Proof.
  induction l as [|a l IH]; intros p save; [by left|]. cbn [last_at forallb].
  destruct (IH (p + 1) (if P a then p else save)) as [[H E]|(i & b & Hi & Hb & E & Hlast)].
  - destruct (P a) eqn:Ea; cbn [negb andb].
    + right. exists 0%nat, a. split_and!; [done|done|rewrite E; lia|].
      intros [|j] c Hj Hc; [lia|]. rewrite forallb_forall in H.
      apply negb_true_iff, H. apply list_elem_of_In. by eapply list_elem_of_lookup_2.
    + left. split; [done|exact E].
  - right. exists (S i), b. split_and!; [done|done|rewrite E; lia|].
    intros [|j] c Hj Hc; [lia|]. by apply (Hlast j); [lia|].
Qed.

Lemma rindex_loop_spec m ch s : forall k p save, str_at m p s -> (length s < k)%nat ->
  rindex_loop k m p ch save = Ok (last_at p (fun b => schar b =? ch) (s ++ [0]) save).
Proof.
  induction s as [|c s IH]; intros [|k] p save H Hk; try (cbn in Hk; lia);
    cbn [rindex_loop app last_at]; str_step H; [done|].
  apply str_at_cons in H as (_ & Hc & H). nz. apply IH; [done|cbn in Hk; lia].
Qed.

(** ** Comparing strings *)

Lemma strcmp_loop_spec m s : forall t k p q, str_at m p s -> str_at m q t ->
  (length s < k)%nat -> strcmp_loop k m p q = Ok (lex_diff (s ++ [0]) (t ++ [0])).
Proof.
  induction s as [|a s IH]; intros t [|k] p q H K Hk; try (cbn in Hk; lia);
    cbn [strcmp_loop app lex_diff]; str_step H; str_step K.
  - destruct t as [|b t]; cbn [head default app from_option id]; [done|].
    destruct (0 =? b) eqn:E; [|done]. zbool. subst b. by apply str_at_cons in K as (_ & ? & _).
  - apply str_at_cons in H as (_ & Ha & H).
    destruct t as [|b t]; cbn [head default app from_option id].
    + nz. done.
    + destruct (a =? b) eqn:E; [|done]. nz. apply str_at_cons in K as (_ & _ & K).
      apply IH; [done|done|cbn in Hk; lia].
Qed.

Lemma strncmp_loop_spec m s : forall t n p q, str_at m p s -> str_at m q t ->
  strncmp_loop n m p q = Ok (lex_diff (take n (s ++ [0])) (take n (t ++ [0]))).
Proof.
  induction s as [|a s IH]; intros t [|n] p q H K; try done;
    cbn [strncmp_loop app take lex_diff]; str_step H; str_step K.
  - destruct t as [|b t]; cbn [head default app take from_option id]; [by destruct n|].
    destruct (0 =? b) eqn:E; cbn [negb]; [|done]. zbool. subst b.
    by apply str_at_cons in K as (_ & ? & _).
  - apply str_at_cons in H as (_ & Ha & H).
    destruct t as [|b t]; cbn [head default app take from_option id].
    + nz. done.
    + destruct (a =? b) eqn:E; cbn [negb]; [|done]. nz. apply str_at_cons in K as (_ & _ & K).
      by apply IH.
Qed.

Lemma cm_byte c : byte_ok c -> cm c = Ok (lower c).
Proof. intros Hc. unfold cm. rewrite charmap_byte; [done|]. unfold byte_ok, uint in Hc. lia. Qed.

Lemma lower_zero c : lower c = 0 -> c = 0.
Proof. unfold lower, isupper. destruct (_ && _) eqn:E; [|done]. apply andb_true_iff in E as [??]. zbool. lia. Qed.

Lemma lower_zero_ne c : c <> 0 -> 0 <> lower c.
Proof. intros H E. by apply H, lower_zero. Qed.

Lemma head_byte s : bytes_ok s -> byte_ok (default 0 (head s)).
Proof. destruct s; [done|]. by intros [? _]%Forall_cons. Qed.

(** The two heads, folded by the table. *)
Ltac case_step Hb Hc :=
  rewrite (cm_byte _ Hb); cbn [mbind res_bind]; rewrite (cm_byte _ Hc); cbn [mbind res_bind].

Lemma strcasecmp_loop_spec m s : forall t k p q, str_at m p s -> str_at m q t ->
  bytes_ok s -> bytes_ok t -> (length s < k)%nat ->
  strcasecmp_loop k m p q = Ok (lex_diff (lower <$> s ++ [0]) (lower <$> t ++ [0])).
Proof.
  induction s as [|a s IH]; intros t [|k] p q H K Hb Hc Hk; try (cbn in Hk; lia);
    cbn [strcasecmp_loop]; rewrite (str_at_load _ _ _ H); cbn [mbind res_bind];
    rewrite (str_at_load _ _ _ K); cbn [mbind res_bind];
    case_step (head_byte _ Hb) (head_byte _ Hc); cbn [head default from_option id].
  - change (lower 0) with 0. destruct t as [|b t]; [done|]. cbn [head default from_option id].
    apply str_at_cons in K as (_ & Hb0 & _). cbn [app take fmap list_fmap lex_diff]. change (lower 0) with 0.
    rewrite (proj2 (Z.eqb_neq _ _) (lower_zero_ne b Hb0)). done.
  - apply str_at_cons in H as (_ & Ha & H). apply Forall_cons in Hb as [_ Hb].
    destruct t as [|b t]; cbn [head default from_option id].
    + cbn [app take fmap list_fmap lex_diff]. change (lower 0) with 0. pose proof (lower_zero_ne a Ha).
      rewrite (proj2 (Z.eqb_neq (lower a) 0)) by done. done.
    + apply str_at_cons in K as (_ & _ & K). apply Forall_cons in Hc as [_ Hc].
      cbn [app fmap list_fmap lex_diff]. destruct (lower a =? lower b); [|done]. nz.
      apply IH; [done|done|done|done|cbn in Hk; lia].
Qed.

Lemma strncasecmp_loop_spec m s : forall t n p q, str_at m p s -> str_at m q t ->
  bytes_ok s -> bytes_ok t ->
  strncasecmp_loop n m p q
  = Ok (lex_diff (lower <$> take n (s ++ [0])) (lower <$> take n (t ++ [0]))).
Proof.
  induction s as [|a s IH]; intros t [|n] p q H K Hb Hc; try done;
    cbn [strncasecmp_loop]; rewrite (str_at_load _ _ _ H); cbn [mbind res_bind];
    rewrite (str_at_load _ _ _ K); cbn [mbind res_bind];
    case_step (head_byte _ Hb) (head_byte _ Hc); cbn [head default from_option id].
  - change (lower 0) with 0. destruct t as [|b t]; [by destruct n|].
    cbn [head default from_option id].
    apply str_at_cons in K as (_ & Hb0 & _). cbn [app take fmap list_fmap lex_diff]. change (lower 0) with 0.
    rewrite (proj2 (Z.eqb_neq _ _) (lower_zero_ne b Hb0)). done.
  - apply str_at_cons in H as (_ & Ha & H). apply Forall_cons in Hb as [_ Hb].
    destruct t as [|b t]; cbn [head default from_option id].
    + cbn [app take fmap list_fmap lex_diff]. change (lower 0) with 0. pose proof (lower_zero_ne a Ha).
      rewrite (proj2 (Z.eqb_neq (lower a) 0)) by done. done.
    + apply str_at_cons in K as (_ & _ & K). apply Forall_cons in Hc as [_ Hc].
      cbn [app take fmap list_fmap lex_diff]. destruct (lower a =? lower b); cbn [negb]; [|done].
      nz. by apply IH.
Qed.

(** ** Copying strings *)

Lemma copy_loop_spec s : forall k m to from, str_at m from s -> bytes_ok s ->
  mapped m to (Z.of_nat (S (length s))) -> fwd_safe to from (Z.of_nat (S (length s))) ->
  (length s < k)%nat ->
  copy_loop k m to from = Ok (put to (s ++ [0]) m, to + Z.of_nat (length s)).
Proof.
  induction s as [|c s IH]; intros [|k] m to from H Hb Hm Hd Hk; try (cbn in Hk; lia);
    cbn [copy_loop]; str_step H.
  - rewrite store_ok by (done || (apply Hm; cbn; lia)). cbn. do 2 f_equal. lia.
  - apply str_at_cons in H as (_ & Hc & H). apply Forall_cons in Hb as [Hc0 Hb].
    rewrite store_ok by (done || (apply Hm; cbn; lia)). cbn [mbind res_bind]. nz.
    unfold fwd_safe in Hd. cbn [length] in *. rewrite IH; [|destruct H as [H Hnz]; split|done| | |lia].
    + cbn [app put]. do 2 f_equal. lia.
    + apply (bytes_at_put_disjoint to [c] m); [cbn; rewrite length_app; cbn; lia|done].
    + done.
    + apply mapped_insert. eapply mapped_mono; [exact Hm|lia|lia].
    + unfold fwd_safe. lia.
Qed.

Lemma pad_loop_spec n : forall m d, mapped m d (Z.of_nat n) ->
  pad_loop n m d = Ok (put d (replicate n 0) m).
Proof.
  induction n as [|n IH]; intros m d Hm; cbn [pad_loop replicate put]; [done|].
  rewrite store_ok by (done || (apply Hm; lia)). cbn [mbind res_bind]. apply IH, mapped_insert.
  eapply mapped_mono; [exact Hm|lia|lia].
Qed.

(** A string cut or padded to [n] bytes. *)
Definition fit (n : nat) (s : list Z) : list Z := take n (s ++ replicate n 0).

Lemma strncpy_loop_spec s : forall n m d p, str_at m p s -> bytes_ok s ->
  mapped m d (Z.of_nat n) -> fwd_safe d p (Z.of_nat (S (length s))) ->
  strncpy_loop n m d p
  = Ok (put d (fit n s) m,
        if decide (length s < n)%nat then Some (d + Z.of_nat (length s)) else None).
Proof.
  unfold fit. induction s as [|c s IH]; intros [|n] m d p H Hb Hm Hd; try done;
    cbn [strncpy_loop]; str_step H.
  - rewrite store_ok by (done || (apply Hm; lia)). cbn [mbind res_bind].
    change (0 =? 0) with true. cbv iota. rewrite pad_loop_spec.
    + cbn [mbind res_bind app replicate take put length]. rewrite decide_True by lia.
      rewrite take_replicate, Nat.min_id. f_equal. f_equal. f_equal. lia.
    + apply mapped_insert. eapply mapped_mono; [exact Hm|lia|lia].
  - apply str_at_cons in H as (_ & Hc & H). apply Forall_cons in Hb as [Hc0 Hb].
    rewrite store_ok by (done || (apply Hm; lia)). cbn [mbind res_bind]. nz.
    unfold fwd_safe in Hd. cbn [length] in *. rewrite IH; [|destruct H as [H Hnz]; split|done| |].
    + cbn [app take put]. f_equal. f_equal.
      * f_equal. assert (replicate (S n) 0 = replicate n 0 ++ [0]) as -> by apply replicate_S_end.
        rewrite app_assoc, (take_app_le (s ++ replicate n 0)); [done|]. rewrite length_app, length_replicate. lia.
      * repeat case_decide; try lia; [|done]. f_equal. lia.
    + apply (bytes_at_put_disjoint d [c] m); [cbn; rewrite length_app; cbn; lia|done].
    + done.
    + apply mapped_insert. eapply mapped_mono; [exact Hm|lia|lia].
    + unfold fwd_safe. lia.
Qed.

(** Disjoint source and destination. *)
Definition apart (p n q k : Z) : Prop := p + n <= q \/ q + k <= p.

Lemma str_at_put p l m q s : apart p (Z.of_nat (length l)) q (Z.of_nat (S (length s))) ->
  str_at m q s -> str_at (put p l m) q s.
Proof.
  intros Hd [H Hnz]. split; [|done]. apply bytes_at_put_disjoint; [|done].
  rewrite length_app. unfold apart in Hd. cbn. lia.
Qed.

Lemma strlcpy_loop_spec s : forall n m d p, str_at m p s -> bytes_ok s ->
  mapped m d (Z.of_nat n) -> apart d (Z.of_nat n) p (Z.of_nat (S (length s))) ->
  strlcpy_loop n m d p
  = Ok (if decide (length s < n)%nat
        then (put d (s ++ [0]) m, d + Z.of_nat (S (length s)), p + Z.of_nat (S (length s)), true)
        else (put d (take n s) m, d + Z.of_nat n, p + Z.of_nat n, false)).
Proof.
  induction s as [|c s IH]; intros [|n] m d p H Hb Hm Hd; cbn [strlcpy_loop].
  1,3: rewrite decide_False by (cbn; lia); cbn; do 3 f_equal; [f_equal|]; lia.
  all: str_step H; rewrite store_ok
    by (apply (head_byte _ Hb) || done || (apply Hm; lia)); cbn [mbind res_bind].
  - rewrite decide_True by (cbn; lia). done.
  - apply str_at_cons in H as (_ & Hc & H). apply Forall_cons in Hb as [Hc0 Hb]. nz.
    unfold apart in Hd. cbn [length] in *.
    rewrite IH; [|change (<[d:=c]> m) with (put d [c] m); apply str_at_put|done| |].
    + repeat case_decide; try lia; cbn [app take put]; do 3 f_equal; try (f_equal; lia); lia.
    + unfold apart. cbn. lia.
    + done.
    + apply mapped_insert. eapply mapped_mono; [exact Hm|lia|lia].
    + unfold apart. lia.
Qed.

Lemma skip_loop_spec m s : forall k p, str_at m p s -> (length s < k)%nat ->
  skip_loop k m p = Ok (p + Z.of_nat (S (length s))).
Proof.
  induction s as [|c s IH]; intros [|k] p H Hk; try (cbn in Hk; lia);
    cbn [skip_loop]; str_step H; [done|].
  apply str_at_cons in H as (_ & Hc & H). nz. rewrite IH by (done || (cbn in Hk; lia)).
  f_equal. cbn. lia.
Qed.

(** The tail of a string is a string. *)
Lemma str_at_drop m p s n : str_at m p s -> (n <= length s)%nat ->
  str_at m (p + Z.of_nat n) (drop n s).
Proof.
  revert p s; induction n as [|n IH]; intros p s H Hn.
  - by rewrite Z.add_0_r, drop_0.
  - destruct s as [|c s]; [cbn in Hn; lia|]. apply str_at_cons in H as (_ & _ & H).
    replace (p + Z.of_nat (S n)) with (p + 1 + Z.of_nat n) by lia. apply IH; [done|cbn in Hn; lia].
Qed.

Lemma strlcpy_spec m dst src siz s : str_at m src s -> bytes_ok s -> 0 <= siz ->
  mapped m dst siz -> apart dst siz src (Z.of_nat (S (length s))) ->
  strlcpy m dst src siz
  = Ok (if decide (siz = 0) then m else put dst (take (Z.to_nat (siz - 1)) s ++ [0]) m,
        Z.of_nat (length s)).
Proof.
  intros H Hb Hsz Hm Hd. unfold strlcpy. pose proof (str_at_fuel _ _ _ H) as Hf.
  destruct (siz =? 0) eqn:E; zbool.
  { rewrite decide_True by done. rewrite (skip_loop_spec m s) by (done || lia).
    cbn [mbind res_bind]. do 2 f_equal. lia. }
  rewrite decide_False by done. unfold apart in Hd.
  rewrite (strlcpy_loop_spec s); [|done|done|eapply mapped_mono; [exact Hm|lia|lia]|unfold apart; lia].
  cbn [mbind res_bind]. case_decide as Hl.
  - rewrite take_ge by lia. do 2 f_equal. lia.
  - set (n := Z.to_nat (siz - 1)) in *.
    assert (length (take n s) = n) as Hlt by (rewrite length_take; lia).
    rewrite store_ok; [|apply (mapped_put m dst _ dst siz Hm); lia|done]. cbn [mbind res_bind].
    assert (<[dst + Z.of_nat n:=0]> (put dst (take n s) m) = put dst (take n s ++ [0]) m) as ->
      by (by rewrite put_snoc, Hlt).
    assert (str_at (put dst (take n s ++ [0]) m) (src + Z.of_nat n) (drop n s)) as Hr.
    { apply str_at_drop; [|lia]. apply str_at_put; [|done]. unfold apart.
      rewrite length_app, Hlt. cbn. lia. }
    rewrite (skip_loop_spec _ (drop n s)); [|done|apply str_at_fuel in Hr; lia].
    cbn [mbind res_bind]. rewrite length_drop. do 2 f_equal. lia.
Qed.

(** ** Concatenation *)

Lemma put_end p l b m a : a = p + Z.of_nat (length l) -> <[a := b]> (put p l m) = put p (l ++ [b]) m.
Proof. intros ->. by rewrite put_snoc. Qed.

Lemma put_again p l b m : put p (l ++ [b]) m = <[p + Z.of_nat (length l) := b]> (put p (l ++ [b]) m).
Proof. rewrite put_snoc. by rewrite insert_insert_eq. Qed.

Lemma strcat_spec m p a q b : str_at m p a -> str_at m q b -> bytes_ok b ->
  mapped m (p + Z.of_nat (length a)) (Z.of_nat (S (length b))) ->
  fwd_safe (p + Z.of_nat (length a)) q (Z.of_nat (S (length b))) ->
  strcat m p q = Ok (put (p + Z.of_nat (length a)) (b ++ [0]) m, p).
Proof.
  intros Ha Hb Hbb Hm Hd. unfold strcat. pose proof (str_at_fuel _ _ _ Ha).
  pose proof (str_at_fuel _ _ _ Hb). rewrite (strlen_loop_spec m a) by (done || lia).
  cbn [mbind res_bind]. by rewrite (copy_loop_spec b) by (done || lia).
Qed.

Lemma strncat_loop_spec s : forall n m d p, str_at m p s -> bytes_ok s ->
  mapped m d (Z.of_nat n) -> fwd_safe d p (Z.of_nat (S (length s))) ->
  strncat_loop n m d p
  = Ok (if decide (length s < n)%nat
        then (put d (s ++ [0]) m, d + Z.of_nat (length s))
        else (put d (take n s) m, d + Z.of_nat n)).
Proof.
  induction s as [|c s IH]; intros [|n] m d p H Hb Hm Hd; cbn [strncat_loop].
  1,3: rewrite decide_False by (cbn; lia); cbn; do 2 f_equal; lia.
  all: str_step H; rewrite store_ok
    by (apply (head_byte _ Hb) || done || (apply Hm; lia)); cbn [mbind res_bind].
  - rewrite decide_True by (cbn; lia). cbn. do 2 f_equal. lia.
  - apply str_at_cons in H as (_ & Hc & H). apply Forall_cons in Hb as [Hc0 Hb]. nz.
    unfold fwd_safe in Hd. cbn [length] in *.
    rewrite IH; [|destruct H as [H Hnz]; split|done| |].
    + repeat case_decide; try lia; cbn [app take put]; do 2 f_equal; lia.
    + apply (bytes_at_put_disjoint d [c] m); [cbn; rewrite length_app; cbn; lia|done].
    + done.
    + apply mapped_insert. eapply mapped_mono; [exact Hm|lia|lia].
    + unfold fwd_safe. lia.
Qed.

Lemma strncat_spec m p a q b n : str_at m p a -> str_at m q b -> bytes_ok b -> 0 < n ->
  mapped m (p + Z.of_nat (length a)) (n + 1) ->
  fwd_safe (p + Z.of_nat (length a)) q (Z.of_nat (S (length b))) ->
  strncat m p q n = Ok (put (p + Z.of_nat (length a)) (take (Z.to_nat n) b ++ [0]) m, p).
Proof.
  intros Ha Hb Hbb Hn Hm Hd. unfold strncat. rewrite (proj2 (Z.eqb_neq n 0)) by lia.
  pose proof (str_at_fuel _ _ _ Ha). rewrite (strlen_loop_spec m a) by (done || lia).
  cbn [mbind res_bind]. set (d := p + Z.of_nat (length a)) in *.
  rewrite (strncat_loop_spec b) by (done || (eapply mapped_mono; [exact Hm|lia|lia])).
  case_decide as Hl; cbn [mbind res_bind].
  - rewrite store_ok; [|apply (mapped_put m d _ d (n + 1) Hm); lia|done].
    cbn [mbind res_bind]. rewrite <-put_again, take_ge by lia. done.
  - rewrite store_ok; [|apply (mapped_put m d _ d (n + 1) Hm); lia|done].
    cbn [mbind res_bind]. rewrite put_end; [done|]. rewrite length_take. lia.
Qed.

Lemma strlcat_loop_spec s : forall k m d p n, str_at m p s -> bytes_ok s -> 1 <= n ->
  mapped m d n -> apart d n p (Z.of_nat (S (length s))) -> (length s < k)%nat ->
  strlcat_loop k m d p n
  = Ok (put d (take (Z.to_nat (n - 1)) s) m,
        d + Z.of_nat (length (take (Z.to_nat (n - 1)) s)), p + Z.of_nat (length s)).
Proof.
  induction s as [|c s IH]; intros [|k] m d p n H Hb Hn Hm Hd Hk; try (cbn in Hk; lia);
    cbn [strlcat_loop]; str_step H.
  - change (0 =? 0) with true. cbv iota. rewrite take_nil. cbn. do 2 f_equal; [f_equal|]; lia.
  - apply str_at_cons in H as (_ & Hc & H). apply Forall_cons in Hb as [Hc0 Hb]. nz.
    unfold apart in Hd. cbn [length] in *. destruct (n =? 1) eqn:E; cbn [negb]; zbool.
    + subst n. rewrite IH by (done || lia || (unfold apart; lia)). cbn. do 2 f_equal. lia.
    + rewrite store_ok by (done || (apply Hm; lia)). cbn [mbind res_bind].
      replace (Z.to_nat (n - 1)) with (S (Z.to_nat (n - 1 - 1))) by lia.
      rewrite IH; [|change (<[d:=c]> m) with (put d [c] m); apply str_at_put|done|lia| | |lia].
      * cbn [take put length]. do 2 f_equal; [f_equal|]; lia.
      * unfold apart. cbn. lia.
      * done.
      * apply mapped_insert. eapply mapped_mono; [exact Hm|lia|lia].
      * unfold apart. lia.
Qed.

Lemma strlcat_spec m p a q b siz : str_at m p a -> str_at m q b -> bytes_ok b ->
  mapped m p siz -> 0 <= siz -> apart p siz q (Z.of_nat (S (length b))) ->
  strlcat m p q siz
  = Ok (if decide (Z.of_nat (length a) < siz)
        then (put (p + Z.of_nat (length a))
                (take (Z.to_nat (siz - Z.of_nat (length a) - 1)) b ++ [0]) m,
              Z.of_nat (length a) + Z.of_nat (length b))
        else (m, siz + Z.of_nat (length b))).
Proof.
  intros Ha Hb Hbb Hm Hsz Hd. unfold strlcat. rewrite (strnlen_loop_spec m a) by done.
  cbn [mbind res_bind]. unfold apart in Hd. case_decide as Hl.
  - replace (Z.to_nat siz `min` length a)%nat with (length a) by lia.
    destruct (_ =? 0) eqn:E; zbool; [lia|]. pose proof (str_at_fuel _ _ _ Hb).
    set (d := p + Z.of_nat (length a)) in *.
    replace (siz - (d - p)) with (siz - Z.of_nat (length a)) by lia.
    rewrite (strlcat_loop_spec b);
      [|done|done|lia|eapply mapped_mono; [exact Hm|lia|lia]|unfold apart; lia|lia].
    cbn [mbind res_bind].
    rewrite store_ok; [|apply (mapped_put m d _ p siz Hm); rewrite length_take; lia|done].
    cbn [mbind res_bind]. rewrite put_end by done. do 2 f_equal. lia.
  - replace (Z.to_nat siz `min` length a)%nat with (Z.to_nat siz) by lia.
    destruct (_ =? 0) eqn:E; zbool; [|lia]. rewrite (strlen_spec m q b) by done.
    cbn [mbind res_bind]. do 2 f_equal. lia.
Qed.

(** ** Contracts *)

(** The comparisons order strings by the first unsigned byte that differs,
    the terminating NUL included, among the first [n] bytes or up to case where
    the routine says so; [strlen] and [strnlen] measure them. *)
Lemma compare_strings m p q s t n (Hs : str_at m p s) (Ht : str_at m q t)
  (Hsb : bytes_ok s) (Htb : bytes_ok t) :
  let s0 := s ++ [0] in
  let t0 := t ++ [0] in
  strlen m p = Ok (Z.of_nat (length s))
  /\ strnlen m p (Z.of_nat n) = Ok (Z.of_nat (n `min` length s))
  /\ strcmp m p q = Ok (lex_diff s0 t0) /\ strcoll m p q = Ok (lex_diff s0 t0)
  /\ strncmp m p q (Z.of_nat n) = Ok (lex_diff (take n s0) (take n t0))
  /\ strcasecmp m p q = Ok (lex_diff (lower <$> s0) (lower <$> t0))
  /\ strncasecmp m p q (Z.of_nat n) = Ok (lex_diff (lower <$> take n s0) (lower <$> take n t0)).
Proof.
  intros s0 t0. pose proof (str_at_fuel _ _ _ Hs).
  assert (strcmp m p q = Ok (lex_diff s0 t0)) as E
    by (unfold strcmp; apply strcmp_loop_spec; done || lia).
  split_and!; [by apply strlen_spec| |exact E|exact E| | |].
  - unfold strnlen. rewrite Nat2Z.id, (strnlen_loop_spec m s) by done. cbn. f_equal. lia.
  - unfold strncmp. rewrite Nat2Z.id. by apply strncmp_loop_spec.
  - apply strcasecmp_loop_spec; done || lia.
  - unfold strncasecmp. rewrite Nat2Z.id. by apply strncasecmp_loop_spec.
Qed.

(** "Ab" at 200 and "aC" at 210, with room after them. *)
Definition two_strings : mem :=
  put 200 [65; 98; 0; 7; 7; 7; 7; 7] (put 210 [97; 67; 0; 7; 7; 7; 7; 7] ∅).

Lemma two_str_at p s : nonzero s ->
  Forall (fun '(i, b) => two_strings !! (p + Z.of_nat i) = Some b)
    (zip (seq 0 (length (s ++ [0]))) (s ++ [0])) ->
  str_at two_strings p s.
Proof.
  intros Hnz H. split; [|done]. rewrite Forall_lookup in H. intros i b Hi.
  apply (H i (i, b)). apply lookup_zip_Some. split; [|done].
  apply lookup_seq. split; [done|]. by apply lookup_lt_Some in Hi.
Qed.

Lemma two_mapped p n : 200 <= p -> p + n <= 208 -> mapped two_strings p n.
Proof.
  intros H1 H2. eapply mapped_mono; [|exact H1|].
  - apply (bytes_at_mapped _ 200 [65; 98; 0; 7; 7; 7; 7; 7]), bytes_at_put.
  - cbn. lia.
Qed.

(** The bounded copies.  [strlcpy] and [strlcat] never write more than
    [siz] bytes at the destination, always terminate the result when there is
    room and return the length they tried to create; [strncpy] and [stpncpy] fill
    exactly [n] bytes, and the end that [stpncpy] returns is the first padding
    byte or one past the buffer. *)
Lemma copy_bounded m dst src a s siz (Ha : str_at m dst a) (Hs : str_at m src s)
  (Hsb : bytes_ok s) (Hsiz : 0 <= siz) (Hm : mapped m dst siz)
  (Hd : apart dst siz src (Z.of_nat (S (length s)))) :
  let n := Z.to_nat siz in
  strlcpy m dst src siz
    = Ok (if decide (siz = 0) then m else put dst (take (n - 1) s ++ [0]) m, Z.of_nat (length s))
  /\ strlcat m dst src siz
    = Ok (if decide (Z.of_nat (length a) < siz)
          then (put (dst + Z.of_nat (length a)) (take (n - length a - 1) s ++ [0]) m,
                Z.of_nat (length a) + Z.of_nat (length s))
          else (m, siz + Z.of_nat (length s)))
  /\ (fwd_safe dst src (Z.of_nat (S (length s))) ->
      strncpy m dst src siz = Ok (put dst (fit n s) m, dst)
      /\ stpncpy m dst src siz
         = Ok (put dst (fit n s) m, dst + Z.of_nat (n `min` length s))).
Proof.
  intros n. split_and!.
  - rewrite (strlcpy_spec m dst src siz s) by done. unfold n.
    by replace (Z.to_nat (siz - 1)) with (Z.to_nat siz - 1)%nat by lia.
  - rewrite (strlcat_spec m dst a src s) by done. unfold n.
    by replace (Z.to_nat (siz - Z.of_nat (length a) - 1))
      with (Z.to_nat siz - length a - 1)%nat by lia.
  - intros Hf. unfold strncpy, stpncpy. fold n.
    assert (mapped m dst (Z.of_nat n)) as Hmn by (unfold n; by rewrite Z2Nat.id).
    rewrite (strncpy_loop_spec s) by done. cbn [mbind res_bind]. split; [done|].
    f_equal. f_equal. case_decide; unfold n in *; lia.
Qed.

(** C19: strings.  The comparisons order two strings by the first unsigned byte
    that differs, the terminating NUL included, among the first [n] bytes or up
    to case where the routine says so; [strlen] and [strnlen] measure them.  The
    bounded copies [strlcpy] and [strlcat] never write more than [siz] bytes at
    the destination, always terminate the result when there is room and return
    the length they tried to create; [strncpy] and [stpncpy] fill exactly [siz]
    bytes, and the end that [stpncpy] returns is the first padding byte or one
    past the buffer. *)
Theorem strings_correct m dst src a s siz k (Ha : str_at m dst a) (Hs : str_at m src s)
  (Hab : bytes_ok a) (Hsb : bytes_ok s) (Hsiz : 0 <= siz) (Hm : mapped m dst siz)
  (Hd : apart dst siz src (Z.of_nat (S (length s)))) :
  let n := Z.to_nat siz in
  let a0 := a ++ [0] in
  let s0 := s ++ [0] in
  (strlen m dst = Ok (Z.of_nat (length a))
   /\ strnlen m dst (Z.of_nat k) = Ok (Z.of_nat (k `min` length a))
   /\ strcmp m dst src = Ok (lex_diff a0 s0) /\ strcoll m dst src = Ok (lex_diff a0 s0)
   /\ strncmp m dst src (Z.of_nat k) = Ok (lex_diff (take k a0) (take k s0))
   /\ strcasecmp m dst src = Ok (lex_diff (lower <$> a0) (lower <$> s0))
   /\ strncasecmp m dst src (Z.of_nat k)
      = Ok (lex_diff (lower <$> take k a0) (lower <$> take k s0)))
  /\ strlcpy m dst src siz
    = Ok (if decide (siz = 0) then m else put dst (take (n - 1) s ++ [0]) m, Z.of_nat (length s))
  /\ strlcat m dst src siz
    = Ok (if decide (Z.of_nat (length a) < siz)
          then (put (dst + Z.of_nat (length a)) (take (n - length a - 1) s ++ [0]) m,
                Z.of_nat (length a) + Z.of_nat (length s))
          else (m, siz + Z.of_nat (length s)))
  /\ (fwd_safe dst src (Z.of_nat (S (length s))) ->
      strncpy m dst src siz = Ok (put dst (fit n s) m, dst)
      /\ stpncpy m dst src siz
         = Ok (put dst (fit n s) m, dst + Z.of_nat (n `min` length s))).
Proof. intros n a0 s0. split; [by apply compare_strings|by apply copy_bounded]. Qed.

Theorem strings_correct_witness :
  strcmp two_strings 200 210 = Ok (65 - 97)
  /\ strcasecmp two_strings 200 210 = Ok (98 - 99)
  /\ strncasecmp two_strings 200 210 1 = Ok 0
  /\ strlcpy two_strings 200 210 2 = Ok (put 200 [97; 0] two_strings, 2)
  /\ strlcat two_strings 200 210 2 = Ok (two_strings, 4).
Proof.
  destruct (strings_correct two_strings 200 210 [65; 98] [97; 67] 2 1)
    as ((_ & _ & E1 & _ & _ & E2 & E3) & E4 & E5 & _).
  1-2: apply two_str_at; repeat constructor; done.
  1-2: repeat (constructor; [split; [lia|reflexivity]|]); constructor.
  - lia.
  - apply two_mapped; lia.
  - left. cbn. lia.
  - split; [exact E1|]. split; [exact E2|]. split; [exact E3|]. split; [exact E4|exact E5].
Defined.

(** The unbounded copies write exactly the source string with its NUL,
    [strcat] and [strncat] at the old end of the destination, where [strncat]
    takes at most [n] bytes and always terminates. *)
Theorem strcpy_correct m dst src a s n (Ha : str_at m dst a) (Hs : str_at m src s)
  (Hsb : bytes_ok s) (Hn : 0 < n)
  (Hm : mapped m dst (Z.of_nat (length a) + Z.max (n + 1) (Z.of_nat (S (length s)))))
  (Hd : fwd_safe dst src (Z.of_nat (S (length s))))
  (Hd' : fwd_safe (dst + Z.of_nat (length a)) src (Z.of_nat (S (length s)))) :
  strcpy m dst src = Ok (put dst (s ++ [0]) m, dst)
  /\ stpcpy m dst src = Ok (put dst (s ++ [0]) m, dst + Z.of_nat (length s))
  /\ strcat m dst src = Ok (put (dst + Z.of_nat (length a)) (s ++ [0]) m, dst)
  /\ strncat m dst src n
     = Ok (put (dst + Z.of_nat (length a)) (take (Z.to_nat n) s ++ [0]) m, dst).
Proof.
  pose proof (str_at_fuel _ _ _ Hs). unfold strcpy, stpcpy.
  rewrite (copy_loop_spec s) by (done || lia || (eapply mapped_mono; [exact Hm|lia|lia])).
  split_and!; [done|done| |].
  - apply (strcat_spec m dst a src s); try done. eapply mapped_mono; [exact Hm|lia|lia].
  - apply (strncat_spec m dst a src s); try done. eapply mapped_mono; [exact Hm|lia|lia].
Qed.

Theorem strcpy_correct_witness :
  strcpy two_strings 200 210 = Ok (put 200 [97; 67; 0] two_strings, 200)
  /\ stpcpy two_strings 200 210 = Ok (put 200 [97; 67; 0] two_strings, 202)
  /\ strcat two_strings 200 210 = Ok (put 202 [97; 67; 0] two_strings, 200)
  /\ strncat two_strings 200 210 1 = Ok (put 202 [97; 0] two_strings, 200).
Proof.
  apply (strcpy_correct two_strings 200 210 [65; 98] [97; 67] 1).
  1-2: apply two_str_at; repeat constructor; done.
  - repeat (constructor; [split; [lia|reflexivity]|]). constructor.
  - lia.
  - apply two_mapped; cbn; lia.
  - left. lia.
  - left. cbn. lia.
Defined.
