(* ===== verification/CSearch.v ===== *)
(** * Searching and splitting strings (src/CLibrary/string)

    The routines that look for characters of a set or for a substring, and the
    two tokenisers.  As in CString.v, a loop that runs along a string has
    [fuel m] rounds.  A tokeniser's saved pointer ([*stringp], [*last], the
    static [last] of [strtok]) is an argument and a result. *)

From S2P Require Import Prelude Words CMem CBytes Ctype CString.
From Stdlib Require Import ZArith Lia.
From stdpp Require Import prelude gmap list.

Open Scope Z_scope.

(** ** Character sets (strspn.c, strcspn.c, strpbrk.c) *)

(** [for (spanp = s2; (sc = *spanp++) != 0;) if (sc == c) ...] *)
Fixpoint span_loop (k : nat) (m : mem) (spanp c : Z) : res bool :=
  match k with
  | O => NoFuel
  | S k' =>
      sc ← load m spanp;
      if negb (sc =? 0) then if sc =? c then Ok true else span_loop k' m (spanp + 1) c
      else Ok false
  end.

(** [do { if ((sc = *spanp++) == c) ... } while (sc != 0);] *)
Fixpoint stop_loop (k : nat) (m : mem) (spanp c : Z) : res bool :=
  match k with
  | O => NoFuel
  | S k' =>
      sc ← load m spanp;
      if sc =? c then Ok true
      else if negb (sc =? 0) then stop_loop k' m (spanp + 1) c else Ok false
  end.

(** The address of the first character that is not in [s2]. *)
Fixpoint strspn_loop (k : nat) (m : mem) (p s2 : Z) : res Z :=
  match k with
  | O => NoFuel
  | S k' =>
      c ← load m p;
      found ← span_loop (fuel m) m s2 c;
      if found : bool then strspn_loop k' m (p + 1) s2 else Ok p
  end.
Definition strspn (m : mem) (s1 s2 : Z) : res Z :=
  p ← strspn_loop (fuel m) m s1 s2; Ok (p - s1).

Fixpoint strcspn_loop (k : nat) (m : mem) (p s2 : Z) : res Z :=
  match k with
  | O => NoFuel
  | S k' =>
      c ← load m p;
      found ← stop_loop (fuel m) m s2 c;
      if found : bool then Ok p else strcspn_loop k' m (p + 1) s2
  end.
Definition strcspn (m : mem) (s1 s2 : Z) : res Z :=
  p ← strcspn_loop (fuel m) m s1 s2; Ok (p - s1).

Fixpoint strpbrk_loop (k : nat) (m : mem) (s1 s2 : Z) : res Z :=
  match k with
  | O => NoFuel
  | S k' =>
      c ← load m s1;
      if negb (c =? 0) then
        found ← span_loop (fuel m) m s2 c;
        if found : bool then Ok s1 else strpbrk_loop k' m (s1 + 1) s2
      else Ok NULL
  end.
Definition strpbrk (m : mem) (s1 s2 : Z) : res Z := strpbrk_loop (fuel m) m s1 s2.

(** ** Tokenisers (strsep.c, strtok.c) *)

(** The scan for the end of the token: the memory with the delimiter
    overwritten, and where to go on. *)
Fixpoint strsep_loop (k : nat) (m : mem) (s delim : Z) : res (mem * Z) :=
  match k with
  | O => NoFuel
  | S k' =>
      c ← load m s;
      found ← stop_loop (fuel m) m delim c;
      if found : bool then
        if c =? 0 then Ok (m, NULL) else m ← store m s 0; Ok (m, s + 1)
      else strsep_loop k' m (s + 1) delim
  end.

(** The memory, the new [*stringp] and the token. *)
Definition strsep (m : mem) (stringp delim : Z) : res (mem * Z * Z) :=
  if stringp =? NULL then Ok (m, NULL, NULL)
  else '(m, s) ← strsep_loop (fuel m) m stringp delim; Ok (m, s, stringp).

(** The memory, the new [*last] and the token. *)
Definition strtok_r (m : mem) (s delim last : Z) : res (mem * Z * Z) :=
  let s := if s =? NULL then last else s in
  if s =? NULL then Ok (m, last, NULL)
  else
    s ← strspn_loop (fuel m) m s delim;
    c ← load m s;
    if c =? 0 then Ok (m, NULL, NULL)
    else '(m, last) ← strsep_loop (fuel m) m (s + 1) delim; Ok (m, last, s).

Definition strtok (m : mem) (s delim last : Z) : res (mem * Z * Z) := strtok_r m s delim last.

(** ** Substrings (strstr.c, strcasestr.c) *)

(** The two nested loops step through [s] together. *)
Fixpoint strstr_loop (k : nat) (m : mem) (s c find len : Z) : res Z :=
  match k with
  | O => NoFuel
  | S k' =>
      sc ← load m s;
      if sc =? 0 then Ok NULL
      else if negb (sc =? c) then strstr_loop k' m (s + 1) c find len
      else
        d ← strncmp m (s + 1) find len;
        if negb (d =? 0) then strstr_loop k' m (s + 1) c find len else Ok s
  end.
Definition strstr (m : mem) (s find : Z) : res Z :=
  c ← load m find;
  if negb (c =? 0) then
    len ← strlen m (find + 1);
    strstr_loop (fuel m) m s c (find + 1) len
  else Ok s.

Fixpoint strcasestr_loop (k : nat) (m : mem) (s c find len : Z) : res Z :=
  match k with
  | O => NoFuel
  | S k' =>
      sc ← load m s;
      if sc =? 0 then Ok NULL
      else
        t ← tolower sc;
        if negb (u8 t =? c) then strcasestr_loop k' m (s + 1) c find len
        else
          d ← strncasecmp m (s + 1) find len;
          if negb (d =? 0) then strcasestr_loop k' m (s + 1) c find len else Ok s
  end.
Definition strcasestr (m : mem) (s find : Z) : res Z :=
  c ← load m find;
  if negb (c =? 0) then
    t ← tolower c;
    len ← strlen m (find + 1);
    strcasestr_loop (fuel m) m s (u8 t) (find + 1) len
  else Ok s.

(** [assert(0)] (strerror.c) *)
Definition strerror (num : Z) : res Z := Panic.

(** ** Reference *)

(** The length of the longest prefix that satisfies [P]. *)
Fixpoint span (P : Z -> bool) (l : list Z) : nat :=
  match l with
  | [] => 0
  | b :: l' => if P b then S (span P l') else 0
  end.

Definition in_set (d : list Z) (c : Z) : bool := bool_decide (c ∈ d).

(** The pieces between delimiters, empty ones included. *)
Fixpoint fields (d s : list Z) : list (list Z) :=
  match s with
  | [] => [[]]
  | c :: s' =>
      if in_set d c then [] :: fields d s'
      else match fields d s' with
           | f :: fs => (c :: f) :: fs
           | [] => [[c]]
           end
  end.

Definition tokens (d s : list Z) : list (list Z) := filter (fun f => f <> []) (fields d s).

(** [f] occurs in [s] at [i], up to the folding [g] of characters. *)
Definition occurs_at (g : Z -> Z) (f s : list Z) (i : nat) : Prop :=
  g <$> f `prefix_of` g <$> drop i s.

Definition first_occurrence (g : Z -> Z) (f s : list Z) (p r : Z) : Prop :=
  (exists i, r = p + Z.of_nat i /\ occurs_at g f s i /\ (i <= length s)%nat
             /\ forall j, (j < i)%nat -> ~ occurs_at g f s j)
  \/ r = NULL /\ forall j, ~ occurs_at g f s j.

(** ** Scanning a set *)

Lemma span_loop_spec m c d : forall k q, str_at m q d -> (length d < k)%nat ->
  span_loop k m q c = Ok (in_set d c).
Proof.
  unfold in_set. induction d as [|b d IH]; intros [|k] q H Hk; try (cbn in Hk; lia);
    cbn [span_loop]; str_step H.
  - rewrite Z.eqb_refl. done.
  - apply str_at_cons in H as (_ & Hb & H). nz. cbn [negb].
    destruct (b =? c) eqn:E; zbool.
    + subst b. rewrite bool_decide_true; [done|left].
    + rewrite IH by (done || (cbn in Hk; lia)). f_equal. apply bool_decide_ext.
      rewrite elem_of_cons. naive_solver.
Qed.

Lemma stop_loop_spec m c d : forall k q, str_at m q d -> (length d < k)%nat ->
  stop_loop k m q c = Ok (in_set (d ++ [0]) c).
Proof.
  unfold in_set. induction d as [|b d IH]; intros [|k] q H Hk; try (cbn in Hk; lia);
    cbn [stop_loop app]; str_step H.
  - destruct (0 =? c) eqn:E; zbool; cbn.
    + subst c. done.
    + f_equal. symmetry. apply bool_decide_eq_false. rewrite list_elem_of_singleton. auto.
  - apply str_at_cons in H as (_ & Hb & H). nz. cbn [negb].
    destruct (b =? c) eqn:E; zbool.
    + subst b. rewrite bool_decide_true; [done|left].
    + rewrite IH by (done || (cbn in Hk; lia)). f_equal. apply bool_decide_ext.
      rewrite (elem_of_cons (d ++ [0])). naive_solver.
Qed.

Lemma span_fuel m c q d : str_at m q d -> span_loop (fuel m) m q c = Ok (in_set d c).
Proof. intros H. apply span_loop_spec; [done|]. apply str_at_fuel in H. lia. Qed.

Lemma stop_fuel m c q d : str_at m q d -> stop_loop (fuel m) m q c = Ok (in_set (d ++ [0]) c).
Proof. intros H. apply stop_loop_spec; [done|]. apply str_at_fuel in H. lia. Qed.

Lemma in_set_zero d : nonzero d -> in_set d 0 = false.
Proof.
  intros H. apply bool_decide_eq_false. intros Hin. unfold nonzero in H.
  rewrite Forall_forall in H. by apply H in Hin.
Qed.

Lemma in_set_stop d c : c <> 0 -> in_set (d ++ [0]) c = in_set d c.
Proof.
  intros H. apply bool_decide_ext. rewrite elem_of_app, list_elem_of_singleton. naive_solver.
Qed.

Lemma in_set_stop_zero d : in_set (d ++ [0]) 0 = true.
Proof. apply bool_decide_eq_true. rewrite elem_of_app, list_elem_of_singleton. auto. Qed.

Lemma strspn_loop_spec m q d s : forall k p, str_at m p s -> str_at m q d ->
  (length s < k)%nat ->
  strspn_loop k m p q = Ok (p + Z.of_nat (span (in_set d) s)).
Proof.
  induction s as [|c s IH]; intros [|k] p H Hd Hk; try (cbn in Hk; lia);
    cbn [strspn_loop span]; str_step H; rewrite (span_fuel _ _ _ _ Hd); cbn [mbind res_bind].
  - rewrite in_set_zero by apply Hd. f_equal. lia.
  - apply str_at_cons in H as (_ & Hc & H). destruct (in_set d c).
    + rewrite IH by (done || (cbn in Hk; lia)). f_equal. lia.
    + f_equal. lia.
Qed.

Lemma strcspn_loop_spec m q d s : forall k p, str_at m p s -> str_at m q d ->
  (length s < k)%nat ->
  strcspn_loop k m p q = Ok (p + Z.of_nat (span (fun c => negb (in_set d c)) s)).
Proof.
  induction s as [|c s IH]; intros [|k] p H Hd Hk; try (cbn in Hk; lia);
    cbn [strcspn_loop span]; str_step H; rewrite (stop_fuel _ _ _ _ Hd); cbn [mbind res_bind].
  - rewrite in_set_stop_zero. f_equal. lia.
  - apply str_at_cons in H as (_ & Hc & H). rewrite in_set_stop by done.
    destruct (in_set d c); cbn [negb].
    + f_equal. lia.
    + rewrite IH by (done || (cbn in Hk; lia)). f_equal. lia.
Qed.

Lemma strpbrk_loop_spec m q d s : forall k p, str_at m p s -> str_at m q d ->
  (length s < k)%nat ->
  strpbrk_loop k m p q = Ok (first_at p (list_find (fun c => c ∈ d) s)).
Proof.
  induction s as [|c s IH]; intros [|k] p H Hd Hk; try (cbn in Hk; lia);
    cbn [strpbrk_loop list_find]; str_step H; [done|].
  apply str_at_cons in H as (_ & Hc & H). nz. cbn [negb].
  rewrite (span_fuel _ _ _ _ Hd); cbn [mbind res_bind]. unfold in_set. case_bool_decide as E.
  - rewrite decide_True by done. cbn. f_equal. lia.
  - rewrite decide_False, IH by (done || (cbn in Hk; lia)). by rewrite first_at_shift.
Qed.

(** ** Tokens *)

(** The first piece, and what follows its delimiter. *)
Fixpoint cut (d s : list Z) : list Z * option (list Z) :=
  match s with
  | [] => ([], None)
  | c :: s' => if in_set d c then ([], Some s') else let '(f, r) := cut d s' in (c :: f, r)
  end.

Lemma fields_cut d s :
  fields d s = match cut d s with
               | (f, None) => [f]
               | (f, Some r) => f :: fields d r
               end.
Proof.
  induction s as [|c s IH]; cbn [fields cut]; [done|]. destruct (in_set d c); [done|].
  rewrite IH. by destruct (cut d s) as [f [r|]].
Qed.

(** What [cut] returns are pieces of the string. *)
Lemma cut_some d s f r : cut d s = (f, Some r) ->
  exists c, s = f ++ c :: r /\ in_set d c = true.
Proof.
  revert f; induction s as [|c s IH]; intros f; cbn [cut]; [done|].
  destruct (in_set d c) eqn:E; [intros [= <- <-]; by exists c|].
  destruct (cut d s) as [f' r']. intros [= <- ->].
  destruct (IH f' eq_refl) as (x & -> & Hx). by exists x.
Qed.

Lemma cut_none d s f : cut d s = (f, None) -> f = s.
Proof.
  revert f; induction s as [|c s IH]; intros f; cbn [cut]; [by intros [= <-]|].
  destruct (in_set d c) eqn:E; [done|]. destruct (cut d s) as [f' r']. intros [= <- ->].
  f_equal. by apply IH.
Qed.

Lemma strsep_loop_spec m q d s : forall k p, str_at m p s -> str_at m q d ->
  (length s < k)%nat ->
  strsep_loop k m p q
  = Ok (match cut d s with
        | (f, None) => (m, NULL)
        | (f, Some _) => (<[p + Z.of_nat (length f) := 0]> m, p + Z.of_nat (length f) + 1)
        end).
Proof.
  induction s as [|c s IH]; intros [|k] p H Hd Hk; try (cbn in Hk; lia);
    cbn [strsep_loop cut]; str_step H; rewrite (stop_fuel _ _ _ _ Hd); cbn [mbind res_bind].
  - rewrite in_set_stop_zero. done.
  - pose proof H as H1. apply str_at_cons in H1 as (Hl & Hc & H1). rewrite in_set_stop by done.
    destruct (in_set d c); cbn [negb length].
    + nz. rewrite store_ok by (done || by rewrite Hl). cbn [mbind res_bind].
      rewrite Z.add_0_r. done.
    + rewrite (IH k (p + 1)) by (done || (cbn in Hk; lia)). f_equal.
      destruct (cut d s) as [f [r|]]; [|done]. cbn [length].
      replace (p + 1 + Z.of_nat (length f)) with (p + Z.of_nat (S (length f))) by lia. done.
Qed.

(** Calling [strsep] and [strtok] until they return [NULL]. *)
Fixpoint strsep_all (k : nat) (m : mem) (stringp delim : Z) : res (mem * list Z) :=
  match k with
  | O => NoFuel
  | S k' =>
      '(m, stringp, tok) ← strsep m stringp delim;
      if tok =? NULL then Ok (m, [])
      else '(m, ts) ← strsep_all k' m stringp delim; Ok (m, tok :: ts)
  end.

Fixpoint strtok_all (k : nat) (m : mem) (s delim last : Z) : res (mem * list Z) :=
  match k with
  | O => NoFuel
  | S k' =>
      '(m, last, tok) ← strtok m s delim last;
      if tok =? NULL then Ok (m, [])
      else '(m, ts) ← strtok_all k' m NULL delim last; Ok (m, tok :: ts)
  end.

(** [m'] differs from [m] at most in [[p, p + n)]. *)
Definition same_but (m m' : mem) (p n : Z) : Prop :=
  forall a, ~ (p <= a < p + n) -> m' !! a = m !! a.

Lemma str_at_agree m m' p s :
  (forall a, p <= a <= p + Z.of_nat (length s) -> m' !! a = m !! a) ->
  str_at m p s -> str_at m' p s.
Proof.
  intros H [Hs Hn]. split; [|done]. intros i b Hi. rewrite H; [by apply Hs|].
  apply lookup_lt_Some in Hi. rewrite length_app in Hi. cbn in Hi. lia.
Qed.

(** The delimiters are not written to. *)
Definition apart (q n p k : Z) : Prop := q + n < p \/ p + k <= q.

Lemma str_at_apart m m' p n q d : same_but m m' p n ->
  apart q (Z.of_nat (length d)) p n -> str_at m q d -> str_at m' q d.
Proof. unfold apart. intros Hm Ha. apply str_at_agree. intros a Hq. apply Hm. lia. Qed.

Lemma same_but_insert m p n a b : p <= a < p + n -> same_but m (<[a := b]> m) p n.
Proof. intros Ha x Hx. apply lookup_insert_ne. lia. Qed.

Lemma same_but_trans m m' m'' p n k j : same_but m m' p n -> same_but m' m'' j k ->
  p <= j -> j + k <= p + n -> same_but m m'' p n.
Proof. intros H1 H2 ?? a Ha. rewrite H2 by lia. by apply H1. Qed.

(** Cutting a string at a delimiter leaves two strings. *)
Lemma cut_split m p d s f r e : str_at m p s -> cut d s = (f, Some r) ->
  e = p + Z.of_nat (length f) ->
  str_at (<[e := 0]> m) p f /\ str_at (<[e := 0]> m) (e + 1) r
  /\ length s = S (length f + length r).
Proof.
  intros [Hb Hn] Hc ->. destruct (cut_some _ _ _ _ Hc) as (c & -> & _).
  unfold nonzero in Hn. rewrite <-app_assoc, bytes_at_app in Hb. cbn [app] in Hb.
  rewrite bytes_at_cons in Hb. apply Forall_app in Hn as [Hf Hr].
  apply Forall_cons in Hr as [_ Hr]. destruct Hb as (Hbf & _ & Hbr). split_and!.
  - split; [|done]. apply bytes_at_app. split.
    + apply (bytes_at_put_disjoint _ [0]); [lia|done].
    + apply bytes_at_single, lookup_insert_eq.
  - split; [|done]. apply (bytes_at_put_disjoint _ [0]); [cbn; lia|done].
  - rewrite length_app. cbn. lia.
Qed.

Lemma not_null p : 0 < p -> (p =? NULL) = false.
Proof. intros. apply Z.eqb_neq. unfold NULL. lia. Qed.

Lemma strsep_all_spec q d n : forall s m p k, (length s <= n)%nat -> (n < k)%nat -> 0 < p ->
  str_at m p s -> str_at m q d -> apart q (Z.of_nat (length d)) p (Z.of_nat (length s)) ->
  exists m' ts, strsep_all (S k) m p q = Ok (m', ts)
    /\ Forall2 (str_at m') ts (fields d s) /\ same_but m m' p (Z.of_nat (length s)).
Proof.
  induction n as [n IH] using lt_wf_ind. intros s m p k Hl Hk Hp Hs Hd Ha.
  cbn [strsep_all]. unfold strsep. rewrite not_null by done.
  rewrite (strsep_loop_spec m q d s) by (done || (apply str_at_fuel in Hs; lia)).
  rewrite fields_cut. cbn [mbind res_bind]. destruct (cut d s) as [f [r|]] eqn:Ec.
  - destruct (cut_split m p d s f r _ Hs Ec eq_refl) as (Hf & Hr & Hlen).
    set (e := p + Z.of_nat (length f)) in *. cbn [mbind res_bind].
    rewrite not_null by done.
    assert (same_but m (<[e := 0]> m) p (Z.of_nat (length s))) as Hm
      by (apply same_but_insert; lia).
    destruct k as [|k]; [lia|].
    destruct (IH (length r) ltac:(lia) r (<[e := 0]> m) (e + 1) k) as (m' & ts & E & HF & Hm');
      [lia|lia|lia|done|by apply (str_at_apart m _ p (Z.of_nat (length s)))|unfold apart in *; lia|].
    rewrite E. cbn [mbind res_bind]. exists m', (p :: ts). split_and!; [done| |].
    + constructor; [|done]. apply (str_at_agree (<[e := 0]> m)); [|done].
      intros a ?. apply Hm'. lia.
    + eapply same_but_trans; [exact Hm|exact Hm'|lia|lia].
  - apply cut_none in Ec as ->. cbn [mbind res_bind].
    rewrite not_null by done. destruct k as [|k]; [lia|].
    exists m, [p]. split_and!; [done| |done]. by constructor.
Qed.

Lemma tokens_skip d s : tokens d s = tokens d (drop (span (in_set d) s) s).
Proof.
  unfold tokens. induction s as [|c s IH]; cbn [span]; [done|].
  destruct (in_set d c) eqn:E; [|done]. cbn [drop]. rewrite <-IH. cbn [fields].
  rewrite E, filter_cons_False; [done|by intros []].
Qed.

(** The string from its first character that fails [P]. *)
Lemma str_at_skip m p P s : str_at m p s ->
  str_at m (p + Z.of_nat (span P s)) (drop (span P s) s)
  /\ (length (drop (span P s) s) + span P s = length s)%nat
  /\ match drop (span P s) s with [] => True | c :: _ => P c = false end.
Proof.
  revert p; induction s as [|c s IH]; intros p H; cbn [span].
  - cbn. rewrite Z.add_0_r. split_and!; [done|lia|done].
  - destruct (P c) eqn:E.
    + apply str_at_cons in H as (_ & _ & H). destruct (IH _ H) as (H1 & H2 & H3). cbn [drop].
      replace (p + Z.of_nat (S (span P s))) with (p + 1 + Z.of_nat (span P s)) by lia.
      split_and!; [done|cbn [length]; lia|done].
    + cbn [drop]. rewrite Z.add_0_r. split_and!; [done|lia|done].
Qed.

(** The first token, the rest and where they start. *)
Lemma strtok_r_spec m p q d s : 0 < p -> str_at m p s -> str_at m q d ->
  let j := span (in_set d) s in
  match drop j s with
  | [] => tokens d s = [] /\ strtok_r m NULL q p = Ok (m, NULL, NULL)
  | c :: t =>
      let '(f, r) := cut d t in
      let e := p + Z.of_nat (j + S (length f)) in
      tokens d s = (c :: f) :: match r with Some r => tokens d r | None => [] end
      /\ strtok_r m NULL q p
         = Ok (match r with
               | Some _ => (<[e := 0]> m, e + 1, p + Z.of_nat j)
               | None => (m, NULL, p + Z.of_nat j)
               end)
  end.
Proof.
  intros Hp Hs Hd j. destruct (str_at_skip m p (in_set d) s Hs) as (Hj & Hlen & Hhd).
  fold j in Hj, Hlen, Hhd. rewrite tokens_skip. fold j. unfold strtok_r.
  change (NULL =? NULL) with true. cbn match. rewrite not_null by done.
  rewrite (strspn_loop_spec m q d s) by (done || (apply str_at_fuel in Hs; lia)). fold j.
  cbn [mbind res_bind]. rewrite (str_at_load _ _ _ Hj). cbn [mbind res_bind].
  destruct (drop j s) as [|c t]; cbn [head default from_option id].
  - split; [|done]. done.
  - pose proof Hj as Ht. apply str_at_cons in Ht as (_ & Hc & Ht).
    rewrite (strsep_loop_spec m q d t) by (done || (apply str_at_fuel in Ht; lia)).
    unfold tokens at 1. cbn [fields]. rewrite Hhd, fields_cut. cbn [mbind res_bind].
    rewrite (proj2 (Z.eqb_neq c 0) Hc).
    destruct (cut d t) as [f [r|]]; cbn [mbind res_bind];
      (rewrite filter_cons_True by done); (split; [done|]); [|done].
    replace (p + Z.of_nat j + 1 + Z.of_nat (length f))
      with (p + Z.of_nat (j + S (length f))) by lia. done.
Qed.

Lemma strtok_all_spec q d n : forall s m p k, (length s <= n)%nat -> (n < k)%nat -> 0 < p ->
  str_at m p s -> str_at m q d -> apart q (Z.of_nat (length d)) p (Z.of_nat (length s)) ->
  exists m' ts, strtok_all (S k) m NULL q p = Ok (m', ts)
    /\ Forall2 (str_at m') ts (tokens d s) /\ same_but m m' p (Z.of_nat (length s)).
Proof.
  induction n as [n IH] using lt_wf_ind. intros s m p k Hl Hk Hp Hs Hd Ha.
  pose proof (strtok_r_spec m p q d s Hp Hs Hd) as H. cbn zeta in H.
  destruct (str_at_skip m p (in_set d) s Hs) as (Hj & Hlen & _).
  set (j := span (in_set d) s) in *. cbn [strtok_all]. unfold strtok.
  destruct (drop j s) as [|c t] eqn:Edrop.
  { destruct H as [-> ->]. exists m, []. split_and!; done. }
  pose proof Hj as Ht. apply str_at_cons in Ht as (_ & _ & Ht). cbn [length] in Hlen.
  destruct (cut d t) as [f [r|]] eqn:Ec; destruct H as [-> ->]; cbn [mbind res_bind];
    rewrite not_null by lia; (destruct k as [|k]; [lia|]).
  - destruct (cut_split m _ d t f r _ Ht Ec eq_refl) as (Hf & Hr & Hlr).
    replace (p + Z.of_nat j + 1 + Z.of_nat (length f))
      with (p + Z.of_nat (j + S (length f))) in * by lia.
    set (e := p + Z.of_nat (j + S (length f))) in *.
    assert (same_but m (<[e := 0]> m) p (Z.of_nat (length s))) as Hm
      by (apply same_but_insert; lia).
    destruct (IH (length r) ltac:(lia) r (<[e := 0]> m) (e + 1) k) as (m' & ts & E & HF & Hm');
      [lia|lia|lia|done|by apply (str_at_apart m _ p (Z.of_nat (length s)))|unfold apart in *; lia|].
    rewrite E. cbn [mbind res_bind]. exists m', ((p + Z.of_nat j) :: ts). split_and!; [done| |].
    + constructor; [|done]. apply (str_at_agree (<[e := 0]> m)).
      * intros a Hx. apply Hm'. cbn [length] in Hx. lia.
      * apply str_at_cons. apply str_at_cons in Hj as (Hjc & Hc & _). split_and!; [|done|done].
        rewrite lookup_insert_ne by lia. done.
    + eapply same_but_trans; [exact Hm|exact Hm'|lia|lia].
  - apply cut_none in Ec as ->. exists m, [p + Z.of_nat j]. split_and!; [done| |done].
    by constructor.
Qed.

(** ** Substrings *)

(** A bounded comparison that finds no difference finds a prefix. *)
Lemma lex_diff_prefix g f : forall s, g 0 = 0 -> (forall c, c <> 0 -> g c <> 0) -> nonzero f ->
  lex_diff (g <$> take (length f) (s ++ [0])) (g <$> take (length f) (f ++ [0])) = 0
  <-> g <$> f `prefix_of` g <$> s.
Proof.
  induction f as [|b f IH]; intros s H0 Hg Hf.
  { cbn. split; [intros; apply prefix_nil|done]. }
  apply Forall_cons in Hf as [Hb Hf]. specialize (Hg b Hb) as Hgb.
  destruct s as [|a s]; cbn [length take app fmap list_fmap lex_diff].
  - rewrite H0. rewrite (proj2 (Z.eqb_neq 0 (g b))) by auto. split; [lia|].
    intros Hp. by apply prefix_nil_inv in Hp.
  - destruct (g a =? g b) eqn:E; zbool.
    + rewrite E, IH by done. split; [by apply prefix_cons|apply prefix_cons_inv_2].
    + split; [lia|]. intros Hp. apply prefix_cons_inv_1 in Hp. congruence.
Qed.

(** Both searches walk [s] with a test of the first character and one of the
    rest; [sub_test] is their conjunction. *)
Section search.
Context (g : Z -> Z) (b : Z) (f : list Z).

Definition sub_test (s : list Z) : Prop := g <$> (b :: f) `prefix_of` g <$> s.

Lemma first_occurrence_here s p : sub_test s -> first_occurrence g (b :: f) s p p.
Proof.
  intros H. left. exists 0%nat. split_and!; [lia|by unfold occurs_at; rewrite drop_0|lia|lia].
Qed.

Lemma first_occurrence_next c s p r : ~ sub_test (c :: s) ->
  first_occurrence g (b :: f) s (p + 1) r -> first_occurrence g (b :: f) (c :: s) p r.
Proof.
  intros Hn [(i & -> & Hi & Hl & Hj)|[-> Hj]].
  - left. exists (S i). split_and!; [lia|done|cbn; lia|]. intros [|j] ?; [done|]. apply Hj. lia.
  - right. split; [done|]. intros [|j]; [done|]. apply Hj.
Qed.

Lemma first_occurrence_nil p : first_occurrence g (b :: f) [] p NULL.
Proof.
  right. split; [done|]. intros j. unfold occurs_at. rewrite drop_nil. cbn. intros H.
  by apply prefix_nil_inv in H.
Qed.

Lemma sub_test_cons c s :
  sub_test (c :: s) <-> g b = g c /\ g <$> f `prefix_of` g <$> s.
Proof.
  unfold sub_test. cbn [fmap list_fmap]. split.
  - intros H. pose proof (prefix_cons_inv_1 _ _ _ _ H). apply prefix_cons_inv_2 in H. done.
  - intros [-> H]. by apply prefix_cons.
Qed.
End search.

Lemma strncmp_prefix m p q s f : str_at m p s -> str_at m q f ->
  exists d, strncmp m p q (Z.of_nat (length f)) = Ok d
    /\ (d = 0 <-> id <$> f `prefix_of` id <$> s).
Proof.
  intros Hs Hf. unfold strncmp. rewrite Nat2Z.id.
  rewrite (strncmp_loop_spec m s f) by done. eexists. split; [done|].
  assert (forall l : list Z, id <$> l = l) as Hid by apply list_fmap_id.
  pose proof (lex_diff_prefix id f s eq_refl) as H. rewrite !Hid in H. rewrite !Hid.
  apply H; [done|apply Hf].
Qed.

Lemma strncasecmp_prefix m p q s f : str_at m p s -> str_at m q f -> bytes_ok s -> bytes_ok f ->
  exists d, strncasecmp m p q (Z.of_nat (length f)) = Ok d
    /\ (d = 0 <-> lower <$> f `prefix_of` lower <$> s).
Proof.
  intros Hs Hf Hbs Hbf. unfold strncasecmp. rewrite Nat2Z.id.
  rewrite (strncasecmp_loop_spec m s f) by done. eexists. split; [done|].
  apply lex_diff_prefix; [done| |apply Hf]. intros c Hc. by apply not_eq_sym, lower_zero_ne.
Qed.

Lemma strstr_loop_spec m q b f : str_at m q f -> forall s k p,
  str_at m p s -> (length s < k)%nat ->
  exists r, strstr_loop k m p b q (Z.of_nat (length f)) = Ok r
    /\ first_occurrence id (b :: f) s p r.
Proof.
  intros Hf. induction s as [|c s IH]; intros [|k] p Hs Hk; try (cbn in Hk; lia);
    cbn [strstr_loop]; str_step Hs.
  - rewrite Z.eqb_refl. exists NULL. split; [done|apply first_occurrence_nil].
  - apply str_at_cons in Hs as (_ & Hc & Hs). nz.
    destruct (IH k (p + 1) Hs) as (r & Er & Hr); [cbn in Hk; lia|].
    destruct (c =? b) eqn:E; zbool; cbn [negb].
    + subst c. destruct (strncmp_prefix m (p + 1) q s f Hs Hf) as (d & -> & Hd).
      cbn [mbind res_bind]. destruct (d =? 0) eqn:Ed; zbool; cbn [negb].
      * exists p. split; [done|]. apply first_occurrence_here, sub_test_cons. tauto.
      * exists r. split; [done|]. apply first_occurrence_next; [|done]. rewrite sub_test_cons. tauto.
    + exists r. split; [done|]. apply first_occurrence_next; [|done]. rewrite sub_test_cons.
      unfold id. intros [? _]. congruence.
Qed.

Lemma lower_u8 c : byte_ok c -> u8 (lower c) = lower c.
Proof.
  intros Hc. unfold lower, isupper. apply wrap_id. unfold byte_ok, uint in *.
  destruct (_ && _) eqn:E; zbool; lia.
Qed.

Lemma tolower_ok c : byte_ok c -> tolower c = Ok (lower c).
Proof. intros Hc. apply tolower_byte. unfold byte_ok, uint in Hc. lia. Qed.

Lemma strcasestr_loop_spec m q b f : str_at m q f -> bytes_ok f -> forall s k p,
  str_at m p s -> bytes_ok s -> (length s < k)%nat ->
  exists r, strcasestr_loop k m p (lower b) q (Z.of_nat (length f)) = Ok r
    /\ first_occurrence lower (b :: f) s p r.
Proof.
  intros Hf Hbf. induction s as [|c s IH]; intros [|k] p Hs Hb Hk; try (cbn in Hk; lia);
    cbn [strcasestr_loop]; str_step Hs.
  - rewrite Z.eqb_refl. exists NULL. split; [done|apply first_occurrence_nil].
  - apply Forall_cons in Hb as [Hbc Hb]. apply str_at_cons in Hs as (_ & Hc & Hs). nz.
    rewrite tolower_ok by done. cbn [mbind res_bind]. rewrite lower_u8 by done.
    destruct (IH k (p + 1) Hs Hb) as (r & Er & Hr); [cbn in Hk; lia|].
    destruct (lower c =? lower b) eqn:E; zbool; cbn [negb].
    + destruct (strncasecmp_prefix m (p + 1) q s f Hs Hf Hb Hbf) as (d & -> & Hd).
      cbn [mbind res_bind]. destruct (d =? 0) eqn:Ed; zbool; cbn [negb].
      * exists p. split; [done|]. apply first_occurrence_here, sub_test_cons. naive_solver.
      * exists r. split; [done|]. apply first_occurrence_next; [|done]. rewrite sub_test_cons. tauto.
    + exists r. split; [done|]. apply first_occurrence_next; [|done]. rewrite sub_test_cons.
      intros [? _]. congruence.
Qed.

Lemma first_occurrence_empty g s p : first_occurrence g [] s p p.
Proof.
  left. exists 0%nat. split_and!; [lia|apply prefix_nil|lia|lia].
Qed.

Lemma strstr_spec m p q s f : str_at m p s -> str_at m q f ->
  exists r, strstr m p q = Ok r /\ first_occurrence id f s p r.
Proof.
  intros Hs Hf. unfold strstr. str_step Hf. destruct f as [|b f]; cbn [head default from_option id].
  { exists p. split; [done|apply first_occurrence_empty]. }
  apply str_at_cons in Hf as (_ & Hb & Hf). nz. cbn [negb].
  rewrite (strlen_spec _ _ f Hf). cbn [mbind res_bind].
  apply strstr_loop_spec; [done|done|apply str_at_fuel in Hs; lia].
Qed.

Lemma strcasestr_spec m p q s f : str_at m p s -> str_at m q f -> bytes_ok s -> bytes_ok f ->
  exists r, strcasestr m p q = Ok r /\ first_occurrence lower f s p r.
Proof.
  intros Hs Hf Hbs Hbf. unfold strcasestr. str_step Hf.
  destruct f as [|b f]; cbn [head default from_option id].
  { exists p. split; [done|apply first_occurrence_empty]. }
  apply Forall_cons in Hbf as [Hbb Hbf].
  apply str_at_cons in Hf as (_ & Hb & Hf). nz. cbn [negb]. rewrite tolower_ok by done.
  rewrite (strlen_spec _ _ f Hf). cbn [mbind res_bind]. rewrite lower_u8 by done.
  apply strcasestr_loop_spec; [done|done|done|done|apply str_at_fuel in Hs; lia].
Qed.

(** ** Properties *)

(** The searches find what they look for: [strspn] and [strcspn] return the
    length of the longest prefix inside and outside the set, [strpbrk] the first
    character of the set, and [strstr] and [strcasestr] the first occurrence of
    the string, or [NULL] when there is none. *)
Lemma search_spec m p q s d (Hs : str_at m p s) (Hd : str_at m q d)
    (Hbs : bytes_ok s) (Hbd : bytes_ok d) :
  strspn m p q = Ok (Z.of_nat (span (in_set d) s))
  /\ strcspn m p q = Ok (Z.of_nat (span (fun c => negb (in_set d c)) s))
  /\ strpbrk m p q = Ok (first_at p (list_find (fun c => c ∈ d) s))
  /\ (exists r, strstr m p q = Ok r /\ first_occurrence id d s p r)
  /\ (exists r, strcasestr m p q = Ok r /\ first_occurrence lower d s p r).
Proof.
  pose proof (str_at_fuel _ _ _ Hs). unfold strspn, strcspn, strpbrk.
  rewrite (strspn_loop_spec m q d s), (strcspn_loop_spec m q d s),
    (strpbrk_loop_spec m q d s) by (done || lia). cbn [mbind res_bind]. split_and!.
  - f_equal. lia.
  - f_equal. lia.
  - done.
  - by apply strstr_spec.
  - by apply strcasestr_spec.
Qed.

(** The tokenisers split a string at the delimiters.  Calling [strsep] until
    it returns [NULL] returns pointers to all the fields of the string in order,
    empty ones included, each a string of its own afterwards; calling [strtok]
    returns the non-empty ones.  Both write inside the string only. *)
Lemma tokenizers_spec m p q s d last (Hp : 0 < p) (Hs : str_at m p s) (Hd : str_at m q d)
    (Hapart : apart q (Z.of_nat (length d)) p (Z.of_nat (length s))) :
  (exists m' ts, strsep_all (S (S (length s))) m p q = Ok (m', ts)
     /\ Forall2 (str_at m') ts (fields d s) /\ same_but m m' p (Z.of_nat (length s)))
  /\ (exists m' ts, strtok_all (S (S (length s))) m p q last = Ok (m', ts)
     /\ Forall2 (str_at m') ts (tokens d s) /\ same_but m m' p (Z.of_nat (length s))).
Proof.
  split.
  - apply (strsep_all_spec q d (length s)); (done || lia).
  - assert (strtok_all (S (S (length s))) m p q last = strtok_all (S (S (length s))) m NULL q p)
      as ->.
    { cbn [strtok_all]. unfold strtok, strtok_r. change (NULL =? NULL) with true. cbn match.
      do 2 rewrite (not_null p) by done. done. }
    apply (strtok_all_spec q d (length s)); (done || lia).
Qed.

(** C20: searching and splitting strings.  [strspn] and [strcspn] return the
    length of the longest prefix inside and outside the set, [strpbrk] the first
    character of the set, and [strstr] and [strcasestr] the first occurrence of
    the string, or [NULL] when there is none.  Calling [strsep] until it returns
    [NULL] returns pointers to all the fields of the string in order, empty ones
    included, each a string of its own afterwards; calling [strtok] returns the
    non-empty ones.  Both write inside the string only. *)
Theorem search_correct m p q s d last (Hs : str_at m p s) (Hd : str_at m q d)
    (Hbs : bytes_ok s) (Hbd : bytes_ok d) (Hp : 0 < p)
    (Hapart : apart q (Z.of_nat (length d)) p (Z.of_nat (length s))) :
  (strspn m p q = Ok (Z.of_nat (span (in_set d) s))
   /\ strcspn m p q = Ok (Z.of_nat (span (fun c => negb (in_set d c)) s))
   /\ strpbrk m p q = Ok (first_at p (list_find (fun c => c ∈ d) s))
   /\ (exists r, strstr m p q = Ok r /\ first_occurrence id d s p r)
   /\ (exists r, strcasestr m p q = Ok r /\ first_occurrence lower d s p r))
  /\ (exists m' ts, strsep_all (S (S (length s))) m p q = Ok (m', ts)
      /\ Forall2 (str_at m') ts (fields d s) /\ same_but m m' p (Z.of_nat (length s)))
  /\ (exists m' ts, strtok_all (S (S (length s))) m p q last = Ok (m', ts)
      /\ Forall2 (str_at m') ts (tokens d s) /\ same_but m m' p (Z.of_nat (length s))).
Proof. split; [by apply search_spec|by apply tokenizers_spec]. Qed.

(** "one, two" at 100 and ", " at 200. *)
Definition sample : mem :=
  put 100 [111; 110; 101; 44; 32; 116; 119; 111; 0] (put 200 [44; 32; 0] ∅).

Lemma sample_str : str_at sample 100 [111; 110; 101; 44; 32; 116; 119; 111]
  /\ str_at sample 200 [44; 32].
Proof.
  unfold sample. split; split; try (apply bytes_at_put).
  - unfold nonzero. repeat (constructor; [lia|]). constructor.
  - apply bytes_at_put_disjoint; [cbn; lia|apply bytes_at_put].
  - unfold nonzero. repeat (constructor; [lia|]). constructor.
Qed.

Example search_correct_witness :
  (strspn sample 100 200 = Ok 0 /\ strcspn sample 100 200 = Ok 3
   /\ strpbrk sample 100 200 = Ok 103
   /\ (exists r, strstr sample 100 200 = Ok r
         /\ first_occurrence id [44; 32] [111; 110; 101; 44; 32; 116; 119; 111] 100 r)
   /\ (exists r, strcasestr sample 100 200 = Ok r
         /\ first_occurrence lower [44; 32] [111; 110; 101; 44; 32; 116; 119; 111] 100 r))
  /\ (exists m' ts, strsep_all 10 sample 100 200 = Ok (m', ts)
     /\ Forall2 (str_at m') ts [[111; 110; 101]; []; [116; 119; 111]]
     /\ same_but sample m' 100 8)
  /\ (exists m' ts, strtok_all 10 sample 100 200 0 = Ok (m', ts)
     /\ Forall2 (str_at m') ts [[111; 110; 101]; [116; 119; 111]]
     /\ same_but sample m' 100 8).
Proof.
  apply (search_correct sample 100 200 [111; 110; 101; 44; 32; 116; 119; 111] [44; 32] 0).
  - apply sample_str.
  - apply sample_str.
  - repeat (constructor; [unfold byte_ok, uint; lia|]). constructor.
  - repeat (constructor; [unfold byte_ok, uint; lia|]). constructor.
  - lia.
  - unfold apart. cbn. lia.
Defined.
