(* ===== verification/Strtol.v ===== *)
(** * Reading numbers (src/CLibrary/stdlib)

    [strtol] and [strtoll] are one text at two widths, as are [strtoul] and
    [strtoull]; [w] is the width of the result.  The value written to
    [*endptr], if any, and [errno] are results, the old [errno] an argument.
    The scan for white space and the loop over the digits read a new byte in
    every round, so [fuel m] rounds are enough.

    The reference reads the whole number first and clamps it afterwards. *)

From S2P Require Import Prelude Words CMem CBytes Ctype CString CSearch.
From Stdlib Require Import ZArith Lia.
From stdpp Require Import prelude gmap list.

Open Scope Z_scope.

Definition EINVAL : Z := 22.
Definition ERANGE : Z := 34.

(** ** The scan *)

(** [do { c = (unsigned char) *s++; } while (isspace(c));] *)
Fixpoint space_loop (k : nat) (m : mem) (s : Z) : res (Z * Z) :=
  match k with
  | O => NoFuel
  | S k' =>
      c ← load m s;
      if inline_isspace c then space_loop k' m (s + 1) else Ok (c, s + 1)
  end.

(** The optional sign: [neg], and the next [c] and [s]; this [c] is a [char]. *)
Definition read_sign (m : mem) (c s : Z) : res (bool * Z * Z) :=
  if c =? 45 then c ← load m s; Ok (true, schar c, s + 1)
  else if c =? 43 then c ← load m s; Ok (false, schar c, s + 1)
  else Ok (false, c, s).

(** The prefix [0x] and the base. *)
Definition read_base (m : mem) (base c s : Z) : res (Z * Z * Z) :=
  hex ← (if ((base =? 0) || (base =? 16)) && (c =? 48)
         then x ← load m s; Ok ((x =? 120) || (x =? 88))
         else Ok false);
  if hex : bool then c ← load m (s + 1); Ok (16, schar c, s + 2)
  else Ok (if base =? 0 then if c =? 48 then 8 else 10 else base, c, s).

Definition digit_of (c : Z) : option Z :=
  if inline_isdigit c then Some (c - 48)
  else if inline_isalpha c then Some (c - (if inline_isupper c then 65 - 10 else 97 - 10))
  else None.

(** The loop over the digits; [step d acc any errno] is the part of its body
    that accumulates the digit [d]. *)
Fixpoint digits_loop (step : Z -> Z * Z * Z -> Z * Z * Z) (base : Z) (k : nat) (m : mem)
    (c s : Z) (st : Z * Z * Z) : res (Z * Z * Z * Z) :=
  match k with
  | O => NoFuel
  | S k' =>
      match digit_of c with
      | None => Ok (st, s)
      | Some d =>
          if base <=? d then Ok (st, s)
          else
            let st := step d st in
            c ← load m s;
            digits_loop step base k' m c (s + 1) st
      end
  end.

Definition bad_base (base : Z) : bool := (base <? 0) || (base =? 1) || (36 <? base).

(** What the four functions share: everything but the accumulation. *)
Definition convert (step : bool -> Z -> Z -> Z * Z * Z -> Z * Z * Z) (finish : bool -> Z -> Z -> Z)
    (m : mem) (nptr : Z) (endptr : bool) (base errno : Z) : res (Z * option Z * Z) :=
  let write p := if endptr then Some p else None in
  if bad_base base then Ok (0, write nptr, EINVAL)
  else
    '(c, s) ← space_loop (fuel m) m nptr;
    '(neg, c, s) ← read_sign m c s;
    '(base, c, s) ← read_base m base c s;
    '(acc, any, errno, s) ← digits_loop (step neg base) base (fuel m) m c s (0, 0, errno);
    Ok (finish neg any acc, write (if negb (any =? 0) then s - 1 else nptr), errno).

(** ** strtol.c and strtoll.c *)

Definition LONG_MAX (w : Z) : Z := 2 ^ (w - 1) - 1.
Definition LONG_MIN (w : Z) : Z := - 2 ^ (w - 1).

(** The largest magnitude before the last digit, and the largest last digit. *)
Definition cutoffs (w : Z) (neg : bool) (base : Z) : Z * Z :=
  let cutoff := if neg then LONG_MIN w else LONG_MAX w in
  let cutlim := Z.rem cutoff base in
  let cutoff := Z.quot cutoff base in
  if neg then
    let '(cutlim, cutoff) :=
      if 0 <? cutlim then (cutlim - base, cutoff + 1) else (cutlim, cutoff) in
    (cutoff, - cutlim)
  else (cutoff, cutlim).

Definition signed (w x : Z) : Z := sgn w (wrap w x).

Definition strtol_step (w : Z) (neg : bool) (base d : Z) (st : Z * Z * Z) : Z * Z * Z :=
  let '(acc, any, errno) := st in
  let '(cutoff, cutlim) := cutoffs w neg base in
  if any <? 0 then st
  else if neg then
    if (acc <? cutoff) || ((acc =? cutoff) && (cutlim <? d)) then (LONG_MIN w, -1, ERANGE)
    else (signed w (signed w (acc * base) - d), 1, errno)
  else
    if (cutoff <? acc) || ((acc =? cutoff) && (cutlim <? d)) then (LONG_MAX w, -1, ERANGE)
    else (signed w (signed w (acc * base) + d), 1, errno).

Definition strtol_width (w : Z) (m : mem) (nptr : Z) (endptr : bool) (base errno : Z) :
    res (Z * option Z * Z) :=
  convert (strtol_step w) (fun _ _ acc => acc) m nptr endptr base errno.

Definition strtol := strtol_width 32.
Definition strtoll := strtol_width 64.

(** ** strtoul.c and strtoull.c *)

Definition ULONG_MAX (w : Z) : Z := 2 ^ w - 1.

Definition strtoul_step (w : Z) (neg : bool) (base d : Z) (st : Z * Z * Z) : Z * Z * Z :=
  let '(acc, any, errno) := st in
  let cutoff := ULONG_MAX w / base in
  let cutlim := ULONG_MAX w mod base in
  if any <? 0 then st
  else if (cutoff <? acc) || ((acc =? cutoff) && (cutlim <? d)) then (ULONG_MAX w, -1, ERANGE)
  else (wrap w (wrap w (acc * base) + d), 1, errno).

Definition strtoul_width (w : Z) (m : mem) (nptr : Z) (endptr : bool) (base errno : Z) :
    res (Z * option Z * Z) :=
  convert (strtoul_step w)
    (fun neg any acc => if neg && (0 <? any) then wrap w (- acc) else acc)
    m nptr endptr base errno.

Definition strtoul := strtoul_width 32.
Definition strtoull := strtoul_width 64.

(** ** Reference *)

(** The value of a character as a digit, 36 for none. *)
Definition digit (c : Z) : Z :=
  if isdigit c then c - 48
  else if isupper c then c - 55
  else if islower c then c - 87
  else 36.

Definition number (base : Z) (l : list Z) : Z := foldl (fun v c => v * base + digit c) 0 l.

Definition strip_sign (s : list Z) : bool * list Z :=
  match s with
  | c :: r => if c =? 45 then (true, r) else if c =? 43 then (false, r) else (false, s)
  | [] => (false, s)
  end.

Definition strip_prefix (base : Z) (s : list Z) : Z * list Z :=
  let plain := (if base =? 0 then if bool_decide (head s = Some 48) then 8 else 10 else base, s) in
  match s with
  | z :: x :: r =>
      if ((base =? 0) || (base =? 16)) && (z =? 48) && ((x =? 120) || (x =? 88))
      then (16, r) else plain
  | _ => plain
  end.

(** The sign, the magnitude and, if there are any digits, the length of what
    was read. *)
Definition parse_int (base : Z) (s : list Z) : bool * Z * option nat :=
  let '(neg, s1) := strip_sign (drop (span isspace s) s) in
  let '(base, s2) := strip_prefix base s1 in
  let n := span (fun c => digit c <? base) s2 in
  (neg, number base (take n s2),
   if bool_decide (n = 0%nat) then None else Some (length s - length s2 + n)%nat).

Definition end_of (p : Z) (n : option nat) : Z := p + Z.of_nat (default 0%nat n).

(** ** Characters *)

Lemma isspace_byte c : byte_ok c -> inline_isspace c = isspace c.
Proof.
  intros Hc. apply (forall_range (fun c => inline_isspace c = isspace c) 0 256);
    [vm_compute; reflexivity|unfold byte_ok, uint in Hc; lia].
Qed.

(** A character read as [unsigned char] or as [char]. *)
Definition reads (c b : Z) : Prop := byte_ok b /\ (c = b \/ c = schar b).

Lemma digit_of_byte c b : reads c b ->
  digit_of c = if digit b <? 36 then Some (digit b) else None.
Proof.
  intros [Hb Hc].
  assert (digit_of b = (if digit b <? 36 then Some (digit b) else None)
    /\ digit_of (schar b) = (if digit b <? 36 then Some (digit b) else None)) as [H1 H2].
  { apply (forall_range (fun b => digit_of b = (if digit b <? 36 then Some (digit b) else None)
      /\ digit_of (schar b) = (if digit b <? 36 then Some (digit b) else None)) 0 256);
      [vm_compute; reflexivity|unfold byte_ok, uint in Hb; lia]. }
  by destruct Hc as [-> | ->].
Qed.

Lemma digit_range c : 0 <= digit c.
Proof.
  unfold digit. destruct (isdigit c) eqn:E1; [|destruct (isupper c) eqn:E2;
    [|destruct (islower c) eqn:E3; [|lia]]].
  - unfold isdigit in E1. apply bool_decide_eq_true in E1. set_unfold in E1. lia.
  - unfold isupper in E2. zbool. lia.
  - unfold islower in E3. zbool. lia.
Qed.

Lemma reads_eqb c b x : reads c b -> 0 <= x < 128 -> (c =? x) = (b =? x).
Proof.
  intros [Hb [-> | ->]] Hx; [done|]. unfold byte_ok, uint in Hb. unfold sgn, wrap.
  change (2 ^ 8) with 256 in *. change (2 ^ (8 - 1)) with 128.
  rewrite Z.mod_small by lia. destruct (_ <? _) eqn:E; zbool; [done|].
  destruct (b =? x) eqn:E'; zbool; [lia|]. apply Z.eqb_neq. lia.
Qed.

(** The current character is the first of [t], [s] points behind it. *)
Definition current (m : mem) (c s : Z) (t : list Z) : Prop :=
  str_at m (s - 1) t /\ bytes_ok t /\ reads c (default 0 (head t)).

Lemma current_next m c s b t : current m c s (b :: t) ->
  exists c', load m s = Ok c' /\ current m c' (s + 1) t /\ current m (schar c') (s + 1) t.
Proof.
  intros (Hs & Hb & _). apply str_at_cons in Hs as (_ & _ & Hs). apply Forall_cons in Hb as [_ Hb].
  replace (s - 1 + 1) with s in Hs by lia. exists (default 0 (head t)).
  rewrite (str_at_load _ _ _ Hs). split; [done|]. pose proof (head_byte _ Hb). unfold current.
  replace (s + 1 - 1) with s by lia. unfold reads. naive_solver.
Qed.

Lemma current_nil m c s : current m c s [] -> c = 0.
Proof. intros (_ & _ & _ & Hc). cbn in Hc. naive_solver. Qed.

Lemma current_eqb m c s b t x : current m c s (b :: t) -> 0 <= x < 128 -> (c =? x) = (b =? x).
Proof. intros (_ & _ & Hc) Hx. by apply (reads_eqb c b). Qed.

(** ** Scanning *)

Lemma space_loop_spec m s : forall k p, str_at m p s -> bytes_ok s -> (length s < k)%nat ->
  exists c, space_loop k m p = Ok (c, p + Z.of_nat (span isspace s) + 1)
    /\ current m c (p + Z.of_nat (span isspace s) + 1) (drop (span isspace s) s).
Proof.
  induction s as [|b s IH]; intros [|k] p H Hb Hk; try (cbn in Hk; lia);
    cbn [space_loop span]; str_step H.
  - change (inline_isspace 0) with false. cbv iota. exists 0. rewrite Z.add_0_r. split; [done|].
    unfold current. replace (p + 1 - 1) with p by lia. split_and!; [done|done|]. by split; [|left].
  - pose proof H as Hs. pose proof Hb as Hbs. apply Forall_cons in Hb as [Hb0 Hb].
    rewrite isspace_byte by done. destruct (isspace b); cbn [drop].
    + apply str_at_cons in H as (_ & _ & H).
      destruct (IH k (p + 1) H Hb) as (c & E & Hc); [cbn in Hk; lia|].
      replace (p + Z.of_nat (S (span isspace s)) + 1)
        with (p + 1 + Z.of_nat (span isspace s) + 1) by lia. by exists c.
    + exists b. rewrite Z.add_0_r. split; [done|]. unfold current.
      replace (p + 1 - 1) with p by lia. split_and!; [done|done|]. by split; [|left].
Qed.

Lemma read_sign_spec m c s t : current m c s t ->
  exists c' s', read_sign m c s = Ok ((strip_sign t).1, c', s')
    /\ current m c' s' (strip_sign t).2
    /\ s' + Z.of_nat (length (strip_sign t).2) = s + Z.of_nat (length t).
Proof.
  intros H. unfold read_sign. destruct t as [|b t]; cbn [strip_sign fst snd].
  { pose proof (current_nil _ _ _ H) as ->. exists 0, s. split_and!; done. }
  rewrite !(current_eqb _ _ _ _ _ _ H) by lia.
  destruct (current_next _ _ _ _ _ H) as (c' & -> & _ & Hc').
  destruct (b =? 45); [|destruct (b =? 43)]; cbn [mbind res_bind fst snd].
  - exists (schar c'), (s + 1). split_and!; [done|done|cbn [length fst snd]; lia].
  - exists (schar c'), (s + 1). split_and!; [done|done|cbn [length fst snd]; lia].
  - by exists c, s.
Qed.

Lemma read_base_spec m base c s t : current m c s t ->
  exists c' s', read_base m base c s = Ok ((strip_prefix base t).1, c', s')
    /\ current m c' s' (strip_prefix base t).2
    /\ s' + Z.of_nat (length (strip_prefix base t).2) = s + Z.of_nat (length t).
Proof.
  intros H. unfold read_base. destruct t as [|z t].
  { pose proof (current_nil _ _ _ H) as ->. exists 0, s. change (0 =? 48) with false. rewrite andb_false_r.
    unfold strip_prefix. cbn [mbind res_bind head fst snd]. rewrite bool_decide_false by done.
    destruct (base =? 0); split_and!; done. }
  rewrite !(current_eqb _ _ _ _ _ _ H) by lia.
  assert (bool_decide (head (z :: t) = Some 48) = (z =? 48)) as Eh.
  { cbn [head]. apply eq_true_iff_eq. rewrite bool_decide_eq_true, Z.eqb_eq. naive_solver. }
  unfold strip_prefix. rewrite Eh.
  destruct (((base =? 0) || (base =? 16)) && (z =? 48)) eqn:E; cbn [mbind res_bind].
  2: { exists c, s. by destruct t as [|x r]; rewrite ?E. }
  destruct (current_next _ _ _ _ _ H) as (x' & -> & Hx & _). cbn [mbind res_bind].
  destruct t as [|x r].
  { rewrite (current_nil _ _ _ Hx). cbn [Z.eqb orb]. by exists c, s. }
  rewrite !(current_eqb _ _ _ _ _ _ Hx) by lia. cbn [andb].
  destruct ((x =? 120) || (x =? 88)).
  - destruct (current_next _ _ _ _ _ Hx) as (y & -> & _ & Hy). cbn [mbind res_bind].
    exists (schar y), (s + 2). replace (s + 1 + 1) with (s + 2) in Hy by lia.
    split_and!; [done|done|cbn [length fst snd]; lia].
  - by exists c, s.
Qed.

(** ** Accumulating *)

Section loop.
Context (step : Z -> Z * Z * Z -> Z * Z * Z) (base : Z) (R : nat -> Z -> Z * Z * Z -> Prop).
Context (Hbase : base <= 36).
Context (Hstep : forall n v st d, R n v st -> 0 <= d < base -> R (S n) (v * base + d) (step d st)).

(** If the steps keep [R], the loop ends behind the digits with [R] of their
    number and value. *)
Lemma digits_loop_spec m t : forall k c s n v st, current m c s t -> (length t < k)%nat ->
  R n v st ->
  let j := span (fun c => digit c <? base) t in
  exists st', digits_loop step base k m c s st = Ok (st', s + Z.of_nat j)
    /\ R (n + j)%nat (foldl (fun v c => v * base + digit c) v (take j t)) st'.
Proof.
  induction t as [|b t IH]; intros [|k] c s n v st Hc Hk HR; try (cbn in Hk; lia);
    cbn [digits_loop span].
  - rewrite (current_nil _ _ _ Hc). change (digit_of 0) with (@None Z). exists st.
    rewrite Z.add_0_r, Nat.add_0_r. done.
  - assert (reads c b) as Hr by apply Hc. rewrite (digit_of_byte c b Hr).
    pose proof (digit_range b). destruct (digit b <? base) eqn:E; zbool.
    + rewrite (proj2 (Z.ltb_lt _ _)) by lia. rewrite (proj2 (Z.leb_gt _ _)) by lia.
      destruct (current_next _ _ _ _ _ Hc) as (c' & -> & Hc' & _). cbn [mbind res_bind].
      destruct (IH k c' (s + 1) (S n) (v * base + digit b) (step (digit b) st)) as (st' & Est & HR');
        [done|cbn in Hk; lia|by apply Hstep|].
      exists st'. cbn [take foldl]. rewrite Est. split; [do 2 f_equal; lia|].
      by rewrite Nat.add_succ_r.
    + exists st. cbn [take foldl]. rewrite Z.add_0_r, Nat.add_0_r. split; [|done].
      destruct (digit b <? 36); [|done]. by rewrite (proj2 (Z.leb_le _ _)) by lia.
Qed.
End loop.

(** The bound on the magnitude. *)
Definition bound (w : Z) (neg : bool) : Z := if neg then 2 ^ (w - 1) else 2 ^ (w - 1) - 1.

Lemma cutoffs_spec w neg base : 0 < w -> 2 <= base ->
  cutoffs w neg base
  = (if neg then - (bound w neg / base) else bound w neg / base, bound w neg mod base).
Proof.
  intros Hw Hb. assert (0 < 2 ^ (w - 1)) by (apply Z.pow_pos_nonneg; lia).
  unfold cutoffs, LONG_MIN, LONG_MAX, bound. destruct neg.
  - rewrite Z.rem_opp_l, Z.quot_opp_l, Z.rem_mod_nonneg, Z.quot_div_nonneg by lia.
    pose proof (Z.mod_pos_bound (2 ^ (w - 1)) base). rewrite (proj2 (Z.ltb_ge _ _)) by lia.
    f_equal. lia.
  - by rewrite Z.rem_mod_nonneg, Z.quot_div_nonneg by lia.
Qed.

(** The test of the last digit is the test of the result. *)
Lemma cutoff_test B base v d : 2 <= base -> 0 <= B -> 0 <= d < base ->
  (B / base < v \/ v = B / base /\ B mod base < d) <-> B < v * base + d.
Proof.
  intros Hb HB Hd. pose proof (Z.div_mod B base). pose proof (Z.mod_pos_bound B base).
  set (q := B / base) in *. set (r := B mod base) in *. split.
  - intros [?|[-> ?]]; nia.
  - intros H1. destruct (Z.lt_trichotomy q v) as [?|[?|?]]; [by left|right; split; nia|].
    exfalso. nia.
Qed.

(** The state of the loop after [n] digits of value [v]. *)
Definition signed_state (w : Z) (neg : bool) (e : Z) (n : nat) (v : Z) (st : Z * Z * Z) : Prop :=
  0 <= v /\ (n = 0%nat -> v = 0) /\
  st = if bound w neg <? v then (if neg then LONG_MIN w else LONG_MAX w, -1, ERANGE)
       else (if neg then - v else v, if bool_decide (n = 0%nat) then 0 else 1, e).

Lemma bound_pos w neg : 0 < w -> 0 <= bound w neg.
Proof. intros Hw. assert (0 < 2 ^ (w - 1)) by (apply Z.pow_pos_nonneg; lia). unfold bound. destruct neg; lia. Qed.

Lemma signed_id w x : 0 < w -> - 2 ^ (w - 1) <= x < 2 ^ (w - 1) -> signed w x = x.
Proof.
  intros Hw Hx. unfold signed. rewrite <-(sgn_id w x Hw Hx) at 2. unfold sgn. by rewrite wrap_wrap.
Qed.

Lemma strtol_step_ok w neg e base : 0 < w -> 2 <= base -> forall n v st d,
  signed_state w neg e n v st -> 0 <= d < base ->
  signed_state w neg e (S n) (v * base + d) (strtol_step w neg base d st).
Proof.
  intros Hw Hb n v st d (Hv & _ & ->) Hd. split; [nia|]. split; [done|].
  pose proof (bound_pos w neg Hw) as HB. unfold strtol_step. rewrite cutoffs_spec by done.
  pose proof (cutoff_test (bound w neg) base v d Hb HB Hd) as Ht.
  destruct (bound w neg <? v) eqn:E; zbool.
  { change (-1 <? 0) with true. cbv iota. rewrite (proj2 (Z.ltb_lt _ _)) by nia. done. }
  rewrite (bool_decide_false (S n = 0%nat)) by done.
  rewrite (proj2 (Z.ltb_ge (if bool_decide (n = 0%nat) then 0 else 1) 0)) by (case_bool_decide; lia).
  assert (forall a b : bool, (a = true <-> b = true) -> a = b) as Hbool
    by (intros [] []; naive_solver).
  destruct neg.
  - replace ((- v <? - (bound w true / base))
      || ((- v =? - (bound w true / base)) && (bound w true mod base <? d)))
      with (bound w true <? v * base + d).
    2: { apply Hbool. rewrite orb_true_iff, andb_true_iff, !Z.ltb_lt, Z.eqb_eq, <-Ht. lia. }
    destruct (bound w true <? v * base + d) eqn:E2; zbool; [done|]. unfold bound in *.
    rewrite (signed_id w (- v * base)) by nia. rewrite signed_id by nia.
    f_equal. f_equal. lia.
  - replace ((bound w false / base <? v)
      || ((v =? bound w false / base) && (bound w false mod base <? d)))
      with (bound w false <? v * base + d).
    2: { apply Hbool. rewrite orb_true_iff, andb_true_iff, !Z.ltb_lt, Z.eqb_eq, <-Ht. lia. }
    destruct (bound w false <? v * base + d) eqn:E2; zbool; [done|]. unfold bound in *.
    rewrite (signed_id w (v * base)) by nia. by rewrite signed_id by nia.
Qed.

Definition unsigned_state (w e : Z) (n : nat) (v : Z) (st : Z * Z * Z) : Prop :=
  0 <= v /\ (n = 0%nat -> v = 0) /\
  st = if ULONG_MAX w <? v then (ULONG_MAX w, -1, ERANGE)
       else (v, if bool_decide (n = 0%nat) then 0 else 1, e).

Lemma strtoul_step_ok w neg e base : 0 < w -> 2 <= base -> forall n v st d,
  unsigned_state w e n v st -> 0 <= d < base ->
  unsigned_state w e (S n) (v * base + d) (strtoul_step w neg base d st).
Proof.
  intros Hw Hb n v st d (Hv & _ & ->) Hd. split; [nia|]. split; [done|].
  assert (0 < 2 ^ w) by (apply Z.pow_pos_nonneg; lia). unfold strtoul_step.
  pose proof (cutoff_test (ULONG_MAX w) base v d Hb ltac:(unfold ULONG_MAX; lia) Hd) as Ht.
  destruct (ULONG_MAX w <? v) eqn:E; zbool.
  { change (-1 <? 0) with true. cbv iota. rewrite (proj2 (Z.ltb_lt _ _)) by nia. done. }
  rewrite (bool_decide_false (S n = 0%nat)) by done.
  rewrite (proj2 (Z.ltb_ge (if bool_decide (n = 0%nat) then 0 else 1) 0)) by (case_bool_decide; lia).
  replace ((ULONG_MAX w / base <? v)
    || ((v =? ULONG_MAX w / base) && (ULONG_MAX w mod base <? d)))
    with (ULONG_MAX w <? v * base + d).
  2: { apply eq_true_iff_eq. rewrite orb_true_iff, andb_true_iff, !Z.ltb_lt, Z.eqb_eq. lia. }
  destruct (ULONG_MAX w <? v * base + d) eqn:E2; zbool; [done|]. unfold ULONG_MAX in *.
  rewrite (wrap_id w (v * base)) by (unfold uint; nia). by rewrite wrap_id by (unfold uint; nia).
Qed.

Lemma strip_prefix_base base t : bad_base base = false -> 2 <= (strip_prefix base t).1 <= 36.
Proof.
  unfold bad_base. intros H. zbool. unfold strip_prefix.
  assert (2 <= (if base =? 0 then if bool_decide (head t = Some 48) then 8 else 10 else base) <= 36).
  { destruct (base =? 0) eqn:E; zbool; [case_bool_decide; lia|lia]. }
  destruct t as [|z [|x r]]; [done|done|]. destruct (_ && _); cbn [fst]; lia.
Qed.

Lemma strip_sign_length t : (length (strip_sign t).2 <= length t)%nat.
Proof.
  destruct t as [|c r]; cbn; [lia|]. destruct (c =? 45); [|destruct (c =? 43)]; cbn; lia.
Qed.

Lemma strip_prefix_length base t : (length (strip_prefix base t).2 <= length t)%nat.
Proof. destruct t as [|z [|x r]]; cbn; [lia|lia|]. destruct (_ && _); cbn; lia. Qed.

(** The common part of the four functions, for any accumulation that keeps a
    relation [R] to the digits read. *)
Lemma convert_spec step finish (R : bool -> nat -> Z -> Z * Z * Z -> Prop)
    m p s endptr base errno :
  (forall neg b, 2 <= b -> forall n v st d, R neg n v st -> 0 <= d < b ->
    R neg (S n) (v * b + d) (step neg b d st)) ->
  (forall neg, R neg 0%nat 0 (0, 0, errno)) ->
  str_at m p s -> bytes_ok s -> bad_base base = false ->
  exists n acc any e k,
    let '(neg, v, o) := parse_int base s in
    R neg n v (acc, any, e) /\ o = (if bool_decide (n = 0%nat) then None else Some k)
    /\ convert step finish m p endptr base errno
       = Ok (finish neg any acc,
             if endptr then Some (if negb (any =? 0) then p + Z.of_nat k else p) else None, e).
Proof.
  intros Hstep H0 Hs Hb Hbad. unfold convert. rewrite Hbad.
  pose proof (str_at_fuel _ _ _ Hs) as Hfuel.
  destruct (space_loop_spec m s (fuel m) p Hs Hb ltac:(lia)) as (c & -> & Hc).
  destruct (str_at_skip m p isspace s Hs) as (_ & Hlen & _). cbn [mbind res_bind].
  set (t0 := drop (span isspace s) s) in *. set (s0 := p + Z.of_nat (span isspace s) + 1) in *.
  pose proof (strip_sign_length t0) as Hl1.
  destruct (read_sign_spec _ _ _ _ Hc) as (c1 & s1 & -> & Hc1 & Hs1). cbn [mbind res_bind].
  unfold parse_int. fold t0. destruct (strip_sign t0) as [neg t1]. cbn [fst snd] in *.
  destruct (read_base_spec m base _ _ _ Hc1) as (c2 & s2 & -> & Hc2 & Hs2). cbn [mbind res_bind].
  pose proof (strip_prefix_base base t1 Hbad) as Hbase.
  pose proof (strip_prefix_length base t1) as Hl2.
  destruct (strip_prefix base t1) as [b t2]. cbn [fst snd] in *.
  pose proof (str_at_fuel _ _ _ (proj1 Hc2)) as Hfuel2.
  destruct (digits_loop_spec (step neg b) b (R neg) ltac:(lia) (Hstep neg b ltac:(lia))
    m t2 (fuel m) c2 s2 0 0 (0, 0, errno) Hc2 ltac:(lia) (H0 neg)) as ([[acc any] e] & -> & HR).
  cbn [mbind res_bind]. set (n := span (fun c => digit c <? b) t2) in *.
  exists n, acc, any, e, (length s - length t2 + n)%nat. split_and!; [done|done|].
  do 2 f_equal. destruct endptr; [|done]. f_equal. destruct (negb (any =? 0)); [|done].
  unfold s0 in *. f_equal. lia.
Qed.

(** ** Properties *)

(** The signed and unsigned results, with what is written to [*endptr] and the
    new [errno]. *)
Definition ref_convert (result : bool -> Z -> Z * bool) (p : Z) (s : list Z) (endptr : bool)
    (base errno : Z) : Z * option Z * Z :=
  let write q := if endptr then Some q else None in
  if bad_base base then (0, write p, EINVAL)
  else
    let '(neg, v, n) := parse_int base s in
    let '(r, exact) := result neg v in
    (r, write (end_of p n), if exact : bool then errno else ERANGE).

Definition ref_signed (w : Z) (neg : bool) (v : Z) : Z * bool :=
  let x := if neg then - v else v in
  (Z.max (LONG_MIN w) (Z.min (LONG_MAX w) x), (LONG_MIN w <=? x) && (x <=? LONG_MAX w)).

Definition ref_unsigned (w : Z) (neg : bool) (v : Z) : Z * bool :=
  let x := if neg then - v else v in
  if v <=? ULONG_MAX w then (wrap w x, true) else (ULONG_MAX w, false).

Ltac clamp_cases :=
  repeat match goal with |- context [?a <=? ?b] => destruct (a <=? b) eqn:?; zbool; try lia end;
  cbn [andb]; rewrite ?Z.add_0_r; do 2 f_equal; f_equal; lia.

Lemma strtol_width_spec w m p s endptr base errno : 0 < w -> str_at m p s -> bytes_ok s ->
  strtol_width w m p endptr base errno = Ok (ref_convert (ref_signed w) p s endptr base errno).
Proof.
  intros Hw Hs Hb. unfold strtol_width, ref_convert.
  destruct (bad_base base) eqn:Hbad; [by unfold convert; rewrite Hbad|].
  destruct (convert_spec (strtol_step w) (fun _ _ acc => acc)
    (fun neg => signed_state w neg errno) m p s endptr base errno) as (n & acc & any & e & k & H);
    [intros neg b ?; by apply strtol_step_ok| |done|done|done|].
  { intros neg. split; [lia|]. split; [done|].
    rewrite (proj2 (Z.ltb_ge _ _)) by (by apply bound_pos). by destruct neg. }
  destruct (parse_int base s) as [[neg v] o]. destruct H as ((Hv & Hn & Hst) & -> & ->).
  unfold ref_signed. pose proof (bound_pos w neg Hw) as HB. unfold bound, LONG_MAX, LONG_MIN in *.
  assert (0 < 2 ^ (w - 1)) by (apply Z.pow_pos_nonneg; lia).
  unfold end_of. case_bool_decide as E; cbn [default from_option id].
  - rewrite (Hn E) in *. rewrite (proj2 (Z.ltb_ge _ _)) in Hst by done.
    injection Hst as -> -> ->. change (negb (0 =? 0)) with false. cbv iota. clear HB.
    change (Z.of_nat 0) with 0.
    destruct neg; clamp_cases.
  - destruct (_ <? v) eqn:E2; zbool; injection Hst as -> -> ->;
      destruct neg; cbn [negb Z.eqb]; clamp_cases.
Qed.

Lemma strtoul_width_spec w m p s endptr base errno : 0 < w -> str_at m p s -> bytes_ok s ->
  strtoul_width w m p endptr base errno = Ok (ref_convert (ref_unsigned w) p s endptr base errno).
Proof.
  intros Hw Hs Hb. unfold strtoul_width, ref_convert.
  destruct (bad_base base) eqn:Hbad; [by unfold convert; rewrite Hbad|].
  assert (0 < 2 ^ w) by (apply Z.pow_pos_nonneg; lia).
  destruct (convert_spec (strtoul_step w)
    (fun neg any acc => if neg && (0 <? any) then wrap w (- acc) else acc)
    (fun neg => unsigned_state w errno) m p s endptr base errno) as (n & acc & any & e & k & HR);
    [intros neg b ?; by apply strtoul_step_ok| |done|done|done|].
  { intros neg. split; [lia|]. split; [done|].
    rewrite (proj2 (Z.ltb_ge _ _)) by (unfold ULONG_MAX; lia). done. }
  destruct (parse_int base s) as [[neg v] o]. destruct HR as ((Hv & Hn & Hst) & -> & ->).
  unfold ref_unsigned, end_of. unfold ULONG_MAX in *. case_bool_decide as E.
  { rewrite (Hn E) in *. rewrite (proj2 (Z.ltb_ge _ _)) in Hst by lia.
    injection Hst as -> -> ->. rewrite (proj2 (Z.leb_le _ _)) by lia. cbn.
    rewrite Z.add_0_r, andb_false_r. rewrite wrap_id by (unfold uint; destruct neg; lia).
    by destruct neg. }
  cbn [default from_option id].
  destruct (_ <? v) eqn:E2; zbool; injection Hst as -> -> ->.
  - rewrite (proj2 (Z.leb_gt _ _)) by lia. by rewrite andb_false_r.
  - rewrite (proj2 (Z.leb_le _ _)) by lia. destruct neg; cbn [negb andb Z.ltb Z.eqb Z.compare];
      [done|]. by rewrite wrap_id by (unfold uint; lia).
Qed.

(** C21: the four conversions read the same language.  White space, an
    optional sign, in base 16 or 0 an optional [0x], then the longest run of
    digits of the base: the result is the number, clamped to the range of the
    type with [errno] set when it does not fit (negated modulo [2^w] in the
    unsigned functions), and [*endptr] points behind the digits, or to the start
    when there is none (so a [0x] without digits is not read as 0); a base that
    is neither 0 nor between 2 and 36 is refused.  No value overflows on the
    way. *)
Theorem strtol_correct m p s endptr base errno (Hs : str_at m p s) (Hb : bytes_ok s) :
  strtol m p endptr base errno = Ok (ref_convert (ref_signed 32) p s endptr base errno)
  /\ strtoll m p endptr base errno = Ok (ref_convert (ref_signed 64) p s endptr base errno)
  /\ strtoul m p endptr base errno = Ok (ref_convert (ref_unsigned 32) p s endptr base errno)
  /\ strtoull m p endptr base errno = Ok (ref_convert (ref_unsigned 64) p s endptr base errno).
Proof.
  split_and!; (apply strtol_width_spec || apply strtoul_width_spec); (done || lia).
Qed.

(** " -2147483649z" *)
Definition sample_digits : list Z := [32; 45; 50; 49; 52; 55; 52; 56; 51; 54; 52; 57; 122].

Example strtol_correct_witness :
  ref_convert (ref_signed 32) 100 sample_digits true 10 0 = (-2147483648, Some 112, ERANGE)
  /\ strtol (put 100 (sample_digits ++ [0]) ∅) 100 true 10 0 = Ok (-2147483648, Some 112, ERANGE)
  /\ strtoll (put 100 (sample_digits ++ [0]) ∅) 100 true 10 0 = Ok (-2147483649, Some 112, 0)
  /\ strtoul (put 100 (sample_digits ++ [0]) ∅) 100 true 10 0
     = Ok (2147483647, Some 112, 0)
  /\ strtoull (put 100 (sample_digits ++ [0]) ∅) 100 true 10 0
     = Ok (18446744071562067967, Some 112, 0).
Proof.
  split; [reflexivity|]. apply (strtol_correct _ 100 sample_digits true 10 0).
  - split; [apply bytes_at_put|]. unfold nonzero, sample_digits. repeat (constructor; [lia|]).
    constructor.
  - unfold sample_digits. repeat (constructor; [unfold byte_ok, uint; lia|]). constructor.
Defined.
