(* ===== verification/Printf.v ===== *)
(** * Formatted output (src/CLibrary/printf.c)

    [kprintf] is the interpreter of formats behind [printf], [vprintf],
    [snprintf] and [vsnprintf].  The variable arguments are the 32-bit words the
    caller pushed: [va_arg] of a 64-bit type takes two of them, low word first,
    and running out of them is [Fault].  The flags are the bits of the code.
    The digits of a number are built backwards in [bf], whose
    [KPRINTF_BUFSIZE] bytes the model counts: writing below it is [Fault].

    [putchar] appends to the console output [k_out].  The scan of a format reads
    a new byte in every round, so [fuel m] rounds are enough ([fuel] counts the
    mapped addresses, which stores do not change). *)

From S2P Require Import Prelude Words CMem CBytes Ctype CString CSearch Strtol.
From Stdlib Require Import ZArith Lia.
From stdpp Require Import prelude gmap list fin_map_dom.

Open Scope Z_scope.

(** ** Constants *)

Definition hexdigits : list Z :=
  [48; 49; 50; 51; 52; 53; 54; 55; 56; 57; 97; 98; 99; 100; 101; 102].
Definition HEXDIGITS : list Z :=
  [48; 49; 50; 51; 52; 53; 54; 55; 56; 57; 65; 66; 67; 68; 69; 70].

(** [sizeof(quad_t) * NBBY / 3 + 2] *)
Definition KPRINTF_BUFSIZE : nat := 23.

Definition to_digit (c : Z) : Z := c - 48.
Definition is_digit (c : Z) : bool := u32 (to_digit c) <=? 9.
Definition to_char (n : Z) : Z := n + 48.

Definition ALT : Z := 0x001.
Definition HEXPREFIX : Z := 0x002.
Definition LADJUST : Z := 0x004.
Definition LONGINT : Z := 0x010.
Definition QUADINT : Z := 0x020.
Definition SHORTINT : Z := 0x040.
Definition MAXINT : Z := 0x080.
Definition PTRINT : Z := 0x100.
Definition SIZEINT : Z := 0x200.
Definition ZEROPAD : Z := 0x400.

Definition has (flags f : Z) : bool := negb (Z.land flags f =? 0).

(** [int] arithmetic. *)
Notation int := (signed 32).

(** ** Arguments *)

Definition va_int (ap : list Z) : res (Z * list Z) :=
  match ap with w :: ap => Ok (int w, ap) | [] => Fault end.
Definition va_word (ap : list Z) : res (Z * list Z) :=
  match ap with w :: ap => Ok (u32 w, ap) | [] => Fault end.
Definition va_quad (ap : list Z) : res (Z * list Z) :=
  match ap with lo :: hi :: ap => Ok (u32 hi * 2 ^ 32 + u32 lo, ap) | _ => Fault end.

(** [SARG] and [UARG], converted to [u_quad_t]. *)
Definition SARG (flags : Z) (ap : list Z) : res (Z * list Z) :=
  if has flags MAXINT then va_quad ap
  else if has flags PTRINT then '(n, ap) ← va_int ap; Ok (u64 n, ap)
  else if has flags SIZEINT then '(n, ap) ← va_int ap; Ok (u64 n, ap)
  else if has flags QUADINT then va_quad ap
  else if has flags LONGINT then '(n, ap) ← va_int ap; Ok (u64 n, ap)
  else if has flags SHORTINT then '(n, ap) ← va_int ap; Ok (u64 (signed 16 n), ap)
  else '(n, ap) ← va_int ap; Ok (u64 n, ap).

Definition UARG (flags : Z) (ap : list Z) : res (Z * list Z) :=
  if has flags MAXINT then va_quad ap
  else if has flags PTRINT then va_word ap
  else if has flags SIZEINT then va_word ap
  else if has flags QUADINT then va_quad ap
  else if has flags LONGINT then va_word ap
  else if has flags SHORTINT then '(n, ap) ← va_int ap; Ok (u16 n, ap)
  else va_word ap.

(** ** Output *)

(** [k_tail] is [None] when [vp] is [NULL]. *)
Record kst : Type := Kst {
  k_mem : mem;
  k_out : list Z;
  k_sbuf : Z;
  k_ret : Z;
}.

Record sink : Type := Sink { tobuf : bool; tailp : option Z }.

Definition KPRINTF_PUTCHAR (o : sink) (c : Z) (st : kst) : res kst :=
  if tobuf o then
    if negb (k_sbuf st =? NULL)
       && match tailp o with None => true | Some t => k_sbuf st <? t end
    then
      m ← store (k_mem st) (k_sbuf st) c;
      Ok (Kst m (k_out st) (k_sbuf st + 1) (k_ret st))
    else Ok st
  else Ok (Kst (k_mem st) (k_out st ++ [u8 c]) (k_sbuf st) (k_ret st)).

(** [while (n-- > 0) KPRINTF_PUTCHAR(c);] *)
Fixpoint putn (o : sink) (n : nat) (c : Z) (st : kst) : res kst :=
  match n with
  | O => Ok st
  | S n' => st ← KPRINTF_PUTCHAR o c st; putn o n' c st
  end.

(** ** Flags, width and precision *)

Record conv : Type := Conv { c_flags : Z; c_width : Z; c_prec : Z; c_sign : Z }.

Definition set_flag (f : Z) (d : conv) : conv :=
  Conv (Z.lor (c_flags d) f) (c_width d) (c_prec d) (c_sign d).
Definition set_width (w : Z) (d : conv) : conv := Conv (c_flags d) w (c_prec d) (c_sign d).
Definition set_prec (p : Z) (d : conv) : conv := Conv (c_flags d) (c_width d) p (c_sign d).
Definition set_sign (s : Z) (d : conv) : conv := Conv (c_flags d) (c_width d) (c_prec d) s.

Fixpoint num_loop (k : nat) (m : mem) (ch fmt n : Z) : res (Z * Z * Z) :=
  match k with
  | O => NoFuel
  | S k' =>
      if is_digit ch then
        c ← load m fmt;
        num_loop k' m (schar c) (fmt + 1) (int (10 * n + to_digit ch))
      else Ok (n, ch, fmt)
  end.

(** The cases of the [switch] that go on with [rflag] or [reswitch]: the result
    is the conversion character, where the format goes on, and what was read. *)
Fixpoint reswitch (k : nat) (m : mem) (ch fmt : Z) (d : conv) (ap : list Z) :
    res (Z * Z * conv * list Z) :=
  match k with
  | O => NoFuel
  | S k' =>
      let rflag fmt d ap := c ← load m fmt; reswitch k' m (schar c) (fmt + 1) d ap in
      if ch =? 32 then rflag fmt (if c_sign d =? 0 then set_sign 32 d else d) ap
      else if ch =? 35 then rflag fmt (set_flag ALT d) ap
      else if ch =? 42 then
        '(width, ap) ← va_int ap;
        if 0 <=? width then rflag fmt (set_width width d) ap
        else rflag fmt (set_flag LADJUST (set_width (int (- width)) d)) ap
      else if ch =? 45 then rflag fmt (set_flag LADJUST d) ap
      else if ch =? 43 then rflag fmt (set_sign 43 d) ap
      else if ch =? 46 then
        c ← load m fmt;
        if schar c =? 42 then
          '(n, ap) ← va_int ap;
          rflag (fmt + 1) (set_prec (if n <? 0 then -1 else n) d) ap
        else
          '(n, ch, fmt) ← num_loop (fuel m) m (schar c) (fmt + 1) 0;
          reswitch k' m ch fmt (set_prec (if n <? 0 then -1 else n) d) ap
      else if ch =? 48 then rflag fmt (set_flag ZEROPAD d) ap
      else if (49 <=? ch) && (ch <=? 57) then
        '(n, ch, fmt) ← num_loop (fuel m) m ch fmt 0;
        reswitch k' m ch fmt (set_width n d) ap
      else if ch =? 104 then rflag fmt (set_flag SHORTINT d) ap
      else if ch =? 106 then rflag fmt (set_flag MAXINT d) ap
      else if ch =? 108 then
        c ← load m fmt;
        if schar c =? 108 then rflag (fmt + 1) (set_flag QUADINT d) ap
        else rflag fmt (set_flag LONGINT d) ap
      else if ch =? 113 then rflag fmt (set_flag QUADINT d) ap
      else if ch =? 116 then rflag fmt (set_flag PTRINT d) ap
      else if ch =? 122 then rflag fmt (set_flag SIZEINT d) ap
      else Ok (ch, fmt, d, ap)
  end.

(** ** Conversions *)

(** [cp] points into [bf] or a literal, or to memory. *)
Inductive text : Type :=
  | Buf (l : list Z)
  | At (p : Z).

Record field : Type := Field {
  f_text : text;
  f_size : Z;
  f_dprec : Z;
  f_sign : Z;
  f_flags : Z;
  f_ch : Z;
}.

(** [*--cp = c] *)
Definition push (c : Z) (bf : list Z) : res (list Z) :=
  if (length bf <? KPRINTF_BUFSIZE)%nat then Ok (u8 c :: bf) else Fault.

(** The three loops, which go on while [quad] has digits and [bf] has room. *)
Fixpoint shift_loop (room : nat) (digit_char : Z -> res Z) (bits quad : Z) (bf : list Z) :
    res (list Z) :=
  match room with
  | O => Fault
  | S room =>
      c ← digit_char (Z.land quad (2 ^ bits - 1));
      bf ← push c bf;
      let quad := Z.shiftr quad bits in
      if negb (quad =? 0) then shift_loop room digit_char bits quad bf else Ok bf
  end.

Fixpoint dec_loop (room : nat) (quad : Z) (bf : list Z) : res (list Z) :=
  match room with
  | O => Fault
  | S room =>
      if 10 <=? quad then
        bf ← push (to_char (quad mod 10)) bf;
        dec_loop room (quad / 10) bf
      else push (to_char quad) bf
  end.

Inductive base : Type :=
  | OCT
  | DEC
  | HEX (xdigs : list Z).

Definition digits (b : base) (flags quad : Z) : res (list Z) :=
  match b with
  | OCT =>
      bf ← shift_loop (S KPRINTF_BUFSIZE) (fun d => Ok (to_char d)) 3 quad [];
      c ← deref (bf !! 0%nat);
      if has flags ALT && negb (c =? 48) then push 48 bf else Ok bf
  | DEC => dec_loop (S KPRINTF_BUFSIZE) quad []
  | HEX xdigs => shift_loop (S KPRINTF_BUFSIZE) (fun d => deref (xdigs !! Z.to_nat d)) 4 quad []
  end.

(** From the label [number] on. *)
Definition number (b : base) (quad sign ch flags prec : Z) : res field :=
  let flags := if 0 <=? prec then Z.land flags (wnot 32 ZEROPAD) else flags in
  bf ← (if negb (quad =? 0) || negb (prec =? 0) then digits b flags quad else Ok []);
  Ok (Field (Buf bf) (Z.of_nat (length bf)) prec sign flags ch).

Definition null_text : list Z := [40; 110; 117; 108; 108; 41].

(** [case 's'] *)
Definition string_field (m : mem) (cp flags prec ch : Z) : res field :=
  let t := if cp =? NULL then Buf (null_text ++ [0]) else At cp in
  size ← (if 0 <=? prec then
            nul ← match t with
                  | Buf l => Ok (Z.of_nat ∘ fst <$> list_find (fun b => b = 0) (take (Z.to_nat prec) l))
                  | At cp =>
                      p ← memchr m cp 0 prec;
                      Ok (if negb (p =? NULL) then Some (p - cp) else None)
                  end;
            Ok match nul with
               | Some size => if prec <? size then prec else size
               | None => prec
               end
          else match t with
               | Buf l => Ok (Z.of_nat (length null_text))
               | At cp => strlen m cp
               end);
  Ok (Field t size 0 0 flags ch).

Inductive outcome : Type :=
  | Show (f : field)
  | Stored (m : mem)
  | Done.

(** [case 'n'] *)
Definition store_count (m : mem) (p flags ret : Z) : res mem :=
  if has flags MAXINT then store_bytes m p (le_bytes 8 ret)
  else if has flags PTRINT then store_bytes m p (le_bytes 4 ret)
  else if has flags SIZEINT then store_bytes m p (le_bytes 4 ret)
  else if has flags QUADINT then store_bytes m p (le_bytes 8 ret)
  else if has flags LONGINT then store_bytes m p (le_bytes 4 ret)
  else if has flags SHORTINT then store_bytes m p (le_bytes 2 ret)
  else store_bytes m p (le_bytes 4 ret).

Definition signed_number (ch flags prec sign : Z) (ap : list Z) : res (outcome * list Z) :=
  '(quad, ap) ← SARG flags ap;
  let '(quad, sign) := if s64 quad <? 0 then (u64 (- quad), 45) else (quad, sign) in
  f ← number DEC quad sign ch flags prec;
  Ok (Show f, ap).

Definition unsigned_number (b : base) (ch flags prec : Z) (ap : list Z) :
    res (outcome * list Z) :=
  '(quad, ap) ← UARG flags ap;
  f ← number b quad 0 ch flags prec;
  Ok (Show f, ap).

Definition hex_number (xdigs : list Z) (ch flags prec : Z) (ap : list Z) :
    res (outcome * list Z) :=
  '(quad, ap) ← UARG flags ap;
  let flags := if has flags ALT && negb (quad =? 0) then Z.lor flags HEXPREFIX else flags in
  f ← number (HEX xdigs) quad 0 ch flags prec;
  Ok (Show f, ap).

(** The other cases of the [switch]. *)
Definition conversion (m : mem) (ch ret : Z) (d : conv) (ap : list Z) : res (outcome * list Z) :=
  let flags := c_flags d in
  let prec := c_prec d in
  if ch =? 99 then
    '(c, ap) ← va_int ap; Ok (Show (Field (Buf [u8 c]) 1 0 0 flags ch), ap)
  else if ch =? 68 then signed_number ch (Z.lor flags LONGINT) prec (c_sign d) ap
  else if (ch =? 100) || (ch =? 105) then signed_number ch flags prec (c_sign d) ap
  else if ch =? 110 then
    '(p, ap) ← va_word ap; m ← store_count m p flags ret; Ok (Stored m, ap)
  else if ch =? 79 then unsigned_number OCT ch (Z.lor flags LONGINT) prec ap
  else if ch =? 111 then unsigned_number OCT ch flags prec ap
  else if ch =? 112 then
    '(quad, ap) ← va_word ap;
    f ← number (HEX hexdigits) quad 0 120 (Z.lor flags HEXPREFIX) prec;
    Ok (Show f, ap)
  else if ch =? 115 then
    '(cp, ap) ← va_word ap; f ← string_field m cp flags prec ch; Ok (Show f, ap)
  else if ch =? 85 then unsigned_number DEC ch (Z.lor flags LONGINT) prec ap
  else if ch =? 117 then unsigned_number DEC ch flags prec ap
  else if ch =? 88 then hex_number HEXDIGITS ch flags prec ap
  else if ch =? 120 then hex_number hexdigits ch flags prec ap
  else if ch =? 0 then Ok (Done, ap)
  else Ok (Show (Field (Buf [u8 ch]) 1 0 0 flags ch), ap).

(** ** Emitting a field *)

Definition read_text (m : mem) (t : text) (i : nat) : res Z :=
  match t with
  | Buf l => deref (l !! i)
  | At p => load m (p + Z.of_nat i)
  end.

(** [for (; size--; cp++) KPRINTF_PUTCHAR( *cp);] *)
Fixpoint put_text (o : sink) (t : text) (i size : nat) (st : kst) : res kst :=
  match size with
  | O => Ok st
  | S size =>
      c ← read_text (k_mem st) t i;
      st ← KPRINTF_PUTCHAR o c st;
      put_text o t (S i) size st
  end.

Definition add_ret (n : Z) (st : kst) : kst :=
  Kst (k_mem st) (k_out st) (k_sbuf st) (int (k_ret st + n)).

Definition show (o : sink) (f : field) (width : Z) (st : kst) : res kst :=
  let flags := f_flags f in
  let realsz := if f_size f <? f_dprec f then f_dprec f else f_size f in
  let realsz :=
    if negb (f_sign f =? 0) then int (realsz + 1)
    else if has flags HEXPREFIX then int (realsz + 2) else realsz in
  let st := add_ret (if realsz <? width then width else realsz) st in
  st ← (if Z.land flags (Z.lor LADJUST ZEROPAD) =? 0
        then putn o (Z.to_nat (int (width - realsz))) 32 st else Ok st);
  st ← (if negb (f_sign f =? 0) then KPRINTF_PUTCHAR o (f_sign f) st
        else if has flags HEXPREFIX
        then st ← KPRINTF_PUTCHAR o 48 st; KPRINTF_PUTCHAR o (f_ch f) st
        else Ok st);
  st ← (if Z.land flags (Z.lor LADJUST ZEROPAD) =? ZEROPAD
        then putn o (Z.to_nat (int (width - realsz))) 48 st else Ok st);
  st ← putn o (Z.to_nat (int (f_dprec f - f_size f))) 48 st;
  st ← put_text o (f_text f) 0 (Z.to_nat (f_size f)) st;
  if has flags LADJUST then putn o (Z.to_nat (int (width - realsz))) 32 st else Ok st.

(** ** The interpreter *)

Definition no_flags : conv := Conv 0 0 (-1) 0.

Fixpoint format_loop (k : nat) (o : sink) (fmt : Z) (ap : list Z) (st : kst) : res kst :=
  match k with
  | O => NoFuel
  | S k' =>
      c ← load (k_mem st) fmt;
      if c =? 0 then Ok st
      else if negb (c =? 37) then
        st ← KPRINTF_PUTCHAR o c
               (Kst (k_mem st) (k_out st) (k_sbuf st) (int (k_ret st + 1)));
        format_loop k' o (fmt + 1) ap st
      else
        c ← load (k_mem st) (fmt + 1);
        '(ch, fmt, d, ap) ← reswitch (fuel (k_mem st)) (k_mem st) (schar c) (fmt + 2) no_flags ap;
        '(r, ap) ← conversion (k_mem st) ch (k_ret st) d ap;
        match r with
        | Show f => st ← show o f (c_width d) st; format_loop k' o fmt ap st
        | Stored m => format_loop k' o fmt ap (Kst m (k_out st) (k_sbuf st) (k_ret st))
        | Done => Ok st
        end
  end.

Definition kprintf (m : mem) (fmt0 : Z) (o : sink) (sbuf : Z) (ap : list Z) : res kst :=
  format_loop (fuel m) o fmt0 ap (Kst m [] sbuf 0).

(** The final memory, the console output and the result. *)
Definition vprintf (m : mem) (fmt : Z) (ap : list Z) : res (mem * list Z * Z) :=
  st ← kprintf m fmt (Sink false None) NULL ap;
  Ok (k_mem st, k_out st, k_ret st).

Definition printf (m : mem) (fmt : Z) (ap : list Z) : res (mem * list Z * Z) := vprintf m fmt ap.

Definition vsnprintf (m : mem) (bf size fmt : Z) (ap : list Z) : res (mem * Z) :=
  st ← kprintf m fmt (Sink true (Some (bf + size))) bf ap;
  let retval := k_ret st in
  m ← (if negb (bf =? NULL) && (0 <? size) then
         if size <=? u32 retval then store (k_mem st) (bf + (size - 1)) 0
         else store (k_mem st) (bf + retval) 0
       else Ok (k_mem st));
  Ok (m, retval).

Definition snprintf (m : mem) (bf size fmt : Z) (ap : list Z) : res (mem * Z) :=
  vsnprintf m bf size fmt ap.

(** ** Reference

    A format is a list of pieces, each with the arguments it consumes. *)

Inductive flagc : Type :=
  | Space
  | Alt
  | Left
  | Plus
  | Zero.

#[export] Instance flagc_eq_dec : EqDecision flagc.
Proof. solve_decision. Defined.

(** A width or precision: absent, in the format, or [*]. *)
Inductive number_spec : Type :=
  | Absent
  | Given (n : Z)
  | Star (z : Z).

Inductive length_mod : Type :=
  | Lint
  | Lh
  | Ll
  | Lll
  | Lq
  | Lj
  | Lt
  | Lz.

Inductive argument : Type :=
  | Signed (i : bool) (l : length_mod) (v : Z)
  | Octal (l : length_mod) (v : Z)
  | Unsigned (l : length_mod) (v : Z)
  | Hex (upper : bool) (l : length_mod) (v : Z)
  | Pointer (v : Z)
  | Char (c : Z)
  | Str (p : Z) (s : list Z)
  | NullStr
  | Percent.

Inductive piece : Type :=
  | Lit (l : list Z)
  | Directive (fl : list flagc) (w : number_spec) (p : number_spec) (a : argument).

(** The digits of a number, most significant first. *)
Fixpoint to_digits (k : nat) (b n : Z) (acc : list Z) : list Z :=
  match k with
  | O => acc
  | S k => if n <? b then n :: acc else to_digits k b (n / b) (n mod b :: acc)
  end.
Definition numeral (b n : Z) : list Z := to_digits (S (Z.to_nat (Z.log2 n))) b n [].

Definition digit_char (upper : bool) (d : Z) : Z :=
  if d <? 10 then 48 + d else if upper then 55 + d else 87 + d.
Definition decimal (n : Z) : list Z := digit_char false <$> numeral 10 n.

(** *** What a piece looks like in the format *)

Definition flag_char (f : flagc) : Z :=
  match f with Space => 32 | Alt => 35 | Left => 45 | Plus => 43 | Zero => 48 end.

Definition width_text (w : number_spec) : list Z :=
  match w with Absent => [] | Given n => decimal n | Star _ => [42] end.
Definition prec_text (p : number_spec) : list Z :=
  match p with Absent => [] | Given n => 46 :: decimal n | Star _ => [46; 42] end.
Definition length_text (l : length_mod) : list Z :=
  match l with
  | Lint => [] | Lh => [104] | Ll => [108] | Lll => [108; 108]
  | Lq => [113] | Lj => [106] | Lt => [116] | Lz => [122]
  end.
Definition arg_length (a : argument) : length_mod :=
  match a with
  | Signed _ l _ | Octal l _ | Unsigned l _ | Hex _ l _ => l
  | _ => Lint
  end.
Definition arg_char (a : argument) : Z :=
  match a with
  | Signed i _ _ => if i then 105 else 100
  | Octal _ _ => 111
  | Unsigned _ _ => 117
  | Hex upper _ _ => if upper then 88 else 120
  | Pointer _ => 112
  | Char _ => 99
  | Str _ _ | NullStr => 115
  | Percent => 37
  end.

Definition piece_text (x : piece) : list Z :=
  match x with
  | Lit l => l
  | Directive fl w p a =>
      37 :: (flag_char <$> fl) ++ width_text w ++ prec_text p
         ++ length_text (arg_length a) ++ [arg_char a]
  end.

(** *** What it takes from the argument list *)

Definition bits_of (l : length_mod) : Z :=
  match l with Lh => 16 | Lll | Lq | Lj => 64 | _ => 32 end.
Definition value_words (l : length_mod) (v : Z) : list Z :=
  if bits_of l =? 64 then [u32 v; u32 (Z.shiftr v 32)] else [u32 v].
Definition star_word (n : number_spec) : list Z :=
  match n with Star z => [u32 z] | _ => [] end.
Definition arg_words (a : argument) : list Z :=
  match a with
  | Signed _ l v | Octal l v | Unsigned l v | Hex _ l v => value_words l v
  | Pointer v => [v]
  | Char c => [c]
  | Str p _ => [p]
  | NullStr => [0]
  | Percent => []
  end.
Definition piece_words (x : piece) : list Z :=
  match x with
  | Lit _ => []
  | Directive _ w p a => star_word w ++ star_word p ++ arg_words a
  end.

(** *** What it prints *)

Definition layout (left zero : bool) (w : Z) (prefix body : list Z) : list Z :=
  let pad := Z.to_nat (w - Z.of_nat (length prefix + length body)) in
  if left then prefix ++ body ++ replicate pad 32
  else if zero then prefix ++ replicate pad 48 ++ body
  else replicate pad 32 ++ prefix ++ body.

Definition width_of (w : number_spec) : Z :=
  match w with Absent => 0 | Given n => n | Star z => Z.abs z end.
Definition negative (w : number_spec) : bool :=
  match w with Star z => z <? 0 | _ => false end.
Definition prec_of (p : number_spec) : option Z :=
  match p with
  | Absent => None
  | Given n => Some n
  | Star z => if z <? 0 then None else Some z
  end.

Definition flag_in (f : flagc) (fl : list flagc) : bool := bool_decide (f ∈ fl).

(** The digits of a number, none for zero with precision zero, and the zeros
    that the precision asks for. *)
Definition number_digits (upper : bool) (b n : Z) (prec : option Z) : list Z :=
  if (n =? 0) && bool_decide (prec = Some 0) then [] else digit_char upper <$> numeral b n.
Definition zeros (prec : option Z) (ds : list Z) : list Z :=
  replicate (Z.to_nat (default 0 prec - Z.of_nat (length ds))) 48 ++ ds.

Definition sign_text (fl : list flagc) (v : Z) : list Z :=
  if v <? 0 then [45]
  else if flag_in Plus fl then [43] else if flag_in Space fl then [32] else [].

(** The leading 0 of an octal number in alternate form. *)
Definition alt_octal (fl : list flagc) (ds : list Z) : list Z :=
  match ds with
  | c :: _ => if flag_in Alt fl && negb (c =? 48) then 48 :: ds else ds
  | [] => []
  end.

Definition argument_text (fl : list flagc) (prec : option Z) (a : argument) : list Z * list Z :=
  match a with
  | Signed _ _ v => (sign_text fl v, zeros prec (number_digits false 10 (Z.abs v) prec))
  | Octal _ v => ([], zeros prec (alt_octal fl (number_digits false 8 v prec)))
  | Unsigned _ v => ([], zeros prec (number_digits false 10 v prec))
  | Hex upper _ v =>
      (if flag_in Alt fl && negb (v =? 0) then [48; if upper then 88 else 120] else [],
       zeros prec (number_digits upper 16 v prec))
  | Pointer v => ([48; 120], zeros prec (number_digits false 16 v prec))
  | Char c => ([], [u8 c])
  | Str _ s => ([], match prec with Some n => take (Z.to_nat n) s | None => s end)
  | NullStr => ([], match prec with Some n => take (Z.to_nat n) null_text | None => null_text end)
  | Percent => ([], [37])
  end.

(** A precision turns the flag [0] off in the numeric conversions. *)
Definition numeric (a : argument) : bool :=
  match a with
  | Char _ | Str _ _ | NullStr | Percent => false
  | _ => true
  end.

Definition piece_output (x : piece) : list Z :=
  match x with
  | Lit l => l
  | Directive fl w p a =>
      let prec := prec_of p in
      let '(prefix, body) := argument_text fl prec a in
      let zero := flag_in Zero fl && negb (numeric a && bool_decide (is_Some prec)) in
      layout (flag_in Left fl || negative w) zero (width_of w) prefix body
  end.

Definition format_text (ps : list piece) : list Z := concat (piece_text <$> ps).
Definition format_words (ps : list piece) : list Z := concat (piece_words <$> ps).
Definition format_output (ps : list piece) : list Z := concat (piece_output <$> ps).

(** ** Termination *)

(** The mapped addresses from [p] on. *)
Definition room (m : mem) (p : Z) : nat := size (filter (fun a => p <= a) (dom m)).

Definition total {A} (r : res A) : Prop := r <> NoFuel.

Lemma total_bind {A B} (r : res A) (f : A -> res B) :
  total r -> (forall a, r = Ok a -> total (f a)) -> total (r ≫= f).
Proof. unfold total. destruct r; cbn; auto. Qed.

Lemma total_ok {A} (a : A) : total (Ok a).
Proof. done. Qed.

Lemma total_deref {A} (o : option A) : total (deref o).
Proof. by destruct o. Qed.

Lemma load_total m p : total (load m p).
Proof. apply total_deref. Qed.

Lemma store_total m p b : total (store m p b).
Proof. unfold store. by destruct (m !! p). Qed.

Lemma store_bytes_total l : forall m p, total (store_bytes m p l).
Proof.
  induction l as [|b l IH]; intros m p; cbn [store_bytes]; [done|].
  apply total_bind; [apply store_total|auto].
Qed.

#[local] Hint Resolve @total_ok @total_deref load_total store_total store_bytes_total : total.

Lemma load_room m p b : load m p = Ok b -> (room m (p + 1) < room m p)%nat.
Proof.
  unfold load, room. intros H. apply subset_size. apply deref_ok in H. split.
  - intros a. rewrite !elem_of_filter. intros [? ?]. split; [lia|done].
  - intros Hs. assert (p ∈ filter (fun a => p <= a) (dom m)) as Hp.
    { rewrite elem_of_filter, elem_of_dom, H. split; [lia|done]. }
    apply Hs, elem_of_filter in Hp. lia.
Qed.

Lemma room_mono m p q : p <= q -> (room m q <= room m p)%nat.
Proof.
  intros H. apply subseteq_size. intros a. rewrite !elem_of_filter. intros [? ?]. split; [lia|done].
Qed.

Lemma room_fuel m p : (room m p < fuel m)%nat.
Proof.
  unfold room, fuel. rewrite <-(size_dom (D := gset Z)). apply Nat.lt_succ_r, subseteq_size.
  intros a. rewrite elem_of_filter. by intros [_ ?].
Qed.

Lemma store_dom m p b m' : store m p b = Ok m' -> dom m' = dom m.
Proof.
  unfold store. destruct (m !! p) eqn:E; [|done]. intros [= <-]. apply dom_insert_lookup_L. eauto.
Qed.

Lemma store_bytes_dom l : forall m p m', store_bytes m p l = Ok m' -> dom m' = dom m.
Proof.
  induction l as [|b l IH]; intros m p m'; cbn [store_bytes]; [by intros [= <-]|].
  intros (m1 & H1 & H2)%res_bind_ok. apply store_dom in H1. apply IH in H2. congruence.
Qed.

Lemma dom_room m m' p : dom m' = dom m -> room m' p = room m p.
Proof. unfold room. by intros ->. Qed.

Lemma dom_fuel m m' : dom m' = dom m -> fuel m' = fuel m.
Proof. unfold fuel. rewrite <-!(size_dom (D := gset Z)). by intros ->. Qed.

(** *** Output *)

Lemma putchar_total o c st : total (KPRINTF_PUTCHAR o c st).
Proof.
  unfold KPRINTF_PUTCHAR. destruct (tobuf o); [|done]. destruct (_ && _); [|done].
  apply total_bind; auto with total.
Qed.

(** [keeps st st']: output does not change which addresses are mapped. *)
Definition keeps (st st' : kst) : Prop := dom (k_mem st') = dom (k_mem st).

Lemma putchar_keeps o c st st' : KPRINTF_PUTCHAR o c st = Ok st' -> keeps st st'.
Proof.
  unfold KPRINTF_PUTCHAR, keeps. destruct (tobuf o); [|by intros [= <-]].
  destruct (_ && _); [|by intros [= <-]]. intros (m & H & [= <-])%res_bind_ok.
  by apply store_dom in H.
Qed.

Lemma putn_total o n c : forall st, total (putn o n c st).
Proof.
  induction n as [|n IH]; intros st; cbn [putn]; [done|].
  apply total_bind; [apply putchar_total|auto].
Qed.

Lemma putn_keeps o n c : forall st st', putn o n c st = Ok st' -> keeps st st'.
Proof.
  induction n as [|n IH]; intros st st'; cbn [putn]; [by intros [= <-]|].
  intros (s & H1 & H2)%res_bind_ok. apply putchar_keeps in H1. apply IH in H2.
  unfold keeps in *. congruence.
Qed.

Lemma put_text_total o t n : forall i st, total (put_text o t i n st).
Proof.
  induction n as [|n IH]; intros i st; cbn [put_text]; [done|].
  apply total_bind; [unfold read_text; destruct t; auto with total|]. intros c _.
  apply total_bind; [apply putchar_total|auto].
Qed.

Lemma put_text_keeps o t n : forall i st st', put_text o t i n st = Ok st' -> keeps st st'.
Proof.
  induction n as [|n IH]; intros i st st'; cbn [put_text]; [by intros [= <-]|].
  intros (c & _ & (s & H1 & H2)%res_bind_ok)%res_bind_ok. apply putchar_keeps in H1.
  apply IH in H2. unfold keeps in *. congruence.
Qed.

(** [totals] closes goals about computations whose parts do not run out of
    fuel. *)
Ltac totals :=
  repeat match goal with
  | |- total (_ ≫= _) => apply total_bind; [|intros ? ?]
  | |- total (if ?b then _ else _) => destruct b eqn:?
  | |- total (match ?x with _ => _ end) => destruct x
  | |- total _ => first [discriminate | solve [auto with total]]
  end.

#[local] Hint Resolve putchar_total putn_total put_text_total : total.

Lemma show_total o f w st : total (show o f w st).
Proof. unfold show. cbv zeta. totals. Qed.

Ltac keep_steps :=
  repeat match goal with
  | H : _ ≫= _ = Ok _ |- _ => apply res_bind_ok in H as (? & ? & ?)
  | H : (if ?b then _ else _) = Ok _ |- _ => destruct b
  | H : Ok _ = Ok _ |- _ => injection H as <-
  | H : putn _ _ _ _ = Ok _ |- _ => apply putn_keeps in H
  | H : put_text _ _ _ _ _ = Ok _ |- _ => apply put_text_keeps in H
  | H : KPRINTF_PUTCHAR _ _ _ = Ok _ |- _ => apply putchar_keeps in H
  end.

Lemma show_keeps o f w st st' : show o f w st = Ok st' -> keeps st st'.
Proof.
  unfold show. cbv zeta. intros H. keep_steps; unfold keeps, add_ret in *; cbn [k_mem] in *;
    congruence.
Qed.

(** *** The scan of a directive *)

Lemma num_loop_total m : forall k ch fmt n, (room m fmt < k)%nat -> total (num_loop k m ch fmt n).
Proof.
  induction k as [|k IH]; intros ch fmt n Hk; [lia|]. cbn [num_loop].
  destruct (is_digit ch); [|done]. apply total_bind; [auto with total|]. intros c Hc.
  apply IH. apply load_room in Hc. lia.
Qed.

(** The scan goes forwards, past a digit if there is one. *)
Lemma num_loop_forward m : forall k ch fmt n n' ch' fmt',
  num_loop k m ch fmt n = Ok (n', ch', fmt') ->
  fmt <= fmt' /\ (is_digit ch = true -> (room m fmt' < room m fmt)%nat).
Proof.
  induction k as [|k IH]; intros ch fmt n n' ch' fmt'; cbn [num_loop]; [done|].
  destruct (is_digit ch) eqn:E; [|intros [= -> -> ->]; split; [lia|done]].
  intros (c & Hc & H)%res_bind_ok. apply load_room in Hc. apply IH in H as [H _].
  split; [lia|]. intros _. pose proof (room_mono m _ _ H). lia.
Qed.

Lemma va_int_total ap : total (va_int ap).
Proof. by destruct ap. Qed.
Lemma va_word_total ap : total (va_word ap).
Proof. by destruct ap. Qed.
Lemma va_quad_total ap : total (va_quad ap).
Proof. by destruct ap as [|? [|? ?]]. Qed.
#[local] Hint Resolve va_int_total va_word_total va_quad_total : total.

(** Every case that goes on has read the byte at [fmt]. *)
Lemma reswitch_total m : forall k ch fmt d ap, (room m fmt < k)%nat ->
  total (reswitch k m ch fmt d ap).
Proof.
  induction k as [|k IH]; intros ch fmt d ap Hk; [lia|]. cbn [reswitch]. cbv zeta.
  assert (forall q d ap, fmt <= q ->
    total (c ← load m q; reswitch k m (schar c) (q + 1) d ap)) as Hr.
  { intros q d' ap' Hq. apply total_bind; [auto with total|]. intros c Hc. apply IH.
    apply load_room in Hc. pose proof (room_mono m _ _ Hq). lia. }
  repeat match goal with
  | |- total (if ?b then _ else _) => destruct b eqn:?
  | |- total (c ← load _ _; reswitch _ _ _ _ _ _) => apply Hr; lia
  | |- total (_ ≫= _) => apply total_bind; [auto with total|intros ? ?]
  | x : (_ * _)%type |- _ => destruct x
  | |- total (Ok _) => done
  end.
  - apply num_loop_total, room_fuel.
  - match goal with H : num_loop _ _ _ _ _ = _ |- _ => apply num_loop_forward in H as [Hf _] end.
    apply IH. match goal with H : load _ _ = _ |- _ => apply load_room in H end.
    pose proof (room_mono m _ _ Hf). lia.
  - apply num_loop_total, room_fuel.
  - match goal with H : num_loop _ _ _ _ _ = _ |- _ => apply num_loop_forward in H as [_ Hf] end.
    apply IH. enough (is_digit ch = true) as E by (specialize (Hf E); lia).
    unfold is_digit, to_digit. zbool. rewrite wrap_id by (unfold uint; lia).
    apply Z.leb_le. lia.
Qed.

Lemma reswitch_forward m : forall k ch fmt d ap ch' fmt' d' ap',
  reswitch k m ch fmt d ap = Ok (ch', fmt', d', ap') -> fmt <= fmt'.
Proof.
  induction k as [|k IH]; intros ch fmt d ap ch' fmt' d' ap'; cbn [reswitch]; [done|]. cbv zeta.
  assert (forall q d ap, fmt <= q ->
    (c ← load m q; reswitch k m (schar c) (q + 1) d ap) = Ok (ch', fmt', d', ap') ->
    fmt <= fmt') as Hr.
  { intros q d1 ap1 Hq (c & _ & H)%res_bind_ok. apply IH in H. lia. }
  intros H. repeat match goal with
  | H : (if ?b then _ else _) = Ok _ |- _ => destruct b
  | H : (c ← load _ _; reswitch _ _ _ _ _ _) = Ok _ |- _ => apply Hr in H; [exact H|lia]
  | H : _ ≫= _ = Ok _ |- _ => apply res_bind_ok in H as (? & ? & ?)
  | x : (_ * _)%type |- _ => destruct x
  | H : num_loop _ _ _ _ _ = Ok _ |- _ => apply num_loop_forward in H as [? _]
  | H : reswitch k _ _ _ _ _ = Ok _ |- _ => apply IH in H; lia
  | H : Ok _ = Ok _ |- _ => injection H; intros; lia
  end.
Qed.

(** *** Conversions *)

Lemma push_total c bf : total (push c bf).
Proof. unfold push. by destruct (_ <? _)%nat. Qed.
#[local] Hint Resolve push_total : total.

Lemma shift_loop_total n dc bits : (forall d, total (dc d)) ->
  forall quad bf, total (shift_loop n dc bits quad bf).
Proof.
  intros Hd. induction n as [|n IH]; intros quad bf; cbn [shift_loop]; [done|]. cbv zeta.
  apply total_bind; [apply Hd|intros ? _]. apply total_bind; [auto with total|intros ? _].
  destruct (negb _); auto with total.
Qed.

Lemma dec_loop_total n : forall quad bf, total (dec_loop n quad bf).
Proof.
  induction n as [|n IH]; intros quad bf; cbn [dec_loop]; [done|].
  destruct (10 <=? quad); [|auto with total]. apply total_bind; [auto with total|auto].
Qed.

Lemma digits_total b flags quad : total (digits b flags quad).
Proof.
  destruct b; cbn [digits].
  - apply total_bind; [by apply shift_loop_total|intros ? _]. totals.
  - apply dec_loop_total.
  - apply shift_loop_total. auto with total.
Qed.
#[local] Hint Resolve digits_total : total.

Lemma number_total b quad sign ch flags prec : total (number b quad sign ch flags prec).
Proof. unfold number. cbv zeta. totals. Qed.
#[local] Hint Resolve number_total : total.

Lemma SARG_total flags ap : total (SARG flags ap).
Proof. unfold SARG. totals. Qed.
Lemma UARG_total flags ap : total (UARG flags ap).
Proof. unfold UARG. totals. Qed.
#[local] Hint Resolve SARG_total UARG_total : total.

Lemma strlen_loop_total m : forall k p, (room m p < k)%nat -> total (strlen_loop k m p).
Proof.
  induction k as [|k IH]; intros p Hk; [lia|]. cbn [strlen_loop].
  apply total_bind; [auto with total|]. intros c Hc. destruct (c =? 0); [done|].
  apply IH. apply load_room in Hc. lia.
Qed.

Lemma strlen_total m p : total (strlen m p).
Proof.
  unfold strlen. apply total_bind; [apply strlen_loop_total, room_fuel|done].
Qed.

Lemma memchr_loop_total m c : forall n p, total (memchr_loop m p c n).
Proof.
  induction n as [|n IH]; intros p; cbn [memchr_loop]; [done|].
  apply total_bind; [auto with total|]. intros b _. destruct (_ =? _); auto with total.
Qed.

Lemma memchr_total m p c n : total (memchr m p c n).
Proof. unfold memchr. apply memchr_loop_total. Qed.
#[local] Hint Resolve strlen_total memchr_total : total.

Lemma string_field_total m cp flags prec ch : total (string_field m cp flags prec ch).
Proof.
  unfold string_field. cbv zeta. apply total_bind; [|done].
  destruct (cp =? NULL); totals.
Qed.
#[local] Hint Resolve string_field_total : total.

Lemma store_count_total m p flags ret : total (store_count m p flags ret).
Proof. unfold store_count. totals. Qed.
#[local] Hint Resolve store_count_total : total.

Lemma store_count_dom m p flags ret m' : store_count m p flags ret = Ok m' -> dom m' = dom m.
Proof.
  unfold store_count. intros H.
  repeat match goal with H : (if ?b then _ else _) = Ok _ |- _ => destruct b end;
    by apply store_bytes_dom in H.
Qed.

Lemma conversion_total m ch ret d ap : total (conversion m ch ret d ap).
Proof.
  unfold conversion, signed_number, unsigned_number, hex_number. cbv zeta. totals.
Qed.

Lemma conversion_dom m ch ret d ap m' ap' :
  conversion m ch ret d ap = Ok (Stored m', ap') -> dom m' = dom m.
Proof.
  unfold conversion, signed_number, unsigned_number, hex_number. cbv zeta. intros H.
  repeat match goal with
  | H : (if ?b then _ else _) = Ok _ |- _ => destruct b
  | H : (let '(_, _) := if ?b then _ else _ in _) = Ok _ |- _ => destruct b
  | H : _ ≫= _ = Ok _ |- _ => apply res_bind_ok in H as (? & ? & ?)
  | x : (_ * _)%type |- _ => destruct x
  | H : Ok _ = Ok _ |- _ => injection H as ?; subst; try discriminate
  end; try discriminate; by eapply store_count_dom.
Qed.

(** *** The interpreter *)

Lemma format_loop_total o : forall k fmt ap st, (room (k_mem st) fmt < k)%nat ->
  total (format_loop k o fmt ap st).
Proof.
  induction k as [|k IH]; intros fmt ap st Hk; [lia|]. cbn [format_loop].
  apply total_bind; [auto with total|]. intros c Hc. apply load_room in Hc.
  assert (forall q st' ap, keeps st st' -> fmt + 1 <= q -> total (format_loop k o q ap st'))
    as Hgo.
  { intros q st' ap' Hst Hq. apply IH. rewrite (dom_room _ _ q Hst).
    pose proof (room_mono (k_mem st) _ _ Hq). lia. }
  destruct (c =? 0); [done|]. destruct (negb (c =? 37)).
  { apply total_bind; [auto with total|]. intros st' H. apply Hgo; [|lia].
    apply putchar_keeps in H. exact H. }
  apply total_bind; [auto with total|]. intros c2 _.
  apply total_bind; [apply reswitch_total, room_fuel|]. intros [[[ch q] d] ap'] Hsw.
  apply reswitch_forward in Hsw.
  apply total_bind; [apply conversion_total|]. intros [[f|m|] ap2] Hc2; [| |done].
  - apply total_bind; [apply show_total|]. intros st' H. apply Hgo; [|lia]. by apply show_keeps in H.
  - apply Hgo; [|lia]. by apply conversion_dom in Hc2.
Qed.

Lemma kprintf_total m fmt o sbuf ap : total (kprintf m fmt o sbuf ap).
Proof. apply format_loop_total, room_fuel. Qed.

(** C22: formatted output always comes to an end: for every memory, format,
    buffer and argument list, even when the output overwrites the format while
    it is read, [printf] and [snprintf] return or fault after at most as many
    rounds as there are mapped addresses. *)
Theorem printf_terminates m fmt bf size ap :
  printf m fmt ap <> NoFuel /\ snprintf m bf size fmt ap <> NoFuel.
Proof.
  unfold printf, vprintf, snprintf, vsnprintf. split; fold (@total (mem * list Z * Z)).
  - apply total_bind; [apply kprintf_total|done].
  - apply (total_bind (A := kst) (B := mem * Z)); [apply kprintf_total|]. intros st _.
    apply total_bind; [|done]. totals.
Qed.
