(* ===== verification/Format.v ===== *)
(** * Formatted output is what the format says

    The correctness of Printf.v against its reference: for every list of pieces,
    the interpreter prints the concatenation of what the pieces print, to the
    console or, cut to its size, to a buffer. *)

From S2P Require Import Prelude Words CMem CBytes Ctype CString CSearch Strtol Printf.
From Stdlib Require Import ZArith Lia.
From stdpp Require Import prelude gmap list fin_map_dom.

Open Scope Z_scope.

(** ** Numerals *)

Definition in_base (b : Z) (l : list Z) : Prop := Forall (fun d => 0 <= d < b) l.
Definition value (b : Z) (l : list Z) : Z := foldl (fun v d => v * b + d) 0 l.

Lemma to_digits_acc k b : forall n acc, to_digits k b n acc = to_digits k b n [] ++ acc.
Proof.
  induction k as [|k IH]; intros n acc; cbn [to_digits]; [done|].
  destruct (n <? b); [done|]. rewrite (IH _ (n mod b :: acc)), (IH _ [n mod b]).
  by rewrite <-app_assoc.
Qed.

Lemma div_pow b j n : 0 < b -> 0 <= n < b ^ Z.of_nat (S j) -> 0 <= n / b < b ^ Z.of_nat j.
Proof.
  intros Hb Hn. rewrite Nat2Z.inj_succ, Z.pow_succ_r in Hn by lia. split.
  - apply Z.div_pos; lia.
  - apply Z.div_lt_upper_bound; lia.
Qed.

Lemma to_digits_fuel b : 2 <= b -> forall j k n acc, (1 <= j <= k)%nat ->
  0 <= n < b ^ Z.of_nat j -> to_digits k b n acc = to_digits j b n acc.
Proof.
  intros Hb. induction j as [|j IH]; intros [|k] n acc Hj Hn; try lia. cbn [to_digits].
  destruct (n <? b) eqn:E; [done|]. zbool. apply div_pow in Hn; [|lia].
  destruct j as [|j].
  { exfalso. rewrite Z.pow_0_r in Hn. assert (1 <= n / b) by (apply Z.div_le_lower_bound; lia). lia. }
  apply IH; [lia|done].
Qed.

Lemma numeral_eq b n j : 2 <= b -> (1 <= j)%nat -> 0 <= n < b ^ Z.of_nat j ->
  numeral b n = to_digits j b n [].
Proof.
  intros Hb Hj Hn. unfold numeral. set (k := S (Z.to_nat (Z.log2 n))).
  assert (0 <= n < b ^ Z.of_nat k) as Hk.
  { split; [lia|]. apply Z.lt_le_trans with (2 ^ Z.of_nat k).
    - unfold k. rewrite Nat2Z.inj_succ, Z2Nat.id by apply Z.log2_nonneg.
      destruct (Z.eq_dec n 0) as [->|]; [cbn; lia|]. apply Z.log2_spec. lia.
    - apply Z.pow_le_mono_l. lia. }
  destruct (Nat.le_ge_cases j k).
  - apply to_digits_fuel; [done|lia|done].
  - symmetry. apply to_digits_fuel; [done|unfold k in *; lia|done].
Qed.

Lemma to_digits_spec b : 2 <= b -> forall j n, (1 <= j)%nat -> 0 <= n < b ^ Z.of_nat j ->
  in_base b (to_digits j b n []) /\ value b (to_digits j b n []) = n
  /\ (1 <= length (to_digits j b n []) <= j)%nat.
Proof.
  intros Hb. induction j as [|j IH]; intros n Hj Hn; [lia|]. cbn [to_digits].
  destruct (n <? b) eqn:E; zbool.
  { unfold value. cbn. split_and!; [repeat constructor; lia|lia|lia|lia]. }
  apply div_pow in Hn; [|lia].
  assert (1 <= n / b) by (apply Z.div_le_lower_bound; lia).
  destruct j as [|j]; [exfalso; rewrite Z.pow_0_r in Hn; lia|].
  destruct (IH (n / b)) as (H1 & H2 & H3); [lia|done|].
  rewrite to_digits_acc. split_and!.
  - apply Forall_app_2; [done|]. constructor; [apply Z.mod_pos_bound; lia|constructor].
  - unfold value in *. rewrite foldl_app, H2. cbn. pose proof (Z.div_mod n b). lia.
  - rewrite length_app. cbn [length]. lia.
  - rewrite length_app. cbn [length]. lia.
Qed.

Lemma pow_self b n : 2 <= b -> 0 <= n -> 0 <= n < b ^ Z.of_nat (S (Z.to_nat n)).
Proof.
  intros Hb Hn. split; [done|]. rewrite Nat2Z.inj_succ, Z2Nat.id by done.
  apply Z.lt_le_trans with (b ^ n); [apply Z.pow_gt_lin_r; lia|].
  apply Z.pow_le_mono_r; lia.
Qed.

Lemma numeral_spec b n : 2 <= b -> 0 <= n ->
  in_base b (numeral b n) /\ value b (numeral b n) = n /\ (1 <= length (numeral b n))%nat.
Proof.
  intros Hb Hn. rewrite (numeral_eq b n (S (Z.to_nat n))) by (done || lia || by apply pow_self).
  destruct (to_digits_spec b Hb (S (Z.to_nat n)) n) as (? & ? & ?);
    [lia|by apply pow_self|]. split_and!; (done || lia).
Qed.

(** No leading zeros. *)
Lemma numeral_head b n d l : 2 <= b -> 0 < n -> numeral b n = d :: l -> d <> 0.
Proof.
  intros Hb Hn. rewrite (numeral_eq b n (S (Z.to_nat n))) by (done || lia || (apply pow_self; lia)).
  pose proof (pow_self b n Hb ltac:(lia)) as Hp. revert Hp. generalize (S (Z.to_nat n)) as j.
  intros j. revert n Hn d l. induction j as [|j IH]; intros n Hn d l Hp; cbn [to_digits]; [done|].
  destruct (n <? b) eqn:E; zbool; [intros [= -> _]; lia|].
  apply div_pow in Hp; [|lia]. assert (1 <= n / b) by (apply Z.div_le_lower_bound; lia).
  rewrite to_digits_acc. destruct (to_digits j b (n / b) []) as [|x t] eqn:Et.
  - destruct j as [|j]; [exfalso; rewrite Z.pow_0_r in Hp; lia|].
    destruct (to_digits_spec b Hb (S j) (n / b)) as (_ & _ & Hl); [lia|done|].
    rewrite Et in Hl. cbn in Hl. lia.
  - intros [= -> _]. by apply (IH (n / b) ltac:(lia) d t).
Qed.

(** ** The digit loops *)

Lemma digit_char_byte up d : 0 <= d < 36 -> u8 (digit_char up d) = digit_char up d.
Proof.
  intros Hd. apply wrap_id. unfold uint, digit_char.
  destruct (d <? 10) eqn:E; [|destruct up]; zbool; lia.
Qed.

Lemma push_ok c bf : (length bf < KPRINTF_BUFSIZE)%nat -> push c bf = Ok (u8 c :: bf).
Proof. intros H. unfold push. by rewrite (proj2 (Nat.ltb_lt _ _) H). Qed.

Lemma to_char_ok d : 0 <= d < 10 -> to_char d = digit_char false d.
Proof. intros Hd. unfold to_char, digit_char. rewrite (proj2 (Z.ltb_lt _ _)) by lia. lia. Qed.

Lemma dec_loop_spec : forall j k n bf, (1 <= j <= k)%nat -> 0 <= n < 10 ^ Z.of_nat j ->
  (length bf + j <= KPRINTF_BUFSIZE)%nat ->
  dec_loop k n bf = Ok ((digit_char false <$> to_digits j 10 n []) ++ bf).
Proof.
  induction j as [|j IH]; intros [|k] n bf Hj Hn Hl; try lia. cbn [dec_loop to_digits].
  destruct (n <? 10) eqn:E; zbool.
  - rewrite (proj2 (Z.leb_gt _ _)), push_ok, to_char_ok, digit_char_byte by lia. done.
  - rewrite (proj2 (Z.leb_le _ _)), push_ok by lia. cbn [mbind res_bind].
    pose proof (Z.mod_pos_bound n 10). rewrite to_char_ok, digit_char_byte by lia.
    apply div_pow in Hn; [|lia]. assert (1 <= n / 10) by (apply Z.div_le_lower_bound; lia).
    destruct j as [|j]; [rewrite Z.pow_0_r in Hn; lia|].
    rewrite IH by (done || lia || (cbn [length]; lia)).
    rewrite (to_digits_acc _ _ _ [n mod 10]), fmap_app, <-app_assoc. done.
Qed.

Lemma shift_loop_spec dc up bits :
  0 < bits -> 2 ^ bits <= 36 -> (forall d, 0 <= d < 2 ^ bits -> dc d = Ok (digit_char up d)) ->
  forall j k n bf, (1 <= j <= k)%nat -> 0 <= n < (2 ^ bits) ^ Z.of_nat j ->
  (length bf + j <= KPRINTF_BUFSIZE)%nat ->
  shift_loop k dc bits n bf = Ok ((digit_char up <$> to_digits j (2 ^ bits) n []) ++ bf).
Proof.
  intros Hb Hb36 Hdc. assert (2 ^ 1 <= 2 ^ bits) as Hb2 by (apply Z.pow_le_mono_r; lia).
  change (2 ^ 1) with 2 in Hb2. set (b := 2 ^ bits) in *.
  induction j as [|j IH]; intros [|k] n bf Hj Hn Hl; try lia. cbn [shift_loop to_digits].
  unfold b in Hdc |- *. rewrite land_ones_low by lia. fold b in Hdc |- *.
  pose proof (Z.mod_pos_bound n b). rewrite Hdc by lia. cbn [mbind res_bind].
  rewrite push_ok, digit_char_byte by lia. cbn [mbind res_bind]. cbv zeta.
  rewrite Z.shiftr_div_pow2 by lia. fold b.
  destruct (n <? b) eqn:E; zbool.
  - rewrite Z.div_small, Z.mod_small by lia. done.
  - apply div_pow in Hn; [|lia]. assert (1 <= n / b) by (apply Z.div_le_lower_bound; lia).
    rewrite (proj2 (Z.eqb_neq _ _)) by lia. cbn [negb].
    destruct j as [|j]; [rewrite Z.pow_0_r in Hn; lia|].
    rewrite IH by (done || lia || (cbn [length]; lia)).
    rewrite (to_digits_acc _ _ _ [n mod b]), fmap_app, <-app_assoc. done.
Qed.

Lemma xdigs_ok (up : bool) d : 0 <= d < 2 ^ 4 ->
  deref ((if up then HEXDIGITS else hexdigits) !! Z.to_nat d) = Ok (digit_char up d).
Proof.
  intros Hd. apply (forall_range (fun d =>
    deref ((if up : bool then HEXDIGITS else hexdigits) !! Z.to_nat d) = Ok (digit_char up d)) 0 16);
    [destruct up; vm_compute; reflexivity|lia].
Qed.

Lemma uint64_lt n b : uint 64 n -> 2 ^ 64 <= b -> 0 <= n < b.
Proof. unfold uint. lia. Qed.

(** A 64-bit number fits [bf] in every base, the leading 0 of an octal number
    included. *)
Lemma dec_ok n : uint 64 n -> dec_loop (S KPRINTF_BUFSIZE) n [] = Ok (decimal n).
Proof.
  intros Hn. assert (0 <= n < 10 ^ Z.of_nat 20) by (eapply uint64_lt; [done|vm_compute; done]).
  rewrite (dec_loop_spec 20), app_nil_r by (done || (cbn [length]; unfold KPRINTF_BUFSIZE; lia)). unfold decimal.
  by rewrite (numeral_eq 10 n 20) by (done || lia).
Qed.

Lemma hex_ok (up : bool) n : uint 64 n ->
  shift_loop (S KPRINTF_BUFSIZE)
    (fun d => deref ((if up : bool then HEXDIGITS else hexdigits) !! Z.to_nat d)) 4 n []
  = Ok (digit_char up <$> numeral 16 n).
Proof.
  intros Hn. assert (0 <= n < (2 ^ 4) ^ Z.of_nat 16) by (eapply uint64_lt; [done|vm_compute; done]).
  rewrite (shift_loop_spec _ up 4 ltac:(lia) ltac:(lia) (xdigs_ok up) 16), app_nil_r
    by (done || (cbn [length]; unfold KPRINTF_BUFSIZE; lia)).
  by rewrite (numeral_eq 16 n 16) by (done || lia).
Qed.

Lemma oct_digit d : 0 <= d < 2 ^ 3 -> Ok (to_char d) = Ok (digit_char false d).
Proof. intros Hd. by rewrite to_char_ok by lia. Qed.

Lemma oct_ok n : uint 64 n ->
  shift_loop (S KPRINTF_BUFSIZE) (fun d => Ok (to_char d)) 3 n []
  = Ok (digit_char false <$> numeral 8 n) /\ (length (numeral 8 n) <= 22)%nat.
Proof.
  intros Hn. assert (0 <= n < (2 ^ 3) ^ Z.of_nat 22) as Hr by (eapply uint64_lt; [done|vm_compute; done]).
  rewrite (shift_loop_spec (fun d => Ok (to_char d)) false 3 ltac:(lia) ltac:(lia) oct_digit 22), app_nil_r
    by (done || (cbn [length]; unfold KPRINTF_BUFSIZE; lia)).
  rewrite (numeral_eq 8 n 22) by (done || lia). split; [done|].
  destruct (to_digits_spec 8 ltac:(lia) 22 n) as (_ & _ & ?); [lia|done|lia].
Qed.

(** ** Output *)

Section output.
Context (m0 : mem) (o : sink) (bf : Z).

(** How many characters the buffer takes. *)
Definition cap : nat :=
  if bf =? NULL then 0%nat
  else match tailp o with Some t => Z.to_nat (t - bf) | None => 0%nat end.

Context (Hbf : 0 <= bf) (Htail : tobuf o = true -> is_Some (tailp o)).
Context (Hmap : tobuf o = true -> mapped m0 bf (Z.of_nat cap)).

(** The state after printing [l]. *)
Definition after (l : list Z) (r : Z) : kst :=
  if tobuf o
  then Kst (put bf (take cap l) m0) [] (bf + Z.of_nat (length (take cap l))) r
  else Kst m0 l bf r.

Lemma putchar_after c l r : byte_ok c ->
  KPRINTF_PUTCHAR o c (after l r) = Ok (after (l ++ [c]) r).
Proof.
  intros Hc. unfold KPRINTF_PUTCHAR, after. destruct (tobuf o) eqn:Eo; cbn [k_mem k_out k_sbuf k_ret].
  2: { by rewrite wrap_id by exact Hc. }
  specialize (Hmap eq_refl). destruct (Htail eq_refl) as [t Et]. rewrite Et. revert Hmap. unfold cap. rewrite Et.
  destruct (bf =? NULL) eqn:E0; zbool.
  { rewrite E0. intros _. rewrite !take_0. done. }
  intros Hm. rewrite (proj2 (Z.eqb_neq _ NULL)) by (unfold NULL in *; lia). cbn [negb andb].
  set (n := Z.to_nat (t - bf)) in *. rewrite length_take.
  destruct (Nat.lt_ge_cases (length l) n) as [Hl|Hl].
  - rewrite (proj2 (Z.ltb_lt _ _)) by (unfold n in *; lia).
    rewrite !(take_ge _ n) by (rewrite ?length_app; cbn; lia).
    rewrite Nat.min_r by lia. rewrite store_ok; [|apply (mapped_put _ _ _ _ _ Hm); lia|done].
    cbn [mbind res_bind]. rewrite put_snoc, length_app. cbn [length]. do 2 f_equal. lia.
  - rewrite (proj2 (Z.ltb_ge _ _)) by (unfold n in *; lia).
    rewrite take_app_le by lia. rewrite length_take. done.
Qed.

Lemma putn_after c n : byte_ok c -> forall l r,
  putn o n c (after l r) = Ok (after (l ++ replicate n c) r).
Proof.
  intros Hc. induction n as [|n IH]; intros l r; cbn [putn replicate]; [by rewrite app_nil_r|].
  rewrite putchar_after by done. cbn [mbind res_bind]. by rewrite IH, <-app_assoc.
Qed.

(** Memory outside of the buffer stays as it was. *)
Definition safe (q n : Z) : Prop :=
  tobuf o = true -> q + n <= bf \/ bf + Z.of_nat cap <= q.

Lemma bytes_after q s l r : safe q (Z.of_nat (length s)) -> bytes_at m0 q s ->
  bytes_at (k_mem (after l r)) q s.
Proof.
  clear Hbf Htail Hmap. unfold safe, after. intros Hs H. destruct (tobuf o); [|done]. cbn [k_mem].
  apply bytes_at_put_disjoint; [|done]. pose proof (length_take l cap).
  destruct (Hs eq_refl); lia.
Qed.

Lemma str_after q s l r : safe q (Z.of_nat (S (length s))) -> str_at m0 q s ->
  str_at (k_mem (after l r)) q s.
Proof.
  intros Hs [Hb Hn]. split; [|done]. apply bytes_after; [|done].
  by rewrite length_app, Nat.add_1_r.
Qed.

Lemma after_ret l r : k_ret (after l r) = r.
Proof. clear Htail Hmap. unfold after. by destruct (tobuf o). Qed.

Lemma add_ret_after l r n : add_ret n (after l r) = after l (int (r + n)).
Proof. clear Htail Hmap. unfold add_ret, after. by destruct (tobuf o). Qed.

(** [t] can be read as [T] whatever was printed. *)
Definition reads_as (t : text) (T : list Z) : Prop :=
  forall l r i b, T !! i = Some b -> read_text (k_mem (after l r)) t i = Ok b.

Lemma reads_buf T x : reads_as (Buf (T ++ x)) T.
Proof. intros l r i b H. cbn. by rewrite (lookup_app_l_Some _ _ _ _ H). Qed.

Lemma reads_at p T : bytes_at m0 p T -> safe p (Z.of_nat (length T)) -> reads_as (At p) T.
Proof. intros H Hs l r i b Hi. cbn. apply load_ok. by apply (bytes_after p T l r Hs H). Qed.

Lemma put_text_after t T : reads_as t T -> bytes_ok T -> forall n i l r,
  (i + n <= length T)%nat ->
  put_text o t i n (after l r) = Ok (after (l ++ take n (drop i T)) r).
Proof.
  intros Ht HT. induction n as [|n IH]; intros i l r Hi; cbn [put_text]; [by rewrite take_0, app_nil_r|].
  destruct (lookup_lt_is_Some_2 T i) as [b Hb]; [lia|].
  rewrite (Ht l r i b Hb). cbn [mbind res_bind].
  rewrite putchar_after by (eapply (Forall_lookup_1 _ _ _ _ HT Hb)). cbn [mbind res_bind].
  rewrite IH by lia. rewrite (drop_S T b i Hb). cbn [take]. by rewrite <-app_assoc.
Qed.

(** ** Fields *)

(** What is printed in front of a field. *)
Definition field_prefix (f : field) : list Z :=
  if negb (f_sign f =? 0) then [f_sign f]
  else if has (f_flags f) HEXPREFIX then [48; f_ch f] else [].

Lemma land_pad fl : (Z.land fl (Z.lor LADJUST ZEROPAD) =? 0) = negb (has fl LADJUST) && negb (has fl ZEROPAD)
  /\ (Z.land fl (Z.lor LADJUST ZEROPAD) =? ZEROPAD) = negb (has fl LADJUST) && has fl ZEROPAD.
Proof.
  unfold has. rewrite Z.land_lor_distr_r.
  assert (forall i, 0 <= i -> Z.land fl (2 ^ i) = 2 ^ i \/ Z.land fl (2 ^ i) = 0) as Hbit.
  { intros i Hi. destruct (Z.testbit fl i) eqn:E; [left|right]; apply Z.bits_inj'; intros j Hj;
      rewrite Z.land_spec, ?Z.bits_0, Z.pow2_bits_eqb by done;
      (destruct (Z.eqb_spec i j) as [->|]; [by rewrite E|by rewrite andb_false_r]). }
  change LADJUST with (2 ^ 2). change ZEROPAD with (2 ^ 10).
  destruct (Hbit 2 ltac:(lia)) as [-> | ->], (Hbit 10 ltac:(lia)) as [-> | ->]; done.
Qed.

Lemma int_id x : - 2 ^ 31 <= x < 2 ^ 31 -> int x = x.
Proof. intros H. by apply signed_id. Qed.

Lemma length_layout left zero w P T :
  length (layout left zero w P T)
  = (length P + length T + Z.to_nat (w - Z.of_nat (length P + length T)))%nat.
Proof.
  unfold layout. cbv zeta. destruct left; [|destruct zero];
    rewrite !length_app, ?length_app, length_replicate; lia.
Qed.

Lemma show_after f w T l r : reads_as (f_text f) T -> bytes_ok T ->
  f_size f = Z.of_nat (length T) -> byte_ok (f_sign f) -> byte_ok (f_ch f) ->
  0 <= w < 2 ^ 31 -> -1 <= f_dprec f < 2 ^ 31 - 2 -> Z.of_nat (length T) < 2 ^ 31 - 2 ->
  let body := replicate (Z.to_nat (f_dprec f - f_size f)) 48 ++ T in
  let out := layout (has (f_flags f) LADJUST) (has (f_flags f) ZEROPAD) w (field_prefix f) body in
  - 2 ^ 31 <= r + Z.of_nat (length out) < 2 ^ 31 ->
  show o f w (after l r) = Ok (after (l ++ out) (r + Z.of_nat (length out))).
Proof.
  intros Ht HT Hsz Hsg Hch Hw Hdp Hlen body out Hr. unfold show. cbv zeta.
  destruct (land_pad (f_flags f)) as [-> ->].
  set (base := if f_size f <? f_dprec f then f_dprec f else f_size f).
  assert (base = Z.of_nat (length body)) as Ebase.
  { unfold base, body. rewrite length_app, length_replicate.
    destruct (f_size f <? f_dprec f) eqn:E; zbool; lia. }
  set (realsz := if negb (f_sign f =? 0) then int (base + 1)
    else if has (f_flags f) HEXPREFIX then int (base + 2) else base).
  assert (realsz = Z.of_nat (length (field_prefix f) + length body)) as Ereal.
  { assert (0 <= base < 2 ^ 31 - 2) by (unfold base; destruct (f_size f <? f_dprec f); zbool; lia).
    clear Hr. unfold realsz, field_prefix.
    destruct (negb _); [|destruct (has _ HEXPREFIX)]; cbn [length];
      rewrite ?int_id by lia; lia. }
  assert (Z.of_nat (length out) = if realsz <? w then w else realsz) as Eout.
  { unfold out. rewrite length_layout, Ereal. destruct (_ <? w) eqn:E; zbool; lia. }
  assert (0 <= realsz < 2 ^ 31) as Hreal.
  { assert (length (field_prefix f) <= 2)%nat by (unfold field_prefix; repeat case_match; cbn; lia).
    assert (0 <= base < 2 ^ 31 - 2) by (unfold base; destruct (f_size f <? f_dprec f); zbool; lia).
    lia. }
  rewrite !(int_id (w - realsz)) by lia. rewrite (int_id (f_dprec f - f_size f)) by lia.
  rewrite add_ret_after, <-Eout, int_id by done. set (r' := r + Z.of_nat (length out)).
  assert (forall l, (if negb (f_sign f =? 0) then KPRINTF_PUTCHAR o (f_sign f) (after l r')
      else if has (f_flags f) HEXPREFIX
      then st ← KPRINTF_PUTCHAR o 48 (after l r'); KPRINTF_PUTCHAR o (f_ch f) st
      else Ok (after l r')) = Ok (after (l ++ field_prefix f) r')) as Hpre.
  { intros k. unfold field_prefix. destruct (negb _); [by apply putchar_after|].
    destruct (has _ HEXPREFIX); [|by rewrite app_nil_r]. rewrite putchar_after by done.
    cbn [mbind res_bind]. rewrite putchar_after by done. by rewrite <-app_assoc. }
  assert (forall l, put_text o (f_text f) 0 (Z.to_nat (f_size f)) (after l r')
    = Ok (after (l ++ T) r')) as Htext.
  { intros k. rewrite (put_text_after _ T Ht HT) by lia. rewrite drop_0, take_ge by lia. done. }
  unfold out, layout. rewrite <-Ereal. unfold body. clearbody r' realsz.
  destruct (has (f_flags f) LADJUST), (has (f_flags f) ZEROPAD); cbn [negb andb];
    repeat (cbn [mbind res_bind];
      first [rewrite Hpre | rewrite putn_after by done | rewrite Htext]);
    by rewrite <-!app_assoc.
Qed.
End output.

(** ** Scanning a directive *)

Lemma reads_ascii c b : reads c b -> 0 <= b < 128 -> c = b.
Proof. intros [_ [-> | ->]] Hb; [done|]. apply sgn_id; lia. Qed.

Lemma current_ascii m c s b t : current m c s (b :: t) -> 0 <= b < 128 -> c = b.
Proof. intros (_ & _ & H) Hb. by apply reads_ascii. Qed.

(** The next character as the code reads it. *)
Lemma current_load m c s b t : current m c s (b :: t) ->
  exists c', load m s = Ok c' /\ current m (schar c') (s + 1) t.
Proof. intros H. apply current_next in H as (c' & ? & _ & ?). eauto. Qed.

Definition apply_flag (d : conv) (f : flagc) : conv :=
  match f with
  | Space => if c_sign d =? 0 then set_sign 32 d else d
  | Alt => set_flag ALT d
  | Left => set_flag LADJUST d
  | Plus => set_sign 43 d
  | Zero => set_flag ZEROPAD d
  end.

Lemma scan_flags m k ap t : forall fl c s d, current m c s ((flag_char <$> fl) ++ t) ->
  exists c', reswitch (length fl + k) m c s d ap
             = reswitch k m c' (s + Z.of_nat (length fl)) (foldl apply_flag d fl) ap
    /\ current m c' (s + Z.of_nat (length fl)) t.
Proof.
  induction fl as [|f fl IH]; intros c s d H.
  { exists c. rewrite Z.add_0_r. done. }
  cbn [fmap list_fmap app] in H.
  assert (c = flag_char f) as -> by (eapply current_ascii; [exact H|by destruct f]).
  destruct (current_load _ _ _ _ _ H) as (c' & Hl & Hc').
  destruct (IH _ _ (apply_flag d f) Hc') as (c2 & Hr & Hc2). exists c2.
  replace (s + Z.of_nat (length (f :: fl))) with (s + 1 + Z.of_nat (length fl))
    by (cbn [length]; lia).
  split; [|done]. cbn [foldl]. rewrite <-Hr. cbn [length Nat.add reswitch]. cbv zeta.
  rewrite Hl. by destruct f.
Qed.

(** [t] does not start with a digit. *)
Definition no_digit (t : list Z) : Prop :=
  forall c, reads c (default 0 (head t)) -> is_digit c = false.

Lemma is_digit_char d : 0 <= d < 10 -> is_digit (48 + d) = true.
Proof.
  intros Hd. unfold is_digit, to_digit. replace (48 + d - 48) with d by lia.
  rewrite wrap_id by (unfold uint; lia). apply Z.leb_le. lia.
Qed.

Lemma decimal_digit d : 0 <= d < 10 -> digit_char false d = 48 + d.
Proof. intros Hd. unfold digit_char. by rewrite (proj2 (Z.ltb_lt _ _)) by lia. Qed.

Lemma value_mono ds : forall v, 0 <= v -> in_base 10 ds ->
  v <= foldl (fun v d => v * 10 + d) v ds.
Proof.
  induction ds as [|d ds IH]; intros v Hv Hds; cbn [foldl]; [lia|].
  apply Forall_cons in Hds as [Hd Hds]. specialize (IH (v * 10 + d) ltac:(lia) Hds). lia.
Qed.

Lemma scan_number m t : no_digit t -> forall ds k c s n, in_base 10 ds -> (length ds < k)%nat ->
  0 <= n -> foldl (fun v d => v * 10 + d) n ds < 2 ^ 31 ->
  current m c s ((digit_char false <$> ds) ++ t) ->
  exists c', num_loop k m c s n
             = Ok (foldl (fun v d => v * 10 + d) n ds, c', s + Z.of_nat (length ds))
    /\ current m c' (s + Z.of_nat (length ds)) t.
Proof.
  intros Ht. induction ds as [|d ds IH]; intros [|k] c s n Hds Hk Hn Hv H; try (cbn in Hk; lia);
    cbn [num_loop foldl] in *.
  - rewrite (Ht c) by apply H. exists c. rewrite Z.add_0_r. done.
  - apply Forall_cons in Hds as [Hd Hds]. cbn [fmap list_fmap app] in H.
    rewrite decimal_digit in H by done. assert (c = 48 + d) as -> by (eapply current_ascii; [exact H|lia]).
    rewrite is_digit_char by done.
    destruct (current_load _ _ _ _ _ H) as (c' & -> & Hc'). cbn [mbind res_bind].
    pose proof (value_mono ds (n * 10 + d) ltac:(lia) Hds).
    replace (int (10 * n + to_digit (48 + d))) with (n * 10 + d)
      by (unfold to_digit; rewrite int_id by lia; lia).
    destruct (IH k _ _ (n * 10 + d) Hds ltac:(cbn in Hk; lia) ltac:(lia) Hv Hc') as (c2 & -> & Hc2).
    exists c2. replace (s + Z.of_nat (length (d :: ds))) with (s + 1 + Z.of_nat (length ds))
      by (cbn [length]; lia). done.
Qed.

Lemma scan_decimal m t n c s : no_digit t -> 0 <= n < 2 ^ 31 ->
  current m c s (decimal n ++ t) ->
  exists c', num_loop (fuel m) m c s 0 = Ok (n, c', s + Z.of_nat (length (decimal n)))
    /\ current m c' (s + Z.of_nat (length (decimal n))) t.
Proof.
  intros Ht Hn H. destruct (numeral_spec 10 n ltac:(lia) ltac:(lia)) as (H1 & H2 & H3).
  unfold value in H2. pose proof (str_at_fuel _ _ _ (proj1 H)) as Hf. unfold decimal in *.
  rewrite length_app, length_fmap in Hf. rewrite length_fmap.
  destruct (scan_number m t Ht (numeral 10 n) (fuel m) c s 0) as (c' & -> & Hc');
    [done|lia|lia|lia|done|]. rewrite H2. eauto.
Qed.

(** *** Width, precision and length *)

Definition width_ok (w : number_spec) : Prop :=
  match w with Absent => True | Given n => 1 <= n < 2 ^ 31 | Star z => - 2 ^ 31 < z < 2 ^ 31 end.
Definition prec_ok (p : number_spec) : Prop :=
  match p with
  | Absent => True
  | Given n => 0 <= n < 2 ^ 31 - 2
  | Star z => - 2 ^ 31 <= z < 2 ^ 31 - 2
  end.

Definition apply_width (w : number_spec) (d : conv) : conv :=
  match w with
  | Absent => d
  | Given n => set_width n d
  | Star z => if z <? 0 then set_flag LADJUST (set_width (- z) d) else set_width z d
  end.
Definition apply_prec (p : number_spec) (d : conv) : conv :=
  match p with
  | Absent => d
  | Given n => set_prec n d
  | Star z => set_prec (if z <? 0 then -1 else z) d
  end.
Definition rounds (n : number_spec) : nat := match n with Absent => 0 | _ => 1 end.

(** Evaluate the tests of the [switch] on a character known to the context. *)
Ltac switch :=
  repeat match goal with
  | |- context [?c =? ?k] =>
      first [ rewrite (proj2 (Z.eqb_neq c k)) by lia | rewrite (proj2 (Z.eqb_eq c k)) by lia ]
  end.

Lemma int_word z : - 2 ^ 31 <= z < 2 ^ 31 -> int (u32 z) = z.
Proof.
  intros Hz. unfold signed. rewrite wrap_wrap. rewrite <-(int_id z Hz) at 2. done.
Qed.

Lemma scan_width m w k c s d ap t : width_ok w -> no_digit t ->
  current m c s (width_text w ++ t) ->
  exists c', reswitch (rounds w + k) m c s d (star_word w ++ ap)
             = reswitch k m c' (s + Z.of_nat (length (width_text w))) (apply_width w d) ap
    /\ current m c' (s + Z.of_nat (length (width_text w))) t.
Proof.
  intros Hw Ht H. destruct w as [|n|z]; cbn [width_text star_word app rounds Nat.add] in *.
  - exists c. rewrite Z.add_0_r. done.
  - destruct (scan_decimal m t n c s Ht ltac:(cbn in Hw; lia) H) as (c' & E & Hc').
    exists c'. split; [|done]. cbn [reswitch]. cbv zeta.
    destruct (numeral_spec 10 n ltac:(lia) ltac:(cbn in Hw; lia)) as (H1 & _ & H3).
    assert (49 <= c <= 57) as Hc.
    { unfold decimal in H. destruct (numeral 10 n) as [|x l] eqn:En; [cbn in H3; lia|].
      pose proof (numeral_head 10 n x l ltac:(lia) ltac:(cbn in Hw; lia) En).
      apply Forall_cons in H1 as [H1 _]. cbn [fmap list_fmap app] in H.
      rewrite decimal_digit in H by done. rewrite (current_ascii _ _ _ _ _ H) by lia. lia. }
    switch. rewrite (proj2 (Z.leb_le 49 c)), (proj2 (Z.leb_le c 57)) by lia. cbn [andb].
    rewrite E. done.
  - assert (c = 42) as -> by (eapply current_ascii; [exact H|lia]).
    destruct (current_load _ _ _ _ _ H) as (c' & Hl & Hc'). exists (schar c').
    split; [|done]. cbn [reswitch]. cbv zeta. cbn [Z.eqb Pos.eqb va_int mbind res_bind].
    cbn in Hw. rewrite int_word by lia. rewrite Hl. cbn [mbind res_bind apply_width].
    destruct (z <? 0) eqn:E; zbool.
    + rewrite (proj2 (Z.leb_gt _ _)) by lia. rewrite int_id by lia. done.
    + rewrite (proj2 (Z.leb_le _ _)) by lia. done.
Qed.

Lemma scan_prec m p k c s d ap t : prec_ok p -> no_digit t ->
  current m c s (prec_text p ++ t) ->
  exists c', reswitch (rounds p + k) m c s d (star_word p ++ ap)
             = reswitch k m c' (s + Z.of_nat (length (prec_text p))) (apply_prec p d) ap
    /\ current m c' (s + Z.of_nat (length (prec_text p))) t.
Proof.
  intros Hp Ht H. destruct p as [|n|z]; cbn [prec_text star_word app rounds Nat.add] in *.
  - exists c. rewrite Z.add_0_r. done.
  - assert (c = 46) as -> by (eapply current_ascii; [exact H|lia]).
    destruct (current_load _ _ _ _ _ H) as (c1 & Hl & Hc1).
    destruct (scan_decimal m t n _ (s + 1) Ht ltac:(cbn in Hp; lia) Hc1) as (c' & E & Hc').
    replace (s + Z.of_nat (length (46 :: decimal n))) with (s + 1 + Z.of_nat (length (decimal n)))
      by (cbn [length]; lia).
    exists c'. split; [|done]. cbn [reswitch]. cbv zeta. cbn [Z.eqb Pos.eqb]. rewrite Hl.
    cbn [mbind res_bind].
    destruct (numeral_spec 10 n ltac:(lia) ltac:(cbn in Hp; lia)) as (H1 & _ & H3).
    assert (schar c1 <> 42) as Hc.
    { unfold decimal in Hc1. destruct (numeral 10 n) as [|x l] eqn:En; [cbn in H3; lia|].
      apply Forall_cons in H1 as [H1 _]. cbn [fmap list_fmap app] in Hc1.
      rewrite decimal_digit in Hc1 by done. rewrite (current_ascii _ _ _ _ _ Hc1) by lia. lia. }
    rewrite (proj2 (Z.eqb_neq _ _) Hc), E. cbn [mbind res_bind apply_prec].
    cbn in Hp. by rewrite (proj2 (Z.ltb_ge n 0)) by lia.
  - assert (c = 46) as -> by (eapply current_ascii; [exact H|lia]).
    destruct (current_load _ _ _ _ _ H) as (c1 & Hl & Hc1).
    assert (schar c1 = 42) as E1 by (eapply current_ascii; [exact Hc1|lia]).
    destruct (current_load _ _ _ _ _ Hc1) as (c' & Hl' & Hc'). exists (schar c').
    replace (s + Z.of_nat (length [46; 42])) with (s + 1 + 1) by (cbn; lia).
    split; [|done]. cbn [reswitch]. cbv zeta. cbn [Z.eqb Pos.eqb]. rewrite Hl.
    cbn [mbind res_bind]. rewrite E1. cbn [Z.eqb Pos.eqb va_int mbind res_bind].
    cbn in Hp. rewrite int_word by lia. rewrite Hl'. done.
Qed.

Definition length_bit (l : length_mod) : Z :=
  match l with
  | Lint => 0 | Lh => SHORTINT | Ll => LONGINT | Lll | Lq => QUADINT
  | Lj => MAXINT | Lt => PTRINT | Lz => SIZEINT
  end.
Definition length_rounds (l : length_mod) : nat := match l with Lint => 0 | _ => 1 end.

Lemma set_flag_0 d : set_flag 0 d = d.
Proof. destruct d. unfold set_flag. cbn. by rewrite Z.lor_0_r. Qed.

Lemma scan_length m l k c s d ap b t : 0 <= b < 128 -> b <> 108 ->
  current m c s (length_text l ++ b :: t) ->
  exists c', reswitch (length_rounds l + k) m c s d ap
             = reswitch k m c' (s + Z.of_nat (length (length_text l))) (set_flag (length_bit l) d) ap
    /\ current m c' (s + Z.of_nat (length (length_text l))) (b :: t).
Proof.
  intros Hb Hb' H. destruct l; cbn [length_text length_bit length_rounds app length Nat.add] in *.
  1: { exists c. rewrite Z.add_0_r, set_flag_0. done. }
  all: assert (c = _) as -> by (eapply current_ascii; [exact H|lia]).
  all: destruct (current_load _ _ _ _ _ H) as (c1 & Hl & Hc1).
  all: cbn [reswitch Z.eqb Pos.eqb Z.leb Z.compare Pos.compare Pos.compare_cont andb]; cbv zeta;
    rewrite Hl; cbn [mbind res_bind].
  1, 4-7: by exists (schar c1).
  - assert (schar c1 = b) as E by (eapply current_ascii; [exact Hc1|lia]).
    rewrite E in Hc1 |- *. rewrite (proj2 (Z.eqb_neq _ _) Hb'). by exists b.
  - assert (schar c1 = 108) as E by (eapply current_ascii; [exact Hc1|lia]).
    destruct (current_load _ _ _ _ _ Hc1) as (c2 & Hl2 & Hc2). rewrite E.
    cbn [Z.eqb Pos.eqb]. rewrite Hl2. exists (schar c2).
    replace (s + Z.of_nat 2) with (s + 1 + 1) by lia. done.
Qed.

(** *** The whole directive *)

Definition directive_conv (fl : list flagc) (w p : number_spec) (l : length_mod) : conv :=
  set_flag (length_bit l) (apply_prec p (apply_width w (foldl apply_flag no_flags fl))).

Lemma arg_char_ascii a : 0 <= arg_char a < 128 /\ arg_char a <> 108.
Proof. destruct a as [[]| | |[]| | | | |]; cbn; lia. Qed.

Lemma no_digit_ascii b t : 0 <= b < 128 -> is_digit b = false -> no_digit (b :: t).
Proof. intros Hb E c H. cbn in H. by rewrite (reads_ascii c b). Qed.

Lemma no_digit_arg a t : no_digit (arg_char a :: t).
Proof. apply no_digit_ascii; [apply arg_char_ascii|]. destruct a as [[]| | |[]| | | | |]; reflexivity. Qed.

Lemma no_digit_length l a t : no_digit (length_text l ++ arg_char a :: t).
Proof.
  destruct l; cbn [length_text app]; try (apply no_digit_ascii; [lia|vm_compute; reflexivity]).
  apply no_digit_arg.
Qed.

Lemma no_digit_prec p l a t : no_digit (prec_text p ++ length_text l ++ arg_char a :: t).
Proof.
  destruct p; cbn [prec_text app]; try (apply no_digit_ascii; [lia|vm_compute; reflexivity]).
  apply no_digit_length.
Qed.

(** The [switch] ends at the conversion character. *)
Lemma scan_stop k m a s d ap :
  reswitch (S k) m (arg_char a) s d ap = Ok (arg_char a, s, d, ap).
Proof. by destruct a as [[]| | |[]| | | | |]. Qed.

Lemma scan_directive m c s fl w p a ap t : width_ok w -> prec_ok p ->
  current m c s ((flag_char <$> fl) ++ width_text w ++ prec_text p
                 ++ length_text (arg_length a) ++ arg_char a :: t) ->
  exists s', reswitch (fuel m) m c s no_flags (star_word w ++ star_word p ++ ap)
    = Ok (arg_char a, s', directive_conv fl w p (arg_length a), ap)
    /\ current m (arg_char a) s' (arg_char a :: t)
    /\ s' = s + Z.of_nat (length ((flag_char <$> fl) ++ width_text w ++ prec_text p
                                  ++ length_text (arg_length a))).
Proof.
  intros Hw Hp H. pose proof (str_at_fuel _ _ _ (proj1 H)) as Hf.
  rewrite !length_app in Hf. cbn [length] in Hf.
  assert (rounds w <= length (width_text w) /\ rounds p <= length (prec_text p)
    /\ length_rounds (arg_length a) <= length (length_text (arg_length a)))%nat as Hr.
  { split_and!.
    - destruct w as [|n|]; cbn [width_text rounds length]; [lia| |lia]. cbn in Hw.
      unfold decimal. rewrite length_fmap.
      destruct (numeral_spec 10 n ltac:(lia) ltac:(lia)) as (_ & _ & ?). lia.
    - destruct p; cbn [prec_text rounds length]; lia.
    - destruct (arg_length a); cbn [length_text length_rounds length]; lia. }
  rewrite length_fmap in Hf.
  set (k := (fuel m - length fl - rounds w - rounds p - length_rounds (arg_length a) - 1)%nat).
  replace (fuel m) with (length fl + (rounds w + (rounds p + (length_rounds (arg_length a) + S k))))%nat
    by (unfold k; lia).
  destruct (scan_flags m (rounds w + (rounds p + (length_rounds (arg_length a) + S k)))
    (star_word w ++ star_word p ++ ap) _ fl c s no_flags H) as (c1 & -> & H1).
  destruct (scan_width m w (rounds p + (length_rounds (arg_length a) + S k)) c1 _
    (foldl apply_flag no_flags fl) (star_word p ++ ap) _ Hw (no_digit_prec _ _ _ _) H1)
    as (c2 & -> & H2).
  destruct (scan_prec m p (length_rounds (arg_length a) + S k) c2 _
    (apply_width w (foldl apply_flag no_flags fl)) ap _ Hp (no_digit_length _ _ _) H2)
    as (c3 & -> & H3).
  destruct (arg_char_ascii a) as [Ha Ha'].
  destruct (scan_length m (arg_length a) (S k) c3 _
    (apply_prec p (apply_width w (foldl apply_flag no_flags fl))) ap _ _ Ha Ha' H3)
    as (c4 & -> & H4).
  assert (c4 = arg_char a) as -> by (eapply current_ascii; [exact H4|done]).
  rewrite scan_stop. eexists. split_and!; [done|exact H4|].
  rewrite !length_app, length_fmap. lia.
Qed.

(** *** What the scan found *)

Lemma has_bit f i : 0 <= i -> has f (2 ^ i) = Z.testbit f i.
Proof.
  intros Hi. unfold has. destruct (Z.testbit f i) eqn:E.
  - apply negb_true_iff, Z.eqb_neq. intros H. apply (f_equal (fun x => Z.testbit x i)) in H.
    rewrite Z.land_spec, Z.bits_0, E, Z.pow2_bits_true in H by done. done.
  - apply negb_false_iff, Z.eqb_eq, Z.bits_inj'. intros j Hj.
    rewrite Z.land_spec, Z.bits_0, Z.pow2_bits_eqb by done.
    destruct (Z.eqb_spec i j) as [->|]; [by rewrite E|by rewrite andb_false_r].
Qed.

Definition flag_bit (f : flagc) : Z :=
  match f with Space | Plus => 0 | Alt => ALT | Left => LADJUST | Zero => ZEROPAD end.

Lemma flags_bit i : forall fl d,
  Z.testbit (c_flags (foldl apply_flag d fl)) i
  = Z.testbit (c_flags d) i || existsb (fun f => Z.testbit (flag_bit f) i) fl.
Proof.
  induction fl as [|f fl IH]; intros d; cbn [foldl existsb]; [by rewrite orb_false_r|].
  rewrite IH, orb_assoc. f_equal. destruct f; cbn [apply_flag flag_bit set_flag set_sign c_flags];
    rewrite ?Z.lor_spec, ?Z.bits_0, ?orb_false_r; try done.
  by destruct (c_sign d =? 0).
Qed.

Lemma existsb_flag (test : flagc -> bool) g fl :
  (forall f, test f = bool_decide (f = g)) -> existsb test fl = flag_in g fl.
Proof.
  intros H. unfold flag_in. apply eq_true_iff_eq. rewrite existsb_exists, bool_decide_eq_true. split.
  - intros (f & Hf & Ht). rewrite H, bool_decide_eq_true in Ht. subst f. by apply list_elem_of_In.
  - intros Hg. exists g. rewrite H, bool_decide_eq_true. split; [by apply list_elem_of_In|done].
Qed.

Lemma existsb_none (test : flagc -> bool) fl : (forall f, test f = false) -> existsb test fl = false.
Proof. intros H. induction fl; cbn; [done|]. by rewrite H. Qed.

Lemma flag_in_cons g f fl : flag_in g (f :: fl) = bool_decide (f = g) || flag_in g fl.
Proof.
  unfold flag_in. apply eq_true_iff_eq. rewrite orb_true_iff, !bool_decide_eq_true, elem_of_cons.
  naive_solver.
Qed.

Lemma flags_sign : forall fl d,
  c_sign (foldl apply_flag d fl)
  = if flag_in Plus fl then 43
    else if negb (c_sign d =? 0) then c_sign d
    else if flag_in Space fl then 32 else 0.
Proof.
  induction fl as [|f fl IH]; intros d; cbn [foldl].
  { cbn. destruct (c_sign d =? 0) eqn:E; zbool; done. }
  rewrite IH, !flag_in_cons.
  destruct f; cbn [apply_flag bool_decide decide_rel orb]; try done.
  - destruct (c_sign d =? 0) eqn:E; cbn [negb set_sign c_sign]; [|by rewrite E].
    by destruct (flag_in Plus fl).
  - by destruct (flag_in Plus fl).
Qed.

Lemma flags_width : forall fl d, c_width (foldl apply_flag d fl) = c_width d
  /\ c_prec (foldl apply_flag d fl) = c_prec d.
Proof.
  induction fl as [|f fl IH]; intros d; [done|]. cbn [foldl].
  destruct (IH (apply_flag d f)) as [-> ->]. destruct f; try done. cbn. by destruct (c_sign d =? 0).
Qed.

(** The bits the conversions test. *)
Definition width_bit (w : number_spec) : Z := if negative w then LADJUST else 0.

Lemma directive_flags fl w p l :
  c_flags (directive_conv fl w p l)
  = Z.lor (Z.lor (c_flags (foldl apply_flag no_flags fl)) (width_bit w)) (length_bit l).
Proof.
  unfold directive_conv, width_bit. cbn [set_flag c_flags]. f_equal.
  destruct p as [| |z]; cbn [apply_prec set_prec c_flags];
    (destruct w as [| |z']; cbn [apply_width negative]; [by rewrite Z.lor_0_r..|]);
    (destruct (z' <? 0); cbn; [done|by rewrite Z.lor_0_r]).
Qed.

Lemma directive_bit fl w p l i : 0 <= i ->
  has (c_flags (directive_conv fl w p l)) (2 ^ i)
  = existsb (fun f => Z.testbit (flag_bit f) i) fl || Z.testbit (width_bit w) i
    || Z.testbit (length_bit l) i.
Proof.
  intros Hi. rewrite has_bit, directive_flags, !Z.lor_spec, flags_bit by done.
  cbn [no_flags c_flags]. by rewrite Z.bits_0.
Qed.

Lemma width_bit_only w i : Z.testbit (width_bit w) i = if negative w then i =? 2 else false.
Proof.
  unfold width_bit. destruct (negative w); [|apply Z.bits_0].
  change LADJUST with (2 ^ 2). rewrite Z.pow2_bits_eqb by lia. apply Z.eqb_sym.
Qed.

Record scanned (fl : list flagc) (w p : number_spec) (l : length_mod) (d : conv) : Prop := {
  sc_width : c_width d = width_of w;
  sc_prec : c_prec d = default (-1) (prec_of p);
  sc_sign : c_sign d = if flag_in Plus fl then 43 else if flag_in Space fl then 32 else 0;
  sc_alt : has (c_flags d) ALT = flag_in Alt fl;
  sc_hexprefix : has (c_flags d) HEXPREFIX = false;
  sc_ladjust : has (c_flags d) LADJUST = flag_in Left fl || negative w;
  sc_zeropad : has (c_flags d) ZEROPAD = flag_in Zero fl;
  sc_bits : forall i, 4 <= i < 10 -> has (c_flags d) (2 ^ i) = Z.testbit (length_bit l) i;
}.

Lemma directive_scanned fl w p l : scanned fl w p l (directive_conv fl w p l).
Proof.
  destruct (flags_width fl no_flags) as [Hw Hp]. pose proof (flags_sign fl no_flags) as Hs.
  assert (forall i g, 0 <= i -> (forall f, Z.testbit (flag_bit f) i = bool_decide (f = g)) ->
    has (c_flags (directive_conv fl w p l)) (2 ^ i)
    = flag_in g fl || Z.testbit (width_bit w) i || Z.testbit (length_bit l) i) as Hf.
  { intros i g Hi Hg. by rewrite directive_bit, (existsb_flag _ g) by done. }
  assert (forall i, 0 <= i -> (forall f, Z.testbit (flag_bit f) i = false) ->
    has (c_flags (directive_conv fl w p l)) (2 ^ i)
    = Z.testbit (width_bit w) i || Z.testbit (length_bit l) i) as Hn.
  { intros i Hi Hg. by rewrite directive_bit, existsb_none by done. }
  split.
  - unfold directive_conv. cbn [set_flag c_width].
    destruct p as [| |z]; cbn [apply_prec set_prec c_width];
      (destruct w as [| |z']; cbn [apply_width width_of]; [done|done|]);
      destruct (z' <? 0) eqn:E; zbool; cbn; lia.
  - unfold directive_conv. cbn [set_flag c_prec].
    destruct p as [|n|z]; cbn [apply_prec set_prec c_prec prec_of default from_option]; [|done|].
    2: { by destruct (z <? 0). }
    destruct w as [| |z']; cbn [apply_width set_width c_prec]; [done|done|].
    by destruct (z' <? 0).
  - unfold directive_conv. cbn [set_flag c_sign].
    destruct p as [| |z]; cbn [apply_prec set_prec c_sign];
      (destruct w as [| |z']; cbn [apply_width set_width c_sign]; [by rewrite Hs..|]);
      destruct (z' <? 0); cbn [set_flag set_width c_sign]; by rewrite Hs.
  - change ALT with (2 ^ 0). rewrite (Hf 0 Alt) by (lia || by intros []).
    rewrite width_bit_only. destruct (negative w), l; by rewrite !orb_false_r.
  - change HEXPREFIX with (2 ^ 1). rewrite (Hn 1) by (lia || by intros []).
    rewrite width_bit_only. by destruct (negative w), l.
  - change LADJUST with (2 ^ 2). rewrite (Hf 2 Left) by (lia || by intros []).
    rewrite width_bit_only. destruct (negative w), l; by rewrite ?orb_false_r.
  - change ZEROPAD with (2 ^ 10). rewrite (Hf 10 Zero) by (lia || by intros []).
    rewrite width_bit_only. destruct (negative w), l; by rewrite !orb_false_r.
  - intros i Hi. rewrite Hn, width_bit_only.
    + destruct (negative w); [|done]. by rewrite (proj2 (Z.eqb_neq i 2)) by lia.
    + lia.
    + intros f. assert (i = 4 \/ i = 5 \/ i = 6 \/ i = 7 \/ i = 8 \/ i = 9) as Hc by lia.
      destruct Hc as [->|[->|[->|[->|[->| ->]]]]]; by destruct f.
Qed.

(** ** Arguments *)

Definition arg_ok (a : argument) : Prop :=
  match a with
  | Signed _ l v => - 2 ^ (bits_of l - 1) <= v < 2 ^ (bits_of l - 1)
  | Octal l v | Unsigned l v | Hex _ l v => 0 <= v < 2 ^ bits_of l
  | Pointer v => uint 32 v
  | Char c => uint 32 c
  | Str p s => 0 < p < 2 ^ 32 /\ Z.of_nat (length s) < 2 ^ 31 - 2 /\ bytes_ok s
  | NullStr | Percent => True
  end.

Lemma quad_words v : u32 (u32 (Z.shiftr v 32)) * 2 ^ 32 + u32 (u32 v) = u64 v.
Proof.
  rewrite !wrap_wrap, Z.shiftr_div_pow2 by lia. unfold wrap.
  change (2 ^ 64) with (2 ^ 32 * 2 ^ 32). rewrite Z.rem_mul_r by lia. lia.
Qed.

(** Evaluate the tests of the length modifier. *)
Ltac length_cases Hs l :=
  change MAXINT with (2 ^ 7); change PTRINT with (2 ^ 8); change SIZEINT with (2 ^ 9);
  change QUADINT with (2 ^ 5); change LONGINT with (2 ^ 4); change SHORTINT with (2 ^ 6);
  rewrite !(sc_bits _ _ _ _ _ Hs) by lia; destruct l;
  cbn [length_bit Z.testbit Pos.testbit SHORTINT LONGINT QUADINT MAXINT PTRINT SIZEINT
       Z.sub Z.opp Z.pred Pos.pred Pos.pred_N Pos.pred_double value_words bits_of Z.eqb Pos.eqb
       app va_quad va_int va_word mbind res_bind] in *.

Lemma SARG_ok fl w p l d v ap : scanned fl w p l d ->
  - 2 ^ (bits_of l - 1) <= v < 2 ^ (bits_of l - 1) ->
  SARG (c_flags d) (value_words l v ++ ap) = Ok (u64 v, ap).
Proof.
  intros Hs Hv. unfold SARG. length_cases Hs l; rewrite ?quad_words; try done;
    rewrite int_word by lia; try done.
  by rewrite signed_id by lia.
Qed.

Lemma UARG_ok fl w p l d v ap : scanned fl w p l d -> 0 <= v < 2 ^ bits_of l ->
  UARG (c_flags d) (value_words l v ++ ap) = Ok (v, ap).
Proof.
  intros Hs Hv. unfold UARG. length_cases Hs l; rewrite ?quad_words; rewrite ?wrap_wrap;
    try (by rewrite wrap_id by (unfold uint; lia)).
  rewrite int_word by lia. by rewrite wrap_id by (unfold uint; lia).
Qed.

(** *** Numbers *)

(** The bits of the flags that matter when a field is printed. *)
Record view (flags : Z) (alt hex left zero : bool) : Prop := {
  v_alt : has flags ALT = alt;
  v_hex : has flags HEXPREFIX = hex;
  v_left : has flags LADJUST = left;
  v_zero : has flags ZEROPAD = zero;
}.

Ltac view_bits :=
  change ALT with (2 ^ 0) in *; change HEXPREFIX with (2 ^ 1) in *;
  change LADJUST with (2 ^ 2) in *; change ZEROPAD with (2 ^ 10) in *;
  rewrite !has_bit in * by lia.

Lemma scanned_view fl w p l d : scanned fl w p l d ->
  view (c_flags d) (flag_in Alt fl) false (flag_in Left fl || negative w) (flag_in Zero fl).
Proof. intros []. by split. Qed.

Lemma view_clear flags a h l z : view flags a h l z ->
  view (Z.land flags (wnot 32 ZEROPAD)) a h l false.
Proof.
  intros []. split; view_bits; rewrite Z.land_spec.
  - change (Z.testbit (wnot 32 (2 ^ 10)) 0) with true. by rewrite andb_true_r.
  - change (Z.testbit (wnot 32 (2 ^ 10)) 1) with true. by rewrite andb_true_r.
  - change (Z.testbit (wnot 32 (2 ^ 10)) 2) with true. by rewrite andb_true_r.
  - change (Z.testbit (wnot 32 (2 ^ 10)) 10) with false. by rewrite andb_false_r.
Qed.

Lemma view_prefix flags a h l z : view flags a h l z -> view (Z.lor flags HEXPREFIX) a true l z.
Proof.
  intros []. split; view_bits; rewrite Z.lor_spec.
  - change (Z.testbit (2 ^ 1) 0) with false. by rewrite orb_false_r.
  - change (Z.testbit (2 ^ 1) 1) with true. by rewrite orb_true_r.
  - change (Z.testbit (2 ^ 1) 2) with false. by rewrite orb_false_r.
  - change (Z.testbit (2 ^ 1) 10) with false. by rewrite orb_false_r.
Qed.

Definition base_of (b : base) : Z := match b with OCT => 8 | DEC => 10 | HEX _ => 16 end.
Definition base_ok (b : base) (up : bool) : Prop :=
  match b with HEX x => x = (if up then HEXDIGITS else hexdigits) | _ => up = false end.

(** The digits of a number as [number] leaves them in [bf]. *)
Definition number_text (b : base) (up alt : bool) (n : Z) (prec : option Z) : list Z :=
  let ds := number_digits up (base_of b) n prec in
  match b, ds with
  | OCT, c :: _ => if alt && negb (c =? 48) then 48 :: ds else ds
  | _, _ => ds
  end.

Lemma digits_ok b up alt hex left zero flags n : base_ok b up -> uint 64 n ->
  view flags alt hex left zero ->
  digits b flags n = Ok (number_text b up alt n None).
Proof.
  intros Hb Hn Hv. unfold number_text, number_digits. cbn [base_of].
  rewrite bool_decide_false, andb_false_r by done. destruct b as [| |x]; cbn [digits base_of base_ok] in *.
  - subst up. destruct (oct_ok n Hn) as [-> Hl]. cbn [mbind res_bind].
    destruct (numeral_spec 8 n ltac:(lia) ltac:(unfold uint in Hn; lia)) as (_ & _ & H3).
    destruct (numeral 8 n) as [|c t]; [cbn in H3; lia|]. cbn [fmap list_fmap lookup list_lookup deref mbind res_bind].
    rewrite (v_alt _ _ _ _ _ Hv). destruct (alt && _); [|done].
    rewrite push_ok by (cbn [length] in *; rewrite length_fmap; unfold KPRINTF_BUFSIZE; lia). done.
  - subst up. by rewrite dec_ok.
  - subst x. by rewrite hex_ok.
Qed.

Lemma number_ok b up alt hex left zero flags n sign ch p :
  base_ok b up -> uint 64 n -> view flags alt hex left zero -> prec_ok p ->
  exists flags', number b n sign ch flags (default (-1) (prec_of p))
    = Ok (Field (Buf (number_text b up alt n (prec_of p)))
            (Z.of_nat (length (number_text b up alt n (prec_of p))))
            (default (-1) (prec_of p)) sign flags' ch)
  /\ view flags' alt hex left (zero && negb (bool_decide (is_Some (prec_of p)))).
Proof.
  intros Hb Hn Hv Hp. unfold number. cbv zeta.
  assert (exists flags', (if 0 <=? default (-1) (prec_of p)
      then Z.land flags (wnot 32 ZEROPAD) else flags) = flags'
    /\ view flags' alt hex left (zero && negb (bool_decide (is_Some (prec_of p))))) as (flags' & -> & Hv').
  { eexists. split; [done|]. destruct p as [|k|z]; cbn [prec_of default from_option id prec_ok] in *.
    - cbn. by rewrite andb_true_r.
    - rewrite (proj2 (Z.leb_le _ _)) by lia. rewrite bool_decide_true by done. cbn.
      rewrite andb_false_r. by eapply view_clear.
    - destruct (z <? 0) eqn:E; zbool; cbn [default from_option id].
      + cbn. by rewrite andb_true_r.
      + rewrite (proj2 (Z.leb_le _ _)) by lia. rewrite bool_decide_true by done. cbn.
        rewrite andb_false_r. by eapply view_clear. }
  exists flags'. split; [|done].
  destruct (negb (n =? 0) || negb (default (-1) (prec_of p) =? 0)) eqn:E.
  - rewrite (digits_ok b up _ _ _ _ _ n Hb Hn Hv'). cbn [mbind res_bind].
    replace (number_text b up alt n None) with (number_text b up alt n (prec_of p)); [done|].
    unfold number_text, number_digits. rewrite (bool_decide_false (None = Some 0)) by done.
    rewrite andb_false_r. replace ((n =? 0) && bool_decide (prec_of p = Some 0)) with false; [done|].
    symmetry. apply andb_false_iff. apply orb_true_iff in E as [E|E]; zbool.
    + left. by apply Z.eqb_neq.
    + right. apply bool_decide_eq_false. intros Ep. by rewrite Ep in E.
  - apply orb_false_iff in E as [E1 E2]. zbool. cbn [mbind res_bind].
    replace (number_text b up alt n (prec_of p)) with (@nil Z); [done|].
    unfold number_text, number_digits. rewrite (proj2 (Z.eqb_eq n 0)) by done.
    rewrite bool_decide_true; [by destruct b|]. destruct (prec_of p); [|done]. cbn in E2. by subst.
Qed.

Lemma digit_chars_ok up b n : 2 <= b <= 16 -> 0 <= n -> bytes_ok (digit_char up <$> numeral b n).
Proof.
  intros Hb Hn. destruct (numeral_spec b n ltac:(lia) Hn) as (H & _ & _).
  apply Forall_fmap. eapply Forall_impl; [exact H|]. intros d Hd. cbn beta in Hd.
  unfold compose, byte_ok, uint, digit_char.
  destruct (d <? 10) eqn:E; [|destruct up]; zbool; lia.
Qed.

Lemma numeral_length b n : 8 <= b -> uint 64 n -> (length (numeral b n) <= 22)%nat.
Proof.
  intros Hb Hn. assert (0 <= n < b ^ Z.of_nat 22) as Hr.
  { eapply uint64_lt; [done|]. apply Z.le_trans with (8 ^ Z.of_nat 22); [vm_compute; done|].
    apply Z.pow_le_mono_l. lia. }
  rewrite (numeral_eq b n 22) by (done || lia).
  destruct (to_digits_spec b ltac:(lia) 22 n) as (_ & _ & ?); [lia|done|lia].
Qed.

Lemma number_text_ok b up alt n prec : base_ok b up -> uint 64 n ->
  bytes_ok (number_text b up alt n prec) /\ Z.of_nat (length (number_text b up alt n prec)) <= 23.
Proof.
  intros Hb Hn. unfold number_text.
  assert (bytes_ok (number_digits up (base_of b) n prec)
    /\ (length (number_digits up (base_of b) n prec) <= 22)%nat) as [H1 H2].
  { unfold number_digits. destruct (_ && _); [split; [constructor|cbn; lia]|]. split.
    - apply digit_chars_ok; [destruct b; cbn [base_of]; lia|unfold uint in Hn; lia].
    - rewrite length_fmap. apply numeral_length; [destruct b; cbn [base_of]; lia|done]. }
  destruct b, (number_digits _ _ _ _) as [|c t]; try (split; [done|lia]).
  destruct (alt && _); [|split; [done|lia]]. cbn [length] in *. split; [|lia].
  by constructor.
Qed.

Lemma numeral_alt fl n prec :
  number_text OCT false (flag_in Alt fl) n prec = alt_octal fl (number_digits false 8 n prec).
Proof. unfold number_text, alt_octal. cbn [base_of]. by destruct (number_digits _ _ _ _). Qed.

Section conversions.
Context (m0 : mem) (o : sink) (bf : Z).

Notation mem_after l r := (k_mem (after m0 o bf l r)).

(** [f] prints what the reference prints for the argument [a]. *)
Record field_for (fl : list flagc) (w p : number_spec) (a : argument) (f : field) : Prop := {
  ff_text : exists T, reads_as m0 o bf (f_text f) T /\ bytes_ok T
    /\ f_size f = Z.of_nat (length T) /\ Z.of_nat (length T) < 2 ^ 31 - 2
    /\ replicate (Z.to_nat (f_dprec f - f_size f)) 48 ++ T = (argument_text fl (prec_of p) a).2;
  ff_prefix : field_prefix f = (argument_text fl (prec_of p) a).1;
  ff_bytes : byte_ok (f_sign f) /\ byte_ok (f_ch f);
  ff_dprec : -1 <= f_dprec f < 2 ^ 31 - 2;
  ff_left : has (f_flags f) LADJUST = flag_in Left fl || negative w;
  ff_zero : has (f_flags f) ZEROPAD
    = flag_in Zero fl && negb (numeric a && bool_decide (is_Some (prec_of p)));
}.

Definition arg_mem (a : argument) : Prop :=
  match a with
  | Str p s => str_at m0 p s /\ safe o bf p (Z.of_nat (S (length s)))
  | _ => True
  end.

Lemma prec_range p : prec_ok p -> -1 <= default (-1) (prec_of p) < 2 ^ 31 - 2.
Proof.
  destruct p as [|n|z]; cbn; [lia|lia|]. destruct (z <? 0) eqn:E; zbool; cbn; lia.
Qed.

Lemma zeros_prec p T :
  replicate (Z.to_nat (default (-1) (prec_of p) - Z.of_nat (length T))) 48 ++ T = zeros (prec_of p) T.
Proof.
  unfold zeros. f_equal. f_equal. destruct (prec_of p); cbn; [done|]. lia.
Qed.

(** The numeric conversions. *)
Lemma number_field fl w p a b up alt hex n sign ch :
  base_ok b up -> uint 64 n -> prec_ok p -> byte_ok sign -> byte_ok ch -> numeric a = true ->
  (argument_text fl (prec_of p) a).2 = zeros (prec_of p) (number_text b up alt n (prec_of p)) ->
  (argument_text fl (prec_of p) a).1
    = (if negb (sign =? 0) then [sign] else if hex : bool then [48; ch] else []) ->
  forall flags, view flags alt hex (flag_in Left fl || negative w) (flag_in Zero fl) ->
  exists f, number b n sign ch flags (default (-1) (prec_of p)) = Ok f /\ field_for fl w p a f.
Proof.
  intros Hb Hn Hp Hs Hch Ha H2 H1 flags Hv.
  destruct (number_ok b up alt hex _ _ flags n sign ch p Hb Hn Hv Hp) as (flags' & -> & Hv').
  destruct (number_text_ok b up alt n (prec_of p) Hb Hn) as [HT Hl].
  eexists. split; [done|]. destruct Hv'. split; cbn [f_text f_size f_dprec f_sign f_flags f_ch].
  - exists (number_text b up alt n (prec_of p)). split_and!; [|done|done|lia|].
    + rewrite <-(app_nil_r (number_text _ _ _ _ _)) at 1. apply reads_buf.
    + by rewrite zeros_prec, H2.
  - unfold field_prefix. cbn [f_sign f_flags f_ch]. by rewrite v_hex0.
  - done.
  - by apply prec_range.
  - done.
  - rewrite Ha. cbn [andb]. done.
Qed.

Lemma byte_const c : 0 <= c < 256 -> byte_ok c.
Proof. done. Qed.

Lemma signed_number_ok fl w p i l v d ap : scanned fl w p l d -> prec_ok p ->
  arg_ok (Signed i l v) ->
  exists f, signed_number (arg_char (Signed i l v)) (c_flags d) (c_prec d) (c_sign d)
    (value_words l v ++ ap) = Ok (Show f, ap) /\ field_for fl w p (Signed i l v) f.
Proof.
  intros Hsc Hp Ha. unfold signed_number. cbn [arg_ok] in Ha.
  rewrite (SARG_ok _ _ _ _ _ _ _ Hsc Ha). cbn [mbind res_bind].
  assert (- 2 ^ 63 <= v < 2 ^ 63) as Hv by (destruct l; cbn [bits_of] in Ha; lia).
  change (s64 (u64 v)) with (signed 64 v). rewrite signed_id by lia.
  rewrite (sc_prec _ _ _ _ _ Hsc), (sc_sign _ _ _ _ _ Hsc).
  pose proof (scanned_view _ _ _ _ _ Hsc) as Hview.
  assert (byte_ok (arg_char (Signed i l v))) as Hch by (destruct i; done).
  destruct (v <? 0) eqn:E; zbool.
  - assert (u64 (- u64 v) = Z.abs v) as ->.
    { replace (- u64 v) with (0 - u64 v) by lia. rewrite wrap_sub_r, wrap_id; unfold uint; lia. }
    destruct (number_field fl w p (Signed i l v) DEC false (flag_in Alt fl) false (Z.abs v) 45
      (arg_char (Signed i l v))) with (flags := c_flags d) as (f & -> & Hf); try done.
    + unfold uint. lia.
    + cbn. unfold sign_text. by rewrite (proj2 (Z.ltb_lt v 0)).
    + by exists f.
  - rewrite wrap_id by (unfold uint; lia).
    destruct (number_field fl w p (Signed i l v) DEC false (flag_in Alt fl) false v
      (if flag_in Plus fl then 43 else if flag_in Space fl then 32 else 0)
      (arg_char (Signed i l v))) with (flags := c_flags d) as (f & -> & Hf); try done.
    + unfold uint. lia.
    + by destruct (flag_in Plus fl), (flag_in Space fl).
    + cbn. by rewrite Z.abs_eq by lia.
    + cbn. unfold sign_text. rewrite (proj2 (Z.ltb_ge v 0)) by done.
      by destruct (flag_in Plus fl), (flag_in Space fl).
    + by exists f.
Qed.

Lemma bits_of_64 l v : 0 <= v < 2 ^ bits_of l -> uint 64 v.
Proof. intros Hv. unfold uint. destruct l; cbn [bits_of] in Hv; lia. Qed.

Lemma unsigned_number_ok fl w p a b ch l v d ap : scanned fl w p l d -> prec_ok p ->
  0 <= v < 2 ^ bits_of l -> base_ok b false -> byte_ok ch -> numeric a = true ->
  argument_text fl (prec_of p) a
    = ([], zeros (prec_of p) (number_text b false (flag_in Alt fl) v (prec_of p))) ->
  exists f, unsigned_number b ch (c_flags d) (c_prec d) (value_words l v ++ ap) = Ok (Show f, ap)
    /\ field_for fl w p a f.
Proof.
  intros Hsc Hp Hv Hb Hch Ha Ht. unfold unsigned_number.
  rewrite (UARG_ok _ _ _ _ _ _ _ Hsc Hv), (sc_prec _ _ _ _ _ Hsc). cbn [mbind res_bind].
  destruct (number_field fl w p a b false (flag_in Alt fl) false v 0 ch)
    with (flags := c_flags d) as (f & -> & Hf); try done.
  - by eapply bits_of_64.
  - by rewrite Ht.
  - by rewrite Ht.
  - by apply (scanned_view _ _ _ _ _ Hsc).
  - by exists f.
Qed.

Lemma hex_number_ok fl w p (up : bool) l v d ap : scanned fl w p l d -> prec_ok p ->
  0 <= v < 2 ^ bits_of l ->
  exists f, hex_number (if up then HEXDIGITS else hexdigits) (if up then 88 else 120)
    (c_flags d) (c_prec d) (value_words l v ++ ap) = Ok (Show f, ap)
    /\ field_for fl w p (Hex up l v) f.
Proof.
  intros Hsc Hp Hv. unfold hex_number.
  rewrite (UARG_ok _ _ _ _ _ _ _ Hsc Hv), (sc_prec _ _ _ _ _ Hsc). cbn [mbind res_bind].
  pose proof (scanned_view _ _ _ _ _ Hsc) as Hview. rewrite (v_alt _ _ _ _ _ Hview).
  set (hex := flag_in Alt fl && negb (v =? 0)).
  assert (view (if hex then Z.lor (c_flags d) HEXPREFIX else c_flags d) (flag_in Alt fl) hex
    (flag_in Left fl || negative w) (flag_in Zero fl)) as Hv'.
  { destruct hex; [by eapply view_prefix|done]. }
  destruct (number_field fl w p (Hex up l v) (HEX (if up then HEXDIGITS else hexdigits)) up
    (flag_in Alt fl) hex v 0 (if up then 88 else 120))
    with (flags := if hex then Z.lor (c_flags d) HEXPREFIX else c_flags d) as (f & Hf1 & Hf); try done.
  - by eapply bits_of_64.
  - by destruct up.
  - cbv zeta. rewrite Hf1. by exists f.
Qed.

Lemma pointer_ok fl w p v d : scanned fl w p Lint d -> prec_ok p -> uint 32 v ->
  exists f, number (HEX hexdigits) v 0 120 (Z.lor (c_flags d) HEXPREFIX) (c_prec d) = Ok f
    /\ field_for fl w p (Pointer v) f.
Proof.
  intros Hsc Hp Hv. rewrite (sc_prec _ _ _ _ _ Hsc).
  apply (number_field fl w p (Pointer v) (HEX hexdigits) false (flag_in Alt fl) true v 0 120);
    try done.
  - eapply uint_mono; [|exact Hv]. lia.
  - eapply view_prefix. by apply (scanned_view _ _ _ _ _ Hsc).
Qed.

(** The other conversions: the text as it is. *)
Lemma plain_field fl w p a t T d ch : scanned fl w p (arg_length a) d ->
  reads_as m0 o bf t T -> bytes_ok T -> Z.of_nat (length T) < 2 ^ 31 - 2 -> byte_ok ch ->
  numeric a = false -> argument_text fl (prec_of p) a = ([], T) ->
  field_for fl w p a (Field t (Z.of_nat (length T)) 0 0 (c_flags d) ch).
Proof.
  intros Hsc Ht HT Hl Hch Ha Htxt. destruct (scanned_view _ _ _ _ _ Hsc).
  split; cbn [f_text f_size f_dprec f_sign f_flags f_ch].
  - exists T. rewrite Htxt. split_and!; try done.
    replace (Z.to_nat (0 - Z.of_nat (length T))) with 0%nat by lia. done.
  - unfold field_prefix. cbn [f_sign f_flags f_ch]. rewrite v_hex0, Htxt. done.
  - done.
  - lia.
  - done.
  - rewrite Ha, v_zero0. by rewrite andb_true_r.
Qed.

Lemma memchr_nul m s : forall n q, str_at m q s ->
  memchr_loop m q 0 n = Ok (if (n <=? length s)%nat then NULL else q + Z.of_nat (length s)).
Proof.
  induction s as [|c s IH]; intros [|n] q H; cbn [memchr_loop length]; try done.
  - str_step H. cbn. by rewrite Z.add_0_r.
  - str_step H. apply str_at_cons in H as (_ & Hc & H). change (u8 0) with 0. nz.
    rewrite IH by done. f_equal. cbn [Nat.leb]. destruct (n <=? length s)%nat; [done|lia].
Qed.

Definition cut_prec (prec : option Z) (s : list Z) : list Z :=
  match prec with Some n => take (Z.to_nat n) s | None => s end.

Lemma string_ok fl w p q s d l r : scanned fl w p Lint d -> prec_ok p ->
  arg_ok (Str q s) -> arg_mem (Str q s) ->
  exists f, string_field (mem_after l r) q (c_flags d) (c_prec d) 115 = Ok f
    /\ field_for fl w p (Str q s) f.
Proof.
  intros Hsc Hp (Hq & Hl & Hb) (Hs & Hsafe).
  pose proof (str_after m0 o bf q s l r Hsafe Hs) as Hsr.
  set (T := cut_prec (prec_of p) s).
  assert (T `prefix_of` s) as [x Hx].
  { unfold T, cut_prec. destruct (prec_of p); [|by exists []; rewrite app_nil_r].
    by exists (drop (Z.to_nat z) s); rewrite take_drop. }
  assert (length s = length T + length x)%nat as Hlen by (by rewrite Hx, length_app).
  exists (Field (At q) (Z.of_nat (length T)) 0 0 (c_flags d) 115). split.
  - unfold string_field. rewrite (sc_prec _ _ _ _ _ Hsc).
    rewrite (proj2 (Z.eqb_neq q NULL)) by (unfold NULL; lia). cbv zeta.
    pose proof (prec_range p Hp). subst T. unfold cut_prec in *.
    destruct (prec_of p) as [n|] eqn:En; cbn [default from_option id] in *.
    + assert (0 <= n) as Hn.
      { destruct p as [|k|z]; cbn in En, Hp; [done|injection En as <-; lia|].
        destruct (z <? 0) eqn:E; [done|]. zbool. injection En as <-. lia. }
      rewrite (proj2 (Z.leb_le 0 n)) by done. unfold memchr.
      rewrite (memchr_nul _ s _ _ Hsr). cbn [mbind res_bind].
      destruct (Z.to_nat n <=? length s)%nat eqn:E.
      * apply Nat.leb_le in E. change (negb (NULL =? NULL)) with false. cbn [mbind res_bind].
        rewrite length_take. do 2 f_equal. lia.
      * apply Nat.leb_gt in E. rewrite (proj2 (Z.eqb_neq _ NULL)) by (unfold NULL; lia).
        cbn [negb mbind res_bind]. rewrite (proj2 (Z.ltb_ge _ _)) by lia.
        rewrite take_ge by lia. do 2 f_equal. lia.
    + rewrite (strlen_spec _ _ s Hsr). done.
  - assert (bytes_ok T) as HT.
    { rewrite Hx in Hb. by apply Forall_app in Hb as [? _]. }
    apply plain_field; try done.
    + apply reads_at.
      * destruct Hs as [Hs _]. rewrite Hx, <-app_assoc in Hs. by apply bytes_at_app in Hs as [? _].
      * intros Ho. destruct (Hsafe Ho); [left|right]; lia.
    + lia.
Qed.

Lemma null_ok fl w p d m : scanned fl w p Lint d -> prec_ok p ->
  exists f, string_field m 0 (c_flags d) (c_prec d) 115 = Ok f
    /\ field_for fl w p NullStr f.
Proof.
  intros Hsc Hp. set (T := cut_prec (prec_of p) null_text).
  assert (exists x, null_text ++ [0] = T ++ x) as [x Hx].
  { unfold T, cut_prec. destruct (prec_of p); [|by eexists].
    exists (drop (Z.to_nat z) null_text ++ [0]). by rewrite app_assoc, take_drop. }
  exists (Field (Buf (null_text ++ [0])) (Z.of_nat (length T)) 0 0 (c_flags d) 115). split.
  - unfold string_field. rewrite (sc_prec _ _ _ _ _ Hsc).
    change (0 =? NULL) with true. cbv zeta iota. pose proof (prec_range p Hp). subst T.
    destruct (prec_of p) as [n|] eqn:En; cbn [default from_option id cut_prec] in *; [|done].
    assert (0 <= n) as Hn.
    { destruct p as [|k|z]; cbn in En, Hp; [done|injection En as <-; lia|].
      destruct (z <? 0) eqn:E; [done|]. zbool. injection En as <-. lia. }
    rewrite (proj2 (Z.leb_le 0 n)) by done. cbn [mbind res_bind].
    assert (n = 0 \/ n = 1 \/ n = 2 \/ n = 3 \/ n = 4 \/ n = 5 \/ n = 6 \/ 7 <= n) as Hc by lia.
    destruct Hc as [->|[->|[->|[->|[->|[->|[->|Hc]]]]]]]; try done.
    rewrite !take_ge by (cbn; lia).
    change (Z.of_nat ∘ fst <$> list_find (fun b => b = 0) (null_text ++ [0])) with (Some 6).
    cbv iota. rewrite (proj2 (Z.ltb_ge n 6)) by lia. done.
  - apply plain_field; try done.
    + rewrite Hx. apply reads_buf.
    + assert (bytes_ok (null_text ++ [0])) as Hb by (by repeat constructor).
      rewrite Hx in Hb. by apply Forall_app in Hb as [? _].
    + apply (f_equal length) in Hx. rewrite !length_app in Hx. cbn in Hx. lia.
Qed.

Lemma u8_int c : u8 (int c) = u8 c.
Proof.
  unfold signed. rewrite <-(wrap_wrap_le 32 8 (sgn 32 (u32 c))), sgn_wrap, wrap_wrap by lia.
  apply wrap_wrap_le. lia.
Qed.

(** Every conversion yields the field of the reference. *)
Lemma conversion_ok fl w p a d ap ret l r : scanned fl w p (arg_length a) d -> prec_ok p ->
  arg_ok a -> arg_mem a ->
  exists f, conversion (mem_after l r) (arg_char a) ret d (arg_words a ++ ap) = Ok (Show f, ap)
    /\ field_for fl w p a f.
Proof.
  intros Hsc Hp Ha Hm. unfold conversion. cbv zeta.
  destruct a as [i l' v|l' v|l' v|up l' v|v|c|q s| |]; cbn [arg_words arg_length app] in *.
  - destruct (signed_number_ok fl w p i l' v d ap Hsc Hp Ha) as (f & Hf & ?). exists f.
    split; [|done]. destruct i; exact Hf.
  - apply (unsigned_number_ok fl w p (Octal l' v) OCT 111 l'); try done.
    cbn [argument_text]. by rewrite numeral_alt.
  - apply (unsigned_number_ok fl w p (Unsigned l' v) DEC 117 l'); done.
  - destruct (hex_number_ok fl w p up l' v d ap Hsc Hp Ha) as (f & Hf & ?). exists f.
    split; [|done]. destruct up; exact Hf.
  - destruct (pointer_ok fl w p v d Hsc Hp Ha) as (f & Hf & ?). exists f. split; [|done].
    cbn [arg_char Z.eqb Pos.eqb orb va_word mbind res_bind]. rewrite wrap_id by done.
    rewrite Hf. done.
  - eexists. split; [done|]. cbn [arg_char]. rewrite <-(app_nil_r [u8 _]).
    apply (plain_field fl w p (Char c) _ [u8 (int c)]); try done.
    + apply reads_buf.
    + repeat constructor; apply wrap_range; lia.
    + cbn [argument_text]. by rewrite u8_int.
  - destruct (string_ok fl w p q s d l r Hsc Hp Ha Hm) as (f & Hf & ?). exists f. split; [|done].
    cbn [arg_char Z.eqb Pos.eqb orb va_word mbind res_bind]. destruct Ha as (Hq & _).
    rewrite wrap_id by (unfold uint; lia). rewrite Hf. done.
  - destruct (null_ok fl w p d (mem_after l r) Hsc Hp) as (f & Hf & ?). exists f. split; [|done].
    cbn [arg_char Z.eqb Pos.eqb orb va_word mbind res_bind]. change (u32 0) with 0. rewrite Hf. done.
  - eexists. split; [done|]. change (u8 (arg_char Percent)) with 37. rewrite <-(app_nil_r [37]).
    apply (plain_field fl w p Percent _ [37]); try done.
    + apply reads_buf.
    + by repeat constructor.
Qed.
End conversions.

(** ** The interpreter *)

Lemma current_start m p t : str_at m p t -> bytes_ok t ->
  exists c, load m p = Ok c /\ current m (schar c) (p + 1) t.
Proof.
  intros Hs Hb. exists (default 0 (head t)). split; [by apply str_at_load|].
  unfold current. replace (p + 1 - 1) with p by lia. split_and!; [done|done|].
  split; [by apply head_byte|by right].
Qed.

Definition piece_ok (m0 : mem) (o : sink) (bf : Z) (x : piece) : Prop :=
  match x with
  | Lit l => bytes_ok l /\ Forall (fun b => b <> 37 /\ b <> 0) l
  | Directive fl w p a => width_ok w /\ prec_ok p /\ arg_ok a /\ arg_mem m0 o bf a
  end.

Lemma decimal_bytes n : 0 <= n -> bytes_ok (decimal n).
Proof. intros Hn. apply digit_chars_ok; lia. Qed.

Lemma piece_text_bytes m0 o bf x : piece_ok m0 o bf x -> bytes_ok (piece_text x).
Proof.
  destruct x as [l|fl w p a]; cbn [piece_ok piece_text]; [by intros []|]. intros (Hw & Hp & _).
  constructor; [done|]. repeat apply Forall_app_2.
  - apply Forall_fmap, Forall_true. by intros [].
  - destruct w; [constructor|apply decimal_bytes; cbn in Hw; lia|by repeat constructor].
  - destruct p; [constructor| |by repeat constructor]. cbn in Hp.
    constructor; [done|]. apply decimal_bytes. lia.
  - destruct (arg_length a); by repeat constructor.
  - repeat constructor. all: pose proof (arg_char_ascii a); lia.
Qed.

Section interpreter.
Context (m0 : mem) (o : sink) (bf : Z).
Context (Hbf : 0 <= bf) (Htail : tobuf o = true -> is_Some (tailp o)).
Context (Hmap : tobuf o = true -> mapped m0 bf (Z.of_nat (cap o bf))).

Notation state l r := (after m0 o bf l r).

Lemma literal_spec k ap : forall l fmt t out r, bytes_ok l -> Forall (fun b => b <> 37 /\ b <> 0) l ->
  str_at m0 fmt (l ++ t) -> safe o bf fmt (Z.of_nat (S (length (l ++ t)))) ->
  0 <= r -> r + Z.of_nat (length l) < 2 ^ 31 ->
  format_loop (length l + k) o fmt ap (state out r)
  = format_loop k o (fmt + Z.of_nat (length l)) ap (state (out ++ l) (r + Z.of_nat (length l))).
Proof.
  induction l as [|b l IH]; intros fmt t out r Hb Hl Hs Hsafe H0 Hr.
  { cbn [length Nat.add]. by rewrite app_nil_r, !Z.add_0_r. }
  apply Forall_cons in Hb as [Hb0 Hb]. apply Forall_cons in Hl as [[H37 Hz] Hl].
  cbn [length Nat.add format_loop app] in *.
  rewrite (str_at_load _ _ _ (str_after m0 o bf fmt (b :: l ++ t) out r Hsafe Hs)).
  cbn [head default from_option id mbind res_bind].
  rewrite (proj2 (Z.eqb_neq b 0) Hz), (proj2 (Z.eqb_neq b 37) H37). cbn [negb].
  change (Kst (k_mem (state out r)) (k_out (state out r)) (k_sbuf (state out r))
    (int (k_ret (state out r) + 1))) with (add_ret 1 (state out r)).
  rewrite add_ret_after, int_id, (putchar_after m0 o bf Hbf Htail Hmap) by (done || lia).
  cbn [mbind res_bind]. apply str_at_cons in Hs as (_ & _ & Hs).
  rewrite (IH (fmt + 1) t) by (done || lia || (intros Ho; destruct (Hsafe Ho); [left|right]; lia)).
  rewrite <-app_assoc. cbn [app].
  replace (fmt + 1 + Z.of_nat (length l)) with (fmt + Z.of_nat (S (length l))) by lia.
  by replace (r + 1 + Z.of_nat (length l)) with (r + Z.of_nat (S (length l))) by lia.
Qed.

Lemma width_range w : width_ok w -> 0 <= width_of w < 2 ^ 31.
Proof. destruct w; cbn; lia. Qed.

Lemma directive_spec k ap fl w p a fmt t out r :
  piece_ok m0 o bf (Directive fl w p a) -> bytes_ok (piece_text (Directive fl w p a) ++ t) ->
  str_at m0 fmt (piece_text (Directive fl w p a) ++ t) ->
  safe o bf fmt (Z.of_nat (S (length (piece_text (Directive fl w p a) ++ t)))) ->
  let res := piece_output (Directive fl w p a) in
  0 <= r -> r + Z.of_nat (length res) < 2 ^ 31 ->
  format_loop (S k) o fmt (piece_words (Directive fl w p a) ++ ap) (state out r)
  = format_loop k o (fmt + Z.of_nat (length (piece_text (Directive fl w p a)))) ap
      (state (out ++ res) (r + Z.of_nat (length res))).
Proof.
  intros (Hw & Hp & Ha & Hm) Hb Hs Hsafe res H0 Hr. cbn [format_loop].
  pose proof (str_after m0 o bf fmt _ out r Hsafe Hs) as Hsr.
  rewrite (str_at_load _ _ _ Hsr). cbn [piece_text app head default from_option id mbind res_bind].
  change (37 =? 0) with false. change (negb (37 =? 37)) with false. cbv iota.
  cbn [piece_text app] in Hsr, Hb. rewrite <-!app_assoc in Hsr, Hb. cbn [app] in Hsr, Hb.
  apply str_at_cons in Hsr as (_ & _ & Hs1). apply Forall_cons in Hb as [_ Hb].
  destruct (current_start _ _ _ Hs1 Hb) as (c & Hc & Hcur).
  rewrite Hc. cbn [mbind res_bind piece_words]. rewrite <-!app_assoc.
  replace (fmt + 1 + 1) with (fmt + 2) in Hcur by lia.
  destruct (scan_directive _ _ _ fl w p a (arg_words a ++ ap) t Hw Hp Hcur) as (s' & -> & _ & Es').
  cbn [mbind res_bind]. rewrite after_ret.
  pose proof (directive_scanned fl w p (arg_length a)) as Hsc.
  destruct (conversion_ok m0 o bf fl w p a _ ap r out r Hsc Hp Ha Hm) as (f & -> & Hf).
  cbn [mbind res_bind]. destruct Hf as [(T & HT1 & HT2 & HT3 & HT4 & HT5) Hpre [Hb1 Hb2] Hdp Hleft Hzero].
  assert (res = layout (has (f_flags f) LADJUST) (has (f_flags f) ZEROPAD) (width_of w)
    (field_prefix f) (replicate (Z.to_nat (f_dprec f - f_size f)) 48 ++ T)) as Eres.
  { unfold res. cbn [piece_output]. rewrite HT5, Hpre, Hleft, Hzero.
    by destruct (argument_text fl (prec_of p) a). }
  rewrite (sc_width _ _ _ _ _ Hsc).
  rewrite (show_after m0 o bf Hbf Htail Hmap f (width_of w) T out r HT1 HT2 HT3 Hb1 Hb2
    (width_range w Hw) Hdp HT4) by (rewrite <-Eres; lia).
  cbn [mbind res_bind]. rewrite <-Eres. f_equal. rewrite Es'. cbn [length].
  rewrite !length_app. cbn [length]. lia.
Qed.

Lemma piece_text_pos x : match x with Lit l => length (piece_text x) = length l
  | Directive _ _ _ _ => (1 <= length (piece_text x))%nat end.
Proof. destruct x; cbn; [done|lia]. Qed.

(** The interpreter prints the pieces one after another. *)
Lemma format_spec ap : forall ps k fmt out r, Forall (piece_ok m0 o bf) ps ->
  str_at m0 fmt (format_text ps) -> safe o bf fmt (Z.of_nat (S (length (format_text ps)))) ->
  (length (format_text ps) < k)%nat ->
  0 <= r -> r + Z.of_nat (length (format_output ps)) < 2 ^ 31 ->
  format_loop k o fmt (format_words ps ++ ap) (state out r)
  = Ok (state (out ++ format_output ps) (r + Z.of_nat (length (format_output ps)))).
Proof.
  unfold format_text, format_words, format_output.
  induction ps as [|x ps IH]; intros k fmt out r Hok Hs Hsafe Hk H0 Hr;
    cbn [fmap list_fmap concat app length] in *.
  { destruct k as [|k]; [lia|]. cbn [format_loop].
    rewrite (str_at_load _ _ _ (str_after m0 o bf fmt [] out r Hsafe Hs)).
    cbn. by rewrite app_nil_r, Z.add_0_r. }
  apply Forall_cons in Hok as [Hx Hok]. pose proof Hs as [Hsb Hsn].
  assert (bytes_ok (piece_text x ++ concat (piece_text <$> ps))) as Hb.
  { apply Forall_app_2; [by eapply piece_text_bytes|]. apply Forall_concat, Forall_fmap.
    eapply Forall_impl; [exact Hok|]. intros y Hy. by eapply piece_text_bytes. }
  rewrite !length_app in Hr, Hk. rewrite Nat2Z.inj_add in Hr.
  assert (str_at m0 (fmt + Z.of_nat (length (piece_text x))) (concat (piece_text <$> ps))) as Hs'.
  { rewrite <-app_assoc in Hsb. apply bytes_at_app in Hsb as [_ Hsb].
    apply Forall_app in Hsn as [_ Hsn]. by split. }
  assert (safe o bf (fmt + Z.of_nat (length (piece_text x)))
    (Z.of_nat (S (length (concat (piece_text <$> ps)))))) as Hsafe'.
  { intros Ho. specialize (Hsafe Ho). rewrite length_app in Hsafe. lia. }
  pose proof (piece_text_pos x) as Hpos.
  assert (exists k', format_loop k o fmt ((piece_words x ++ concat (piece_words <$> ps)) ++ ap)
      (state out r)
    = format_loop k' o (fmt + Z.of_nat (length (piece_text x))) (concat (piece_words <$> ps) ++ ap)
        (state (out ++ piece_output x) (r + Z.of_nat (length (piece_output x))))
    /\ (length (concat (piece_text <$> ps)) < k')%nat) as (k' & -> & Hk').
  { rewrite <-app_assoc. destruct x as [l|fl w p a].
    - destruct Hx as [Hx1 Hx2]. exists (k - length l)%nat. split; [|lia].
      replace k with (length l + (k - length l))%nat at 1 by lia.
      cbn [piece_output] in Hr. apply (literal_spec _ _ l fmt (concat (piece_text <$> ps)));
        [exact Hx1|exact Hx2|exact Hs|exact Hsafe|lia|lia].
    - destruct k as [|k]; [lia|]. exists k. split; [|lia].
      apply (directive_spec k _ fl w p a fmt (concat (piece_text <$> ps)));
        [exact Hx|exact Hb|exact Hs|exact Hsafe|lia|lia]. }
  rewrite (IH k') by (done || lia).
  by rewrite <-app_assoc, length_app, Nat2Z.inj_add, Z.add_assoc.
Qed.
End interpreter.

(** ** printf and snprintf *)

Lemma piece_ok_console m o bf x : piece_ok m o bf x -> piece_ok m (Sink false None) NULL x.
Proof.
  destruct x as [l|fl w p a]; cbn; [done|]. intros (? & ? & ? & Hm). split_and!; try done.
  destruct a; try done. by destruct Hm.
Qed.

Lemma printf_spec m fmt ps ap : Forall (piece_ok m (Sink false None) NULL) ps ->
  str_at m fmt (format_text ps) -> Z.of_nat (length (format_output ps)) < 2 ^ 31 ->
  printf m fmt (format_words ps ++ ap)
  = Ok (m, format_output ps, Z.of_nat (length (format_output ps))).
Proof.
  intros Hok Hs Hl. unfold printf, vprintf, kprintf.
  change (Kst m [] NULL 0) with (after m (Sink false None) NULL [] 0).
  rewrite (format_spec m (Sink false None) NULL); try done.
  pose proof (str_at_fuel _ _ _ Hs). lia.
Qed.

(** What [snprintf] leaves in memory: the output cut to the size, terminated. *)
Definition stored (bf size : Z) (out : list Z) (m : mem) : mem :=
  if (bf =? NULL) || (size =? 0) then m
  else put bf (take (Z.to_nat (size - 1)) out ++ [0]) m.

Lemma snprintf_spec m bf size fmt ps ap : 0 <= bf -> uint 32 size ->
  (bf <> NULL -> mapped m bf size) ->
  Forall (piece_ok m (Sink true (Some (bf + size))) bf) ps ->
  str_at m fmt (format_text ps) ->
  safe (Sink true (Some (bf + size))) bf fmt (Z.of_nat (S (length (format_text ps)))) ->
  Z.of_nat (length (format_output ps)) < 2 ^ 31 ->
  snprintf m bf size fmt (format_words ps ++ ap)
  = Ok (stored bf size (format_output ps) m, Z.of_nat (length (format_output ps))).
Proof.
  intros Hbf Hsize Hm Hok Hs Hsafe Hl. set (o := Sink true (Some (bf + size))) in *.
  set (out := format_output ps) in *.
  assert (cap o bf = if bf =? NULL then 0%nat else Z.to_nat size) as Ecap.
  { unfold cap. destruct (bf =? NULL); [done|]. cbn. f_equal. lia. }
  unfold snprintf, vsnprintf, kprintf. fold o.
  assert (Kst m [] bf 0 = after m o bf [] 0) as ->.
  { unfold after. cbn [tobuf o]. rewrite take_nil. cbn. f_equal. lia. }
  unfold uint in Hsize. rewrite (format_spec m o bf Hbf); try done; try lia.
  2: { intros _. rewrite Ecap. destruct (bf =? NULL) eqn:E; zbool; [intros a ?; lia|].
       rewrite Z2Nat.id by lia. by apply Hm. }
  2: { pose proof (str_at_fuel _ _ _ Hs). lia. }
  cbn [mbind res_bind app]. fold out. rewrite after_ret, Z.add_0_l.
  unfold after, stored. cbn [tobuf o k_mem]. rewrite Ecap.
  destruct (bf =? NULL) eqn:E; cbn [negb andb orb]; [done|]. zbool. specialize (Hm E).
  destruct (size =? 0) eqn:E0; zbool; cbn [orb].
  { subst size. done. }
  rewrite (proj2 (Z.ltb_lt 0 size)) by lia. rewrite wrap_id by (unfold uint; lia).
  destruct (size <=? Z.of_nat (length out)) eqn:E1; zbool.
  - rewrite store_ok; [|apply (mapped_put _ _ _ _ _ Hm); lia|done]. cbn [mbind res_bind].
    do 2 f_equal. destruct (lookup_lt_is_Some_2 out (Z.to_nat (size - 1))) as [x Hx]; [lia|].
    replace (Z.to_nat size) with (S (Z.to_nat (size - 1))) by lia.
    rewrite (take_S_r _ _ _ Hx), !put_snoc, length_take_le by lia.
    replace (bf + Z.of_nat (Z.to_nat (size - 1))) with (bf + (size - 1)) by lia.
    by rewrite insert_insert_eq.
  - rewrite store_ok; [|apply (mapped_put _ _ _ _ _ Hm); lia|done]. cbn [mbind res_bind].
    do 2 f_equal. rewrite !take_ge by lia. by rewrite put_snoc.
Qed.

(** ** Reading a number back *)

Lemma digit_char_digit up d : 0 <= d < 16 ->
  digit (digit_char up d) = d /\ isspace (digit_char up d) = false
  /\ digit_char up d <> 45 /\ digit_char up d <> 43 /\ digit_char up d <> 120
  /\ digit_char up d <> 88 /\ digit_char up d <> 0.
Proof.
  intros Hd. apply (forall_range (fun d => digit (digit_char up d) = d
    /\ isspace (digit_char up d) = false /\ digit_char up d <> 45 /\ digit_char up d <> 43
    /\ digit_char up d <> 120 /\ digit_char up d <> 88 /\ digit_char up d <> 0) 0 16);
    [destruct up; vm_compute; reflexivity|lia].
Qed.

Lemma span_digits (up : bool) b ds : b <= 16 -> in_base b ds ->
  span (fun c => digit c <? b) (digit_char up <$> ds) = length ds
  /\ Strtol.number b (digit_char up <$> ds) = value b ds.
Proof.
  intros Hb H. split.
  - induction H as [|d ds Hd _ IH]; [done|]. cbn [fmap list_fmap span length].
    destruct (digit_char_digit up d) as (-> & _); [lia|].
    rewrite (proj2 (Z.ltb_lt d b)) by lia. by f_equal.
  - unfold Strtol.number, value. generalize 0 as v.
    induction H as [|d ds Hd _ IH]; intros v; [done|]. cbn [fmap list_fmap foldl].
    destruct (digit_char_digit up d) as (-> & _); [lia|]. apply IH.
Qed.

(** A number behind a sign, a blank or, in base 16, the prefix. *)
Inductive number_prefix (b : Z) : list Z -> bool -> Prop :=
  | prefix_none : number_prefix b [] false
  | prefix_minus : number_prefix b [45] true
  | prefix_plus : number_prefix b [43] false
  | prefix_space : number_prefix b [32] false
  | prefix_hex x : b = 16 -> x = 120 \/ x = 88 -> number_prefix b [48; x] false.

Lemma strip_prefix_digits (up : bool) b d ds : 8 <= b <= 16 -> in_base b (d :: ds) ->
  Strtol.strip_prefix b (digit_char up <$> d :: ds) = (b, digit_char up <$> d :: ds).
Proof.
  intros Hb H. unfold Strtol.strip_prefix. rewrite (proj2 (Z.eqb_neq b 0)) by lia.
  destruct ds as [|x ds]; [done|]. cbn [fmap list_fmap].
  apply Forall_cons in H as [_ H]. apply Forall_cons in H as [Hx _].
  destruct (digit_char_digit up x) as (_ & _ & _ & _ & H1 & H2 & _); [lia|].
  rewrite (proj2 (Z.eqb_neq _ 120) H1), (proj2 (Z.eqb_neq _ 88) H2). by rewrite andb_false_r.
Qed.

Lemma parse_printed b (up : bool) P neg d ds : 8 <= b <= 16 -> in_base b (d :: ds) ->
  number_prefix b P neg ->
  parse_int b (P ++ (digit_char up <$> d :: ds))
  = (neg, value b (d :: ds), Some (length P + length (d :: ds))%nat).
Proof.
  intros Hb H HP. set (D := digit_char up <$> d :: ds).
  assert (length D = length (d :: ds)) as HlD by (unfold D; by rewrite length_fmap).
  destruct (span_digits up b (d :: ds) ltac:(lia) H) as [Hspan Hval]. fold D in Hspan, Hval.
  pose proof (Forall_inv H) as Hd. cbn beta in Hd.
  destruct (digit_char_digit up d) as (_ & Hsp & H45 & H43 & _); [lia|].
  assert (drop (span isspace D) D = D) as Hns
    by (unfold D; cbn [fmap list_fmap span]; by rewrite Hsp).
  assert (strip_sign D = (false, D)) as Hsg.
  { unfold D. cbn [fmap list_fmap strip_sign].
    by rewrite (proj2 (Z.eqb_neq _ 45) H45), (proj2 (Z.eqb_neq _ 43) H43). }
  pose proof (strip_prefix_digits up b d ds Hb H) as Hpre. fold D in Hpre.
  assert (forall k, (let n := span (fun c => digit c <? b) D in
      (neg, Strtol.number b (take n D),
       if bool_decide (n = 0%nat) then None else Some (k + length D - length D + n)%nat))
    = (neg, value b (d :: ds), Some (k + length (d :: ds))%nat)) as Hend.
  { intros k. cbv zeta. rewrite Hspan, bool_decide_false by (cbn; lia).
    rewrite take_ge, Hval by lia. do 2 f_equal. lia. }
  unfold parse_int. destruct HP as [| | | |x Hb16 Hx]; cbn [app length].
  - rewrite Hns, Hsg. cbv beta iota. rewrite Hpre. apply (Hend 0%nat).
  - change (drop (span isspace (45 :: D)) (45 :: D)) with (45 :: D).
    change (strip_sign (45 :: D)) with (true, D).
    cbv beta iota. rewrite Hpre. apply (Hend 1%nat).
  - change (drop (span isspace (43 :: D)) (43 :: D)) with (43 :: D).
    change (strip_sign (43 :: D)) with (false, D).
    cbv beta iota. rewrite Hpre. apply (Hend 1%nat).
  - change (drop (span isspace (32 :: D)) (32 :: D)) with (drop (span isspace D) D).
    rewrite Hns, Hsg. cbv beta iota. rewrite Hpre. apply (Hend 1%nat).
  - change (drop (span isspace (48 :: x :: D)) (48 :: x :: D)) with (48 :: x :: D).
    change (strip_sign (48 :: x :: D)) with (false, 48 :: x :: D). cbv beta iota. unfold Strtol.strip_prefix.
    assert (((x =? 120) || (x =? 88)) = true) as -> by (destruct Hx as [-> | ->]; done).
    subst b. change ((16 =? 0) || (16 =? 16)) with true. cbn [andb Z.eqb Pos.eqb].
    apply (Hend 2%nat).
Qed.

(** The conversions that can be read back, the base and the value. *)
Definition base_of_arg (a : argument) : option (Z * Z) :=
  match a with
  | Signed _ _ v | Unsigned _ v => Some (10, v)
  | Octal _ v => Some (8, v)
  | Hex _ _ v => Some (16, v)
  | _ => None
  end.

(** Without width and precision, the output is a prefix and digits. *)
Lemma printed_number fl a b v : arg_ok a -> base_of_arg a = Some (b, v) ->
  exists P up d ds, piece_output (Directive fl Absent Absent a) = P ++ (digit_char up <$> d :: ds)
    /\ number_prefix b P (v <? 0) /\ in_base b (d :: ds) /\ value b (d :: ds) = Z.abs v
    /\ 8 <= b <= 16.
Proof.
  intros Ha Hb.
  assert (forall left zero P body, layout left zero 0 P body = P ++ body) as Hlay.
  { intros left zero P body. unfold layout. cbv zeta.
    replace (Z.to_nat (0 - Z.of_nat (length P + length body))) with 0%nat by lia.
    destruct left, zero; cbn; by rewrite ?app_nil_r. }
  assert (forall up base n, number_digits up base n None = digit_char up <$> numeral base n) as Hnd.
  { intros up base n. unfold number_digits. by rewrite bool_decide_false, andb_false_r. }
  assert (forall base n, 8 <= base -> 0 <= n -> exists d ds, numeral base n = d :: ds
    /\ in_base base (d :: ds) /\ value base (d :: ds) = n) as Hnum.
  { intros base n ??. destruct (numeral_spec base n) as (H1 & H2 & H3); [lia|done|].
    destruct (numeral base n) as [|d ds]; [cbn in H3; lia|]. eauto. }
  cbn [piece_output prec_of]. destruct a as [i l z|l z|l z|up l z| | | | |]; try done;
    injection Hb as <- <-; cbn [argument_text width_of arg_ok] in *; rewrite Hlay, ?Hnd.
  - destruct (Hnum 10 (Z.abs z)) as (d & ds & -> & ? & ?); [lia|lia|].
    exists (sign_text fl z), false, d, ds. split_and!; try done; try lia.
    unfold sign_text. destruct (z <? 0); [constructor|].
    destruct (flag_in Plus fl), (flag_in Space fl); constructor.
  - destruct (Hnum 8 z) as (d & ds & -> & ? & ?); [lia|lia|]. exists [], false.
    rewrite (proj2 (Z.ltb_ge z 0)), Z.abs_eq by lia. unfold alt_octal. cbn [fmap list_fmap].
    destruct (flag_in Alt fl && _).
    + exists 0, (d :: ds). split_and!; try done; try lia; try constructor; done.
    + exists d, ds. split_and!; try done; try lia; constructor.
  - destruct (Hnum 10 z) as (d & ds & -> & ? & ?); [lia|lia|].
    rewrite (proj2 (Z.ltb_ge z 0)), Z.abs_eq by lia.
    exists [], false, d, ds. split_and!; try done; try lia; constructor.
  - destruct (Hnum 16 z) as (d & ds & -> & ? & ?); [lia|lia|].
    rewrite (proj2 (Z.ltb_ge z 0)), Z.abs_eq by lia.
    eexists _, up, d, ds. split_and!; try done; try lia.
    destruct (flag_in Alt fl && _); [|constructor]. constructor; [done|]. destruct up; auto.
Qed.

Lemma printed_string (up : bool) b P neg ds : b <= 16 -> number_prefix b P neg -> in_base b ds ->
  bytes_ok (P ++ (digit_char up <$> ds)) /\ nonzero (P ++ (digit_char up <$> ds))
  /\ (length P <= 2)%nat.
Proof.
  intros Hb HP H.
  assert (bytes_ok (digit_char up <$> ds) /\ nonzero (digit_char up <$> ds)) as [H1 H2].
  { split; apply Forall_fmap; (eapply Forall_impl; [exact H|]); intros d Hd; cbn beta in Hd;
      unfold compose; [|apply (digit_char_digit up d); lia].
    rewrite <-digit_char_byte by lia. apply wrap_range. lia. }
  assert (bytes_ok P /\ nonzero P /\ (length P <= 2)%nat) as (H3 & H4 & H5).
  { destruct HP as [| | | |x _ [-> | ->]]; split_and!; try (cbn; lia); repeat constructor; lia. }
  split_and!; [by apply Forall_app_2|by apply Forall_app_2|done].
Qed.

(** The function that reads what a conversion printed. *)
Definition read_back (a : argument) (b : Z) (m : mem) (p : Z) : res (Z * option Z * Z) :=
  let wide := bits_of (arg_length a) =? 64 in
  match a with
  | Signed _ _ _ => if wide then strtoll m p true b 0 else strtol m p true b 0
  | _ => if wide then strtoull m p true b 0 else strtoul m p true b 0
  end.

(** A value in range is not clamped. *)
Lemma read_value a b v p s m n : arg_ok a -> base_of_arg a = Some (b, v) ->
  8 <= b <= 16 -> str_at m p s -> bytes_ok s ->
  parse_int b s = (v <? 0, Z.abs v, Some n) ->
  read_back a b m p = Ok (v, Some (p + Z.of_nat n), 0).
Proof.
  intros Ha Hb Hb16 Hs Hok Hp. unfold read_back, strtol, strtoll, strtoul, strtoull.
  assert (bad_base b = false) as Hbad
    by (unfold bad_base; rewrite (proj2 (Z.ltb_ge b 0)), (proj2 (Z.eqb_neq b 1)),
          (proj2 (Z.ltb_ge 36 b)) by lia; done).
  assert (forall w, 0 < w -> - 2 ^ (w - 1) <= v < 2 ^ (w - 1) ->
    strtol_width w m p true b 0 = Ok (v, Some (p + Z.of_nat n), 0)) as Hsigned.
  { intros w Hw Hv. rewrite (strtol_width_spec w m p s) by done. unfold ref_convert.
    rewrite Hbad, Hp. unfold ref_signed, LONG_MIN, LONG_MAX, end_of. cbv zeta.
    replace (if v <? 0 then - Z.abs v else Z.abs v) with v
      by (destruct (v <? 0) eqn:E; zbool; lia).
    rewrite (proj2 (Z.leb_le _ v)), (proj2 (Z.leb_le v _)) by lia. cbn [andb default from_option id].
    do 3 f_equal. lia. }
  assert (forall w, 0 < w -> 0 <= v < 2 ^ w ->
    strtoul_width w m p true b 0 = Ok (v, Some (p + Z.of_nat n), 0)) as Hunsigned.
  { intros w Hw Hv. rewrite (strtoul_width_spec w m p s) by done. unfold ref_convert.
    rewrite Hbad, Hp. unfold ref_unsigned, ULONG_MAX, end_of. cbv zeta.
    rewrite (proj2 (Z.ltb_ge v 0)), Z.abs_eq, (proj2 (Z.leb_le _ _)) by lia.
    rewrite wrap_id by done. done. }
  destruct a as [i l z|l z|l z|up l z| | | | |]; try done; injection Hb as <- <-;
    cbn [arg_ok arg_length] in *;
    (destruct (bits_of l =? 64) eqn:E; zbool;
     [rewrite E in Ha|assert (bits_of l <= 32) by (destruct l; cbn in *; lia);
      assert (2 ^ bits_of l <= 2 ^ 32) by (apply Z.pow_le_mono_r; lia);
      assert (2 ^ (bits_of l - 1) <= 2 ^ 31) by (apply Z.pow_le_mono_r; destruct l; cbn in *; lia)]);
    (apply Hsigned || apply Hunsigned); lia.
Qed.

(** ** Properties *)

(** C23: formatted output prints what the format says.  For every format made of
    literal text and directives with any flags, width, precision and length
    modifier, given in the format or as [*], [snprintf] returns the length of
    the whole output and leaves its first [size - 1] characters, terminated, in
    the buffer and nothing anywhere else; [printf] sends the same characters to
    the console.  The numbers are exact for every value, 64-bit ones included,
    and never outgrow the internal buffer. *)
Theorem snprintf_correct m bf size fmt ps ap
    (Hbf : 0 <= bf) (Hsize : uint 32 size) (Hm : bf <> NULL -> mapped m bf size)
    (Hok : Forall (piece_ok m (Sink true (Some (bf + size))) bf) ps)
    (Hs : str_at m fmt (format_text ps))
    (Hsafe : safe (Sink true (Some (bf + size))) bf fmt (Z.of_nat (S (length (format_text ps)))))
    (Hlen : Z.of_nat (length (format_output ps)) < 2 ^ 31) :
  snprintf m bf size fmt (format_words ps ++ ap)
    = Ok (stored bf size (format_output ps) m, Z.of_nat (length (format_output ps)))
  /\ printf m fmt (format_words ps ++ ap)
    = Ok (m, format_output ps, Z.of_nat (length (format_output ps))).
Proof.
  split; [by apply snprintf_spec|]. apply printf_spec; [|done|done].
  eapply Forall_impl; [exact Hok|]. intros x. apply piece_ok_console.
Qed.

(** A buffer of 8 bytes at 100, the format "%05d:%s" at 200, "hi" at 300. *)
Definition sample_pieces : list piece :=
  [Directive [Zero] (Given 5) Absent (Signed false Lint (-42)); Lit [58];
   Directive [] Absent Absent (Str 300 [104; 105])].
Definition sample_fmt : list Z := [37; 48; 53; 100; 58; 37; 115].
Definition sample_mem : mem :=
  put 100 (replicate 8 0) (put 200 (sample_fmt ++ [0]) (put 300 [104; 105; 0] ∅)).

Lemma sample_mem_ok :
  str_at sample_mem 200 sample_fmt /\ str_at sample_mem 300 [104; 105]
  /\ mapped sample_mem 100 8.
Proof.
  unfold sample_mem. split_and!.
  - split; [|repeat constructor; lia].
    apply bytes_at_put_disjoint; [cbn; lia|apply bytes_at_put].
  - split; [|repeat constructor; lia].
    do 2 (apply bytes_at_put_disjoint; [cbn; lia|]). apply bytes_at_put.
  - apply (bytes_at_mapped _ _ (replicate 8 0)), bytes_at_put.
Qed.

Example snprintf_correct_witness :
  snprintf sample_mem 100 8 200 [4294967254; 300]
    = Ok (put 100 [45; 48; 48; 52; 50; 58; 104; 0] sample_mem, 8)
  /\ printf sample_mem 200 [4294967254; 300]
    = Ok (sample_mem, [45; 48; 48; 52; 50; 58; 104; 105], 8).
Proof.
  destruct sample_mem_ok as (H1 & H2 & H3).
  apply (snprintf_correct sample_mem 100 8 200 sample_pieces []).
  - lia.
  - unfold uint. lia.
  - intros _. exact H3.
  - apply Forall_cons. split; [cbn; lia|]. apply Forall_cons. split.
    { split; [by repeat constructor|repeat constructor; lia]. }
    apply Forall_cons. split; [|constructor]. split; [done|]. split; [done|]. split.
    + cbn. split_and!; [lia|lia|lia|by repeat constructor].
    + split; [exact H2|]. intros _. right. vm_compute. discriminate.
  - exact H1.
  - intros _. right. vm_compute. discriminate.
  - vm_compute. reflexivity.
Defined.

(** C24: printing a number and reading it back returns it: whatever [snprintf]
    writes for a signed, unsigned, octal or hexadecimal conversion, with any
    flags and any length modifier, [strtol], [strtoul] or their 64-bit versions
    read as the same value in the same base, up to the end of the string and
    without an error. *)
Theorem print_parse m bf size fmt fl a b v ap
    (Hbf : 0 < bf) (Hsize : uint 31 size) (Hm : mapped m bf size)
    (Ha : arg_ok a) (Hb : base_of_arg a = Some (b, v))
    (Hs : str_at m fmt (piece_text (Directive fl Absent Absent a)))
    (Hsafe : safe (Sink true (Some (bf + size))) bf fmt
       (Z.of_nat (S (length (piece_text (Directive fl Absent Absent a))))))
    (Hfit : Z.of_nat (length (piece_output (Directive fl Absent Absent a))) < size) :
  exists m' n, snprintf m bf size fmt (arg_words a ++ ap) = Ok (m', n)
    /\ read_back a b m' bf = Ok (v, Some (bf + n), 0).
Proof.
  destruct (printed_number fl a b v Ha Hb) as (P & up & d & ds & Eout & HP & Hds & Hv & Hb16).
  set (x := Directive fl Absent Absent a) in *.
  destruct (printed_string up b P _ (d :: ds) ltac:(lia) HP Hds) as (Hbytes & Hnz & HlP).
  rewrite <-Eout in Hbytes, Hnz.
  assert (format_output [x] = piece_output x) as Eo by (unfold format_output; cbn; apply app_nil_r).
  assert (format_text [x] = piece_text x) as Et
    by (unfold format_text; cbn [fmap list_fmap concat]; apply app_nil_r).
  unfold uint in Hsize.
  assert (arg_words a ++ ap = format_words [x] ++ ap) as ->
    by (unfold format_words; cbn; by rewrite app_nil_r).
  rewrite (snprintf_spec m bf size fmt [x] ap); rewrite ?Eo, ?Et; try done; try (unfold uint; lia).
  2: { constructor; [|constructor]. split_and!; try done. by destruct a. }
  eexists _, _. split; [done|]. unfold stored.
  rewrite (proj2 (Z.eqb_neq bf NULL)), (proj2 (Z.eqb_neq size 0)) by (unfold NULL; lia).
  cbn [orb]. rewrite take_ge by lia.
  apply (read_value a b v bf (piece_output x)); try done.
  - split; [apply bytes_at_put|done].
  - rewrite Eout, (parse_printed b up P (v <? 0) d ds), Hv by done.
    by rewrite length_app, length_fmap.
Qed.

(** "%#x" at 200. *)
Definition sample_hex : mem := put 100 (replicate 8 0) (put 200 [37; 35; 120; 0] ∅).

Lemma sample_hex_ok : str_at sample_hex 200 [37; 35; 120] /\ mapped sample_hex 100 8.
Proof.
  unfold sample_hex. split.
  - split; [|repeat constructor; lia].
    apply bytes_at_put_disjoint; [cbn; lia|apply bytes_at_put].
  - apply (bytes_at_mapped _ _ (replicate 8 0)), bytes_at_put.
Qed.

Example print_parse_witness :
  exists m' n, snprintf sample_hex 100 8 200 [48879] = Ok (m', n)
    /\ strtoul m' 100 true 16 0 = Ok (48879, Some (100 + n), 0).
Proof.
  destruct sample_hex_ok as (H1 & H2).
  apply (print_parse sample_hex 100 8 200 [Alt] (Hex false Lint 48879) 16 48879 []).
  - lia.
  - unfold uint. lia.
  - exact H2.
  - cbn. lia.
  - reflexivity.
  - exact H1.
  - intros _. right. vm_compute. discriminate.
  - vm_compute. reflexivity.
Defined.
