(* ===== verification/Interrupt.v ===== *)
(** * Interrupt dispatch (Kernel/Interrupt.cc, Kernel/InterruptHandler.cc)

    Every interrupt line has a default handler that counts its interrupts;
    device handlers are linked behind it on a circular singly linked list.
    [registerHandler] appends to the ring of a line and [handleInterrupt] runs
    the handlers of the ring in order and then acknowledges the interrupt at
    the controller.

    The state is the [next] pointer of every handler object, the sixteen
    counters, the controller pointer and the machine, [W], on which device
    handlers and the controller work through the interfaces [Devices] and
    [InterruptController]. *)

From S2P Require Import Prelude Words Ring.
From Stdlib Require Import ZArith Lia.
From stdpp Require Import prelude gmap list.

Open Scope Z_scope.

(** ** Data *)

Definition MaxInterrupts : Z := 16.

(** The virtual methods of the object at [Interrupt::controller]. *)
Class InterruptController (W : Type) := {
  endOfInterrupt : Z -> W -> res W;
  controller_enableInterrupt : Z -> W -> res W;
  controller_disableInterrupt : Z -> W -> res W;
}.

(** [handleInterrupt] of the device handler at an address. *)
Class Devices (W : Type) := { device_handleInterrupt : loc -> W -> res W }.

(** The address of the static array [interruptHandlers]. *)
Class HandlerTable := { interruptHandlers : loc }.

(** A [DefaultInterruptHandler]: the virtual table, [next] and a 64-bit counter. *)
Definition sizeof_handler : Z := 16.

Record irq_state (W : Type) : Type := IrqState {
  handlers : gmap loc loc;
  counters : list Z;
  controller : loc;
  world : W;
}.

Arguments IrqState {W} _ _ _ _.
Arguments handlers {W} _.
Arguments counters {W} _.
Arguments controller {W} _.
Arguments world {W} _.

Section operations.
Context {W : Type} `{InterruptController W, Devices W, HandlerTable}.
Implicit Types st : irq_state W.

Definition with_handlers st (s : gmap loc loc) : irq_state W :=
  IrqState s (counters st) (controller st) (world st).
Definition with_world st (w : W) : irq_state W :=
  IrqState (handlers st) (counters st) (controller st) w.

Definition setNext (p value : loc) (s : gmap loc loc) : res (gmap loc loc) :=
  _ ← deref (s !! p); Ok (<[p := value]> s).
Definition getNext (p : loc) (s : gmap loc loc) : res loc := deref (s !! p).

(** The constructors: a new handler is linked nowhere, a default handler to
    itself. *)
Definition new_handler (p : loc) (s : gmap loc loc) : gmap loc loc := <[p := 0]> s.
Definition new_default (p : loc) (s : gmap loc loc) : res (gmap loc loc) :=
  setNext p p (new_handler p s).

Definition slot (i : Z) : loc := interruptHandlers + sizeof_handler * i.

(** The static array as its constructors leave it. *)
Fixpoint init_slots (n : nat) (s : gmap loc loc) : res (gmap loc loc) :=
  match n with
  | O => Ok s
  | S n' => s ← init_slots n' s; new_default (slot (Z.of_nat n')) s
  end.

(** The line whose default handler is at [p]. *)
Definition default_line (p : loc) : option nat :=
  let d := p - interruptHandlers in
  if (0 <=? d) && (d <? sizeof_handler * MaxInterrupts) && (d mod sizeof_handler =? 0)
  then Some (Z.to_nat (d / sizeof_handler)) else None.

(** [handleInterrupt], dispatched on the class of the object at [p]. *)
Definition call_handler (p : loc) st : res (irq_state W) :=
  _ ← deref (handlers st !! p);
  match default_line p with
  | Some i =>
      c ← deref (counters st !! i);
      Ok (IrqState (handlers st) (<[i := u64 (c + 1)]> (counters st)) (controller st) (world st))
  | None => w ← device_handleInterrupt p (world st); Ok (with_world st w)
  end.

Definition getInterruptHandler (interrupt : Z) : res loc :=
  kassert (interrupt <? MaxInterrupts);; Ok (slot interrupt).

Fixpoint execute_loop (fuel : nat) (this handler : loc) st : res (irq_state W) :=
  match fuel with
  | O => NoFuel
  | S fuel =>
      st ← call_handler handler st;
      handler ← getNext handler (handlers st);
      if negb (handler =? this) then execute_loop fuel this handler st else Ok st
  end.

(** One round per handler object is enough. *)
Definition ring_fuel (s : gmap loc loc) : nat := S (size s).

Definition executeAllHandlers (this : loc) st : res (irq_state W) :=
  execute_loop (ring_fuel (handlers st)) this this st.

(** [while (p->getNext() != h) p = p->getNext();] *)
Fixpoint append_loop (fuel : nat) (h p : loc) (s : gmap loc loc) : res loc :=
  match fuel with
  | O => NoFuel
  | S fuel =>
      n ← getNext p s;
      if negb (n =? h) then append_loop fuel h n s else Ok p
  end.

Definition appendHandler (h handler : loc) (s : gmap loc loc) : res (gmap loc loc) :=
  p ← append_loop (ring_fuel s) h h s;
  oldNext ← getNext p s;
  s ← setNext p handler s;
  setNext handler oldNext s.

(** [while (p->getNext() != h) { prev = p; p = p->getNext(); }] *)
Fixpoint remove_loop (fuel : nat) (h prev p : loc) (s : gmap loc loc) : res (loc * loc) :=
  match fuel with
  | O => NoFuel
  | S fuel =>
      n ← getNext p s;
      if negb (n =? h) then remove_loop fuel h p n s else Ok (prev, p)
  end.

Definition removeHandler (h handler : loc) (s : gmap loc loc) : res (gmap loc loc) :=
  '(prev, p) ← remove_loop (ring_fuel s) h h h s;
  oldNext ← getNext p s;
  s ← setNext prev oldNext s;
  setNext handler 0 s.

Definition registerHandler (irq : Z) (handler : loc) st : res (bool * irq_state W) :=
  if MaxInterrupts <=? irq then Ok (false, st)
  else
    h ← getInterruptHandler irq;
    s ← appendHandler h handler (handlers st);
    Ok (true, with_handlers st s).

Definition deregisterHandler (irq : Z) (handler : loc) st : res (bool * irq_state W) :=
  if MaxInterrupts <=? irq then Ok (false, st)
  else
    h ← getInterruptHandler irq;
    s ← removeHandler h handler (handlers st);
    Ok (false, with_handlers st s).

Definition enableInterrupt (irq : Z) st : res (bool * irq_state W) :=
  kassert (negb (controller st =? 0));;
  w ← controller_enableInterrupt irq (world st);
  Ok (true, with_world st w).

Definition disableInterrupt (irq : Z) st : res (bool * irq_state W) :=
  kassert (negb (controller st =? 0));;
  w ← controller_disableInterrupt irq (world st);
  Ok (true, with_world st w).

Definition handleInterrupt (irq : Z) st : res (irq_state W) :=
  kassert (irq <? MaxInterrupts);;
  h ← getInterruptHandler irq;
  st ← executeAllHandlers h st;
  kassert (negb (controller st =? 0));;
  w ← endOfInterrupt irq (world st);
  Ok (with_world st w).

Definition setController (c : loc) st : res (irq_state W) :=
  kassert ((controller st =? 0) && negb (c =? 0) || (c =? 0) && negb (controller st =? 0));;
  Ok (IrqState (handlers st) (counters st) c (world st)).

Definition getCounter (irq : Z) st : res Z :=
  _ ← getInterruptHandler irq; deref (counters st !! Z.to_nat irq).
End operations.

(** ** Rings of handlers *)

(** From [a], the addresses [l] and then [b] follow each other. *)
Fixpoint chain (s : gmap loc loc) (a : loc) (l : list loc) (b : loc) : Prop :=
  match l with
  | [] => s !! a = Some b
  | x :: l' => s !! a = Some x /\ chain s x l' b
  end.

Section chains.
Implicit Types (s : gmap loc loc) (l k : list loc) (a b h p x : loc).

Lemma chain_app s a l x k b : chain s a (l ++ x :: k) b <-> chain s a l x /\ chain s x k b.
Proof. revert a; induction l as [|y l IH]; intros a; cbn; [done|]. rewrite IH. tauto. Qed.

Lemma chain_frame s s' a l b : (forall p, p ∈ a :: l -> s' !! p = s !! p) ->
  chain s a l b -> chain s' a l b.
Proof.
  revert a; induction l as [|x l IH]; intros a Hf; cbn.
  - by rewrite Hf by set_solver.
  - intros [H0 H]. rewrite Hf by set_solver. split; [done|]. apply IH; [set_solver|done].
Qed.

Lemma chain_lookup s a l b p : chain s a l b -> p ∈ a :: l -> is_Some (s !! p).
Proof.
  revert a; induction l as [|x l IH]; cbn; intros a H Hp.
  - apply list_elem_of_singleton in Hp as ->. by eexists.
  - apply elem_of_cons in Hp as [->|Hp]; [destruct H as [-> _]; by eexists|]. by apply (IH x (proj2 H)).
Qed.

Lemma chain_fuel s a l b : NoDup (a :: l) -> chain s a l b -> (S (length l) <= size s)%nat.
Proof.
  intros Hnd H. change (S (length l)) with (length (a :: l)).
  rewrite <-(size_dom (D := gset loc)), <-(size_list_to_set (C := gset loc) _ Hnd).
  apply subseteq_size. intros p Hp. apply elem_of_list_to_set in Hp.
  apply elem_of_dom. by eapply chain_lookup.
Qed.

Lemma last_of_elem h l : last_of h l ∈ h :: l.
Proof. apply last_of_in. Qed.

Lemma chain_last s a l b : chain s a l b -> s !! last_of a l = Some b.
Proof.
  revert a; induction l as [|x l IH]; intros a; cbn [chain]; [done|].
  intros [_ H]. rewrite last_of_cons. by apply IH.
Qed.

(** Following the ring finds its last handler, and the one before it. *)
Lemma append_loop_spec s h l : forall p (k : nat), chain s p l h -> h ∉ l -> (length l < k)%nat ->
  append_loop k h p s = Ok (last_of p l).
Proof.
  induction l as [|x l IH]; intros p [|k] H Hh Hk; try (cbn in Hk; lia); cbn [append_loop].
  - cbn in H. unfold getNext. rewrite H. cbn. by rewrite Z.eqb_refl.
  - destruct H as [H0 H]. unfold getNext. rewrite H0. cbn [deref mbind res_bind].
    apply not_elem_of_cons in Hh as [Hx Hh].
    rewrite (proj2 (Z.eqb_neq x h)) by done. cbn [negb]. rewrite last_of_cons.
    apply IH; [done|done|cbn in Hk; lia].
Qed.

Lemma remove_loop_spec s h l x : forall q p (k : nat), chain s p (l ++ [x]) h -> h ∉ l ++ [x] ->
  (S (length l) < k)%nat -> remove_loop k h q p s = Ok (last_of p l, x).
Proof.
  induction l as [|y l IH]; intros q p [|[|k]] H Hh Hk; try (cbn in Hk; lia);
    cbn [app remove_loop] in *; destruct H as [H0 H]; unfold getNext; rewrite H0;
    cbn [deref mbind res_bind]; apply not_elem_of_cons in Hh as [Hy Hh];
    rewrite (proj2 (Z.eqb_neq _ h)) by done; cbn [negb].
  - cbn in H. rewrite H. cbn. by rewrite Z.eqb_refl.
  - rewrite last_of_cons. apply (IH p y (S k)); [done|done|cbn in Hk; lia].
Qed.

Lemma ring_init_ne h l x p : NoDup (h :: l ++ [x]) -> p ∈ h :: l -> p <> x.
Proof.
  change (h :: l ++ [x]) with ((h :: l) ++ [x]). rewrite NoDup_app. intros (_ & Hd & _) Hp ->.
  by apply (Hd x Hp), list_elem_of_singleton.
Qed.

Lemma chain_append s h l x : chain s h l h -> NoDup (h :: l) -> x ∉ h :: l ->
  chain (<[x := h]> (<[last_of h l := x]> s)) h (l ++ [x]) h.
Proof.
  intros H Hnd Hx. apply chain_app. split; [|by apply lookup_insert_eq].
  destruct l as [|y l _] using rev_ind.
  - cbn. rewrite lookup_insert_ne by set_solver. apply lookup_insert_eq.
  - rewrite last_of_snoc. apply chain_app in H as [H _]. apply chain_app. split.
    + eapply chain_frame, H. intros p Hp. pose proof (ring_init_ne _ _ _ _ Hnd Hp).
      rewrite !lookup_insert_ne by set_solver. done.
    + cbn. rewrite lookup_insert_ne by set_solver. apply lookup_insert_eq.
Qed.

Lemma chain_drop_last s h l x : chain s h (l ++ [x]) h -> NoDup (h :: l ++ [x]) ->
  chain (<[last_of h l := h]> s) h l h.
Proof.
  intros H Hnd. apply chain_app in H as [H _]. destruct l as [|y l _] using rev_ind.
  - cbn. apply lookup_insert_eq.
  - rewrite last_of_snoc. apply chain_app in H as [H _]. apply chain_app. split.
    + eapply chain_frame, H. intros p Hp. rewrite app_comm_cons in Hnd.
      apply NoDup_app in Hnd as (Hnd & _ & _). pose proof (ring_init_ne _ _ _ _ Hnd Hp).
      by rewrite lookup_insert_ne.
    + cbn. apply lookup_insert_eq.
Qed.
End chains.

(** ** The lines *)

Definition a_line (i : Z) : Prop := 0 <= i < MaxInterrupts.

Definition set_line (devs : Z -> list loc) (irq : Z) (l : list loc) (i : Z) : list loc :=
  if decide (i = irq) then l else devs i.

Section lines.
Context {W : Type} `{InterruptController W, Devices W, HandlerTable}.
Implicit Types (st : irq_state W) (devs : Z -> list loc).

(** Line [i] has the default handler and then the device handlers [devs i]. *)
Record lines_ok devs st : Prop := {
  lines_chain i : a_line i -> chain (handlers st) (slot i) (devs i) (slot i);
  lines_nodup i : a_line i -> NoDup (devs i);
  lines_device i p : a_line i -> p ∈ devs i -> default_line p = None;
  lines_disjoint i j p : a_line i -> a_line j -> p ∈ devs i -> p ∈ devs j -> i = j;
  lines_counters : length (counters st) = Z.to_nat MaxInterrupts;
}.

(** What the device handlers of a line do to the machine, in order. *)
Fixpoint run_devices (l : list loc) (w : W) : res W :=
  match l with
  | [] => Ok w
  | p :: l' => w ← device_handleInterrupt p w; run_devices l' w
  end.

(** One more interrupt counted on a line. *)
Definition counted (irq : Z) st : irq_state W :=
  IrqState (handlers st)
    (<[Z.to_nat irq := u64 (default 0 (counters st !! Z.to_nat irq) + 1)]> (counters st))
    (controller st) (world st).

Lemma default_line_slot i : a_line i -> default_line (slot i) = Some (Z.to_nat i).
Proof.
  unfold a_line, default_line, slot, sizeof_handler, MaxInterrupts. intros Hi.
  replace (interruptHandlers + 16 * i - interruptHandlers) with (i * 16) by lia.
  rewrite Z.mod_mul, Z.div_mul by lia.
  rewrite (proj2 (Z.leb_le 0 _)), (proj2 (Z.ltb_lt _ _)) by lia. done.
Qed.

Lemma slot_inj i j : slot i = slot j -> i = j.
Proof. unfold slot, sizeof_handler. lia. Qed.

(** A default handler is on no ring but its own. *)
Lemma slot_not_device devs st i j : lines_ok devs st -> a_line i -> a_line j -> slot i ∉ devs j.
Proof.
  intros Hok Hi Hj Hin. apply (lines_device _ _ Hok) in Hin; [|done].
  by rewrite default_line_slot in Hin.
Qed.

Lemma lines_ring devs st i : lines_ok devs st -> a_line i -> NoDup (slot i :: devs i).
Proof.
  intros Hok Hi. apply NoDup_cons. split; [by eapply slot_not_device|by eapply lines_nodup].
Qed.

Lemma lines_apart devs st i j p : lines_ok devs st -> a_line i -> a_line j -> i <> j ->
  p ∈ slot i :: devs i -> p ∉ slot j :: devs j.
Proof.
  intros Hok Hi Hj Hij Hp Hq. apply elem_of_cons in Hp as [->|Hp], Hq as [Hq|Hq].
  - by apply Hij, slot_inj.
  - by apply (slot_not_device _ _ i j Hok Hi Hj).
  - subst p. by apply (slot_not_device _ _ j i Hok Hj Hi).
  - apply Hij. by eapply (lines_disjoint _ _ Hok).
Qed.

Lemma getInterruptHandler_ok i : a_line i -> getInterruptHandler i = Ok (slot i).
Proof.
  unfold a_line, getInterruptHandler. intros Hi. by rewrite (proj2 (Z.ltb_lt _ _)) by lia.
Qed.

(** ** Dispatch *)

Lemma call_handler_handlers p st st' : call_handler p st = Ok st' -> handlers st' = handlers st.
Proof.
  unfold call_handler. destruct (handlers st !! p); [|done]. cbn.
  destruct (default_line p) as [i|]; intros E; res_inv; done.
Qed.

Lemma execute_loop_spec h l : forall p (k : nat) st, chain (handlers st) p l h -> h ∉ l ->
  Forall (fun q => default_line q = None) l -> (length l < k)%nat ->
  execute_loop k h p st
  = (st' ← call_handler p st; w ← run_devices l (world st'); Ok (with_world st' w)).
Proof.
  induction l as [|x l IH]; intros p [|k] st Hc Hh Hd Hk; try (cbn in Hk; lia);
    cbn [execute_loop]; destruct (call_handler p st) as [st'| | |] eqn:E; try done;
    cbn [mbind res_bind]; pose proof (call_handler_handlers _ _ _ E) as Hs;
    unfold getNext; rewrite Hs.
  - cbn in Hc. rewrite Hc. cbn. rewrite Z.eqb_refl. by destruct st'.
  - destruct Hc as [Hx Hc]. apply not_elem_of_cons in Hh as [Hxh Hh].
    apply Forall_cons in Hd as [Hdx Hd]. rewrite Hx. cbn [deref mbind res_bind].
    rewrite (proj2 (Z.eqb_neq x h)) by done. cbn [negb].
    rewrite IH; [|by rewrite Hs|done|done|cbn in Hk; lia].
    unfold call_handler. rewrite Hs. destruct (chain_lookup _ _ _ _ x Hc) as [v Hv]; [left|].
    rewrite Hv, Hdx. cbn [deref mbind res_bind run_devices].
    destruct (device_handleInterrupt x (world st')); done.
Qed.

Lemma executeAllHandlers_spec devs st irq : lines_ok devs st -> a_line irq ->
  executeAllHandlers (slot irq) st
  = (w ← run_devices (devs irq) (world st); Ok (with_world (counted irq st) w)).
Proof.
  intros Hok Hi. pose proof (lines_chain _ _ Hok irq Hi) as Hc.
  unfold executeAllHandlers. rewrite (execute_loop_spec _ (devs irq)).
  - unfold call_handler. destruct (chain_lookup _ _ _ _ (slot irq) Hc) as [v Hv]; [left|].
    rewrite Hv, default_line_slot by done. cbn [deref mbind res_bind].
    destruct (lookup_lt_is_Some_2 (counters st) (Z.to_nat irq)) as [c Ec].
    { rewrite (lines_counters _ _ Hok). unfold a_line in Hi. lia. }
    unfold counted. rewrite Ec. done.
  - done.
  - by eapply slot_not_device.
  - apply Forall_forall. intros p. by apply (lines_device _ _ Hok).
  - unfold ring_fuel. pose proof (chain_fuel _ _ _ _ (lines_ring _ _ _ Hok Hi) Hc). lia.
Qed.

(** ** Registration *)

(** A handler object that has been constructed and is on no ring. *)
Definition fresh_handler devs st (x : loc) : Prop :=
  handlers st !! x = Some 0 /\ default_line x = None /\ forall i, a_line i -> x ∉ devs i.

Lemma fresh_apart devs st x i : fresh_handler devs st x -> a_line i -> x ∉ slot i :: devs i.
Proof.
  intros (_ & Hd & Hx) Hi. apply not_elem_of_cons. split; [|by apply Hx].
  intros ->. by rewrite default_line_slot in Hd.
Qed.

Lemma setNext_ok s p v : is_Some (s !! p) -> setNext p v s = Ok (<[p := v]> s).
Proof. unfold setNext. by intros [w ->]. Qed.

Lemma appendHandler_spec devs st irq x : lines_ok devs st -> a_line irq ->
  fresh_handler devs st x ->
  appendHandler (slot irq) x (handlers st)
  = Ok (<[x := slot irq]> (<[last_of (slot irq) (devs irq) := x]> (handlers st))).
Proof.
  intros Hok Hi Hx. pose proof (lines_chain _ _ Hok irq Hi) as Hc.
  pose proof (lines_ring _ _ _ Hok Hi) as Hnd. unfold appendHandler.
  rewrite (append_loop_spec _ _ (devs irq)); [|done|by apply NoDup_cons in Hnd as [? _]|].
  2: { unfold ring_fuel. pose proof (chain_fuel _ _ _ _ Hnd Hc). lia. }
  cbn [mbind res_bind]. unfold getNext. rewrite (chain_last _ _ _ _ Hc). cbn [deref mbind res_bind].
  rewrite setNext_ok by (eapply chain_lookup; [exact Hc|apply last_of_elem]).
  cbn [mbind res_bind]. apply setNext_ok. destruct Hx as (Hx & _).
  destruct (decide (x = last_of (slot irq) (devs irq))) as [<-|Hne].
  - rewrite lookup_insert_eq. by eexists.
  - rewrite lookup_insert_ne by done. rewrite Hx. by eexists.
Qed.

(** Rewiring one line leaves the others alone. *)
Lemma lines_update devs st irq l s : lines_ok devs st -> a_line irq ->
  NoDup l -> (forall p, p ∈ l -> default_line p = None) ->
  (forall p i, a_line i -> p ∈ l -> p ∈ devs i -> i = irq) ->
  chain s (slot irq) l (slot irq) ->
  (forall i p, a_line i -> i <> irq -> p ∈ slot i :: devs i -> s !! p = handlers st !! p) ->
  lines_ok (set_line devs irq l) (with_handlers st s).
Proof.
  intros Hok Hi Hnd Hdev Hdis Hc Hf. unfold set_line. constructor; cbn.
  - intros i Hli. case_decide as E; [by subst i|].
    eapply chain_frame; [|exact (lines_chain _ _ Hok i Hli)]. intros p. by apply Hf.
  - intros i Hli. case_decide; [done|by eapply lines_nodup].
  - intros i p Hli. case_decide; [by apply Hdev|by apply (lines_device _ _ Hok)].
  - intros i j p Hli Hlj. repeat case_decide; subst; intros; try done.
    + symmetry. by apply (Hdis p).
    + by apply (Hdis p).
    + by apply (lines_disjoint _ _ Hok i j p).
  - apply (lines_counters _ _ Hok).
Qed.

Lemma registerHandler_spec devs st irq x : lines_ok devs st -> a_line irq ->
  fresh_handler devs st x -> exists s,
  registerHandler irq x st = Ok (true, with_handlers st s)
  /\ lines_ok (set_line devs irq (devs irq ++ [x])) (with_handlers st s).
Proof.
  intros Hok Hi Hx. eexists. split.
  - unfold registerHandler. rewrite (proj2 (Z.leb_gt _ _)) by (unfold a_line in Hi; lia).
    rewrite getInterruptHandler_ok by done. cbn [mbind res_bind].
    rewrite (appendHandler_spec devs) by done. done.
  - pose proof (lines_ring _ _ _ Hok Hi) as Hnd. pose proof (fresh_apart _ _ _ _ Hx Hi) as Hx'.
    apply lines_update; [done|done| | | | |].
    + apply NoDup_app. apply NoDup_cons in Hnd as [_ Hnd]. split_and!; [done| |apply NoDup_singleton].
      intros p Hp ->%list_elem_of_singleton. by apply Hx'; right.
    + intros p [Hp| ->%list_elem_of_singleton]%elem_of_app; [|by apply Hx].
      by apply (lines_device _ _ Hok irq).
    + intros p i Hli [Hp| ->%list_elem_of_singleton]%elem_of_app Hq.
      * by eapply (lines_disjoint _ _ Hok).
      * by apply Hx in Hq.
    + by apply chain_append; [apply (lines_chain _ _ Hok)| |].
    + intros i p Hli Hne Hp. pose proof (lines_apart _ _ i irq p Hok Hli Hi Hne Hp) as Hq.
      pose proof (last_of_elem (slot irq) (devs irq)). pose proof (fresh_apart _ _ _ _ Hx Hli).
      rewrite !lookup_insert_ne; [done| |]; intros E; rewrite <-?E in *; done.
Qed.
(** ** Deregistration *)

Lemma removeHandler_spec devs st irq l x y : lines_ok devs st -> a_line irq ->
  devs irq = l ++ [x] -> is_Some (handlers st !! y) ->
  removeHandler (slot irq) y (handlers st)
  = Ok (<[y := 0]> (<[last_of (slot irq) l := slot irq]> (handlers st))).
Proof.
  intros Hok Hi El Hy. pose proof (lines_chain _ _ Hok irq Hi) as Hc.
  pose proof (lines_ring _ _ _ Hok Hi) as Hnd. rewrite El in *. unfold removeHandler.
  rewrite (remove_loop_spec _ _ l x); [|done|by apply NoDup_cons in Hnd as [? _]|].
  2: { unfold ring_fuel. pose proof (chain_fuel _ _ _ _ Hnd Hc) as Hf.
       rewrite length_app in Hf. cbn in Hf. lia. }
  cbn [mbind res_bind]. unfold getNext. apply chain_app in Hc as [Hc Hx]. cbn in Hx.
  rewrite Hx. cbn [deref mbind res_bind]. rewrite setNext_ok by (eexists; by eapply chain_last).
  cbn [mbind res_bind]. apply setNext_ok. by apply lookup_insert_is_Some'; right.
Qed.

(** Deregistering the last handler of the line takes it off the ring. *)
Lemma remove_last_ok devs st irq l x : lines_ok devs st -> a_line irq ->
  devs irq = l ++ [x] ->
  let st' := with_handlers st (<[x := 0]> (<[last_of (slot irq) l := slot irq]> (handlers st))) in
  lines_ok (set_line devs irq l) st' /\ fresh_handler (set_line devs irq l) st' x.
Proof.
  intros Hok Hi El. pose proof (lines_chain _ _ Hok irq Hi) as Hc.
  pose proof (lines_ring _ _ _ Hok Hi) as Hnd. rewrite El in Hc, Hnd.
  assert (x ∉ slot irq :: l) as Hxl by (intros Hx; by apply (ring_init_ne _ _ _ _ Hnd Hx)).
  assert (forall p, p ∈ l -> p ∈ devs irq) as Hl by (intros p ?; rewrite El; set_solver).
  assert (x ∈ devs irq) as Hx by (rewrite El; set_solver).
  split.
  - apply lines_update; [done|done| | | | |].
    + rewrite app_comm_cons in Hnd. apply NoDup_app in Hnd as (Hnd & _ & _).
      by apply NoDup_cons in Hnd as [_ ?].
    + intros p Hp. by apply (lines_device _ _ Hok irq), Hl.
    + intros p i Hli Hp Hq. by apply (lines_disjoint _ _ Hok i irq p), Hl.
    + eapply chain_frame; [|by apply (chain_drop_last (handlers st) _ _ x)]. intros p Hp.
      rewrite lookup_insert_ne; [done|]. by intros ->.
    + intros i p Hli Hne Hp. pose proof (lines_apart _ _ i irq p Hok Hli Hi Hne Hp) as Hq.
      pose proof (last_of_elem (slot irq) l) as Hlast.
      rewrite !lookup_insert_ne; [done| |]; intros <-; apply Hq; rewrite El; set_solver.
  - split_and!; [apply lookup_insert_eq|by apply (lines_device _ _ Hok irq)|].
    intros i Hli. unfold set_line. case_decide as E; [set_solver|].
    intros Hq. by apply E, (lines_disjoint _ _ Hok i irq x).
Qed.

Definition devices_succeed : Prop := forall p w, exists w', device_handleInterrupt p w = Ok w'.

(** A handler whose [next] is null stops the machine. *)
Lemma execute_loop_null h l y : devices_succeed -> forall p (k : nat) st,
  chain (handlers st) p l y -> h ∉ l ++ [y] -> h <> 0 ->
  handlers st !! y = Some 0 -> handlers st !! 0 = None ->
  Forall (fun q => default_line q = None) (l ++ [y]) ->
  (forall i, default_line p = Some i -> (i < length (counters st))%nat) ->
  (S (S (length l)) < k)%nat -> execute_loop k h p st = Fault.
Proof.
  intros Hdev. induction l as [|x l IH]; intros p k st Hc Hh Hh0 Hy Hn Hd Hp Hk;
    (destruct k as [|k]; [cbn in Hk; lia|]); cbn [execute_loop].
  all: assert (exists st', call_handler p st = Ok st' /\ handlers st' = handlers st
         /\ length (counters st') = length (counters st)) as (st' & -> & Hs & Hcs)
    by (unfold call_handler; destruct (chain_lookup _ _ _ _ p Hc) as [v ->]; [left|];
        cbn [deref mbind res_bind]; destruct (default_line p) as [i|] eqn:Ed;
        [destruct (lookup_lt_is_Some_2 (counters st) i) as [c ->]; [by apply Hp|];
         cbn; eexists; split_and!; [done|done|cbn; by rewrite length_insert]
        |destruct (Hdev p (world st)) as [w ->]; by eexists]).
  all: cbn [mbind res_bind]; unfold getNext; rewrite Hs.
  - cbn in Hc. rewrite Hc. cbn [deref mbind res_bind].
    rewrite (proj2 (Z.eqb_neq y h)) by (intros ->; apply Hh; left). cbn [negb].
    destruct k as [|k]; [cbn in Hk; lia|]. cbn [execute_loop].
    apply Forall_cons in Hd as [Hd _]. unfold call_handler at 1. rewrite Hs, Hy, Hd.
    cbn [deref mbind res_bind]. destruct (Hdev y (world st')) as [w ->].
    cbn [mbind res_bind with_world handlers]. unfold getNext. rewrite Hs, Hy. cbn [deref mbind res_bind].
    rewrite (proj2 (Z.eqb_neq 0 h)) by congruence. cbn [negb].
    destruct k as [|k]; [cbn in Hk; lia|]. cbn [execute_loop].
    unfold call_handler, with_world. cbn [handlers]. by rewrite Hs, Hn.
  - destruct Hc as [Hx Hc]. rewrite Hx. cbn [deref mbind res_bind]. cbn [app] in *.
    apply not_elem_of_cons in Hh as [Hxh Hh]. apply Forall_cons in Hd as [Hdx Hd].
    rewrite (proj2 (Z.eqb_neq x h)) by done. cbn [negb].
    apply IH; rewrite ?Hs; try done; [|cbn in Hk; lia]. by rewrite Hdx.
Qed.

(** Deregistering any other handler of the line cuts the ring. *)
Lemma remove_inner_fault devs st irq l1 y l2 x : devices_succeed ->
  lines_ok devs st -> a_line irq -> devs irq = l1 ++ y :: l2 ++ [x] ->
  slot irq <> 0 -> y <> 0 -> last_of (slot irq) (l1 ++ y :: l2) <> 0 -> handlers st !! 0 = None ->
  handleInterrupt irq (with_handlers st
    (<[y := 0]> (<[last_of (slot irq) (l1 ++ y :: l2) := slot irq]> (handlers st)))) = Fault.
Proof.
  intros Hdev Hok Hi El Hs0 Hy0 Hlast0 Hn. pose proof (lines_chain _ _ Hok irq Hi) as Hc.
  pose proof (lines_ring _ _ _ Hok Hi) as Hnd. pose proof (chain_fuel _ _ _ _ Hnd Hc) as Hf.
  unfold handleInterrupt, executeAllHandlers, ring_fuel.
  rewrite (proj2 (Z.ltb_lt _ _)) by (unfold a_line in Hi; lia). cbn [kassert mbind res_bind].
  rewrite getInterruptHandler_ok by done. cbn [mbind res_bind].
  set (last := last_of (slot irq) (l1 ++ y :: l2)) in *.
  assert (last ∈ y :: l2) as Hlast.
  { unfold last, last_of. rewrite last_app_cons. destruct (list.last (y :: l2)) as [z|] eqn:E.
    - by apply last_Some_elem_of in E.
    - by apply last_None in E. }
  rewrite El in Hnd. assert (NoDup ((slot irq :: l1) ++ y :: l2 ++ [x])) as Hnd' by done.
  apply NoDup_app in Hnd' as (_ & Hapart & _).
  rewrite (execute_loop_null (slot irq) l1 y); [done|done| | |done| | | | |].
  - rewrite El in Hc. apply chain_app in Hc as [Hc _]. cbn [with_handlers handlers].
    eapply chain_frame, Hc. intros p Hp. apply Hapart in Hp.
    rewrite !lookup_insert_ne; [done| |]; intros <-; apply Hp; set_solver.
  - apply NoDup_cons in Hnd as [Hnd _]. set_solver.
  - apply lookup_insert_eq.
  - cbn [with_handlers handlers]. by rewrite !lookup_insert_ne.
  - apply Forall_forall. intros p Hp. apply (lines_device _ _ Hok irq); [done|].
    rewrite El. set_solver.
  - intros i. rewrite default_line_slot by done. intros [= <-]. cbn.
    rewrite (lines_counters _ _ Hok). unfold a_line in Hi. lia.
  - cbn [with_handlers handlers]. rewrite !map_size_insert.
    rewrite El, !length_app in Hf. cbn [length] in Hf. rewrite length_app in Hf. cbn in Hf.
    repeat case_match; unfold id; lia.
Qed.

(** ** Contracts *)

(** Registering a fresh handler on a line keeps every ring intact and puts
    the handler last on its line, and refuses a line that does not exist; an
    interrupt counts once, runs every device handler of its line exactly once in
    the order of registration, and is then acknowledged. *)
Lemma register_last devs st irq x (Hok : lines_ok devs st) (Hi : 0 <= irq)
  (Hx : fresh_handler devs st x) :
  (MaxInterrupts <= irq -> registerHandler irq x st = Ok (false, st)
                           /\ handleInterrupt irq st = Panic)
  /\ (irq < MaxInterrupts ->
      (exists s, registerHandler irq x st = Ok (true, with_handlers st s)
        /\ lines_ok (set_line devs irq (devs irq ++ [x])) (with_handlers st s))
      /\ handleInterrupt irq st
         = (w ← run_devices (devs irq) (world st);
            kassert (negb (controller st =? 0));;
            w ← endOfInterrupt irq w;
            Ok (with_world (counted irq st) w))).
Proof.
  split; intros Hm.
  - unfold registerHandler, handleInterrupt.
    by rewrite (proj2 (Z.leb_le _ _) Hm), (proj2 (Z.ltb_ge _ _) Hm).
  - assert (a_line irq) as Hl by done. split; [by apply registerHandler_spec|].
    unfold handleInterrupt. rewrite (proj2 (Z.ltb_lt _ _) Hm). cbn [kassert mbind res_bind].
    rewrite getInterruptHandler_ok by done. cbn [mbind res_bind].
    rewrite (executeAllHandlers_spec devs) by done.
    by destruct (run_devices (devs irq) (world st)).
Qed.

(** [deregisterHandler] unlinks the last handler of the line, whichever
    handler it is asked to remove, and always reports failure.  Asked for the
    last handler it leaves the line well formed; asked for an earlier one it
    breaks the ring at it, and the next interrupt on the line dereferences a
    null pointer. *)
Lemma deregister_last_spec devs st irq l x y (Hok : lines_ok devs st) (Hi : a_line irq)
  (El : devs irq = l ++ [x]) (Hy : y ∈ devs irq) (Hdev : devices_succeed)
  (Hs0 : slot irq <> 0) (Hd0 : 0 ∉ devs irq) (Hn : handlers st !! 0 = None) :
  exists st', deregisterHandler irq y st = Ok (false, st')
  /\ (y = x -> lines_ok (set_line devs irq l) st'
               /\ fresh_handler (set_line devs irq l) st' x)
  /\ (y <> x -> handleInterrupt irq st' = Fault).
Proof.
  assert (is_Some (handlers st !! y)) as Hys.
  { eapply chain_lookup; [by apply (lines_chain _ _ Hok)|by right]. }
  eexists. split; [|split].
  - unfold deregisterHandler. rewrite (proj2 (Z.leb_gt _ _)) by (unfold a_line in Hi; lia).
    rewrite getInterruptHandler_ok by done. cbn [mbind res_bind].
    by rewrite (removeHandler_spec devs st irq l x y).
  - intros ->. by apply remove_last_ok.
  - intros Hyx. rewrite El in Hy, Hd0. apply elem_of_app in Hy as [Hy|Hy]; [|set_solver].
    apply list_elem_of_split in Hy as (l1 & l2 & ->).
    apply (remove_inner_fault devs st irq l1 y l2 x); try done.
    + by rewrite El, <-app_assoc.
    + intros ->. set_solver.
    + unfold last_of. rewrite last_app_cons. destruct (list.last (y :: l2)) as [z|] eqn:E; [|done].
      apply last_Some_elem_of in E. cbn. intros ->. set_solver.
Qed.

(** C25: registering a fresh handler on a line keeps every ring intact and puts
    the handler last on its line, and refuses a line that does not exist; an
    interrupt counts once, runs every device handler of its line exactly once in
    the order of registration, and is then acknowledged.  [deregisterHandler]
    unlinks the last handler of the line, whichever handler it is asked to
    remove, and always reports failure.  Asked for the last handler it leaves the
    line well formed; asked for an earlier one it breaks the ring at it, and the
    next interrupt on the line dereferences a null pointer. *)
Theorem handlers_correct devs st irq x (Hok : lines_ok devs st) (Hi : 0 <= irq)
  (Hx : fresh_handler devs st x) :
  (MaxInterrupts <= irq -> registerHandler irq x st = Ok (false, st)
                           /\ handleInterrupt irq st = Panic)
  /\ (irq < MaxInterrupts ->
      (exists s, registerHandler irq x st = Ok (true, with_handlers st s)
        /\ lines_ok (set_line devs irq (devs irq ++ [x])) (with_handlers st s))
      /\ handleInterrupt irq st
         = (w ← run_devices (devs irq) (world st);
            kassert (negb (controller st =? 0));;
            w ← endOfInterrupt irq w;
            Ok (with_world (counted irq st) w)))
  /\ (forall l last y, irq < MaxInterrupts -> devs irq = l ++ [last] -> y ∈ devs irq ->
      devices_succeed -> slot irq <> 0 -> 0 ∉ devs irq -> handlers st !! 0 = None ->
      exists st', deregisterHandler irq y st = Ok (false, st')
        /\ (y = last -> lines_ok (set_line devs irq l) st'
                        /\ fresh_handler (set_line devs irq l) st' last)
        /\ (y <> last -> handleInterrupt irq st' = Fault)).
Proof.
  destruct (register_last devs st irq x Hok Hi Hx) as [Hno Hyes].
  split; [exact Hno|split; [exact Hyes|]]. intros l last y Hm El Hy Hdev Hs0 Hd0 Hn.
  by apply (deregister_last_spec devs st irq l last y).
Qed.
End lines.

(** ** A machine with two devices on line 1 *)

Section sample.
#[local] Instance sample_table : HandlerTable := {| interruptHandlers := 4096 |}.
#[local] Instance sample_devices : Devices (list Z) :=
  {| device_handleInterrupt p w := Ok (w ++ [p]) |}.
#[local] Instance sample_controller : InterruptController (list Z) :=
  {| endOfInterrupt irq w := Ok (w ++ [irq]);
     controller_enableInterrupt _ w := Ok w; controller_disableInterrupt _ w := Ok w |}.

(** The ring as the constructors and two registrations leave it. *)
Definition sample_state : irq_state (list Z) :=
  match (s ← init_slots 16 ∅;
         let st := IrqState (new_handler 8 (new_handler 9 (new_handler 10 s)))
                     (replicate 16 0) 1 [] in
         '(_, st) ← registerHandler 1 8 st;
         '(_, st) ← registerHandler 1 9 st; Ok st)
  with Ok st => st | _ => IrqState ∅ [] 0 [] end.

Definition sample_devs (i : Z) : list loc := if i =? 1 then [8; 9] else [].

Lemma sample_lines_ok : lines_ok sample_devs sample_state.
Proof.
  assert (forall i, a_line i -> i <> 1 -> handlers sample_state !! slot i = Some (slot i)) as Hs.
  { intros i Hi Hne. unfold a_line, MaxInterrupts in Hi.
    assert (i ∈ seqZ 0 16) as Hin by (apply elem_of_seqZ; lia). clear Hi.
    assert (forallb (fun i => (i =? 1) || bool_decide (handlers sample_state !! slot i = Some (slot i)))
      (seqZ 0 16) = true) as Hall by (vm_compute; reflexivity).
    rewrite forallb_forall in Hall. apply list_elem_of_In, Hall in Hin.
    apply orb_true_iff in Hin as [Hin|Hin]; [zbool; lia|]. by apply bool_decide_eq_true in Hin. }
  constructor.
  - intros i Hi. unfold sample_devs. destruct (i =? 1) eqn:E; zbool.
    + subst i. vm_compute. repeat split.
    + cbn [chain]. apply Hs; [exact Hi|exact E].
  - intros i Hi. unfold sample_devs. destruct (i =? 1); [|constructor].
    apply NoDup_cons. split; [by intros Hp%list_elem_of_singleton|apply NoDup_singleton].
  - intros i p Hi. unfold sample_devs. clear Hs. destruct (i =? 1); [|intros Hp; by apply elem_of_nil in Hp].
    rewrite !elem_of_cons, elem_of_nil. intros [->|[->|[]]]; reflexivity.
  - clear Hs. intros i j p _ _. unfold sample_devs.
    destruct (i =? 1) eqn:E, (j =? 1) eqn:F; zbool; [by subst i j| | |];
      intros Hp Hq; exfalso; revert Hp Hq; rewrite ?elem_of_nil; tauto.
  - vm_compute. reflexivity.
Qed.

Lemma handlers_correct_witness :
  (exists s, registerHandler 1 10 sample_state = Ok (true, with_handlers sample_state s)
     /\ lines_ok (set_line sample_devs 1 [8; 9; 10]) (with_handlers sample_state s))
  /\ handleInterrupt 1 sample_state = Ok (with_world (counted 1 sample_state) [8; 9; 1])
  /\ exists st', deregisterHandler 1 8 sample_state = Ok (false, st')
       /\ handleInterrupt 1 st' = Fault.
Proof.
  assert (fresh_handler sample_devs sample_state 10) as Hx.
  { split_and!; [vm_compute; reflexivity|reflexivity|].
    intros i _. unfold sample_devs. destruct (i =? 1); set_solver. }
  destruct (handlers_correct sample_devs sample_state 1 10 sample_lines_ok ltac:(lia) Hx)
    as (_ & H & Hd). destruct (H ltac:(reflexivity)) as [Hr Hh].
  split; [exact Hr|]. split; [rewrite Hh; vm_compute; reflexivity|].
  destruct (Hd [8] 9 8) as (st' & Hs & _ & Hf).
  - reflexivity.
  - vm_compute. reflexivity.
  - left.
  - intros p w. by eexists.
  - discriminate.
  - change (0 ∉ [8; 9]). clear. set_solver.
  - vm_compute. reflexivity.
  - exists st'. split; [exact Hs|]. apply Hf. lia.
Defined.
End sample.
