(* ===== verification/Ports.v ===== *)
(** * Port input and output

    The [in] and [out] instructions behind X86/IoPort.S: the devices' state is
    a parameter [io], an access to a port may change it.  What a device does is
    stated by the classes of the components that drive it. *)

From S2P Require Import Prelude.
From S2P Require Import Words.
From Stdlib Require Import ZArith Lia.
From stdpp Require Import prelude.

Open Scope Z_scope.

Class Ports (io : Type) := {
  inb : Z -> io -> Z * io;
  inl : Z -> io -> Z * io;
  outb : Z -> Z -> io -> io;
  outw : Z -> Z -> io -> io;
  outl : Z -> Z -> io -> io;
}.

(** [for (int i = first; i < last; i++)] over a list of the values of [i]. *)
Fixpoint for_each {S : Type} (l : list Z) (body : Z -> S -> res S) (s : S) : res S :=
  match l with
  | [] => mret s
  | i :: l => s ← body i s; for_each l body s
  end.

(** A loop whose body appends to a log, and keeps an invariant, appends the
    concatenation of what its rounds do. *)
Lemma for_each_log {S E : Type} (body : Z -> S -> res S) (log : S -> list E) (P : S -> Prop)
    (out : Z -> list E) (l : list Z) (s : S) :
  (forall i s, i ∈ l -> P s -> exists s', body i s = Ok s' /\ P s' /\ log s' = log s ++ out i) ->
  P s -> exists s', for_each l body s = Ok s' /\ P s' /\ log s' = log s ++ mjoin (out <$> l).
Proof.
  revert s. induction l as [|i l IH]; intros s Hb Hs; cbn [for_each].
  - exists s. split_and!; [done|done|]. by rewrite app_nil_r.
  - destruct (Hb i s ltac:(by left) Hs) as (s1 & -> & H1 & L1). cbn [mbind res_bind].
    destruct (IH s1) as (s2 & -> & H2 & L2); [|done|].
    + intros j s' Hj. apply Hb. by right.
    + exists s2. split_and!; [done|done|]. rewrite L2, L1, <-app_assoc. done.
Qed.

Lemma for_each_idle {S : Type} (body : Z -> S -> res S) (l : list Z) (s : S) :
  (forall i, i ∈ l -> body i s = Ok s) -> for_each l body s = Ok s.
Proof.
  induction l as [|i l IH]; intros H; cbn [for_each]; [done|].
  rewrite H by by left. cbn. apply IH. intros j Hj. apply H. by right.
Qed.

(** [simulates R r x]: the computation [x] fails exactly as its reference [r]
    does, and when [r] succeeds [x] does, with a result that [R] relates. *)
Definition simulates {A B : Type} (R : A -> B -> Prop) (r : res A) (x : res B) : Prop :=
  match r with
  | Ok a => exists b, x = Ok b /\ R a b
  | Panic => x = Panic
  | Fault => x = Fault
  | NoFuel => x = NoFuel
  end.

Lemma simulates_bind {A B A' B' : Type} (R : A -> B -> Prop) (R' : A' -> B' -> Prop)
    (r : res A) (x : res B) (f : A -> res A') (g : B -> res B') :
  simulates R r x -> (forall a b, R a b -> simulates R' (f a) (g b)) ->
  simulates R' (r ≫= f) (x ≫= g).
Proof.
  intros Hr Hf. destruct r as [a| | |]; cbn in *; [|by rewrite Hr..].
  destruct Hr as (b & -> & Hab). cbn. by apply Hf.
Qed.

Lemma simulates_mono {A B : Type} (R R' : A -> B -> Prop) (r : res A) (x : res B) :
  (forall a b, R a b -> R' a b) -> simulates R r x -> simulates R' r x.
Proof. intros HR. destruct r; cbn; [|done..]. intros (b & -> & Hab). eauto. Qed.

(** A loop whose body simulates a reference on the view [dev] of the state and
    appends to a log: the loop simulates the reference's loop and appends the
    concatenation of what its rounds do. *)
Lemma for_each_simulates {S D E : Type} (body : Z -> S -> res S) (ref : Z -> D -> res D)
    (dev : S -> D) (log : S -> list E) (P : S -> Prop) (out : Z -> list E) (l : list Z) (s : S) :
  (forall i s, i ∈ l -> P s ->
     simulates (fun d s' => P s' /\ dev s' = d /\ log s' = log s ++ out i) (ref i (dev s)) (body i s)) ->
  P s ->
  simulates (fun d s' => P s' /\ dev s' = d /\ log s' = log s ++ mjoin (out <$> l))
    (for_each l ref (dev s)) (for_each l body s).
Proof.
  revert s. induction l as [|i l IH]; intros s Hb Hs; cbn [for_each].
  - exists s. split_and!; [done|done|done|]. by rewrite app_nil_r.
  - eapply simulates_bind; [by apply Hb; [left|]|]. cbn beta. intros d s1 (H1 & <- & L1).
    eapply simulates_mono; [|apply IH; [|done]].
    + intros d s2 (H2 & ? & L2). split_and!; [done|done|]. by rewrite L2, L1, <-app_assoc.
    + intros j s' Hj. apply Hb. by right.
Qed.
