(* ===== verification/Pci.v ===== *)
(** * PCI configuration space and drivers

    Models X86/X86Pci.cc (configuration mechanism 1), Kernel/PciDevice.cc and
    Kernel/Pci.cc: reading and writing the configuration registers of a
    function, the list of registered drivers, and the enumeration of the bus
    that attaches a driver to every function present.

    What the host bridge does with the two ports is the class
    [ConfigMechanism]; what a driver's [probe] and [init] do, failing included,
    is the class [PciDrivers], and what enumeration asks of them [DriverLaws].
    The driver of the Intel watchdog (Drivers/X86/Watchdog/IntelWatchdog.cc) is
    the example: its [probe], and how its [init] sizes the device's region.
    What the code prints is the list of lines [pci_console]. *)

From S2P Require Import Prelude.
From S2P Require Import Words.
From S2P Require Import Ports.
From Stdlib Require Import ZArith Lia.
From stdpp Require Import prelude gmap list strings.

Open Scope Z_scope.

(** ** Constants (X86/X86Pci.cc, Include/Kernel/Pci.hh) *)

Definition PCI_CONFIG_ADDRESS : Z := 0x0cf8.
Definition PCI_CONFIG_DATA : Z := 0x0cfc.
Definition PCI_MODE1_ENABLE : Z := 0x80000000.
Definition PCI_MODE1_ADDRESS_REG : Z := 0x0cf8.

Module Config.
Definition VendorId : Z := 0x00.
Definition DeviceId : Z := 0x02.
Definition Bar0 : Z := 0x10.
Definition Bar5 : Z := 0x24.
Definition InterruptPin : Z := 0x3d.
Definition InterruptLine : Z := 0x3c.
End Config.

(** ** Configuration registers (X86/X86Pci.cc) *)

Definition makeTag (bus device function : Z) : Z :=
  Z.lor (Z.lor (Z.lor (wshl 32 1 31) (wshl 32 bus 16)) (wshl 32 device 11)) (wshl 32 function 8).

Section registers.
Context {io : Type} `{Ports io}.
Implicit Types (s : io) (bus device function offset : Z).

Definition readConfigurationRegister32 bus device function offset s : res (Z * io) :=
  kassert (Z.land offset 0x3 =? 0);;
  let tag := Z.lor (makeTag bus device function) offset in
  let s := outl PCI_CONFIG_ADDRESS tag s in
  mret (inl PCI_CONFIG_DATA s).

Definition readConfigurationRegister8 bus device function offset s : res (Z * io) :=
  '(value, s) ← readConfigurationRegister32 bus device function (Z.land offset (Z.lnot 0x3)) s;
  let suboff := Z.land offset 0x03 * 8 in
  mret (u8 (Z.shiftr value suboff), s).

Definition readConfigurationRegister16 bus device function offset s : res (Z * io) :=
  kassert (Z.land offset 0x1 =? 0);;
  '(value, s) ← readConfigurationRegister32 bus device function (Z.land offset (Z.lnot 0x3)) s;
  let suboff := Z.shiftr (Z.land offset 0x02) 1 * 16 in
  mret (u16 (Z.shiftr value suboff), s).

Definition writeConfigurationRegister32 bus device function offset val s : res io :=
  kassert (Z.land offset 0x3 =? 0);;
  let tag := Z.lor (makeTag bus device function) (Z.land offset 0xfc) in
  let s := outl PCI_CONFIG_ADDRESS tag s in
  mret (outl PCI_CONFIG_DATA val s).

Definition writeConfigurationRegister8 bus device function offset val s : res io :=
  '(value, s) ← readConfigurationRegister32 bus device function offset s;
  let suboff := Z.land offset 0x03 * 8 in
  let value := Z.land value (Z.shiftr 0xff suboff) in
  let value := Z.lor value (Z.shiftr val suboff) in
  writeConfigurationRegister32 bus device function (Z.land offset (Z.lnot 0x03)) value s.

Definition writeConfigurationRegister16 bus device function offset val s : res io :=
  kassert (Z.land offset 0x1 =? 0);;
  '(value, s) ← readConfigurationRegister32 bus device function offset s;
  let suboff := Z.shiftr (Z.land offset 0x02) 1 * 16 in
  let value := Z.land value (Z.shiftr 0xffff suboff) in
  let value := Z.lor value (Z.shiftr val suboff) in
  writeConfigurationRegister32 bus device function (Z.land offset (Z.lnot 0x03)) value s.

(** [Pci::init]: whether the mechanism answers; the code only prints it. *)
Definition Pci_init s : bool * io :=
  let s := outl PCI_MODE1_ADDRESS_REG PCI_MODE1_ENABLE s in
  let s := outb (PCI_MODE1_ADDRESS_REG + 3) 0 s in
  let s := outw (PCI_MODE1_ADDRESS_REG + 2) 0 s in
  let '(val, s) := inl PCI_MODE1_ADDRESS_REG s in
  (Z.land val 0x80fffffc =? PCI_MODE1_ENABLE, s).

Definition getVendorId bus device function s : res (Z * io) :=
  readConfigurationRegister16 bus device function Config.VendorId s.

Definition getDeviceId bus device function s : res (Z * io) :=
  readConfigurationRegister16 bus device function Config.DeviceId s.
End registers.

(** ** Descriptions of devices (Kernel/Pci.cc) *)

Inductive bar_info :=
  | MemoryBar (address : Z) (type : string) (prefetchable : bool)
  | IoBar (port : Z).

Definition typeNames : list string := ["32bit"; "reserved (16bit)"; "64bit"]%string.

(** The array has three elements and the guard lets 3 through. *)
Definition getTypeName (type : Z) : res string :=
  if 3 <? type then mret "invalid"%string else deref (typeNames !! Z.to_nat type).

Definition printBar (bar : Z) : res bar_info :=
  if Z.land bar 1 =? 0 then
    let address := Z.land bar 0xfffffff0 in
    let type := u8 (Z.land (Z.shiftr bar 1) 0x3) in
    let prefetchable := negb (Z.land (Z.shiftr bar 3) 0x1 =? 0) in
    name ← getTypeName type;
    mret (MemoryBar address name prefetchable)
  else mret (IoBar (Z.land bar 0xffffffc0)).

Definition classNames : list (Z * string) :=
  [(0x00, "Unclassified device"); (0x01, "Mass storage controller"); (0x02, "Network controller");
   (0x03, "Display controller"); (0x04, "Multimedia device"); (0x05, "Memory Controller");
   (0x06, "Bridge Device"); (0x07, "Communications controller"); (0x08, "Generic system peripheral");
   (0x09, "Input device"); (0x0a, "Docking Station"); (0x0b, "Processor");
   (0x0c, "Serial bus controller"); (0x0e, "Intelligent controller");
   (0x0f, "Satellite communications controller"); (0x10, "Encryption controller");
   (0x11, "Signal processing controller"); (0xFF, "Misc")]%string.

Definition getClassName (classId : Z) : string :=
  match list_find (fun e : Z * string => e.1 = classId) classNames with
  | Some (_, (_, name)) => name
  | None => "Unknown"%string
  end.

(** ** State of the bus *)

(** A line of output. *)
Inductive line :=
  | Registering (driver : Z)
  | IrqLine (irq pin : Z)
  | BarLine (index : Z) (bar : bar_info)
  | Initializing (bus device function driver : Z)
  | UnknownDevice (bus device function : Z) (class : string) (vid did : Z)
  | Listing
  | Listed (bus device function : Z) (class : string) (vid did : Z).

Record pci (io : Type) : Type := Pci {
  pci_io : io;
  pciDrivers : Z;
  pci_next : gmap Z Z;
  pci_console : list line;
}.

Arguments Pci {io} pci_io pciDrivers pci_next pci_console.
Arguments pci_io {io} p.
Arguments pciDrivers {io} p.
Arguments pci_next {io} p.
Arguments pci_console {io} p.

(** The virtual functions of a driver object, which may fail. *)
Class PciDrivers (io : Type) := {
  drv_probe : Z -> Z -> Z -> Z -> io -> res (Z * io);
  drv_init : Z -> Z -> Z -> Z -> io -> res (bool * io);
}.

Section bus.
Context {io : Type} `{Ports io} `{PciDrivers io}.
Implicit Types (p : pci io) (bus device function : Z).

Definition with_io p (s : io) : pci io := Pci s (pciDrivers p) (pci_next p) (pci_console p).

Definition print p (l : line) : pci io :=
  Pci (pci_io p) (pciDrivers p) (pci_next p) (pci_console p ++ [l]).

(** A register access in the state of the bus. *)
Definition on_io {A} (f : io -> res (A * io)) p : res (A * pci io) :=
  '(a, s) ← f (pci_io p);
  mret (a, with_io p s).

Definition registerDriver (driver : Z) p : res (pci io) :=
  let p := print p (Registering driver) in
  _ ← deref (pci_next p !! driver);
  mret (Pci (pci_io p) driver (<[driver := pciDrivers p]> (pci_next p)) (pci_console p)).

(** The constructor of a driver object (Kernel/PciDriver.cc). *)
Definition PciDriver_new (driver : Z) p : res (pci io) :=
  registerDriver driver (Pci (pci_io p) (pciDrivers p) (<[driver := 0]> (pci_next p)) (pci_console p)).

(** The walk along the list of drivers. *)
Fixpoint probe_loop (fuel : nat) (driver bus device function : Z) p : res (bool * pci io) :=
  match fuel with
  | O => NoFuel
  | S fuel =>
      if driver =? 0 then mret (false, p)
      else
        '(score, p) ← on_io (drv_probe driver bus device function) p;
        if 0 <? score then
          let p := print p (Initializing bus device function driver) in
          '(_, p) ← on_io (drv_init driver bus device function) p;
          mret (true, p)
        else
          next ← deref (pci_next p !! driver);
          probe_loop fuel next bus device function p
  end.

Definition probeAndAttach (fuel : nat) bus device function p : res (bool * pci io) :=
  probe_loop fuel (pciDrivers p) bus device function p.

(** One round of the loop over the base address registers. *)
Definition show_bar bus device function (i : Z) p : res (pci io) :=
  '(bar, p) ← on_io (readConfigurationRegister32 bus device function i) p;
  if negb (bar =? 0) then
    info ← printBar bar;
    mret (print p (BarLine (i / 4) info))
  else mret p.

Definition bar_registers : list Z := [0x10; 0x14; 0x18; 0x1c; 0x20; 0x24].

Definition getDeviceInfo bus device function p : res (pci io) :=
  '(interruptPin, p) ← on_io (readConfigurationRegister8 bus device function Config.InterruptPin) p;
  '(interruptLine, p) ← on_io (readConfigurationRegister8 bus device function Config.InterruptLine) p;
  let p := if negb (interruptPin =? 0) && (interruptPin <=? 4)
           then print p (IrqLine interruptLine interruptPin) else p in
  for_each bar_registers (show_bar bus device function) p.

(** The body of the loops of [listDevices] and [enumerate]. *)
Definition list_function bus device function p : res (pci io) :=
  '(vid, p) ← on_io (getVendorId bus device function) p;
  if negb (vid =? 0xffff) then
    '(did, p) ← on_io (getDeviceId bus device function) p;
    '(deviceClass, p) ← on_io (readConfigurationRegister8 bus device function 8) p;
    mret (print p (Listed bus device function (getClassName deviceClass) vid did))
  else mret p.

Definition visit_function (fuel : nat) bus device function p : res (pci io) :=
  '(vid, p) ← on_io (getVendorId bus device function) p;
  if negb (vid =? 0xffff) then
    '(did, p) ← on_io (getDeviceId bus device function) p;
    '(deviceClass, p) ← on_io (readConfigurationRegister8 bus device function 8) p;
    p ← getDeviceInfo bus device function p;
    '(attached, p) ← probeAndAttach fuel bus device function p;
    if negb attached
    then mret (print p (UnknownDevice bus device function (getClassName deviceClass) vid did))
    else mret p
  else mret p.

Definition all_functions (body : Z -> Z -> Z -> pci io -> res (pci io)) p : res (pci io) :=
  for_each (seqZ 0 256) (fun bus =>
    for_each (seqZ 0 32) (fun dev =>
      for_each (seqZ 0 8) (fun fun_ => body bus dev fun_))) p.

Definition listDevices p : res (pci io) := all_functions list_function (print p Listing).

Definition enumerate (fuel : nat) p : res (pci io) := all_functions (visit_function fuel) p.
End bus.

(** ** A driver (Drivers/X86/Watchdog/IntelWatchdog.cc)

    Of the watchdog driver, its [probe] and what its [init] does with the
    configuration registers of base address 0: sizing the region and putting
    the address back.  The rest of [init] maps the region and programs the
    device. *)

Section watchdog.
Context {io : Type} `{Ports io}.

Definition watchdog_probe (bus device function : Z) (s : io) : res (Z * io) :=
  '(vendorId, s) ← getVendorId bus device function s;
  '(deviceId, s) ← getDeviceId bus device function s;
  if (vendorId =? 0x8086) && (deviceId =? 0x25ab) then mret (1, s) else mret (0, s).

Definition pins : list string := ["None"; "INTA#"; "INTB#"; "INTC#"; "INTD#"]%string.

Definition region_size (barSize : Z) : Z :=
  if negb (Z.land barSize 0x1 =? 0) then u32 (wnot 32 (Z.land barSize (wnot 32 0x1)) + 1)
  else u32 (wnot 32 (Z.land barSize (wnot 32 0x7)) + 1).

Definition watchdog_bar0 (bus device function : Z) (s : io) : res (Z * Z * io) :=
  '(bar0, s) ← readConfigurationRegister32 bus device function Config.Bar0 s;
  '(interruptPin, s) ← readConfigurationRegister8 bus device function Config.InterruptPin s;
  '(_, s) ← readConfigurationRegister8 bus device function Config.InterruptLine s;
  s ← writeConfigurationRegister32 bus device function Config.Bar0 0xffffffff s;
  '(barSize, s) ← readConfigurationRegister32 bus device function Config.Bar0 s;
  let barSize := region_size barSize in
  _ ← (if interruptPin =? 0 then mret "None"%string else deref (pins !! Z.to_nat interruptPin));
  s ← writeConfigurationRegister32 bus device function Config.Bar0 bar0 s;
  '(value, s) ← readConfigurationRegister32 bus device function Config.Bar0 s;
  kassert (bar0 =? value);;
  mret (bar0, barSize, s).
End watchdog.

(** ** What the host bridge does

    Configuration mechanism 1 of the PCI specification: the address port
    selects a register of a function by the tag written to it; while its
    enable bit (31) is set, the data port reads and writes that register.
    [latch] is what a register holds after a write: devices have read-only and
    write-one-to-clear bits. *)

Class ConfigMechanism (io : Type) {P : Ports io} := {
  selected : io -> Z;
  config : io -> Z -> Z;
  latch : Z -> Z -> Z -> Z;
  config_uint s t : uint 32 (config s t);
  select_selected s t : selected (outl PCI_CONFIG_ADDRESS t s) = t;
  select_config s t u : config (outl PCI_CONFIG_ADDRESS t s) u = config s u;
  read_data s : Z.testbit (selected s) 31 = true ->
    fst (inl PCI_CONFIG_DATA s) = config s (selected s);
  read_config s u : config (snd (inl PCI_CONFIG_DATA s)) u = config s u;
  write_config s v u : Z.testbit (selected s) 31 = true ->
    config (outl PCI_CONFIG_DATA v s) u
    = if decide (u = selected s) then latch u (config s u) v else config s u;
}.

(** The functions of a bus: 256 buses, 32 devices, 8 functions. *)
Definition is_function (bus device function : Z) : Prop :=
  0 <= bus < 256 /\ 0 <= device < 32 /\ 0 <= function < 8.

(** The address of the double word of a configuration register. *)
Definition tag_of (bus device function offset : Z) : Z :=
  2 ^ 31 + bus * 2 ^ 16 + device * 2 ^ 11 + function * 2 ^ 8 + (offset - offset mod 4).

Lemma lor_field x y n : 0 <= n -> 0 <= x -> x mod 2 ^ n = 0 -> 0 <= y < 2 ^ n ->
  Z.lor x y = x + y.
Proof.
  intros Hn Hx Hm Hy. pose proof (Z.pow_pos_nonneg 2 n ltac:(lia) Hn).
  assert (x = x / 2 ^ n * 2 ^ n) as E by (rewrite (Z.div_mod x (2 ^ n)) at 1; lia).
  rewrite Z.lor_comm, E, lor_add_shift by done. lia.
Qed.

Lemma makeTag_eq bus device function : is_function bus device function ->
  makeTag bus device function
  = 2 ^ 31 + bus * 2 ^ 16 + device * 2 ^ 11 + function * 2 ^ 8.
Proof.
  intros (Hb & Hd & Hf). unfold makeTag, wshl. rewrite !Z.shiftl_mul_pow2 by lia.
  rewrite !wrap_id by (unfold uint; lia). rewrite Z.mul_1_l.
  change (2 ^ 31) with 2147483648. change (2 ^ 16) with 65536. change (2 ^ 11) with 2048.
  change (2 ^ 8) with 256.
  rewrite (lor_field 2147483648 (bus * 65536) 24), (lor_field (2147483648 + bus * 65536) (device * 2048) 16),
    (lor_field (2147483648 + bus * 65536 + device * 2048) (function * 256) 11);
    cbn; try lia; Z.div_mod_to_equations; lia.
Qed.

Lemma tag_eq bus device function offset : is_function bus device function ->
  0 <= offset < 256 -> offset mod 4 = 0 ->
  Z.lor (makeTag bus device function) offset = tag_of bus device function offset.
Proof.
  intros Hf Ho Ha. rewrite makeTag_eq by done. destruct Hf as (Hb & Hd & Hf).
  unfold tag_of. rewrite Ha. change (2 ^ 31) with 2147483648. change (2 ^ 16) with 65536.
  change (2 ^ 11) with 2048. change (2 ^ 8) with 256.
  rewrite (lor_field _ offset 8); cbn; try lia. Z.div_mod_to_equations. lia.
Qed.

Lemma tag_enabled bus device function offset : is_function bus device function ->
  0 <= offset < 256 -> Z.testbit (tag_of bus device function offset) 31 = true.
Proof.
  intros (Hb & Hd & Hf) Ho. rewrite Z.testbit_true by lia. unfold tag_of.
  change (2 ^ 31) with 2147483648. change (2 ^ 16) with 65536. change (2 ^ 11) with 2048.
  change (2 ^ 8) with 256. Z.div_mod_to_equations. lia.
Qed.

(** No two registers share an address. *)
Lemma tag_inj b d f o b' d' f' o' : is_function b d f -> is_function b' d' f' ->
  0 <= o < 256 -> 0 <= o' < 256 -> tag_of b d f o = tag_of b' d' f' o' ->
  b = b' /\ d = d' /\ f = f' /\ o / 4 = o' / 4.
Proof.
  intros (? & ? & ?) (? & ? & ?) Ho Ho'. unfold tag_of. change (2 ^ 31) with 2147483648.
  change (2 ^ 16) with 65536. change (2 ^ 11) with 2048. change (2 ^ 8) with 256.
  intros E. Z.div_mod_to_equations. lia.
Qed.

Lemma tag_dword b d f o : tag_of b d f (o - o mod 4) = tag_of b d f o.
Proof. unfold tag_of. Z.div_mod_to_equations. lia. Qed.

Lemma land_low2 o : Z.land o 0x3 = o mod 4.
Proof. exact (land_ones_low o 2 ltac:(lia)). Qed.

Lemma land_not3 o : Z.land o (Z.lnot 0x3) = o - o mod 4.
Proof.
  rewrite <-Z.ldiff_land. change 3 with (Z.ones 2). rewrite Z.ldiff_ones_r by lia.
  rewrite Z.shiftl_mul_pow2, Z.shiftr_div_pow2 by lia. change (2 ^ 2) with 4.
  Z.div_mod_to_equations. lia.
Qed.

(** What the two ports leave alone, a read leaves alone. *)
Section reads_keep.
Context {io T : Type} `{Ports io} (view : io -> T).
Context (select_view : forall s t, view (outl PCI_CONFIG_ADDRESS t s) = view s).
Context (read_view : forall s, view (snd (inl PCI_CONFIG_DATA s)) = view s).

Lemma read32_keeps b v f o s a s' :
  readConfigurationRegister32 b v f o s = Ok (a, s') -> view s' = view s.
Proof.
  unfold readConfigurationRegister32. intros (u & _ & E)%res_bind_ok.
  apply Ok_inj in E. pose proof (read_view (outl PCI_CONFIG_ADDRESS (Z.lor (makeTag b v f) o) s)) as Hr.
  rewrite E in Hr. cbn [snd] in Hr. by rewrite Hr, select_view.
Qed.

Lemma read8_keeps b v f o s a s' :
  readConfigurationRegister8 b v f o s = Ok (a, s') -> view s' = view s.
Proof. intros ([w s1] & E & [= <- <-])%res_bind_ok. by eapply read32_keeps. Qed.

Lemma read16_keeps b v f o s a s' :
  readConfigurationRegister16 b v f o s = Ok (a, s') -> view s' = view s.
Proof.
  unfold readConfigurationRegister16. intros (u & _ & E)%res_bind_ok.
  apply res_bind_ok in E as ([w s1] & E & [= <- <-]). by eapply read32_keeps.
Qed.

Lemma watchdog_probe_keeps b v f s a s' : watchdog_probe b v f s = Ok (a, s') -> view s' = view s.
Proof.
  unfold watchdog_probe. intros ([w1 s1] & E1 & E)%res_bind_ok.
  apply res_bind_ok in E as ([w2 s2] & E2 & E).
  apply read16_keeps in E1. apply read16_keeps in E2. rewrite <-E1, <-E2.
  by destruct (_ && _); injection E as <- <-.
Qed.

(** What a write leaves alone too. *)
Context (write_view : forall s w, view (outl PCI_CONFIG_DATA w s) = view s).

Lemma write32_keeps b v f o w s s' :
  writeConfigurationRegister32 b v f o w s = Ok s' -> view s' = view s.
Proof.
  unfold writeConfigurationRegister32. intros (u & _ & [= <-])%res_bind_ok.
  by rewrite write_view, select_view.
Qed.

Lemma watchdog_bar0_keeps b v f s a s' : watchdog_bar0 b v f s = Ok (a, s') -> view s' = view s.
Proof.
  unfold watchdog_bar0. intros ([w1 s1] & E1 & E)%res_bind_ok.
  apply res_bind_ok in E as ([w2 s2] & E2 & E). apply res_bind_ok in E as ([w3 s3] & E3 & E).
  apply res_bind_ok in E as (s4 & E4 & E). apply res_bind_ok in E as ([w5 s5] & E5 & E).
  apply res_bind_ok in E as (name & _ & E). apply res_bind_ok in E as (s6 & E6 & E).
  apply res_bind_ok in E as ([w7 s7] & E7 & E). apply res_bind_ok in E as (u & _ & [= _ <-]).
  apply read32_keeps in E1, E5, E7. apply read8_keeps in E2, E3. apply write32_keeps in E4, E6.
  congruence.
Qed.
End reads_keep.

Section access.
Context {io : Type} `{ConfigMechanism io}.
Context (bus device function : Z) (Hf : is_function bus device function).
Implicit Types (s : io) (o : Z).

Definition same_config (s s' : io) : Prop := forall t, config s' t = config s t.

(** The double word that holds the register at [o]. *)
Definition dword s o : Z := config s (tag_of bus device function o).

Lemma read32_ok o s : 0 <= o < 256 -> o mod 4 = 0 ->
  exists s', readConfigurationRegister32 bus device function o s = Ok (dword s o, s') /\
    same_config s s'.
Proof.
  intros Ho Ha. unfold readConfigurationRegister32. rewrite land_low2, Ha. cbn [Z.eqb kassert mbind res_bind].
  rewrite tag_eq by done. set (s1 := outl _ _ s).
  exists (snd (inl PCI_CONFIG_DATA s1)). split.
  - rewrite (surjective_pairing (inl PCI_CONFIG_DATA s1)) at 1. cbn [mret res_ret].
    rewrite read_data; subst s1; rewrite select_selected; [|by apply tag_enabled].
    by rewrite select_config.
  - intros t. rewrite read_config. apply select_config.
Qed.

Lemma read32_unaligned o s : o mod 4 <> 0 ->
  readConfigurationRegister32 bus device function o s = Panic.
Proof.
  intros Ha. unfold readConfigurationRegister32. rewrite land_low2.
  by rewrite (proj2 (Z.eqb_neq _ _)).
Qed.

Lemma read8_ok o s : 0 <= o < 256 ->
  exists s', readConfigurationRegister8 bus device function o s
    = Ok (u8 (Z.shiftr (dword s o) (8 * (o mod 4))), s') /\ same_config s s'.
Proof.
  intros Ho. unfold readConfigurationRegister8. rewrite land_not3, land_low2.
  destruct (read32_ok (o - o mod 4) s) as (s' & -> & Hs).
  { Z.div_mod_to_equations. lia. } { Z.div_mod_to_equations. lia. }
  exists s'. split; [|done]. cbn [mbind res_bind]. unfold dword. by rewrite tag_dword, Z.mul_comm.
Qed.

Lemma read16_ok o s : 0 <= o < 256 -> o mod 2 = 0 ->
  exists s', readConfigurationRegister16 bus device function o s
    = Ok (u16 (Z.shiftr (dword s o) (8 * (o mod 4))), s') /\ same_config s s'.
Proof.
  intros Ho Ha. unfold readConfigurationRegister16.
  rewrite (land_ones_low o 1 ltac:(lia) : Z.land o 1 = o mod 2), Ha. cbn [Z.eqb kassert mbind res_bind].
  rewrite land_not3. destruct (read32_ok (o - o mod 4) s) as (s' & -> & Hs).
  { Z.div_mod_to_equations. lia. } { Z.div_mod_to_equations. lia. }
  exists s'. split; [|done]. cbn [mbind res_bind]. unfold dword. rewrite tag_dword.
  assert (o mod 4 = 0 \/ o mod 4 = 2) as Hcase by (Z.div_mod_to_equations; lia).
  assert (Z.land o 2 = o mod 4) as ->.
  { transitivity (Z.land (Z.land o 3) 2); [by rewrite <-Z.land_assoc|].
    rewrite land_low2. by destruct Hcase as [-> | ->]. }
  by destruct Hcase as [-> | ->].
Qed.

Lemma write32_ok o v s : 0 <= o < 256 -> o mod 4 = 0 ->
  exists s', writeConfigurationRegister32 bus device function o v s = Ok s' /\
    forall t, config s' t = if decide (t = tag_of bus device function o)
                            then latch t (config s t) v else config s t.
Proof.
  intros Ho Ha. unfold writeConfigurationRegister32. rewrite land_low2, Ha.
  cbn [Z.eqb kassert mbind res_bind].
  assert (Z.land o 0xfc = o) as ->.
  { transitivity (Z.land o (2 ^ 8 - 2 ^ 2)); [done|]. rewrite land_mask_high by (unfold uint; lia).
    change (2 ^ 2) with 4. lia. }
  rewrite tag_eq by done. eexists. split; [done|]. intros t.
  rewrite write_config by (rewrite select_selected; by apply tag_enabled).
  by rewrite select_selected, select_config.
Qed.
End access.

(** ** Access to a register *)

Section widths.
Context {io : Type} `{ConfigMechanism io}.
Context (bus device function : Z) (Hf : is_function bus device function).
Implicit Types (s : io) (o : Z).

(** From [s] to [s'] the register [t] was written with [v]. *)
Definition stored (s s' : io) (t v : Z) : Prop :=
  forall u, config s' u = if decide (u = t) then latch u (config s u) v else config s u.

Lemma stored_after s s1 s' t v : same_config s s1 -> stored s1 s' t v -> stored s s' t v.
Proof. intros H1 H2 u. by rewrite H2, !H1. Qed.

Lemma write8_ok o v s : 0 <= o < 256 -> o mod 4 = 0 ->
  exists s', writeConfigurationRegister8 bus device function o v s = Ok s' /\
    stored s s' (tag_of bus device function o) (Z.lor (u8 (dword bus device function s o)) v).
Proof.
  intros Ho Ha. unfold writeConfigurationRegister8.
  destruct (read32_ok bus device function Hf o s Ho Ha) as (s1 & -> & Hs). cbn [mbind res_bind].
  rewrite land_low2, land_not3, Ha, Z.sub_0_r. change (0 * 8) with 0. rewrite !Z.shiftr_0_r.
  rewrite (land_ones_low _ 8 ltac:(lia) : Z.land _ 0xff = _).
  destruct (write32_ok bus device function Hf o (Z.lor (u8 (dword bus device function s o)) v) s1 Ho Ha)
    as (s' & E & H'). exists s'. split; [exact E|]. by eapply stored_after.
Qed.

Lemma write16_ok o v s : 0 <= o < 256 -> o mod 4 = 0 ->
  exists s', writeConfigurationRegister16 bus device function o v s = Ok s' /\
    stored s s' (tag_of bus device function o) (Z.lor (u16 (dword bus device function s o)) v).
Proof.
  intros Ho Ha. unfold writeConfigurationRegister16.
  assert (o mod 2 = 0) as Ha2 by (Z.div_mod_to_equations; lia).
  rewrite (land_ones_low o 1 ltac:(lia) : Z.land o 1 = o mod 2), Ha2. cbn [Z.eqb kassert mbind res_bind].
  destruct (read32_ok bus device function Hf o s Ho Ha) as (s1 & -> & Hs). cbn [mbind res_bind].
  assert (Z.land o 2 = 0) as ->.
  { transitivity (Z.land (Z.land o 3) 2); [by rewrite <-Z.land_assoc|]. by rewrite land_low2, Ha. }
  rewrite land_not3, Ha, Z.sub_0_r. change (Z.shiftr 0 1 * 16) with 0. rewrite !Z.shiftr_0_r.
  rewrite (land_ones_low _ 16 ltac:(lia) : Z.land _ 0xffff = _).
  destruct (write32_ok bus device function Hf o (Z.lor (u16 (dword bus device function s o)) v) s1 Ho Ha)
    as (s' & E & H'). exists s'. split; [exact E|]. by eapply stored_after.
Qed.

(** Accesses at an offset that is not a multiple of 4. *)
Lemma unaligned_panics o v s : o mod 4 <> 0 ->
  readConfigurationRegister32 bus device function o s = Panic /\
  writeConfigurationRegister32 bus device function o v s = Panic /\
  writeConfigurationRegister8 bus device function o v s = Panic /\
  writeConfigurationRegister16 bus device function o v s = Panic.
Proof.
  intros Ha. pose proof (read32_unaligned bus device function o s Ha) as E.
  split_and!; [done| | |].
  - unfold writeConfigurationRegister32. rewrite land_low2. by rewrite (proj2 (Z.eqb_neq _ _)).
  - unfold writeConfigurationRegister8. by rewrite E.
  - unfold writeConfigurationRegister16. rewrite E. by destruct (Z.land o 1 =? 0).
Qed.

(** C38: the configuration registers of a function, through a host bridge that
    implements mechanism 1.  Reading a byte gives the byte of the device's
    double word at that offset; reading a half word does so at even offsets
    and panics at odd ones; 32-bit accesses work exactly at multiples of 4; no
    read changes a register.  The narrower writes do not do what they are for:
    at an offset that is not a multiple of 4 they panic, and at one that is
    they store the old low byte (half word) combined with the new one and zero
    in all the others, instead of replacing it. *)
Theorem config_access o v s : 0 <= o < 256 ->
  let t := tag_of bus device function o in
  (exists s', readConfigurationRegister8 bus device function o s
     = Ok (u8 (Z.shiftr (config s t) (8 * (o mod 4))), s') /\ same_config s s') /\
  (if o mod 2 =? 0 then
     exists s', readConfigurationRegister16 bus device function o s
       = Ok (u16 (Z.shiftr (config s t) (8 * (o mod 4))), s') /\ same_config s s'
   else readConfigurationRegister16 bus device function o s = Panic) /\
  (if o mod 4 =? 0 then
     (exists s', readConfigurationRegister32 bus device function o s = Ok (config s t, s') /\
        same_config s s') /\
     (exists s', writeConfigurationRegister32 bus device function o v s = Ok s' /\ stored s s' t v) /\
     (exists s', writeConfigurationRegister8 bus device function o v s = Ok s' /\
        stored s s' t (Z.lor (u8 (config s t)) v)) /\
     (exists s', writeConfigurationRegister16 bus device function o v s = Ok s' /\
        stored s s' t (Z.lor (u16 (config s t)) v))
   else
     readConfigurationRegister32 bus device function o s = Panic /\
     writeConfigurationRegister32 bus device function o v s = Panic /\
     writeConfigurationRegister8 bus device function o v s = Panic /\
     writeConfigurationRegister16 bus device function o v s = Panic).
Proof.
  intros Ho t. split; [by apply read8_ok|]. split.
  - destruct (Z.eqb_spec (o mod 2) 0) as [Ha|Ha]; [by apply read16_ok|].
    unfold readConfigurationRegister16.
    rewrite (land_ones_low o 1 ltac:(lia) : Z.land o 1 = o mod 2).
    by rewrite (proj2 (Z.eqb_neq _ _)).
  - destruct (Z.eqb_spec (o mod 4) 0) as [Ha|Ha]; [|by apply unaligned_panics].
    split_and!; [by apply read32_ok|by apply write32_ok|by apply write8_ok|by apply write16_ok].
Qed.
End widths.

(** ** Enumeration *)

(** The double words that enumeration looks at. *)
Definition described : list Z := [0x00; 0x08; 0x3c] ++ bar_registers.

(** The registers that describe the functions (their identification, class,
    addresses and interrupt) hold [c]. *)
Definition describes {io : Type} `{ConfigMechanism io} (c : Z -> Z) (s : io) : Prop :=
  forall b v f o, is_function b v f -> o ∈ described -> config s (tag_of b v f o) = c (tag_of b v f o).

(** What is asked of drivers on a machine whose functions are described by [c].
    [devices] is the part of the state that attaching a driver is for, the
    devices programmed, regions mapped and handlers registered by it.  Probing
    finds a score that depends on the description (it may read configuration
    registers) and leaves the devices alone; [init] does with the devices what
    [attach] says, or fails as it does, and puts the description back. *)
Class DriverLaws (io Dev : Type) {P : Ports io} {C : ConfigMechanism io} {D : PciDrivers io}
    (c : Z -> Z) := {
  devices : io -> Dev;
  score : Z -> Z -> Z -> Z -> Z;
  attach : Z -> Z -> Z -> Z -> Dev -> res Dev;
  select_devices s t : devices (outl PCI_CONFIG_ADDRESS t s) = devices s;
  read_devices s : devices (snd (inl PCI_CONFIG_DATA s)) = devices s;
  probe_spec d b v f s : is_function b v f -> describes c s ->
    exists s', drv_probe d b v f s = Ok (score d b v f, s') /\ describes c s' /\
      devices s' = devices s;
  init_spec d b v f s : is_function b v f -> describes c s ->
    simulates (fun σ '(_, s') => describes c s' /\ devices s' = σ)
      (attach d b v f (devices s)) (drv_init d b v f s);
}.

(** The list of drivers from [head]. *)
Fixpoint chain (next : gmap Z Z) (head : Z) (dl : list Z) : Prop :=
  match dl with
  | [] => head = 0
  | d :: dl => head = d /\ d <> 0 /\ exists n, next !! d = Some n /\ chain next n dl
  end.

Section enumeration.
Context {io Dev : Type} (c : Z -> Z) `{L : DriverLaws io Dev c}.
Context (next : gmap Z Z) (head : Z) (dl : list Z) (Hdl : chain next head dl).
Implicit Types (p : pci io) (b v f o : Z) (σ : Dev).

(** The state of the bus during enumeration: registers [c], drivers [dl]. *)
Definition bus_ok p : Prop :=
  describes c (pci_io p) /\ pci_next p = next /\ pciDrivers p = head.

Definition bus_devices p : Dev := devices (pci_io p).

(** What enumeration says about a function. *)
Definition irq_lines b v f : list line :=
  let pin := u8 (Z.shiftr (c (tag_of b v f 0x3d)) 8) in
  if negb (pin =? 0) && (pin <=? 4) then [IrqLine (u8 (c (tag_of b v f 0x3c))) pin] else [].

Definition bar_lines b v f o : list line :=
  let bar := c (tag_of b v f o) in
  if bar =? 0 then []
  else match printBar bar with Ok info => [BarLine (o / 4) info] | _ => [] end.

(** The driver that gets the function: the first of the list that wants it. *)
Definition chosen b v f : option Z :=
  snd <$> list_find (fun d => 0 < score d b v f) dl.

Definition attach_line b v f : line :=
  match chosen b v f with
  | Some d => Initializing b v f d
  | None => UnknownDevice b v f (getClassName (u8 (c (tag_of b v f 8))))
      (u16 (c (tag_of b v f 0))) (u16 (Z.shiftr (c (tag_of b v f 0)) 16))
  end.

Definition present b v f : bool := negb (u16 (c (tag_of b v f 0)) =? 0xffff).

Definition report b v f : list line :=
  if present b v f then
    irq_lines b v f ++ mjoin (bar_lines b v f <$> bar_registers) ++ [attach_line b v f]
  else [].

(** What enumeration does with the devices: nothing for a function that is not
    there; of one that is, the base addresses are described, which stops the
    system at one whose type has no name, and the chosen driver is attached. *)
Definition bar_effect b v f o σ : res Dev :=
  let bar := c (tag_of b v f o) in
  if bar =? 0 then Ok σ else (fun _ => σ) <$> printBar bar.

Definition attach_effect b v f σ : res Dev :=
  match chosen b v f with
  | Some d => attach d b v f σ
  | None => Ok σ
  end.

Definition function_effect b v f σ : res Dev :=
  if present b v f then
    σ ← for_each bar_registers (bar_effect b v f) σ;
    attach_effect b v f σ
  else Ok σ.

Definition bus_effect σ : res Dev :=
  for_each (seqZ 0 256) (fun b => for_each (seqZ 0 32) (fun v =>
    for_each (seqZ 0 8) (fun f => function_effect b v f))) σ.

Definition bus_report : list line :=
  mjoin ((fun b => mjoin ((fun v => mjoin ((fun f => report b v f) <$> seqZ 0 8))
    <$> seqZ 0 32)) <$> seqZ 0 256).

(** From [p] to [p'] the lines [l] were printed and the devices became [σ]. *)
Definition says p (l : list line) σ p' : Prop :=
  bus_ok p' /\ bus_devices p' = σ /\ pci_console p' = pci_console p ++ l.

Lemma bus_ok_io p s : bus_ok p -> same_config (pci_io p) s -> bus_ok (with_io p s).
Proof.
  intros (Hc & Hn & Hh) Hs. split; [|done]. intros b v f o Hf Ho. cbn [pci_io with_io].
  by rewrite Hs, Hc.
Qed.

(** A read of a describing register gives the register in [c]. *)
Lemma on_io_ok {A} (g : io -> res (A * io)) (a : A) p : bus_ok p ->
  (forall s a s', g s = Ok (a, s') -> devices s' = devices s) ->
  (exists s, g (pci_io p) = Ok (a, s) /\ same_config (pci_io p) s) ->
  exists s, on_io g p = Ok (a, with_io p s) /\ bus_ok (with_io p s) /\
    devices s = bus_devices p.
Proof.
  intros Hp Hg (s & E & Hs). exists s. unfold on_io. rewrite E.
  split; [done|]. split; [by apply bus_ok_io|]. by eapply Hg.
Qed.

(** The registers as [c] has them. *)
Lemma bus_dword p b v f o : bus_ok p -> is_function b v f -> o - o mod 4 ∈ described ->
  dword b v f (pci_io p) o = c (tag_of b v f o).
Proof.
  intros (Hc & _) Hf Ho. unfold dword. rewrite <-(tag_dword b v f o). by apply Hc.
Qed.

Lemma on_read8 p b v f o : bus_ok p -> is_function b v f -> 0 <= o < 256 ->
  o - o mod 4 ∈ described ->
  exists s, on_io (readConfigurationRegister8 b v f o) p
    = Ok (u8 (Z.shiftr (c (tag_of b v f o)) (8 * (o mod 4))), with_io p s) /\
    bus_ok (with_io p s) /\ devices s = bus_devices p.
Proof.
  intros Hp Hf Ho Hd. rewrite <-(bus_dword p) by done. apply on_io_ok; [done| |by apply read8_ok].
  intros s a s'. apply (read8_keeps devices select_devices read_devices).
Qed.

Lemma on_read16 p b v f o : bus_ok p -> is_function b v f -> 0 <= o < 256 -> o mod 2 = 0 ->
  o - o mod 4 ∈ described ->
  exists s, on_io (readConfigurationRegister16 b v f o) p
    = Ok (u16 (Z.shiftr (c (tag_of b v f o)) (8 * (o mod 4))), with_io p s) /\
    bus_ok (with_io p s) /\ devices s = bus_devices p.
Proof.
  intros Hp Hf Ho H2 Hd. rewrite <-(bus_dword p) by done. apply on_io_ok; [done| |by apply read16_ok].
  intros s a s'. apply (read16_keeps devices select_devices read_devices).
Qed.

Lemma on_read32 p b v f o : bus_ok p -> is_function b v f -> 0 <= o < 256 -> o mod 4 = 0 ->
  o ∈ described ->
  exists s, on_io (readConfigurationRegister32 b v f o) p
    = Ok (c (tag_of b v f o), with_io p s) /\
    bus_ok (with_io p s) /\ devices s = bus_devices p.
Proof.
  intros Hp Hf Ho H4 Hd. rewrite <-(bus_dword p) by (done || by rewrite H4, Z.sub_0_r).
  apply on_io_ok; [done| |by apply read32_ok].
  intros s a s'. apply (read32_keeps devices select_devices read_devices).
Qed.

Lemma bar_registers_ok o : o ∈ bar_registers -> 0 <= o < 256 /\ o mod 4 = 0 /\ o ∈ described.
Proof.
  intros Ho. split; [|split].
  - unfold bar_registers in Ho. set_unfold. lia.
  - unfold bar_registers in Ho. set_unfold. by destruct_or! Ho; subst.
  - apply elem_of_app. by right.
Qed.

Lemma show_bar_ok p b v f o : bus_ok p -> is_function b v f -> o ∈ bar_registers ->
  simulates (says p (bar_lines b v f o)) (bar_effect b v f o (bus_devices p)) (show_bar b v f o p).
Proof.
  intros Hp Hf Ho. destruct (bar_registers_ok _ Ho) as (Hr & H4 & Hd).
  destruct (on_read32 p b v f o Hp Hf Hr H4 Hd) as (s & E & Hs & Hv). unfold show_bar. rewrite E.
  cbn [mbind res_bind]. unfold says, bar_lines, bar_effect.
  destruct (Z.eqb_spec (c (tag_of b v f o)) 0) as [E0|E0]; cbn [negb].
  - eexists. split_and!; [done|done|done|]. by rewrite app_nil_r.
  - destruct (printBar (c (tag_of b v f o))) as [info| | |]; [|done..].
    eexists. by split_and!.
Qed.

Lemma getDeviceInfo_ok p b v f : bus_ok p -> is_function b v f ->
  simulates (says p (irq_lines b v f ++ mjoin (bar_lines b v f <$> bar_registers)))
    (for_each bar_registers (bar_effect b v f) (bus_devices p)) (getDeviceInfo b v f p).
Proof.
  intros Hp Hf. unfold getDeviceInfo.
  destruct (on_read8 p b v f Config.InterruptPin Hp Hf ltac:(done) ltac:(set_solver))
    as (s1 & -> & H1 & V1). cbn [mbind res_bind].
  destruct (on_read8 _ b v f Config.InterruptLine H1 Hf ltac:(done) ltac:(set_solver))
    as (s2 & -> & H2 & V2). cbn [mbind res_bind]. change (8 * (Config.InterruptPin mod 4)) with 8.
  change (8 * (Config.InterruptLine mod 4)) with 0. rewrite Z.shiftr_0_r.
  change Config.InterruptPin with 0x3d. change Config.InterruptLine with 0x3c.
  set (p2 := with_io (with_io p s1) s2) in *.
  assert (bus_devices p2 = bus_devices p) as Hv2 by by etransitivity.
  assert (exists p3, (if negb (u8 (Z.shiftr (c (tag_of b v f 0x3d)) 8) =? 0)
      && (u8 (Z.shiftr (c (tag_of b v f 0x3d)) 8) <=? 4)
    then print p2 (IrqLine (u8 (c (tag_of b v f 0x3c))) (u8 (Z.shiftr (c (tag_of b v f 0x3d)) 8)))
    else p2) = p3 /\ says p (irq_lines b v f) (bus_devices p) p3) as (p3 & -> & Hp3 & <- & Hl3).
  { eexists. split; [done|]. unfold says, irq_lines. case_match; [by split|].
    split_and!; [done|done|]. by rewrite app_nil_r. }
  eapply simulates_mono;
    [|apply (for_each_simulates (show_bar b v f) (bar_effect b v f) bus_devices pci_console bus_ok
        (bar_lines b v f) bar_registers p3); [|done]].
  - intros σ p4 (H4 & Hd4 & L4). split_and!; [done|done|]. by rewrite L4, Hl3, <-app_assoc.
  - intros o p' Ho Hp'. by apply show_bar_ok.
Qed.

(** The walk finds the first driver of the list with a positive score and
    initializes it. *)
Lemma probe_loop_ok b v f : is_function b v f -> forall l fuel h p,
  (length l < fuel)%nat -> chain next h l -> bus_ok p ->
  let choice := snd <$> list_find (fun d => 0 < score d b v f) l in
  simulates
    (fun σ '(attached, p') => attached = (if choice is Some _ then true else false) /\
       says p (if choice is Some d then [Initializing b v f d] else []) σ p')
    (if choice is Some d then attach d b v f (bus_devices p) else Ok (bus_devices p))
    (probe_loop fuel h b v f p).
Proof.
  intros Hf. induction l as [|d l IH]; intros fuel h p Hl Hch Hp;
    (destruct fuel as [|fuel]; [cbn in Hl; lia|]); cbn [probe_loop chain list_find] in *.
  - subst h. eexists. split; [done|]. split; [done|]. unfold says.
    split_and!; [done|done|]. by rewrite app_nil_r.
  - destruct Hch as (-> & Hd & n & En & Hch). rewrite (proj2 (Z.eqb_neq d 0)) by done.
    destruct Hp as (Hc & Hn & Hh).
    destruct (probe_spec d b v f (pci_io p) Hf Hc) as (s & Es & Hs & Hv).
    assert (on_io (drv_probe d b v f) p = Ok (score d b v f, with_io p s)) as ->
      by (unfold on_io; by rewrite Es). cbn [mbind res_bind].
    assert (bus_ok (with_io p s)) as Hp1 by by split.
    destruct (decide (0 < score d b v f)) as [Hpos|Hpos].
    + rewrite (proj2 (Z.ltb_lt _ _)) by done. cbn [fmap option_fmap option_map snd].
      pose proof (init_spec d b v f s Hf Hs) as Hi. rewrite Hv in Hi.
      unfold on_io. cbn [pci_io print with_io]. unfold bus_devices.
      destruct (attach d b v f (devices (pci_io p))) as [σ| | |]; cbn [simulates] in *;
        [|by rewrite Hi..].
      destruct Hi as ([r s2] & -> & Hs2 & Hv2). cbn [mbind res_bind].
      eexists. split; [done|]. by split_and!.
    + rewrite (proj2 (Z.ltb_ge _ _)) by lia. cbn [pci_next with_io]. rewrite Hn, En.
      cbn [deref mbind res_bind].
      specialize (IH fuel n (with_io p s) ltac:(cbn in Hl; lia) Hch Hp1). cbn zeta in *.
      replace (bus_devices (with_io p s)) with (bus_devices p) in IH by done.
      destruct (list_find _ l) as [[i x]|]; exact IH.
Qed.

Lemma visit_function_ok fuel p b v f : bus_ok p -> is_function b v f ->
  (length dl < fuel)%nat ->
  simulates (says p (report b v f)) (function_effect b v f (bus_devices p)) (visit_function fuel b v f p).
Proof.
  intros Hp Hf Hfuel. unfold visit_function.
  change (getVendorId b v f) with (readConfigurationRegister16 b v f Config.VendorId).
  change (getDeviceId b v f) with (readConfigurationRegister16 b v f Config.DeviceId).
  destruct (on_read16 p b v f Config.VendorId Hp Hf ltac:(done) eq_refl ltac:(set_solver))
    as (s1 & -> & H1 & V1).
  cbn [mbind res_bind]. change (8 * (Config.VendorId mod 4)) with 0. rewrite Z.shiftr_0_r.
  change Config.VendorId with 0. unfold report, function_effect, present.
  destruct (negb (u16 (c (tag_of b v f 0)) =? 0xffff)).
  2:{ eexists. split; [done|]. unfold says. split_and!; [done|done|]. by rewrite app_nil_r. }
  destruct (on_read16 _ b v f Config.DeviceId H1 Hf ltac:(done) eq_refl ltac:(set_solver))
    as (s2 & -> & H2 & V2).
  cbn [mbind res_bind]. change (8 * (Config.DeviceId mod 4)) with 16.
  destruct (on_read8 _ b v f 8 H2 Hf ltac:(done) ltac:(set_solver)) as (s3 & -> & H3 & V3).
  cbn [mbind res_bind]. change (8 * (8 mod 4)) with 0. rewrite Z.shiftr_0_r.
  change (tag_of b v f Config.DeviceId) with (tag_of b v f 0).
  pose proof (getDeviceInfo_ok _ b v f H3 Hf) as Hi.
  replace (bus_devices (with_io (with_io (with_io p s1) s2) s3)) with (bus_devices p) in Hi
    by (symmetry; etransitivity; [exact V3|]; by etransitivity).
  eapply simulates_bind; [exact Hi|]. intros σ p4 (H4 & <- & L4).
  unfold probeAndAttach. assert (pciDrivers p4 = head) as -> by apply H4.
  pose proof (probe_loop_ok b v f Hf dl fuel head p4 Hfuel Hdl H4) as Hl. cbn zeta in Hl.
  unfold attach_effect, attach_line. cbn [pci_console with_io] in L4. fold (chosen b v f) in Hl.
  destruct (chosen b v f) as [d|].
  - destruct (attach d b v f (bus_devices p4)) as [σ| | |]; cbn [simulates] in *; [|by rewrite Hl..].
    destruct Hl as ([r p5] & -> & -> & H5 & Hv5 & L5). cbn [mbind res_bind].
    eexists. split; [done|]. split_and!; [done|done|]. by rewrite L5, L4, <-!app_assoc.
  - destruct Hl as ([r p5] & -> & -> & H5 & Hv5 & L5). cbn [mbind res_bind].
    eexists. split; [done|]. split_and!; [done|done|].
    cbn [pci_console print]. by rewrite L5, L4, app_nil_r, <-!app_assoc.
Qed.

(** Machines with one bus: what enumeration does is what it does on bus 0. *)
Lemma one_bus σ :
  (forall b v f, is_function b v f -> 0 < b -> present b v f = false) ->
  bus_effect σ = for_each (seqZ 0 32) (fun v => for_each (seqZ 0 8) (fun f => function_effect 0 v f)) σ /\
  bus_report = mjoin ((fun v => mjoin ((fun f => report 0 v f) <$> seqZ 0 8)) <$> seqZ 0 32).
Proof.
  intros Hp. unfold bus_effect, bus_report. rewrite (seqZ_cons 0 256) by lia.
  change (Z.succ 0) with 1. change (Z.pred 256) with 255. split.
  - cbn [for_each]. set (x := for_each (seqZ 0 32) _ σ).
    destruct x as [σ'| | |]; [|done..]. cbn [mbind res_bind]. apply for_each_idle. intros b Hb.
    apply for_each_idle. intros v Hv. apply for_each_idle. intros f Hf.
    apply elem_of_seqZ in Hb, Hv, Hf. unfold function_effect.
    rewrite Hp by (unfold is_function; lia). done.
  - rewrite fmap_cons. cbn [mjoin list_join]. rewrite <-app_nil_r. f_equal.
    assert (forall (A : Type) (g : Z -> list A) l, (forall i, i ∈ l -> g i = []) -> mjoin (g <$> l) = [])
      as Hnil.
    { intros A g l. induction l as [|i l IH]; intros Hg; [done|]. rewrite fmap_cons. cbn.
      rewrite Hg by by left. apply IH. intros j Hj. apply Hg. by right. }
    apply Hnil. intros b Hb. apply Hnil. intros v Hv. apply Hnil. intros f Hf.
    apply elem_of_seqZ in Hb, Hv, Hf. unfold report. by rewrite Hp by (unfold is_function; lia).
Qed.

(** C39: [Pci::enumerate] goes through the functions of all buses in order.
    Nothing is said or done for a function that is not there; for one that is,
    its interrupt line and base addresses are described, and then the first
    driver of the list that gives it a positive score is initialized, which
    does with the devices what that driver's [init] does, and no other driver
    is; or, when no driver wants it, the function is reported as unknown.  So
    the devices afterwards are what the chosen drivers, one after the other,
    make of them.  Enumeration terminates when the drivers do, and stops the
    system in two cases only: in a base address whose type has no name, which
    is looked up behind the end of the table of names, and where the [init] of
    a chosen driver stops it. *)
Theorem enumerate_attaches fuel p : bus_ok p -> (length dl < fuel)%nat ->
  match bus_effect (bus_devices p) with
  | Ok σ => exists p', enumerate fuel p = Ok p' /\ bus_ok p' /\ bus_devices p' = σ /\
      pci_console p' = pci_console p ++ bus_report
  | Panic => enumerate fuel p = Panic
  | Fault => enumerate fuel p = Fault
  | NoFuel => enumerate fuel p = NoFuel
  end.
Proof.
  intros Hp Hfuel. unfold enumerate, all_functions, bus_effect, bus_report.
  apply (for_each_simulates _ _ bus_devices pci_console bus_ok
    (fun b => mjoin ((fun v => mjoin ((fun f => report b v f) <$> seqZ 0 8)) <$> seqZ 0 32))); [|done].
  intros b p1 Hb Hp1. apply elem_of_seqZ in Hb.
  apply (for_each_simulates _ _ bus_devices pci_console bus_ok
    (fun v => mjoin ((fun f => report b v f) <$> seqZ 0 8))); [|done].
  intros v p2 Hv Hp2. apply elem_of_seqZ in Hv.
  apply (for_each_simulates _ _ bus_devices pci_console bus_ok (fun f => report b v f)); [|done].
  intros f p3 Hf Hp3. apply elem_of_seqZ in Hf.
  apply visit_function_ok; [done| |done]. unfold is_function; lia.
Qed.
End enumeration.

(** *** Drivers and descriptions *)

Lemma chain_insert next h dl d w : d ∉ dl -> chain next h dl -> chain (<[d := w]> next) h dl.
Proof.
  revert h. induction dl as [|x dl IH]; intros h; cbn [chain]; [done|].
  intros Hin (-> & Hx & n & En & Hch). apply not_elem_of_cons in Hin as [Hne Hin].
  split_and!; [done|done|]. exists n. rewrite lookup_insert_ne by done. split; [done|]. by apply IH.
Qed.

(** A new driver becomes the head of the list. *)
Lemma registerDriver_ok {io} `{Ports io} (p : pci io) driver n dl :
  chain (pci_next p) (pciDrivers p) dl -> driver <> 0 -> driver ∉ dl ->
  pci_next p !! driver = Some n ->
  exists p', registerDriver driver p = Ok p' /\
    chain (pci_next p') (pciDrivers p') (driver :: dl) /\ pci_io p' = pci_io p.
Proof.
  intros Hch Hd Hin En. unfold registerDriver. cbn [pci_next print]. rewrite En.
  cbn [deref mbind res_bind]. eexists. split; [done|]. split; [|done].
  cbn [chain pciDrivers pci_next]. split_and!; [done|done|].
  eexists. split; [apply lookup_insert_eq|]. by apply chain_insert.
Qed.

(** The drivers constructed so far form the list, the last one first. *)
Lemma PciDriver_new_ok {io} `{Ports io} (p : pci io) driver dl :
  chain (pci_next p) (pciDrivers p) dl -> driver <> 0 -> driver ∉ dl ->
  exists p', PciDriver_new driver p = Ok p' /\
    chain (pci_next p') (pciDrivers p') (driver :: dl) /\ pci_io p' = pci_io p.
Proof.
  intros Hch Hd Hin.
  apply (registerDriver_ok (Pci (pci_io p) (pciDrivers p) (<[driver := 0]> (pci_next p)) (pci_console p))
    driver 0); cbn [pci_next pciDrivers]; try done.
  - by apply chain_insert.
  - apply lookup_insert_eq.
Qed.

(** A memory address register of type 3 is looked up behind the end of the
    array of names; every other address register is printed. *)
Lemma printBar_cases bar : uint 32 bar ->
  if decide (bar mod 8 = 6) then printBar bar = Fault else exists info, printBar bar = Ok info.
Proof.
  intros Hb. unfold printBar, getTypeName.
  rewrite (land_ones_low bar 1 ltac:(lia) : Z.land bar 1 = bar mod 2).
  rewrite land_low2, (Z.shiftr_div_pow2 bar 1 ltac:(lia) : Z.shiftr bar 1 = bar / 2).
  rewrite (wrap_id 8) by (unfold uint; Z.div_mod_to_equations; lia).
  destruct (Z.eqb_spec (bar mod 2) 0) as [H0|H0].
  - rewrite (proj2 (Z.ltb_ge 3 _)) by (Z.div_mod_to_equations; lia).
    assert (bar / 2 mod 4 = bar mod 8 / 2) as -> by (Z.div_mod_to_equations; lia).
    assert (bar mod 8 = 0 \/ bar mod 8 = 2 \/ bar mod 8 = 4 \/ bar mod 8 = 6) as Hc
      by (Z.div_mod_to_equations; lia).
    destruct Hc as [-> | [-> | [-> | ->]]];
      first [rewrite decide_True by done; reflexivity
            |rewrite decide_False by done; eexists; reflexivity].
  - rewrite decide_False by (Z.div_mod_to_equations; lia). eauto.
Qed.

(** *** The watchdog driver *)

(** The score depends on the description: vendor 0x8086, device 0x25ab. *)
Definition watchdog_score (c : Z -> Z) (b v f : Z) : Z :=
  let w := c (tag_of b v f 0) in
  if (u16 w =? 0x8086) && (u16 (Z.shiftr w 16) =? 0x25ab) then 1 else 0.

Section watchdog_driver.
Context {io : Type} `{ConfigMechanism io}.
Context (b v f : Z) (Hf : is_function b v f).

Lemma watchdog_probe_ok c s : describes c s ->
  exists s', watchdog_probe b v f s = Ok (watchdog_score c b v f, s') /\ same_config s s'.
Proof.
  intros Hc. unfold watchdog_probe, getVendorId, getDeviceId, watchdog_score.
  destruct (read16_ok b v f Hf Config.VendorId s) as (s1 & -> & H1); [done|done|].
  cbn [mbind res_bind].
  destruct (read16_ok b v f Hf Config.DeviceId s1) as (s2 & -> & H2); [done|done|].
  cbn [mbind res_bind].
  assert (forall o, o / 4 = 0 -> dword b v f s o = c (tag_of b v f 0)) as Hd.
  { intros o Ho. rewrite <-(Hc b v f 0 Hf) by (by left). unfold dword, tag_of.
    f_equal. Z.div_mod_to_equations. lia. }
  assert (dword b v f s1 Config.DeviceId = c (tag_of b v f 0)) as ->.
  { unfold dword. rewrite H1. by apply Hd. }
  rewrite (Hd Config.VendorId) by done. change (8 * (Config.VendorId mod 4)) with 0.
  change (8 * (Config.DeviceId mod 4)) with 16. rewrite Z.shiftr_0_r.
  assert (same_config s s2) by (intros t; by rewrite H2).
  destruct (_ && _); by exists s2.
Qed.

(** Sizing the region puts the base address back, or panics when the register
    does not take it back; an interrupt pin without a name is looked up behind
    the end of the table. *)
Lemma watchdog_bar0_ok s :
  let t := tag_of b v f Config.Bar0 in
  let bar := config s t in
  let sized := latch t bar 0xffffffff in
  let pin := u8 (Z.shiftr (config s (tag_of b v f 0x3c)) 8) in
  if 4 <? pin then watchdog_bar0 b v f s = Fault
  else if bar =? latch t sized bar then
    exists s', watchdog_bar0 b v f s = Ok (bar, region_size sized, s') /\ same_config s s'
  else watchdog_bar0 b v f s = Panic.
Proof.
  intros t bar sized pin. unfold watchdog_bar0.
  destruct (read32_ok b v f Hf Config.Bar0 s) as (s1 & -> & H1); [done|done|]. cbn [mbind res_bind].
  destruct (read8_ok b v f Hf Config.InterruptPin s1) as (s2 & -> & H2); [done|]. cbn [mbind res_bind].
  destruct (read8_ok b v f Hf Config.InterruptLine s2) as (s3 & -> & H3); [done|]. cbn [mbind res_bind].
  destruct (write32_ok b v f Hf Config.Bar0 0xffffffff s3) as (s4 & -> & H4); [done|done|].
  cbn [mbind res_bind].
  destruct (read32_ok b v f Hf Config.Bar0 s4) as (s5 & -> & H5); [done|done|]. cbn [mbind res_bind].
  assert (dword b v f s1 Config.InterruptPin = config s (tag_of b v f 0x3c)) as ->.
  { unfold dword. rewrite H1. by rewrite <-(tag_dword b v f Config.InterruptPin). }
  change (8 * (Config.InterruptPin mod 4)) with 8. fold pin.
  assert (0 <= pin < 256) as Hpin by (apply (wrap_range 8); lia).
  unfold dword. fold t. assert (config s4 t = sized) as ->.
  { rewrite H4, decide_True by done. by rewrite H3, H2, H1. }
  destruct (Z.ltb_spec 4 pin) as [Hp|Hp].
  { rewrite (proj2 (Z.eqb_neq _ _)) by lia.
    assert (pins !! Z.to_nat pin = None) as -> by (apply lookup_ge_None; cbn; lia). done. }
  assert (exists name, (if pin =? 0 then mret "None"%string else deref (pins !! Z.to_nat pin))
    = Ok name) as (name & ->).
  { destruct (pin =? 0); [by eexists|].
    destruct (lookup_lt_is_Some_2 pins (Z.to_nat pin)) as [x ->]; [cbn; lia|]. by exists x. }
  cbn [mbind res_bind]. fold bar.
  destruct (write32_ok b v f Hf Config.Bar0 bar s5) as (s6 & -> & H6); [done|done|].
  cbn [mbind res_bind].
  destruct (read32_ok b v f Hf Config.Bar0 s6) as (s7 & -> & H7); [done|done|]. cbn [mbind res_bind].
  unfold dword. fold t. assert (config s5 t = sized) as Ht.
  { rewrite H5, H4, decide_True by done. by rewrite H3, H2, H1. }
  rewrite H6, Ht, decide_True by done.
  destruct (Z.eqb_spec bar (latch t sized bar)) as [E|E]; [|done].
  cbn [kassert mbind res_bind]. exists s7. split; [done|]. intros u. rewrite H7, H6.
  fold t. destruct (decide (u = t)) as [-> |Hu]; [by rewrite Ht, <-E|].
  rewrite H5, H4. fold t. rewrite decide_False by done. by rewrite H3, H2, H1.
Qed.
End watchdog_driver.

(** ** A host bridge whose registers are plain memory *)

Module PlainBridge.

(** The devices of this machine are known by which driver was attached to which
    function, in order. *)
Definition attached : Type := list (Z * (Z * Z * Z)).

Record bridge : Type := Bridge {
  br_selected : Z; br_registers : gmap Z Z; br_attached : attached;
}.

Definition read (s : bridge) (t : Z) : Z := u32 (default 0xffffffff (br_registers s !! t)).

#[export] Instance bridge_ports : Ports bridge := {|
  inb _ s := (0, s);
  inl p s := (if p =? PCI_CONFIG_DATA then read s (br_selected s) else 0, s);
  outb _ _ s := s;
  outw _ _ s := s;
  outl p v s :=
    if p =? PCI_CONFIG_ADDRESS then Bridge v (br_registers s) (br_attached s)
    else Bridge (br_selected s) (<[br_selected s := v]> (br_registers s)) (br_attached s);
|}.

#[export] Program Instance bridge_config : ConfigMechanism bridge := {|
  selected := br_selected;
  config := read;
  latch _ _ v := u32 v;
|}.
Next Obligation. intros. apply wrap_range. lia. Qed.
Next Obligation. done. Qed.
Next Obligation. done. Qed.
Next Obligation. done. Qed.
Next Obligation. done. Qed.
Next Obligation.
  intros s v u _. unfold read. cbn [outl bridge_ports br_registers br_selected].
  change (PCI_CONFIG_DATA =? PCI_CONFIG_ADDRESS) with false. cbn iota. cbn [br_registers].
  rewrite lookup_insert. by repeat case_decide.
Qed.

Lemma bridge_outl p v s : br_attached (outl p v s) = br_attached s.
Proof. cbn [outl bridge_ports]. by destruct (p =? PCI_CONFIG_ADDRESS). Qed.

(** Two drivers; the one at 32 is the watchdog's, the other wants nothing. *)
#[export] Instance bridge_drivers : PciDrivers bridge := {|
  drv_probe d b v f s := if d =? 32 then watchdog_probe b v f s else Ok (0, s);
  drv_init d b v f s :=
    if d =? 32 then
      '(_, _, s) ← watchdog_bar0 b v f s;
      Ok (true, Bridge (br_selected s) (br_registers s) (br_attached s ++ [(d, (b, v, f))]))
    else Ok (true, s);
|}.

#[export] Program Instance bridge_laws (c : Z -> Z) : DriverLaws bridge attached c := {|
  devices := br_attached;
  score d b v f := if d =? 32 then watchdog_score c b v f else 0;
  attach d b v f σ :=
    if d =? 32 then
      if 4 <? u8 (Z.shiftr (c (tag_of b v f 0x3c)) 8) then Fault else Ok (σ ++ [(d, (b, v, f))])
    else Ok σ;
|}.
Next Obligation. done. Qed.
Next Obligation. done. Qed.
Next Obligation.
  intros c d b v f s Hf Hs. cbn [drv_probe bridge_drivers]. destruct (d =? 32); [|by exists s].
  destruct (watchdog_probe_ok b v f Hf c s Hs) as (s' & E & Hs'). exists s'. split_and!; [done| |].
  - intros b' v' f' o Hf' Ho. rewrite Hs'. by apply Hs.
  - eapply (watchdog_probe_keeps br_attached); [| |exact E]; [intros; apply bridge_outl|done].
Qed.
Next Obligation.
  intros c d b v f s Hf Hs. cbn [drv_init bridge_drivers]. destruct (d =? 32); [|by eexists].
  pose proof (watchdog_bar0_ok b v f Hf s) as H. cbn zeta in H.
  rewrite (Hs b v f 0x3c Hf) in H by set_solver.
  destruct (4 <? _); [by rewrite H|].
  assert (config s (tag_of b v f Config.Bar0) =? latch (tag_of b v f Config.Bar0)
    (latch (tag_of b v f Config.Bar0) (config s (tag_of b v f Config.Bar0)) 0xffffffff)
    (config s (tag_of b v f Config.Bar0)) = true) as E.
  { apply Z.eqb_eq. symmetry. apply wrap_id, wrap_range. lia. }
  rewrite E in H. destruct H as (s' & H & Hc). rewrite H. cbn [mbind res_bind simulates].
  eexists. split; [done|]. split.
  - intros b' v' f' o Hf' Ho. rewrite <-(Hs b' v' f' o Hf' Ho). apply Hc.
  - cbn [br_attached]. f_equal.
    eapply (watchdog_bar0_keeps br_attached); [| | |exact H]; intros; apply bridge_outl || done.
Qed.

(** A bus with a display controller and a watchdog. *)
Definition sample : gmap Z Z := list_to_map
  [(tag_of 0 2 0 0x00, 0x11111234); (tag_of 0 2 0 0x08, 0x03000000); (tag_of 0 2 0 0x10, 0xf0000008);
   (tag_of 0 2 0 0x14, 0); (tag_of 0 2 0 0x18, 0); (tag_of 0 2 0 0x1c, 0); (tag_of 0 2 0 0x20, 0);
   (tag_of 0 2 0 0x24, 0); (tag_of 0 2 0 0x3c, 0);
   (tag_of 0 3 0 0x00, 0x25ab8086); (tag_of 0 3 0 0x08, 0x08800002); (tag_of 0 3 0 0x10, 0xfebc0000);
   (tag_of 0 3 0 0x14, 0xc001); (tag_of 0 3 0 0x18, 0); (tag_of 0 3 0 0x1c, 0); (tag_of 0 3 0 0x20, 0);
   (tag_of 0 3 0 0x24, 0); (tag_of 0 3 0 0x3c, 0x10b)].

Definition sample_bus : pci bridge :=
  {| pci_io := Bridge 0 sample []; pciDrivers := 16; pci_next := <[16 := 32]> (<[32 := 0]> ∅);
     pci_console := [] |}.

Definition sample_config (t : Z) : Z := read (Bridge 0 sample []) t.

Lemma sample_one_bus b v f : is_function b v f -> 0 < b -> present sample_config b v f = false.
Proof.
  intros (Hb & Hv & Hf) Hpos. unfold present, sample_config, read. cbn [br_registers].
  assert (sample !! tag_of b v f 0 = None) as ->; [|done].
  assert (map_Forall (fun t _ => t < 0x80010000) sample) as Hm
    by (refine (bool_decide_unpack _ _); vm_compute; exact I).
  destruct (sample !! tag_of b v f 0) as [w|] eqn:E; [|done].
  apply Hm in E. unfold tag_of in E. change (2 ^ 31) with 2147483648 in E.
  change (2 ^ 16) with 65536 in E. change (2 ^ 11) with 2048 in E. change (2 ^ 8) with 256 in E.
  change (0 - 0 mod 4) with 0 in E. lia.
Qed.
End PlainBridge.

Import PlainBridge.

Lemma config_access_witness : exists s',
  writeConfigurationRegister8 0 3 0 0x08 0x55 (Bridge 0 sample []) = Ok s' /\
  config s' (tag_of 0 3 0 0x08) = 0x57.
Proof.
  destruct (config_access 0 3 0 ltac:(done) 0x08 0x55 (Bridge 0 sample []) ltac:(done)) as (_ & _ & H).
  destruct H as (_ & _ & (s' & E & Hs) & _). exists s'. split; [exact E|].
  rewrite Hs, decide_True by done. vm_compute. reflexivity.
Defined.

Lemma enumerate_attaches_witness : exists p', enumerate 3 sample_bus = Ok p' /\
  br_attached (pci_io p') = [(32, (0, 3, 0))] /\
  pci_console p' =
    [BarLine 4 (MemoryBar 0xf0000000 "32bit" true);
     UnknownDevice 0 2 0 "Unclassified device" 0x1234 0x1111;
     IrqLine 0x0b 1; BarLine 4 (MemoryBar 0xfebc0000 "32bit" false); BarLine 5 (IoBar 0xc000);
     Initializing 0 3 0 32]%string.
Proof.
  pose proof (enumerate_attaches sample_config (<[16 := 32]> (<[32 := 0]> ∅)) 16 [16; 32]
    ltac:(cbn; split_and!; [done|done|]; exists 32; split; [done|]; split_and!; [done|done|];
          exists 0; done) 3 sample_bus) as H.
  assert (bus_ok sample_config (<[16 := 32]> (<[32 := 0]> ∅)) 16 sample_bus) as Hok.
  { split; [|by split]. intros b v f o _ _. reflexivity. }
  destruct (one_bus sample_config [16; 32] (bus_devices sample_config sample_bus) sample_one_bus)
    as [E Er].
  rewrite E, Er in H. clear E Er. revert H.
  match goal with |- ((_ -> _ -> match ?x with _ => _ end) -> _) =>
    assert (x = Ok [(32, (0, 3, 0))]) as -> by (vm_compute; reflexivity) end.
  intros H. destruct (H Hok ltac:(cbn; lia)) as (p' & Hp & _ & Hd & L).
  exists p'. split; [exact Hp|]. split; [exact Hd|]. rewrite L. vm_compute. reflexivity.
Defined.
