(* ===== verification/Pic.v ===== *)
(** * The interrupt controller

    Models X86/Pic.cc: the driver of the two 8259A interrupt controllers of a
    PC, the slave cascaded to line 2 of the master.  It implements the
    interface [InterruptController] of Interrupt.v.

    What the chips do with the ports is the class [PicChips]: each chip steps
    by its data sheet on every write to its command or data port. *)

From S2P Require Import Prelude.
From S2P Require Import Words.
From S2P Require Import Interrupt.
From S2P Require Import Ports.
From Stdlib Require Import ZArith Lia.
From stdpp Require Import prelude.

Open Scope Z_scope.

(** ** Constants (X86/Pic.cc) *)

Definition BIT (n : Z) : Z := wshl 32 1 n.

Definition MasterCommand : Z := 0x20.
Definition MasterData : Z := 0x21.
Definition SlaveCommand : Z := 0xa0.
Definition SlaveData : Z := 0xa1.
Definition Icw4Needed : Z := BIT 0.
Definition InitConfiguration : Z := BIT 4.
Definition X86Mode : Z := BIT 0.
Definition EndOfInterrupt : Z := 0x20.
Definition MasterOffset : Z := 32.
Definition SlaveOffset : Z := 40.

(** ** The driver *)

Section driver.
Context {io : Type} `{Ports io}.
Implicit Types (s : io) (irq : Z).

(** [Pic::init]; the [sti] at its end is the business of the processor. *)
Definition Pic_init s : io :=
  let s := outb MasterCommand (Z.lor Icw4Needed InitConfiguration) s in
  let s := outb MasterData MasterOffset s in
  let s := outb MasterData (BIT 2) s in
  let s := outb MasterData X86Mode s in
  let s := outb SlaveCommand (Z.lor Icw4Needed InitConfiguration) s in
  let s := outb SlaveData SlaveOffset s in
  let s := outb SlaveData 2 s in
  let s := outb SlaveData X86Mode s in
  let s := outb MasterData 0xff s in
  outb SlaveData 0xff s.

Definition Pic_endOfInterrupt irq s : res io :=
  kassert (irq <? 16);;
  let s := if 7 <? irq then outb SlaveCommand EndOfInterrupt s else s in
  mret (outb MasterCommand EndOfInterrupt s).

(** [~(0x1 << irq)] as an [int]. *)
Definition Pic_enableInterrupt irq s : res io :=
  kassert (irq <? 16);;
  if 7 <? irq then
    let irq := u32 (irq - 8) in
    let mask := Z.lnot (Z.shiftl 0x1 irq) in
    let '(original, s) := inb SlaveData s in
    mret (outb SlaveData (Z.land original (u8 mask)) s)
  else
    let mask := Z.lnot (Z.shiftl 0x1 irq) in
    let '(original, s) := inb MasterData s in
    mret (outb MasterData (Z.land original (u8 mask)) s).

Definition Pic_disableInterrupt irq s : res io :=
  kassert (irq <? 16);;
  if 7 <? irq then
    let irq := u32 (irq - 8) in
    let mask := Z.shiftl 0x1 irq in
    let '(original, s) := inb SlaveData s in
    mret (outb SlaveData (Z.lor original (u8 mask)) s)
  else
    let mask := Z.shiftl 0x1 irq in
    let '(original, s) := inb MasterData s in
    mret (outb MasterData (Z.lor original (u8 mask)) s).

(** The object that [Interrupt::controller] points to. *)
#[export] Instance pic_controller : InterruptController io := {|
  endOfInterrupt := Pic_endOfInterrupt;
  controller_enableInterrupt := Pic_enableInterrupt;
  controller_disableInterrupt := Pic_disableInterrupt;
|}.
End driver.

(** ** The chips

    A chip has its initialisation sequence, of which [icw] words are still
    expected, the vector offset, the cascade word and the mode it was given,
    the mask register and the lines in service. *)

Record chip : Type := Chip {
  icw : nat;
  offset : Z;
  cascade : Z;
  mode : Z;
  imr : Z;
  isr : Z;
}.

(** The lowest bit that is set is the line of the highest priority. *)
Definition end_highest (x : Z) : Z := Z.land x (x - 1).

(** A write to the command port: bit 4 starts the initialisation (the chip is
    in cascade mode and expects ICW4), [0x20] is the unspecific end of
    interrupt. *)
Definition write_command (v : Z) (c : chip) : chip :=
  if Z.testbit v 4 then Chip 3 (offset c) (cascade c) (mode c) 0 0
  else if v =? 0x20 then Chip (icw c) (offset c) (cascade c) (mode c) (imr c) (end_highest (isr c))
  else c.

(** A write to the data port: the next initialisation word, or the mask. *)
Definition write_data (v : Z) (c : chip) : chip :=
  match icw c with
  | 3%nat => Chip 2 (Z.land v 0xf8) (cascade c) (mode c) (imr c) (isr c)
  | 2%nat => Chip 1 (offset c) v (mode c) (imr c) (isr c)
  | 1%nat => Chip 0 (offset c) (cascade c) v (imr c) (isr c)
  | _ => Chip 0 (offset c) (cascade c) (mode c) v (isr c)
  end.

Class PicChips (io : Type) {P : Ports io} := {
  master : io -> chip;
  slave : io -> chip;
  outb_master_command v s : master (outb MasterCommand v s) = write_command v (master s) /\
    slave (outb MasterCommand v s) = slave s;
  outb_master_data v s : master (outb MasterData v s) = write_data v (master s) /\
    slave (outb MasterData v s) = slave s;
  outb_slave_command v s : slave (outb SlaveCommand v s) = write_command v (slave s) /\
    master (outb SlaveCommand v s) = master s;
  outb_slave_data v s : slave (outb SlaveData v s) = write_data v (slave s) /\
    master (outb SlaveData v s) = master s;
  inb_master_data s : fst (inb MasterData s) = imr (master s) /\
    master (snd (inb MasterData s)) = master s /\ slave (snd (inb MasterData s)) = slave s;
  inb_slave_data s : fst (inb SlaveData s) = imr (slave s) /\
    master (snd (inb SlaveData s)) = master s /\ slave (snd (inb SlaveData s)) = slave s;
}.

(** ** The contract: sixteen lines *)

Section lines.
Context {io : Type} `{PicChips io}.
Implicit Types (s : io) (irq : Z).

(** Both chips have been initialised, and their masks are bytes. *)
Definition ready s : Prop :=
  icw (master s) = 0%nat /\ icw (slave s) = 0%nat /\
  uint 8 (imr (master s)) /\ uint 8 (imr (slave s)).

(** A line is masked by its bit in the mask of its chip. *)
Definition masked s (irq : Z) : bool :=
  if irq <? 8 then Z.testbit (imr (master s)) irq else Z.testbit (imr (slave s)) (irq - 8).

(** Everything but the masks is as before. *)
Definition same_but_masks s s' : Prop :=
  (forall c, c = master \/ c = slave -> offset (c s') = offset (c s) /\ cascade (c s') = cascade (c s) /\
     mode (c s') = mode (c s) /\ isr (c s') = isr (c s)).

Lemma write_mask v c : icw c = 0%nat ->
  write_data v c = Chip 0 (offset c) (cascade c) (mode c) v (isr c).
Proof. intros E. unfold write_data. by rewrite E. Qed.

(** Bits of the byte [1 << k] and of its complement. *)
Lemma shift_byte k i : 0 <= k < 8 -> 0 <= i < 8 ->
  Z.testbit (u8 (Z.shiftl 1 k)) i = bool_decide (i = k).
Proof.
  intros Hk Hi. rewrite testbit_wrap, Z.shiftl_1_l by done.
  rewrite Z.pow2_bits_eqb by lia. case_bool_decide; [subst; apply Z.eqb_refl|by apply Z.eqb_neq].
Qed.

Lemma not_shift_byte k i : 0 <= k < 8 -> 0 <= i < 8 ->
  Z.testbit (u8 (Z.lnot (Z.shiftl 1 k))) i = negb (bool_decide (i = k)).
Proof.
  intros Hk Hi. rewrite testbit_wrap, Z.lnot_spec, Z.shiftl_1_l by (done || lia).
  rewrite Z.pow2_bits_eqb by lia. f_equal.
  case_bool_decide; [subst; apply Z.eqb_refl|by apply Z.eqb_neq].
Qed.

(** *** The driver in terms of the chips *)

Lemma set_mask (slave_side : bool) v s : ready s -> uint 8 v ->
  let s' := if slave_side then outb SlaveData v (snd (inb SlaveData s))
            else outb MasterData v (snd (inb MasterData s)) in
  ready s' /\ same_but_masks s s' /\
  imr (master s') = (if slave_side then imr (master s) else v) /\
  imr (slave s') = (if slave_side then v else imr (slave s)).
Proof.
  intros (H1 & H2 & H3 & H4) Hv. destruct slave_side; cbv zeta.
  - destruct (inb_slave_data s) as (_ & M & S).
    destruct (outb_slave_data v (snd (inb SlaveData s))) as (S' & M').
    rewrite M in M'. rewrite S, write_mask in S' by done. unfold ready, same_but_masks.
    rewrite S', M'. cbn. split_and!; try done. intros c [-> | ->]; by rewrite ?S', ?M'.
  - destruct (inb_master_data s) as (_ & M & S).
    destruct (outb_master_data v (snd (inb MasterData s))) as (M' & S').
    rewrite S in S'. rewrite M, write_mask in M' by done. unfold ready, same_but_masks.
    rewrite S', M'. cbn. split_and!; try done. intros c [-> | ->]; by rewrite ?S', ?M'.
Qed.

(** Enabling and disabling a line write the mask of its chip. *)
Lemma enable_eq irq s : 0 <= irq < 16 -> Pic_enableInterrupt irq s =
  Ok (if 7 <? irq
      then outb SlaveData (Z.land (imr (slave s)) (u8 (Z.lnot (Z.shiftl 1 (irq - 8))))) (snd (inb SlaveData s))
      else outb MasterData (Z.land (imr (master s)) (u8 (Z.lnot (Z.shiftl 1 irq)))) (snd (inb MasterData s))).
Proof.
  intros Hi. unfold Pic_enableInterrupt. rewrite (proj2 (Z.ltb_lt irq 16)) by lia.
  cbn [kassert mbind res_bind]. destruct (inb_slave_data s) as (<- & _).
  destruct (inb_master_data s) as (<- & _). destruct (Z.ltb_spec 7 irq).
  - rewrite (wrap_id 32) by (unfold uint; lia). by destruct (inb SlaveData s).
  - by destruct (inb MasterData s).
Qed.

Lemma disable_eq irq s : 0 <= irq < 16 -> Pic_disableInterrupt irq s =
  Ok (if 7 <? irq
      then outb SlaveData (Z.lor (imr (slave s)) (u8 (Z.shiftl 1 (irq - 8)))) (snd (inb SlaveData s))
      else outb MasterData (Z.lor (imr (master s)) (u8 (Z.shiftl 1 irq))) (snd (inb MasterData s))).
Proof.
  intros Hi. unfold Pic_disableInterrupt. rewrite (proj2 (Z.ltb_lt irq 16)) by lia.
  cbn [kassert mbind res_bind]. destruct (inb_slave_data s) as (<- & _).
  destruct (inb_master_data s) as (<- & _). destruct (Z.ltb_spec 7 irq).
  - rewrite (wrap_id 32) by (unfold uint; lia). by destruct (inb SlaveData s).
  - by destruct (inb MasterData s).
Qed.
End lines.

(** ** The controller *)

Section controller.
Context {io : Type} `{PicChips io}.
Implicit Types (s : io) (irq i : Z).

(** A chip after the initialisation sequence. *)
Definition set_up (c : chip) (off casc : Z) : Prop := c = Chip 0 off casc X86Mode 0xff 0.

Lemma init_sequence off casc m c : 0 <= off < 256 ->
  write_data m (write_data X86Mode (write_data casc (write_data off
    (write_command (Z.lor Icw4Needed InitConfiguration) c))))
  = Chip 0 (Z.land off 0xf8) casc X86Mode m 0.
Proof. done. Qed.

(** After [init] both chips deliver their lines at vectors 32 and 40, are
    cascaded at line 2, and have all lines masked and none in service. *)
Lemma Pic_init_ok s : set_up (master (Pic_init s)) MasterOffset (BIT 2) /\
  set_up (slave (Pic_init s)) SlaveOffset 2 /\ ready (Pic_init s).
Proof.
  assert (set_up (master (Pic_init s)) MasterOffset (BIT 2) /\
    set_up (slave (Pic_init s)) SlaveOffset 2) as [Em Es].
  { unfold set_up, Pic_init. cbv zeta.
    rewrite (proj1 (outb_slave_data _ _)), (proj2 (outb_slave_data _ _)).
    rewrite (proj1 (outb_master_data _ _)), (proj2 (outb_master_data _ _)).
    rewrite !(proj2 (outb_slave_data _ _)), (proj2 (outb_slave_command _ _)).
    rewrite !(proj1 (outb_slave_data _ _)), (proj1 (outb_slave_command _ _)).
    rewrite !(proj1 (outb_master_data _ _)), (proj1 (outb_master_command _ _)).
    rewrite !init_sequence by done. done. }
  split_and!; [done|done|]. unfold ready. by rewrite Em, Es.
Qed.

Lemma masked_land (v k : Z) i : uint 8 v -> 0 <= k < 8 -> 0 <= i < 8 ->
  Z.testbit (Z.land v (u8 (Z.lnot (Z.shiftl 1 k)))) i
  = if decide (i = k) then false else Z.testbit v i.
Proof.
  intros Hv Hk Hi. rewrite Z.land_spec, not_shift_byte by done.
  case_decide; [subst; rewrite bool_decide_true by done; apply andb_false_r|].
  rewrite bool_decide_false by done. apply andb_true_r.
Qed.

Lemma masked_lor (v k : Z) i : uint 8 v -> 0 <= k < 8 -> 0 <= i < 8 ->
  Z.testbit (Z.lor v (u8 (Z.shiftl 1 k))) i
  = if decide (i = k) then true else Z.testbit v i.
Proof.
  intros Hv Hk Hi. rewrite Z.lor_spec, shift_byte by done.
  case_decide; [subst; rewrite bool_decide_true by done; apply orb_true_r|].
  rewrite bool_decide_false by done. apply orb_false_r.
Qed.

(** Writing the mask of the chip of [irq] changes the bit of [irq] only. *)
Lemma line_written irq (bit : bool) v s s' : 0 <= irq < 16 ->
  (forall i, 0 <= i < 8 -> Z.testbit v i
     = if decide (i = if 7 <? irq then irq - 8 else irq) then bit
       else Z.testbit (imr (if 7 <? irq then slave s else master s)) i) ->
  imr (master s') = (if 7 <? irq then imr (master s) else v) ->
  imr (slave s') = (if 7 <? irq then v else imr (slave s)) ->
  forall i, 0 <= i < 16 -> masked s' i = if decide (i = irq) then bit else masked s i.
Proof.
  intros Hirq Hv Em Es i Hi. unfold masked. rewrite Em, Es.
  destruct (Z.ltb_spec 7 irq), (Z.ltb_spec i 8); rewrite ?Hv by lia;
    repeat case_decide; done || lia.
Qed.

Lemma Pic_enable_ok irq s : ready s -> 0 <= irq < 16 ->
  exists s', Pic_enableInterrupt irq s = Ok s' /\ ready s' /\ same_but_masks s s' /\
    forall i, 0 <= i < 16 -> masked s' i = if decide (i = irq) then false else masked s i.
Proof.
  intros Hs Hi. rewrite enable_eq by done. pose proof Hs as (_ & _ & Um & Us).
  destruct (Z.ltb_spec 7 irq) as [Hlt|Hge].
  - assert (uint 8 (Z.land (imr (slave s)) (u8 (Z.lnot (Z.shiftl 1 (irq - 8)))))) as Uv.
    { apply uint_land; [lia|done|]. apply wrap_range. lia. }
    destruct (set_mask true _ s Hs Uv) as (R & S & E1 & E2).
    eexists. split; [done|]. split; [exact R|]. split; [exact S|].
    eapply line_written; try done; rewrite (proj2 (Z.ltb_lt 7 irq)) by done; try done.
    intros i Hi'. apply masked_land; [done|lia|done].
  - assert (uint 8 (Z.land (imr (master s)) (u8 (Z.lnot (Z.shiftl 1 irq))))) as Uv.
    { apply uint_land; [lia|done|]. apply wrap_range. lia. }
    destruct (set_mask false _ s Hs Uv) as (R & S & E1 & E2).
    eexists. split; [done|]. split; [exact R|]. split; [exact S|].
    eapply line_written; try done; rewrite (proj2 (Z.ltb_ge 7 irq)) by done; try done.
    intros i Hi'. apply masked_land; [done|lia|done].
Qed.

Lemma Pic_disable_ok irq s : ready s -> 0 <= irq < 16 ->
  exists s', Pic_disableInterrupt irq s = Ok s' /\ ready s' /\ same_but_masks s s' /\
    forall i, 0 <= i < 16 -> masked s' i = if decide (i = irq) then true else masked s i.
Proof.
  intros Hs Hi. rewrite disable_eq by done. pose proof Hs as (_ & _ & Um & Us).
  destruct (Z.ltb_spec 7 irq) as [Hlt|Hge].
  - assert (uint 8 (Z.lor (imr (slave s)) (u8 (Z.shiftl 1 (irq - 8))))) as Uv.
    { apply uint_lor; [lia|done|]. apply wrap_range. lia. }
    destruct (set_mask true _ s Hs Uv) as (R & S & E1 & E2).
    eexists. split; [done|]. split; [exact R|]. split; [exact S|].
    eapply line_written; try done; rewrite (proj2 (Z.ltb_lt 7 irq)) by done; try done.
    intros i Hi'. apply masked_lor; [done|lia|done].
  - assert (uint 8 (Z.lor (imr (master s)) (u8 (Z.shiftl 1 irq)))) as Uv.
    { apply uint_lor; [lia|done|]. apply wrap_range. lia. }
    destruct (set_mask false _ s Hs Uv) as (R & S & E1 & E2).
    eexists. split; [done|]. split; [exact R|]. split; [exact S|].
    eapply line_written; try done; rewrite (proj2 (Z.ltb_ge 7 irq)) by done; try done.
    intros i Hi'. apply masked_lor; [done|lia|done].
Qed.

(** The end of an interrupt is told to the slave, too, if it came from there. *)
Lemma Pic_eoi_ok irq s : 0 <= irq < 16 ->
  exists s', Pic_endOfInterrupt irq s = Ok s' /\
    master s' = write_command EndOfInterrupt (master s) /\
    slave s' = if 7 <? irq then write_command EndOfInterrupt (slave s) else slave s.
Proof.
  intros Hi. unfold Pic_endOfInterrupt. rewrite (proj2 (Z.ltb_lt irq 16)) by lia.
  eexists. split; [done|]. destruct (outb_master_command EndOfInterrupt
    (if 7 <? irq then outb SlaveCommand EndOfInterrupt s else s)) as (-> & ->).
  destruct (Z.ltb_spec 7 irq); [|done].
  destruct (outb_slave_command EndOfInterrupt s) as (-> & ->). done.
Qed.
End controller.

(** ** Runs of the controller *)

Inductive line_op := Enable (irq : Z) | Disable (irq : Z) | Finish (irq : Z).

Definition op_irq (o : line_op) : Z :=
  match o with Enable irq | Disable irq | Finish irq => irq end.

Section runs.
Context {io : Type} `{PicChips io}.
Implicit Types (s : io) (irq i : Z) (os : list line_op).

(** The calls that Interrupt.v makes through its interface. *)
Definition controller_step (o : line_op) s : res io :=
  match o with
  | Enable irq => controller_enableInterrupt irq s
  | Disable irq => controller_disableInterrupt irq s
  | Finish irq => endOfInterrupt irq s
  end.

Fixpoint controller_run os s : res io :=
  match os with
  | [] => mret s
  | o :: os => s ← controller_step o s; controller_run os s
  end.

(** The reference: the set of lines that are masked, as a predicate. *)
Definition mask_step (o : line_op) (m : Z -> bool) : Z -> bool :=
  match o with
  | Enable irq => fun i => if decide (i = irq) then false else m i
  | Disable irq => fun i => if decide (i = irq) then true else m i
  | Finish _ => m
  end.

(** The lines [m] are masked, the chips deliver at the vectors of [init]. *)
Record lines_are (m : Z -> bool) s : Prop := {
  la_ready : ready s;
  la_masked i : 0 <= i < 16 -> masked s i = m i;
  la_master : offset (master s) = MasterOffset /\ cascade (master s) = BIT 2 /\ mode (master s) = X86Mode;
  la_slave : offset (slave s) = SlaveOffset /\ cascade (slave s) = 2 /\ mode (slave s) = X86Mode;
}.

Lemma lines_are_masks m m' s s' : lines_are m s -> ready s' -> same_but_masks s s' ->
  (forall i, 0 <= i < 16 -> masked s' i = m' i) -> lines_are m' s'.
Proof.
  intros [_ _ Hm Hs] R S Hi.
  destruct (S master (or_introl eq_refl)) as (M1 & M2 & M3 & _).
  destruct (S slave (or_intror eq_refl)) as (S1 & S2 & S3 & _).
  split; [done|done| |]; by rewrite ?M1, ?M2, ?M3, ?S1, ?S2, ?S3.
Qed.

Lemma finish_chip c : write_command EndOfInterrupt c
  = Chip (icw c) (offset c) (cascade c) (mode c) (imr c) (end_highest (isr c)).
Proof. done. Qed.

Lemma controller_step_ok o m s : lines_are m s -> 0 <= op_irq o < 16 ->
  exists s', controller_step o s = Ok s' /\ lines_are (mask_step o m) s'.
Proof.
  intros Hl Hi. pose proof (la_ready _ _ Hl) as R. destruct o as [irq|irq|irq]; cbn [op_irq] in Hi.
  - destruct (Pic_enable_ok irq s R Hi) as (s' & E & R' & S & Hm). exists s'. split; [exact E|].
    eapply lines_are_masks; [done|done|done|]. intros i Hi'. cbn. rewrite Hm by done.
    case_decide; [done|]. by apply (la_masked _ _ Hl).
  - destruct (Pic_disable_ok irq s R Hi) as (s' & E & R' & S & Hm). exists s'. split; [exact E|].
    eapply lines_are_masks; [done|done|done|]. intros i Hi'. cbn. rewrite Hm by done.
    case_decide; [done|]. by apply (la_masked _ _ Hl).
  - destruct (Pic_eoi_ok irq s Hi) as (s' & E & Em & Es). exists s'. split; [exact E|].
    rewrite finish_chip in Em. rewrite finish_chip in Es. destruct Hl as [(R1 & R2 & R3 & R4) Hm Hma Hsl].
    assert (imr (master s') = imr (master s) /\ imr (slave s') = imr (slave s)) as [I1 I2].
    { rewrite Em, Es. by destruct (7 <? irq). }
    split.
    + unfold ready. rewrite I1, I2, Em, Es. by destruct (7 <? irq).
    + intros i Hi'. unfold masked. rewrite I1, I2. by apply Hm.
    + by rewrite Em.
    + rewrite Es. by destruct (7 <? irq).
Qed.

(** C26: the interrupt controller is a set of sixteen masked lines.  After
    [Pic::init] every line is masked; any sequence of [enableInterrupt],
    [disableInterrupt] and [endOfInterrupt] on lines below 16 succeeds, leaves
    masked exactly the lines that the reference set says, on both chips, and
    never disturbs the vectors and the cascade the chips were set up with;
    [endOfInterrupt] clears the line in service of highest priority on the
    master, and on the slave for a line of the slave; on any other line number
    every call panics. *)
Theorem pic_lines os s :
  Forall (fun o => 0 <= op_irq o < 16) os ->
  (exists s', controller_run os (Pic_init s) = Ok s' /\
     lines_are (foldl (fun m o => mask_step o m) (fun _ => true) os) s') /\
  (forall irq s1, 0 <= irq < 16 -> exists s2, endOfInterrupt irq s1 = Ok s2 /\
     isr (master s2) = end_highest (isr (master s1)) /\
     isr (slave s2) = if 7 <? irq then end_highest (isr (slave s1)) else isr (slave s1)) /\
  (forall o s1, 16 <= op_irq o -> controller_step o s1 = Panic).
Proof.
  intros Hos. split; [|split].
  - destruct (Pic_init_ok s) as (Em & Es & R).
    assert (lines_are (fun _ => true) (Pic_init s)) as Hl.
    { split; [done| | |]; rewrite ?Em, ?Es; try done. intros i Hi. unfold masked. rewrite Em, Es. cbn.
      change 255 with (Z.ones 8). destruct (Z.ltb_spec i 8); by rewrite Z.ones_spec_low by lia. }
    revert Hl. generalize (Pic_init s) as s1, (fun _ : Z => true) as m.
    induction Hos as [|o os Ho Hos IH]; intros s1 m Hl; [by exists s1|].
    destruct (controller_step_ok o m s1 Hl Ho) as (s2 & E & Hl2). cbn [controller_run foldl].
    rewrite E. cbn [mbind res_bind]. by apply IH.
  - intros irq s1 Hi. destruct (Pic_eoi_ok irq s1 Hi) as (s2 & E & Em & Es). exists s2.
    split; [exact E|]. rewrite Em, Es, !finish_chip. split; [done|]. by destruct (7 <? irq).
  - intros o s1 Ho. destruct o as [irq|irq|irq]; cbn [op_irq] in Ho; cbn;
      unfold Pic_enableInterrupt, Pic_disableInterrupt, Pic_endOfInterrupt;
      by rewrite (proj2 (Z.ltb_ge irq 16)) by lia.
Qed.
End runs.

(** ** Two chips *)

Module Chips.
#[export] Instance chip_ports : Ports (chip * chip) := {|
  inb p s := (if p =? MasterData then imr s.1 else if p =? SlaveData then imr s.2 else 0, s);
  inl _ s := (0, s);
  outb p v s :=
    if p =? MasterCommand then (write_command v s.1, s.2)
    else if p =? MasterData then (write_data v s.1, s.2)
    else if p =? SlaveCommand then (s.1, write_command v s.2)
    else if p =? SlaveData then (s.1, write_data v s.2) else s;
  outw _ _ s := s;
  outl _ _ s := s;
|}.

#[export] Program Instance chip_laws : PicChips (chip * chip) := {| master := fst; slave := snd |}.
Solve All Obligations with done.
End Chips.

Import Chips.

Lemma pic_lines_witness : exists s',
  controller_run [Enable 0; Enable 9; Disable 0; Finish 9] (Pic_init (Chip 0 0 0 0 0 0, Chip 0 0 0 0 0 0)) = Ok s' /\
  masked s' 0 = true /\ masked s' 9 = false.
Proof.
  destruct (pic_lines [Enable 0; Enable 9; Disable 0; Finish 9] (Chip 0 0 0 0 0 0, Chip 0 0 0 0 0 0)
    ltac:(repeat (apply Forall_cons_2; [done|]); apply Forall_nil_2)) as ((s' & E & Hl) & _).
  exists s'. split; [exact E|].
  split; rewrite (la_masked _ _ Hl) by done; reflexivity.
Defined.
