(* ===== verification/Terminal.v ===== *)
(** * Frame buffer consoles

    Models Drivers/Common/Console/FrameBuffer.cc: the console that keeps a
    cursor on a grid of characters and scrolls.  Its device is the interface
    [Screen], the pure virtual functions of the class; [ScreenLaws] says what
    a device promises.  Vga.v implements it.

    The contract is the terminal of [tput]: a list of rows and a cursor, which
    is always on the grid. *)

From S2P Require Import Prelude.
From S2P Require Import Words.
From Stdlib Require Import ZArith Lia.
From stdpp Require Import prelude list.

Open Scope Z_scope.

(** ** The device (Include/Driver/FrameBuffer.hh) *)

Class Screen (W : Type) := {
  getRows : Z;
  getColumns : Z;
  screen_putChar : Z -> Z -> Z -> W -> res (Z * W);
  screen_setCursor : Z -> Z -> W -> res W;
  screen_scroll : W -> res W;
}.

(** ** The console *)

Record framebuffer (W : Type) : Type := Fb {
  currentRow : Z;
  currentColumn : Z;
  fb_screen : W;
}.

Arguments Fb {W} currentRow currentColumn fb_screen.
Arguments currentRow {W} f.
Arguments currentColumn {W} f.
Arguments fb_screen {W} f.

Definition TABSIZE : Z := 8.

Section console.
Context {W : Type} `{Screen W}.
Implicit Types f : framebuffer W.

Definition stepRow f : res (framebuffer W) :=
  let row := currentRow f + 1 in
  if getRows - 1 <? row then
    w ← screen_scroll (fb_screen f);
    let row := getRows - 1 in
    w ← screen_setCursor (getRows - 1) 0 w;
    mret (Fb row 0 w)
  else mret (Fb row (currentColumn f) (fb_screen f)).

Definition stepColumn f : res (framebuffer W) :=
  let column := currentColumn f + 1 in
  if getColumns - 1 <? column then stepRow (Fb (currentRow f) 0 (fb_screen f))
  else mret (Fb (currentRow f) column (fb_screen f)).

Fixpoint stepColumns (steps : nat) f : res (framebuffer W) :=
  match steps with
  | O => mret f
  | S steps => f ← stepColumn f; stepColumns steps f
  end.

(** [FrameBuffer::putChar(char)] *)
Definition FrameBuffer_putChar (ch : Z) f : res (framebuffer W) :=
  f ← (if ch =? 10 then
         f ← stepRow f;
         mret (Fb (currentRow f) 0 (fb_screen f))
       else if ch =? 13 then mret f
       else if ch =? 9 then
         let newcol := Z.quot (currentColumn f + TABSIZE) TABSIZE * TABSIZE in
         stepColumns (Z.to_nat (newcol - currentColumn f)) f
       else
         '(_, w) ← screen_putChar ch (currentRow f) (currentColumn f) (fb_screen f);
         stepColumn (Fb (currentRow f) (currentColumn f) w));
  w ← screen_setCursor (currentRow f) (currentColumn f) (fb_screen f);
  mret (Fb (currentRow f) (currentColumn f) w).

Fixpoint put_all (l : list Z) f : res (framebuffer W) :=
  match l with
  | [] => mret f
  | ch :: l => f ← FrameBuffer_putChar ch f; put_all l f
  end.
End console.

(** ** The terminal *)

Section terminal.
Context (rows columns : nat).

Record term : Type := Term {
  t_cells : list (list Z);
  t_row : nat;
  t_col : nat;
}.

Definition blank : list Z := replicate columns 32.

(** The cursor one row down; on the last row the rows move up instead. *)
Definition t_down (t : term) : term :=
  if decide (S (t_row t) = rows)
  then Term (tail (t_cells t) ++ [blank]) (t_row t) (t_col t)
  else Term (t_cells t) (S (t_row t)) (t_col t).

Definition t_home (t : term) : term := Term (t_cells t) (t_row t) 0.

Definition t_right (t : term) : term :=
  if decide (S (t_col t) = columns) then t_down (t_home t)
  else Term (t_cells t) (t_row t) (S (t_col t)).

Definition t_write (ch : Z) (t : term) : term :=
  Term (alter (fun row => <[t_col t := u8 ch]> row) (t_row t) (t_cells t)) (t_row t) (t_col t).

Definition tput (ch : Z) (t : term) : term :=
  if decide (ch = 10) then t_home (t_down t)
  else if decide (ch = 13) then t
  else if decide (ch = 9) then Nat.iter (8 - t_col t mod 8) t_right t
  else t_right (t_write ch t).

(** A grid of the right size with the cursor on it. *)
Record term_ok (t : term) : Prop := {
  to_rows : length (t_cells t) = rows;
  to_cells : Forall (fun r => length r = columns) (t_cells t);
  to_row : (t_row t < rows)%nat;
  to_col : (t_col t < columns)%nat;
}.

Lemma t_down_ok t : term_ok t -> term_ok (t_down t).
Proof.
  intros [Hr Hc Hrow Hcol]. unfold t_down. case_decide as E; [|split; cbn; try done; lia].
  destruct (t_cells t) as [|r l] eqn:Ec; [cbn in Hr; lia|].
  split; cbn [t_cells t_row t_col tail]; try done.
  - rewrite length_app. cbn in *. lia.
  - apply Forall_app. inversion Hc; subst. split; [done|]. apply Forall_singleton.
    apply length_replicate.
Qed.

Lemma t_home_ok t : term_ok t -> term_ok (t_home t).
Proof. intros [Hr Hc Hrow Hcol]. split; cbn; try done. lia. Qed.

Lemma t_right_ok t : term_ok t -> term_ok (t_right t).
Proof.
  intros Ht. unfold t_right. case_decide as E.
  - by apply t_down_ok, t_home_ok.
  - destruct Ht. split; cbn; try done. lia.
Qed.

Lemma t_write_ok ch t : term_ok t -> term_ok (t_write ch t).
Proof.
  intros [Hr Hc Hrow Hcol]. split; cbn; try done.
  - by rewrite length_alter.
  - apply Forall_alter; [done|]. intros r _ Hl. by rewrite length_insert.
Qed.

Lemma iter_right_ok n t : term_ok t -> term_ok (Nat.iter n t_right t).
Proof. intros Ht. induction n as [|n IH]; [done|]. cbn. by apply t_right_ok. Qed.

Lemma tput_ok ch t : term_ok t -> term_ok (tput ch t).
Proof.
  intros Ht. unfold tput. repeat case_decide.
  - by apply t_home_ok, t_down_ok.
  - done.
  - by apply iter_right_ok.
  - by apply t_right_ok, t_write_ok.
Qed.
End terminal.

Arguments Term t_cells t_row t_col.

(** ** What a device promises *)

(** [cells w] is the grid the device shows and [cursor w] where it shows the
    cursor, counted along the rows. *)
Class ScreenLaws (W : Type) {S : Screen W} := {
  n_rows : nat;
  n_columns : nat;
  rows_eq : getRows = Z.of_nat n_rows /\ (0 < n_rows)%nat;
  columns_eq : getColumns = Z.of_nat n_columns /\ (0 < n_columns)%nat;
  screen_ok : W -> Prop;
  cells : W -> list (list Z);
  cursor : W -> Z;
  putChar_law ch r c w : screen_ok w -> (r < n_rows)%nat -> (c < n_columns)%nat ->
    exists w', screen_putChar ch (Z.of_nat r) (Z.of_nat c) w = Ok (1, w') /\ screen_ok w' /\
      cells w' = alter (fun row => <[c := u8 ch]> row) r (cells w);
  setCursor_law r c w : screen_ok w -> (r < n_rows)%nat -> (c < n_columns)%nat ->
    exists w', screen_setCursor (Z.of_nat r) (Z.of_nat c) w = Ok w' /\ screen_ok w' /\
      cells w' = cells w /\ cursor w' = Z.of_nat (r * n_columns + c);
  scroll_law w : screen_ok w ->
    exists w', screen_scroll w = Ok w' /\ screen_ok w' /\
      cells w' = tail (cells w) ++ [blank n_columns];
}.

(** ** The console is the terminal *)

Section refinement.
Context {W : Type} `{ScreenLaws W}.
Implicit Types (f : framebuffer W) (t : term).

(** The console's state and its device show the terminal [t]. *)
Record shows (t : term) f : Prop := {
  sh_ok : screen_ok (fb_screen f);
  sh_term : term_ok n_rows n_columns t;
  sh_cells : cells (fb_screen f) = t_cells t;
  sh_row : currentRow f = Z.of_nat (t_row t);
  sh_col : currentColumn f = Z.of_nat (t_col t);
}.

Lemma stepRow_refines t f : shows t f ->
  exists f' c, stepRow f = Ok f' /\ (c = 0 \/ c = currentColumn f) /\
    shows (t_home (t_down n_rows n_columns t)) (Fb (currentRow f') 0 (fb_screen f')) /\
    currentColumn f' = c /\ (currentColumn f = 0 -> shows (t_down n_rows n_columns t) f').
Proof.
  intros [Ho Ht Hc Hr Hcol]. unfold stepRow. destruct rows_eq as [Er Hr0].
  pose proof (t_down_ok _ _ _ Ht) as Hd. pose proof (to_row _ _ _ Ht) as Hrow.
  assert (0 < n_columns)%nat as Hcl by (pose proof (to_col _ _ _ Ht); lia).
  rewrite Er, Hr. unfold t_down in *.
  destruct (Z.ltb_spec (Z.of_nat n_rows - 1) (Z.of_nat (t_row t) + 1)) as [Hlt|Hge].
  - rewrite decide_True in * by lia. destruct (scroll_law _ Ho) as (w1 & -> & O1 & C1).
    cbn [mbind res_bind]. destruct (setCursor_law (t_row t) 0 w1 O1 Hrow Hcl)
      as (w2 & E2 & O2 & C2 & _). change (Z.of_nat 0) with 0 in E2.
    replace (Z.of_nat n_rows - 1) with (Z.of_nat (t_row t)) by lia. rewrite E2. cbn [mbind res_bind].
    eexists _, 0. split; [done|]. split; [by left|]. cbn [currentRow currentColumn fb_screen].
    assert (cells w2 = tail (t_cells t) ++ [blank n_columns]) as C by (by rewrite C2, C1, Hc).
    split; [|split; [done|]].
    + split; cbn; try done. by apply t_home_ok.
    + intros E0. split; cbn; try done. lia.
  - rewrite decide_False in * by lia. eexists _, (currentColumn f).
    split; [done|]. split; [by right|]. cbn [currentRow currentColumn fb_screen].
    split; [|split; [done|]].
    + split; cbn; try done; [|lia]. by apply (t_home_ok _ _ _ Hd).
    + intros E0. split; cbn; try done. lia.
Qed.

Lemma stepColumn_refines t f : shows t f ->
  exists f', stepColumn f = Ok f' /\ shows (t_right n_rows n_columns t) f'.
Proof.
  intros Hs. pose proof Hs as [Ho Ht Hc Hr Hcol]. unfold stepColumn, t_right.
  destruct columns_eq as [Ec Hc0]. pose proof (to_col _ _ _ Ht). rewrite Ec, Hcol.
  destruct (Z.ltb_spec (Z.of_nat n_columns - 1) (Z.of_nat (t_col t) + 1)) as [Hlt|Hge].
  - rewrite decide_True by lia.
    assert (shows (t_home t) (Fb (currentRow f) 0 (fb_screen f))) as Hh.
    { split; cbn; try done. by apply t_home_ok. }
    destruct (stepRow_refines _ _ Hh) as (f' & c & E & _ & _ & _ & Hd). exists f'.
    split; [exact E|]. by apply Hd.
  - rewrite decide_False by lia. eexists. split; [done|]. split; cbn; try done; [|lia].
    pose proof (t_right_ok _ _ _ Ht) as Hx. unfold t_right in Hx. by rewrite decide_False in Hx by lia.
Qed.

Lemma stepColumns_refines n t f : shows t f ->
  exists f', stepColumns n f = Ok f' /\ shows (Nat.iter n (t_right n_rows n_columns) t) f'.
Proof.
  revert t f. induction n as [|n IH]; intros t f Hs; cbn [stepColumns]; [by exists f|].
  destruct (stepColumn_refines _ _ Hs) as (f1 & -> & H1). cbn [mbind res_bind].
  destruct (IH _ _ H1) as (f' & E & H'). exists f'. split; [exact E|].
  by rewrite Nat.iter_succ_r.
Qed.

(** The number of steps of a tab. *)
Lemma tab_steps c : 0 <= c ->
  Z.to_nat (Z.quot (c + TABSIZE) TABSIZE * TABSIZE - c) = (8 - Z.to_nat c mod 8)%nat.
Proof.
  intros Hc. unfold TABSIZE. rewrite Z.quot_div_nonneg by lia.
  assert (Z.of_nat (Z.to_nat c mod 8) = c mod 8) as E by (by rewrite Nat2Z.inj_mod, Z2Nat.id by lia).
  revert E. generalize (Z.to_nat c mod 8)%nat. intros m E. Z.div_mod_to_equations. lia.
Qed.

Lemma putChar_refines ch t f : shows t f ->
  exists f', FrameBuffer_putChar ch f = Ok f' /\ shows (tput n_rows n_columns ch t) f' /\
    cursor (fb_screen f') = Z.of_nat (t_row (tput n_rows n_columns ch t) * n_columns
      + t_col (tput n_rows n_columns ch t)).
Proof.
  intros Hs. unfold FrameBuffer_putChar, tput.
  set (g := if ch =? 10 then _ else _).
  enough (exists f1, g = Ok f1 /\ shows (tput n_rows n_columns ch t) f1) as (f1 & E & H1).
  { fold (tput n_rows n_columns ch t). rewrite E. cbn [mbind res_bind]. destruct H1 as [O T C R Co].
    destruct (setCursor_law _ _ _ O (to_row _ _ _ T) (to_col _ _ _ T)) as (w & E2 & O2 & C2 & Cu).
    rewrite R, Co, E2. cbn [mbind res_bind]. eexists. split; [done|].
    split; [|exact Cu]. split; cbn; try done. by rewrite C2. }
  subst g. unfold tput. destruct (Z.eqb_spec ch 10) as [->|H10].
  { rewrite decide_True by done. destruct (stepRow_refines _ _ Hs) as (f1 & c & -> & _ & H1 & _).
    cbn [mbind res_bind]. by eexists. }
  rewrite decide_False by done. destruct (Z.eqb_spec ch 13) as [->|H13].
  { rewrite decide_True by done. by exists f. }
  rewrite decide_False by done. destruct (Z.eqb_spec ch 9) as [->|H9].
  { rewrite decide_True by done. rewrite (sh_col _ _ Hs), tab_steps, Nat2Z.id by lia.
    by apply stepColumns_refines. }
  rewrite decide_False by done. destruct Hs as [O T C R Co].
  destruct (putChar_law ch _ _ _ O (to_row _ _ _ T) (to_col _ _ _ T)) as (w & E & O' & C').
  rewrite R, Co, E. cbn [mbind res_bind]. apply stepColumn_refines.
  split; cbn; try done; [by apply t_write_ok|]. by rewrite C', C.
Qed.

(** Whole strings. *)
Lemma put_all_refines l t f : shows t f ->
  cursor (fb_screen f) = Z.of_nat (t_row t * n_columns + t_col t) ->
  let t' := foldl (fun t ch => tput n_rows n_columns ch t) t l in
  exists f', put_all l f = Ok f' /\ shows t' f' /\
    cursor (fb_screen f') = Z.of_nat (t_row t' * n_columns + t_col t').
Proof.
  revert t f. induction l as [|ch l IH]; intros t f Hs Hc; cbn [put_all foldl]; [by exists f|].
  destruct (putChar_refines ch t f Hs) as (f1 & -> & H1 & C1). cbn [mbind res_bind]. by apply IH.
Qed.
End refinement.

(** ** What a console leaves alone *)

(** [R] relates the states of the device before and after each of its
    operations, and then those before and after a character. *)
Section frame.
Context {W : Type} `{Screen W} (R : relation W) {HR : PreOrder R}.
Context (Rput : forall ch r c w x w', screen_putChar ch r c w = Ok (x, w') -> R w w').
Context (Rcursor : forall r c w w', screen_setCursor r c w = Ok w' -> R w w').
Context (Rscroll : forall w w', screen_scroll w = Ok w' -> R w w').
Implicit Types f : framebuffer W.

Lemma stepRow_frame f f' : stepRow f = Ok f' -> R (fb_screen f) (fb_screen f').
Proof.
  unfold stepRow. destruct (_ <? _); intros E; [|by apply Ok_inj in E as <-].
  apply res_bind_ok in E as (w1 & E1 & E). apply res_bind_ok in E as (w2 & E2 & E).
  apply Ok_inj in E as <-. etrans; [by eapply Rscroll|by eapply Rcursor].
Qed.

Lemma stepColumn_frame f f' : stepColumn f = Ok f' -> R (fb_screen f) (fb_screen f').
Proof.
  unfold stepColumn. destruct (_ <? _); intros E; [by apply stepRow_frame in E|].
  by apply Ok_inj in E as <-.
Qed.

Lemma stepColumns_frame n f f' : stepColumns n f = Ok f' -> R (fb_screen f) (fb_screen f').
Proof.
  revert f. induction n as [|n IH]; intros f E; cbn [stepColumns] in E.
  - by apply Ok_inj in E as <-.
  - apply res_bind_ok in E as (f1 & E1 & E). etrans; [by apply stepColumn_frame|by apply IH].
Qed.

Lemma putChar_frame ch f f' : FrameBuffer_putChar ch f = Ok f' -> R (fb_screen f) (fb_screen f').
Proof.
  unfold FrameBuffer_putChar. intros E. apply res_bind_ok in E as (f1 & E1 & E).
  apply res_bind_ok in E as (w & E2 & E). apply Ok_inj in E as <-. cbn [fb_screen].
  transitivity (fb_screen f1); [|by eapply Rcursor]. destruct (ch =? 10).
  - apply res_bind_ok in E1 as (f2 & E1 & E). apply Ok_inj in E as <-. exact (stepRow_frame _ _ E1).
  - destruct (ch =? 13); [by apply Ok_inj in E1 as <-|].
    destruct (ch =? 9); [by eapply stepColumns_frame|].
    apply res_bind_ok in E1 as ([x w1] & E1 & E). apply stepColumn_frame in E. cbn in E.
    etrans; [exact (Rput _ _ _ _ _ _ E1)|exact E].
Qed.
End frame.
