(* ===== verification/Vga.v ===== *)
(** * The VGA text console

    Models Drivers/X86/Console/VgaConsole.cc: the text mode memory of the
    display, as a map from the index of a character to its 16 bits, of which
    only the mapped part can be accessed (what the kernel has mapped behind it
    is part of that map or, where the map ends, left out), and the cursor registers behind two
    ports.  It implements the interface [Screen] of Terminal.v. *)

From S2P Require Import Prelude.
From S2P Require Import Words.
From S2P Require Import Ports.
From S2P Require Import Terminal.
From Stdlib Require Import ZArith Lia.
From stdpp Require Import prelude gmap list.

Open Scope Z_scope.

(** ** Constants (Include/X86/VgaConsole.hh) *)

Definition Blue : Z := 1.
Definition White : Z := 15.
Definition VgaIndexPort : Z := 0x3d4.
Definition VgaDataPort : Z := 0x3d5.
Definition VgaCursorHigh : Z := 14.
Definition VgaCursorLow : Z := 15.
Definition VgaColumns : Z := 80.
Definition VgaRows : Z := 25.

(** ** State and operations *)

Record vga (io : Type) : Type := Vga {
  vramM : gmap Z Z;
  vga_io : io;
}.

Arguments Vga {io} vramM vga_io.
Arguments vramM {io} v.
Arguments vga_io {io} v.

(** The colours are those of the constructor. *)
Definition asciiToVga (c : Z) : Z :=
  u16 (Z.lor c (Z.shiftl (Z.lor (Z.shiftl Blue 4) White) 8)).

Section operations.
Context {io : Type} `{Ports io}.
Implicit Types w : vga io.

(** [vramM[i] = c] *)
Definition vram_set (i c : Z) w : res (vga io) :=
  _ ← deref (vramM w !! i);
  mret (Vga (<[i := c]> (vramM w)) (vga_io w)).

Definition putCharUnlocked (ch row column : Z) w : res (Z * vga io) :=
  if (VgaRows + 1 <? row) || (VgaColumns + 1 <? column) then mret (0, w)
  else
    w ← vram_set (row * VgaColumns + column) (asciiToVga (u8 ch)) w;
    mret (1, w).

Definition VgaConsole_putChar (ch row column : Z) w : res (Z * vga io) :=
  putCharUnlocked ch row column w.

Definition setCursor (row column : Z) w : res (vga io) :=
  let cursorIndex := u16 (row * VgaColumns + column) in
  let s := outb VgaIndexPort VgaCursorLow (vga_io w) in
  let s := outb VgaDataPort (Z.land cursorIndex 0xff) s in
  let s := outb VgaIndexPort VgaCursorHigh s in
  let s := outb VgaDataPort (Z.land (Z.shiftr cursorIndex 8) 0xff) s in
  mret (Vga (vramM w) s).

Definition clearScreen w : res (vga io) :=
  w ← for_each (seqZ 0 VgaColumns) (fun column =>
        for_each (seqZ 0 VgaRows) (fun row w => snd <$> putCharUnlocked 32 row column w)) w;
  setCursor 0 0 w.

(** The first loop runs over [getRows() * (getColumns() - 1)] characters. *)
Definition scroll_char (i : Z) w : res (vga io) :=
  c ← deref (vramM w !! (i + VgaColumns));
  vram_set i c w.

Definition scrollScreen w : res (vga io) :=
  w ← for_each (seqZ 0 (VgaRows * (VgaColumns - 1))) scroll_char w;
  for_each (seqZ ((VgaRows - 1) * VgaColumns) VgaColumns)
    (fun i w => vram_set i (asciiToVga 32) w) w.

#[export] Instance vga_screen : Screen (vga io) := {|
  getRows := VgaRows;
  getColumns := VgaColumns;
  screen_putChar := VgaConsole_putChar;
  screen_setCursor := setCursor;
  screen_scroll := scrollScreen;
|}.

(** The constructor, once [Memory::mapRegion] has mapped the video memory, and
    the console's own cursor. *)
Definition VgaConsole_new (vram : gmap Z Z) (s : io) : res (framebuffer (vga io)) :=
  w ← clearScreen (Vga vram s);
  mret (Fb 0 0 w).
End operations.

(** ** The display controller: an index register selects the register that the
    data port writes. *)

Class CrtController (io : Type) {P : Ports io} := {
  crt_index : io -> Z;
  crt : io -> Z -> Z;
  write_index v s : crt_index (outb VgaIndexPort v s) = v /\
    forall r, crt (outb VgaIndexPort v s) r = crt s r;
  write_register v s : crt_index (outb VgaDataPort v s) = crt_index s /\
    forall r, crt (outb VgaDataPort v s) r = if decide (r = crt_index s) then v else crt s r;
}.

(** ** Loops with an invariant on their counter *)

Lemma for_each_seqZ {S : Type} (body : Z -> S -> res S) (P : Z -> S -> Prop) (a n : Z) (s : S) :
  0 <= n -> P a s ->
  (forall i s, a <= i < a + n -> P i s -> exists s', body i s = Ok s' /\ P (i + 1) s') ->
  exists s', for_each (seqZ a n) body s = Ok s' /\ P (a + n) s'.
Proof.
  intros Hn. revert a s. pattern n. apply natlike_ind; [| |exact Hn].
  - intros a s Ps _. exists s. by rewrite Z.add_0_r.
  - clear n Hn. intros n Hn IH a s Ps Hb. rewrite seqZ_cons by lia. cbn [for_each].
    destruct (Hb a s ltac:(lia) Ps) as (s1 & -> & P1). cbn [mbind res_bind].
    destruct (IH (a + 1) s1 P1) as (s2 & E2 & P2).
    + intros i s' Hi. apply Hb. lia.
    + exists s2. rewrite Z.pred_succ. split; [exact E2|]. by replace (a + Z.succ n) with (a + 1 + n) by lia.
Qed.

Lemma for_each_app {S : Type} (body : Z -> S -> res S) (l l' : list Z) (s : S) :
  for_each (l ++ l') body s = s ← for_each l body s; for_each l' body s.
Proof.
  revert s. induction l as [|i l IH]; intros s; cbn [for_each app]; [done|].
  destruct (body i s) as [s'| | |]; cbn [mbind res_bind]; [apply IH|done..].
Qed.

(** ** Grids *)

(** The rows of the characters [f 0], [f 1], ... *)
Definition grid (rows columns : nat) (f : Z -> Z) : list (list Z) :=
  (fun r => (fun c => f (Z.of_nat (r * columns + c))) <$> seq 0 columns) <$> seq 0 rows.

Section grid.
Context (rows columns : nat).
Implicit Types f g : Z -> Z.

Lemma grid_row f r : (r < rows)%nat ->
  grid rows columns f !! r =
    Some ((fun c => f (Z.of_nat (r * columns + c))) <$> seq 0 columns).
Proof. intros Hr. unfold grid. by rewrite list_lookup_fmap, lookup_seq_lt by done. Qed.

Lemma length_grid f : length (grid rows columns f) = rows.
Proof. unfold grid. by rewrite length_fmap, length_seq. Qed.

Lemma grid_columns f : Forall (fun r => length r = columns) (grid rows columns f).
Proof.
  apply Forall_fmap, Forall_forall. intros r _. cbn. by rewrite length_fmap, length_seq.
Qed.

(** Grids are equal when their characters are. *)
Lemma grid_eq f (l : list (list Z)) : length l = rows ->
  (forall r row, l !! r = Some row ->
     row = (fun c => f (Z.of_nat (r * columns + c))) <$> seq 0 columns) ->
  grid rows columns f = l.
Proof.
  intros Hl Hrow. apply list_eq_same_length with (n := rows); [done|apply length_grid|].
  intros r x y Hr Hx Hy. rewrite grid_row in Hx by done. apply Some_inj in Hx as <-.
  symmetry. by apply Hrow.
Qed.

Lemma seq_fmap_ext {A} (f g : nat -> A) a n : (forall c, (a <= c < a + n)%nat -> f c = g c) ->
  f <$> seq a n = g <$> seq a n.
Proof. intros E. apply list_fmap_ext. intros i x Hx. apply lookup_seq in Hx. apply E. lia. Qed.

Lemma grid_ext f g : (forall i, 0 <= i < Z.of_nat (rows * columns) -> f i = g i) ->
  grid rows columns f = grid rows columns g.
Proof.
  intros E. apply seq_fmap_ext. intros r Hr. apply seq_fmap_ext. intros c Hc. apply E. nia.
Qed.

(** One character. *)
Lemma grid_alter f g r c x : (r < rows)%nat -> (c < columns)%nat ->
  (forall i, f i = if decide (i = Z.of_nat (r * columns + c)) then x else g i) ->
  grid rows columns f = alter (fun row => <[c := x]> row) r (grid rows columns g).
Proof.
  intros Hr Hc E. apply grid_eq; [by rewrite length_alter, length_grid|].
  intros r' row Hl. destruct (decide (r' = r)) as [->|Hne].
  - rewrite list_lookup_alter, decide_True in Hl by done.
    rewrite grid_row in Hl by done. cbn in Hl. apply Some_inj in Hl as <-.
    apply list_eq. intros c'. destruct (decide (c' = c)) as [->|Hc'].
    + rewrite list_lookup_insert_eq by (by rewrite length_fmap, length_seq).
      rewrite list_lookup_fmap, lookup_seq_lt by done. cbn. by rewrite E, decide_True.
    + rewrite list_lookup_insert_ne by done. rewrite !list_lookup_fmap.
      destruct (seq 0 columns !! c') as [k|] eqn:Ek; [|done]. cbn. f_equal.
      apply lookup_seq in Ek as [-> _]. cbn. rewrite E, decide_False; [done|nia].
  - rewrite list_lookup_alter, decide_False in Hl by done.
    assert (r' < rows)%nat as Hr'.
    { apply lookup_lt_Some in Hl. by rewrite length_grid in Hl. }
    rewrite grid_row in Hl by done. apply Some_inj in Hl as <-.
    apply seq_fmap_ext. intros c' Hc'. rewrite E, decide_False; [done|]. nia.
Qed.

(** The rows one up and a row of spaces. *)
Lemma grid_scroll f g :
  (forall i, 0 <= i < Z.of_nat (rows * columns) -> f i = g (i + Z.of_nat columns)) ->
  (forall i, Z.of_nat (rows * columns) <= i < Z.of_nat (S rows * columns) -> f i = 32) ->
  grid (S rows) columns f = tail (grid (S rows) columns g) ++ [blank columns].
Proof.
  intros E B. unfold grid at 1. rewrite seq_S, fmap_app. f_equal.
  - unfold grid. cbn [seq fmap list_fmap tail]. rewrite <- seq_shift.
    change (@List.map nat nat S) with (@fmap list list_fmap nat nat S). rewrite <- list_fmap_compose.
    apply seq_fmap_ext. intros r Hr. apply seq_fmap_ext. intros c Hc. rewrite E by nia. f_equal. lia.
  - cbn. f_equal. unfold blank. apply list_eq_same_length with (n := columns).
    + apply length_replicate.
    + by rewrite length_fmap, length_seq.
    + intros c x y Hc Hx Hy. rewrite list_lookup_fmap, lookup_seq_lt in Hx by done.
      apply lookup_replicate in Hy as [-> _]. cbn in Hx. apply Some_inj in Hx as <-. apply B. nia.
Qed.

Lemma grid_blank f : (forall i, 0 <= i < Z.of_nat (rows * columns) -> f i = 32) ->
  grid rows columns f = replicate rows (blank columns).
Proof.
  intros B. apply grid_eq; [apply length_replicate|]. intros r row Hr.
  apply lookup_replicate in Hr as [-> Hr]. apply list_eq_same_length with (n := columns).
  - by rewrite length_fmap, length_seq.
  - apply length_replicate.
  - intros c x y Hc Hx Hy. rewrite list_lookup_fmap, lookup_seq_lt in Hy by done.
    apply lookup_replicate in Hx as [-> _]. apply Some_inj in Hy as <-. cbn. symmetry. apply B. nia.
Qed.
End grid.

(** ** The video memory *)

Section vram.
Context {io : Type} `{CrtController io}.
Implicit Types w : vga io.

(** The characters that the routines touch: those of the screen, and what
    [scrollScreen] reads behind them. *)
Definition vram_ok w : Prop := forall i, 0 <= i < 2055 -> is_Some (vramM w !! i).

Definition char_at w (i : Z) : Z := u8 (default 0 (vramM w !! i)).

Definition vga_cells w : list (list Z) := grid 25 80 (char_at w).

Definition vga_cursor w : Z :=
  crt (vga_io w) VgaCursorHigh * 256 + crt (vga_io w) VgaCursorLow.

(** Writing a character. *)
Lemma vram_set_ok i c w : vram_ok w -> 0 <= i < 2055 ->
  exists w', vram_set i c w = Ok w' /\ vram_ok w' /\ vga_io w' = vga_io w /\
    forall j, char_at w' j = if decide (j = i) then u8 c else char_at w j.
Proof.
  intros Hw Hi. unfold vram_set. destruct (Hw i Hi) as [x Ex]. rewrite Ex. cbn [deref mbind res_bind].
  eexists. split; [done|]. split; [|split; [done|]].
  - intros j Hj. cbn [vramM]. rewrite lookup_insert. case_decide; [done|by apply Hw].
  - intros j. unfold char_at. cbn [vramM]. rewrite lookup_insert. by repeat case_decide; subst.
Qed.

Lemma u8_asciiToVga c : uint 8 c -> u8 (asciiToVga c) = c.
Proof.
  intros Hc. unfold asciiToVga. rewrite wrap_wrap_le by lia.
  apply Z.bits_inj'. intros n Hn. destruct (decide (n < 8)).
  - rewrite testbit_wrap by lia. rewrite Z.lor_spec, Z.shiftl_spec_low by lia. apply orb_false_r.
  - rewrite (uint_testbit 8 (u8 _)), (uint_testbit 8 c); try done; try lia. apply wrap_range. lia.
Qed.

Lemma putChar_ok ch r c w : vram_ok w -> 0 <= r < 25 -> 0 <= c < 80 ->
  exists w', putCharUnlocked ch r c w = Ok (1, w') /\ vram_ok w' /\
    forall j, char_at w' j = if decide (j = 80 * r + c) then u8 ch else char_at w j.
Proof.
  intros Hw Hr Hc. unfold putCharUnlocked, VgaRows, VgaColumns.
  destruct (Z.ltb_spec (25 + 1) r); [lia|]. destruct (Z.ltb_spec (80 + 1) c); [lia|]. cbn [orb].
  destruct (vram_set_ok (r * 80 + c) (asciiToVga (u8 ch)) w Hw ltac:(lia)) as (w' & -> & H' & _ & C).
  exists w'. cbn [mbind res_bind]. split; [done|]. split; [exact H'|]. intros j.
  rewrite C, u8_asciiToVga by (apply wrap_range; lia). by rewrite (Z.mul_comm r).
Qed.

(** The cursor registers. *)
Lemma setCursor_ok r c w : 0 <= r < 25 -> 0 <= c < 80 ->
  exists w', setCursor r c w = Ok w' /\ vramM w' = vramM w /\ vga_cursor w' = 80 * r + c.
Proof.
  intros Hr Hc. unfold setCursor. eexists. split; [done|]. split; [done|].
  unfold vga_cursor. cbn [vga_io].
  set (x := u16 _). assert (x = 80 * r + c) as Ex.
  { subst x. unfold VgaColumns. rewrite wrap_id by (unfold uint; lia). lia. }
  rewrite (proj2 (write_register _ _)), (proj1 (write_index _ _)), decide_True by done.
  rewrite (proj2 (write_register _ _)), (proj1 (write_index _ _)), decide_False by done.
  rewrite (proj2 (write_index _ _)), (proj2 (write_register _ _)), (proj1 (write_index _ _)).
  rewrite decide_True by done. rewrite !(Z.land_ones _ 8), Z.shiftr_div_pow2 by lia.
  rewrite Ex. change (2 ^ 8) with 256. rewrite (Z.mod_small ((80 * r + c) / 256)).
  - pose proof (Z.div_mod (80 * r + c) 256). lia.
  - split; [apply Z.div_pos; lia|]. apply Z.div_lt_upper_bound; lia.
Qed.

(** The inner loop of [clearScreen] blanks a column. *)
Definition blank_upto (n : Z) w : Prop :=
  vram_ok w /\ forall r c, 0 <= r < 25 -> 0 <= c < n -> char_at w (80 * r + c) = 32.

Lemma clear_column c w : 0 <= c < 80 -> blank_upto c w ->
  exists w', for_each (seqZ 0 25) (fun row w => snd <$> putCharUnlocked 32 row c w) w = Ok w' /\
    blank_upto (c + 1) w'.
Proof.
  intros Hc [O0 B0]. edestruct (for_each_seqZ (fun row w => snd <$> putCharUnlocked 32 row c w)
    (fun n w => blank_upto c w /\ forall r, 0 <= r < n -> char_at w (80 * r + c) = 32) 0 25 w)
    as (w1 & E & [O1 B1] & N1); [lia|split; [done|lia]| |].
  - intros r w2 Hr [[O2 B2] N2]. destruct (putChar_ok 32 r c w2 O2 ltac:(lia) ltac:(lia))
      as (w3 & -> & O3 & C3). exists w3. split; [done|]. split; [split; [done|]|].
    + intros r' c' Hr' Hc'. rewrite C3. case_decide; [done|]. by apply B2.
    + intros r' Hr'. rewrite C3. case_decide; [done|]. apply N2. lia.
  - exists w1. split; [exact E|]. split; [exact O1|]. intros r c' Hr Hc'.
    destruct (decide (c' = c)) as [->|]; [apply N1; lia|apply B1; lia].
Qed.

(** The constructor fills the screen with spaces. *)
Lemma clearScreen_ok w : vram_ok w ->
  exists w', clearScreen w = Ok w' /\ vram_ok w' /\
    vga_cells w' = replicate 25 (blank 80) /\ vga_cursor w' = 0.
Proof.
  intros Hw. unfold clearScreen, VgaColumns, VgaRows.
  destruct (for_each_seqZ (fun column => for_each (seqZ 0 25)
      (fun row w => snd <$> putCharUnlocked 32 row column w)) blank_upto 0 80 w)
    as (w1 & -> & O1 & B1); [lia|split; [done|lia]| |].
  { intros c w0 Hc. by apply clear_column. }
  cbn [mbind res_bind]. destruct (setCursor_ok 0 0 w1) as (w2 & -> & V2 & C2); [lia|lia|].
  exists w2. split; [done|]. split; [unfold vram_ok; by rewrite V2|]. split; [|exact C2].
  apply grid_blank. intros i Hi. unfold char_at. rewrite V2. fold (char_at w1 i).
  change (Z.of_nat (25 * 80)) with 2000 in Hi.
  rewrite (Z.div_mod i 80) by lia. apply B1; [|by apply Z.mod_pos_bound].
  Z.div_mod_to_equations. lia.
Qed.

(** One round of the shift. *)
Lemma scroll_char_ok i w : vram_ok w -> 0 <= i < 1975 ->
  exists w', scroll_char i w = Ok w' /\ vram_ok w' /\
    forall j, char_at w' j = if decide (j = i) then char_at w (i + 80) else char_at w j.
Proof.
  intros Hw Hi. unfold scroll_char, VgaColumns. destruct (Hw (i + 80) ltac:(lia)) as [x Ex].
  rewrite Ex. cbn [deref mbind res_bind].
  destruct (vram_set_ok i x w Hw ltac:(lia)) as (w' & E & O & _ & C). exists w'.
  split; [exact E|]. split; [exact O|]. intros j. rewrite C. unfold char_at at 2. by rewrite Ex.
Qed.

Lemma scrollScreen_ok w : vram_ok w ->
  exists w', scrollScreen w = Ok w' /\ vram_ok w' /\
    vga_cells w' = tail (vga_cells w) ++ [blank 80].
Proof.
  intros Hw. unfold scrollScreen, VgaRows, VgaColumns. cbn [Z.mul Z.sub Z.add Z.opp Z.pos_sub Pos.mul].
  destruct (for_each_seqZ scroll_char (fun n w' => vram_ok w' /\
      forall j, 0 <= j -> char_at w' j = if decide (j < n) then char_at w (j + 80) else char_at w j)
      0 1975 w) as (w1 & E1 & O1 & C1); [lia| | |].
  { split; [done|]. intros j Hj. by rewrite decide_False by lia. }
  { intros i w0 Hi [O0 C0]. destruct (scroll_char_ok i w0 O0 ltac:(lia)) as (w1 & -> & O1 & C1).
    exists w1. split; [done|]. split; [exact O1|]. intros j Hj. rewrite C1, !C0 by lia.
    repeat case_decide; try lia; subst; done. }
  destruct (for_each_seqZ (fun i w => vram_set i (asciiToVga 32) w) (fun n w' => vram_ok w' /\
      forall j, 0 <= j -> char_at w' j = if decide (1920 <= j < n) then 32 else char_at w1 j)
      1920 80 w1) as (w2 & E2 & O2 & C2); [lia| | |].
  { split; [done|]. intros j Hj. by rewrite decide_False by lia. }
  { intros i w0 Hi [O0 C0]. destruct (vram_set_ok i (asciiToVga 32) w0 O0 ltac:(lia))
      as (w2 & -> & O2 & _ & C2).
    exists w2. split; [done|]. split; [exact O2|]. intros j Hj.
    rewrite C2, C0, u8_asciiToVga by done. repeat case_decide; try lia; done. }
  exists w2. change (25 * (80 - 1)) with 1975. change ((25 - 1) * 80) with 1920.
  rewrite E1. cbn [mbind res_bind]. rewrite E2. split; [done|]. split; [exact O2|].
  apply grid_scroll; intros i Hi.
  - change (Z.of_nat (24 * 80)) with 1920 in Hi. change (Z.of_nat 80) with 80.
    rewrite C2, decide_False, C1, decide_True by lia. done.
  - change (Z.of_nat (24 * 80)) with 1920 in Hi. change (Z.of_nat (25 * 80)) with 2000 in Hi.
    rewrite C2, decide_True by lia. done.
Qed.
End vram.

(** ** The device keeps its promises *)

#[export] Instance vga_laws {io} `{CrtController io} : ScreenLaws (vga io).
Proof.
  refine {| n_rows := 25; n_columns := 80; screen_ok := vram_ok; cells := vga_cells;
            cursor := vga_cursor |}.
  - split; [done|lia].
  - split; [done|lia].
  - intros ch r c w Hw Hr Hc. cbn [screen_putChar vga_screen].
    destruct (putChar_ok ch (Z.of_nat r) (Z.of_nat c) w Hw ltac:(lia) ltac:(lia)) as (w' & E & O & C).
    exists w'. split; [exact E|]. split; [exact O|]. apply grid_alter; [done..|]. intros i.
    rewrite C. by replace (80 * Z.of_nat r + Z.of_nat c) with (Z.of_nat (r * 80 + c)) by lia.
  - intros r c w Hw Hr Hc. cbn [screen_setCursor vga_screen].
    destruct (setCursor_ok (Z.of_nat r) (Z.of_nat c) w ltac:(lia) ltac:(lia)) as (w' & E & V & C).
    exists w'. split; [exact E|]. split; [unfold vram_ok; by rewrite V|].
    split; [unfold vga_cells, char_at; by rewrite V|]. rewrite C. lia.
  - intros w Hw. by apply scrollScreen_ok.
Defined.

(** ** One page of video memory *)

Section overrun.
Context {io : Type} `{Ports io}.
Implicit Types w : vga io.

Definition mapped (n : Z) w : Prop := forall i, is_Some (vramM w !! i) <-> 0 <= i < n.

Lemma vram_set_mapped n i c w : mapped n w -> 0 <= i < n ->
  exists w', vram_set i c w = Ok w' /\ mapped n w'.
Proof.
  intros Hw Hi. unfold vram_set. destruct (proj2 (Hw i) Hi) as [x ->].
  cbn [deref mbind res_bind]. eexists. split; [done|]. intros j. cbn [vramM].
  rewrite lookup_insert. case_decide as E; [|apply Hw]. subst j. split; [done|]. by eexists.
Qed.

(** The shift reads behind the rows that it moves, so it needs more memory than
    the screen has. *)
Lemma scroll_overruns n w : mapped n w -> 80 <= n < 2055 -> scrollScreen w = Fault.
Proof.
  intros Hw Hn. unfold scrollScreen, VgaRows, VgaColumns. change (25 * (80 - 1)) with 1975.
  replace 1975 with ((n - 80) + (2055 - n)) by lia.
  rewrite seqZ_app, for_each_app by lia.
  destruct (for_each_seqZ scroll_char (fun _ => mapped n) 0 (n - 80) w) as (w1 & -> & H1);
    [lia|done| |].
  - intros i w0 Hi H0. unfold scroll_char, VgaColumns. destruct (proj2 (H0 (i + 80))) as [x ->]; [lia|].
    cbn [deref mbind res_bind]. apply vram_set_mapped; [done|lia].
  - cbn [mbind res_bind]. rewrite (seqZ_cons _ (2055 - n)) by lia. cbn [for_each].
    assert (scroll_char (0 + (n - 80)) w1 = Fault) as ->; [|done].
    unfold scroll_char, VgaColumns. destruct (vramM w1 !! (0 + (n - 80) + 80)) as [x|] eqn:Ex; [|done].
    pose proof (proj1 (H1 _) (mk_is_Some _ _ Ex)). lia.
Qed.
End overrun.

(** ** The console *)

Section console.
Context {io : Type} `{CrtController io}.

(** C29: The constructor and any string show, on a display whose memory is
    mapped up to what the scrolling reads, the terminal of Terminal.v: 25 rows
    of 80 characters, the cursor behind the last character put, the rows moved
    up when the last one is full.  With the one page that the constructor maps,
    and nothing behind it, the first scroll traps.  (In the booted kernel regions
    are handed out downwards, so that the page above is one that was mapped
    before: the scroll then shows what it holds, as in the first part.) *)
Theorem vga_terminal (vram : gmap Z Z) (s : io) (l : list Z)
    (f : framebuffer (vga io)) :
  (forall i, 0 <= i < 2055 -> is_Some (vram !! i)) ->
  mapped 2048 (fb_screen f) -> currentRow f = 24 ->
  let t := foldl (fun t ch => tput 25 80 ch t) (Term (replicate 25 (blank 80)) 0 0) l in
  (exists f0 f', VgaConsole_new vram s = Ok f0 /\ put_all l f0 = Ok f' /\
     vga_cells (fb_screen f') = t_cells t /\
     currentRow f' = Z.of_nat (t_row t) /\ currentColumn f' = Z.of_nat (t_col t) /\
     vga_cursor (fb_screen f') = Z.of_nat (t_row t * 80 + t_col t)) /\
  FrameBuffer_putChar 10 f = Fault.
Proof.
  intros Hv Hm Hr t. split.
  - unfold VgaConsole_new. destruct (clearScreen_ok (Vga vram s) Hv) as (w & -> & O & C & Cu).
    cbn [mbind res_bind]. eexists.
    destruct (put_all_refines l (Term (replicate 25 (blank 80)) 0 0) (Fb 0 0 w)) as (f' & E & H' & C').
    + split; cbn [fb_screen t_cells t_row t_col currentRow currentColumn]; [exact O| |exact C|lia|lia].
      split; cbn [t_cells t_row t_col]; [apply length_replicate| |cbn; lia|cbn; lia].
      rewrite <- C. apply grid_columns.
    + exact Cu.
    + exists f'. split; [done|]. split; [exact E|]. destruct H' as [_ _ HC HR HCo].
      split; [exact HC|]. split; [exact HR|]. split; [exact HCo|exact C'].
  - unfold FrameBuffer_putChar, stepRow. rewrite Hr. cbn [Z.eqb Pos.eqb].
    change (getRows - 1 <? 24 + 1) with true. cbv iota.
    change (screen_scroll (fb_screen f)) with (scrollScreen (fb_screen f)).
    by rewrite (scroll_overruns 2048) by (done || lia).
Qed.
End console.

(** ** A display *)

Module Display.
Record display : Type := Dsp { index : Z; regs : Z -> Z }.

#[global] Instance display_ports : Ports display := {|
  inb := fun _ s => (0, s);
  inl := fun _ s => (0, s);
  outb := fun port v s =>
    if decide (port = VgaIndexPort) then Dsp v (regs s)
    else if decide (port = VgaDataPort)
    then Dsp (index s) (fun r => if decide (r = index s) then v else regs s r)
    else s;
  outw := fun _ _ s => s;
  outl := fun _ _ s => s;
|}.

#[global] Instance display_crt : CrtController display.
Proof.
  refine {| crt_index := index; crt := regs |}; intros v s; by cbn.
Defined.

Definition memory (n : Z) : gmap Z Z := gset_to_gmap 0 (list_to_set (seqZ 0 n)).

Lemma memory_mapped n i : is_Some (memory n !! i) <-> 0 <= i < n.
Proof.
  unfold memory, is_Some. split.
  - intros [x Hx]. apply lookup_gset_to_gmap_Some in Hx as [Hx _].
    apply elem_of_list_to_set, elem_of_seqZ in Hx. lia.
  - intros Hi. exists 0. apply lookup_gset_to_gmap_Some. split; [|done].
    apply elem_of_list_to_set, elem_of_seqZ. lia.
Qed.
End Display.

Lemma vga_terminal_witness :
  let s := Display.Dsp 0 (fun _ => 0) in
  let f := Fb 24 0 (Vga (Display.memory 2048) s) in
  (exists f0 f', VgaConsole_new (Display.memory 2055) s = Ok f0 /\
     put_all [72; 105; 10; 33] f0 = Ok f' /\ currentRow f' = 1 /\ currentColumn f' = 1 /\
     vga_cursor (fb_screen f') = 81) /\
  FrameBuffer_putChar 10 f = Fault.
Proof.
  intros s f. destruct (vga_terminal (Display.memory 2055) s [72; 105; 10; 33] f) as [Hok Hf].
  - intros i Hi. by apply Display.memory_mapped.
  - intros i. apply Display.memory_mapped.
  - reflexivity.
  - split; [|exact Hf]. destruct Hok as (f0 & f' & E0 & E1 & _ & R & C & Cu).
    exists f0, f'. split; [exact E0|]. split; [exact E1|]. split; [exact R|]. split; [exact C|exact Cu].
Defined.
