(* ===== verification/Console.v ===== *)
(** * Consoles and standard input and output

    Models Drivers/X86/Console/EarlySerial.cc and SerialConsole.cc (the UART),
    Drivers/Common/Console/Console.cc and Kernel/StdioSupport.cc: the list of
    registered consoles, [console_putchar], which writes to all of them, and
    the buffer of typed characters behind [console_feed] and
    [console_getchar], with [gets_s] of CLibrary/stdio.c on top.

    The machine is the ports' state [io]; a console object has a device of type
    [D] whose [putChar] is the interface [ConsoleDevice].  The list of consoles
    is a ring of Ring.v whose payload is the console's address.  A loop that
    polls the UART runs with the fuel [polls]; the wait for a typed character
    runs over [arrivals], what the interrupts feed while it spins. *)

From S2P Require Import Prelude Words Ring CMem Printf Ports.
From Stdlib Require Import ZArith Lia.
From stdpp Require Import prelude gmap list.

Open Scope Z_scope.

(** ** The UART (Include/X86/I8250Uart.hh) *)

Definition Com0 : Z := 0x3f8.
Definition Data : Z := 0.
Definition InterruptEnable : Z := 1.
Definition DivisorLow : Z := 0.
Definition DivisorHigh : Z := 1.
Definition InterruptIdentification : Z := 2.
Definition FifoControl : Z := 2.
Definition LineControl : Z := 3.
Definition LineStatus : Z := 5.
Definition EightDataBits : Z := 3.
Definition NoParityBits : Z := 0.
Definition OneStopBit : Z := 0.
Definition DlabEnable : Z := 128.
Definition EmptyTransmitterHoldingRegs : Z := 32.

Section uart.
Context {io : Type} `{Ports io}.

(** [while ((inb(Com0 + LineStatus) & EmptyTransmitterHoldingRegs) == 0) pause] *)
Fixpoint wait_transmitter (polls : nat) (s : io) : res io :=
  match polls with
  | O => NoFuel
  | S polls =>
      let '(v, s) := inb (Com0 + LineStatus) s in
      if Z.land v EmptyTransmitterHoldingRegs =? 0 then wait_transmitter polls s else mret s
  end.

(** [SerialConsole::putChar], which calls itself after a line feed. *)
Fixpoint serial_putChar (depth polls : nat) (ch : Z) (s : io) : res io :=
  match depth with
  | O => NoFuel
  | S depth =>
      s ← wait_transmitter polls s;
      let s := outb (Com0 + Data) (u8 ch) s in
      if ch =? 10 then serial_putChar depth polls 13 s else mret s
  end.

(** [portInitialized] is never set, so that [init] can run again. *)
Record early : Type := Early { portInitialized : bool; isDisabledM : bool }.

Definition uart_setup (ier fcr : Z) (s : io) : io :=
  let s := outb (Com0 + InterruptEnable) ier s in
  let s := outb (Com0 + LineControl) DlabEnable s in
  let s := outb (Com0 + DivisorLow) 1 s in
  let s := outb (Com0 + DivisorHigh) 0 s in
  let s := outb (Com0 + LineControl) (Z.lor (Z.lor EightDataBits NoParityBits) OneStopBit) s in
  outb (Com0 + FifoControl) fcr s.

Definition EarlySerial_init (e : early) (s : io) : early * io :=
  if portInitialized e then (e, s) else (Early (portInitialized e) false, uart_setup 0 0 s).

Definition EarlySerial_disable (e : early) : early := Early (portInitialized e) true.

Fixpoint EarlySerial_putChar (depth polls : nat) (e : early) (ch : Z) (s : io) : res (Z * io) :=
  match depth with
  | O => NoFuel
  | S depth =>
      if isDisabledM e then mret (0, s) else
      s ← wait_transmitter polls s;
      let s := outb (Com0 + Data) (u8 ch) s in
      s ← (if ch =? 10 then snd <$> EarlySerial_putChar depth polls e 13 s else mret s);
      mret (1, s)
  end.
End uart.

(** ** Consoles *)

Class ConsoleDevice (D io : Type) := { con_putChar : Z -> D -> io -> res (D * io) }.

(** The address of the sentinel [consoleList]. *)
Class ConsoleListHead := { consoleList : loc }.

Record console (D : Type) : Type := Con { isEnabledM : bool; con_device : D }.

Arguments Con {D} isEnabledM con_device.
Arguments isEnabledM {D} c.
Arguments con_device {D} c.

Definition consoleBufferSize : Z := 4096.

Record stdio (D io : Type) : Type := Stdio {
  s_early : early;
  s_list : gmap loc (node loc);
  s_consoles : gmap loc (console D);
  consoleBuffer : list Z;
  consoleBufferPosition : Z;
  nested : bool;
  s_io : io;
}.

Arguments Stdio {D io}.
Arguments s_early {D io} s.
Arguments s_list {D io} s.
Arguments s_consoles {D io} s.
Arguments consoleBuffer {D io} s.
Arguments consoleBufferPosition {D io} s.
Arguments nested {D io} s.
Arguments s_io {D io} s.

Section stdio.
Context {D io : Type} `{Ports io, ConsoleDevice D io, ConsoleListHead}.
Implicit Types st : stdio D io.

Definition with_io st (s : io) : stdio D io :=
  Stdio (s_early st) (s_list st) (s_consoles st) (consoleBuffer st) (consoleBufferPosition st)
    (nested st) s.
Definition with_consoles st (cs : gmap loc (console D)) : stdio D io :=
  Stdio (s_early st) (s_list st) cs (consoleBuffer st) (consoleBufferPosition st) (nested st)
    (s_io st).
Definition with_list st (l : gmap loc (node loc)) : stdio D io :=
  Stdio (s_early st) l (s_consoles st) (consoleBuffer st) (consoleBufferPosition st) (nested st)
    (s_io st).
Definition with_nested st (b : bool) : stdio D io :=
  Stdio (s_early st) (s_list st) (s_consoles st) (consoleBuffer st) (consoleBufferPosition st) b
    (s_io st).
Definition with_buffer st (buf : list Z) (pos : Z) : stdio D io :=
  Stdio (s_early st) (s_list st) (s_consoles st) buf pos (nested st) (s_io st).
Definition with_early st (e : early) : stdio D io :=
  Stdio e (s_list st) (s_consoles st) (consoleBuffer st) (consoleBufferPosition st) (nested st)
    (s_io st).

(** [registerConsole]; [item] is the address that [new ConsoleList()] returns,
    whose constructor zeroes the fields. *)
Definition registerConsole (item con : loc) st : res (stdio D io) :=
  let l := <[item := Node 0 0 0]> (s_list st) in
  l ← set_val l item con;
  prev ← get_prev l consoleList;
  l ← set_prev l item prev;
  prev ← get_prev l consoleList;
  l ← set_next l prev item;
  l ← set_next l item consoleList;
  l ← set_prev l consoleList item;
  mret (with_list st l).

(** It does nothing. *)
Definition unregisterConsole (con : loc) st : stdio D io := st.

(** [Console::Console()] of an object at [this] whose device is [d]. *)
Definition Console_new (item this : loc) (d : D) st : res (stdio D io) :=
  registerConsole item this (with_consoles st (<[this := Con false d]> (s_consoles st))).

Definition set_enabled (b : bool) (this : loc) st : res (stdio D io) :=
  c ← deref (s_consoles st !! this);
  mret (with_consoles st (<[this := Con b (con_device c)]> (s_consoles st))).
Definition Console_enable : loc -> stdio D io -> res (stdio D io) := set_enabled true.
Definition Console_disable : loc -> stdio D io -> res (stdio D io) := set_enabled false.

Definition isEnabled (this : loc) st : res bool :=
  isEnabledM <$> deref (s_consoles st !! this).

(** The virtual call [con->putChar(ch)]. *)
Definition call_putChar (con : loc) (ch : Z) st : res (stdio D io) :=
  c ← deref (s_consoles st !! con);
  '(d, s) ← con_putChar ch (con_device c) (s_io st);
  mret (with_io (with_consoles st (<[con := Con (isEnabledM c) d]> (s_consoles st))) s).

Fixpoint foreach_loop (fuel : nat) (fn : loc -> stdio D io -> res (stdio D io)) (c : loc) st :
    res (stdio D io) :=
  match fuel with
  | O => NoFuel
  | S fuel =>
      if negb (c =? consoleList) then
        con ← get_val (s_list st) c;
        st ← fn con st;
        c ← get_next (s_list st) c;
        foreach_loop fuel fn c st
      else mret st
  end.

Definition foreachConsole (fn : loc -> stdio D io -> res (stdio D io)) st : res (stdio D io) :=
  c ← get_next (s_list st) consoleList;
  foreach_loop (S (size (s_list st))) fn c st.

Context (polls : nat).

Definition console_putchar (ch : Z) st : res (Z * stdio D io) :=
  if nested st then mret (ch, st) else
  let st := with_nested st true in
  '(_, s) ← EarlySerial_putChar 2 polls (s_early st) ch (s_io st);
  st ← foreachConsole (fun con st =>
         b ← isEnabled con st;
         if b : bool then call_putChar con (schar ch) st else mret st) (with_io st s);
  mret (ch, with_nested st false).

(** [console_puts] over the bytes of its string. *)
Fixpoint console_write (l : list Z) st : res (stdio D io) :=
  match l with
  | [] => mret st
  | ch :: l => '(_, st) ← console_putchar (schar ch) st; console_write l st
  end.

Definition console_puts (l : list Z) st : res (Z * stdio D io) :=
  st ← console_write l st; mret (1, st).

(** [printf] of a literal format: what Printf.v prints goes to
    [console_putchar]. *)
Definition print (fmt : list Z) (args : list Z) st : res (stdio D io) :=
  '(_, out, _) ← printf (put 1 (fmt ++ [0]) ∅) 1 args;
  console_write out st.

(** ["Console buffer overrun!\n"] *)
Definition overrun_text : list Z :=
  [67; 111; 110; 115; 111; 108; 101; 32; 98; 117; 102; 102; 101; 114; 32;
   111; 118; 101; 114; 114; 117; 110; 33; 10].

Definition console_feed (c : Z) st : res (Z * stdio D io) :=
  if consoleBufferPosition st =? consoleBufferSize then
    st ← print overrun_text [] st;
    mret (0, st)
  else
    '(_, st) ← console_putchar c st;
    let pos := consoleBufferPosition st in
    _ ← deref (consoleBuffer st !! Z.to_nat pos);
    mret (1, with_buffer st (<[Z.to_nat pos := schar c]> (consoleBuffer st)) (pos + 1)).

Fixpoint feed_all (l : list Z) st : res (stdio D io) :=
  match l with
  | [] => mret st
  | c :: l => '(_, st) ← console_feed c st; feed_all l st
  end.

(** The loop of [console_getchar] that waits for a character: in each round the
    interrupts feed what has been typed. *)
Fixpoint wait_typed (arrivals : list (list Z)) st : res (list (list Z) * stdio D io) :=
  if consoleBufferPosition st =? 0 then
    match arrivals with
    | [] => NoFuel
    | typed :: arrivals => st ← feed_all typed st; wait_typed arrivals st
    end
  else mret (arrivals, st).

Definition console_getchar (arrivals : list (list Z)) st :
    res (Z * list (list Z) * stdio D io) :=
  '(arrivals, st) ← wait_typed arrivals st;
  let pos := consoleBufferPosition st - 1 in
  c ← deref (consoleBuffer st !! Z.to_nat pos);
  mret (c, arrivals, with_buffer st (consoleBuffer st) pos).

(** [getchar] until a line feed. *)
Fixpoint discard_line (fuel : nat) (arrivals : list (list Z)) st :
    res (list (list Z) * stdio D io) :=
  match fuel with
  | O => NoFuel
  | S fuel =>
      '(c, arrivals, st) ← console_getchar arrivals st;
      if c =? 10 then mret (arrivals, st) else discard_line fuel arrivals st
  end.

(** [gets_s]: the string that it leaves in its buffer; [n] is [size - 1]. *)
Fixpoint gets_loop (n : nat) (str : list Z) (arrivals : list (list Z)) st (fuel : nat) :
    res (list Z * list (list Z) * stdio D io) :=
  match n with
  | O =>
      '(arrivals, st) ← discard_line fuel arrivals st;
      mret (str, arrivals, st)
  | S n =>
      '(c, arrivals, st) ← console_getchar arrivals st;
      if c =? 10 then mret (str, arrivals, st) else gets_loop n (str ++ [c]) arrivals st fuel
  end.

Definition gets_s (size : Z) (arrivals : list (list Z)) st (fuel : nat) :
    res (list Z * list (list Z) * stdio D io) :=
  gets_loop (Z.to_nat (u32 (size - 1))) [] arrivals st fuel.

(** ** The serial console's interrupt *)

Definition SerialConsole_handleInterrupt st : res (stdio D io) :=
  let '(iir, s) := inb (Com0 + InterruptIdentification) (s_io st) in
  let st := with_io st s in
  if negb (Z.land (u8 iir) 4 =? 0) then
    let '(c, s) := inb (Com0 + Data) (s_io st) in
    let st := with_io st s in
    let c := schar c in
    if c =? 13 then snd <$> console_feed 10 st else snd <$> console_feed c st
  else mret st.
End stdio.

(** ** What the devices promise *)

(** [keeps s s'] is what the devices of the console leave alone. *)
Class UartLaws (io : Type) {P : Ports io} (keeps : relation io) := {
  uart_max : nat;
  uart_wait : io -> nat;
  uart_bound s : (uart_wait s <= uart_max)%nat;
  uart_keeps : PreOrder keeps;
  status_law s : let '(v, s') := inb (Com0 + LineStatus) s in
    (Z.land v EmptyTransmitterHoldingRegs =? 0) = bool_decide (uart_wait s <> O) /\
    uart_wait s' = pred (uart_wait s) /\ keeps s s';
  data_law v s : keeps s (outb (Com0 + Data) v s);
}.

(** What a console shows, and what it shows after a character. *)
Class ConsoleLaws (D io : Type) {C : ConsoleDevice D io} (keeps : relation io) := {
  view : Type;
  con_ok : D -> Prop;
  con_view : D -> view;
  con_write : view -> Z -> view;
  con_law ch d s : con_ok d -> exists d' s', con_putChar ch d s = Ok (d', s') /\ con_ok d' /\
    con_view d' = con_write (con_view d) ch /\ keeps s s';
}.

Section serial.
Context {io : Type} (keeps : relation io) `{UartLaws io keeps}.
#[local] Existing Instance uart_keeps.

(** The transmitter is empty after at most [uart_max] polls. *)
Lemma wait_transmitter_ok polls s : (uart_wait s < polls)%nat ->
  exists s', wait_transmitter polls s = Ok s' /\ keeps s s'.
Proof.
  revert s. induction polls as [|n IH]; intros s Hn; [lia|]. cbn [wait_transmitter].
  pose proof (status_law s) as L. destruct (inb _ s) as [v s1]. destruct L as (-> & W & K).
  case_bool_decide as Hw.
  - destruct (IH s1) as (s2 & E & K2); [lia|]. exists s2. split; [done|]. by etrans.
  - by exists s1.
Qed.

Lemma serial_putChar_ok polls ch s : (uart_max < polls)%nat ->
  exists s', serial_putChar 2 polls ch s = Ok s' /\ keeps s s'.
Proof.
  intros Hp. assert (forall s ch, exists s', wait_transmitter polls s = Ok s' /\
    keeps s (outb (Com0 + Data) ch s')) as Hw.
  { intros s0 c0. destruct (wait_transmitter_ok polls s0) as (s' & E & K).
    - pose proof (uart_bound s0). lia.
    - exists s'. split; [done|]. etrans; [exact K|apply data_law]. }
  cbn [serial_putChar]. destruct (Hw s (u8 ch)) as (s1 & -> & K1). cbn [mbind res_bind].
  destruct (ch =? 10); [|by eexists].
  destruct (Hw (outb (Com0 + Data) (u8 ch) s1) (u8 13)) as (s2 & -> & K2). cbn [mbind res_bind].
  eexists. split; [done|]. by etrans.
Qed.

(** The early console does as the serial one, unless it is disabled. *)
Lemma early_serial polls e ch s : EarlySerial_putChar 2 polls e ch s =
  if isDisabledM e then Ok (0, s) else pair 1 <$> serial_putChar 2 polls ch s.
Proof.
  cbn [EarlySerial_putChar serial_putChar]. destruct (isDisabledM e); [done|].
  destruct (wait_transmitter polls s) as [s1| | |]; cbn [mbind res_bind]; try done.
  destruct (ch =? 10); [|done].
  by destruct (wait_transmitter polls _) as [s2| | |]; cbn [mbind res_bind fmap res_fmap].
Qed.

Lemma early_putChar_ok polls e ch s : (uart_max < polls)%nat ->
  exists r s', EarlySerial_putChar 2 polls e ch s = Ok (r, s') /\ keeps s s'.
Proof.
  intros Hp. rewrite early_serial. destruct (isDisabledM e); [by eexists _, _|].
  destruct (serial_putChar_ok polls ch s Hp) as (s' & -> & K). by eexists _, _.
Qed.
End serial.

(** ** The list of consoles *)

Section registered.
Context {D io : Type} `{Ports io, ConsoleDevice D io, ConsoleListHead}.
Implicit Types st : stdio D io.

(** The consoles of the list, in the order of their registration. *)
Definition registered st (l : list loc) : Prop :=
  exists items, ring (s_list st) consoleList items /\
    Forall2 (fun it con => vl (s_list st) it = Some con) items l.

Fixpoint each (fn : loc -> stdio D io -> res (stdio D io)) (l : list loc) st : res (stdio D io) :=
  match l with
  | [] => mret st
  | con :: l => st ← fn con st; each fn l st
  end.

Lemma foreach_loop_spec fn sl items l : (forall con st st', fn con st = Ok st' ->
    s_list st' = s_list st) ->
  Forall2 (fun it con => vl sl it = Some con) items l ->
  forall c st fuel, s_list st = sl -> dseg sl c items consoleList -> consoleList ∉ items ->
    (length items < fuel)%nat ->
  foreach_loop fuel fn (List.hd consoleList items) st = each fn l st.
Proof.
  intros Hfn. induction 1 as [|it con items l Hv _ IH]; intros c st fuel Hs Hd Hn Hf.
  - destruct fuel; [cbn in Hf; lia|]. cbn. by rewrite Z.eqb_refl.
  - destruct fuel as [|fuel]; [cbn in Hf; lia|]. cbn [foreach_loop List.hd each].
    apply not_elem_of_cons in Hn as [Hne Hn]. rewrite (proj2 (Z.eqb_neq it consoleList)) by done.
    cbn [negb]. rewrite Hs, (proj2 (get_val_ok sl it con) Hv). cbn [mbind res_bind].
    destruct (fn con st) as [st1| | |] eqn:E; cbn [mbind res_bind]; try done.
    rewrite (Hfn _ _ _ E), Hs. cbn [dseg] in Hd. destruct Hd as (_ & _ & Hd).
    assert (nx sl it = Some (List.hd consoleList items)) as Hx.
    { destruct items; cbn in Hd |- *; tauto. }
    rewrite (proj2 (get_next_ok sl it _) Hx). cbn [mbind res_bind].
    apply (IH it); [by rewrite (Hfn _ _ _ E)|done|done|]. cbn in Hf. lia.
Qed.

Lemma ring_size (sl : gmap loc (node loc)) h items : ring sl h items ->
  (S (length items) <= size sl)%nat.
Proof.
  intros Hr. pose proof Hr as [Hnd _].
  pose proof (size_list_to_set (C := gset loc) _ Hnd) as Es. cbn [length] in Es.
  rewrite <- Es, <- (size_dom (D := gset loc)). apply subseteq_size. intros p Hp.
  apply elem_of_list_to_set in Hp. apply elem_of_dom. by eapply ring_dom.
Qed.

Lemma foreachConsole_spec fn st l : (forall con st st', fn con st = Ok st' ->
    s_list st' = s_list st) -> registered st l -> foreachConsole fn st = each fn l st.
Proof.
  intros Hfn (items & Hr & Hv). unfold foreachConsole.
  rewrite (proj2 (get_next_ok _ _ _) (ring_first _ _ _ Hr)). cbn [mbind res_bind].
  pose proof Hr as [Hnd Hd]. apply NoDup_cons in Hnd as [Hn _].
  eapply foreach_loop_spec; [done|exact Hv|done|exact Hd|done|]. pose proof (ring_size _ _ _ Hr). lia.
Qed.

(** A new console is the last one. *)
Lemma registerConsole_spec item con st l : registered st l -> s_list st !! item = None ->
  exists sl, registerConsole item con st = Ok (with_list st sl) /\
    registered (with_list st sl) (l ++ [con]).
Proof.
  intros (items & Hr & Hv) Hi. set (st0 := s_list st) in *. set (h := consoleList) in *.
  assert (item ∉ h :: items) as Hni.
  { intros Hin. destruct (ring_dom _ _ _ _ Hr Hin) as [x Hx]. congruence. }
  set (l1 := <[item := Node 0 0 con]> st0).
  assert (set_val (<[item := Node 0 0 0]> st0) item con = Ok l1) as E1.
  { unfold set_val. rewrite lookup_insert_eq. cbn. by rewrite insert_insert_eq. }
  assert (forall a, nx l1 a = if decide (a = item) then Some 0 else nx st0 a) as N1.
  { intros a. unfold nx, l1. rewrite lookup_insert. by repeat case_decide; subst. }
  assert (forall a, pv l1 a = if decide (a = item) then Some 0 else pv st0 a) as P1.
  { intros a. unfold pv, l1. rewrite lookup_insert. by repeat case_decide; subst. }
  assert (forall a, vl l1 a = if decide (a = item) then Some con else vl st0 a) as V1.
  { intros a. unfold vl, l1. rewrite lookup_insert. by repeat case_decide; subst. }
  assert (forall a, is_Some (st0 !! a) -> is_Some (l1 !! a)) as D1.
  { intros a Ha. unfold l1. rewrite lookup_insert. by case_decide. }
  assert (is_Some (l1 !! item)) as D1i by (unfold l1; by rewrite lookup_insert_eq).
  pose proof (last_of_in h items) as Hlast. set (p := last_of h items) in *.
  assert (p <> item /\ h <> item) as [Hp Hh].
  { split; [by intros E; apply Hni; rewrite <- E|]. intros E. apply Hni. rewrite <- E. by left. }
  assert (pv st0 h = Some p) as Hph by apply (ring_last _ _ _ Hr).
  destruct (set_prev_ok l1 item p D1i) as (l2 & E2 & P2 & N2 & V2 & D2).
  destruct (set_next_ok l2 p item) as (l3 & E3 & N3 & P3 & V3 & D3).
  { apply D2, D1. by eapply ring_dom. }
  destruct (set_next_ok l3 item h) as (l4 & E4 & N4 & P4 & V4 & D4).
  { by apply D3, D2. }
  destruct (set_prev_ok l4 h item) as (l5 & E5 & P5 & N5 & V5 & D5).
  { apply D4, D3, D2, D1. eapply ring_dom; [done|by left]. }
  exists l5. split.
  - unfold registerConsole. fold st0 h. rewrite E1. cbn [mbind res_bind].
    rewrite (proj2 (get_prev_ok l1 h p)) by (by rewrite P1, decide_False). cbn [mbind res_bind].
    rewrite E2. cbn [mbind res_bind].
    rewrite (proj2 (get_prev_ok l2 h p)) by (by rewrite P2, P1, !decide_False).
    cbn [mbind res_bind]. rewrite E3. cbn [mbind res_bind]. rewrite E4. cbn [mbind res_bind].
    by rewrite E5.
  - exists (items ++ [item]). cbn [s_list with_list]. split.
    + apply (ring_insert st0 _ h items [] item p h); rewrite ?app_nil_r; try done.
      * by rewrite N5, N4, N3, decide_False, decide_True.
      * by rewrite N5, N4, decide_True.
      * by rewrite P5, decide_True.
      * by rewrite P5, P4, P3, P2, decide_False, decide_True.
      * intros a Ha Hai. by rewrite N5, N4, N3, N2, N1, !decide_False.
      * intros a Ha Hai. by rewrite P5, P4, P3, P2, P1, !decide_False.
    + apply Forall2_app.
      * assert (Forall (fun it => it <> item) items) as Hne.
        { apply Forall_forall. intros it Hit ->. apply Hni. by right. }
        clear -Hv Hne V1 V2 V3 V4 V5. induction Hv as [|it c items l Hit _ IH]; [done|].
        apply Forall_cons in Hne as [H1 H2]. constructor; [|by apply IH].
        by rewrite V5, V4, V3, V2, V1, decide_False.
      * constructor; [|constructor]. by rewrite V5, V4, V3, V2, V1, decide_True.
Qed.
End registered.

(** ** The state of standard input and output *)

Section stdio_ok.
Context {D io : Type} (keeps : relation io).
Context `{P : Ports io, C : ConsoleDevice D io, L : ConsoleListHead}.
Context `{U : !UartLaws io keeps, CL : !ConsoleLaws D io keeps}.
Implicit Types (st : stdio D io) (l : list loc).
#[local] Existing Instance uart_keeps.

Definition is_char (c : Z) : Prop := -128 <= c < 128.

(** The characters that have been typed and not been read, oldest first. *)
Definition typed st : list Z := take (Z.to_nat (consoleBufferPosition st)) (consoleBuffer st).

Record stdio_ok l st : Prop := {
  so_list : registered st l;
  so_nodup : NoDup l;
  so_consoles con : con ∈ l -> exists c, s_consoles st !! con = Some c /\ con_ok (con_device c);
  so_size : length (consoleBuffer st) = Z.to_nat consoleBufferSize;
  so_chars : Forall is_char (consoleBuffer st);
  so_position : 0 <= consoleBufferPosition st <= consoleBufferSize;
  so_nested : nested st = false;
}.

(** What the console at [con] shows, if it is enabled. *)
Definition screen st (con : loc) : option view :=
  c ← s_consoles st !! con; if isEnabledM c then Some (con_view (con_device c)) else None.

(** From [st] to [st'] the enabled consoles of [l] have shown [chars], and
    nothing else of the console changed. *)
Record echoed l (chars : list Z) st st' : Prop := {
  ec_screen con : con ∈ l -> screen st' con = (fun v => foldl con_write v chars) <$> screen st con;
  ec_ok con c : con ∈ l -> s_consoles st !! con = Some c -> con_ok (con_device c) ->
    exists c', s_consoles st' !! con = Some c' /\ con_ok (con_device c');
  ec_early : s_early st' = s_early st;
  ec_list : s_list st' = s_list st;
  ec_nested : nested st' = nested st;
  ec_io : keeps (s_io st) (s_io st');
}.

Definition same_buffer st st' : Prop :=
  consoleBuffer st' = consoleBuffer st /\ consoleBufferPosition st' = consoleBufferPosition st.

Lemma echoed_refl l st : echoed l [] st st.
Proof.
  split; try done.
  - intros con _. cbn. by destruct (screen st con).
  - intros con c _ Hc Ho. by exists c.
Qed.

Lemma echoed_trans l a b st st1 st2 : echoed l a st st1 -> echoed l b st1 st2 ->
  echoed l (a ++ b) st st2.
Proof.
  intros H1 H2. split.
  - intros con Hc. rewrite (ec_screen _ _ _ _ H2), (ec_screen _ _ _ _ H1) by done.
    destruct (screen st con); cbn; [by rewrite foldl_app|done].
  - intros con c Hc E O. destruct (ec_ok _ _ _ _ H1 con c Hc E O) as (c1 & E1 & O1).
    exact (ec_ok _ _ _ _ H2 con c1 Hc E1 O1).
  - by rewrite (ec_early _ _ _ _ H2), (ec_early _ _ _ _ H1).
  - by rewrite (ec_list _ _ _ _ H2), (ec_list _ _ _ _ H1).
  - by rewrite (ec_nested _ _ _ _ H2), (ec_nested _ _ _ _ H1).
  - etrans; [apply H1|apply H2].
Qed.

Lemma stdio_ok_echoed l chars st st' : stdio_ok l st -> echoed l chars st st' ->
  same_buffer st st' -> stdio_ok l st'.
Proof.
  intros [O1 O2 O3 O4 O5 O6 O7] E [B1 B2]. split.
  - destruct O1 as (items & Hr & Hv). exists items. by rewrite (ec_list _ _ _ _ E).
  - done.
  - intros con Hc. destruct (O3 con Hc) as (c & Ec & Oc). exact (ec_ok _ _ _ _ E con c Hc Ec Oc).
  - by rewrite B1.
  - by rewrite B1.
  - by rewrite B2.
  - by rewrite (ec_nested _ _ _ _ E).
Qed.

Lemma typed_length l st : stdio_ok l st -> Z.of_nat (length (typed st)) = consoleBufferPosition st.
Proof.
  intros [_ _ _ Hs _ Hp _]. unfold typed. rewrite length_take, Hs. unfold consoleBufferSize in *. lia.
Qed.

Lemma is_char_schar c : is_char (schar c).
Proof. apply (sgn_range 8 c). lia. Qed.

Lemma typed_chars l st : stdio_ok l st -> Forall is_char (typed st).
Proof. intros Ho. apply Forall_take, Ho. Qed.

(** ** Printing *)

Context (polls : nat) (Hpolls : (uart_max < polls)%nat).

(** The body of the loop over the consoles. *)
Definition put_one (ch : Z) (con : loc) st : res (stdio D io) :=
  b ← isEnabled con st; if b : bool then call_putChar con (schar ch) st else mret st.

Lemma put_one_list ch con st st' : put_one ch con st = Ok st' -> s_list st' = s_list st.
Proof.
  unfold put_one, call_putChar. intros E. apply res_bind_ok in E as (b & _ & E).
  destruct b; [|by apply Ok_inj in E as <-].
  apply res_bind_ok in E as (c & _ & E). apply res_bind_ok in E as ([d s] & _ & E).
  by apply Ok_inj in E as <-.
Qed.

Lemma put_one_ok ch con st c : s_consoles st !! con = Some c -> con_ok (con_device c) ->
  exists st', put_one ch con st = Ok st' /\ echoed [con] [schar ch] st st' /\ same_buffer st st' /\
    forall con', con' <> con -> s_consoles st' !! con' = s_consoles st !! con'.
Proof.
  intros Ec Oc. unfold put_one, isEnabled. rewrite Ec. cbn [deref fmap res_fmap mbind res_bind].
  destruct (isEnabledM c) eqn:Eb.
  - unfold call_putChar. rewrite Ec. cbn [deref mbind res_bind].
    destruct (con_law (schar ch) _ (s_io st) Oc) as (d & s & -> & Od & Vd & K).
    cbn [mbind res_bind]. eexists. split; [done|]. cbn [s_consoles with_io with_consoles].
    split; [|split; [done|intros con' Hne; by rewrite lookup_insert_ne]].
    split; cbn; try done.
    + intros con' ->%list_elem_of_singleton. unfold screen. cbn. rewrite lookup_insert_eq, Ec.
      cbn. by rewrite Eb, Vd.
    + intros con' c' ->%list_elem_of_singleton _ _. rewrite lookup_insert_eq. by eexists.
  - eexists. split; [done|]. split; [|done]. split; try done.
    + intros con' ->%list_elem_of_singleton. unfold screen. rewrite Ec. cbn. by rewrite Eb.
    + intros con' c' _ Ec' Oc'. by exists c'.
Qed.

Lemma screen_ext st st' con : s_consoles st' !! con = s_consoles st !! con ->
  screen st' con = screen st con.
Proof. unfold screen. by intros ->. Qed.

Lemma each_ok ch l st : NoDup l ->
  (forall con, con ∈ l -> exists c, s_consoles st !! con = Some c /\ con_ok (con_device c)) ->
  exists st', each (put_one ch) l st = Ok st' /\ echoed l [schar ch] st st' /\ same_buffer st st' /\
    forall con', con' ∉ l -> s_consoles st' !! con' = s_consoles st !! con'.
Proof.
  revert st. induction l as [|con l IH]; intros st Hnd Ho; cbn [each].
  - exists st. split; [done|]. split; [|done]. split; try done; [intros con Hc|intros con c Hc]; by apply elem_of_nil in Hc.
  - apply NoDup_cons in Hnd as [Hn Hnd]. destruct (Ho con ltac:(by left)) as (c & Ec & Oc).
    destruct (put_one_ok ch con st c Ec Oc) as (st1 & -> & E1 & [B1 B1'] & F1). cbn [mbind res_bind].
    destruct (IH st1 Hnd) as (st2 & -> & E2 & [B2 B2'] & F2).
    { intros con' Hc'. rewrite F1 by (by intros ->). apply Ho. by right. }
    exists st2. split; [done|]. split; [|split; [split; congruence|]].
    + split.
      * intros con' [->|Hc']%elem_of_cons.
        -- rewrite (screen_ext st1) by (by apply F2). apply E1. by left.
        -- rewrite (ec_screen _ _ _ _ E2) by done. f_equal. apply screen_ext, F1. by intros ->.
      * intros con' c' [->|Hc']%elem_of_cons Ec' Oc'.
        -- rewrite F2 by done. apply (ec_ok _ _ _ _ E1 con c'); [by left|done|done].
        -- apply (ec_ok _ _ _ _ E2 con' c'); [done| |done]. by rewrite F1 by (by intros ->).
      * by rewrite (ec_early _ _ _ _ E2), (ec_early _ _ _ _ E1).
      * by rewrite (ec_list _ _ _ _ E2), (ec_list _ _ _ _ E1).
      * by rewrite (ec_nested _ _ _ _ E2), (ec_nested _ _ _ _ E1).
      * etrans; [apply E1|apply E2].
    + intros con' [Hne Hc']%not_elem_of_cons. by rewrite F2, F1.
Qed.

Lemma console_putchar_ok l ch st : stdio_ok l st ->
  exists st', console_putchar polls ch st = Ok (ch, st') /\ echoed l [schar ch] st st' /\
    same_buffer st st' /\ stdio_ok l st'.
Proof.
  intros Ho. enough (exists st', console_putchar polls ch st = Ok (ch, st') /\
    echoed l [schar ch] st st' /\ same_buffer st st') as (st' & E & Ec & B).
  { exists st'. split_and!; try done; try apply B. by eapply stdio_ok_echoed. }
  unfold console_putchar. rewrite (so_nested _ _ Ho).
  destruct (early_putChar_ok keeps polls (s_early st) ch (s_io st) Hpolls) as (r & s & E & K).
  cbn [s_early s_io with_nested]. rewrite E. cbn [mbind res_bind].
  rewrite (foreachConsole_spec _ _ l); [|exact (put_one_list ch)|].
  2:{ destruct (so_list _ _ Ho) as (items & Hr & Hv). by exists items. }
  destruct (each_ok ch l (with_io (with_nested st true) s) (so_nodup _ _ Ho) (so_consoles _ _ Ho))
    as (st1 & E1 & C1 & B1 & _).
  change (fun con st => _) with (put_one ch). rewrite E1. cbn [mbind res_bind].
  eexists. split; [done|]. split; [|done]. split.
  - intros con Hc. exact (ec_screen _ _ _ _ C1 con Hc).
  - intros con c Hc Hl. exact (ec_ok _ _ _ _ C1 con c Hc Hl).
  - exact (ec_early _ _ _ _ C1).
  - exact (ec_list _ _ _ _ C1).
  - cbn. by rewrite (so_nested _ _ Ho).
  - etrans; [exact K|exact (ec_io _ _ _ _ C1)].
Qed.

Lemma console_write_ok l chars st : stdio_ok l st ->
  exists st', console_write polls chars st = Ok st' /\ echoed l (schar <$> chars) st st' /\
    same_buffer st st' /\ stdio_ok l st'.
Proof.
  revert st. induction chars as [|ch chars IH]; intros st Ho; cbn [console_write].
  - exists st. split_and!; try done. apply echoed_refl.
  - destruct (console_putchar_ok l (schar ch) st Ho) as (st1 & -> & E1 & [B1 B1'] & O1).
    cbn [mbind res_bind]. destruct (IH st1 O1) as (st2 & -> & E2 & [B2 B2'] & O2).
    exists st2. split; [done|]. split; [|split; [split; congruence|done]].
    rewrite fmap_cons. change (schar ch :: _) with ([schar ch] ++ (schar <$> chars)).
    eapply echoed_trans; [|exact E2]. by rewrite (sgn_id 8 (schar ch)) in E1 by (done || apply sgn_range; lia).
Qed.

Lemma print_ok l fmt args m out r st : printf (put 1 (fmt ++ [0]) ∅) 1 args = Ok (m, out, r) ->
  stdio_ok l st -> exists st', print polls fmt args st = Ok st' /\
    echoed l (schar <$> out) st st' /\ same_buffer st st' /\ stdio_ok l st'.
Proof.
  intros E Ho. unfold print. rewrite E. cbn [mbind res_bind]. by apply console_write_ok.
Qed.

(** ** The buffer of typed characters *)

Lemma feed_room l c st : stdio_ok l st -> consoleBufferPosition st < consoleBufferSize ->
  exists st', console_feed polls c st = Ok (1, st') /\ echoed l [schar c] st st' /\
    typed st' = typed st ++ [schar c] /\ stdio_ok l st'.
Proof.
  intros Ho Hp. unfold console_feed. rewrite (proj2 (Z.eqb_neq _ _)) by lia.
  destruct (console_putchar_ok l c st Ho) as (st1 & -> & E1 & [B1 B1'] & O1). cbn [mbind res_bind].
  pose proof (so_position _ _ O1) as Hr. pose proof (so_size _ _ O1) as Hs.
  destruct (lookup_lt_is_Some_2 (consoleBuffer st1) (Z.to_nat (consoleBufferPosition st1)))
    as [x Ex]; [lia|].
  rewrite Ex. cbn [deref mbind res_bind]. eexists. split; [done|].
  split; [by destruct E1|]. unfold typed. cbn [consoleBuffer consoleBufferPosition with_buffer]. split.
  - rewrite <- B1, <- B1', Z2Nat.inj_add, Nat.add_1_r by lia.
    rewrite (take_S_r _ _ (schar c)) by (apply list_lookup_insert_eq; lia).
    by rewrite take_insert_ge.
  - destruct O1 as [A1 A2 A3 A4 A5 A6 A7]. split; cbn; try done.
    + by rewrite length_insert.
    + apply Forall_insert; [done|apply is_char_schar].
    + lia.
Qed.

Lemma feed_full l c st : stdio_ok l st -> consoleBufferPosition st = consoleBufferSize ->
  exists st', console_feed polls c st = Ok (0, st') /\ echoed l overrun_text st st' /\
    typed st' = typed st /\ stdio_ok l st'.
Proof.
  intros Ho Hp. unfold console_feed. rewrite (proj2 (Z.eqb_eq _ _)) by done.
  assert (exists m r, printf (put 1 (overrun_text ++ [0]) ∅) 1 [] = Ok (m, overrun_text, r))
    as (m & r & E) by (eexists _, _; vm_compute; reflexivity).
  destruct (print_ok l _ _ _ _ _ st E Ho) as (st' & -> & Ec & [B B'] & O). cbn [mbind res_bind].
  exists st'. split_and!; [done|exact Ec| |done]. unfold typed. by rewrite B, B'.
Qed.

Lemma feed_all_ok l chars st : stdio_ok l st ->
  consoleBufferPosition st + Z.of_nat (length chars) <= consoleBufferSize ->
  exists st', feed_all polls chars st = Ok st' /\ echoed l (schar <$> chars) st st' /\
    typed st' = typed st ++ (schar <$> chars) /\ stdio_ok l st'.
Proof.
  revert st. induction chars as [|c chars IH]; intros st Ho Hp; cbn [feed_all].
  - exists st. split_and!; [done|apply echoed_refl|by rewrite app_nil_r|done].
  - cbn [length] in Hp. destruct (feed_room l c st Ho) as (st1 & -> & E1 & T1 & O1); [lia|].
    cbn [mbind res_bind]. destruct (IH st1 O1) as (st2 & -> & E2 & T2 & O2).
    { rewrite <- (typed_length _ _ O1), T1, length_app. cbn. rewrite Nat2Z.inj_add.
      rewrite (typed_length _ _ Ho). lia. }
    exists st2. split_and!; [done| | |done].
    + rewrite fmap_cons. change (schar c :: _) with ([schar c] ++ (schar <$> chars)).
      by eapply echoed_trans.
    + by rewrite T2, T1, <- app_assoc, fmap_cons.
Qed.

(** The last character typed is the first one read. *)
Lemma getchar_ok l arrivals st chars c : stdio_ok l st -> typed st = chars ++ [c] ->
  exists st', console_getchar polls arrivals st = Ok (c, arrivals, st') /\ echoed l [] st st' /\
    typed st' = chars /\ stdio_ok l st'.
Proof.
  intros Ho Ht. pose proof (typed_length _ _ Ho) as Hl. rewrite Ht, length_app in Hl. cbn in Hl.
  unfold console_getchar. assert (wait_typed polls arrivals st = Ok (arrivals, st)) as ->.
  { destruct arrivals; cbn [wait_typed]; by rewrite (proj2 (Z.eqb_neq _ _)) by lia. }
  cbn [mbind res_bind].
  assert (consoleBuffer st !! length chars = Some c) as Ec.
  { rewrite <- (take_drop (Z.to_nat (consoleBufferPosition st)) (consoleBuffer st)).
    fold (typed st). rewrite Ht, <- app_assoc. cbn [app]. by rewrite list_lookup_middle. }
  replace (Z.to_nat (consoleBufferPosition st - 1)) with (length chars) by lia.
  rewrite Ec. cbn [deref mbind res_bind]. eexists. split; [done|]. split; [|split].
  - pose proof (echoed_refl l st) as R. by destruct R.
  - unfold typed. cbn [consoleBuffer consoleBufferPosition with_buffer].
    replace (Z.to_nat (consoleBufferPosition st - 1)) with (length chars) by lia.
    transitivity (take (length chars) (typed st)).
    + unfold typed. rewrite take_take. f_equal. lia.
    + rewrite Ht. by rewrite take_app_length.
  - destruct Ho as [A1 A2 A3 A4 A5 A6 A7]. split; cbn; try done. lia.
Qed.

(** Reading [n] characters without waiting. *)
Fixpoint read_all (n : nat) st : res (list Z * stdio D io) :=
  match n with
  | O => mret ([], st)
  | S n =>
      '(c, _, st) ← console_getchar polls [] st;
      '(l, st) ← read_all n st;
      mret (c :: l, st)
  end.

Lemma read_all_ok l n st : stdio_ok l st -> (n <= length (typed st))%nat ->
  exists st', read_all n st = Ok (take n (rev (typed st)), st') /\ echoed l [] st st' /\
    rev (typed st') = drop n (rev (typed st)) /\ stdio_ok l st'.
Proof.
  revert st. induction n as [|n IH]; intros st Ho Hn; cbn [read_all].
  - exists st. split_and!; [done|apply echoed_refl|done|done].
  - destruct (typed st) as [|c chars _] eqn:Ht using rev_ind; [cbn in Hn; lia|].
    destruct (getchar_ok l [] st chars c Ho Ht) as (st1 & -> & E1 & T1 & O1). cbn [mbind res_bind].
    rewrite length_app in Hn. cbn in Hn.
    destruct (IH st1 O1) as (st2 & -> & E2 & T2 & O2); [rewrite T1; lia|]. cbn [mbind res_bind].
    exists st2. rewrite rev_app_distr, <- T1. cbn [rev app take drop].
    split_and!; [done| |done|done]. exact (echoed_trans _ _ _ _ _ _ E1 E2).
Qed.
End stdio_ok.
