(* ===== verification/Keyboard.v ===== *)
(** * The keyboard

    Models Drivers/X86/Keyboard/Scancodes.cc and Keyboard.cc: the table of key
    codes and the interrupt handler, which reads a code from the keyboard
    controller and feeds the key's character to the console (Console.v).  The
    controller is the class [Kbc]: a queue of codes behind two ports. *)

From S2P Require Import Prelude Words Ring CMem Printf Ports Console.
From Stdlib Require Import ZArith Lia.
From stdpp Require Import prelude gmap list.

Open Scope Z_scope.

(** ** Key codes (Scancodes.hh, Scancodes.cc) *)

Inductive CodeType : Type := Regular | Special.

#[export] Instance CodeType_eq_dec : EqDecision CodeType.
Proof. solve_decision. Defined.

Record codes_entry : Type := Codes {
  code : Z;
  ascii : Z;
  altascii : Z;
  type : CodeType;
}.

Definition Error : Z := 0x100.
Definition Escape : Z := 0x101.
Definition Backspace : Z := 0x102.
Definition Tab : Z := 0x103.
Definition Enter : Z := 0x104.
Definition Control : Z := 0x105.
Definition LeftShift : Z := 0x106.
Definition RightShift : Z := 0x107.
Definition PrintScreen : Z := 0x108.
Definition Alt : Z := 0x109.
Definition Space : Z := 0x10a.
Definition CapsLock : Z := 0x10b.
Definition F1 : Z := 0x10c.
Definition F2 : Z := 0x10d.
Definition F3 : Z := 0x10e.
Definition F4 : Z := 0x10f.
Definition F5 : Z := 0x110.
Definition F6 : Z := 0x111.
Definition F7 : Z := 0x112.
Definition F8 : Z := 0x113.
Definition F9 : Z := 0x115.
Definition F10 : Z := 0x116.
Definition NumLock : Z := 0x117.
Definition ScrollLock : Z := 0x118.
Definition Unused : Z := 0xffff.

(** The rows from 0x47 on are all unused. *)
Definition codes : list codes_entry :=
  [Codes 0x00 Error Error Special; Codes 0x01 Escape Escape Special; Codes 0x02 49 33 Regular;
   Codes 0x03 50 64 Regular; Codes 0x04 51 35 Regular; Codes 0x05 52 36 Regular;
   Codes 0x06 53 37 Regular; Codes 0x07 54 94 Regular; Codes 0x08 55 38 Regular;
   Codes 0x09 56 42 Regular; Codes 0x0a 57 40 Regular; Codes 0x0b 48 41 Regular;
   Codes 0x0c 45 95 Regular; Codes 0x0d 61 43 Regular; Codes 0x0e Backspace Backspace Special;
   Codes 0x0f Tab Tab Special; Codes 0x10 113 81 Regular; Codes 0x11 119 87 Regular;
   Codes 0x12 101 69 Regular; Codes 0x13 114 82 Regular; Codes 0x14 116 84 Regular;
   Codes 0x15 121 89 Regular; Codes 0x16 117 85 Regular; Codes 0x17 105 73 Regular;
   Codes 0x18 111 79 Regular; Codes 0x19 112 80 Regular; Codes 0x1a 91 123 Regular;
   Codes 0x1b 93 125 Regular; Codes 0x1c Enter Enter Special;
   Codes 0x1d Control Control Special; Codes 0x1e 97 65 Regular; Codes 0x1f 115 83 Regular;
   Codes 0x20 100 68 Regular; Codes 0x21 102 70 Regular; Codes 0x22 103 71 Regular;
   Codes 0x23 104 72 Regular; Codes 0x24 106 74 Regular; Codes 0x25 107 75 Regular;
   Codes 0x26 108 76 Regular; Codes 0x27 59 58 Regular; Codes 0x28 39 34 Regular;
   Codes 0x29 96 126 Regular; Codes 0x2a LeftShift LeftShift Special;
   Codes 0x2b 92 124 Regular; Codes 0x2c 122 90 Regular; Codes 0x2d 120 88 Regular;
   Codes 0x2e 99 67 Regular; Codes 0x2f 118 86 Regular; Codes 0x30 98 66 Regular;
   Codes 0x31 110 78 Regular; Codes 0x32 109 77 Regular; Codes 0x33 44 60 Regular;
   Codes 0x34 46 62 Regular; Codes 0x35 47 63 Regular;
   Codes 0x36 RightShift RightShift Special; Codes 0x37 PrintScreen PrintScreen Special;
   Codes 0x38 Alt Alt Special; Codes 0x39 Space Space Special;
   Codes 0x3a CapsLock CapsLock Special; Codes 0x3b F1 F1 Special; Codes 0x3c F2 F2 Special;
   Codes 0x3d F3 F3 Special; Codes 0x3e F4 F4 Special; Codes 0x3f F5 F5 Special;
   Codes 0x40 F6 F6 Special; Codes 0x41 F7 F7 Special; Codes 0x42 F8 F8 Special;
   Codes 0x43 F9 F9 Special; Codes 0x44 F10 F10 Special; Codes 0x45 NumLock NumLock Special;
   Codes 0x46 ScrollLock ScrollLock Special]
  ++ ((fun c => Codes c Unused Unused Special) <$> seqZ 0x47 (0x100 - 0x47)).

(** ** The driver *)

Record keyboard : Type := Keyboard { shiftPressed : bool; controlPressed : bool }.

Definition Keyboard_new : keyboard := Keyboard false false.

Section driver.
Context {D io : Type} `{Ports io, ConsoleDevice D io, ConsoleListHead}.
Context (polls : nat).
Implicit Types (kb : keyboard) (st : stdio D io).

(** The status and data ports: a code, if the buffer is full. *)
Definition read_code (s : io) : option Z * io :=
  let '(status, s) := inb 0x64 s in
  if Z.land (u8 status) 1 =? 0 then (None, s)
  else let '(scanCode, s) := inb 0x60 s in (Some (u8 scanCode), s).

(** ["0x%hhx"] *)
Definition unknown_text : list Z := [48; 120; 37; 104; 104; 120].

(** What a code does once its release bit has been split off. *)
Definition key_event (isBreak : bool) (scanCode : Z) kb st : res (keyboard * stdio D io) :=
  k ← deref (codes !! Z.to_nat scanCode);
  if bool_decide (type k = Special) && (ascii k =? F10) then Panic
  else if bool_decide (type k = Regular) && isBreak then mret (kb, st)
  else if bool_decide (type k = Regular) then
    '(_, st) ← console_feed polls (if shiftPressed kb then altascii k else ascii k) st;
    mret (kb, st)
  else if ascii k =? Enter then '(_, st) ← console_feed polls 10 st; mret (kb, st)
  else if ascii k =? Space then '(_, st) ← console_feed polls 32 st; mret (kb, st)
  else if ascii k =? Tab then '(_, st) ← console_feed polls 9 st; mret (kb, st)
  else if (ascii k =? LeftShift) || (ascii k =? RightShift) then
    mret (Keyboard (negb isBreak) (controlPressed kb), st)
  else if ascii k =? Control then mret (Keyboard (shiftPressed kb) (negb isBreak), st)
  else
    st ← print polls unknown_text [scanCode] st;
    mret (kb, st).

Definition Keyboard_handleInterrupt kb st : res (keyboard * stdio D io) :=
  let '(o, s) := read_code (s_io st) in
  let st := with_io st s in
  match o with
  | None => mret (kb, st)
  | Some scanCode =>
      let isBreak := negb (Z.land scanCode 0x80 =? 0) in
      let scanCode := if isBreak then Z.lxor scanCode 0x80 else scanCode in
      key_event isBreak scanCode kb st
  end.

(** One interrupt after the other. *)
Fixpoint interrupts (n : nat) kb st : res (keyboard * stdio D io) :=
  match n with
  | O => mret (kb, st)
  | S n => '(kb, st) ← Keyboard_handleInterrupt kb st; interrupts n kb st
  end.
End driver.

(** ** The keyboard controller *)

Class Kbc (io : Type) {P : Ports io} := {
  kbc_queue : io -> list Z;
  kbc_status s : let '(v, s') := inb 0x64 s in
    (Z.land (u8 v) 1 =? 0) = bool_decide (kbc_queue s = []) /\ kbc_queue s' = kbc_queue s;
  kbc_data sc q s : kbc_queue s = sc :: q ->
    let '(v, s') := inb 0x60 s in v = sc /\ kbc_queue s' = q;
}.

(** The other devices leave the queue alone. *)
Definition kbc_keeps {io} `{Kbc io} : relation io := fun s s' => kbc_queue s' = kbc_queue s.

(** ** Typing *)

(** The key of a character and whether it needs shift. *)
Definition key_of (c : Z) : option (Z * bool) :=
  if decide (c = 10) then Some (0x1c, false)
  else if decide (c = 32) then Some (0x39, false)
  else if decide (c = 9) then Some (0x0f, false)
  else
    match list_find (fun k => type k = Regular /\ ascii k = c) codes with
    | Some (_, k) => Some (code k, false)
    | None =>
        match list_find (fun k => type k = Regular /\ altascii k = c) codes with
        | Some (_, k) => Some (code k, true)
        | None => None
        end
    end.

(** The codes of pressing and releasing it: a release has the top bit set. *)
Definition press (c : Z) : list Z :=
  match key_of c with
  | Some (k, false) => [k; k + 0x80]
  | Some (k, true) => [0x2a; k; k + 0x80; 0xaa]
  | None => []
  end.

(** The characters of a keyboard: the printable ones, tab and enter. *)
Definition typeable (c : Z) : Prop := c = 9 \/ c = 10 \/ 32 <= c < 127.

(** What the driver feeds: the keys of the codes' special part act again when
    they are released. *)
Definition fed (c : Z) : list Z := if decide (c ∈ [9; 10; 32]) then [c; c] else [c].

(** The effect of one code on the shift state and the characters it feeds. *)
Definition action (sc : Z) (shift : bool) : option (bool * list Z) :=
  let isBreak := Z.testbit sc 7 in
  match codes !! Z.to_nat (sc mod 128) with
  | None => None
  | Some k =>
      match type k with
      | Regular => Some (shift, if isBreak then [] else [if shift then altascii k else ascii k])
      | Special =>
          if decide (ascii k = Enter) then Some (shift, [10])
          else if decide (ascii k = Space) then Some (shift, [32])
          else if decide (ascii k = Tab) then Some (shift, [9])
          else if decide (ascii k = LeftShift \/ ascii k = RightShift) then Some (negb isBreak, [])
          else None
      end
  end.

Fixpoint actions (l : list Z) (shift : bool) : option (bool * list Z) :=
  match l with
  | [] => Some (shift, [])
  | sc :: l =>
      '(shift, a) ← action sc shift;
      '(shift, b) ← actions l shift;
      Some (shift, a ++ b)
  end.

Lemma actions_app l l' shift shift' shift'' a b : actions l shift = Some (shift', a) ->
  actions l' shift' = Some (shift'', b) -> actions (l ++ l') shift = Some (shift'', a ++ b).
Proof.
  revert shift a. induction l as [|sc l IH]; intros shift a E E'; cbn [actions app] in *.
  - by injection E as -> <-.
  - destruct (action sc shift) as [[s1 a1]|]; cbn in E |- *; [|done].
    destruct (actions l s1) as [[s2 a2]|] eqn:E1; cbn in E; [|done]. injection E as -> <-.
    rewrite (IH s1 a2 E1 E'). cbn. by rewrite app_assoc.
Qed.

(** Every character of a keyboard. *)
Lemma press_actions c : typeable c ->
  actions (press c) false = Some (false, fed c) /\ Forall (fun sc => 0 <= sc < 256) (press c) /\
  schar <$> fed c = fed c.
Proof.
  intros Hc. assert (Forall (fun c => actions (press c) false = Some (false, fed c) /\
    Forall (fun sc => 0 <= sc < 256) (press c) /\ schar <$> fed c = fed c)
    (9 :: 10 :: seqZ 32 95)) as Ha.
  { apply (bool_decide_unpack _). vm_compute. exact I. }
  rewrite Forall_forall in Ha. apply Ha. destruct Hc as [->|[->|Hc]]; [by left|by right; left|].
  right; right. apply elem_of_seqZ. lia.
Qed.

Definition keys (text : list Z) : list Z := mjoin (press <$> text).
Definition fed_text (text : list Z) : list Z := mjoin (fed <$> text).

Lemma keys_actions text : Forall typeable text ->
  actions (keys text) false = Some (false, fed_text text) /\
  Forall (fun sc => 0 <= sc < 256) (keys text) /\ schar <$> fed_text text = fed_text text.
Proof.
  induction 1 as [|c text Hc _ (IH1 & IH2 & IH3)]; [done|].
  destruct (press_actions c Hc) as (H1 & H2 & H3). unfold keys, fed_text.
  cbn [fmap list_fmap mjoin list_join]. split; [|split].
  - by eapply actions_app.
  - by apply Forall_app.
  - rewrite fmap_app, H3. f_equal. exact IH3.
Qed.

(** ** The handler *)

(** The release bit. *)
Lemma code_bits sc : 0 <= sc < 256 ->
  negb (Z.land sc 0x80 =? 0) = Z.testbit sc 7 /\
  (if Z.testbit sc 7 then Z.lxor sc 0x80 else sc) = sc mod 128.
Proof.
  intros Hsc. assert (Forall (fun sc => negb (Z.land sc 0x80 =? 0) = Z.testbit sc 7 /\
    (if Z.testbit sc 7 then Z.lxor sc 0x80 else sc) = sc mod 128) (seqZ 0 256)) as Ha.
  { apply (bool_decide_unpack _). vm_compute. exact I. }
  rewrite Forall_forall in Ha. apply Ha, elem_of_seqZ. lia.
Qed.

Section typing.
Context {D io : Type} `{P : Ports io, K : !Kbc io, C : ConsoleDevice D io, L : ConsoleListHead}.
Context `{U : !UartLaws io kbc_keeps, CL : !ConsoleLaws D io kbc_keeps}.
Context (polls : nat) (Hpolls : (uart_max (keeps := kbc_keeps) < polls)%nat).
Implicit Types (kb : keyboard) (st : stdio D io) (l : list loc).

(** What one code does to the rest of the state. *)
Record fed_by l (chars : list Z) st st' : Prop := {
  fb_echo : echoed kbc_keeps l (schar <$> chars) st st';
  fb_typed : typed st' = typed st ++ (schar <$> chars);
  fb_ok : stdio_ok kbc_keeps l st';
}.

Lemma feed_one l c st : stdio_ok kbc_keeps l st -> (length (typed st) + 1 <= 4096)%nat ->
  exists st', console_feed polls c st = Ok (1, st') /\ fed_by l [c] st st'.
Proof.
  intros Ho Hn. destruct (feed_room kbc_keeps polls Hpolls l c st Ho) as (st' & E & Ec & T & O).
  - rewrite <- (typed_length _ _ _ Ho). unfold consoleBufferSize. lia.
  - exists st'. split; [exact E|]. by split.
Qed.

Lemma code_event_ok l sc kb st shift' chars : 0 <= sc < 256 -> stdio_ok kbc_keeps l st ->
  action sc (shiftPressed kb) = Some (shift', chars) ->
  (length (typed st) + length chars <= 4096)%nat ->
  exists kb' st', key_event polls (Z.testbit sc 7) (sc mod 128) kb st = Ok (kb', st') /\
    shiftPressed kb' = shift' /\ fed_by l chars st st'.
Proof.
  intros Hsc Ho Ea Hn. unfold key_event. unfold action in Ea.
  destruct (codes !! Z.to_nat (sc mod 128)) as [k|]; [|done]. cbn [deref mbind res_bind].
  assert (fed_by l [] st st) as Hnil.
  { split; [apply (echoed_refl kbc_keeps)|by rewrite app_nil_r|done]. }
  destruct (type k) eqn:Ek.
  - rewrite (bool_decide_eq_false_2 (Regular = Special)) by done.
    rewrite (bool_decide_eq_true_2 (Regular = Regular)) by done. cbn [andb].
    apply Some_inj in Ea. destruct (Z.testbit sc 7).
    + injection Ea as <- <-. by exists kb, st.
    + injection Ea as <- <-. edestruct (feed_one l) as (st' & -> & F); [done|cbn in Hn; lia|].
      cbn [mbind res_bind]. by exists kb, st'.
  - rewrite (bool_decide_eq_true_2 (Special = Special)) by done.
    rewrite (bool_decide_eq_false_2 (Special = Regular)) by done. cbn [andb].
    assert (forall c, chars = [c] -> exists kb' st', ('(_, st) ← console_feed polls c st; Ok (kb, st))
      = Ok (kb', st') /\ shiftPressed kb' = shiftPressed kb /\ fed_by l chars st st') as Hfeed.
    { intros c ->. edestruct (feed_one l c st) as (st' & -> & F); [done|cbn in Hn; lia|].
      cbn [mbind res_bind]. by exists kb, st'. }
    repeat case_decide; try done; injection Ea as <- <-;
      repeat match goal with
      | H : ascii k = _ |- _ => rewrite H
      | H : _ \/ _ |- _ => destruct H
      end; cbn; try by apply Hfeed.
    + by eexists _, _.
    + by eexists _, _.
Qed.

Lemma interrupt_ok l sc q kb st shift' chars : kbc_queue (s_io st) = sc :: q -> 0 <= sc < 256 ->
  stdio_ok kbc_keeps l st -> action sc (shiftPressed kb) = Some (shift', chars) ->
  (length (typed st) + length chars <= 4096)%nat ->
  exists kb' st', Keyboard_handleInterrupt polls kb st = Ok (kb', st') /\
    shiftPressed kb' = shift' /\ kbc_queue (s_io st') = q /\ typed st' = typed st ++ (schar <$> chars) /\
    stdio_ok kbc_keeps l st' /\
    forall con, con ∈ l -> screen kbc_keeps st' con =
      (fun v => foldl con_write v (schar <$> chars)) <$> screen kbc_keeps st con.
Proof.
  intros Hq Hsc Ho Ea Hn. unfold Keyboard_handleInterrupt, read_code.
  pose proof (kbc_status (s_io st)) as Hs. destruct (inb 0x64 (s_io st)) as [v s1].
  destruct Hs as [-> Q1]. rewrite bool_decide_eq_false_2 by (by rewrite Hq).
  pose proof (kbc_data sc q s1 ltac:(by rewrite Q1)) as Hd. destruct (inb 0x60 s1) as [v2 s2].
  destruct Hd as [-> Q2]. rewrite (wrap_id 8 sc) by done.
  destruct (code_bits sc Hsc) as [-> ->].
  destruct (code_event_ok l sc kb (with_io st s2) shift' chars) as (kb' & st' & E & S & F); try done.
  { destruct Ho as [A1 A2 A3 A4 A5 A6 A7]. by split. }
  exists kb', st'. split; [exact E|]. split; [exact S|]. destruct F as [F1 F2 F3].
  split; [|split; [exact F2|split; [exact F3|]]].
  - pose proof (ec_io _ _ _ _ _ F1) as Hk. unfold kbc_keeps in Hk. by rewrite Hk.
  - intros con Hc. exact (ec_screen _ _ _ _ _ F1 con Hc).
Qed.

Lemma interrupts_ok l codes rest kb st shift' chars :
  kbc_queue (s_io st) = codes ++ rest -> Forall (fun sc => 0 <= sc < 256) codes ->
  stdio_ok kbc_keeps l st -> actions codes (shiftPressed kb) = Some (shift', chars) ->
  (length (typed st) + length chars <= 4096)%nat ->
  exists kb' st', interrupts polls (length codes) kb st = Ok (kb', st') /\
    shiftPressed kb' = shift' /\ kbc_queue (s_io st') = rest /\
    typed st' = typed st ++ (schar <$> chars) /\ stdio_ok kbc_keeps l st' /\
    forall con, con ∈ l -> screen kbc_keeps st' con =
      (fun v => foldl con_write v (schar <$> chars)) <$> screen kbc_keeps st con.
Proof.
  revert kb st chars. induction codes as [|sc codes IH]; intros kb st chars Hq Hb Ho Ea Hn.
  - cbn in Ea. injection Ea as <- <-. exists kb, st.
    split_and!; try done; [by rewrite app_nil_r|]. intros con _. cbn.
    by destruct (screen kbc_keeps st con).
  - cbn [actions] in Ea. destruct (action sc (shiftPressed kb)) as [[s1 a]|] eqn:E1; [|done].
    cbn in Ea. destruct (actions codes s1) as [[s2 b]|] eqn:E2; [|done]. cbn in Ea.
    injection Ea as -> <-. rewrite length_app in Hn. apply Forall_cons in Hb as [Hsc Hb].
    destruct (interrupt_ok l sc (codes ++ rest) kb st s1 a) as (kb1 & st1 & E & S1 & Q1 & T1 & O1 & V1);
      [done..|lia|]. cbn [length interrupts]. rewrite E. cbn [mbind res_bind].
    destruct (IH kb1 st1 b) as (kb2 & st2 & -> & S2 & Q2 & T2 & O2 & V2); [done..|by rewrite S1| |].
    { rewrite T1, length_app, length_fmap. lia. }
    exists kb2, st2. split_and!; try done.
    + by rewrite T2, T1, fmap_app, app_assoc.
    + intros con Hc. rewrite V2, V1 by done. destruct (screen kbc_keeps st con); [|done].
      cbn. by rewrite fmap_app, foldl_app.
Qed.

(** C27: Typing a text of printable characters, tabs and line feeds, one
    interrupt per code of its keys' presses and releases, feeds the text to the
    console, the tabs, spaces and line feeds twice: every enabled console shows
    it, and it is in the buffer, which [console_getchar] reads from its end, the
    newest character first. *)
Theorem typing l text rest kb st : Forall typeable text -> shiftPressed kb = false ->
  kbc_queue (s_io st) = keys text ++ rest -> stdio_ok kbc_keeps l st ->
  (length (typed st) + length (fed_text text) <= 4096)%nat ->
  exists kb' st', interrupts polls (length (keys text)) kb st = Ok (kb', st') /\
    shiftPressed kb' = false /\ kbc_queue (s_io st') = rest /\ stdio_ok kbc_keeps l st' /\
    (forall con, con ∈ l -> screen kbc_keeps st' con =
       (fun v => foldl con_write v (fed_text text)) <$> screen kbc_keeps st con) /\
    exists st'', read_all polls (length (typed st) + length (fed_text text)) st' =
      Ok (rev (fed_text text) ++ rev (typed st), st'').
Proof.
  intros Ht Hs Hq Ho Hn. destruct (keys_actions text Ht) as (Ha & Hb & Hc). rewrite <- Hs in Ha.
  destruct (interrupts_ok l (keys text) rest kb st (shiftPressed kb) (fed_text text))
    as (kb' & st' & E & S & Q & T & O & V); [done..|]. rewrite Hc in T, V.
  exists kb', st'. split_and!; [done|congruence|done|done|done|].
  destruct (read_all_ok kbc_keeps polls Hpolls l (length (typed st')) st' O) as (st'' & R & _); [done|].
  exists st''. rewrite T, length_app in R. rewrite R. f_equal. f_equal.
  rewrite firstn_all2; [by rewrite rev_app_distr|]. rewrite length_rev, length_app. lia.
Qed.
End typing.

(** ** Everything that happens to the console *)

Inductive event (D : Type) : Type :=
  | EvPutchar (ch : Z)
  | EvFeed (c : Z)
  | EvGetchar
  | EvConsole (item this : loc) (d : D)
  | EvEnable (b : bool) (con : loc)
  | EvKey
  | EvSerial
  | EvEarlyInit
  | EvEarlyDisable.

Arguments EvPutchar {D} ch.
Arguments EvFeed {D} c.
Arguments EvGetchar {D}.
Arguments EvConsole {D} item this d.
Arguments EvEnable {D} b con.
Arguments EvKey {D}.
Arguments EvSerial {D}.
Arguments EvEarlyInit {D}.
Arguments EvEarlyDisable {D}.

Section events.
Context {D io : Type} (keeps : relation io).
Context `{P : Ports io, C : ConsoleDevice D io, L : ConsoleListHead}.
Context `{U : !UartLaws io keeps, CL : !ConsoleLaws D io keeps}.
Context (polls : nat) (Hpolls : (uart_max < polls)%nat).
Implicit Types (kb : keyboard) (st : stdio D io) (l : list loc).

Definition run_event (e : event D) kb st : res (keyboard * stdio D io) :=
  match e with
  | EvPutchar ch => '(_, st) ← console_putchar polls ch st; mret (kb, st)
  | EvFeed c => '(_, st) ← console_feed polls c st; mret (kb, st)
  | EvGetchar => '(_, _, st) ← console_getchar polls [] st; mret (kb, st)
  | EvConsole item this d => pair kb <$> Console_new item this d st
  | EvEnable b con => pair kb <$> set_enabled b con st
  | EvKey => Keyboard_handleInterrupt polls kb st
  | EvSerial => pair kb <$> SerialConsole_handleInterrupt polls st
  | EvEarlyInit =>
      let '(e, s) := EarlySerial_init (s_early st) (s_io st) in
      mret (kb, with_io (with_early st e) s)
  | EvEarlyDisable => mret (kb, with_early st (EarlySerial_disable (s_early st)))
  end.

(** A new console is not on the list and neither is its item. *)
Definition allowed (e : event D) l st : Prop :=
  match e with
  | EvGetchar => typed st <> []
  | EvConsole item this d => s_list st !! item = None /\ this ∉ l /\ con_ok d
  | EvEnable _ con => con ∈ l
  | _ => True
  end.

Definition consoles_after (e : event D) l : list loc :=
  match e with EvConsole _ this _ => l ++ [this] | _ => l end.

(** The key that asks for a panic is next. *)
Definition panic_key st : Prop :=
  exists sc s, read_code (s_io st) = (Some sc, s) /\ sc mod 128 = 0x44.

Lemma stdio_ok_ext l st st' : stdio_ok keeps l st -> s_list st' = s_list st ->
  s_consoles st' = s_consoles st -> same_buffer st st' -> nested st' = nested st ->
  stdio_ok keeps l st'.
Proof.
  intros [A1 A2 A3 A4 A5 A6 A7] El Ec [B1 B2] En. split; try done.
  - destruct A1 as (items & Hr & Hv). exists items. by rewrite El.
  - by rewrite Ec.
  - by rewrite B1.
  - by rewrite B1.
  - by rewrite B2.
  - by rewrite En.
Qed.

Lemma feed_any l c st : stdio_ok keeps l st ->
  exists r st', console_feed polls c st = Ok (r, st') /\ stdio_ok keeps l st'.
Proof.
  intros Ho. destruct (decide (consoleBufferPosition st < consoleBufferSize)) as [Hp|Hp].
  - destruct (feed_room keeps polls Hpolls l c st Ho Hp) as (st' & E & _ & _ & O). by exists 1, st'.
  - pose proof (so_position _ _ _ Ho).
    destruct (feed_full keeps polls Hpolls l c st Ho) as (st' & E & _ & _ & O); [lia|]. by exists 0, st'.
Qed.

(** Every code has a row, only one asks for a panic, and every code can be
    printed. *)
Definition row_ok (sc : Z) : bool :=
  match codes !! Z.to_nat sc with
  | None => false
  | Some k =>
      Bool.eqb (bool_decide (type k = Special) && (ascii k =? F10)) (sc =? 0x44)
      && match printf (put 1 (unknown_text ++ [0]) ∅) 1 [sc] with Ok _ => true | _ => false end
  end.

Lemma rows_ok sc : 0 <= sc < 128 -> row_ok sc = true.
Proof.
  intros Hsc. assert (Forall (fun sc => row_ok sc = true) (seqZ 0 128)) as Ha.
  { apply (bool_decide_unpack _). vm_compute. exact I. }
  rewrite Forall_forall in Ha. apply Ha, elem_of_seqZ. lia.
Qed.

Lemma key_event_ok l isBreak sc kb st : 0 <= sc < 128 -> stdio_ok keeps l st ->
  (exists kb' st', key_event polls isBreak sc kb st = Ok (kb', st') /\ stdio_ok keeps l st') \/
  (sc = 0x44 /\ key_event polls isBreak sc kb st = Panic).
Proof.
  intros Hsc Ho. pose proof (rows_ok sc Hsc) as Hr. unfold row_ok in Hr. unfold key_event.
  destruct (codes !! Z.to_nat sc) as [k|]; [|done]. cbn [deref mbind res_bind].
  apply andb_true_iff in Hr as [Hp Hout]. apply eqb_prop in Hp. rewrite Hp.
  destruct (Z.eqb_spec sc 0x44) as [->|_]; [by right|]. left.
  assert (forall c, exists kb' st', ('(_, st) ← console_feed polls c st; Ok (kb, st)) = Ok (kb', st')
    /\ stdio_ok keeps l st') as Hfeed.
  { intros c. destruct (feed_any l c st Ho) as (r & st' & -> & O). by exists kb, st'. }
  destruct (bool_decide (type k = Regular) && isBreak); [by exists kb, st|].
  destruct (bool_decide (type k = Regular)); [apply Hfeed|].
  destruct (ascii k =? Enter); [apply Hfeed|]. destruct (ascii k =? Space); [apply Hfeed|].
  destruct (ascii k =? Tab); [apply Hfeed|]. destruct (_ || _); [by eexists _, st|].
  destruct (ascii k =? Control); [by eexists _, st|].
  destruct (printf _ 1 [sc]) as [[[m out] r]| | |] eqn:E; try done.
  destruct (print_ok keeps polls Hpolls l _ _ _ _ _ st E Ho) as (st' & -> & _ & _ & O).
  cbn [mbind res_bind]. by eexists _, st'.
Qed.

Lemma Keyboard_ok l kb st : stdio_ok keeps l st ->
  (exists kb' st', Keyboard_handleInterrupt polls kb st = Ok (kb', st') /\ stdio_ok keeps l st') \/
  (panic_key st /\ Keyboard_handleInterrupt polls kb st = Panic).
Proof.
  intros Ho. unfold Keyboard_handleInterrupt, panic_key.
  assert (forall sc s, read_code (s_io st) = (Some sc, s) -> 0 <= sc < 256) as Hb.
  { intros sc s. unfold read_code. destruct (inb 0x64 (s_io st)) as [v s1].
    destruct (_ =? 0); [done|]. destruct (inb 0x60 s1) as [v2 s2]. intros [= <- _].
    by apply (wrap_range 8). }
  destruct (read_code (s_io st)) as [[sc|] s] eqn:Er.
  - specialize (Hb sc s eq_refl). destruct (code_bits sc Hb) as [-> ->].
    destruct (key_event_ok l (Z.testbit sc 7) (sc mod 128) kb (with_io st s)) as [Hok|[Hsc Hp]].
    + by apply Z.mod_pos_bound.
    + by eapply stdio_ok_ext.
    + by left.
    + right. split; [by exists sc, s|done].
  - left. exists kb, (with_io st s). split; [done|]. by eapply stdio_ok_ext.
Qed.

Lemma Serial_ok l st : stdio_ok keeps l st ->
  exists st', SerialConsole_handleInterrupt polls st = Ok st' /\ stdio_ok keeps l st'.
Proof.
  intros Ho. unfold SerialConsole_handleInterrupt. destruct (inb _ (s_io st)) as [iir s].
  destruct (negb _); [|eexists; split; [done|by eapply stdio_ok_ext]].
  cbn [s_io with_io]. destruct (inb _ s) as [c s2].
  assert (stdio_ok keeps l (with_io (with_io st s) s2)) as O1 by (by eapply stdio_ok_ext).
  destruct (schar c =? 13).
  - destruct (feed_any l 10 _ O1) as (r & st' & -> & O). by exists st'.
  - destruct (feed_any l (schar c) _ O1) as (r & st' & -> & O). by exists st'.
Qed.

Lemma Console_new_ok l item this d st : stdio_ok keeps l st -> s_list st !! item = None ->
  this ∉ l -> con_ok d ->
  exists st', Console_new item this d st = Ok st' /\ stdio_ok keeps (l ++ [this]) st'.
Proof.
  intros Ho Hi Ht Hd. pose proof Ho as [A1 A2 A3 A4 A5 A6 A7]. unfold Console_new.
  destruct (registerConsole_spec item this
    (with_consoles st (<[this := Con false d]> (s_consoles st))) l) as (sl & -> & Hr); [|done|].
  { destruct A1 as (items & H1 & H2). by exists items. }
  eexists. split; [done|]. split; cbn [s_consoles consoleBuffer consoleBufferPosition nested with_list
    with_consoles]; try done.
  - apply NoDup_app. split_and!; [done| |apply NoDup_singleton].
    intros con Hc ->%list_elem_of_singleton. done.
  - intros con [Hc| ->%list_elem_of_singleton]%elem_of_app.
    + rewrite lookup_insert_ne by (by intros ->). by apply A3.
    + rewrite lookup_insert_eq. by eexists.
Qed.

Lemma set_enabled_ok l b con st : stdio_ok keeps l st -> con ∈ l ->
  exists st', set_enabled b con st = Ok st' /\ stdio_ok keeps l st'.
Proof.
  intros Ho Hc. pose proof Ho as [A1 A2 A3 A4 A5 A6 A7]. destruct (A3 con Hc) as (c & Ec & Oc).
  unfold set_enabled. rewrite Ec. cbn [deref mbind res_bind]. eexists. split; [done|].
  split; try done. intros con' Hc'. cbn [s_consoles with_consoles].
  destruct (decide (con' = con)) as [->|Hne].
  - rewrite lookup_insert_eq. by eexists.
  - rewrite lookup_insert_ne by done. by apply A3.
Qed.

(** C28: The state of standard input and output stays well typed, and its
    operations do not go wrong: the buffer keeps its 4096 characters and a
    position inside it, the list stays a ring of distinct, working consoles, and
    no call is left nested, whatever is printed, fed, read while there is
    something to read, registered, enabled or interrupts from the keyboard or the
    UART.  Only the key F10 stops the machine. *)
Theorem console_typed (e : event D) l kb st : stdio_ok keeps l st -> allowed e l st ->
  (exists kb' st', run_event e kb st = Ok (kb', st') /\ stdio_ok keeps (consoles_after e l) st') \/
  (e = EvKey /\ panic_key st /\ run_event e kb st = Panic).
Proof.
  intros Ho Ha. destruct e as [ch|c| |item this d|b con| | | |]; cbn [run_event allowed consoles_after] in *.
  - left. destruct (console_putchar_ok keeps polls Hpolls l ch st Ho) as (st' & -> & _ & _ & O).
    by exists kb, st'.
  - left. destruct (feed_any l c st Ho) as (r & st' & -> & O). by exists kb, st'.
  - left. destruct (typed st) as [|c chars _] eqn:Et using rev_ind; [done|].
    destruct (getchar_ok keeps polls Hpolls l [] st chars c Ho Et) as (st' & -> & _ & _ & O).
    by exists kb, st'.
  - left. destruct Ha as (Hi & Ht & Hd).
    destruct (Console_new_ok l item this d st Ho Hi Ht Hd) as (st' & -> & O). by exists kb, st'.
  - left. destruct (set_enabled_ok l b con st Ho Ha) as (st' & -> & O). by exists kb, st'.
  - destruct (Keyboard_ok l kb st Ho) as [Hok|[Hk Hp]]; [by left|by right].
  - left. destruct (Serial_ok l st Ho) as (st' & -> & O). by exists kb, st'.
  - left. unfold EarlySerial_init. destruct (portInitialized (s_early st));
      (eexists _, _; split; [done|]; by eapply stdio_ok_ext).
  - left. eexists _, _. split; [done|]. by eapply stdio_ok_ext.
Qed.
End events.
