(* ===== verification/Machine.v ===== *)
(** * The consoles of the machine

    The VGA console (Vga.v) and the serial console as the console objects of
    Console.v, with what each shows: the first the terminal of Terminal.v, the
    second nothing but bytes on the line.  The drivers' set-up registers their
    handlers with the interrupt lines of Interrupt.v.  The end of the file is a machine with
    a keyboard controller, a UART and a display controller behind its ports. *)

From S2P Require Import Prelude Words Ring CMem Printf Ports Interrupt Terminal Vga Console Keyboard.
From Stdlib Require Import ZArith Lia.
From stdpp Require Import prelude gmap list.

Open Scope Z_scope.

(** ** Console objects *)

(** The fields of a [VgaConsole], or a [SerialConsole], which has none. *)
Inductive device : Type :=
  | DVga (row column : Z) (vram : gmap Z Z)
  | DSerial.

Section devices.
Context {io : Type} (polls : nat) `{P : Ports io}.

(** The virtual method [putChar] of the two classes. *)
Definition device_putChar (ch : Z) (d : device) (s : io) : res (device * io) :=
  match d with
  | DVga row column vram =>
      f ← FrameBuffer_putChar ch (Fb row column (Vga vram s));
      mret (DVga (currentRow f) (currentColumn f) (vramM (fb_screen f)), vga_io (fb_screen f))
  | DSerial => s ← serial_putChar 2 polls ch s; mret (DSerial, s)
  end.

Definition devices : ConsoleDevice device io := {| con_putChar := device_putChar |}.
End devices.

Section laws.
Context {io : Type} (keeps : relation io) `{P : Ports io, T : !CrtController io, U : !UartLaws io keeps}.
Context (polls : nat) (Hpolls : (uart_max < polls)%nat).
Context (keeps_index : forall v s, keeps s (outb VgaIndexPort v s)).
Context (keeps_data : forall v s, keeps s (outb VgaDataPort v s)).
#[local] Existing Instance uart_keeps.

(** The screen of a console on it, with all the memory that scrolling reads. *)
Definition device_ok (d : device) : Prop :=
  match d with
  | DVga row column vram =>
      (forall i, 0 <= i < 2055 -> is_Some (vram !! i)) /\ 0 <= row < 25 /\ 0 <= column < 80
  | DSerial => True
  end.

Definition device_view (d : device) : option term :=
  match d with
  | DVga row column vram =>
      Some (Term (grid 25 80 (fun i => u8 (default 0 (vram !! i)))) (Z.to_nat row) (Z.to_nat column))
  | DSerial => None
  end.

Definition device_write (v : option term) (ch : Z) : option term := tput 25 80 ch <$> v.

Definition io_keeps (w w' : vga io) : Prop := keeps (vga_io w) (vga_io w').

#[local] Instance io_keeps_preorder : PreOrder io_keeps.
Proof. unfold io_keeps. split; [by intros w|]. intros w1 w2 w3 H1 H2. by etrans. Qed.

Lemma for_each_frame {S : Type} (R : relation S) {HR : PreOrder R} (l : list Z)
    (body : Z -> S -> res S) : (forall i s s', body i s = Ok s' -> R s s') ->
  forall s s', for_each l body s = Ok s' -> R s s'.
Proof.
  intros Hb. induction l as [|i l IH]; intros s s' E; cbn [for_each] in E.
  - by apply Ok_inj in E as <-.
  - apply res_bind_ok in E as (s1 & E1 & E). etrans; [exact (Hb _ _ _ E1)|exact (IH _ _ E)].
Qed.

Lemma vram_set_frame i c w w' : vram_set i c w = Ok w' -> io_keeps w w'.
Proof.
  unfold vram_set. intros E. apply res_bind_ok in E as (x & _ & E). apply Ok_inj in E as <-. unfold io_keeps. done.
Qed.

Lemma setCursor_frame r c w w' : setCursor r c w = Ok w' -> io_keeps w w'.
Proof.
  unfold setCursor. intros E. apply Ok_inj in E as <-. unfold io_keeps. cbn [vga_io].
  repeat (etrans; [|apply keeps_index || apply keeps_data]). done.
Qed.

Lemma vga_putChar_frame ch f f' : FrameBuffer_putChar ch f = Ok f' ->
  keeps (vga_io (fb_screen f)) (vga_io (fb_screen f')).
Proof.
  apply (putChar_frame io_keeps).
  - intros ch' r c w x w' E. cbn in E. unfold VgaConsole_putChar, putCharUnlocked in E.
    destruct (_ || _); [by injection E as _ <-|]. apply res_bind_ok in E as (w1 & E1 & E).
    injection E as _ <-. exact (vram_set_frame _ _ _ _ E1).
  - intros r c w w'. apply setCursor_frame.
  - intros w w' E. cbn in E. unfold scrollScreen in E. apply res_bind_ok in E as (w1 & E1 & E).
    transitivity w1; (eapply for_each_frame; [apply _| |eassumption]).
    + intros i s s' Es. unfold scroll_char in Es. apply res_bind_ok in Es as (x & _ & Es).
      exact (vram_set_frame _ _ _ _ Es).
    + intros i s s' Es. exact (vram_set_frame _ _ _ _ Es).
Qed.

(** A console on its screen shows its view. *)
Lemma device_shows row column vram (s : io) t : device_ok (DVga row column vram) ->
  device_view (DVga row column vram) = Some t -> shows t (Fb row column (Vga vram s)).
Proof.
  intros (Hv & Hr & Hc) E. apply Some_inj in E as <-.
  split; cbn [fb_screen t_cells t_row t_col currentRow currentColumn]; [done| |done|lia|lia].
  split; cbn [t_cells t_row t_col]; [apply length_grid|apply grid_columns| |];
    change n_rows with 25%nat || change n_columns with 80%nat; lia.
Qed.

Definition device_laws : ConsoleLaws device io (C := devices polls) keeps.
Proof.
  refine {| con_ok := device_ok; con_view := device_view; con_write := device_write |}.
  intros ch [row column vram|] s Ho; cbn [con_putChar devices device_putChar].
  - destruct (putChar_refines ch _ _ (device_shows row column vram s _ Ho eq_refl))
      as (f & E & [O T' C' R' Co'] & _).
    rewrite E. cbn [mbind res_bind]. eexists _, _. split; [done|]. split; [|split].
    + pose proof (to_row _ _ _ T'). pose proof (to_col _ _ _ T').
      change n_rows with 25%nat in *. change n_columns with 80%nat in *.
      split; [exact O|lia].
    + cbn [device_view device_write fmap option_fmap option_map]. f_equal.
      destruct (tput 25 80 _ _) as [cs r c] eqn:Et.
      change n_rows with 25%nat in *. change n_columns with 80%nat in *.
      rewrite Et in C', R', Co'. cbn in R', Co'. rewrite R', Co', !Nat2Z.id. f_equal. exact C'.
    + exact (vga_putChar_frame _ _ _ E).
  - destruct (serial_putChar_ok keeps polls ch s Hpolls) as (s' & -> & K). cbn [mbind res_bind].
    by exists DSerial, s'.
Defined.
End laws.

(** ** Setting the drivers up *)

Section drivers.
Context {W : Type} `{IC : InterruptController W, DV : Devices W, HT : HandlerTable}.
Implicit Types st : irq_state W.

Definition line_init (irq : Z) (this : loc) st : res (bool * irq_state W) :=
  '(success, st) ← registerHandler irq this st;
  '(_, st) ← enableInterrupt irq st;
  mret (success, st).

Definition line_finalize (irq : Z) (this : loc) st : res (bool * irq_state W) :=
  '(_, st) ← disableInterrupt irq st;
  deregisterHandler irq this st.

Definition Keyboard_init : loc -> irq_state W -> res (bool * irq_state W) := line_init 1.
Definition Keyboard_finalize : loc -> irq_state W -> res (bool * irq_state W) := line_finalize 1.

(** Setting a driver up leaves its handler last on its line, with the line
    enabled at the controller. *)
Lemma line_init_ok devs st irq this w : lines_ok devs st -> a_line irq ->
  fresh_handler devs st this -> controller st <> 0 ->
  controller_enableInterrupt irq (world st) = Ok w ->
  exists st', line_init irq this st = Ok (true, st') /\ world st' = w /\
    lines_ok (set_line devs irq (devs irq ++ [this])) st'.
Proof.
  intros Hok Hi Hf Hc Hw. destruct (registerHandler_spec devs st irq this Hok Hi Hf) as (s & E & Hl).
  unfold line_init. rewrite E. cbn [mbind res_bind]. unfold enableInterrupt.
  cbn [controller world with_handlers]. rewrite (proj2 (Z.eqb_neq _ _)) by done.
  cbn [negb kassert mbind res_bind]. rewrite Hw. cbn [mbind res_bind].
  eexists. split; [done|]. split; [done|]. destruct Hl as [H1 H2 H3 H4 H5]. by split.
Qed.
End drivers.

Definition Com0Irq : Z := 4.

(** The machine of the interrupt lines is the console's state. *)
Section serial_driver.
Context {D io : Type} `{P : Ports io}.
Context `{IC : InterruptController (stdio D io), DV : Devices (stdio D io), HT : HandlerTable}.
Implicit Types st : irq_state (stdio D io).

Definition SerialConsole_init (handler this : loc) st : res (bool * irq_state (stdio D io)) :=
  let w := world st in
  let w := Console.with_early w (EarlySerial_disable (s_early w)) in
  let w := Console.with_io w (uart_setup 1 0 (s_io w)) in
  '(success, st) ← line_init Com0Irq handler (with_world st w);
  w ← Console_enable this (world st);
  mret (success, with_world st w).

Definition SerialConsole_finalize : loc -> irq_state (stdio D io) ->
    res (bool * irq_state (stdio D io)) := line_finalize Com0Irq.
End serial_driver.

(** ** A machine *)

Module Pc.
Record pc : Type := Pc { queue : list Z; busy : bool; sent : list Z; index : Z; regs : Z -> Z }.

(** The UART is busy for one poll after every byte. *)
#[global] Instance pc_ports : Ports pc := {|
  inb := fun port s =>
    if decide (port = 0x64) then (if decide (queue s = []) then 0 else 1, s)
    else if decide (port = 0x60) then
      (default 0 (head (queue s)), Pc (tail (queue s)) (busy s) (sent s) (index s) (regs s))
    else if decide (port = Com0 + LineStatus) then
      (if busy s then 0 else EmptyTransmitterHoldingRegs,
       Pc (queue s) false (sent s) (index s) (regs s))
    else (0, s);
  inl := fun _ s => (0, s);
  outb := fun port v s =>
    if decide (port = Com0 + Data) then Pc (queue s) true (sent s ++ [v]) (index s) (regs s)
    else if decide (port = VgaIndexPort) then Pc (queue s) (busy s) (sent s) v (regs s)
    else if decide (port = VgaDataPort) then
      Pc (queue s) (busy s) (sent s) (index s)
        (fun r => if decide (r = index s) then v else regs s r)
    else s;
  outw := fun _ _ s => s;
  outl := fun _ _ s => s;
|}.

#[global] Instance pc_kbc : Kbc pc.
Proof.
  refine {| kbc_queue := queue |}.
  - intros s. cbv [inb pc_ports]. rewrite decide_True by done. by destruct (queue s).
  - intros sc q s E. cbv [inb pc_ports]. rewrite decide_False, decide_True by done. cbn. by rewrite E.
Defined.

#[global] Instance pc_crt : CrtController pc.
Proof. refine {| crt_index := index; crt := regs |}; intros v s; split; reflexivity || (intros r; reflexivity). Defined.

#[global] Instance pc_uart : UartLaws pc kbc_keeps.
Proof.
  refine {| uart_max := 1; uart_wait := fun s => if busy s then 1%nat else 0%nat |}.
  - intros s. destruct (busy s); lia.
  - unfold kbc_keeps. split; [by intros s|]. intros s1 s2 s3 H1 H2. congruence.
  - intros s. cbv [inb pc_ports]. rewrite !decide_False, decide_True by done. by destruct (busy s).
  - intros v s. reflexivity.
Defined.

#[global] Instance pc_consoles : ConsoleDevice device pc := devices 2.

#[global] Instance pc_console_laws : ConsoleLaws device pc kbc_keeps.
Proof. apply (device_laws kbc_keeps 2); [cbn; lia|intros v s; reflexivity|intros v s; reflexivity]. Defined.

#[global] Instance pc_head : ConsoleListHead := {| consoleList := 16 |}.

(** Two enabled consoles, the display at 1024 and the serial line at 2048. *)
Definition boot (codes : list Z) : stdio device pc := {|
  s_early := Early false true;
  s_list := <[16 := Node 48 32 0]> (<[32 := Node 16 48 1024]> (<[48 := Node 32 16 2048]> ∅));
  s_consoles := <[1024 := Con true (DVga 0 0 (Display.memory 2055))]> (<[2048 := Con true DSerial]> ∅);
  consoleBuffer := replicate 4096 0;
  consoleBufferPosition := 0;
  nested := false;
  s_io := Pc codes false [] 0 (fun _ => 0);
|}.

Lemma polls_ok : (uart_max (io := pc) (keeps := kbc_keeps) < 2)%nat.
Proof. cbn. lia. Qed.

Lemma boot_ok codes : stdio_ok kbc_keeps [1024; 2048] (boot codes).
Proof.
  split; cbn [s_list s_consoles consoleBuffer consoleBufferPosition nested boot].
  - exists [32; 48]. split.
    + split; [|by vm_compute]. apply (bool_decide_unpack _). by vm_compute.
    + repeat constructor.
  - apply (bool_decide_unpack _). by vm_compute.
  - intros con [->|[->|Hc%elem_of_nil]%elem_of_cons]%elem_of_cons; [| |done].
    + eexists. split; [by rewrite lookup_insert_eq|]. split; [|lia].
      intros i Hi. by apply Display.memory_mapped.
    + eexists. split; [by rewrite lookup_insert_ne, lookup_insert_eq|done].
  - by rewrite length_replicate.
  - apply Forall_replicate. unfold is_char. lia.
  - unfold consoleBufferSize. lia.
  - done.
Qed.
End Pc.

(** [Hi!], enter: the keys are pressed on a machine with nothing typed yet. *)
Lemma typing_witness :
  let text := [72; 105; 33; 10] in
  exists kb' st', interrupts 2 (length (keys text)) Keyboard_new (Pc.boot (keys text ++ [])) =
      Ok (kb', st') /\
    shiftPressed kb' = false /\ kbc_queue (s_io st') = [] /\
    stdio_ok kbc_keeps [1024; 2048] st' /\
    (forall con, con ∈ [1024; 2048] -> screen kbc_keeps st' con =
       (fun v => foldl con_write v (fed_text text)) <$> screen kbc_keeps (Pc.boot (keys text ++ [])) con) /\
    exists st'', read_all 2 5 st' = Ok ([10; 10; 33; 105; 72], st'').
Proof.
  intros text. apply (typing 2 Pc.polls_ok [1024; 2048] text [] Keyboard_new (Pc.boot (keys text ++ []))).
  - unfold typeable. repeat constructor; lia.
  - reflexivity.
  - reflexivity.
  - apply Pc.boot_ok.
  - apply (bool_decide_unpack _). vm_compute. exact I.
Defined.

(** A new console on the same machine. *)
Lemma console_typed_witness :
  exists kb' st', run_event 2 (EvConsole 64 4096 DSerial) Keyboard_new (Pc.boot []) = Ok (kb', st') /\
    stdio_ok kbc_keeps [1024; 2048; 4096] st'.
Proof.
  assert (stdio_ok kbc_keeps [1024; 2048] (Pc.boot [])) as Ho by apply Pc.boot_ok.
  destruct (console_typed kbc_keeps 2 Pc.polls_ok (EvConsole 64 4096 DSerial) [1024; 2048]
    Keyboard_new (Pc.boot []) Ho) as [H|[E _]]; [|exact H|discriminate E].
  split; [vm_compute; reflexivity|]. split; [|exact I].
  apply (bool_decide_unpack _). vm_compute. exact I.
Defined.
