(* ===== verification/SpinLock.v ===== *)
(** * Spin locks (X86/SpinLock.cc, X86/SpinLockAtomic.S, Kernel/Mutex.cc)

    Two readings of the same code.  The sequential one gives each routine as a
    function of the lock, the saved interrupt flags and the interrupt enable
    flag of the processor.  The concurrent one splits
    [spinlock_softirq_enter] and [spinlock_softirq_exit] into their memory
    accesses and lets several processors, each with interrupts nested on its
    stack, execute them in any order. *)

From S2P Require Import Prelude.
From Stdlib Require Import ZArith Lia.
From stdpp Require Import prelude list.

Open Scope Z_scope.

(** ** One processor at a time *)

(** [lock cmpxchg %ecx, ( %edx)] with 0 in [eax] and 1 in [ecx]: the value left
    in [eax] and the new lock. *)
Definition cmpxchg (lock : Z) : Z * Z := if lock =? 0 then (0, 1) else (lock, lock).

Definition spinlock_try (lock : Z) : Z * Z := cmpxchg lock.

(** [spinlock_enter] repeats the exchange until it succeeds. *)
Fixpoint spinlock_enter (fuel : nat) (lock : Z) : res (Z * Z) :=
  match fuel with
  | O => NoFuel
  | S fuel =>
      let '(eax, lock) := cmpxchg lock in
      if eax =? 0 then Ok (eax, lock) else spinlock_enter fuel lock
  end.

Definition spinlock_exit (lock : Z) : Z * Z := (lock, 0).

Definition SPINLOCK_STATIC_INITIALIZER : Z := 0.
Definition spinlock_is_held (lock : Z) : bool := negb (lock =? SPINLOCK_STATIC_INITIALIZER).

(** [spinlock_softirq_t], and [Mutex] with [eflagsM] for the flags. *)
Record softirq : Type := Softirq { sl_lock : Z; sl_flags : Z }.

(** [saveLocalInterrupts] and [restoreLocalInterrupts] (X86/X86Cpu.cc). *)
Definition saveLocalInterrupts (eflags_if : bool) : Z := if eflags_if then 1 else 0.
Definition restoreLocalInterrupts (flags : Z) : bool := negb (flags =? 0).

Definition spinlock_softirq_init : softirq := Softirq SPINLOCK_STATIC_INITIALIZER 0.

Definition spinlock_softirq_enter (fuel : nat) (l : softirq) (eflags_if : bool) :
    res (Z * softirq * bool) :=
  let flags := saveLocalInterrupts eflags_if in
  '(ret, lock) ← spinlock_enter fuel (sl_lock l);
  Ok (ret, Softirq lock flags, false).

Definition spinlock_softirq_exit (l : softirq) : Z * softirq * bool :=
  let '(ret, lock) := spinlock_exit (sl_lock l) in
  (ret, Softirq lock (sl_flags l), restoreLocalInterrupts (sl_flags l)).

Definition spinlock_softirq_is_held (l : softirq) : bool := spinlock_is_held (sl_lock l).

Definition Mutex_new : softirq := Softirq SPINLOCK_STATIC_INITIALIZER 0.

Definition Mutex_enter (fuel : nat) (l : softirq) (eflags_if : bool) : res (softirq * bool) :=
  let eflags := saveLocalInterrupts eflags_if in
  '(ret, lock) ← spinlock_enter fuel (sl_lock l);
  kassert (ret =? 0);;
  Ok (Softirq lock eflags, false).

Definition Mutex_tryEnter (l : softirq) : bool * softirq :=
  let '(ret, lock) := spinlock_exit (sl_lock l) in (ret =? 0, Softirq lock (sl_flags l)).

Definition Mutex_exit (l : softirq) : res (softirq * bool) :=
  let '(ret, lock) := spinlock_exit (sl_lock l) in
  let eflags_if := restoreLocalInterrupts (sl_flags l) in
  kassert (ret =? 1);;
  Ok (Softirq lock (sl_flags l), eflags_if).

(** [~Mutex] asserts that the mutex is free. *)
Definition Mutex_delete (l : softirq) : res unit := kassert (negb (spinlock_is_held (sl_lock l))).

(** ** Several processors *)

(** Where a flow of control is in [enter ...; exit]: before [enter], after the
    flags were saved, spinning, in the critical section, in [exit] with the
    lock loaded, and in [exit] with the lock released. *)
Inductive pc : Type :=
  | Idle
  | Saved
  | Spin
  | Critical
  | Leaving (eax : Z)
  | Released.

#[export] Instance pc_eq_dec : EqDecision pc.
Proof. solve_decision. Defined.

(** A flow of control; [entry_if] is the interrupt flag it called [enter] with
    and [old_if] the one its [iret] brings back. *)
Record flow : Type := Flow { f_pc : pc; entry_if : bool; old_if : bool }.

(** A processor runs the first flow; the others are interrupted. *)
Record cpu : Type := Cpu { c_if : bool; c_flow : flow; c_stack : list flow }.

Record sys : Type := Sys { s_lock : Z; s_flags : Z; s_cpus : list cpu }.

Inductive action : Type :=
  | Instr
  | Irq
  | Iret
  | SetIf (b : bool).

Definition at_pc (p : pc) (f : flow) : flow := Flow p (entry_if f) (old_if f).

(** The next memory access of the running flow. *)
Definition instr (lock flags : Z) (c : cpu) : Z * Z * cpu :=
  let f := c_flow c in
  let go p b := Cpu b (at_pc p f) (c_stack c) in
  match f_pc f with
  | Idle => (lock, saveLocalInterrupts (c_if c), Cpu (c_if c) (Flow Saved (c_if c) (old_if f)) (c_stack c))
  | Saved => (lock, flags, go Spin false)
  | Spin =>
      let '(eax, lock) := cmpxchg lock in
      (lock, flags, if eax =? 0 then go Critical (c_if c) else c)
  | Critical => (lock, flags, go (Leaving lock) (c_if c))
  | Leaving _ => (0, flags, go Released (c_if c))
  | Released => (lock, flags, go Idle (restoreLocalInterrupts flags))
  end.

Definition act (a : action) (lock flags : Z) (c : cpu) : option (Z * Z * cpu) :=
  match a with
  | Instr => Some (instr lock flags c)
  | Irq =>
      if c_if c
      then Some (lock, flags, Cpu false (Flow Idle false (c_if c)) (c_flow c :: c_stack c))
      else None
  | Iret =>
      match f_pc (c_flow c), c_stack c with
      | Idle, f :: fs => Some (lock, flags, Cpu (old_if (c_flow c)) f fs)
      | _, _ => None
      end
  | SetIf b =>
      match f_pc (c_flow c) with
      | Idle => Some (lock, flags, Cpu b (c_flow c) (c_stack c))
      | _ => None
      end
  end.

Definition step (i : nat) (a : action) (s : sys) : option sys :=
  c ← s_cpus s !! i;
  '(lock, flags, c) ← act a (s_lock s) (s_flags s) c;
  Some (Sys lock flags (<[i := c]> (s_cpus s))).

Fixpoint run (tr : list (nat * action)) (s : sys) : option sys :=
  match tr with
  | [] => Some s
  | (i, a) :: tr => s ← step i a s; run tr s
  end.

(** [n] processors with interrupts enabled and a free lock. *)
Definition boot (n : nat) : sys := Sys 0 0 (replicate n (Cpu true (Flow Idle true true) [])).

Definition reachable (n : nat) (s : sys) : Prop := exists tr, run tr (boot n) = Some s.

(** ** The invariant *)

Definition holding (c : cpu) : bool :=
  match f_pc (c_flow c) with Critical | Leaving _ => true | _ => false end.

Definition interruptible (f : flow) : Prop := f_pc f = Idle \/ f_pc f = Saved.

Definition cpu_ok (c : cpu) : Prop :=
  Forall interruptible (c_stack c)
  /\ (~ interruptible (c_flow c) -> c_if c = false)
  /\ (forall r, f_pc (c_flow c) = Leaving r -> r = 1).

Definition holders (s : sys) : list cpu := filter (fun c => holding c = true) (s_cpus s).

Definition inv (s : sys) : Prop :=
  Forall cpu_ok (s_cpus s) /\ s_lock s = Z.of_nat (length (holders s)) /\ (length (holders s) <= 1)%nat.

Lemma length_filter_insert (P : cpu -> Prop) `{forall c, Decision (P c)} l i c c' :
  l !! i = Some c ->
  Z.of_nat (length (filter P (<[i := c']> l)))
  = Z.of_nat (length (filter P l)) - Z.b2z (bool_decide (P c)) + Z.b2z (bool_decide (P c')).
Proof.
  revert i; induction l as [|d l IH]; intros [|i] Hi; try done; cbn in Hi.
  - injection Hi as ->. cbn [insert list_insert]. rewrite !filter_cons.
    repeat case_bool_decide; repeat case_decide; cbn [length Z.b2z]; try done; lia.
  - change (<[S i := c']> (d :: l)) with (d :: <[i := c']> l). rewrite !filter_cons.
    specialize (IH i Hi). case_decide; cbn [length]; lia.
Qed.

Lemma bool_decide_true_eq (b : bool) : bool_decide (b = true) = b.
Proof. by destruct b. Qed.

Lemma holders_insert s i c c' l f : s_cpus s !! i = Some c ->
  Z.of_nat (length (holders (Sys l f (<[i := c']> (s_cpus s)))))
  = Z.of_nat (length (holders s)) - Z.b2z (holding c) + Z.b2z (holding c').
Proof.
  intros Hi. unfold holders. cbn. rewrite (length_filter_insert _ _ i c c' Hi).
  by rewrite !bool_decide_true_eq.
Qed.

(** A processor that holds the lock is counted. *)
Lemma holder_counted s i c : s_cpus s !! i = Some c -> holding c = true ->
  (0 < length (holders s))%nat.
Proof.
  intros Hi Hc. assert (c ∈ holders s) as Hin.
  { apply list_elem_of_filter. split; [done|]. by eapply list_elem_of_lookup_2. }
  destruct (holders s); [by apply elem_of_nil in Hin|cbn; lia].
Qed.

(** What one action does to the lock, the processor and its share of the lock. *)
Lemma act_ok a s i c lock flags c' : inv s -> s_cpus s !! i = Some c ->
  act a (s_lock s) (s_flags s) c = Some (lock, flags, c') ->
  cpu_ok c' /\ lock = s_lock s - Z.b2z (holding c) + Z.b2z (holding c') /\ 0 <= lock <= 1.
Proof.
  intros (Hok & Hl & Hle) Hi Ha. pose proof (Forall_lookup_1 _ _ _ _ Hok Hi) as (Hst & Hif & Hr).
  pose proof (holder_counted s i c Hi) as Hcount.
  assert (forall b, holding c = b -> holding c' = b -> lock = s_lock s ->
    lock = s_lock s - Z.b2z (holding c) + Z.b2z (holding c') /\ 0 <= lock <= 1) as Hsame
    by (intros b -> -> ->; lia).
  destruct c as [cif [p e o] stk]. unfold holding, interruptible in *. cbn in *.
  destruct a as [| | |b]; cbn in Ha.
  - unfold instr, cmpxchg in Ha. cbn in Ha. destruct p as [| | | |r|]; cbn in Ha.
    + injection Ha as <- <- <-. split; [|by eapply Hsame].
      split_and!; cbn; [done| |done]. intros []. by right.
    + injection Ha as <- <- <-. split; [|by eapply Hsame]. split_and!; cbn; done.
    + destruct (s_lock s =? 0) eqn:E; zbool; cbn in Ha.
      * injection Ha as <- <- <-. rewrite E. split; [|cbn; lia]. split_and!; cbn; try done.
        intros _. apply Hif. intros [|]; done.
      * rewrite (proj2 (Z.eqb_neq _ _) E) in Ha. injection Ha as <- <- <-.
        split; [by split_and!|by eapply Hsame].
    + injection Ha as <- <- <-. split; [|by eapply Hsame]. specialize (Hcount eq_refl).
      split_and!; cbn; [done| |intros r [= <-]; lia]. intros _. apply Hif. intros [|]; done.
    + injection Ha as <- <- <-. specialize (Hcount eq_refl). split; [|cbn; lia].
      split_and!; cbn; [done| |done]. intros _. apply Hif. intros [|]; done.
    + injection Ha as <- <- <-. split; [|by eapply Hsame]. split_and!; cbn; [done| |done].
      intros []. by left.
  - destruct cif; [|done]. injection Ha as <- <- <-.
    assert (p = Idle \/ p = Saved) as Hp.
    { destruct p; auto; exfalso; assert (true = false) by (apply Hif; intros [|]; done); done. }
    split; [|by destruct Hp; subst p; eapply Hsame].
    split_and!; cbn; [by constructor| |done]. intros []. by left.
  - destruct p; try done. destruct stk as [|f fs]; [done|]. injection Ha as <- <- <-.
    apply Forall_cons in Hst as [Hf Hfs]. unfold holding. cbn.
    split; [split_and!; cbn; [done|by intros []|]|].
    + intros r. by destruct Hf as [-> | ->].
    + destruct Hf as [E|E]; rewrite E; cbn; lia.
  - destruct p; try done. injection Ha as <- <- <-. split; [|by eapply Hsame].
    split_and!; cbn; [done| |done]. intros []. by left.
Qed.

Lemma step_inv i a s s' : inv s -> step i a s = Some s' -> inv s'.
Proof.
  intros Hinv Hs. unfold step in Hs.
  destruct (s_cpus s !! i) as [c|] eqn:Hi; [|done]. cbn in Hs.
  destruct (act a _ _ c) as [[[lock flags] c']|] eqn:Ha; [|done]. cbn in Hs. injection Hs as <-.
  destruct (act_ok a s i c lock flags c' Hinv Hi Ha) as (Hc & El & Hl).
  destruct Hinv as (Hok & E & Hle).
  pose proof (holders_insert s i c c' lock flags Hi) as Hh.
  split_and!; cbn [s_cpus s_lock]; [by apply Forall_insert|lia|lia].
Qed.

Lemma boot_inv n : inv (boot n).
Proof.
  assert (holders (boot n) = []) as E.
  { unfold holders, boot. cbn. induction n as [|n IH]; [done|]. cbn [replicate].
    rewrite filter_cons_False by done. exact IH. }
  split_and!; rewrite ?E; cbn; [|done|lia].
  apply Forall_replicate. split_and!; cbn; [constructor| |done]. intros []. by left.
Qed.

Lemma run_inv tr : forall s s', inv s -> run tr s = Some s' -> inv s'.
Proof.
  induction tr as [|[i a] tr IH]; intros s s' Hs; cbn [run]; [by intros [= <-]|].
  destruct (step i a s) as [s1|] eqn:E; [|done]. apply IH. by eapply step_inv.
Qed.

Lemma reachable_inv n s : reachable n s -> inv s.
Proof. intros [tr Hr]. eapply run_inv, Hr. apply boot_inv. Qed.

Lemma two_holders s i j c d : s_cpus s !! i = Some c -> s_cpus s !! j = Some d ->
  holding c = true -> holding d = true -> i <> j -> (2 <= length (holders s))%nat.
Proof.
  intros Hi Hj Hc Hd Hij.
  pose proof (holders_insert s i c (Cpu false (Flow Idle false false) []) 0 0 Hi) as Hh.
  pose proof (holder_counted (Sys 0 0 (<[i := Cpu false (Flow Idle false false) []]> (s_cpus s))) j d)
    as Hcount. cbn in Hcount. rewrite list_lookup_insert_ne in Hcount by done.
  specialize (Hcount Hj Hd). rewrite Hc in Hh. cbn in Hh. lia.
Qed.

(** ** Contracts *)

(** C30: whatever the processors and their interrupts do, at most one processor
    is between taking and releasing the lock; it runs with interrupts disabled
    and no interrupted flow of control holds the lock; the lock word is 1
    exactly while it is held, [spinlock_exit] always returns 1, and a processor
    that spins in vain waits for another processor, never for itself. *)
Theorem spinlock_exclusion n s (Hr : reachable n s) :
  (forall i j c d, s_cpus s !! i = Some c -> s_cpus s !! j = Some d ->
     holding c = true -> holding d = true -> i = j)
  /\ (forall i c, s_cpus s !! i = Some c ->
       (holding c = true -> c_if c = false /\ s_lock s = 1)
       /\ Forall (fun f => f_pc f = Idle \/ f_pc f = Saved) (c_stack c)
       /\ (forall r, f_pc (c_flow c) = Leaving r -> r = 1))
  /\ (forall i c, s_cpus s !! i = Some c -> f_pc (c_flow c) = Spin -> s_lock s <> 0 ->
       exists j d, i <> j /\ s_cpus s !! j = Some d /\ holding d = true).
Proof.
  apply reachable_inv in Hr as (Hok & Hl & Hle). split_and!.
  - intros i j c d Hi Hj Hc Hd. destruct (decide (i = j)) as [|Hne]; [done|].
    pose proof (two_holders s i j c d Hi Hj Hc Hd Hne). lia.
  - intros i c Hi. destruct (Forall_lookup_1 _ _ _ _ Hok Hi) as (Hst & Hif & Hret).
    split_and!; [|done|done]. intros Hc. pose proof (holder_counted s i c Hi Hc). split; [|lia].
    apply Hif. unfold holding, interruptible in *. intros [E|E]; by rewrite E in Hc.
  - intros i c Hi Hc H0. destruct (holders s) as [|d ds] eqn:E; [cbn in Hl; lia|].
    assert (d ∈ holders s) as Hd by (rewrite E; left).
    apply list_elem_of_filter in Hd as [Hd Hin]. apply list_elem_of_lookup in Hin as [j Hj].
    exists j, d. split_and!; [|done|done]. intros ->. rewrite Hi in Hj. injection Hj as ->.
    unfold holding in Hd. by rewrite Hc in Hd.
Qed.

(** Processor 0 holds the lock, processor 1 spins. *)
Definition contention : list (nat * action) :=
  [(0%nat, Instr); (1%nat, Instr); (0%nat, Instr); (1%nat, Instr); (0%nat, Instr); (1%nat, Instr)].

Lemma spinlock_exclusion_witness :
  exists s, run contention (boot 2) = Some s /\ s_lock s = 1 /\
  exists j d, 1%nat <> j /\ s_cpus s !! j = Some d /\ holding d = true.
Proof.
  eexists. split; [reflexivity|]. split; [reflexivity|].
  destruct (spinlock_exclusion 2 _ (ex_intro _ contention eq_refl)) as (_ & _ & H).
  eapply (H 1%nat); [reflexivity|reflexivity|discriminate].
Defined.

(** Called in sequence, entering and leaving give back the interrupt flag
    and a free lock, for the spin lock and the mutex, and no assertion of the
    mutex fails; entering a lock that is held does not return.  [Mutex::tryEnter]
    does not try to enter: it releases the mutex, held or not. *)
Theorem softirq_roundtrip fuel l b (Hfuel : (0 < fuel)%nat) :
  (sl_lock l = 0 ->
     (exists l1, spinlock_softirq_enter fuel l b = Ok (0, l1, false)
        /\ spinlock_softirq_is_held l1 = true
        /\ spinlock_softirq_exit l1 = (1, Softirq 0 (saveLocalInterrupts b), b))
     /\ (exists l1, Mutex_enter fuel l b = Ok (l1, false)
        /\ Mutex_exit l1 = Ok (Softirq 0 (saveLocalInterrupts b), b)
        /\ Mutex_delete l1 = Panic)
     /\ spinlock_try (sl_lock l) = (0, 1))
  /\ (sl_lock l <> 0 -> spinlock_softirq_enter fuel l b = NoFuel /\ Mutex_enter fuel l b = NoFuel
       /\ spinlock_try (sl_lock l) = (sl_lock l, sl_lock l))
  /\ Mutex_tryEnter l = (bool_decide (sl_lock l = 0), Softirq 0 (sl_flags l)).
Proof.
  destruct l as [lock flags]. cbn [sl_lock sl_flags]. split_and!.
  - intros ->. destruct fuel as [|fuel]; [lia|]. split_and!; [| |done];
      by (eexists; split; [reflexivity|]; destruct b).
  - intros H0.
    assert (forall k, spinlock_enter k lock = NoFuel) as E.
    { intros k. induction k as [|k IH]; [done|]. cbn [spinlock_enter]. unfold cmpxchg.
      rewrite (proj2 (Z.eqb_neq _ _) H0). by rewrite (proj2 (Z.eqb_neq _ _) H0). }
    unfold spinlock_softirq_enter, Mutex_enter, spinlock_try, cmpxchg. cbn [sl_lock].
    rewrite E, (proj2 (Z.eqb_neq _ _) H0). done.
  - unfold Mutex_tryEnter. cbn. f_equal. by case_bool_decide; [apply Z.eqb_eq|apply Z.eqb_neq].
Qed.

Lemma softirq_roundtrip_witness :
  (exists l1, spinlock_softirq_enter 1 spinlock_softirq_init true = Ok (0, l1, false)
     /\ spinlock_softirq_is_held l1 = true
     /\ spinlock_softirq_exit l1 = (1, Softirq 0 1, true))
  /\ Mutex_tryEnter (Softirq 1 0) = (false, Softirq 0 0).
Proof.
  split.
  - destruct (softirq_roundtrip 1 spinlock_softirq_init true ltac:(lia)) as [H _].
    destruct (H eq_refl) as [(l1 & H1 & H2 & H3) _]. exists l1. split_and!; [exact H1|exact H2|exact H3].
  - destruct (softirq_roundtrip 1 (Softirq 1 0) true ltac:(lia)) as (_ & _ & H). exact H.
Defined.

(** The flow of processor 0 is interrupted between saving the flags and
    disabling interrupts, by a handler that uses the same lock. *)
Definition interrupted_entry : list (nat * action) :=
  [(0%nat, Instr); (0%nat, Irq)]
  ++ replicate 6 (0%nat, Instr) ++ [(0%nat, Iret)] ++ replicate 5 (0%nat, Instr).

(** Processor 1 saves its flags, with interrupts disabled, while processor 0 is
    in the critical section. *)
Definition contended_entry : list (nat * action) :=
  [(1%nat, SetIf false)] ++ replicate 3 (0%nat, Instr) ++ [(1%nat, Instr)]
  ++ replicate 3 (0%nat, Instr).

(** The flags are saved in the lock before the lock is taken and before
    interrupts are disabled.  On one processor, an interrupt in between whose
    handler uses the lock leaves the interrupted flow with interrupts disabled
    after [spinlock_softirq_exit] though it entered with them enabled; on two
    processors a waiting one does this to the holder. *)
Theorem softirq_flags_lost :
  (exists s c, run interrupted_entry (boot 1) = Some s /\ s_cpus s !! 0%nat = Some c
     /\ f_pc (c_flow c) = Idle /\ c_stack c = [] /\ entry_if (c_flow c) = true /\ c_if c = false)
  /\ (exists s c, run contended_entry (boot 2) = Some s /\ s_cpus s !! 0%nat = Some c
     /\ f_pc (c_flow c) = Idle /\ c_stack c = [] /\ entry_if (c_flow c) = true /\ c_if c = false).
Proof.
  split; (eexists; eexists; split; [vm_compute; reflexivity|split; [vm_compute; reflexivity|]]);
    vm_compute; auto.
Qed.
