(* ===== verification/Context.v ===== *)
(** * Thread contexts (X86/ThreadContext.cc, X86/Idt.S, X86/GenerateVectors.sh)

    An interrupt pushes the registers of the interrupted thread on its kernel
    stack, where they form an [InterruptFrame]; leaving the interrupt pops a
    frame, of the same or another thread.  [initKernelStack] and
    [initUserStack] build the frame of a thread that has never run.  The stacks
    are 32-bit words at addresses, a multiple of four apart. *)

From S2P Require Import Prelude Words.
From Stdlib Require Import ZArith Lia.
From stdpp Require Import prelude gmap list.

Open Scope Z_scope.

(** ** Constants (Include/X86/Parameters.hh, Include/X86/Processor.hh) *)

Definition KernelCodeSegment : Z := 0x08.
Definition KernelDataSegment : Z := 0x10.
Definition UserCodeSegment : Z := 0x18.
Definition UserDataSegment : Z := 0x20.
Definition UserStackStart : Z := 0xbffffffc.
Definition CodeStart : Z := 0x10000000.

Definition Reserved : Z := Z.shiftl 1 1.
Definition InterruptEnable : Z := Z.shiftl 1 9.

(** [sizeof(InterruptFrame)] and [sizeof(CallFrame)]. *)
Definition sizeof_frame : Z := 72.
Definition sizeof_call : Z := 8.

Abbreviation words := (gmap Z Z) (only parsing).

(** ** Registers *)

Record regs : Type := Regs {
  r_gs : Z; r_fs : Z; r_es : Z; r_ds : Z;
  r_edi : Z; r_esi : Z; r_ebp : Z; r_edx : Z; r_ecx : Z; r_ebx : Z; r_eax : Z;
  r_eip : Z; r_cs : Z; r_eflags : Z; r_esp : Z; r_ss : Z;
}.

(** The privilege level in a code segment selector. *)
Definition is_user (cs : Z) : bool := negb (Z.land cs 3 =? 0).

(** ** Entering and leaving an interrupt *)

Definition push (w : Z) (s : words * Z) : words * Z :=
  let '(m, esp) := s in let esp := u32 (esp - 4) in (<[esp := w]> m, esp).
Fixpoint push_list (ws : list Z) (s : words * Z) : words * Z :=
  match ws with [] => s | w :: ws => push_list ws (push w s) end.

(** The processor pushes an error code for these exceptions ... *)
Definition cpu_error_code (v : Z) : bool := bool_decide (v ∈ [8; 10; 11; 12; 13; 14; 17]).
(** ... and the generated stubs push a zero for all but these. *)
Definition stub_error_code (v : Z) : bool := negb (bool_decide (v ∈ [10; 11; 12; 13; 14; 17])).

(** What the processor pushes; a change of privilege switches to [esp0]. *)
Definition cpu_pushes (v err : Z) (r : regs) : list Z :=
  (if is_user (r_cs r) then [r_ss r; r_esp r] else [])
  ++ [r_eflags r; r_cs r; r_eip r]
  ++ (if cpu_error_code v then [err] else []).

(** The stub of vector [v], then [push_context] of [x86_isr_vector_common]. *)
Definition stub_pushes (v : Z) : list Z := (if stub_error_code v then [0] else []) ++ [v].
Definition push_context (r : regs) : list Z :=
  [r_eax r; r_ebx r; r_ecx r; r_edx r; r_ebp r; r_esi r; r_edi r; r_ds r; r_es r; r_fs r; r_gs r].

(** The stack after the entry code: [x86_isr_dispatcher] gets the pointer.  Its
    argument, its return address and its own frames are below and left out. *)
Definition enter (esp0 v err : Z) (r : regs) (m : words) : words * Z :=
  let esp := if is_user (r_cs r) then esp0 else r_esp r in
  push_list (cpu_pushes v err r ++ stub_pushes v ++ push_context r) (m, esp).

(** The same where only the addresses that [mapped] tells can be written: the
    processor has no other stack to report a fault of its own pushes on, so the
    first push outside stops the machine. *)
Fixpoint push_mapped (mapped : Z -> bool) (ws : list Z) (s : words * Z) : res (words * Z) :=
  match ws with
  | [] => Ok s
  | w :: ws => let s := push w s in if mapped (snd s) then push_mapped mapped ws s else Fault
  end.

Definition enter_mapped (mapped : Z -> bool) (esp0 v err : Z) (r : regs) (m : words)
    : res (words * Z) :=
  let esp := if is_user (r_cs r) then esp0 else r_esp r in
  push_mapped mapped (cpu_pushes v err r ++ stub_pushes v ++ push_context r) (m, esp).

Fixpoint pop_list (n : nat) (m : words) (esp : Z) : res (list Z * Z) :=
  match n with
  | O => Ok ([], esp)
  | S n' =>
      w ← deref (m !! esp);
      '(ws, esp) ← pop_list n' m (u32 (esp + 4));
      Ok (w :: ws, esp)
  end.

(** [pop_context], the error codes dropped, and [iret]; [ss] is the stack
    segment in use, kept when the privilege level stays. *)
Definition resume (ss : Z) (m : words) (esp : Z) : res regs :=
  '(ctx, esp) ← pop_list 11 m esp;
  let esp := u32 (esp + 8) in
  '(ret, esp) ← pop_list 3 m esp;
  match ctx, ret with
  | [gs; fs; es; ds; edi; esi; ebp; edx; ecx; ebx; eax], [eip; cs; eflags] =>
      if is_user cs then
        '(st, _) ← pop_list 2 m esp;
        match st with
        | [esp; ss] => Ok (Regs gs fs es ds edi esi ebp edx ecx ebx eax eip cs eflags esp ss)
        | _ => Fault
        end
      else Ok (Regs gs fs es ds edi esi ebp edx ecx ebx eax eip cs eflags esp ss)
  | _, _ => Fault
  end.

(** ** The first frame of a thread (X86/ThreadContext.cc) *)

Fixpoint write_words (p : Z) (ws : list Z) (m : words) : words :=
  match ws with [] => m | w :: ws => write_words (u32 (p + 4)) ws (<[p := w]> m) end.

(** [frame->arg] and [frame->rip] of the call frame at [top]. *)
Definition call_frame (top arg : Z) (m : words) : words :=
  let frame := u32 (top - sizeof_call) in <[frame := 0]> (<[u32 (frame + 4) := arg]> m).

(** The fields [gs] to [eflags] of an [InterruptFrame]. *)
Definition first_frame (data code main : Z) : list Z :=
  [data; data; data; data; 0x11111111; 0x22222222; 0; 0xdddddddd; 0xcccccccc; 0xbbbbbbbb;
   0xaaaaaaaa; 0; 0; main; code; Z.lor Reserved InterruptEnable].

Definition initKernelStack (top main arg : Z) (m : words) : Z * words :=
  let stack := u32 (top - sizeof_frame + 8 - sizeof_call) in
  let m := call_frame top arg m in
  (stack, write_words stack (first_frame KernelDataSegment KernelCodeSegment main) m).

Definition initUserStack (top main arg : Z) (m : words) : Z * words :=
  let stack := u32 (top - sizeof_frame - sizeof_call) in
  let m := call_frame top arg m in
  let data := Z.lor UserDataSegment 3 in
  (stack, write_words stack
            (first_frame data (Z.lor UserCodeSegment 3) main ++ [Z.lor UserStackStart 3; data]) m).

(** ** Words on a stack *)

Definition words_at (m : words) (p : Z) (l : list Z) : Prop :=
  forall i w, l !! i = Some w -> m !! (p + 4 * Z.of_nat i) = Some w.

Lemma words_at_nil m p : words_at m p [].
Proof. intros i x Hi. by rewrite lookup_nil in Hi. Qed.

Lemma words_at_cons m p w l : words_at m p (w :: l) <-> m !! p = Some w /\ words_at m (p + 4) l.
Proof.
  split.
  - intros H. split.
    + rewrite <-(H 0%nat w) by done. f_equal. lia.
    + intros i x Hi. rewrite <-(H (S i) x) by done. f_equal. lia.
  - intros [H0 H] [|i] x Hi; cbn in Hi.
    + injection Hi as <-. by replace (p + 4 * Z.of_nat 0) with p by lia.
    + rewrite <-(H i x) by done. f_equal. lia.
Qed.

Lemma words_at_app m p l k :
  words_at m p (l ++ k) <-> words_at m p l /\ words_at m (p + 4 * Z.of_nat (length l)) k.
Proof.
  revert p; induction l as [|w l IH]; intros p; cbn [app length].
  - replace (p + 4 * Z.of_nat 0) with p by lia. split; [|by intros [_ ?]].
    split; [apply words_at_nil|done].
  - rewrite !words_at_cons, IH. replace (p + 4 + 4 * Z.of_nat (length l))
      with (p + 4 * Z.of_nat (S (length l))) by lia. tauto.
Qed.

Lemma words_at_frame m m' p l : (forall a, p <= a < p + 4 * Z.of_nat (length l) -> m' !! a = m !! a) ->
  words_at m p l -> words_at m' p l.
Proof.
  intros Hf H i w Hi. rewrite Hf; [by apply H|]. apply lookup_lt_Some in Hi. lia.
Qed.

Lemma pop_list_spec m l : forall p, words_at m p l -> 0 <= p -> p + 4 * Z.of_nat (length l) < 2 ^ 32 ->
  pop_list (length l) m p = Ok (l, p + 4 * Z.of_nat (length l)).
Proof.
  induction l as [|w l IH]; intros p H Hp Hl; cbn [length pop_list].
  - do 2 f_equal. lia.
  - apply words_at_cons in H as [H0 H]. rewrite H0. cbn [deref mbind res_bind]. cbn [length] in Hl.
    rewrite wrap_id by (unfold uint; lia). rewrite IH by (done || lia).
    cbn [mbind res_bind]. do 2 f_equal. lia.
Qed.

Lemma push_list_spec ws : forall m p, 4 * Z.of_nat (length ws) <= p -> p < 2 ^ 32 ->
  let '(m', q) := push_list ws (m, p) in
  q = p - 4 * Z.of_nat (length ws) /\ words_at m' q (reverse ws)
  /\ (forall a, a < q \/ p <= a -> m' !! a = m !! a).
Proof.
  induction ws as [|w ws IH]; intros m p Hp Hp'; cbn [push_list length].
  - split_and!; [lia|apply words_at_nil|done].
  - cbn [length] in Hp. unfold push. rewrite (wrap_id 32) by (unfold uint; lia).
    specialize (IH (<[p - 4 := w]> m) (p - 4) ltac:(lia) ltac:(lia)).
    destruct (push_list ws _) as [m' q]. destruct IH as (-> & Hw & Hf). split_and!.
    + lia.
    + rewrite reverse_cons. apply words_at_app. split; [done|]. rewrite length_reverse.
      apply words_at_cons. split; [|apply words_at_nil].
      rewrite Hf by lia. replace (_ - _ + _) with (p - 4) by lia. apply lookup_insert_eq.
    + intros a Ha. rewrite Hf by lia. rewrite lookup_insert_ne; [done|lia].
Qed.

Lemma push_mapped_ok mapped ws : forall m p, 4 * Z.of_nat (length ws) <= p -> p < 2 ^ 32 ->
  (forall a, p - 4 * Z.of_nat (length ws) <= a < p -> mapped a = true) ->
  push_mapped mapped ws (m, p) = Ok (push_list ws (m, p)).
Proof.
  induction ws as [|w ws IH]; intros m p Hp Hp' Hm; cbn [push_mapped push_list]; [done|].
  cbn [length] in Hp, Hm. unfold push. rewrite (wrap_id 32) by (unfold uint; lia). cbn [snd].
  rewrite Hm by lia. apply IH; [lia|lia|]. intros a Ha. apply Hm. lia.
Qed.

Lemma push_mapped_fault mapped ws i : forall m p, (i < length ws)%nat ->
  4 * Z.of_nat (length ws) <= p -> p < 2 ^ 32 -> mapped (p - 4 * Z.of_nat (S i)) = false ->
  push_mapped mapped ws (m, p) = Fault.
Proof.
  revert i. induction ws as [|w ws IH]; intros i m p Hi Hp Hp' Hm; cbn [length] in *; [lia|].
  cbn [push_mapped]. unfold push. rewrite (wrap_id 32) by (unfold uint; lia). cbn [snd].
  destruct i as [|i].
  - replace (p - 4 * Z.of_nat 1) with (p - 4) in Hm by lia. by rewrite Hm.
  - destruct (mapped (p - 4)); [|done]. apply (IH i); [lia|lia|lia|].
    rewrite <-Hm. f_equal. lia.
Qed.

Lemma write_words_spec ws : forall m p, 0 <= p -> p + 4 * Z.of_nat (length ws) <= 2 ^ 32 ->
  words_at (write_words p ws m) p ws
  /\ (forall a, a < p \/ p + 4 * Z.of_nat (length ws) <= a -> write_words p ws m !! a = m !! a).
Proof.
  induction ws as [|w ws IH]; intros m p Hp Hl; cbn [write_words length] in *.
  - split; [apply words_at_nil|done].
  - destruct (decide (ws = [])) as [->|Hne].
    + split; [|intros a Ha; cbn; by rewrite lookup_insert_ne by lia].
      apply words_at_cons. split; [apply lookup_insert_eq|].
      apply words_at_nil.
    + assert (0 < length ws)%nat by (destruct ws; [done|cbn; lia]).
      rewrite (wrap_id 32) by (unfold uint; lia).
      destruct (IH (<[p := w]> m) (p + 4) ltac:(lia) ltac:(lia)) as [Hw Hf]. split.
      * apply words_at_cons. split; [|done]. rewrite Hf by lia. apply lookup_insert_eq.
      * intros a Ha. rewrite Hf by lia. by rewrite lookup_insert_ne by lia.
Qed.

(** Resuming a frame whose words are known. *)
Lemma resume_spec ss m p gs fs es ds edi esi ebp edx ecx ebx eax n e eip cs eflags rest :
  words_at m p ([gs; fs; es; ds; edi; esi; ebp; edx; ecx; ebx; eax; n; e; eip; cs; eflags] ++ rest) ->
  0 <= p -> p + sizeof_frame < 2 ^ 32 ->
  (is_user cs = true -> length rest = 2%nat) ->
  resume ss m p
  = Ok (Regs gs fs es ds edi esi ebp edx ecx ebx eax eip cs eflags
          (if is_user cs then nth 0 rest 0 else p + 64) (if is_user cs then nth 1 rest 0 else ss)).
Proof.
  unfold sizeof_frame. intros H Hp Hp' Hrest. unfold resume.
  change ([gs; fs; es; ds; edi; esi; ebp; edx; ecx; ebx; eax; n; e; eip; cs; eflags] ++ rest)
    with ([gs; fs; es; ds; edi; esi; ebp; edx; ecx; ebx; eax] ++ [n; e] ++ [eip; cs; eflags] ++ rest) in H.
  apply words_at_app in H as [H1 H]. apply words_at_app in H as [_ H]. apply words_at_app in H as [H2 H3].
  cbn [length] in H2, H3.
  pose proof (pop_list_spec _ _ _ H1 ltac:(lia) ltac:(cbn [length]; lia)) as E1.
  cbn [length] in E1. rewrite E1. cbn [mbind res_bind].
  rewrite (wrap_id 32) by (unfold uint; lia).
  replace (p + 4 * Z.of_nat 11 + 4 * Z.of_nat 2) with (p + 4 * Z.of_nat 11 + 8) in H2, H3 by lia.
  pose proof (pop_list_spec _ _ _ H2 ltac:(lia) ltac:(cbn [length]; lia)) as E2.
  cbn [length] in E2. rewrite E2. cbn [mbind res_bind].
  destruct (is_user cs) eqn:Ecs.
  - destruct rest as [|a [|b [|]]]; try (specialize (Hrest eq_refl); cbn in Hrest; lia).
    pose proof (pop_list_spec _ _ _ H3 ltac:(lia) ltac:(cbn [length]; lia)) as E3.
    cbn [length] in E3. rewrite E3. reflexivity.
  - do 2 f_equal. lia.
Qed.

(** ** Contracts *)

(** The stack that an interrupt of [r] uses. *)
Definition entry_stack (esp0 : Z) (r : regs) : Z := if is_user (r_cs r) then esp0 else r_esp r.

Definition context_words (r : regs) : list Z :=
  [r_gs r; r_fs r; r_es r; r_ds r; r_edi r; r_esi r; r_ebp r; r_edx r; r_ecx r; r_ebx r; r_eax r].

Definition user_words (r : regs) : list Z :=
  if is_user (r_cs r) then [r_esp r; r_ss r] else [].

(** The error code of the frame, pushed by the processor or by the stub. *)
Lemma one_error_code v : v <> 8 -> stub_error_code v = negb (cpu_error_code v).
Proof.
  intros Hv. unfold stub_error_code, cpu_error_code. f_equal. apply bool_decide_ext.
  rewrite (elem_of_cons _ _ 8). tauto.
Qed.

Lemma pushed_frame v err r : v <> 8 ->
  reverse (cpu_pushes v err r ++ stub_pushes v ++ push_context r)
  = context_words r ++ [v; if cpu_error_code v then err else 0; r_eip r; r_cs r; r_eflags r]
    ++ user_words r.
Proof.
  intros Hv. unfold cpu_pushes, stub_pushes, user_words. rewrite one_error_code by done.
  destruct (cpu_error_code v), (is_user (r_cs r)); reflexivity.
Qed.

(** C31: for every vector but 8, what the entry code pushes is what leaving the
    interrupt pops: the interrupted thread gets every register back, its stack
    pointer included, and nothing above its stack pointer or below the frame
    has changed.  For vector 8 the processor and the stub both push an error
    code, and the frame is resumed with the error code as its instruction
    pointer. *)
Theorem context_roundtrip esp0 v err r m ss
  (Hb : 80 <= entry_stack esp0 r) (Hb' : entry_stack esp0 r + 8 < 2 ^ 32)
  (Hss : is_user (r_cs r) = false -> ss = r_ss r) :
  let '(m', frame) := enter esp0 v err r m in
  (v <> 8 ->
     resume ss m' frame = Ok r
     /\ frame = entry_stack esp0 r - (if is_user (r_cs r) then sizeof_frame else 64)
     /\ (forall a, entry_stack esp0 r <= a -> m' !! a = m !! a))
  /\ (v = 8 -> is_user (r_eip r) = false ->
     exists r', resume ss m' frame = Ok r' /\ r_eip r' = err /\ r_cs r' = r_eip r).
Proof.
  unfold enter. fold (entry_stack esp0 r).
  assert (length (cpu_pushes v err r ++ stub_pushes v ++ push_context r) <= 19)%nat as Hlen.
  { rewrite !length_app. unfold cpu_pushes, stub_pushes. rewrite !length_app.
    destruct (is_user _), (cpu_error_code v), (stub_error_code v); cbn; lia. }
  pose proof (push_list_spec (cpu_pushes v err r ++ stub_pushes v ++ push_context r) m
    (entry_stack esp0 r) ltac:(lia) ltac:(lia)) as Hp.
  destruct (push_list _ _) as [m' frame]. destruct Hp as (-> & Hw & Hf). split.
  - intros Hv. rewrite pushed_frame in Hw by done.
    assert (length (cpu_pushes v err r ++ stub_pushes v ++ push_context r)
      = if is_user (r_cs r) then 18%nat else 16%nat) as El.
    { rewrite <-length_reverse, pushed_frame by done. unfold user_words. by destruct (is_user _). }
    rewrite El in *. unfold sizeof_frame. split_and!; [|destruct (is_user _); lia|intros a Ha; apply Hf; by right].
    erewrite (resume_spec ss _ _ _ _ _ _ _ _ _ _ _ _ _ v _ _ _ _ (user_words r));
      [|exact Hw|destruct (is_user _); lia|unfold sizeof_frame; destruct (is_user _); lia|].
    + destruct r as [? ? ? ? ? ? ? ? ? ? ? ? cs ? ? ?]. unfold user_words, entry_stack in *. cbn in *.
      destruct (is_user cs); cbn; do 2 f_equal; [lia|by apply Hss].
    + unfold user_words. by intros ->.
  - intros -> Hk.
    assert (reverse (cpu_pushes 8 err r ++ stub_pushes 8 ++ push_context r)
      = context_words r ++ [8; 0; err; r_eip r; r_cs r] ++ (r_eflags r :: user_words r)) as E
      by (unfold cpu_pushes, user_words; destruct (is_user _); reflexivity).
    rewrite E in Hw.
    assert (length (cpu_pushes 8 err r ++ stub_pushes 8 ++ push_context r)
      = if is_user (r_cs r) then 19%nat else 17%nat) as El.
    { rewrite <-length_reverse, E. unfold user_words. by destruct (is_user _). }
    rewrite El in *. eexists. split; [|split].
    + eapply (resume_spec ss _ _ _ _ _ _ _ _ _ _ _ _ _ 8 0 err (r_eip r) _ (r_eflags r :: user_words r));
        [exact Hw|destruct (is_user (r_cs r)); lia
        |unfold sizeof_frame; destruct (is_user (r_cs r)); lia|by rewrite Hk].
    + done.
    + done.
Qed.

Definition sample_regs (cs esp ss : Z) : regs :=
  Regs ss ss ss ss 1 2 3 4 5 6 7 0x100040 cs 0x202 esp ss.

Lemma context_roundtrip_witness :
  (let '(m, f) := enter 0x9000 14 2 (sample_regs (Z.lor UserCodeSegment 3) 0x5000 0x23) ∅ in
   resume KernelDataSegment m f = Ok (sample_regs (Z.lor UserCodeSegment 3) 0x5000 0x23))
  /\ (let '(m, f) := enter 0x9000 32 0 (sample_regs KernelCodeSegment 0x8000 KernelDataSegment) ∅ in
      resume KernelDataSegment m f = Ok (sample_regs KernelCodeSegment 0x8000 KernelDataSegment)).
Proof.
  split.
  - pose proof (context_roundtrip 0x9000 14 2 (sample_regs (Z.lor UserCodeSegment 3) 0x5000 0x23) ∅
      KernelDataSegment ltac:(discriminate) ltac:(reflexivity) ltac:(discriminate)) as H.
    destruct (enter _ _ _ _ _) as [m f]. destruct H as [H _].
    destruct (H ltac:(discriminate)) as [E _]. exact E.
  - pose proof (context_roundtrip 0x9000 32 0 (sample_regs KernelCodeSegment 0x8000 KernelDataSegment) ∅
      KernelDataSegment ltac:(discriminate) ltac:(reflexivity) ltac:(reflexivity)) as H.
    destruct (enter _ _ _ _ _) as [m f]. destruct H as [H _].
    destruct (H ltac:(discriminate)) as [E _]. exact E.
Defined.

(** The frame of a new kernel thread: it starts at [main] with interrupts
    enabled, as if [main] had been called with [arg] and a null return
    address. *)
Lemma initKernelStack_spec top main arg m ss :
  80 <= top -> top + 8 < 2 ^ 32 ->
  let '(stack, m') := initKernelStack top main arg m in
  stack = top - 72
  /\ resume ss m' stack
     = Ok (Regs KernelDataSegment KernelDataSegment KernelDataSegment KernelDataSegment
             0x11111111 0x22222222 0 0xdddddddd 0xcccccccc 0xbbbbbbbb 0xaaaaaaaa
             main KernelCodeSegment (Z.lor Reserved InterruptEnable) (top - 8) ss)
  /\ m' !! (top - 8) = Some 0 /\ m' !! (top - 4) = Some arg
  /\ (forall a, a < stack \/ top <= a -> m' !! a = m !! a).
Proof.
  intros Ht Ht'. unfold initKernelStack, call_frame, sizeof_frame, sizeof_call.
  rewrite (wrap_id 32 (top - 8)), (wrap_id 32 (top - 8 + 4)), (wrap_id 32 (top - 72 + 8 - 8))
    by (unfold uint; lia).
  replace (top - 72 + 8 - 8) with (top - 72) by lia.
  set (m1 := <[top - 8 := 0]> _).
  destruct (write_words_spec (first_frame KernelDataSegment KernelCodeSegment main) m1 (top - 72)
    ltac:(lia) ltac:(cbn [length first_frame]; lia)) as [Hw Hf]. cbn [length first_frame] in Hf.
  split_and!.
  - done.
  - erewrite (resume_spec ss _ (top - 72) _ _ _ _ _ _ _ _ _ _ _ 0 0 main _ _ []);
      [|exact Hw|lia|unfold sizeof_frame; lia|done].
    change (is_user KernelCodeSegment) with false. cbv iota.
    replace (top - 72 + 64) with (top - 8) by lia. reflexivity.
  - rewrite Hf by lia. apply lookup_insert_eq.
  - rewrite Hf by lia. unfold m1. rewrite lookup_insert_ne by lia.
    replace (top - 8 + 4) with (top - 4) by lia. apply lookup_insert_eq.
  - intros a Ha. rewrite Hf by lia. unfold m1. rewrite !lookup_insert_ne by lia. done.
Qed.
