(* ===== verification/Thread.v ===== *)
(** * Threads, processes and the scheduler

    Kernel/Thread.cc, Kernel/Scheduler.cc, Kernel/Process.cc and Kernel/Job.cc
    over one state, [kernel]: the thread and process objects at their
    addresses and the globals of the three files.  [std::list] is a list,
    [remove] takes out every occurrence.  The spin locks of the original make
    each call one step; [operator new] is the address a constructor is given.
    Printing is left out. *)

From S2P Require Import Prelude Words Ring PageTables MemoryMap Context.
From Stdlib Require Import ZArith Lia String.
From stdpp Require Import prelude gmap list strings.

Open Scope Z_scope.

(** ** Data *)

Inductive Type_ : Type :=
  | UserThread
  | KernelThread
  | InterruptThread.

Inductive State : Type :=
  | Ready
  | Blocked
  | Running.

#[export] Instance Type_eq_dec : EqDecision Type_.
Proof. solve_decision. Defined.
#[export] Instance State_eq_dec : EqDecision State.
Proof. solve_decision. Defined.

Record Job : Type := NewJob { mainM : Z; argM : Z }.

Record Thread : Type := NewThread {
  idM : Z;
  userStackM : Z;
  kernelStackM : Z;
  stateM : State;
  typeM : Type_;
  processM : loc;
  nameM : string;
  onCpuM : Z;
  jobsM : list Job;
}.

(** [contextM] is the page directory of the [ProcessContext] the process owns. *)
Record Process : Type := NewProcess { pidM : Z; contextM : Z; threadsM : list loc }.

(** The globals of Kernel/Scheduler.cc. *)
Record sched : Type := Sched {
  readyList : list loc;
  blockedList : list loc;
  currentThread : loc;
  currentProcess : loc;
}.

Record kernel (M : Type) : Type := Kernel {
  threads : gmap loc Thread;
  nextTid : Z;
  threadList : list loc;
  k_sched : sched;
  kernelProcess : loc;
  processes : gmap loc Process;
  nextPid : Z;
  processList : list loc;
  cr3 : Z;
  tss_esp0 : Z;
  stack_words : gmap Z Z;
  memory : M;
}.

Arguments Kernel {M}.
Arguments threads {M} _.
Arguments nextTid {M} _.
Arguments threadList {M} _.
Arguments k_sched {M} _.
Arguments kernelProcess {M} _.
Arguments processes {M} _.
Arguments nextPid {M} _.
Arguments processList {M} _.
Arguments cr3 {M} _.
Arguments tss_esp0 {M} _.
Arguments stack_words {M} _.
Arguments memory {M} _.

(** What threads need of the memory manager: the success flag and the top of a
    new stack. *)
Class StackMaker (M : Type) := { make_stack : M -> res (bool * Z * M) }.

(** The memory manager panics rather than report failure. *)
Class StackMakerLaws (M : Type) `{StackMaker M} : Prop :=
  make_stack_success (m : M) b top m' : make_stack m = Ok (b, top, m') -> b = true.

#[export] Instance memory_stacks `{KernelImage} : StackMaker mm :=
  {| make_stack := createKernelStack |}.

#[export] Instance memory_stacks_laws `{KernelImage} : StackMakerLaws mm.
Proof.
  intros m b top m' E. cbn in E. unfold createKernelStack in E. by res_inv.
Qed.

(** Where a stack can be written: the pages that the tables map. *)
Class StackMapped (M : Type) := { stack_mapped : M -> Z -> bool }.

#[export] Instance memory_mapped : StackMapped mm := {| stack_mapped m a := isMapped a m |}.

(** The static objects and the two entry points of kernel threads. *)
Class Statics := {
  thread0 : loc;
  idleThread : loc;
  process0 : loc;
  Thread_main : Z;
  Power_onIdle : Z;
}.

Section operations.
Context {M : Type} `{StackMaker M, Statics}.
Implicit Types (k : kernel M) (t p : loc).

Definition with_threads k ts : kernel M :=
  Kernel ts (nextTid k) (threadList k) (k_sched k) (kernelProcess k) (processes k) (nextPid k)
    (processList k) (cr3 k) (tss_esp0 k) (stack_words k) (memory k).
Definition with_sched k s : kernel M :=
  Kernel (threads k) (nextTid k) (threadList k) s (kernelProcess k) (processes k) (nextPid k)
    (processList k) (cr3 k) (tss_esp0 k) (stack_words k) (memory k).
Definition with_threadList k l : kernel M :=
  Kernel (threads k) (nextTid k) l (k_sched k) (kernelProcess k) (processes k) (nextPid k)
    (processList k) (cr3 k) (tss_esp0 k) (stack_words k) (memory k).
Definition with_processes k ps l : kernel M :=
  Kernel (threads k) (nextTid k) (threadList k) (k_sched k) (kernelProcess k) ps (nextPid k)
    l (cr3 k) (tss_esp0 k) (stack_words k) (memory k).
Definition with_cpu k c e : kernel M :=
  Kernel (threads k) (nextTid k) (threadList k) (k_sched k) (kernelProcess k) (processes k)
    (nextPid k) (processList k) c e (stack_words k) (memory k).
Definition with_memory k w m : kernel M :=
  Kernel (threads k) (nextTid k) (threadList k) (k_sched k) (kernelProcess k) (processes k)
    (nextPid k) (processList k) (cr3 k) (tss_esp0 k) w m.

Definition get_thread t k : res Thread := deref (threads k !! t).
Definition set_thread t (th : Thread) k : kernel M := with_threads k (<[t := th]> (threads k)).

(** Assignments to the fields of a thread. *)
Definition set_state (s : State) (th : Thread) : Thread :=
  NewThread (idM th) (userStackM th) (kernelStackM th) s (typeM th) (processM th) (nameM th)
    (onCpuM th) (jobsM th).
Definition set_stacks (user kern : Z) (th : Thread) : Thread :=
  NewThread (idM th) user kern (stateM th) (typeM th) (processM th) (nameM th) (onCpuM th) (jobsM th).
Definition set_owner (p : loc) (name : string) (th : Thread) : Thread :=
  NewThread (idM th) (userStackM th) (kernelStackM th) (stateM th) (typeM th) p name
    (onCpuM th) (jobsM th).
Definition set_jobs (l : list Job) (th : Thread) : Thread :=
  NewThread (idM th) (userStackM th) (kernelStackM th) (stateM th) (typeM th) (processM th)
    (nameM th) (onCpuM th) l.

Definition setKernelStack (stack : Z) (th : Thread) : Thread := set_stacks (userStackM th) stack th.
Definition setRunning (th : Thread) : Thread :=
  NewThread (idM th) (userStackM th) (kernelStackM th) Running (typeM th) (processM th) (nameM th)
    (u32 (onCpuM th + 1)) (jobsM th).
Definition isBlocked (th : Thread) : bool := bool_decide (stateM th = Blocked).

(** ** The scheduler (Kernel/Scheduler.cc) *)

Definition list_remove t (l : list loc) : list loc := filter (fun x => x <> t) l.

Definition Scheduler_insert t k : res (kernel M) :=
  th ← get_thread t k;
  kassert (isBlocked th);;
  let s := k_sched k in
  if isBlocked th
  then Ok (with_sched k (Sched (readyList s) (blockedList s ++ [t]) (currentThread s) (currentProcess s)))
  else Ok (with_sched k (Sched (readyList s ++ [t]) (blockedList s) (currentThread s) (currentProcess s))).

Definition Scheduler_remove t k : res (kernel M) :=
  th ← get_thread t k;
  let s := k_sched k in
  let s := if isBlocked th
    then Sched (readyList s) (list_remove t (blockedList s)) (currentThread s) (currentProcess s)
    else Sched (list_remove t (readyList s)) (blockedList s) (currentThread s) (currentProcess s) in
  let s := if t =? currentThread s
    then Sched (readyList s) (blockedList s) idleThread (currentProcess s) else s in
  Ok (with_sched k s).

Definition Scheduler_setReady t k : res (kernel M) :=
  th ← get_thread t k;
  kassert (isBlocked th);;
  let s := k_sched k in
  if isBlocked th
  then Ok (with_sched (set_thread t (set_state Ready th) k)
             (Sched (readyList s ++ [t]) (list_remove t (blockedList s))
                (currentThread s) (currentProcess s)))
  else Ok k.

(** The interrupted thread goes to the end of its list. *)
Definition requeue k : res sched :=
  let s := k_sched k in
  let lastRunning := currentThread s in
  if negb (lastRunning =? idleThread) then
    th ← get_thread lastRunning k;
    Ok (if isBlocked th
        then Sched (readyList s) (blockedList s ++ [lastRunning]) (currentThread s) (currentProcess s)
        else Sched (readyList s ++ [lastRunning]) (blockedList s) (currentThread s) (currentProcess s))
  else Ok s.

Definition pick (s : sched) : loc * list loc :=
  match readyList s with
  | [] => (idleThread, [])
  | next :: rest => (next, rest)
  end.

Definition schedule k : res (kernel M) :=
  s ← requeue k;
  let '(next, ready) := pick s in
  kassert (negb (next =? 0));;
  th ← get_thread next k;
  let th := setRunning th in
  Ok (with_sched (set_thread next th k) (Sched ready (blockedList s) next (processM th))).

(** ** Threads (Kernel/Thread.cc) *)

Definition Thread_new t (type : Type_) k : kernel M :=
  let th := NewThread (nextTid k) 0 0 Blocked type 0 "" 0 [] in
  Kernel (<[t := th]> (threads k)) (u64 (nextTid k + 1)) (threadList k) (k_sched k)
    (kernelProcess k) (processes k) (nextPid k) (processList k) (cr3 k) (tss_esp0 k)
    (stack_words k) (memory k).

(** The stack of a thread: its top from the memory manager, its first frame. *)
Definition Thread_init t k : res (bool * kernel M) :=
  th ← get_thread t k;
  kassert (2 <? idM th);;
  '(success, top, m) ← make_stack (memory k);
  let k := with_memory (set_thread t (set_stacks (userStackM th) top th) k) (stack_words k) m in
  if negb success then Ok (false, k)
  else
    let '(user, stack, w) :=
      if bool_decide (typeM th = UserThread)
      then let '(stack, w) := initUserStack top CodeStart 0xdeadbabe (stack_words k) in
           (UserStackStart, stack, w)
      else let '(stack, w) := initKernelStack top Thread_main t (stack_words k) in
           (userStackM th, stack, w) in
    let k := with_memory (set_thread t (set_stacks user stack th) k) w (memory k) in
    k ← Scheduler_insert t k;
    Ok (success, with_threadList k (threadList k ++ [t])).

Definition Thread_init0 t (stack : Z) k : res (kernel M) :=
  th ← get_thread t k;
  let th := NewThread 0 (userStackM th) stack Running (typeM th) (kernelProcess k) "Kernel"
              (onCpuM th) (jobsM th) in
  Ok (with_threadList (set_thread t th k) (threadList k ++ [t])).

Definition Thread_initIdle t k : res (bool * kernel M) :=
  th ← get_thread t k;
  '(success, top, m) ← make_stack (memory k);
  let th := NewThread 1 (userStackM th) top Ready (typeM th) (processM th) "Idle"
              (onCpuM th) (jobsM th) in
  if negb success then Ok (false, with_memory (set_thread t th k) (stack_words k) m)
  else
    let '(stack, w) := initKernelStack top Power_onIdle 0 (stack_words k) in
    let th := NewThread 1 (userStackM th) stack Ready (typeM th) (kernelProcess k) "Idle"
                (onCpuM th) (jobsM th) in
    Ok (true, with_threadList (with_memory (set_thread t th k) w m) (threadList k ++ [t])).

Definition createKernelThread t (name : string) k : res (kernel M) :=
  let k := Thread_new t KernelThread k in
  th ← get_thread t k;
  '(_, k) ← Thread_init t (set_thread t (set_owner (kernelProcess k) name th) k);
  Ok k.

Definition createUserThread t p k : res (kernel M) :=
  let k := Thread_new t UserThread k in
  th ← get_thread t k;
  '(_, k) ← Thread_init t (set_thread t (set_owner p (nameM th) th) k);
  Ok k.

(** [~Thread], after which the object is gone. *)
Definition Thread_delete t k : res (kernel M) :=
  k ← Scheduler_remove t (with_threadList k (list_remove t (threadList k)));
  Ok (with_threads k (delete t (threads k))).

Definition addJob t (job : Job) k : res (kernel M) :=
  th ← get_thread t k;
  Scheduler_setReady t (set_thread t (set_jobs (jobsM th ++ [job]) th) k).

(** One round of the inner loop of [Thread::main]: [jobsM.back()] is the job to
    run, [jobsM.pop()] removes the front of the queue. *)
Definition main_take t k : res (option Job * kernel M) :=
  th ← get_thread t k;
  match last (jobsM th) with
  | None => Ok (None, k)
  | Some job => Ok (Some job, set_thread t (set_jobs (tail (jobsM th)) th) k)
  end.

(** With no job left the thread blocks. *)
Definition main_block t k : res (kernel M) :=
  th ← get_thread t k;
  Ok (set_thread t (set_state Blocked th) k).

(** The inner loop, when no job is added while it runs: the jobs in the order
    they are executed. *)
Fixpoint main_loop (fuel : nat) t k : res (list Job * kernel M) :=
  match fuel with
  | O => NoFuel
  | S fuel =>
      '(job, k) ← main_take t k;
      match job with
      | None => k ← main_block t k; Ok ([], k)
      | Some job => '(l, k) ← main_loop fuel t k; Ok (job :: l, k)
      end
  end.

(** ** Processes (Kernel/Process.cc) *)

(** [Process::Process(pd)]; [Process::Process()] passes it a new directory. *)
Definition Process_new p (pd : Z) k : kernel M :=
  Kernel (threads k) (nextTid k) (threadList k) (k_sched k) (kernelProcess k)
    (<[p := NewProcess (nextPid k) pd []]> (processes k)) (u64 (nextPid k + 1))
    (processList k ++ [p]) (cr3 k) (tss_esp0 k) (stack_words k) (memory k).

Definition createThread t p k : res (kernel M) :=
  pr ← deref (processes k !! p);
  k ← createUserThread t p k;
  Ok (with_processes k
        (<[p := NewProcess (pidM pr) (contextM pr) (threadsM pr ++ [t])]> (processes k)) (processList k)).

Fixpoint delete_all (l : list loc) k : res (kernel M) :=
  match l with [] => Ok k | t :: l => k ← Thread_delete t k; delete_all l k end.

Definition Process_delete p k : res (kernel M) :=
  pr ← deref (processes k !! p);
  let k := with_processes k (processes k) (list_remove p (processList k)) in
  k ← delete_all (threadsM pr) k;
  Ok (with_processes k (delete p (processes k)) (processList k)).

(** [ProcessContext::switchContext] loads the page directory. *)
Definition switchContext p k : res (kernel M) :=
  pr ← deref (processes k !! p);
  Ok (with_cpu k (contextM pr) (tss_esp0 k)).

(** [Scheduler::init], with [pd] the kernel's page directory. *)
Definition Scheduler_init (pd : Z) k : res (kernel M) :=
  let k := with_sched k (Sched [] [] 0 0) in
  let k := Process_new process0 pd k in
  let k := Kernel (threads k) (nextTid k) (threadList k) (k_sched k) process0 (processes k)
             (nextPid k) (processList k) (cr3 k) (tss_esp0 k) (stack_words k) (memory k) in
  k ← Thread_init0 thread0 KernelStackStart (Thread_new thread0 KernelThread k);
  let k := with_sched k (Sched (readyList (k_sched k) ++ [thread0]) (blockedList (k_sched k)) 0 0) in
  '(_, k) ← Thread_initIdle idleThread (Thread_new idleThread KernelThread k);
  let s := k_sched k in
  switchContext process0
    (with_sched k (Sched (readyList s) (blockedList s) thread0 process0)).

(** The state before [Scheduler::init]: the counters as they are initialised. *)
Definition before_init (m : M) : kernel M :=
  Kernel ∅ 2 [] (Sched [] [] 0 0) 0 ∅ 0 [] 0 0 ∅ m.
End operations.
