(* ===== verification/Sched.v ===== *)
(** * Scheduling

    The kernel as a state machine over the operations of Thread.v: the events
    that change the scheduler's state, the invariant they keep, and what it
    promises: every thread is in exactly one place, a timer tick never fails,
    and a thread in the ready list is running after as many ticks as there are
    threads in front of it. *)

From S2P Require Import Prelude Words Ring MemoryMap Context Thread.
From Stdlib Require Import ZArith Lia String.
From stdpp Require Import prelude gmap list strings.

Open Scope Z_scope.

(** ** Occurrences in a list *)

Definition occ (l : list loc) (t : loc) : nat := count_occ Z.eq_dec l t.

Lemma occ_app l k t : occ (l ++ k) t = (occ l t + occ k t)%nat.
Proof. apply count_occ_app. Qed.

Lemma occ_cons x l t : occ (x :: l) t = ((if decide (x = t) then 1 else 0) + occ l t)%nat.
Proof. unfold occ. cbn. destruct (Z.eq_dec x t); case_decide; done. Qed.

Lemma occ_nil t : occ [] t = 0%nat.
Proof. done. Qed.

Lemma occ_elem l t : t ∈ l <-> (0 < occ l t)%nat.
Proof. rewrite list_elem_of_In. unfold occ. rewrite (count_occ_In Z.eq_dec). lia. Qed.

Lemma occ_remove x l t : occ (list_remove x l) t = if decide (t = x) then 0%nat else occ l t.
Proof.
  unfold list_remove. induction l as [|y l IH]; [by case_decide|]. rewrite filter_cons.
  rewrite (occ_cons y l). destruct (decide (y <> x)) as [Hy|Hy]; [rewrite occ_cons|]; rewrite IH;
    repeat case_decide; subst; congruence || lia.
Qed.

#[global] Hint Rewrite occ_app occ_cons occ_nil occ_remove : occ.

(** ** Events *)

Inductive event : Type :=
  | Tick
  | AddJob (t : loc) (j : Job)
  | CreateKernel (t : loc) (name : string)
  | CreateProcess (p : loc) (pd : Z)
  | CreateUser (t p : loc)
  | TakeJob
  | BlockSelf
  | Kill (p : loc).

Section events.
Context {M : Type} `{StackMaker M, Statics}.
Implicit Types (k : kernel M) (t p : loc).

Definition cur k : loc := currentThread (k_sched k).

Definition do_event (e : event) k : res (kernel M) :=
  match e with
  | Tick => schedule k
  | AddJob t j => addJob t j k
  | CreateKernel t name => createKernelThread t name k
  | CreateProcess p pd => Ok (Process_new p pd k)
  | CreateUser t p => createThread t p k
  | TakeJob => snd <$> main_take (cur k) k
  | BlockSelf => main_block (cur k) k
  | Kill p => k ← Process_delete p k; schedule k
  end.

(** The callers: jobs are added by a running thread, never to the idle thread
    (Supervisor.cc has the only callers; an [addJob] from an interrupt that
    finds the current thread blocked, but not switched away from yet, is
    outside);
    new objects have new addresses; only threads with a main loop take jobs and
    block; the page fault handler kills the current process. *)
Definition allowed (e : event) k : Prop :=
  match e with
  | Tick => True
  | AddJob t _ => t <> idleThread /\ (forall th, threads k !! cur k = Some th -> stateM th = Running)
  | CreateKernel t _ => t <> 0 /\ threads k !! t = None
  | CreateProcess p _ => processes k !! p = None
  | CreateUser t p => t <> 0 /\ threads k !! t = None /\ p <> kernelProcess k
  | TakeJob | BlockSelf => cur k <> idleThread
  | Kill p => p = currentProcess (k_sched k) /\ p <> kernelProcess k
  end.

Fixpoint run_events (es : list event) k : res (kernel M) :=
  match es with [] => Ok k | e :: es => k ← do_event e k; run_events es k end.

(** Every event of the run is allowed where it happens. *)
Fixpoint all_allowed (es : list event) k : Prop :=
  match es with
  | [] => True
  | e :: es => allowed e k /\ forall k', do_event e k = Ok k' -> all_allowed es k'
  end.

(** ** The invariant *)

Definition slots (s : sched) : list loc := currentThread s :: readyList s ++ blockedList s.

Definition normal t : Prop := t <> thread0 /\ t <> idleThread.

(** Threads are where their states say; [thread0], which [Scheduler::init] puts
    on the ready list while it runs, has up to two places. *)
Record threads_ok (ts : gmap loc Thread) (s : sched) : Prop := {
  ok_live t : (0 < occ (slots s) t)%nat -> is_Some (ts !! t);
  ok_once t : is_Some (ts !! t) -> normal t -> occ (slots s) t = 1%nat;
  ok_zero : (1 <= occ (slots s) thread0 <= 2)%nat;
  ok_idle : occ (readyList s ++ blockedList s) idleThread = 0%nat;
  ok_idle_live : is_Some (ts !! idleThread);
  ok_null : ts !! 0 = None;
  ok_distinct : thread0 <> idleThread;
  ok_waiting t th : ts !! t = Some th -> stateM th = Blocked -> t <> idleThread ->
    t <> currentThread s -> t ∈ blockedList s;
  ok_blocked t th : ts !! t = Some th -> normal t -> t ∈ blockedList s -> stateM th = Blocked;
}.

(** Every thread belongs to a live process, which lists it unless it is the
    kernel's. *)
Record procs_ok (ts : gmap loc Thread) (ps : gmap loc Process) (kp : loc) : Prop := {
  ok_process t th : ts !! t = Some th -> is_Some (ps !! processM th);
  ok_members p pr : ps !! p = Some pr -> p <> kp -> NoDup (threadsM pr) /\
    forall t, t ∈ threadsM pr -> normal t /\ exists th, ts !! t = Some th /\ processM th = p;
  ok_owner t th : ts !! t = Some th -> processM th <> kp ->
    exists pr, ps !! processM th = Some pr /\ t ∈ threadsM pr;
  ok_idle_owner th : ts !! idleThread = Some th -> processM th = kp;
}.

Definition current_ok (ts : gmap loc Thread) (s : sched) : Prop :=
  exists th, ts !! currentThread s = Some th /\ processM th = currentProcess s.

Record kernel_ok k : Prop := {
  ok_threads : threads_ok (threads k) (k_sched k);
  ok_procs : procs_ok (threads k) (processes k) (kernelProcess k);
  ok_current : current_ok (threads k) (k_sched k);
}.

(** ** Ticks *)

Definition requeued (ts : gmap loc Thread) (s : sched) : sched :=
  if decide (currentThread s = idleThread) then s
  else match ts !! currentThread s with
       | Some th =>
           if isBlocked th
           then Sched (readyList s) (blockedList s ++ [currentThread s]) (currentThread s) (currentProcess s)
           else Sched (readyList s ++ [currentThread s]) (blockedList s) (currentThread s) (currentProcess s)
       | None => s
       end.

Lemma requeue_ok k : threads_ok (threads k) (k_sched k) ->
  requeue k = Ok (requeued (threads k) (k_sched k)).
Proof.
  intros Hok. unfold requeue, requeued.
  destruct (decide (currentThread (k_sched k) = idleThread)) as [->|Hne].
  - by rewrite Z.eqb_refl.
  - rewrite (proj2 (Z.eqb_neq _ _) Hne). cbn [negb]. unfold get_thread.
    destruct (ok_live _ _ Hok (currentThread (k_sched k))) as [th ->]; [|done].
    unfold slots. rewrite occ_cons. case_decide; [lia|done].
Qed.

(** Requeueing gives up the current place for one in a list. *)
Lemma requeued_occ ts s t : threads_ok ts s -> t <> idleThread ->
  occ (readyList (requeued ts s) ++ blockedList (requeued ts s)) t = occ (slots s) t.
Proof.
  intros Hok Ht. unfold requeued, slots. case_decide as Ec.
  - rewrite occ_cons, decide_False by congruence. done.
  - destruct (ok_live _ _ Hok (currentThread s)) as [th ->].
    { unfold slots. rewrite occ_cons. case_decide; [lia|done]. }
    destruct (isBlocked th); cbn [readyList blockedList]; autorewrite with occ; lia.
Qed.

Lemma requeued_idle ts s : threads_ok ts s ->
  occ (readyList (requeued ts s) ++ blockedList (requeued ts s)) idleThread = 0%nat.
Proof.
  intros Hok. pose proof (ok_idle _ _ Hok) as Hz. unfold requeued. case_decide as Ec; [done|].
  destruct (ts !! currentThread s) as [th|]; [|done].
  destruct (isBlocked th); cbn [readyList blockedList]; autorewrite with occ in *;
    rewrite decide_False by done; lia.
Qed.

Definition picked (ts : gmap loc Thread) (s : sched) : loc := (pick (requeued ts s)).1.

Lemma pick_occ s t : t <> idleThread ->
  occ ((pick s).1 :: (pick s).2 ++ blockedList s) t = occ (readyList s ++ blockedList s) t.
Proof.
  intros Ht. unfold pick. destruct (readyList s) as [|x l]; cbn [fst snd]; [|done].
  rewrite occ_cons, decide_False by done. done.
Qed.

Lemma picked_live ts s : threads_ok ts s -> is_Some (ts !! picked ts s).
Proof.
  intros Hok. unfold picked, pick. destruct (readyList (requeued ts s)) as [|x l] eqn:E; cbn [fst].
  - apply (ok_idle_live _ _ Hok).
  - destruct (decide (x = idleThread)) as [->|Hx]; [apply (ok_idle_live _ _ Hok)|].
    apply (ok_live _ _ Hok). rewrite <-(requeued_occ ts) by done. rewrite E. cbn [app].
    rewrite occ_cons, decide_True by done. lia.
Qed.

Definition ticked (ts : gmap loc Thread) (s : sched) (th : Thread) : sched :=
  Sched (pick (requeued ts s)).2 (blockedList (requeued ts s)) (picked ts s) (processM th).

Lemma schedule_ok k : threads_ok (threads k) (k_sched k) -> exists th,
  threads k !! picked (threads k) (k_sched k) = Some th
  /\ schedule k = Ok (with_sched (set_thread (picked (threads k) (k_sched k)) (setRunning th) k)
                       (ticked (threads k) (k_sched k) th)).
Proof.
  intros Hok. destruct (picked_live _ _ Hok) as [th Hth]. exists th. split; [done|].
  unfold schedule. rewrite requeue_ok by done. cbn [mbind res_bind]. unfold ticked, picked in *.
  destruct (pick (requeued (threads k) (k_sched k))) as [next rest]. cbn [fst snd] in *.
  rewrite (proj2 (Z.eqb_neq next 0)).
  - cbn [negb kassert mbind res_bind]. unfold get_thread. by rewrite Hth.
  - intros ->. by rewrite (ok_null _ _ Hok) in Hth.
Qed.

Lemma ticked_occ ts s th t : threads_ok ts s -> t <> idleThread ->
  occ (slots (ticked ts s th)) t = occ (slots s) t.
Proof.
  intros Hok Ht. rewrite <-(requeued_occ ts s) by done. rewrite <-pick_occ by done. done.
Qed.

Lemma requeued_blocked ts s t : t ∈ blockedList (requeued ts s) ->
  t ∈ blockedList s \/ t = currentThread s /\ exists th, ts !! t = Some th /\ stateM th = Blocked.
Proof.
  unfold requeued. case_decide; [by left|]. destruct (ts !! currentThread s) as [th|] eqn:E; [|by left].
  unfold isBlocked. case_bool_decide; cbn [blockedList]; [|by left].
  rewrite elem_of_app, list_elem_of_singleton. intros [?| ->]; [by left|]. right. eauto.
Qed.

Lemma ticked_ok ts s th : threads_ok ts s -> ts !! picked ts s = Some th ->
  threads_ok (<[picked ts s := setRunning th]> ts) (ticked ts s th).
Proof.
  intros Hok Hth.
  assert (forall t, is_Some (<[picked ts s := setRunning th]> ts !! t) <-> is_Some (ts !! t)) as Hlive.
  { intros t. rewrite lookup_insert_is_Some'. split; [|by right]. intros [<-|?]; [by eexists|done]. }
  constructor.
  - intros t Ht. apply Hlive. destruct (decide (t = idleThread)) as [->|Hi].
    + apply (ok_idle_live _ _ Hok).
    + rewrite ticked_occ in Ht by done. by apply (ok_live _ _ Hok).
  - intros t Ht Hn. rewrite ticked_occ by (done || apply Hn). by apply (ok_once _ _ Hok); [apply Hlive|].
  - rewrite ticked_occ by (exact Hok || apply (ok_distinct _ _ Hok)). apply (ok_zero _ _ Hok).
  - pose proof (requeued_idle _ _ Hok) as Hz. unfold ticked, pick.
    destruct (readyList (requeued ts s)); cbn [readyList blockedList fst snd] in *;
      autorewrite with occ in *; lia.
  - apply Hlive, (ok_idle_live _ _ Hok).
  - rewrite lookup_insert_ne; [apply (ok_null _ _ Hok)|]. intros E.
    rewrite E, (ok_null _ _ Hok) in Hth. done.
  - apply (ok_distinct _ _ Hok).
  - intros t th' Ht Hb Hi Hne. cbn [ticked currentThread] in Hne.
    rewrite lookup_insert_ne in Ht by done. cbn [ticked blockedList]. unfold requeued.
    destruct (decide (t = currentThread s)) as [->|Hc].
    + rewrite decide_False by done. rewrite Ht. unfold isBlocked. rewrite bool_decide_true by done.
      cbn [blockedList]. set_solver.
    + assert (t ∈ blockedList s) as Hin by (by eapply (ok_waiting _ _ Hok)).
      case_decide; [done|]. destruct (ts !! currentThread s) as [c|]; [|done].
      destruct (isBlocked c); cbn [blockedList]; set_solver.
  - intros t th' Ht Hn Hin. cbn [ticked blockedList] in Hin.
    assert (t <> picked ts s) as Hne.
    { intros ->. assert (occ (slots (ticked ts s th)) (picked ts s) = 1%nat) as E.
      { rewrite ticked_occ by (done || apply Hn). apply (ok_once _ _ Hok); [by eexists|done]. }
      apply occ_elem in Hin. unfold slots in E. rewrite occ_cons, occ_app in E.
      cbn [ticked currentThread blockedList] in E. rewrite decide_True in E by done. lia. }
    rewrite lookup_insert_ne in Ht by done.
    apply requeued_blocked in Hin as [Hin|[-> (c & Hc & Hb)]].
    + by eapply (ok_blocked _ _ Hok).
    + rewrite Ht in Hc. by injection Hc as ->.
Qed.

(** ** The other events *)

(** The invariant looks at the states and the owners of threads only. *)
Lemma threads_ok_ext ts ts' s : (forall t, stateM <$> ts' !! t = stateM <$> ts !! t) ->
  threads_ok ts s -> threads_ok ts' s.
Proof.
  intros Hs Hok.
  assert (forall t, is_Some (ts' !! t) <-> is_Some (ts !! t)) as Hlive
    by (intros t; rewrite <-!(fmap_is_Some stateM); by rewrite Hs).
  assert (forall t th, ts' !! t = Some th -> exists th0, ts !! t = Some th0 /\ stateM th = stateM th0) as Hth.
  { intros t th Ht. specialize (Hs t). rewrite Ht in Hs.
    destruct (ts !! t) as [th0|]; [|done]. injection Hs as E. eauto. }
  constructor.
  - intros t Ht. by apply Hlive, (ok_live _ _ Hok).
  - intros t Ht. by apply (ok_once _ _ Hok), Hlive.
  - apply (ok_zero _ _ Hok).
  - apply (ok_idle _ _ Hok).
  - apply Hlive, (ok_idle_live _ _ Hok).
  - apply eq_None_not_Some. rewrite Hlive, (ok_null _ _ Hok). by intros [? ?].
  - apply (ok_distinct _ _ Hok).
  - intros t th Ht Hb. apply Hth in Ht as (th0 & Ht & E). rewrite E in Hb.
    by eapply (ok_waiting _ _ Hok).
  - intros t th Ht. apply Hth in Ht as (th0 & Ht & ->). by eapply (ok_blocked _ _ Hok).
Qed.

Lemma procs_ok_ext ts ts' ps kp : (forall t, processM <$> ts' !! t = processM <$> ts !! t) ->
  procs_ok ts ps kp -> procs_ok ts' ps kp.
Proof.
  intros Hs Hok.
  assert (forall t th, ts' !! t = Some th -> exists th0, ts !! t = Some th0 /\ processM th = processM th0) as Hth.
  { intros t th Ht. specialize (Hs t). rewrite Ht in Hs.
    destruct (ts !! t) as [th0|]; [|done]. injection Hs as E. eauto. }
  constructor.
  - intros t th Ht. apply Hth in Ht as (th0 & Ht & ->). by eapply (ok_process _ _ _ Hok).
  - intros p pr Hp Hkp. destruct (ok_members _ _ _ Hok p pr Hp Hkp) as [Hnd Hm]. split; [done|].
    intros t Ht. destruct (Hm t Ht) as (Hn & th & Hth' & E). split; [done|].
    specialize (Hs t). rewrite Hth' in Hs. destruct (ts' !! t) as [th1|]; [|done].
    injection Hs as E1. exists th1. split; [done|congruence].
  - intros t th Ht. apply Hth in Ht as (th0 & Ht & ->). by apply (ok_owner _ _ _ Hok).
  - intros th Ht. apply Hth in Ht as (th0 & Ht & ->). by apply (ok_idle_owner _ _ _ Hok).
Qed.

(** Assigning to a field leaves the other projections of the map alone. *)
Lemma fmap_insert_same {A} (f : Thread -> A) (ts : gmap loc Thread) t th th' :
  ts !! t = Some th -> f th' = f th -> forall x, f <$> <[t := th']> ts !! x = f <$> ts !! x.
Proof.
  intros Ht E x. destruct (decide (x = t)) as [->|Hne].
  - rewrite lookup_insert_eq, Ht. cbn. by rewrite E.
  - by rewrite lookup_insert_ne.
Qed.

Lemma current_ok_ext ts ts' s s' : (forall t, processM <$> ts' !! t = processM <$> ts !! t) ->
  currentThread s' = currentThread s -> currentProcess s' = currentProcess s ->
  current_ok ts s -> current_ok ts' s'.
Proof.
  intros Hs Ec Ep (th & Ht & E). unfold current_ok. rewrite Ec, Ep. specialize (Hs (currentThread s)).
  rewrite Ht in Hs. destruct (ts' !! currentThread s) as [th'|]; [|done].
  injection Hs as E'. exists th'. split; [done|congruence].
Qed.

(** A blocked thread that is not current moves to the ready list. *)
Lemma set_ready_ok ts s t th : threads_ok ts s -> ts !! t = Some th -> stateM th = Blocked ->
  t <> idleThread -> t <> currentThread s ->
  threads_ok (<[t := set_state Ready th]> ts)
    (Sched (readyList s ++ [t]) (list_remove t (blockedList s)) (currentThread s) (currentProcess s)).
Proof.
  intros Hok Hth Hb Hi Hc.
  assert (forall x, is_Some (<[t := set_state Ready th]> ts !! x) <-> is_Some (ts !! x)) as Hlive.
  { intros x. rewrite lookup_insert_is_Some'. split; [|by right]. intros [<-|?]; [by eexists|done]. }
  pose proof (ok_waiting _ _ Hok t th Hth Hb Hi Hc) as Hin. apply occ_elem in Hin.
  assert (forall x, x <> t -> occ (slots (Sched (readyList s ++ [t]) (list_remove t (blockedList s))
    (currentThread s) (currentProcess s))) x = occ (slots s) x) as Hother.
  { intros x Hx. unfold slots. cbn [currentThread readyList blockedList]. autorewrite with occ.
    rewrite (decide_False (P := t = x)) by congruence. rewrite (decide_False (P := x = t)) by done. lia. }
  assert (occ (slots (Sched (readyList s ++ [t]) (list_remove t (blockedList s))
    (currentThread s) (currentProcess s))) t = S (occ (readyList s) t)) as Ht.
  { unfold slots. cbn [currentThread readyList blockedList]. autorewrite with occ.
    rewrite (decide_False (P := currentThread s = t)) by congruence.
    rewrite !decide_True by done. lia. }
  assert (occ (slots s) t = (occ (readyList s) t + occ (blockedList s) t)%nat) as Ht0.
  { unfold slots. autorewrite with occ. rewrite decide_False by congruence. lia. }
  constructor; cbn [readyList blockedList currentThread].
  - intros x Hx. apply Hlive. destruct (decide (x = t)) as [->|Hxt]; [by eexists|].
    rewrite Hother in Hx by done. by apply (ok_live _ _ Hok).
  - intros x Hx Hn. apply Hlive in Hx. pose proof (ok_once _ _ Hok x Hx Hn) as E.
    destruct (decide (x = t)) as [->|Hxt]; [lia|by rewrite Hother].
  - pose proof (ok_zero _ _ Hok) as Hz. destruct (decide (thread0 = t)) as [E|Hxt].
    + rewrite E in *. lia.
    + by rewrite Hother.
  - pose proof (ok_idle _ _ Hok) as Hz. autorewrite with occ in *.
    rewrite (decide_False (P := t = idleThread)) by done. case_decide; lia.
  - apply Hlive, (ok_idle_live _ _ Hok).
  - apply eq_None_not_Some. rewrite Hlive, (ok_null _ _ Hok). by intros [? ?].
  - apply (ok_distinct _ _ Hok).
  - intros x xh Hx Hbx Hxi Hxc. destruct (decide (x = t)) as [->|Hxt].
    { rewrite lookup_insert_eq in Hx. by injection Hx as <-. }
    rewrite lookup_insert_ne in Hx by done. apply list_elem_of_filter. split; [done|].
    by eapply (ok_waiting _ _ Hok).
  - intros x xh Hx Hn [Hxt Hxb]%list_elem_of_filter.
    rewrite lookup_insert_ne in Hx by done. by eapply (ok_blocked _ _ Hok).
Qed.

(** A new thread starts on the blocked list. *)
Lemma insert_ok ts s t th : threads_ok ts s -> ts !! t = None -> t <> 0 -> stateM th = Blocked ->
  threads_ok (<[t := th]> ts)
    (Sched (readyList s) (blockedList s ++ [t]) (currentThread s) (currentProcess s)).
Proof.
  intros Hok Hnew H0' Hb.
  assert (t <> thread0 /\ t <> idleThread) as [Ht0 Hti].
  { split; intros ->; [|by destruct (ok_idle_live _ _ Hok); congruence].
    pose proof (ok_zero _ _ Hok). destruct (ok_live _ _ Hok thread0); [lia|congruence]. }
  assert (occ (slots s) t = 0%nat) as Hz.
  { destruct (occ (slots s) t) eqn:E; [done|].
    destruct (ok_live _ _ Hok t); [lia|congruence]. }
  assert (forall x, occ (slots (Sched (readyList s) (blockedList s ++ [t]) (currentThread s)
    (currentProcess s))) x = (occ (slots s) x + if decide (t = x) then 1 else 0)%nat) as Hocc.
  { intros x. unfold slots. cbn [currentThread readyList blockedList]. autorewrite with occ. lia. }
  constructor; cbn [readyList blockedList currentThread].
  - intros x Hx. rewrite Hocc in Hx. destruct (decide (t = x)) as [->|Hne].
    + rewrite lookup_insert_eq. by eexists.
    + rewrite lookup_insert_ne by done. apply (ok_live _ _ Hok). lia.
  - intros x Hx Hn. rewrite Hocc. destruct (decide (t = x)) as [->|Hne]; [lia|].
    rewrite lookup_insert_ne in Hx by done. rewrite (ok_once _ _ Hok) by done. lia.
  - rewrite Hocc, decide_False by done. pose proof (ok_zero _ _ Hok). lia.
  - pose proof (ok_idle _ _ Hok) as Hi. autorewrite with occ in *.
    rewrite decide_False by done. lia.
  - rewrite lookup_insert_ne by done. apply (ok_idle_live _ _ Hok).
  - rewrite lookup_insert_ne by done. apply (ok_null _ _ Hok).
  - apply (ok_distinct _ _ Hok).
  - intros x xh Hx Hbx Hxi Hxc. apply elem_of_app. destruct (decide (t = x)) as [->|Hne].
    + right. by apply list_elem_of_singleton.
    + left. rewrite lookup_insert_ne in Hx by done. by eapply (ok_waiting _ _ Hok).
  - intros x xh Hx Hn Hin. destruct (decide (t = x)) as [->|Hne].
    + rewrite lookup_insert_eq in Hx. by injection Hx as <-.
    + rewrite lookup_insert_ne in Hx by done. apply elem_of_app in Hin as [Hin|Hin].
      * by eapply (ok_blocked _ _ Hok).
      * by apply list_elem_of_singleton in Hin.
Qed.

(** ** Deleting threads *)

Definition removed (ts : gmap loc Thread) (s : sched) t : sched :=
  let s' := match ts !! t with
    | Some th =>
        if isBlocked th
        then Sched (readyList s) (list_remove t (blockedList s)) (currentThread s) (currentProcess s)
        else Sched (list_remove t (readyList s)) (blockedList s) (currentThread s) (currentProcess s)
    | None => s
    end in
  if t =? currentThread s
  then Sched (readyList s') (blockedList s') idleThread (currentProcess s') else s'.

Lemma removed_occ ts s t x : threads_ok ts s -> is_Some (ts !! t) -> normal t -> x <> idleThread ->
  occ (slots (removed ts s t)) x = if decide (x = t) then 0%nat else occ (slots s) x.
Proof.
  intros Hok [th Ht] Hn Hx. unfold removed. rewrite Ht.
  pose proof (ok_once _ _ Hok t ltac:(by eexists) Hn) as Ho.
  assert (isBlocked th = false -> occ (blockedList s) t = 0%nat) as Hnb.
  { intros Hb. destruct (occ (blockedList s) t) eqn:E; [done|]. unfold isBlocked in Hb.
    rewrite bool_decide_eq_false in Hb. exfalso. apply Hb.
    apply (ok_blocked _ _ Hok t th Ht Hn), occ_elem. lia. }
  assert (isBlocked th = true -> t <> currentThread s -> (0 < occ (blockedList s) t)%nat) as Hbl.
  { intros Hb Hc. apply occ_elem. apply (ok_waiting _ _ Hok t th); [done| |apply Hn|done].
    by apply bool_decide_eq_true in Hb. }
  unfold slots in *. autorewrite with occ in Ho.
  destruct (isBlocked th) eqn:Eb, (t =? currentThread s) eqn:Ec; zbool;
    cbn [currentThread readyList blockedList]; autorewrite with occ;
    repeat case_decide; subst; try congruence; try specialize (Hnb eq_refl);
    try specialize (Hbl eq_refl ltac:(done)); try lia; done.
Qed.

Lemma Thread_delete_eq t k : is_Some (threads k !! t) ->
  Thread_delete t k
  = Ok (with_threads (with_sched (with_threadList k (list_remove t (threadList k)))
          (removed (threads k) (k_sched k) t)) (delete t (threads k))).
Proof.
  intros [th Ht]. unfold Thread_delete, Scheduler_remove, get_thread, removed.
  cbn [threads k_sched with_threadList]. rewrite Ht. cbn [deref mbind res_bind].
  destruct (isBlocked th); cbn [currentThread]; by destruct (t =? _).
Qed.

Lemma removed_ok ts s t : threads_ok ts s -> is_Some (ts !! t) -> normal t ->
  threads_ok (delete t ts) (removed ts s t).
Proof.
  intros Hok Hl Hn. destruct Hl as [th Ht].
  assert (is_Some (ts !! t)) as Hl by (by eexists).
  assert (forall x, is_Some (delete t ts !! x) <-> is_Some (ts !! x) /\ x <> t) as Hlive.
  { intros x. rewrite lookup_delete_is_Some. split; intros [? ?]; by split. }
  assert (forall x, x <> t -> x ∈ blockedList s <-> x ∈ blockedList (removed ts s t)) as Hbl.
  { intros x Hx. unfold removed. rewrite Ht. unfold list_remove.
    destruct (isBlocked th), (t =? _); cbn [blockedList]; rewrite ?list_elem_of_filter; tauto. }
  assert (forall x, x <> currentThread (removed ts s t) -> x <> t -> x <> idleThread ->
    x <> currentThread s) as Hcur.
  { intros x. unfold removed. rewrite Ht.
    destruct (isBlocked th), (t =? _) eqn:E; cbn [currentThread]; zbool; congruence. }
  constructor.
  - intros x Hx. destruct (decide (x = idleThread)) as [->|Hi].
    + apply Hlive. split; [apply (ok_idle_live _ _ Hok)|]. intros E. by destruct Hn.
    + rewrite removed_occ in Hx by done. case_decide; [lia|]. apply Hlive.
      split; [|done]. by apply (ok_live _ _ Hok).
  - intros x [Hx Hne]%Hlive Hxn. rewrite removed_occ by (done || apply Hxn).
    rewrite decide_False by done. by apply (ok_once _ _ Hok).
  - rewrite removed_occ by (done || apply (ok_distinct _ _ Hok)).
    rewrite decide_False; [apply (ok_zero _ _ Hok)|]. intros E. by destruct Hn.
  - pose proof (ok_idle _ _ Hok) as Hz. unfold removed. rewrite Ht.
    destruct (isBlocked th), (t =? _); cbn [readyList blockedList]; autorewrite with occ in *;
      case_decide; lia.
  - apply Hlive. split; [apply (ok_idle_live _ _ Hok)|]. intros E. by destruct Hn.
  - apply eq_None_not_Some. rewrite Hlive, (ok_null _ _ Hok). by intros [[? ?] ?].
  - apply (ok_distinct _ _ Hok).
  - intros x xh [Hxt Hx]%lookup_delete_Some Hb Hi Hc.
    apply Hbl; [congruence|]. eapply (ok_waiting _ _ Hok); [done|done|done|]. apply Hcur; congruence.
  - intros x xh [Hxt Hx]%lookup_delete_Some Hxn Hin.
    apply Hbl in Hin; [|congruence]. by eapply (ok_blocked _ _ Hok).
Qed.

Lemma delete_all_ok l : forall k, threads_ok (threads k) (k_sched k) -> NoDup l ->
  (forall t, t ∈ l -> normal t /\ is_Some (threads k !! t)) ->
  exists k', delete_all l k = Ok k' /\ threads_ok (threads k') (k_sched k')
    /\ (forall t, threads k' !! t = if decide (t ∈ l) then None else threads k !! t)
    /\ processes k' = processes k /\ processList k' = processList k
    /\ kernelProcess k' = kernelProcess k /\ cr3 k' = cr3 k
    /\ currentProcess (k_sched k') = currentProcess (k_sched k).
Proof.
  induction l as [|t l IH]; intros k Hok Hnd Hl; cbn [delete_all].
  - exists k. split_and!; done.
  - apply NoDup_cons in Hnd as [Htl Hnd]. destruct (Hl t ltac:(left)) as [Hn Hs].
    rewrite (Thread_delete_eq _ _ Hs). cbn [mbind res_bind].
    destruct (IH (with_threads (with_sched (with_threadList k (list_remove t (threadList k)))
          (removed (threads k) (k_sched k) t)) (delete t (threads k))))
      as (k' & E & Hok' & Hts & Hps & Hpl & Hkp & Hcr & Hcp).
    + by apply removed_ok.
    + done.
    + intros x Hx. destruct (Hl x ltac:(by right)) as [Hxn Hxs]. split; [done|].
      cbn. apply lookup_delete_is_Some. split; [|done]. intros ->. done.
    + exists k'. split_and!; try done; [|].
      * intros x. rewrite Hts. cbn. destruct (decide (x = t)) as [->|Hxt].
        -- rewrite (decide_True (P := t ∈ t :: l)) by left. rewrite lookup_delete_eq.
           by case_decide.
        -- rewrite lookup_delete_ne by done. repeat case_decide; set_solver.
      * rewrite Hcp. cbn. unfold removed. destruct (threads k !! t) as [th|];
          [destruct (isBlocked th)|]; by destruct (t =? _).
Qed.

(** Killing a process takes its threads with it and schedules another. *)
Lemma kill_ok k p : kernel_ok k -> p = currentProcess (k_sched k) -> p <> kernelProcess k ->
  exists k', do_event (Kill p) k = Ok k' /\ kernel_ok k'.
Proof.
  intros [Hok Hps Hcur] Hp Hkp.
  assert (exists pr, processes k !! p = Some pr) as [pr Hpr].
  { destruct Hcur as (th & Ht & E). rewrite Hp, <-E. by apply (ok_process _ _ _ Hps) in Ht as [? ?]; eauto. }
  destruct (ok_members _ _ _ Hps p pr Hpr Hkp) as [Hnd Hm].
  destruct (delete_all_ok (threadsM pr) (with_processes k (processes k) (list_remove p (processList k))))
    as (k' & E & Hok' & Hts & Hps' & _ & Hkp' & _ & _).
  - done.
  - done.
  - intros t Ht. destruct (Hm t Ht) as (Hn & th & Hth & _). split; [done|by eexists].
  - cbn [with_processes threads processes kernelProcess] in *. unfold do_event, Process_delete.
    rewrite Hpr. cbn [deref mbind res_bind]. rewrite E. cbn [mbind res_bind].
    set (k1 := with_processes k' _ _). destruct (schedule_ok k1 Hok') as (th & Hth & Es).
    rewrite Es. eexists. split; [done|].
    assert (procs_ok (threads k') (delete p (processes k')) (kernelProcess k')) as Hprocs.
    { rewrite Hps', Hkp'. assert (forall t th, threads k' !! t = Some th ->
        threads k !! t = Some th /\ t ∉ threadsM pr) as Hold.
      { intros t th'. rewrite Hts. by case_decide. }
      assert (forall t th, threads k' !! t = Some th -> processM th <> p) as Hnp.
      { intros t th' Ht Hq. apply Hold in Ht as [Ht Hnin].
        destruct (ok_owner _ _ _ Hps t th' Ht) as (pr' & Hpr' & Hin); [by rewrite Hq|].
        rewrite Hq, Hpr in Hpr'. by injection Hpr' as ->. }
      constructor.
      - intros t th' Ht. pose proof (Hnp t th' Ht). apply Hold in Ht as [Ht _].
        apply lookup_delete_is_Some. split; [congruence|]. by eapply (ok_process _ _ _ Hps).
      - intros q qr [Hq Hqr]%lookup_delete_Some Hqk.
        destruct (ok_members _ _ _ Hps q qr Hqr Hqk) as [Hqnd Hqm]. split; [done|].
        intros t Ht. destruct (Hqm t Ht) as (Htn & th' & Hth' & Eq). split; [done|].
        exists th'. split; [|done]. rewrite Hts, decide_False; [done|]. intros Hin.
        destruct (Hm t Hin) as (_ & th2 & Hth2 & Ep). congruence.
      - intros t th' Ht Hk'. pose proof (Hnp t th' Ht). apply Hold in Ht as [Ht _].
        destruct (ok_owner _ _ _ Hps t th' Ht Hk') as (qr & Hqr & Hin). exists qr.
        split; [|done]. by rewrite lookup_delete_ne.
      - intros th' Ht. apply Hold in Ht as [Ht _]. by apply (ok_idle_owner _ _ _ Hps). }
    constructor; cbn [with_sched set_thread with_threads threads k_sched processes kernelProcess].
    + by apply ticked_ok.
    + eapply procs_ok_ext, Hprocs. by apply (fmap_insert_same processM _ _ th).
    + exists (setRunning th). cbn [ticked currentThread currentProcess]. split; [|done].
      apply lookup_insert_eq.
Qed.

(** ** Adding jobs, creating and blocking *)

Lemma addJob_ok k t j k' : kernel_ok k -> allowed (AddJob t j) k ->
  do_event (AddJob t j) k = Ok k' -> kernel_ok k'.
Proof.
  intros [Hok Hps Hcur] [Hi Hrun] E. cbn in E. unfold addJob, get_thread in E.
  destruct (threads k !! t) as [th|] eqn:Ht; [|done]. cbn [deref mbind res_bind] in E.
  unfold Scheduler_setReady, get_thread, set_thread in E.
  cbn [with_threads threads k_sched] in E. rewrite lookup_insert_eq in E.
  cbn [deref mbind res_bind] in E. unfold isBlocked in E. cbn [set_jobs stateM] in E.
  case_bool_decide as Hb; [|done]. cbn [kassert mbind res_bind] in E. injection E as <-.
  rewrite insert_insert_eq.
  assert (t <> currentThread (k_sched k)) as Hc.
  { intros ->. specialize (Hrun th Ht). congruence. }
  constructor; cbn [with_sched with_threads threads k_sched processes kernelProcess].
  - pose proof (set_ready_ok (<[t := set_jobs (jobsM th ++ [j]) th]> (threads k)) (k_sched k) t
      (set_jobs (jobsM th ++ [j]) th)) as Hr.
    rewrite insert_insert_eq in Hr. apply Hr; [|apply lookup_insert_eq|exact Hb|exact Hi|exact Hc].
    eapply threads_ok_ext, Hok. by apply (fmap_insert_same stateM _ _ th).
  - eapply procs_ok_ext, Hps. by apply (fmap_insert_same processM _ _ th).
  - eapply current_ok_ext, Hcur; [|done|done]. by apply (fmap_insert_same processM _ _ th).
Qed.

Lemma addJob_state k t j th : threads k !! t = Some th ->
  if isBlocked th then exists k', addJob t j k = Ok k' else addJob t j k = Panic.
Proof.
  intros Ht. unfold addJob, get_thread. rewrite Ht. cbn [deref mbind res_bind].
  unfold Scheduler_setReady, get_thread, set_thread. cbn [with_threads threads].
  rewrite lookup_insert_eq. cbn [deref mbind res_bind].
  change (isBlocked (set_jobs (jobsM th ++ [j]) th)) with (isBlocked th).
  destruct (isBlocked th); cbn; [by eexists|done].
Qed.

(** A new thread object, initialised: blocked, owned by its process, inserted. *)
Lemma Thread_init_ok `{!StackMakerLaws M} k t th b k' : threads k !! t = Some th ->
  stateM th = Blocked -> Thread_init t k = Ok (b, k') ->
  b = true /\ (exists th', threads k' = <[t := th']> (threads k) /\ stateM th' = Blocked
                 /\ processM th' = processM th)
  /\ k_sched k' = Sched (readyList (k_sched k)) (blockedList (k_sched k) ++ [t])
       (currentThread (k_sched k)) (currentProcess (k_sched k))
  /\ processes k' = processes k /\ processList k' = processList k
  /\ kernelProcess k' = kernelProcess k.
Proof.
  intros Ht Hb E. unfold Thread_init, get_thread in E. rewrite Ht in E.
  cbn [deref mbind res_bind] in E.
  destruct (2 <? idM th); [|done]. cbn [kassert mbind res_bind] in E.
  destruct (make_stack (memory k)) as [[[ok top] m]| | |] eqn:Em; try done.
  apply make_stack_success in Em as ->. cbn [mbind res_bind negb] in E.
  unfold Scheduler_insert, get_thread in E.
  destruct (bool_decide (typeM th = UserThread)).
  all: match type of E with context [initUserStack ?a ?b ?c ?d] => destruct (initUserStack a b c d) as [stack w]
       | context [initKernelStack ?a ?b ?c ?d] => destruct (initKernelStack a b c d) as [stack w] end.
  all: cbn [with_memory set_thread with_threads threads k_sched processes processList kernelProcess] in E.
  all: rewrite lookup_insert_eq in E; cbn [deref mbind res_bind] in E.
  all: unfold isBlocked in E; cbn [set_stacks stateM] in E; rewrite Hb in E; cbn in E.
  all: injection E as <- <-; cbn; rewrite insert_insert_eq; split_and!; try done; eauto.
Qed.

Lemma ok_kernel_process ts ps kp s : threads_ok ts s -> procs_ok ts ps kp -> is_Some (ps !! kp).
Proof.
  intros Hok Hps. destruct (ok_idle_live _ _ Hok) as [th Ht].
  rewrite <-(ok_idle_owner _ _ _ Hps th Ht). by apply (ok_process _ _ _ Hps idleThread).
Qed.

Lemma current_insert ts s t th : current_ok ts s -> ts !! t = None ->
  current_ok (<[t := th]> ts) (Sched (readyList s) (blockedList s ++ [t]) (currentThread s) (currentProcess s)).
Proof.
  intros (c & Hc & E) Ht. exists c. split; [|done]. cbn [currentThread].
  rewrite lookup_insert_ne; [done|]. intros ->. congruence.
Qed.

(** A new thread of process [p]; [ps'] lists it if [p] is not the kernel's. *)
Lemma procs_insert ts ps kp t th pr : procs_ok ts ps kp -> ts !! t = None -> normal t ->
  ps !! processM th = Some pr ->
  procs_ok (<[t := th]> ts)
    (if decide (processM th = kp) then ps
     else <[processM th := NewProcess (pidM pr) (contextM pr) (threadsM pr ++ [t])]> ps) kp.
Proof.
  intros Hps Ht Hn Hpr.
  assert (forall p, is_Some (ps !! p) -> is_Some ((if decide (processM th = kp) then ps
     else <[processM th := NewProcess (pidM pr) (contextM pr) (threadsM pr ++ [t])]> ps) !! p)) as Hmono.
  { intros p Hp. case_decide; [done|]. apply lookup_insert_is_Some'. by right. }
  constructor.
  - intros x xh [[<- <-]|[Hx Hxh]]%lookup_insert_Some; apply Hmono; [by eexists|].
    by apply (ok_process _ _ _ Hps x).
  - intros p q Hp Hkp.
    assert (forall x, x <> t -> (exists xh, ts !! x = Some xh /\ processM xh = p) ->
      exists xh, <[t := th]> ts !! x = Some xh /\ processM xh = p) as Hkeep.
    { intros x Hx (xh & Hxh & E). exists xh. by rewrite lookup_insert_ne. }
    assert (forall q0 x, ps !! p = Some q0 -> x ∈ threadsM q0 -> x <> t) as Hnt.
    { intros q0 x Hq0 Hx ->. destruct (ok_members _ _ _ Hps p q0 Hq0 Hkp) as [_ Hm].
      destruct (Hm t Hx) as (_ & xh & Hxh & _). congruence. }
    assert (ps !! p = Some q \/ p = processM th /\ q = NewProcess (pidM pr) (contextM pr) (threadsM pr ++ [t]))
      as [Hq|[-> ->]].
    { case_decide; [by left|]. apply lookup_insert_Some in Hp as [[<- <-]|[_ Hq]]; [by right|by left]. }
    + destruct (ok_members _ _ _ Hps p q Hq Hkp) as [Hnd Hm]. split; [done|]. intros x Hx.
      destruct (Hm x Hx) as [Hxn Hxo]. split; [done|]. apply Hkeep; [by eapply Hnt|done].
    + destruct (ok_members _ _ _ Hps _ pr Hpr Hkp) as [Hnd Hm]. cbn [threadsM]. split.
      * apply NoDup_app. split_and!; [done| |apply NoDup_singleton].
        intros x Hx ->%list_elem_of_singleton. by apply (Hnt pr t).
      * intros x [Hx| ->%list_elem_of_singleton]%elem_of_app.
        -- destruct (Hm x Hx) as [Hxn Hxo]. split; [done|]. apply Hkeep; [by apply (Hnt pr)|done].
        -- split; [done|]. exists th. by rewrite lookup_insert_eq.
  - intros x xh [[<- <-]|[Hx Hxh]]%lookup_insert_Some Hk.
    + rewrite decide_False by done. eexists. split; [apply lookup_insert_eq|]. cbn. set_solver.
    + destruct (ok_owner _ _ _ Hps x xh Hxh Hk) as (q & Hq & Hin). case_decide; [by eauto|].
      destruct (decide (processM th = processM xh)) as [E|Hne].
      * rewrite <-E, lookup_insert_eq. rewrite <-E, Hpr in Hq. injection Hq as <-.
        eexists. split; [done|]. cbn. set_solver.
      * rewrite lookup_insert_ne by done. by eauto.
  - intros xh [[E _]|[_ Hxh]]%lookup_insert_Some; [by destruct Hn|].
    by apply (ok_idle_owner _ _ _ Hps).
Qed.

Lemma new_normal ts s t : threads_ok ts s -> ts !! t = None -> normal t.
Proof.
  intros Hok Hnew. split; intros ->; [|by destruct (ok_idle_live _ _ Hok); congruence].
  pose proof (ok_zero _ _ Hok). destruct (ok_live _ _ Hok thread0); [lia|congruence].
Qed.

Lemma createKernel_ok `{!StackMakerLaws M} k t name k' : kernel_ok k -> allowed (CreateKernel t name) k ->
  do_event (CreateKernel t name) k = Ok k' -> kernel_ok k'.
Proof.
  intros [Hok Hps Hcur] [Ht0 Hnew] E. cbn in E. unfold createKernelThread, get_thread in E.
  cbn [Thread_new threads] in E. rewrite lookup_insert_eq in E. cbn [deref mbind res_bind] in E.
  destruct (Thread_init _ _) as [[b k1]| | |] eqn:Ei; try done. cbn in E. injection E as <-.
  eapply Thread_init_ok in Ei; [|apply lookup_insert_eq|done].
  destruct Ei as (_ & (th' & Hts & Hb & Hpm) & Hs & Hp & _ & Hkp).
  cbn in Hts, Hs, Hp, Hkp, Hpm. rewrite !insert_insert_eq in Hts.
  destruct (ok_kernel_process _ _ _ _ Hok Hps) as [pr Hpr].
  constructor; rewrite ?Hts, ?Hs, ?Hp, ?Hkp.
  - by apply insert_ok.
  - pose proof (procs_insert _ _ _ t th' pr Hps Hnew (new_normal _ _ _ Hok Hnew)) as Hi.
    rewrite Hpm in Hi. specialize (Hi Hpr). by rewrite decide_True in Hi.
  - by apply current_insert.
Qed.

Lemma createUser_ok `{!StackMakerLaws M} k t p k' : kernel_ok k -> allowed (CreateUser t p) k ->
  do_event (CreateUser t p) k = Ok k' -> kernel_ok k'.
Proof.
  intros [Hok Hps Hcur] (Ht0 & Hnew & Hpk) E. cbn in E. unfold createThread, createUserThread, get_thread in E.
  destruct (processes k !! p) as [pr|] eqn:Hpr; [|done]. cbn [deref mbind res_bind] in E.
  cbn [Thread_new threads] in E. rewrite lookup_insert_eq in E. cbn [deref mbind res_bind] in E.
  destruct (Thread_init _ _) as [[b k1]| | |] eqn:Ei; try done. cbn in E. injection E as <-.
  eapply Thread_init_ok in Ei; [|apply lookup_insert_eq|done].
  destruct Ei as (_ & (th' & Hts & Hb & Hpm) & Hs & Hp & _ & Hkp).
  cbn in Hts, Hs, Hp, Hkp, Hpm. rewrite !insert_insert_eq in Hts.
  constructor; cbn [with_processes threads k_sched processes kernelProcess]; rewrite ?Hts, ?Hs, ?Hp, ?Hkp.
  - by apply insert_ok.
  - pose proof (procs_insert _ _ _ t th' pr Hps Hnew (new_normal _ _ _ Hok Hnew)) as Hi.
    rewrite Hpm in Hi. specialize (Hi Hpr). by rewrite decide_False in Hi.
  - by apply current_insert.
Qed.

Lemma event_ok `{!StackMakerLaws M} e k k' : kernel_ok k -> allowed e k ->
  do_event e k = Ok k' -> kernel_ok k'.
Proof.
  intros Hk Ha E. destruct e as [|t j|t name|p pd|t p| | |p].
  - destruct Hk as [Hok Hps Hcur]. destruct (schedule_ok k Hok) as (th & Hth & Es).
    cbn in E. rewrite Es in E. injection E as <-. constructor; cbn.
    + by apply ticked_ok.
    + eapply procs_ok_ext, Hps. by apply (fmap_insert_same processM _ _ th).
    + exists (setRunning th). cbn. split; [apply lookup_insert_eq|done].
  - by eapply addJob_ok.
  - by eapply createKernel_ok.
  - destruct Hk as [Hok Hps Hcur]. cbn in E, Ha. injection E as <-. constructor; cbn; [done| |done].
    constructor.
    + intros t th Ht. apply lookup_insert_is_Some'. right. by apply (ok_process _ _ _ Hps t).
    + intros q qr [[<- <-]|[_ Hq]]%lookup_insert_Some Hkq; [|by apply (ok_members _ _ _ Hps)].
      split; [constructor|]. intros t Ht. by apply elem_of_nil in Ht.
    + intros t th Ht Hkt. destruct (ok_owner _ _ _ Hps t th Ht Hkt) as (qr & Hq & Hin).
      exists qr. split; [|done]. rewrite lookup_insert_ne; [done|]. intros ->. congruence.
    + apply (ok_idle_owner _ _ _ Hps).
  - by eapply createUser_ok.
  - destruct Hk as [Hok Hps Hcur]. cbn in E. unfold main_take, get_thread in E.
    destruct (threads k !! cur k) as [th|] eqn:Ht; [|done]. cbn [deref mbind res_bind] in E.
    destruct (last (jobsM th)); cbn in E; injection E as <-; [|done].
    constructor; cbn; [eapply threads_ok_ext, Hok|eapply procs_ok_ext, Hps|eapply current_ok_ext, Hcur; [|done|done]];
      by apply (fmap_insert_same _ _ _ th).
  - destruct Hk as [Hok Hps Hcur]. cbn in E, Ha. unfold main_block, get_thread in E.
    destruct (threads k !! cur k) as [th|] eqn:Ht; [|done]. cbn in E. injection E as <-.
    constructor; cbn; [|eapply procs_ok_ext, Hps|eapply current_ok_ext, Hcur; [|done|done]];
      [|by apply (fmap_insert_same _ _ _ th)..].
    assert (forall x, is_Some (<[cur k := set_state Blocked th]> (threads k) !! x) <-> is_Some (threads k !! x)) as Hlive.
    { intros x. rewrite lookup_insert_is_Some'. split; [|by right]. intros [<-|?]; [by eexists|done]. }
    constructor.
    + intros x Hx. by apply Hlive, (ok_live _ _ Hok).
    + intros x Hx. by apply (ok_once _ _ Hok), Hlive.
    + apply (ok_zero _ _ Hok).
    + apply (ok_idle _ _ Hok).
    + apply Hlive, (ok_idle_live _ _ Hok).
    + apply eq_None_not_Some. rewrite Hlive, (ok_null _ _ Hok). by intros [? ?].
    + apply (ok_distinct _ _ Hok).
    + intros x xh [[<- <-]|[_ Hx]]%lookup_insert_Some Hb Hi Hc; [done|].
      by eapply (ok_waiting _ _ Hok).
    + intros x xh [[<- <-]|[_ Hx]]%lookup_insert_Some Hn Hin; [done|].
      by eapply (ok_blocked _ _ Hok).
  - destruct Ha as [Hp Hkp]. destruct (kill_ok k p Hk Hp Hkp) as (k1 & E1 & Hk1).
    rewrite E1 in E. by injection E as <-.
Qed.

Lemma run_ok `{!StackMakerLaws M} es : forall k k', kernel_ok k -> all_allowed es k ->
  run_events es k = Ok k' -> kernel_ok k'.
Proof.
  induction es as [|e es IH]; intros k k' Hk; cbn [all_allowed run_events]; [by intros _ [= <-]|].
  intros [Ha Hes] E. destruct (do_event e k) as [k1| | |] eqn:Ee; try done.
  cbn [mbind res_bind] in E. apply (IH k1); [by eapply event_ok|by apply Hes|done].
Qed.

(** ** [Scheduler::init] *)

Definition statics_ok : Prop := thread0 <> idleThread /\ thread0 <> 0 /\ idleThread <> 0.

Lemma init_threads_ok a c pr : statics_ok -> stateM a = Ready -> processM a = process0 ->
  stateM c = Running -> processM c = process0 -> threadsM pr = [] ->
  threads_ok (<[idleThread := a]> (<[thread0 := c]> ∅)) (Sched [thread0] [] thread0 process0)
  /\ procs_ok (<[idleThread := a]> (<[thread0 := c]> ∅)) (<[process0 := pr]> ∅) process0.
Proof.
  intros (Hd & H0' & Hi0) Ha Hpa Hc Hpc Hpr.
  set (ts := <[idleThread := a]> (<[thread0 := c]> ∅)).
  assert (forall t th, ts !! t = Some th ->
    t = idleThread /\ stateM th = Ready /\ processM th = process0
    \/ t = thread0 /\ stateM th = Running /\ processM th = process0) as Hth.
  { intros t th. unfold ts. rewrite lookup_insert_Some. intros [[<- <-]|[_ Ht]]; [by left|].
    apply lookup_insert_Some in Ht as [[<- <-]|[_ Ht]]; [by right|done]. }
  split; constructor.
  - intros t. unfold slots. cbn [currentThread readyList blockedList]. autorewrite with occ.
    case_decide; [subst|intros; lia]. intros _.
    unfold ts. rewrite lookup_insert_ne by done. rewrite lookup_insert_eq. by eexists.
  - intros t [th Ht] [Hn1 Hn2]. apply Hth in Ht as [[-> _]|[-> _]]; done.
  - unfold slots. cbn [currentThread readyList blockedList]. autorewrite with occ.
    rewrite !decide_True by done. lia.
  - cbn [readyList blockedList]. autorewrite with occ. by rewrite decide_False.
  - unfold ts. rewrite lookup_insert_eq. by eexists.
  - unfold ts. by rewrite !lookup_insert_ne.
  - done.
  - intros t th Ht Hb. apply Hth in Ht as [(-> & Hs & _)|(-> & Hs & _)]; congruence.
  - intros t th _ _ Hin. by apply elem_of_nil in Hin.
  - intros t th Ht. apply lookup_insert_is_Some'. left.
    by apply Hth in Ht as [(_ & _ & ->)|(_ & _ & ->)].
  - intros p q Hp Hk. by apply lookup_insert_Some in Hp as [[E _]|[_ Hp]].
  - intros t th Ht Hk. by apply Hth in Ht as [(_ & _ & E)|(_ & _ & E)].
  - intros th Ht. by apply Hth in Ht as [(_ & _ & E)|(_ & _ & E)].
Qed.

(** [k'] differs from [k] in thread [t] only, and in parts the scheduler does
    not look at. *)
Definition differs_at t (th : Thread) k k' : Prop :=
  threads k' = <[t := th]> (threads k) /\ k_sched k' = k_sched k /\ processes k' = processes k
  /\ kernelProcess k' = kernelProcess k.

Lemma Thread_init0_ok k t ty stack : exists c k', Thread_init0 t stack (Thread_new t ty k) = Ok k'
  /\ differs_at t c k k' /\ stateM c = Running /\ processM c = kernelProcess k.
Proof.
  unfold Thread_init0, get_thread, Thread_new. cbn [threads]. rewrite lookup_insert_eq.
  cbn [deref mbind res_bind]. do 2 eexists. split; [reflexivity|].
  unfold differs_at. cbn. rewrite insert_insert_eq. done.
Qed.

Lemma Thread_initIdle_ok `{!StackMakerLaws M} k t ty b k' :
  Thread_initIdle t (Thread_new t ty k) = Ok (b, k') ->
  exists a, differs_at t a k k' /\ stateM a = Ready /\ processM a = kernelProcess k.
Proof.
  unfold Thread_initIdle, get_thread, Thread_new. cbn [threads memory]. rewrite lookup_insert_eq.
  cbn [deref mbind res_bind]. destruct (make_stack (memory k)) as [[[ok top] m1]| | |] eqn:Em; try done.
  apply make_stack_success in Em as ->. cbn [mbind res_bind negb stack_words].
  destruct (initKernelStack _ _ _ _) as [stack w]. intros [= <- <-]. eexists.
  unfold differs_at. cbn. rewrite insert_insert_eq. done.
Qed.

Lemma Scheduler_init_ok `{!StackMakerLaws M} pd m k : statics_ok ->
  Scheduler_init pd (before_init m) = Ok k ->
  kernel_ok k /\ cr3 k = pd /\ processes k !! currentProcess (k_sched k) = Some (NewProcess 0 pd []).
Proof.
  intros Hst E. unfold Scheduler_init in E. cbv zeta in E.
  match type of E with context [Thread_new thread0 KernelThread ?kk] =>
    assert (threads kk = ∅ /\ k_sched kk = Sched [] [] 0 0 /\ kernelProcess kk = process0
      /\ processes kk = <[process0 := NewProcess 0 pd []]> ∅) as (Ht0 & Hs0 & Hk0 & Hp0) by done;
    destruct (Thread_init0_ok kk thread0 KernelThread KernelStackStart)
      as (c & k1 & E1 & (Ht1 & Hs1 & Hp1 & Hk1) & Hc & Hpc);
    rewrite Ht0 in Ht1; rewrite Hs0 in Hs1; rewrite Hp0 in Hp1; rewrite Hk0 in Hk1, Hpc;
    clear Ht0 Hs0 Hp0 Hk0; revert E E1; generalize kk; intros k0 E E1
  end.
  rewrite E1 in E. cbn [mbind res_bind] in E. rewrite Hs1 in E. cbn [readyList blockedList app] in E.
  match type of E with context [Thread_new idleThread KernelThread ?kk] =>
    assert (threads kk = threads k1 /\ k_sched kk = Sched [thread0] [] 0 0
      /\ kernelProcess kk = kernelProcess k1 /\ processes kk = processes k1)
      as (Ht2 & Hs2 & Hk2 & Hp2) by done;
    revert E Ht2 Hs2 Hk2 Hp2; generalize kk; intros k2 E Ht2 Hs2 Hk2 Hp2
  end.
  destruct (Thread_initIdle idleThread _) as [[b k3]| | |] eqn:E3; try done.
  cbn [mbind res_bind] in E.
  destruct (Thread_initIdle_ok _ _ _ _ _ E3) as (a & (Ht3 & Hs3 & Hp3 & Hk3) & Ha & Hpa).
  unfold switchContext in E. cbn [with_sched processes] in E.
  assert (processes k3 = <[process0 := NewProcess 0 pd []]> ∅) as Eps by congruence.
  rewrite Eps, lookup_insert_eq in E. cbn [deref mbind res_bind] in E. injection E as <-.
  assert (threads k3 = <[idleThread := a]> (<[thread0 := c]> ∅)) as Ets by congruence.
  assert (kernelProcess k3 = process0) as Ekp by congruence.
  rewrite Hs3, Hs2. cbn [readyList blockedList].
  destruct (init_threads_ok a c (NewProcess 0 pd []) Hst Ha ltac:(congruence) Hc Hpc eq_refl) as [Hok Hps].
  split; [constructor; cbn [with_cpu with_sched threads k_sched processes kernelProcess]|split; [done|]].
  - by rewrite Ets.
  - by rewrite Ets, Eps, Ekp.
  - exists c. rewrite Ets. cbn [currentThread currentProcess]. destruct Hst as (Hd & _ & _).
    split; [rewrite lookup_insert_ne by done; apply lookup_insert_eq|done].
  - cbn [with_cpu with_sched processes k_sched currentProcess]. rewrite Eps. apply lookup_insert_eq.
Qed.

(** ** Contracts *)

(** C32: from [Scheduler::init] on, in whatever order allowed events happen
    (jobs are added by running threads),
    every thread but the two static ones is in exactly one place (running, on
    the ready list or on the blocked list), a blocked thread that does not run
    is on the blocked list, the idle thread is on no list, the current process
    is the live owner of the current thread; a tick and the killing of the
    current process never fail, and adding a job succeeds exactly for a blocked
    thread. *)
Theorem scheduler_safe `{!StackMakerLaws M} pd m k0 es k (Hst : statics_ok)
  (Hinit : Scheduler_init pd (before_init m) = Ok k0) (Hall : all_allowed es k0)
  (Hrun : run_events es k0 = Ok k) :
  let s := k_sched k in
  (forall t, is_Some (threads k !! t) -> normal t -> occ (slots s) t = 1%nat)
  /\ (forall t th, threads k !! t = Some th -> normal t ->
       stateM th = Blocked -> t <> currentThread s -> t ∈ blockedList s)
  /\ idleThread ∉ readyList s ++ blockedList s
  /\ (exists th pr, threads k !! currentThread s = Some th /\ processM th = currentProcess s
       /\ processes k !! currentProcess s = Some pr)
  /\ (exists k', do_event Tick k = Ok k')
  /\ (forall p, allowed (Kill p) k -> exists k', do_event (Kill p) k = Ok k')
  /\ (forall t j th, threads k !! t = Some th ->
       if isBlocked th then exists k', do_event (AddJob t j) k = Ok k'
       else do_event (AddJob t j) k = Panic).
Proof.
  destruct (Scheduler_init_ok pd m k0 Hst Hinit) as [Hk0 _].
  pose proof (run_ok es k0 k Hk0 Hall Hrun) as Hk. destruct Hk as [Hok Hps Hcur].
  cbv zeta. split_and!.
  - apply (ok_once _ _ Hok).
  - intros t th Ht Hn Hb Hc. apply (ok_waiting _ _ Hok t th Ht Hb); [apply Hn|done].
  - rewrite occ_elem, (ok_idle _ _ Hok). lia.
  - destruct Hcur as (th & Ht & E). destruct (ok_process _ _ _ Hps _ _ Ht) as [pr Hpr].
    exists th, pr. by rewrite <-E.
  - destruct (schedule_ok k Hok) as (th & _ & E). by eexists.
  - intros p [Hp Hkp]. destruct (kill_ok k p) as (k' & E & _); [by constructor|done|done|by eexists].
  - intros t j th Ht. exact (addJob_state k t j th Ht).
Qed.

(** ** The order of the ready list *)

Definition schedules (e : event) : bool :=
  match e with Tick | Kill _ => true | _ => false end.

Definition ready k : list loc := readyList (k_sched k).

(** The number of times [schedule] runs. *)
Definition ticks (es : list event) : nat := length (filter (fun e => schedules e = true) es).

Lemma remove_position x l i t : l !! i = Some t -> t <> x ->
  exists i', list_remove x l !! i' = Some t /\ (i' <= i)%nat.
Proof.
  unfold list_remove. revert i; induction l as [|y l IH]; intros [|i] Hi Ht; try done; cbn in Hi.
  - injection Hi as ->. rewrite filter_cons_True by done. by exists 0%nat.
  - destruct (IH i Hi Ht) as (i' & Hi' & Hle). rewrite filter_cons. case_decide.
    + exists (S i'). split; [done|lia].
    + exists i'. split; [done|lia].
Qed.

Lemma schedule_position k k' t i : schedule k = Ok k' -> ready k !! i = Some t ->
  match i with O => cur k' = t | S j => ready k' !! j = Some t end.
Proof.
  unfold schedule, requeue, ready, cur. intros E Hi.
  set (s := k_sched k) in *.
  assert (exists s', readyList s' !! i = Some t /\
    (let '(next, rest) := pick s' in
     kassert (negb (next =? 0));;
     th ← get_thread next k;
     Ok (with_sched (set_thread next (setRunning th) k) (Sched rest (blockedList s') next (processM (setRunning th)))))
     = Ok k') as (s' & Hs' & E').
  { destruct (negb (currentThread s =? idleThread)); [|by exists s].
    destruct (get_thread (currentThread s) k) as [th| | |]; try done. cbn [mbind res_bind] in E.
    eexists. split; [|exact E]. destruct (isBlocked th); [done|]. by apply lookup_app_l_Some. }
  unfold pick in E'. destruct (readyList s') as [|x l]; [done|].
  destruct (negb (x =? 0)); [|done]. cbn [kassert mbind res_bind] in E'.
  destruct (get_thread x k) as [th| | |]; try done. cbn in E'. injection E' as <-. cbn.
  destruct i; cbn in Hs'; [by injection Hs'|done].
Qed.

Lemma Thread_delete_position k k' x t i : Thread_delete x k = Ok k' -> ready k !! i = Some t ->
  is_Some (threads k' !! t) ->
  is_Some (threads k !! t) /\ exists i', ready k' !! i' = Some t /\ (i' <= i)%nat.
Proof.
  intros E Hi Hl. destruct (threads k !! x) as [th|] eqn:Ex.
  - rewrite Thread_delete_eq in E by (by eexists). injection E as <-. cbn in Hl.
    apply lookup_delete_is_Some in Hl as [Hx Hl]. split; [done|]. unfold ready. cbn. unfold removed.
    rewrite Ex. destruct (remove_position x (readyList (k_sched k)) i t Hi (not_eq_sym Hx)) as (i' & Hi' & Hle).
    destruct (isBlocked th), (x =? _); cbn; eauto.
  - unfold Thread_delete, Scheduler_remove, get_thread in E. cbn in E. by rewrite Ex in E.
Qed.

Lemma delete_all_position l : forall k k' t i, delete_all l k = Ok k' -> ready k !! i = Some t ->
  is_Some (threads k' !! t) ->
  is_Some (threads k !! t) /\ exists i', ready k' !! i' = Some t /\ (i' <= i)%nat.
Proof.
  assert (forall l k k' t, delete_all l k = Ok k' -> is_Some (threads k' !! t) -> is_Some (threads k !! t)) as Hmono.
  { clear l. induction l as [|x l IH]; cbn; intros k k' t E Hl; [by injection E as <-|].
    destruct (Thread_delete x k) as [k1| | |] eqn:Ex; try done. cbn in E.
    pose proof (IH _ _ _ E Hl) as Hl1. destruct (threads k !! x) as [th|] eqn:Et.
    - rewrite Thread_delete_eq in Ex by (by eexists). injection Ex as <-. cbn in Hl1.
      by apply lookup_delete_is_Some in Hl1 as [_ ?].
    - unfold Thread_delete, Scheduler_remove, get_thread in Ex. cbn in Ex. by rewrite Et in Ex. }
  induction l as [|x l IH]; cbn; intros k k' t i E Hi Hl; [injection E as <-; eauto|].
  destruct (Thread_delete x k) as [k1| | |] eqn:Ex; try done. cbn in E.
  pose proof (Hmono _ _ _ _ E Hl) as Hl1.
  destruct (Thread_delete_position _ _ _ _ _ Ex Hi Hl1) as (Hlk & i1 & Hi1 & Hle).
  destruct (IH _ _ _ _ E Hi1 Hl) as (_ & i2 & Hi2 & Hle2). split; [done|]. exists i2. split; [done|lia].
Qed.

Lemma Thread_init_ready `{!StackMakerLaws M} k t th b k' : threads k !! t = Some th ->
  stateM th = Blocked -> Thread_init t k = Ok (b, k') -> ready k' = ready k.
Proof.
  intros Ht Hb E. destruct (Thread_init_ok _ _ _ _ _ Ht Hb E) as (_ & _ & Hs & _).
  unfold ready. by rewrite Hs.
Qed.

(** A thread on the ready list moves forward or stays, until it runs. *)
Lemma event_position `{!StackMakerLaws M} e k k' t i : do_event e k = Ok k' ->
  ready k !! i = Some t -> is_Some (threads k' !! t) ->
  if schedules e then cur k' = t \/ exists i', ready k' !! i' = Some t /\ (i' < i)%nat
  else ready k' !! i = Some t.
Proof.
  intros E Hi Hl. destruct e as [|t' j|t' name|p pd|t' p| | |p]; cbn in E; cbn [schedules].
  - pose proof (schedule_position _ _ _ _ E Hi) as Hp. destruct i as [|i]; [by left|].
    right. exists i. split; [done|lia].
  - unfold addJob, Scheduler_setReady, get_thread, set_thread in E.
    destruct (threads k !! t') as [th|]; [|done]. cbn in E. rewrite lookup_insert_eq in E. cbn in E.
    destruct (isBlocked _); [|done]. cbn in E. injection E as <-. unfold ready in *. cbn.
    by apply lookup_app_l_Some.
  - unfold createKernelThread, get_thread in E. cbn [Thread_new threads] in E.
    rewrite lookup_insert_eq in E. cbn [deref mbind res_bind] in E.
    destruct (Thread_init _ _) as [[b k1]| | |] eqn:Ei; try done. cbn in E. injection E as <-.
    eapply Thread_init_ready in Ei; [|apply lookup_insert_eq|done]. by rewrite Ei.
  - by injection E as <-.
  - unfold createThread, createUserThread, get_thread in E.
    destruct (processes k !! p) as [pr|]; [|done]. cbn [deref mbind res_bind] in E.
    cbn [Thread_new threads] in E. rewrite lookup_insert_eq in E. cbn [deref mbind res_bind] in E.
    destruct (Thread_init _ _) as [[b k1]| | |] eqn:Ei; try done. cbn in E. injection E as <-.
    eapply Thread_init_ready in Ei; [|apply lookup_insert_eq|done]. unfold ready in *. cbn. by rewrite Ei.
  - unfold main_take, get_thread in E. destruct (threads k !! cur k); [|done]. cbn in E.
    destruct (last _); cbn in E; by injection E as <-.
  - unfold main_block, get_thread in E. destruct (threads k !! cur k); [|done]. cbn in E.
    by injection E as <-.
  - unfold Process_delete in E. destruct (processes k !! p) as [pr|]; [|done]. cbn [deref mbind res_bind] in E.
    destruct (delete_all _ _) as [k1| | |] eqn:Ed; try done. cbn [mbind res_bind] in E.
    assert (is_Some (threads k1 !! t)) as Hl1.
    { unfold schedule, requeue in E. res_inv.
      destruct (pick _) as [next rest]. res_inv. cbn in Hl. apply lookup_insert_is_Some' in Hl as [<-|Hl].
      - unfold get_thread in *. res_inv. cbn in *. by eexists.
      - by cbn in Hl. }
    destruct (delete_all_position _ _ _ _ i Ed Hi Hl1) as (_ & i1 & Hi1 & Hle).
    pose proof (schedule_position _ _ _ _ E Hi1) as Hp. destruct i1 as [|i1].
    + by left.
    + right. exists i1. split; [done|lia].
Qed.

(** C33: a thread on the ready list, with [i] threads in front of it, is
    running after at most [i + 1] runs of [schedule], whatever else happens in
    between, unless it is deleted first, with the process it belongs to. *)
Theorem ready_fifo `{!StackMakerLaws M} es k k' t i (Hi : readyList (k_sched k) !! i = Some t)
  (Hrun : run_events es k = Ok k') (Hticks : (i < ticks es)%nat) :
  exists es1 es2 k1, es = es1 ++ es2 /\ run_events es1 k = Ok k1 /\ (ticks es1 <= S i)%nat
  /\ (currentThread (k_sched k1) = t \/ threads k1 !! t = None).
Proof.
  fold (ready k) in Hi. revert k i Hi Hrun Hticks.
  induction es as [|e es IH]; intros k i Hi Hrun Hticks; [cbn in Hticks; lia|].
  cbn [run_events] in Hrun. destruct (do_event e k) as [k1| | |] eqn:Ee; try done.
  cbn [mbind res_bind] in Hrun.
  assert (forall l, ticks (e :: l) = ((if schedules e then 1 else 0) + ticks l)%nat) as Htick.
  { intros l. unfold ticks. rewrite filter_cons. by destruct (schedules e). }
  rewrite Htick in Hticks.
  assert (cur k1 = t \/ threads k1 !! t = None ->
    exists es1 es2 k2, e :: es = es1 ++ es2 /\ run_events es1 k = Ok k2 /\ (ticks es1 <= S i)%nat
      /\ (currentThread (k_sched k2) = t \/ threads k2 !! t = None)) as Hnow.
  { intros Hc. exists [e], es, k1. split_and!; [done|cbn; by rewrite Ee| |done].
    rewrite Htick. unfold ticks. destruct (schedules e); cbn; lia. }
  destruct (threads k1 !! t) as [th|] eqn:Et; [|by apply Hnow; right].
  pose proof (event_position e k k1 t i Ee Hi ltac:(by eexists)) as Hpos.
  assert (exists j, ready k1 !! j = Some t /\ ((if schedules e then 1 else 0) + j <= i)%nat
          \/ cur k1 = t) as [j [[Hj Hle]|Hc]].
  { destruct (schedules e); [destruct Hpos as [Hc|(j & Hj & Hlt)]|]; [exists 0%nat; by right| |].
    - exists j. left. split; [done|lia].
    - exists i. left. split; [done|lia]. }
  - destruct (IH k1 j Hj Hrun ltac:(lia)) as (es1 & es2 & k2 & -> & Hr & Ht & Hor).
    exists (e :: es1), es2, k2. split_and!; [done|cbn; by rewrite Ee| |done].
    rewrite Htick. lia.
  - apply Hnow. by left.
Qed.
End events.

(** ** A machine with two kernel threads *)

Section sample.
#[local] Instance sample_statics : Statics :=
  {| thread0 := 100; idleThread := 101; process0 := 102; Thread_main := 0xc0101000;
     Power_onIdle := 0xc0102000 |}.
#[local] Instance sample_stacks : StackMaker Z := {| make_stack m := Ok (true, m, m - 8192) |}.
#[local] Instance sample_stacks_laws : StackMakerLaws Z.
Proof. intros m b top m' E. by injection E as <- _ _. Defined.

Definition sample_kernel : kernel Z :=
  match Scheduler_init 4096 (before_init 0xff000000) with Ok k => k | _ => before_init 0 end.

Definition sample_events : list event :=
  [CreateKernel 200 "Supervisor"; CreateKernel 201 "Monitor"; AddJob 200 (NewJob 1 2);
   AddJob 201 (NewJob 3 4); Tick].

Lemma allowed_step (e : event) (es : list event) (k k1 : kernel Z) :
  allowed e k -> do_event e k = Ok k1 -> all_allowed es k1 -> all_allowed (e :: es) k.
Proof. intros Ha E Hes. split; [done|]. intros k' E'. rewrite E in E'. by injection E' as <-. Qed.

Lemma sample_allowed : all_allowed sample_events sample_kernel.
Proof.
  unfold sample_events.
  eapply allowed_step; [split; [lia|vm_compute; reflexivity]|vm_compute; reflexivity|].
  eapply allowed_step; [split; [lia|vm_compute; reflexivity]|vm_compute; reflexivity|].
  eapply allowed_step; [split; [cbn; lia|intros th E; vm_compute in E; by injection E as <-]
                       |vm_compute; reflexivity|].
  eapply allowed_step; [split; [cbn; lia|intros th E; vm_compute in E; by injection E as <-]
                       |vm_compute; reflexivity|].
  eapply allowed_step; [exact I|vm_compute; reflexivity|exact I].
Qed.

Lemma scheduler_safe_witness : exists k, run_events sample_events sample_kernel = Ok k
  /\ slots (k_sched k) = [100; 200; 201; 100] /\ exists k', do_event Tick k = Ok k'.
Proof.
  assert (exists k, run_events sample_events sample_kernel = Ok k
    /\ slots (k_sched k) = [100; 200; 201; 100]) as (k & E & Es)
    by (eexists; split; [vm_compute; reflexivity|vm_compute; reflexivity]).
  exists k. split; [exact E|]. split; [exact Es|].
  destruct (scheduler_safe 4096 0xff000000 sample_kernel sample_events k) as (_ & _ & _ & _ & H & _).
  - split; [discriminate|split; discriminate].
  - vm_compute. reflexivity.
  - exact sample_allowed.
  - exact E.
  - exact H.
Defined.

(** The threads 200 and 201 run within two and three ticks. *)
Lemma ready_fifo_witness : exists k k', run_events sample_events sample_kernel = Ok k
  /\ run_events [Tick; TakeJob; Tick] k = Ok k'
  /\ exists es1 es2 k1, [Tick; TakeJob; Tick] = es1 ++ es2 /\ run_events es1 k = Ok k1
     /\ (ticks es1 <= 2)%nat /\ (currentThread (k_sched k1) = 201 \/ threads k1 !! 201 = None).
Proof.
  assert (exists k k', run_events sample_events sample_kernel = Ok k
    /\ run_events [Tick; TakeJob; Tick] k = Ok k' /\ readyList (k_sched k) !! 1%nat = Some 201)
    as (k & k' & E & E' & Hi)
    by (do 2 eexists; split; [vm_compute; reflexivity|split; [vm_compute; reflexivity|vm_compute; reflexivity]]).
  exists k, k'. split; [exact E|]. split; [exact E'|].
  apply (ready_fifo [Tick; TakeJob; Tick] k k' 201 1 Hi E'). vm_compute. lia.
Defined.
End sample.
