(* ===== verification/Watchdog.v ===== *)
(** * The list of watchdog devices (Kernel/WatchdogDevice.cc)

    Watchdog devices are on a null-terminated singly linked list, newest first;
    [Watchdog::kick], called at every timer tick, kicks each of them.  The state
    is the [nextWatchdogDeviceM] pointer of every device and the head
    [devices]; [kick_device] is the virtual method [kick]. *)

From S2P Require Import Prelude Ring.
From Stdlib Require Import ZArith Lia.
From stdpp Require Import prelude gmap list.

Open Scope Z_scope.

Record watchdogs : Type := Watchdogs { wd_next : gmap loc loc; wd_devices : loc }.

Class WatchdogDevices (W : Type) := { kick_device : loc -> W -> res W }.

Definition registerWatchdog (this : loc) (s : watchdogs) : res (bool * watchdogs) :=
  _ ← deref (wd_next s !! this);
  Ok (true, Watchdogs (<[this := wd_devices s]> (wd_next s)) this).

(** [previous] is null before the first round. *)
Fixpoint unregister_loop (fuel : nat) (this previous device : loc) (s : watchdogs) :
    res (bool * watchdogs) :=
  match fuel with
  | O => NoFuel
  | S fuel =>
      if negb (device =? 0) then
        if device =? this then
          if negb (previous =? 0) then
            n ← deref (wd_next s !! device);
            _ ← deref (wd_next s !! previous);
            Ok (true, Watchdogs (<[previous := n]> (wd_next s)) (wd_devices s))
          else Ok (true, s)
        else
          n ← deref (wd_next s !! this);
          unregister_loop fuel this device n s
      else Ok (false, s)
  end.

Definition unregisterWatchdog (fuel : nat) (this : loc) (s : watchdogs) : res (bool * watchdogs) :=
  unregister_loop fuel this 0 (wd_devices s) s.

Section kick.
Context {W : Type} `{WatchdogDevices W}.

Fixpoint kick_loop (fuel : nat) (device : loc) (s : watchdogs) (w : W) : res W :=
  match fuel with
  | O => NoFuel
  | S fuel =>
      if negb (device =? 0) then
        w ← kick_device device w;
        n ← deref (wd_next s !! device);
        kick_loop fuel n s w
      else Ok w
  end.

Definition kick (s : watchdogs) (w : W) : res W :=
  kick_loop (S (size (wd_next s))) (wd_devices s) s w.

(** ** The list *)

Fixpoint wd_list (s : gmap loc loc) (a : loc) (l : list loc) : Prop :=
  match l with
  | [] => a = 0
  | x :: l' => a = x /\ x <> 0 /\ exists n, s !! x = Some n /\ wd_list s n l'
  end.

Fixpoint kick_all (l : list loc) (w : W) : res W :=
  match l with [] => Ok w | x :: l => w ← kick_device x w; kick_all l w end.

Lemma wd_list_frame s s' l : forall a, (forall p, p ∈ l -> s' !! p = s !! p) ->
  wd_list s a l -> wd_list s' a l.
Proof.
  induction l as [|x l IH]; intros a Hf; cbn; [done|]. intros (-> & Hx & n & Hn & Hl).
  split_and!; [done|done|]. exists n. split; [rewrite Hf by left; done|].
  apply IH; [|done]. intros p Hp. apply Hf. by right.
Qed.

Lemma wd_list_size s l : forall a, wd_list s a l -> NoDup l -> (length l <= size s)%nat.
Proof.
  intros a Hl Hnd. rewrite <-(size_dom (D := gset loc)), <-(size_list_to_set (C := gset loc) _ Hnd).
  apply subseteq_size. intros p Hp. apply elem_of_list_to_set in Hp. apply elem_of_dom.
  clear Hnd. revert a Hl. induction l as [|x l IH]; intros a Hl; [by apply elem_of_nil in Hp|].
  destruct Hl as (-> & Hx & n & Hn & Hl). apply elem_of_cons in Hp as [->|Hp]; [by eexists|].
  by apply (IH Hp n).
Qed.

(** Every device is kicked once, newest first. *)
Lemma kick_spec s l w : wd_list (wd_next s) (wd_devices s) l -> NoDup l ->
  kick s w = kick_all l w.
Proof.
  intros Hl Hnd. unfold kick. pose proof (wd_list_size _ _ _ Hl Hnd) as Hsize.
  clear Hnd. revert Hl w Hsize. generalize (wd_devices s), (size (wd_next s)).
  induction l as [|x l IH]; intros a k Hl w Hk; cbn [kick_loop kick_all].
  - cbn in Hl. by subst a.
  - destruct Hl as (-> & Hx & n & Hn & Hl). rewrite (proj2 (Z.eqb_neq x 0)) by done. cbn [negb].
    destruct (kick_device x w) as [w'| | |]; try done. cbn [mbind res_bind].
    rewrite Hn. cbn [deref mbind res_bind]. destruct k as [|k]; [cbn in Hk; lia|].
    apply IH; [done|cbn in Hk; lia].
Qed.

Lemma register_spec s l x : wd_list (wd_next s) (wd_devices s) l -> x <> 0 -> x ∉ l ->
  is_Some (wd_next s !! x) -> exists s', registerWatchdog x s = Ok (true, s')
  /\ wd_list (wd_next s') (wd_devices s') (x :: l).
Proof.
  intros Hl Hx Hnin [n Hn]. unfold registerWatchdog. rewrite Hn. cbn [deref mbind res_bind].
  eexists. split; [done|]. cbn. split_and!; [done|done|]. exists (wd_devices s).
  split; [apply lookup_insert_eq|]. eapply wd_list_frame; [|done].
  intros p Hp. rewrite lookup_insert_ne; [done|]. by intros ->.
Qed.

(** [unregisterWatchdog] never takes a device off the list: it leaves the list
    as it is for the newest device, reports failure for the oldest of at least
    two, and does not return for the others. *)
Lemma unregister_spec s l1 x l2 : wd_list (wd_next s) (wd_devices s) (l1 ++ x :: l2) ->
  NoDup (l1 ++ x :: l2) -> forall fuel, unregisterWatchdog (S (S fuel)) x s
  = match l1, l2 with
    | [], _ => Ok (true, s)
    | _, [] => Ok (false, s)
    | _, _ => NoFuel
    end.
Proof.
  intros Hl Hnd fuel. unfold unregisterWatchdog.
  assert (forall l a, wd_list (wd_next s) a (l ++ x :: l2) ->
    x <> 0 /\ exists n, wd_next s !! x = Some n /\ wd_list (wd_next s) n l2) as Hx.
  { induction l as [|y l IH]; intros a Ha.
    - destruct Ha as (-> & Hx & n & Hn & Hn'). eauto.
    - destruct Ha as (_ & _ & n & _ & Ha). by apply IH in Ha. }
  destruct (Hx _ _ Hl) as (Hx0 & n & Hn & Hl2). destruct l1 as [|y l1].
  - destruct Hl as (-> & _). cbn [unregister_loop].
    rewrite (proj2 (Z.eqb_neq x 0)) by done. cbn [negb]. by rewrite Z.eqb_refl.
  - destruct Hl as (-> & Hy0 & _). cbn [unregister_loop].
    rewrite (proj2 (Z.eqb_neq y 0)) by done. cbn [negb].
    assert (y <> x) as Hyx by (intros ->; apply NoDup_cons in Hnd as [Hnd _]; set_solver).
    rewrite (proj2 (Z.eqb_neq y x)) by done. rewrite Hn. cbn [deref mbind res_bind].
    destruct l2 as [|z l2]; [cbn in Hl2; by subst n|]. destruct Hl2 as (-> & Hz0 & _).
    assert (z <> x) as Hzx.
    { intros ->. apply NoDup_cons in Hnd as [_ Hnd]. apply NoDup_app in Hnd as (_ & _ & Hnd).
      apply NoDup_cons in Hnd as [Hnd _]. apply Hnd. left. }
    assert (forall k p, unregister_loop k x p z s = NoFuel) as Hloop;
      [|by rewrite (proj2 (Z.eqb_neq z 0)), (proj2 (Z.eqb_neq z x)) by done; apply Hloop].
    induction k as [|k IH]; intros p; [done|]. cbn [unregister_loop].
    rewrite (proj2 (Z.eqb_neq z 0)) by done. cbn [negb].
    rewrite (proj2 (Z.eqb_neq z x)) by done. rewrite Hn. cbn [deref mbind res_bind]. apply IH.
Qed.
End kick.
