(* ===== verification/Clock.v ===== *)
(** * Clocks, timers and drivers

    Three lists of objects that register themselves in their constructors, the
    newest first, and that the kernel probes at start-up: clock sources
    (Kernel/Clock.cc, Kernel/ClockProvider.cc), system timers
    (Kernel/SystemTimer.cc) and drivers (Kernel/DriverManager.cc,
    Kernel/Driver.cc).  Of the clocks and of the timers the one that probes
    highest is started; of the drivers each one that probes positive.  The
    lists are null-terminated, as in Watchdog.v.  Also the time that is read off
    the clock (Kernel/Time.cc) and the frequency of the time stamp counter
    (X86/Tsc.cc), which is computed from five measurements.  The printing is
    left out. *)

From S2P Require Import Prelude Words Ring Watchdog.
From Stdlib Require Import ZArith Lia.
From stdpp Require Import prelude gmap list sorting.

Open Scope Z_scope.

(** ** The virtual methods *)

Class ClockProviders (W : Type) := {
  clock_probe : loc -> W -> Z * W;
  clock_start : loc -> W -> bool * W;
  clock_frequency : loc -> W -> Z * W;
  clock_value : loc -> W -> Z * W;
}.

Class SystemTimers (W : Type) := {
  timer_probe : loc -> W -> Z * W;
  timer_start : loc -> W -> bool * W;
}.

Class Drivers (W : Type) := {
  driver_probe : loc -> W -> Z * W;
  driver_init : loc -> W -> bool * W;
}.

(** ** Clocks and timers *)

Section selection.
Context {W : Type}.

(** The loop of both [probeAndInit]s; an object is probed twice, and the first
    result is the one that is kept. *)
Fixpoint probe_loop (probe : loc -> W -> Z * W) (fuel : nat) (next : gmap loc loc)
    (c best : loc) (bestProbe : Z) (w : W) : res (loc * W) :=
  match fuel with
  | O => NoFuel
  | S fuel =>
      if c =? 0 then mret (best, w)
      else
        let '(probeResult, w) := probe c w in
        let '(again, w) := probe c w in
        let '(best, bestProbe) := if bestProbe <? again then (c, probeResult) else (best, bestProbe) in
        n ← deref (next !! c);
        probe_loop probe fuel next n best bestProbe w
  end.
End selection.

Section clock.
Context {W : Type} `{ClockProviders W}.

Record clock : Type := Clk { clocks : loc; nextClock : gmap loc loc; activeClock : loc }.

Definition no_clocks : clock := Clk 0 ∅ 0.

Definition registerProvider (provider : loc) (s : clock) : clock :=
  Clk provider (<[provider := clocks s]> (nextClock s)) (activeClock s).

(** [ClockProvider::ClockProvider]. *)
Definition ClockProvider_new (this : loc) (s : clock) : clock := registerProvider this s.

Definition Clock_probeAndInit (s : clock) (w : W) : res (clock * W) :=
  '(best, w) ← probe_loop clock_probe (S (size (nextClock s))) (nextClock s) (clocks s) 0 0 w;
  kassert (negb (best =? 0));;
  let '(_, w) := clock_start best w in
  mret (Clk (clocks s) (nextClock s) best, w).

Definition getTime (s : clock) (w : W) : res (Z * W) :=
  if activeClock s =? 0 then mret (0, w)
  else
    let '(freq, w) := clock_frequency (activeClock s) w in
    kassert (negb (freq =? 0));;
    let '(v, w) := clock_value (activeClock s) w in
    mret (v / freq, w).

(** [Time::getUptime]; [uptime] counts the milliseconds of the timer ticks. *)
Definition getUptime (uptime : Z) (s : clock) (w : W) : res (Z * W) :=
  '(time, w) ← getTime s w;
  mret (if time =? 0 then uptime else time, w).
End clock.

Section timer.
Context {W : Type} `{SystemTimers W}.

Record timers_ : Type := Tmr { timers : loc; nextTimer : gmap loc loc }.

Definition SystemTimer_new (this : loc) (s : timers_) : timers_ :=
  Tmr this (<[this := timers s]> (nextTimer s)).

Definition SystemTimer_probeAndInit (s : timers_) (w : W) : res W :=
  '(best, w) ← probe_loop timer_probe (S (size (nextTimer s))) (nextTimer s) (timers s) 0 0 w;
  kassert (negb (best =? 0));;
  mret (timer_start best w).2.
End timer.

(** ** Drivers *)

Inductive State := Uninitalized | Initialized.

#[global] Instance State_eq_dec : EqDecision State.
Proof. solve_decision. Defined.

Section drivers.
Context {W : Type} `{Drivers W}.

(** [driverList], and [nextM] and [stateM] of the drivers. *)
Record driver_manager : Type := DM {
  driverList : loc; nextM : gmap loc loc; stateM : gmap loc State }.

Definition registerDriver (driver : loc) (s : driver_manager) : bool * driver_manager :=
  (true, DM driver (<[driver := driverList s]> (nextM s)) (stateM s)).

Definition deregisterDriver (driver : loc) (s : driver_manager) : bool * driver_manager := (true, s).

Definition Driver_new (this : loc) (s : driver_manager) : driver_manager :=
  (registerDriver this (DM (driverList s) (<[this := 0]> (nextM s))
    (<[this := Uninitalized]> (stateM s)))).2.

Fixpoint driver_loop (fuel : nat) (driver : loc) (s : driver_manager) (w : W) :
    res (driver_manager * W) :=
  match fuel with
  | O => NoFuel
  | S fuel =>
      if driver =? 0 then mret (s, w)
      else
        state ← deref (stateM s !! driver);
        let '(ready, w) :=
          if decide (state = Uninitalized)
          then let '(score, w) := driver_probe driver w in (0 <? score, w)
          else (false, w) in
        let '(s, w) :=
          if ready : bool then
            let '(_, w) := driver_init driver w in
            (DM (driverList s) (nextM s) (<[driver := Initialized]> (stateM s)), w)
          else (s, w) in
        n ← deref (nextM s !! driver);
        driver_loop fuel n s w
  end.

Definition DriverManager_probeAndInit (s : driver_manager) (w : W) : res (driver_manager * W) :=
  driver_loop (S (size (nextM s))) (driverList s) s w.
End drivers.

(** ** The frequency of the time stamp counter *)

(** One measurement: cycles per millisecond over a delay of [delay] ms. *)
Definition measure (tsc0 tsc1 delay : Z) : Z := u32 (u64 (tsc1 - tsc0)) / delay.

Definition measurements : Z := 5.

(** The minimum, the maximum and the sum, in the loop's order. *)
Fixpoint extremes (results : list Z) (min max sum : Z) : Z * Z * Z :=
  match results with
  | [] => (min, max, sum)
  | r :: results =>
      extremes results (if r <? min then r else min) (if max <? r then r else max) (u32 (sum + r))
  end.

Definition average (results : list Z) : Z :=
  let '(min, max, sum) := extremes results (2 ^ 32 - 1) 0 0 in
  let sum := u32 (sum - min) in
  let sum := u32 (sum - max) in
  sum / (measurements - 2).

(** ** Registration *)

Lemma wd_list_push next a l p : wd_list next a l -> p <> 0 -> p ∉ l ->
  wd_list (<[p := a]> next) p (p :: l).
Proof.
  intros Hl Hp Hn. split; [done|]. split; [done|]. exists a. split; [by rewrite lookup_insert_eq|].
  eapply wd_list_frame; [|exact Hl]. intros q Hq. rewrite lookup_insert_ne; [done|]. by intros ->.
Qed.

(** Objects that are registered one after the other are listed in reverse. *)
Lemma registered_list {S : Type} (reg : loc -> S -> S) (head : S -> loc) (next : S -> gmap loc loc) ps :
  (forall p s, p ∈ ps -> head (reg p s) = p /\ next (reg p s) = <[p := head s]> (next s)) ->
  NoDup ps -> 0 ∉ ps -> forall s l, wd_list (next s) (head s) l -> (forall p, p ∈ ps -> p ∉ l) ->
  let s' := foldl (fun s p => reg p s) s ps in
  wd_list (next s') (head s') (reverse ps ++ l).
Proof.
  intros Hreg Hnd H0. induction ps as [|p ps IH]; intros s l Hl Hd; [done|]. cbn [foldl].
  apply NoDup_cons in Hnd as [Hp Hnd]. apply not_elem_of_cons in H0 as [Hp0 H0].
  destruct (Hreg p s ltac:(left)) as [E1 E2].
  rewrite reverse_cons, <- app_assoc. apply (IH ltac:(intros; apply Hreg; by right) Hnd H0).
  - rewrite E1, E2. apply wd_list_push; [done|done|]. apply Hd. left.
  - intros q Hq. apply not_elem_of_cons. split; [by intros ->|]. apply Hd. by right.
Qed.

(** ** The choice *)

(** Of the objects [ps], in the order of their registration, [b] has a positive
    score, none scores higher, and of those that score the same it is the
    newest. *)
Definition chosen (score : loc -> Z) (ps : list loc) (b : loc) : Prop :=
  exists l1 l2, ps = l1 ++ b :: l2 /\ 0 < score b /\
    (forall q, q ∈ l1 -> score q <= score b) /\ (forall q, q ∈ l2 -> score q < score b).

Lemma chosen_not_zero score ps b : chosen score ps b -> 0 ∉ ps -> b <> 0.
Proof. intros (l1 & l2 & -> & _) H0 ->. apply H0. set_solver. Qed.

Section choice.
Context {W : Type} (probe : loc -> W -> Z * W) (score : loc -> Z).
Context (Hprobe : forall q w, probe q w = (score q, w)).

Fixpoint pick (l : list loc) (best : loc) (bestProbe : Z) : loc :=
  match l with
  | [] => best
  | p :: l => if bestProbe <? score p then pick l p (score p) else pick l best bestProbe
  end.

Lemma probe_loop_pick next l : forall fuel c best bp w, wd_list next c l -> (length l < fuel)%nat ->
  probe_loop probe fuel next c best bp w = Ok (pick l best bp, w).
Proof.
  induction l as [|p l IH]; intros [|fuel] c best bp w Hl Hf; cbn in Hf; try lia; cbn [probe_loop pick].
  { cbn in Hl. by subst c. }
  destruct Hl as (-> & Hp & n & Hn & Hl). rewrite (proj2 (Z.eqb_neq _ _)) by done.
  rewrite !Hprobe. destruct (bp <? score p); rewrite Hn; cbn [deref mbind res_bind];
    apply IH; done || lia.
Qed.

Lemma pick_best l : forall best bp,
  (pick l best bp = best /\ forall q, q ∈ l -> score q <= bp) \/
  exists l1 l2, l = l1 ++ pick l best bp :: l2 /\ bp < score (pick l best bp) /\
    (forall q, q ∈ l1 -> score q < score (pick l best bp)) /\
    (forall q, q ∈ l2 -> score q <= score (pick l best bp)).
Proof.
  induction l as [|p l IH]; intros best bp; cbn [pick]; [left; split; [done|set_solver]|].
  destruct (Z.ltb_spec bp (score p)) as [Hlt|Hge].
  - right. destruct (IH p (score p)) as [[-> Hall]|(l1 & l2 & E & Hb & H1 & H2)].
    + exists [], l. split; [done|]. split; [done|]. split; [set_solver|exact Hall].
    + set (b := pick _ _ _) in *. clearbody b. exists (p :: l1), l2.
      split; [by rewrite E|]. split; [lia|]. split; [|done].
      intros q [->|Hq]%elem_of_cons; [done|by apply H1].
  - destruct (IH best bp) as [[-> Hall]|(l1 & l2 & E & Hb & H1 & H2)].
    + left. split; [done|]. intros q [->|Hq]%elem_of_cons; [done|by apply Hall].
    + right. set (b := pick _ _ _) in *. clearbody b. exists (p :: l1), l2.
      split; [by rewrite E|]. split; [done|]. split; [|done].
      intros q [->|Hq]%elem_of_cons; [lia|by apply H1].
Qed.

Lemma probe_loop_chosen next c ps w : wd_list next c (reverse ps) -> NoDup ps ->
  exists b, probe_loop probe (S (size next)) next c 0 0 w = Ok (b, w) /\
    ((b = 0 /\ Forall (fun q => score q <= 0) ps) \/ chosen score ps b).
Proof.
  intros Hl Hnd. assert (NoDup (reverse ps)) as Hr by (by rewrite reverse_Permutation).
  exists (pick (reverse ps) 0 0). split.
  { apply probe_loop_pick; [done|].
    pose proof (wd_list_size _ _ _ Hl Hr). lia. }
  destruct (pick_best (reverse ps) 0 0) as [[-> Hall]|(l1 & l2 & E & Hb & H1 & H2)].
  - left. split; [done|]. apply Forall_forall. intros q Hq. apply Hall. by apply elem_of_reverse.
  - right. set (b := pick _ _ _) in *. clearbody b. exists (reverse l2), (reverse l1).
    split; [|split; [done|split]].
    + rewrite <- (reverse_involutive ps), E, reverse_app, reverse_cons, <- app_assoc. done.
    + intros q Hq. apply H2. by apply elem_of_reverse.
    + intros q Hq. apply H1. by apply elem_of_reverse.
Qed.
End choice.

(** ** Contracts *)

Lemma active_registered ps s :
  activeClock (foldl (fun s p => ClockProvider_new p s) s ps) = activeClock s.
Proof. revert s. induction ps as [|p ps IH]; intros s; [done|]. cbn [foldl]. by rewrite IH. Qed.

Section contracts.
Context {W : Type} `{ClockProviders W, SystemTimers W}.

(** C36: The clock and the timer.  Whatever the order in which clock sources and
    timers are registered, [probeAndInit] starts exactly one: the one with the
    highest positive score, the newest of those that score the same; with none
    it panics.  Before a clock is started the time is 0; afterwards it is the
    quotient of the value and the frequency, a frequency of 0 panics, and the
    uptime is the time unless that is 0, in which case it is the count of the
    timer ticks. *)
Theorem clock_selected ps ts score tscore w :
  (forall q w, clock_probe q w = (score q, w)) -> (forall q w, timer_probe q w = (tscore q, w)) ->
  NoDup ps -> 0 ∉ ps -> NoDup ts -> 0 ∉ ts ->
  let s := foldl (fun s p => ClockProvider_new p s) no_clocks ps in
  let t := foldl (fun t p => SystemTimer_new p t) (Tmr 0 ∅) ts in
  (forall uptime, getUptime uptime s w = Ok (uptime, w)) /\
  (if decide (Forall (fun q => score q <= 0) ps) then Clock_probeAndInit s w = Panic
   else exists b s', chosen score ps b /\
     Clock_probeAndInit s w = Ok (s', (clock_start b w).2) /\
     forall uptime w', getUptime uptime s' w' =
       let '(freq, w1) := clock_frequency b w' in
       if decide (freq = 0) then Panic
       else let '(v, w2) := clock_value b w1 in
            Ok (if decide (v / freq = 0) then uptime else v / freq, w2)) /\
  (if decide (Forall (fun q => tscore q <= 0) ts) then SystemTimer_probeAndInit t w = Panic
   else exists b, chosen tscore ts b /\ SystemTimer_probeAndInit t w = Ok (timer_start b w).2).
Proof.
  intros Hs Ht Hps Hps0 Hts Ht0 s t.
  assert (wd_list (nextClock s) (clocks s) (reverse ps)) as Hls.
  { rewrite <- (app_nil_r (reverse ps)).
    apply (registered_list ClockProvider_new clocks nextClock ps); done || set_solver. }
  assert (wd_list (nextTimer t) (timers t) (reverse ts)) as Hlt.
  { rewrite <- (app_nil_r (reverse ts)).
    apply (registered_list SystemTimer_new timers nextTimer ts); done || set_solver. }
  pose proof (active_registered ps no_clocks) as Ha. fold s in Ha. cbn in Ha.
  split; [|split].
  - intros uptime. unfold getUptime, getTime. by rewrite Ha.
  - destruct (probe_loop_chosen clock_probe score Hs _ _ _ w Hls Hps) as (b & E & Hb).
    unfold Clock_probeAndInit. rewrite E. cbn [mbind res_bind]. case_decide as Hall.
    + destruct Hb as [[-> _]|(l1 & l2 & -> & Hb & _)]; [done|].
      rewrite Forall_app, Forall_cons in Hall. lia.
    + destruct Hb as [[_ Hb]|Hb]; [done|]. pose proof (chosen_not_zero score ps b Hb Hps0) as Hn.
      rewrite (proj2 (Z.eqb_neq _ _)) by done. cbn [negb kassert mbind res_bind].
      destruct (clock_start b w) as [r w1] eqn:Ew. cbn [snd].
      exists b, (Clk (clocks s) (nextClock s) b). split; [done|]. split; [rewrite Ew; cbn; done|].
      intros uptime w'. unfold getUptime, getTime. cbn [activeClock].
      rewrite (proj2 (Z.eqb_neq _ _)) by done. destruct (clock_frequency b w') as [f w2].
      destruct (Z.eqb_spec f 0) as [Hf|Hf]; cbn [negb kassert mbind res_bind];
        [by rewrite decide_True|rewrite decide_False by done].
      destruct (clock_value b w2) as [v w3]. cbn [mret res_ret mbind res_bind].
      by destruct (Z.eqb_spec (v / f) 0); case_decide.
  - destruct (probe_loop_chosen timer_probe tscore Ht _ _ _ w Hlt Hts) as (b & E & Hb).
    unfold SystemTimer_probeAndInit. rewrite E. cbn [mbind res_bind]. case_decide as Hall.
    + destruct Hb as [[-> _]|(l1 & l2 & -> & Hb & _)]; [done|].
      rewrite Forall_app, Forall_cons in Hall. lia.
    + destruct Hb as [[_ Hb]|Hb]; [done|]. pose proof (chosen_not_zero tscore ts b Hb Ht0) as Hn.
      rewrite (proj2 (Z.eqb_neq _ _)) by done. by exists b.
Qed.
End contracts.

(** A time stamp counter that scores 100 at 16, a slower clock at 32 that is
    registered later, and one timer. *)
Module Sample.
#[global] Instance sample_clocks : ClockProviders Z := {|
  clock_probe := fun p w => (if p =? 16 then 100 else 50, w);
  clock_start := fun p w => (true, w + 1);
  clock_frequency := fun p w => (3000, w);
  clock_value := fun p w => (w * 6000, w) |}.
#[global] Instance sample_timers : SystemTimers Z := {|
  timer_probe := fun p w => (1, w); timer_start := fun p w => (true, w + p) |}.
End Sample.

Lemma clock_selected_witness :
  let s := ClockProvider_new 32 (ClockProvider_new 16 no_clocks) in
  getUptime 7 s 4 = Ok (7, 4) /\
  (exists s', Clock_probeAndInit s 4 = Ok (s', 5) /\ getUptime 7 s' 20 = Ok (40, 20)) /\
  SystemTimer_probeAndInit (SystemTimer_new 48 (Tmr 0 ∅)) 4 = Ok 52.
Proof.
  intros s.
  destruct (clock_selected [16; 32] [48] (fun q => if q =? 16 then 100 else 50) (fun _ => 1) 4)
    as (H1 & H2 & H3).
  - done.
  - done.
  - repeat constructor; set_solver.
  - set_solver.
  - repeat constructor; set_solver.
  - set_solver.
  - split; [exact (H1 7)|]. split.
    + rewrite decide_False in H2 by (intros HF; inversion HF; subst; cbn in *; lia).
      destruct H2 as (b & s' & Hb & E & Hu). exists s'.
      assert (b = 16) as ->.
      { destruct Hb as (l1 & l2 & El & Hb & Hl1 & Hl2). destruct l1 as [|? [|? [|]]]; injection El.
        - by intros _ <-.
        - intros _ <- <-. specialize (Hl1 16 ltac:(left)). cbn in Hl1. lia.
        - discriminate.
        - discriminate. }
      split; [exact E|]. exact (Hu 7 20).
    + rewrite decide_False in H3 by (intros HF; inversion HF; subst; cbn in *; lia).
      destruct H3 as (b & Hb & E). assert (b = 48) as ->; [|exact E].
      destruct Hb as (l1 & l2 & El & _). destruct l1 as [|? [|]]; by injection El.
Defined.

(** ** Drivers *)

Section driver_contracts.
Context {W : Type} `{Drivers W} (score : loc -> Z).
Context (Hprobe : forall q w, driver_probe q w = (score q, w)).

(** What the loop does to a list of drivers. *)
Fixpoint started (l : list loc) (st : gmap loc State) (w : W) : gmap loc State * W :=
  match l with
  | [] => (st, w)
  | q :: l =>
      if decide (st !! q = Some Uninitalized /\ 0 < score q)
      then started l (<[q := Initialized]> st) (driver_init q w).2
      else started l st w
  end.

Lemma driver_loop_started d next l : forall fuel c st w, wd_list next c l -> (length l < fuel)%nat ->
  (forall q, q ∈ l -> is_Some (st !! q)) ->
  driver_loop fuel c (DM d next st) w =
    Ok (DM d next (started l st w).1, (started l st w).2).
Proof.
  induction l as [|q l IH]; intros [|fuel] c st w Hl Hf Hst; cbn in Hf; try lia;
    cbn [driver_loop started].
  { cbn in Hl. by subst c. }
  destruct Hl as (-> & Hq & n & Hn & Hl). rewrite (proj2 (Z.eqb_neq _ _)) by done.
  destruct (Hst q ltac:(left)) as [s Hs]. cbn [stateM nextM driverList].
  rewrite Hs. cbn [deref mbind res_bind].
  assert (forall q', q' ∈ l -> is_Some (st !! q')) as Hst1 by (intros; apply Hst; by right).
  assert (forall q', q' ∈ l -> is_Some (<[q := Initialized]> st !! q')) as Hst2.
  { intros q' Hq'. rewrite lookup_insert. case_decide; [by eexists|]. by apply Hst1. }
  destruct (decide (s = Uninitalized)) as [->|Hu].
  - rewrite Hprobe. destruct (Z.ltb_spec 0 (score q)) as [Hlt|Hge].
    + destruct (driver_init q w) as [r w1] eqn:Ei. cbn [nextM stateM driverList].
      rewrite decide_True by done. rewrite Hn. cbn [deref mbind res_bind snd].
      apply IH; [done|lia|exact Hst2].
    + rewrite decide_False by lia. cbn [nextM]. rewrite Hn. cbn [deref mbind res_bind].
      apply IH; [done|lia|exact Hst1].
  - rewrite decide_False by naive_solver. cbn [nextM]. rewrite Hn. cbn [deref mbind res_bind].
    apply IH; [done|lia|exact Hst1].
Qed.

Lemma started_all l : forall st w, NoDup l -> (forall q, q ∈ l -> st !! q = Some Uninitalized) ->
  (started l st w).2 = foldl (fun w q => (driver_init q w).2) w (filter (fun q => 0 < score q) l) /\
  forall q, (started l st w).1 !! q =
    if decide (q ∈ l /\ 0 < score q) then Some Initialized else st !! q.
Proof.
  induction l as [|p l IH]; intros st w Hnd Hst; cbn [started].
  { split; [done|]. intros q. rewrite decide_False; [done|]. set_solver. }
  apply NoDup_cons in Hnd as [Hp Hnd]. pose proof (Hst p ltac:(left)) as Hsp. rewrite filter_cons.
  destruct (decide (0 < score p)) as [Hs|Hs].
  - rewrite decide_True by done.
    destruct (IH (<[p := Initialized]> st) (driver_init p w).2 Hnd) as [H1 H2].
    { intros q Hq. rewrite lookup_insert_ne by (by intros ->). apply Hst. by right. }
    split; [exact H1|]. intros q. rewrite H2, lookup_insert.
    repeat case_decide; try done; set_solver.
  - rewrite decide_False by tauto.
    destruct (IH st w Hnd) as [H1 H2]; [intros q Hq; apply Hst; by right|].
    split; [exact H1|]. intros q. rewrite H2.
    assert (q ∈ l /\ 0 < score q <-> q ∈ p :: l /\ 0 < score q) as Hiff by set_solver.
    repeat case_decide; tauto || done.
Qed.

Lemma started_none l : forall st w, (forall q, q ∈ l -> st !! q = Some Uninitalized -> score q <= 0) ->
  started l st w = (st, w).
Proof.
  induction l as [|p l IH]; intros st w Hst; cbn [started]; [done|].
  rewrite decide_False; [apply IH; intros q Hq; apply Hst; by right|].
  intros [H1 H2]. specialize (Hst p ltac:(left) H1). lia.
Qed.

Lemma driver_states ps : forall s, (forall q, is_Some (stateM s !! q) -> stateM s !! q = Some Uninitalized) ->
  let s' := foldl (fun s p => Driver_new p s) s ps in
  (forall q, is_Some (stateM s' !! q) -> stateM s' !! q = Some Uninitalized) /\
  (forall q, q ∈ ps \/ is_Some (stateM s !! q) -> is_Some (stateM s' !! q)).
Proof.
  induction ps as [|p ps IH]; intros s Hs; cbn [foldl]; [split; [done|intros q [Hq|Hq]; [set_solver|done]]|].
  destruct (IH (Driver_new p s)) as [H1 H2].
  { intros q. cbn. rewrite lookup_insert. case_decide; [done|apply Hs]. }
  split; [exact H1|]. intros q Hq. apply H2. rewrite elem_of_cons in Hq. cbn.
  rewrite lookup_insert. destruct Hq as [[->|Hq]|Hq]; [|by left|].
  - right. by rewrite decide_True.
  - right. by case_decide.
Qed.

(** C37: [DriverManager::probeAndInit].  Of the drivers that have registered, each
    one that probes positive is initialised once, the newest first, and the
    others stay as they are; a second call initialises nothing. *)
Theorem drivers_started ps w : NoDup ps -> 0 ∉ ps ->
  let s := foldl (fun s p => Driver_new p s) (DM 0 ∅ ∅) ps in
  let ready := filter (fun q => 0 < score q) (reverse ps) in
  exists s', DriverManager_probeAndInit s w =
      Ok (s', foldl (fun w q => (driver_init q w).2) w ready) /\
    (forall q, q ∈ ps ->
       stateM s' !! q = Some (if decide (0 < score q) then Initialized else Uninitalized)) /\
    forall w', DriverManager_probeAndInit s' w' = Ok (s', w').
Proof.
  intros Hnd H0 s ready.
  assert (wd_list (nextM s) (driverList s) (reverse ps)) as Hl.
  { rewrite <- (app_nil_r (reverse ps)).
    apply (registered_list Driver_new driverList nextM ps); [|done|done|done|set_solver].
    intros p s0 _. cbn. by rewrite insert_insert_eq. }
  assert (NoDup (reverse ps)) as Hnr by (by rewrite reverse_Permutation).
  pose proof (wd_list_size _ _ _ Hl Hnr) as Hsz.
  destruct (driver_states ps (DM 0 ∅ ∅)) as [Hu Hin]; [by intros q [? [=]]|]. fold s in Hu, Hin.
  assert (forall q, q ∈ reverse ps -> stateM s !! q = Some Uninitalized) as Hst.
  { intros q Hq. apply Hu, Hin. left. by apply elem_of_reverse. }
  destruct (started_all (reverse ps) (stateM s) w Hnr Hst) as [Hw Hs].
  exists (DM (driverList s) (nextM s) (started (reverse ps) (stateM s) w).1).
  destruct s as [d next st] eqn:Es. cbn [stateM nextM driverList] in *. split; [|split].
  - unfold DriverManager_probeAndInit. cbn [driverList nextM].
    rewrite (driver_loop_started d next (reverse ps)) by (done || lia || (intros q Hq; rewrite Hst by done; by eexists)).
    by rewrite Hw.
  - intros q Hq. rewrite Hs. pose proof (Hst q ltac:(by apply elem_of_reverse)) as Hq1.
    rewrite Hq1. case_decide as Hd; case_decide; try done.
    + tauto.
    + exfalso. apply Hd. split; [by apply elem_of_reverse|done].
  - intros w'. unfold DriverManager_probeAndInit. cbn [driverList nextM].
    assert (forall q, q ∈ reverse ps -> (started (reverse ps) st w).1 !! q =
      Some (if decide (0 < score q) then Initialized else Uninitalized)) as Hs'.
    { intros q Hq. rewrite Hs, (Hst q Hq). repeat case_decide; tauto || done. }
    rewrite (driver_loop_started d next (reverse ps))
      by (done || lia || (intros q Hq; rewrite Hs' by done; by eexists)).
    rewrite started_none; [done|]. intros q Hq. rewrite Hs' by done. case_decide; [done|lia].
Qed.
End driver_contracts.

Lemma drivers_started_witness :
  let log := {| driver_probe := fun p (w : list Z) => (p - 20, w);
                driver_init := fun p w => (true, w ++ [p]) |} in
  let s := Driver_new 30 (Driver_new 10 (Driver_new 40 (DM 0 ∅ ∅))) in
  exists s', DriverManager_probeAndInit (H := log) s [] = Ok (s', [30; 40]) /\
    stateM s' !! 10 = Some Uninitalized /\
    DriverManager_probeAndInit (H := log) s' [5] = Ok (s', [5]).
Proof.
  intros log s.
  destruct (drivers_started (H := log) (fun p => p - 20) ltac:(done) [40; 10; 30] [])
    as (s' & E & Hs & Hn).
  - repeat constructor; set_solver.
  - set_solver.
  - exists s'. split; [exact E|]. split; [|exact (Hn [5])].
    exact (Hs 10 ltac:(right; left)).
Defined.

(** ** The measurements *)

Lemma fold_perm (f : Z -> Z -> Z) a l k : (forall x y z, f x (f y z) = f y (f x z)) ->
  l ≡ₚ k -> foldr f a l = foldr f a k.
Proof. intros Hf. induction 1; cbn; congruence. Qed.

Lemma fold_start (f : Z -> Z -> Z) a r l : (forall x y z, f x (f y z) = f y (f x z)) ->
  foldr f (f r a) l = f r (foldr f a l).
Proof. intros Hf. induction l as [|x l IH]; cbn; [done|]. by rewrite IH, Hf. Qed.

Lemma extremes_folds l : forall mn mx s,
  extremes l mn mx (u32 s) = (foldr Z.min mn l, foldr Z.max mx l, u32 (s + foldr Z.add 0 l)).
Proof.
  induction l as [|r l IH]; intros mn mx s; cbn [extremes foldr]; [by rewrite Z.add_0_r|].
  replace (if r <? mn then r else mn) with (Z.min r mn) by (destruct (Z.ltb_spec r mn); lia).
  replace (if mx <? r then r else mx) with (Z.max r mx) by (destruct (Z.ltb_spec mx r); lia).
  rewrite wrap_add_l, IH, !fold_start by lia. do 2 f_equal. lia.
Qed.

(** The calibration of the time stamp counter.  Whatever the order of the five
    measurements, the frequency is the mean of the middle three, so that neither
    the lowest nor the highest one has any influence, even if their sum
    overflows; it lies between the second and the fourth. *)
Theorem average_middle results a b c d e : results ≡ₚ [a; b; c; d; e] ->
  0 <= a -> a <= b -> b <= c -> c <= d -> d <= e -> e < 2 ^ 32 -> b + c + d < 2 ^ 32 ->
  average results = (b + c + d) / 3 /\ b <= average results <= d.
Proof.
  intros Hp Ha Hab Hbc Hcd Hde He Hs.
  assert (average results = (b + c + d) / 3) as ->; [|split; [done|Z.div_mod_to_equations; lia]].
  unfold average. change 0 with (u32 0) at 2.
  rewrite extremes_folds, (fold_perm Z.min _ _ _ ltac:(lia) Hp),
    (fold_perm Z.max _ _ _ ltac:(lia) Hp), (fold_perm Z.add _ _ _ ltac:(lia) Hp). cbn [foldr].
  rewrite wrap_sub_l, <- Z.sub_add_distr, wrap_sub_l, wrap_id; [f_equal; lia|unfold uint; lia].
Qed.

Lemma average_middle_witness : average [3000; 2999; 4000000000; 3001; 7] = 3000.
Proof.
  destruct (average_middle [3000; 2999; 4000000000; 3001; 7] 7 2999 3000 3001 4000000000) as [E _];
    [|lia..|exact E].
  apply (Permutation_trans (l' := [7; 3000; 2999; 4000000000; 3001]));
    [symmetry; apply (Permutation_middle [3000; 2999; 4000000000; 3001] [] 7)|].
  apply perm_skip. etrans; [apply perm_swap|]. do 2 apply perm_skip. apply perm_swap.
Defined.
