(* ===== verification/Dispatch.v ===== *)
(** * From an interrupt to the next thread

    [x86_isr_dispatcher] and the page fault handler of X86/X86Interrupt.cc, the
    timer tick of Kernel/SystemTimer.cc and Kernel/Time.cc, and the assembly
    around the dispatcher ([x86_isr_vector_common] of X86/Idt.S): the parts
    that tie Context.v, Interrupt.v, Sched.v and Watchdog.v together.  Halting
    and rebooting the machine are [Panic]; a push outside the pages that are
    mapped is [Fault].  The stack frames of the C code, below the interrupt
    frame, are left out. *)

From S2P Require Import Prelude Words Ring Interrupt Context Thread Sched Watchdog.
From Stdlib Require Import ZArith Lia.
From stdpp Require Import prelude gmap list strings.

Open Scope Z_scope.

(** ** The machine *)

(** What device handlers work on: the kernel, the clock, the watchdogs and the
    devices themselves. *)
Record mach (M D : Type) : Type := Mach {
  m_kernel : kernel M;
  m_uptime : Z;
  m_watchdogs : watchdogs;
  m_dev : D;
}.

Arguments Mach {M D} _ _ _ _.
Arguments m_kernel {M D} _.
Arguments m_uptime {M D} _.
Arguments m_watchdogs {M D} _.
Arguments m_dev {M D} _.

(** [interrupt_level], [nestingFlag] of the page fault handler, and the
    interrupt lines. *)
Record disp (M D : Type) : Type := Disp {
  d_level : Z;
  d_nesting : Z;
  d_irq : irq_state (mach M D);
}.

Arguments Disp {M D} _ _ _.
Arguments d_level {M D} _.
Arguments d_nesting {M D} _.
Arguments d_irq {M D} _.

(** Offsets in [InterruptFrame]. *)
Definition offset_eax : Z := 40.
Definition offset_interrupt : Z := 44.
Definition offset_error : Z := 48.

Section dispatch.
Context {M D : Type} `{StackMaker M, StackMapped M, Statics, WatchdogDevices D}.
Context `{InterruptController (mach M D), Devices (mach M D), HandlerTable}.
Implicit Types (d : disp M D) (k : kernel M) (w : mach M D).

Definition d_kernel d : kernel M := m_kernel (world (d_irq d)).
Definition with_kernel d k : disp M D :=
  let w := world (d_irq d) in
  Disp (d_level d) (d_nesting d)
    (with_world (d_irq d) (Mach k (m_uptime w) (m_watchdogs w) (m_dev w))).

(** [SystemTimer::tick]; the frequency is the timer's. *)
Definition tick (frequency : Z) w : res (mach M D) :=
  kassert (frequency <=? 500);;
  if frequency =? 0 then Fault
  else
    let uptime := u64 (m_uptime w + 1000 / frequency) in
    k ← schedule (m_kernel w);
    dev ← kick (m_watchdogs w) (m_dev w);
    Ok (Mach k uptime (m_watchdogs w) dev).

(** [Memory::handlePageFault] handles nothing. *)
Definition handlePageFault (address frame : Z) : bool := false.

Definition x86_isr_page_fault (cr2 frame error : Z) d : res (disp M D) :=
  if 1 <? d_nesting d then Panic
  else if 0 <? d_nesting d then Panic
  else if (Z.land error 1 =? 0) && handlePageFault cr2 frame then Ok d
  else if negb (Z.land error (Z.shiftl 1 2) =? 0) then
    let p := currentProcess (k_sched (d_kernel d)) in
    kassert (negb (p =? kernelProcess (d_kernel d)));;
    k ← Process_delete p (d_kernel d);
    k ← schedule k;
    Ok (with_kernel d k)
  else Panic.

Definition handleSystemCall (syscall arg : Z) : Z := 0.

(** The handler of the frame's interrupt. *)
Definition handle (cr2 frame interrupt error : Z) d : res (disp M D) :=
  if interrupt =? 2 then Ok d
  else if interrupt =? 13 then Panic
  else if interrupt =? 14 then x86_isr_page_fault cr2 frame error d
  else if interrupt =? 128 then
    let k := d_kernel d in
    eax ← deref (stack_words k !! (frame + offset_eax));
    let rv := handleSystemCall eax 0 in
    Ok (with_kernel d (with_memory k (<[frame + offset_eax := rv]> (stack_words k)) (memory k)))
  else if interrupt =? 129 then
    k ← schedule (d_kernel d); Ok (with_kernel d k)
  else if (32 <=? interrupt) && (interrupt <? 48) then
    st ← handleInterrupt (interrupt - 32) (d_irq d);
    Ok (Disp (d_level d) (d_nesting d) st)
  else Panic.

(** After the handler: the context of the thread to resume. *)
Definition switch (interruptedProcess : loc) k : res (Z * kernel M) :=
  th ← get_thread (currentThread (k_sched k)) k;
  let k := if bool_decide (typeM th = UserThread) then with_cpu k (cr3 k) (kernelStackM th) else k in
  k ← (if negb (processM th =? interruptedProcess) then
         kassert (negb (processM th =? 0));; switchContext (processM th) k
       else Ok k);
  kassert (negb (kernelStackM th =? 0));;
  Ok (kernelStackM th, k).

Definition x86_isr_dispatcher (cr2 frame : Z) d : res (Z * disp M D) :=
  let k := d_kernel d in
  interrupt ← deref (stack_words k !! (frame + offset_interrupt));
  error ← deref (stack_words k !! (frame + offset_error));
  if interrupt =? 255 then Ok (frame, d)
  else
    kassert (0 <? d_level d);;
    let interruptedThread := currentThread (k_sched k) in
    th ← get_thread interruptedThread k;
    let interruptedProcess := processM th in
    kassert (interruptedProcess =? currentProcess (k_sched k));;
    let d := with_kernel d (set_thread interruptedThread (setKernelStack frame th) k) in
    d ← handle cr2 frame interrupt error d;
    kassert (0 <? d_level d);;
    '(newFrame, k) ← switch interruptedProcess (d_kernel d);
    Ok (newFrame, with_kernel d k).


(** ** What handlers may do *)

(** Device handlers reach the kernel through [schedule] only. *)
Class DeviceLaws : Prop := {
  device_kernel p w w' : device_handleInterrupt p w = Ok w' ->
    m_kernel w' = m_kernel w \/ schedule (m_kernel w) = Ok (m_kernel w');
  eoi_kernel irq w w' : endOfInterrupt irq w = Ok w' -> m_kernel w' = m_kernel w;
}.

(** The timer keeps to it. *)
Lemma tick_kernel f w w' : tick f w = Ok w' -> schedule (m_kernel w) = Ok (m_kernel w').
Proof.
  unfold tick. intros E. destruct (f <=? 500); [|done]. cbn [kassert mbind res_bind] in E.
  destruct (f =? 0); [done|]. destruct (schedule (m_kernel w)) as [k| | |]; try done.
  cbn [mbind res_bind] in E. destruct (kick _ _) as [dev| | |]; try done. cbn in E. by injection E as <-.
Qed.

(** Between two states of the kernel: threads that survive keep their frame,
    kind and owner, processes that survive their page directory. *)
Record keeps k k' : Prop := {
  keeps_thread t th' : threads k' !! t = Some th' -> exists th, threads k !! t = Some th
    /\ kernelStackM th' = kernelStackM th /\ typeM th' = typeM th /\ processM th' = processM th;
  keeps_process p pr : processes k' !! p = Some pr -> processes k !! p = Some pr;
  keeps_cpu : cr3 k' = cr3 k /\ tss_esp0 k' = tss_esp0 k;
  keeps_words : stack_words k' = stack_words k;
}.

Lemma keeps_refl k : keeps k k.
Proof. constructor; eauto. Qed.

Lemma keeps_trans k1 k2 k3 : keeps k1 k2 -> keeps k2 k3 -> keeps k1 k3.
Proof.
  intros H12 H23. constructor.
  - intros t th3 Ht. destruct (keeps_thread _ _ H23 t th3 Ht) as (th2 & Ht2 & ? & ? & ?).
    destruct (keeps_thread _ _ H12 t th2 Ht2) as (th1 & Ht1 & ? & ? & ?).
    exists th1. split_and!; congruence.
  - intros p pr Hp. by apply (keeps_process _ _ H12), (keeps_process _ _ H23).
  - destruct (keeps_cpu _ _ H12), (keeps_cpu _ _ H23). split; congruence.
  - by rewrite (keeps_words _ _ H23), (keeps_words _ _ H12).
Qed.

Lemma schedule_keeps k k' : schedule k = Ok k' -> keeps k k'.
Proof.
  unfold schedule. intros E. destruct (requeue k) as [s| | |]; try done. cbn [mbind res_bind] in E.
  destruct (pick s) as [next rest]. destruct (negb (next =? 0)); [|done].
  cbn [kassert mbind res_bind] in E. unfold get_thread in E.
  destruct (threads k !! next) as [th|] eqn:Ht; [|done]. cbn [deref mbind res_bind] in E.
  injection E as <-. constructor; cbn; eauto.
  intros t th'. rewrite lookup_insert_Some. intros [[<- <-]|[_ Ht']]; [by exists th|eauto].
Qed.

Lemma kill_keeps p k k' : do_event (Kill p) k = Ok k' -> keeps k k'.
Proof.
  cbn. unfold Process_delete. intros E. destruct (processes k !! p) as [pr|]; [|done].
  cbn [deref mbind res_bind] in E.
  assert (forall l k k', delete_all l k = Ok k' -> keeps k k') as Hall.
  { clear. induction l as [|t l IH]; cbn; intros k k' E; [injection E as <-; apply keeps_refl|].
    destruct (Thread_delete t k) as [k1| | |] eqn:Et; try done. cbn in E.
    apply keeps_trans with k1; [|by apply IH]. destruct (threads k !! t) as [th|] eqn:Ht.
    - rewrite Thread_delete_eq in Et by (by eexists). injection Et as <-. constructor; cbn; eauto.
      intros x xh [_ Hx]%lookup_delete_Some. eauto.
    - unfold Thread_delete, Scheduler_remove, get_thread in Et. cbn in Et. by rewrite Ht in Et. }
  destruct (delete_all _ _) as [k1| | |] eqn:Ed; try done. cbn [mbind res_bind] in E.
  apply Hall in Ed. apply schedule_keeps in E. apply keeps_trans with k1.
  - eapply keeps_trans, Ed. constructor; cbn; eauto.
  - eapply keeps_trans, E. constructor; cbn; eauto. intros q qr [_ Hq]%lookup_delete_Some. done.
Qed.

(** A run of handlers schedules some number of times. *)
Lemma handleInterrupt_ticks `{DeviceLaws} irq st st' : handleInterrupt irq st = Ok st' ->
  exists n, run_events (replicate n Tick) (m_kernel (world st)) = Ok (m_kernel (world st')).
Proof.
  assert (forall p s s', call_handler p s = Ok s' ->
    m_kernel (world s') = m_kernel (world s)
    \/ schedule (m_kernel (world s)) = Ok (m_kernel (world s'))) as Hcall.
  { intros p s s' E. unfold call_handler in E. destruct (handlers s !! p); [|done].
    cbn [deref mbind res_bind] in E. destruct (default_line p) as [i|].
    - destruct (counters s !! i); [|done]. cbn in E. injection E as <-. by left.
    - destruct (device_handleInterrupt p (world s)) as [w| | |] eqn:Ew; try done.
      cbn in E. injection E as <-. by apply (device_kernel p). }
  assert (forall fuel h p s s', execute_loop fuel h p s = Ok s' ->
    exists n, run_events (replicate n Tick) (m_kernel (world s)) = Ok (m_kernel (world s'))) as Hloop.
  { induction fuel as [|fuel IH]; intros h p s s' E; [done|]. cbn [execute_loop] in E.
    destruct (call_handler p s) as [s1| | |] eqn:Ec; try done. cbn [mbind res_bind] in E.
    destruct (getNext p (handlers s1)) as [q| | |]; try done. cbn [mbind res_bind] in E.
    apply Hcall in Ec. destruct (negb (q =? h)).
    - destruct (IH h q s1 s' E) as [n Hn]. destruct Ec as [Ec|Ec].
      + exists n. by rewrite <-Ec.
      + exists (S n). cbn. by rewrite Ec.
    - injection E as <-. destruct Ec as [Ec|Ec]; [exists 0%nat; cbn; by rewrite Ec|].
      exists 1%nat. cbn. by rewrite Ec. }
  unfold handleInterrupt, executeAllHandlers. intros E.
  destruct (irq <? MaxInterrupts); [|done]. cbn [kassert mbind res_bind] in E.
  destruct (getInterruptHandler irq) as [h| | |]; try done. cbn [mbind res_bind] in E.
  destruct (execute_loop _ _ _ _) as [s1| | |] eqn:El; try done. cbn [mbind res_bind] in E.
  destruct (negb (controller s1 =? 0)); [|done]. cbn [kassert mbind res_bind] in E.
  destruct (endOfInterrupt irq (world s1)) as [w| | |] eqn:Ew; try done. cbn in E. injection E as <-.
  apply eoi_kernel in Ew. destruct (Hloop _ _ _ _ _ El) as [n Hn]. exists n. cbn. by rewrite Ew.
Qed.

(** ** The dispatcher *)

Lemma ticks_ok `{!StackMakerLaws M} n : forall k k', kernel_ok k ->
  run_events (replicate n Tick) k = Ok k' -> kernel_ok k' /\ keeps k k'.
Proof.
  induction n as [|n IH]; intros k k' Hk E; cbn in E.
  - injection E as <-. split; [done|apply keeps_refl].
  - destruct (schedule k) as [k1| | |] eqn:Es; try done. cbn in E.
    assert (kernel_ok k1) as Hk1 by (by apply (event_ok Tick k)).
    destruct (IH k1 k' Hk1 E) as [Hk' Hkeep]. split; [done|].
    eapply keeps_trans, Hkeep. by apply schedule_keeps.
Qed.

Lemma kernel_ok_memory k (ws : gmap Z Z) m : kernel_ok k -> kernel_ok (with_memory k ws m).
Proof. by intros [? ? ?]. Qed.

(** [k'] comes from [k] by the handler, the word at [eax] possibly written. *)
Definition handled (eax : Z) k k' : Prop :=
  kernel_ok k' /\ exists words, keeps (with_memory k words (memory k)) k'
    /\ forall a, a <> eax -> words !! a = stack_words k !! a.

Lemma handled_keeps eax k k' : kernel_ok k' -> keeps k k' -> handled eax k k'.
Proof.
  intros Hk Hkeep. split; [done|]. exists (stack_words k). split; [|done].
  by destruct Hkeep as [? ? ? ?]; constructor.
Qed.

Lemma handle_ok `{!StackMakerLaws M, !DeviceLaws} cr2 frame i error d d' : kernel_ok (d_kernel d) ->
  handle cr2 frame i error d = Ok d' -> handled (frame + offset_eax) (d_kernel d) (d_kernel d').
Proof.
  intros Hk E. unfold handle in E. destruct (i =? 2).
  { injection E as <-. by apply handled_keeps, keeps_refl. }
  destruct (i =? 13); [done|]. destruct (i =? 14).
  { unfold x86_isr_page_fault, handlePageFault in E. rewrite andb_false_r in E.
    destruct (1 <? d_nesting d), (0 <? d_nesting d); try done.
    destruct (negb (Z.land error (Z.shiftl 1 2) =? 0)); [|done].
    destruct (negb (_ =? kernelProcess (d_kernel d))) eqn:Ep; [|done]. cbn [kassert mbind res_bind] in E.
    zbool. set (p := currentProcess _) in *.
    destruct (do_event (Kill p) (d_kernel d)) as [k'| | |] eqn:Ek; pose proof Ek as Ek';
      cbn in Ek'; destruct (Process_delete p (d_kernel d)) as [k1| | |]; try done;
      cbn [mbind res_bind] in *; rewrite Ek' in E; try done.
    cbn in E. injection E as <-. apply handled_keeps; cbn.
    - by apply (event_ok (Kill p) (d_kernel d) k').
    - by eapply kill_keeps. }
  destruct (i =? 128).
  { destruct (stack_words _ !! _) as [eax|]; [|done]. cbn in E. injection E as <-.
    split; [by apply kernel_ok_memory|]. eexists. split; [apply keeps_refl|].
    intros a Ha. cbn. by rewrite lookup_insert_ne. }
  destruct (i =? 129).
  { destruct (schedule _) as [k'| | |] eqn:Es; try done. cbn in E. injection E as <-.
    apply handled_keeps; [by apply (event_ok Tick (d_kernel d))|by apply schedule_keeps]. }
  destruct (_ && _); [|done]. destruct (handleInterrupt _ _) as [st| | |] eqn:Eh; try done.
  cbn in E. injection E as <-. apply handleInterrupt_ticks in Eh as [n Hn].
  apply ticks_ok in Hn as [Hk' Hkeep]; [|done]. by apply handled_keeps.
Qed.

(** The page directory in [cr3] is the current process's. *)
Definition cr3_ok k : Prop :=
  exists pr, processes k !! currentProcess (k_sched k) = Some pr /\ cr3 k = contextM pr.

(** [switch] resumes the current thread in its process. *)
Lemma switch_ok ip k f k' : kernel_ok k ->
  (forall pr, processes k !! ip = Some pr -> cr3 k = contextM pr) -> switch ip k = Ok (f, k') ->
  kernel_ok k' /\ cr3_ok k' /\ threads k' = threads k /\ k_sched k' = k_sched k
  /\ stack_words k' = stack_words k
  /\ exists th, threads k !! currentThread (k_sched k) = Some th /\ f = kernelStackM th
     /\ (typeM th = UserThread -> tss_esp0 k' = f).
Proof.
  intros Hk Hcr E. pose proof Hk as [Hok Hps (th & Hth & Hp)].
  destruct (ok_process _ _ _ Hps _ _ Hth) as [pr Hpr].
  unfold switch, get_thread in E. rewrite Hth in E. cbn [deref mbind res_bind] in E.
  set (k1 := if bool_decide _ then _ else _) in E.
  assert (kernel_ok k1 /\ cr3 k1 = cr3 k /\ threads k1 = threads k /\ k_sched k1 = k_sched k
    /\ processes k1 = processes k /\ stack_words k1 = stack_words k
    /\ (typeM th = UserThread -> tss_esp0 k1 = kernelStackM th)) as (Hk1 & Hc & Ht & Hs & Hpp & Hw & He).
  { unfold k1. case_bool_decide; [|by split_and!]. split_and!; try done. by destruct Hk. }
  clearbody k1. destruct (processM th =? ip) eqn:Eq; zbool; cbn [negb] in E.
  - cbn [mbind res_bind] in E. destruct (negb (kernelStackM th =? 0)); [|done].
    cbn in E. injection E as <- <-. split_and!; try done; [|by eauto].
    exists pr. rewrite Hs, Hpp, <-Hp. split; [done|]. rewrite Hc. apply Hcr. by rewrite <-Eq.
  - destruct (negb (processM th =? 0)); [|done]. cbn [kassert mbind res_bind] in E.
    unfold switchContext in E. rewrite Hpp, Hpr in E. cbn [deref mbind res_bind] in E.
    destruct (negb (kernelStackM th =? 0)); [|done]. cbn in E. injection E as <- <-.
    split_and!; try done; [by destruct Hk1| |by eauto].
    exists pr. cbn. rewrite Hs, Hpp, <-Hp. done.
Qed.

Lemma save_frame_ok k th frame : kernel_ok k -> threads k !! currentThread (k_sched k) = Some th ->
  kernel_ok (set_thread (currentThread (k_sched k)) (setKernelStack frame th) k).
Proof.
  intros [Hok Hps Hcur] Hth. constructor; cbn.
  - eapply threads_ok_ext, Hok. by apply (fmap_insert_same stateM _ _ th).
  - eapply procs_ok_ext, Hps. by apply (fmap_insert_same processM _ _ th).
  - eapply current_ok_ext, Hcur; [|done|done]. by apply (fmap_insert_same processM _ _ th).
Qed.

(** What a dispatch leaves, when it returns. *)
Lemma dispatch_returns `{!StackMakerLaws M, !DeviceLaws} cr2 frame d i
  (Hok : kernel_ok (d_kernel d)) (Hcr : cr3_ok (d_kernel d))
  (Hi : stack_words (d_kernel d) !! (frame + offset_interrupt) = Some i) (Hv : i <> 255) :
  forall newFrame d', x86_isr_dispatcher cr2 frame d = Ok (newFrame, d') ->
     let k := d_kernel d in let k' := d_kernel d' in
     kernel_ok k' /\ cr3_ok k'
     /\ (exists th, threads k' !! currentThread (k_sched k') = Some th /\ newFrame = kernelStackM th
          /\ (typeM th = UserThread -> tss_esp0 k' = newFrame))
     /\ (forall t th', threads k' !! t = Some th' -> exists th, threads k !! t = Some th
          /\ kernelStackM th' = if decide (t = currentThread (k_sched k)) then frame else kernelStackM th)
     /\ (forall a, a <> frame + offset_eax -> stack_words k' !! a = stack_words k !! a).
Proof.
  pose proof Hok as [_ Hps (th & Hth & Hp)].
  intros newFrame d' E. unfold x86_isr_dispatcher in E. rewrite Hi in E.
  cbn [deref mbind res_bind] in E. destruct (stack_words _ !! (frame + offset_error)) as [err|]; [|done].
  cbn [deref mbind res_bind] in E. rewrite (proj2 (Z.eqb_neq _ _) Hv) in E.
  destruct (0 <? d_level d); [|done]. cbn [kassert mbind res_bind] in E.
  unfold get_thread in E. rewrite Hth in E. cbn [deref mbind res_bind] in E.
  rewrite Hp, Z.eqb_refl in E. cbn [kassert mbind res_bind] in E.
  set (d1 := with_kernel d _) in E.
  pose proof (save_frame_ok _ _ frame Hok Hth) as Hk1. change (kernel_ok (d_kernel d1)) in Hk1.
  destruct (handle cr2 frame i err d1) as [d2| | |] eqn:Eh; try done.
  cbn [mbind res_bind] in E. destruct (0 <? d_level d2); [|done]. cbn [kassert mbind res_bind] in E.
  destruct (handle_ok _ _ _ _ _ _ Hk1 Eh) as (Hk2 & words & Hkeep & Hwords).
  destruct (switch _ (d_kernel d2)) as [[f k3]| | |] eqn:Es; try done.
  cbn in E. injection E as <- <-. apply switch_ok in Es as (Hk3 & Hcr3 & Ht3 & Hs3 & Hw3 & tn & Htn & Hf & Hu);
    [|done|].
  - cbn. change (d_kernel (with_kernel d2 k3)) with k3. split_and!; [done|done| | |].
    + exists tn. by rewrite Ht3, Hs3.
    + intros t th' Ht. rewrite Ht3 in Ht. destruct (keeps_thread _ _ Hkeep t th' Ht) as (t0 & Ht0 & Ek & _ & _).
      cbn in Ht0. case_decide as Ec.
      * subst t. rewrite lookup_insert_eq in Ht0. injection Ht0 as <-. exists th. by rewrite Ek.
      * rewrite lookup_insert_ne in Ht0 by done. by exists t0.
    + intros a Ha. rewrite Hw3, (keeps_words _ _ Hkeep). cbn. by rewrite Hwords.
  - intros pr Hpr. apply (keeps_process _ _ Hkeep) in Hpr. destruct (keeps_cpu _ _ Hkeep) as [Ec _].
    destruct Hcr as (pr0 & Hpr0 & Ecr). cbn in Hpr, Ec. rewrite Hpr0 in Hpr. injection Hpr as <-.
    by rewrite Ec.
Qed.

(** Yields and system calls return. *)
Lemma dispatch_total `{!StackMakerLaws M, !DeviceLaws} cr2 frame d i
  (Hok : kernel_ok (d_kernel d)) (Hcr : cr3_ok (d_kernel d))
  (Hi : stack_words (d_kernel d) !! (frame + offset_interrupt) = Some i) (Hv : i <> 255) :
  0 < d_level d -> frame <> 0 -> i = 129 \/ i = 128 ->
     is_Some (stack_words (d_kernel d) !! (frame + offset_error)) ->
     is_Some (stack_words (d_kernel d) !! (frame + offset_eax)) ->
     (forall t th, threads (d_kernel d) !! t = Some th -> kernelStackM th <> 0) ->
     (forall t th, threads (d_kernel d) !! t = Some th -> processM th <> 0) ->
     exists newFrame d', x86_isr_dispatcher cr2 frame d = Ok (newFrame, d').
Proof.
  pose proof Hok as [_ Hps (th & Hth & Hp)].
  intros Hl Hf Hiv [err Herr] [eax Heax] Hstk Hproc. unfold x86_isr_dispatcher.
  rewrite Hi, Herr. cbn [deref mbind res_bind]. rewrite (proj2 (Z.eqb_neq _ _) Hv).
  rewrite (proj2 (Z.ltb_lt _ _) Hl). cbn [kassert mbind res_bind]. unfold get_thread.
  rewrite Hth. cbn [deref mbind res_bind]. rewrite Hp, Z.eqb_refl. cbn [kassert mbind res_bind].
  set (d1 := with_kernel d _). pose proof (save_frame_ok _ _ frame Hok Hth) as Hk1.
  change (kernel_ok (d_kernel d1)) in Hk1.
  assert (forall t x, threads (d_kernel d1) !! t = Some x -> kernelStackM x <> 0 /\ processM x <> 0) as Hx.
  { intros t x. cbn. rewrite lookup_insert_Some. intros [[<- <-]|[_ Ht]]; [|by eauto].
    cbn. split; [done|by eapply Hproc]. }
  assert (exists d2, handle cr2 frame i err d1 = Ok d2 /\ d_level d2 = d_level d) as (d2 & Eh & El).
  { destruct Hiv as [-> | ->]; unfold handle; cbn [Z.eqb Pos.eqb].
    - destruct (schedule_ok (d_kernel d1) (ok_threads _ Hk1)) as (tx & _ & ->). by eexists.
    - change (stack_words (d_kernel d1)) with (stack_words (d_kernel d)). rewrite Heax. by eexists. }
  rewrite Eh. cbn [mbind res_bind]. rewrite El, (proj2 (Z.ltb_lt _ _) Hl). cbn [kassert mbind res_bind].
  destruct (handle_ok _ _ _ _ _ _ Hk1 Eh) as (Hk2 & words & Hkeep & _).
  pose proof Hk2 as [_ Hps2 (tn & Htn & Hpn)]. destruct (ok_process _ _ _ Hps2 _ _ Htn) as [pn Hpn'].
  destruct (keeps_thread _ _ Hkeep _ _ Htn) as (t0 & Ht0 & Ek & _ & Eo).
  destruct (Hx _ _ Ht0) as [Hk0 Hp0]. unfold switch, get_thread. rewrite Htn. cbn [deref mbind res_bind].
  rewrite (proj2 (Z.eqb_neq (kernelStackM tn) 0)) by congruence.
  rewrite (proj2 (Z.eqb_neq (processM tn) 0)) by congruence. unfold switchContext.
  destruct (bool_decide _), (processM tn =? _); cbn [negb kassert mbind res_bind processes with_cpu];
    rewrite ?Hpn'; cbn; eauto.
Qed.

(** C34: the dispatcher saves the interrupted thread's frame in that thread and
    no other, resumes the current thread, as the handlers left it, at the frame
    that was saved for it, with its process's page directory loaded (and, for a
    user thread, its frame as the next kernel stack), and writes no stack word
    but the [eax] of a system call; the invariant of the scheduler is kept.  A
    yield or a system call always comes back. *)
Theorem dispatch_switch `{!StackMakerLaws M, !DeviceLaws} cr2 frame d i
  (Hok : kernel_ok (d_kernel d)) (Hcr : cr3_ok (d_kernel d))
  (Hi : stack_words (d_kernel d) !! (frame + offset_interrupt) = Some i) (Hv : i <> 255) :
  (forall newFrame d', x86_isr_dispatcher cr2 frame d = Ok (newFrame, d') ->
     let k := d_kernel d in let k' := d_kernel d' in
     kernel_ok k' /\ cr3_ok k'
     /\ (exists th, threads k' !! currentThread (k_sched k') = Some th /\ newFrame = kernelStackM th
          /\ (typeM th = UserThread -> tss_esp0 k' = newFrame))
     /\ (forall t th', threads k' !! t = Some th' -> exists th, threads k !! t = Some th
          /\ kernelStackM th' = if decide (t = currentThread (k_sched k)) then frame else kernelStackM th)
     /\ (forall a, a <> frame + offset_eax -> stack_words k' !! a = stack_words k !! a))
  /\ (0 < d_level d -> frame <> 0 -> i = 129 \/ i = 128 ->
     is_Some (stack_words (d_kernel d) !! (frame + offset_error)) ->
     is_Some (stack_words (d_kernel d) !! (frame + offset_eax)) ->
     (forall t th, threads (d_kernel d) !! t = Some th -> kernelStackM th <> 0) ->
     (forall t th, threads (d_kernel d) !! t = Some th -> processM th <> 0) ->
     exists newFrame d', x86_isr_dispatcher cr2 frame d = Ok (newFrame, d')).
Proof. split; [by apply (dispatch_returns _ _ _ i)|by apply dispatch_total]. Qed.

(** ** System calls of a user thread *)












End dispatch.

(** ** Two kernel threads and a yield *)

Section sample.
#[local] Existing Instance sample_statics.
#[local] Existing Instance sample_stacks.
#[local] Existing Instance sample_stacks_laws.
#[local] Instance no_watchdogs : WatchdogDevices unit := {| kick_device _ w := Ok w |}.
#[local] Instance timer_table : HandlerTable := {| interruptHandlers := 4096 |}.
#[local] Instance timer_devices : Devices (mach Z unit) := {| device_handleInterrupt p w := tick 100 w |}.
#[local] Instance timer_controller : InterruptController (mach Z unit) :=
  {| endOfInterrupt _ w := Ok w; controller_enableInterrupt _ w := Ok w;
     controller_disableInterrupt _ w := Ok w |}.

#[local] Instance timer_laws : DeviceLaws.
Proof.
  constructor.
  - intros p w w' E. right. by apply (tick_kernel 100).
  - intros irq w w' E. by injection E as <-.
Qed.

Definition yielding : kernel Z :=
  match run_events sample_events sample_kernel with
  | Ok k => with_memory k (<[0x5000 + 44 := 129]> (<[0x5000 + 48 := 0]> (<[0x5000 + 40 := 7]> ∅))) (memory k)
  | _ => sample_kernel
  end.

Definition disp_of (k : kernel Z) : disp Z unit :=
  Disp 1 0 (IrqState ∅ [] 1 (Mach k 0 (Watchdogs ∅ 0) tt)).

Lemma yielding_ok : kernel_ok yielding.
Proof.
  assert (exists k, run_events sample_events sample_kernel = Ok k) as [k E]
    by (eexists; vm_compute; reflexivity).
  unfold yielding. rewrite E. apply kernel_ok_memory.
  eapply run_ok; [|exact sample_allowed|exact E].
  eapply (Scheduler_init_ok 4096 0xff000000); [split; [discriminate|split; discriminate]|vm_compute; reflexivity].
Qed.

Lemma dispatch_switch_witness : exists newFrame d',
  x86_isr_dispatcher 0 0x5000 (disp_of yielding) = Ok (newFrame, d') /\ cr3_ok (d_kernel d')
  /\ forall t th', threads (d_kernel d') !! t = Some th' -> exists th, threads yielding !! t = Some th
     /\ kernelStackM th' = if decide (t = currentThread (k_sched yielding)) then 0x5000 else kernelStackM th.
Proof.
  assert (exists newFrame d', x86_isr_dispatcher 0 0x5000 (disp_of yielding) = Ok (newFrame, d'))
    as (newFrame & d' & E) by (do 2 eexists; vm_compute; reflexivity).
  exists newFrame, d'. split; [exact E|].
  destruct (dispatch_switch 0 0x5000 (disp_of yielding) 129 yielding_ok) as [H _].
  - eexists. split; [vm_compute; reflexivity|vm_compute; reflexivity].
  - vm_compute. reflexivity.
  - discriminate.
  - destruct (H _ _ E) as (_ & Hc & _ & Hf & _). split; [exact Hc|exact Hf].
Defined.


(** In the sample the stacks lie above the lowest address given out. *)
#[local] Instance sample_mapped : StackMapped Z := {| stack_mapped m a := m <=? a |}.


End sample.
