(* ===== verification/Monitor.v ===== *)
(** * The monitor's command line (Supervisor/Monitor.cc)

    The monitor reads lines into a buffer of 128 bytes, completes what was typed
    at a question mark if a single command begins with it, and lists the commands
    that do otherwise; a whole line is looked up among the registered commands.
    The characters that are typed are a list, which may end before a line is
    complete: then the monitor waits.  Printing is a class, because commands
    print too. *)

From S2P Require Import Prelude Words Ring.
From Stdlib Require Import ZArith Lia.
From stdpp Require Import prelude list.

Open Scope Z_scope.

(** [print] shows a text; [run_command] is the virtual method [run], which may
    not come back: of the registered commands "reboot" and "deadlock" never do.
    [stack_bytes] is what is in the memory of the buffer before it is written. *)
Class MonitorWorld (W : Type) := {
  print : list Z -> W -> W;
  run_command : loc -> list Z -> W -> res W;
  stack_bytes : W -> list Z;
}.

(** A command and its name. *)
Abbreviation CommandPair := (prod Z (list Z)) (only parsing).

Definition registerCommand (command : loc) (name : list Z) (commands : list CommandPair) :
    list CommandPair := commands ++ [(command, name)].

Definition prompt : list Z := [62].
Definition newline : Z := 10.
Definition question : Z := 63.
Definition help_text : list Z := [104; 101; 108; 112].
Definition exit_text : list Z := [101; 120; 105; 116].
Definition available_text : list Z :=
  [65; 118; 97; 105; 108; 97; 98; 108; 101; 32; 99; 111; 109; 109; 97; 110; 100; 115; 58; 10].
Definition entering_text : list Z :=
  [10; 69; 110; 116; 101; 114; 105; 110; 103; 32; 69; 83; 82; 84; 75; 32;
   77; 111; 110; 105; 116; 111; 114; 10; 10].

(** The string at the start of some bytes. *)
Fixpoint cstring (l : list Z) : list Z :=
  match l with
  | [] => []
  | b :: l => if b =? 0 then [] else b :: cstring l
  end.

(** [strlen(cmd) >= partlen && strncmp(part, cmd, partlen) == 0] *)
Definition matches (part cmd : list Z) : bool :=
  (length part <=? length cmd)%nat && bool_decide (take (length part) cmd = part).

(** The buffer after [snprintf(part, len, "%s", s)]. *)
Definition snprintf_s (s : list Z) (len : nat) (part : list Z) : list Z :=
  let t := take (len - 1) s in
  t ++ 0 :: drop (S (length t)) part.

Definition sizeof_buffer : nat := 128.

Fixpoint expand_loop (commands : list CommandPair) (part : list Z) (expanded : option (list Z))
    (count : nat) : option (list Z) * nat :=
  match commands with
  | [] => (expanded, count)
  | (_, name) :: commands =>
      let cmd := cstring name in
      if matches (cstring part) cmd then
        expand_loop commands part (match expanded with None => Some cmd | _ => expanded end) (S count)
      else expand_loop commands part expanded count
  end.

Definition expand (commands : list CommandPair) (part : list Z) (len : nat) : bool * list Z :=
  match expand_loop commands part None 0 with
  | (Some expanded, 1%nat) => (true, snprintf_s expanded len part)
  | _ => (false, part)
  end.

Section monitor.
Context {W : Type} `{MonitorWorld W} (commands : list CommandPair).

(** The loop of [complete], and of the command [help]. *)
Fixpoint show_names (cs : list CommandPair) (w : W) : W :=
  match cs with
  | [] => w
  | (_, name) :: cs => show_names cs (print (32 :: 32 :: cstring name ++ [newline]) w)
  end.

Fixpoint complete_loop (cs : list CommandPair) (part : list Z) (w : W) : W :=
  match cs with
  | [] => w
  | (_, name) :: cs =>
      let cmd := cstring name in
      complete_loop cs part
        (if matches (cstring part) cmd then print (32 :: 32 :: cmd ++ [newline]) w else w)
  end.

Definition complete (part : list Z) (w : W) : W := complete_loop commands part w.

(** The loop of [getCommand]: the line and the characters behind it, or [None]
    if the monitor waits. *)
Fixpoint getCommand_loop (input : list Z) (i : nat) (buffer : list Z) (w : W) :
    option (list Z * list Z) * W :=
  if (i <? sizeof_buffer - 1)%nat then
    match input with
    | [] => (None, w)
    | c :: input =>
        if c =? question then
          let buffer := <[i := 0]> buffer in
          match expand commands buffer sizeof_buffer with
          | (true, buffer) =>
              let w := print (cstring (drop i buffer)) w in
              getCommand_loop input (length (cstring buffer)) buffer w
          | (false, buffer) =>
              let w := print [newline] w in
              let w := complete buffer w in
              let w := print (prompt ++ 32 :: cstring buffer) w in
              getCommand_loop input i buffer w
          end
        else if c =? newline then (Some (take i buffer, input), w)
        else getCommand_loop input (S i) (<[i := c]> buffer) w
    end
  else (Some (take i buffer, input), w).

Definition getCommand (input : list Z) (w : W) : option (list Z * list Z) * W :=
  getCommand_loop input 0 (stack_bytes w) (print (prompt ++ [32]) w).

(** The loop over the commands with the name that was typed. *)
Fixpoint run_all (cs : list CommandPair) (command : list Z) (w : W) : res W :=
  match cs with
  | [] => mret w
  | (handler, name) :: cs =>
      w ← (if decide (name = command) then run_command handler command w else mret w);
      run_all cs command w
  end.

(** [true] if the monitor was left, [false] if it waits. *)
Fixpoint enter_loop (fuel : nat) (input : list Z) (w : W) : res (bool * list Z * W) :=
  match fuel with
  | O => NoFuel
  | S fuel =>
      match getCommand input w with
      | (None, w) => mret (false, [], w)
      | (Some (command, input), w) =>
          if decide (command = help_text) then
            enter_loop fuel input (show_names commands (print available_text w))
          else if decide (command = exit_text) then mret (true, input, w)
          else w ← run_all commands command w; enter_loop fuel input w
      end
  end.

Definition enter (input : list Z) (w : W) : res (bool * list Z * W) :=
  enter_loop (S (length input)) input (print entering_text w).
End monitor.

(** ** The line editor, without a buffer *)

Section reference.
Context {W : Type} `{MonitorWorld W} (commands : list CommandPair).
Implicit Types (w : W) (line : list Z).

Definition names : list (list Z) := (fun c => cstring c.2) <$> commands.
Definition candidates line : list (list Z) := filter (fun n => matches line n = true) names.

Definition show_name w (n : list Z) : W := print (32 :: 32 :: n ++ [newline]) w.

(** What was typed so far is [line]; a line ends at 127 characters too. *)
Fixpoint edit (input line : list Z) w : option (list Z * list Z) * W :=
  if (length line <? 127)%nat then
    match input with
    | [] => (None, w)
    | c :: input =>
        if c =? question then
          match candidates line with
          | [n] => edit input (take 127 n) (print (drop (length line) (take 127 n)) w)
          | ns => edit input line (print (prompt ++ 32 :: line) (foldl show_name (print [newline] w) ns))
          end
        else if c =? newline then (Some (line, input), w)
        else edit input (line ++ [c]) w
    end
  else (Some (line, input), w).

(** One after the other, as long as they come back. *)
Fixpoint fold_res {A : Type} (f : A -> W -> res W) (l : list A) (w : W) : res W :=
  match l with
  | [] => Ok w
  | a :: l => f a w ≫= fold_res f l
  end.

(** What a line does. *)
Definition run_line (line : list Z) w : res W :=
  if decide (line = help_text) then Ok (foldl show_name (print available_text w) names)
  else fold_res (fun c => run_command c.1 line) (filter (fun c => c.2 = line) commands) w.

Definition show_prompt w : W := print (prompt ++ [32]) w.

(** *** Strings in the buffer *)

Lemma cstring_app l k : Forall (fun b => b <> 0) l -> cstring (l ++ 0 :: k) = l.
Proof.
  induction 1 as [|b l Hb _ IH]; [done|]. cbn [app cstring].
  rewrite (proj2 (Z.eqb_neq _ _)) by done. by rewrite IH.
Qed.

Lemma cstring_nonzero l : Forall (fun b => b <> 0) (cstring l).
Proof.
  induction l as [|b l IH]; cbn [cstring]; [constructor|].
  destruct (Z.eqb_spec b 0); [constructor|by constructor].
Qed.

Lemma names_nonzero n : n ∈ names -> Forall (fun b => b <> 0) n.
Proof. intros Hn. apply list_elem_of_fmap in Hn as (c & -> & _). apply cstring_nonzero. Qed.

Lemma matches_prefix line n : matches line n = true -> exists k, n = line ++ k.
Proof.
  unfold matches. rewrite andb_true_iff, bool_decide_eq_true. intros [_ Ht].
  exists (drop (length line) n). rewrite <- Ht at 1. by rewrite take_drop.
Qed.

(** *** The loops *)

Lemma expand_loop_ok cs part : forall e k,
  expand_loop cs part e k =
    (match e with Some x => Some x
     | None => head (filter (fun n => matches (cstring part) n = true) ((fun c => cstring c.2) <$> cs)) end,
     k + length (filter (fun n => matches (cstring part) n = true) ((fun c => cstring c.2) <$> cs)))%nat.
Proof.
  induction cs as [|[h name] cs IH]; intros e k; cbn [expand_loop fmap list_fmap snd].
  { rewrite filter_nil, Nat.add_0_r. by destruct e. }
  rewrite filter_cons. destruct (matches (cstring part) (cstring name)).
  - rewrite decide_True by done. rewrite IH. cbn [head length]. destruct e; f_equal; lia.
  - by rewrite decide_False by done.
Qed.

Lemma expand_candidates part line : cstring part = line ->
  expand commands part sizeof_buffer =
    match candidates line with [n] => (true, snprintf_s n 128 part) | _ => (false, part) end.
Proof.
  intros <-. unfold expand. rewrite expand_loop_ok. fold names. fold (candidates (cstring part)).
  by destruct (candidates (cstring part)) as [|n [|]].
Qed.

Lemma complete_ok part line w : cstring part = line ->
  complete commands part w = foldl show_name w (candidates line).
Proof.
  intros <-. unfold complete, candidates, names. revert w. generalize commands as cs.
  induction cs as [|[h name] cs IH]; intros w; cbn [complete_loop fmap list_fmap snd]; [done|].
  rewrite filter_cons, IH. by destruct (matches (cstring part) (cstring name)).
Qed.

Lemma show_names_ok w : show_names commands w = foldl show_name w names.
Proof.
  unfold names. revert w. generalize commands as cs.
  induction cs as [|[h name] cs IH]; intros w; cbn [show_names]; [done|]. by rewrite IH.
Qed.

Lemma run_all_ok line w : run_all commands line w =
  fold_res (fun c => run_command c.1 line) (filter (fun c => c.2 = line) commands) w.
Proof.
  revert w. generalize commands as cs.
  induction cs as [|[h name] cs IH]; intros w; cbn [run_all]; [done|]. rewrite filter_cons.
  cbn [snd]. destruct (decide (name = line)); [|by apply IH]. cbn [fold_res fst].
  destruct (run_command h line w); [apply IH|done..].
Qed.

(** A buffer of 128 bytes that holds [line] and a terminator. *)
Lemma buffer_ends i (buffer line : list Z) : length buffer = 128%nat -> (i < 128)%nat ->
  take i buffer = line -> <[i := 0]> buffer = line ++ 0 :: drop (S i) buffer.
Proof. intros Hb Hi <-. by rewrite insert_take_drop by lia. Qed.

Lemma getCommand_loop_edit input : forall i buffer line w,
  Forall (fun c => c <> 0) input -> length buffer = 128%nat ->
  i = length line -> (i <= 127)%nat -> take i buffer = line -> Forall (fun c => c <> 0) line ->
  getCommand_loop commands input i buffer w = edit input line w.
Proof.
  induction input as [|c input IH]; intros i buffer line w Hin Hb -> Hi Ht Hl;
    cbn [getCommand_loop edit]; change (sizeof_buffer - 1)%nat with 127%nat;
    (destruct (length line <? 127)%nat eqn:E; [|by rewrite Ht]); [done|].
  apply Nat.ltb_lt in E. apply Forall_cons in Hin as [Hc Hin].
  destruct (c =? question).
  - pose proof (buffer_ends (length line) buffer line Hb ltac:(lia) Ht) as Eb.
    set (buffer0 := <[length line := 0]> buffer) in *.
    assert (length buffer0 = 128%nat) as Hb0 by (unfold buffer0; by rewrite length_insert).
    assert (cstring buffer0 = line) as Ec by (rewrite Eb; by apply cstring_app).
    assert (take (length line) buffer0 = line) as Ht0 by (rewrite Eb; apply take_app_length).
    rewrite (expand_candidates buffer0 line Ec).
    assert (forall ns, ns = candidates line ->
      getCommand_loop commands input (length line) buffer0
        (print (prompt ++ 32 :: cstring buffer0) (complete commands buffer0 (print [newline] w))) =
      edit input line (print (prompt ++ 32 :: line) (foldl show_name (print [newline] w) ns))) as Hshow.
    { intros ns ->. rewrite (complete_ok buffer0 line _ Ec), Ec. by apply IH. }
    destruct (candidates line) as [|n [|n2 ns]] eqn:Ecand; [by apply Hshow| |by apply Hshow].
    assert (n ∈ candidates line) as Hn by (rewrite Ecand; left).
    apply list_elem_of_filter in Hn as [Hm Hn]. apply names_nonzero in Hn.
    apply matches_prefix in Hm as [k ->].
    set (t := take 127 (line ++ k)).
    assert (length t <= 127)%nat as Hlt by (unfold t; rewrite length_take; lia).
    assert (length line <= length t)%nat as Hle by (unfold t; rewrite length_take, length_app; lia).
    assert (Forall (fun c => c <> 0) t) as Hnt by (by apply Forall_take).
    assert (snprintf_s (line ++ k) 128 buffer0 = t ++ 0 :: drop (S (length t)) buffer0) as -> by done.
    rewrite cstring_app by done.
    rewrite drop_app_le by done. rewrite cstring_app by (by apply Forall_drop).
    apply IH; try done.
    + rewrite length_app. cbn [length]. rewrite length_drop. lia.
    + apply take_app_length.
  - destruct (c =? newline); [by rewrite Ht|]. apply IH; try done.
    + by rewrite length_insert.
    + rewrite length_app. cbn. lia.
    + rewrite (take_S_r _ _ c); [|apply list_lookup_insert_eq; lia].
      f_equal. rewrite take_insert_ge by lia. done.
    + apply Forall_app. split; [done|by constructor].
Qed.

(** *** Sessions *)

(** A line without special characters that fits into the buffer. *)
Definition plain (l : list Z) : Prop :=
  Forall (fun c => c <> 0 /\ c <> newline /\ c <> question) l /\ (length l < 127)%nat.

Lemma edit_plain l : forall line rest w,
  Forall (fun c => c <> 0 /\ c <> newline /\ c <> question) l -> (length (line ++ l) < 127)%nat ->
  edit (l ++ newline :: rest) line w = (Some (line ++ l, rest), w).
Proof.
  induction l as [|c l IH]; intros line rest w Hl Hn; cbn [app edit]; rewrite length_app in Hn;
    rewrite (proj2 (Nat.ltb_lt _ _)) by (cbn in Hn; lia).
  - by rewrite app_nil_r.
  - apply Forall_cons in Hl as [(_ & H1 & H2) Hl]. rewrite !(proj2 (Z.eqb_neq _ _)) by done.
    rewrite IH by (done || (rewrite !length_app; cbn in *; lia)). by rewrite <- app_assoc.
Qed.

Lemma edit_typed p : forall line rest w,
  Forall (fun c => c <> 0 /\ c <> newline /\ c <> question) p -> (length (line ++ p) < 127)%nat ->
  edit (p ++ rest) line w = edit rest (line ++ p) w.
Proof.
  induction p as [|c p IH]; intros line rest w Hp Hn; cbn [app]; [by rewrite app_nil_r|].
  apply Forall_cons in Hp as [(_ & H1 & H2) Hp]. rewrite length_app in Hn. cbn [edit].
  rewrite (proj2 (Nat.ltb_lt _ _)) by (cbn in Hn; lia). rewrite !(proj2 (Z.eqb_neq _ _)) by done.
  rewrite IH by (done || (rewrite !length_app; cbn in *; lia)). by rewrite <- app_assoc.
Qed.

Definition typed (ls : list (list Z)) : list Z := mjoin ((fun l => l ++ [newline]) <$> ls).

Lemma length_typed ls : (length ls <= length (typed ls))%nat.
Proof.
  induction ls as [|l ls IH]; [done|].
  change (typed (l :: ls)) with ((l ++ [newline]) ++ typed ls).
  rewrite !length_app. cbn [length]. lia.
Qed.

Lemma nonzero_typed ls : Forall plain ls -> Forall (fun c => c <> 0) (typed ls).
Proof.
  unfold typed. induction 1 as [|l ls [Hl _] _ IH]; [constructor|].
  cbn [fmap list_fmap mjoin list_join]. apply Forall_app. split; [|exact IH].
  apply Forall_app. split; [|by repeat constructor].
  eapply Forall_impl; [exact Hl|]. by intros c [? _].
Qed.

Lemma getCommand_edit input w : (forall w, length (stack_bytes w) = 128%nat) ->
  Forall (fun c => c <> 0) input -> getCommand commands input w = edit input [] (show_prompt w).
Proof. intros Hs Hi. unfold getCommand. apply getCommand_loop_edit; try done. cbn. lia. Qed.

Lemma enter_loop_ok ls rest : forall fuel w, (forall w, length (stack_bytes w) = 128%nat) ->
  Forall (fun l => plain l /\ l <> exit_text) ls -> Forall (fun c => c <> 0) rest ->
  (length ls < fuel)%nat ->
  enter_loop commands fuel (typed ls ++ exit_text ++ newline :: rest) w =
    w ← fold_res (fun l w => run_line l (show_prompt w)) ls w; Ok (true, rest, show_prompt w).
Proof.
  induction ls as [|l ls IH]; intros [|fuel] w Hs Hls Hr Hf; cbn in Hf; try lia; cbn [enter_loop].
  - change (typed []) with (@nil Z). cbn [app fold_res].
    rewrite getCommand_edit by (done || (repeat constructor; done)).
    rewrite (edit_plain exit_text) by (repeat constructor; done). done.
  - apply Forall_cons in Hls as [[[Hl Hn] Hne] Hls].
    change (typed (l :: ls)) with ((l ++ [newline]) ++ typed ls). rewrite <- !app_assoc.
    assert (Forall (fun c => c <> 0) (typed ls ++ exit_text ++ newline :: rest)) as Hnz.
    { apply Forall_app. split; [apply nonzero_typed; eapply Forall_impl; [exact Hls|]; by intros ? [? _]|].
      by repeat constructor. }
    rewrite getCommand_edit; [|done|].
    2:{ apply Forall_app. split; [eapply Forall_impl; [exact Hl|]; by intros ? [? _]|by constructor]. }
    cbn [app]. rewrite edit_plain by done. cbn [app fold_res]. unfold run_line at 2.
    case_decide as Hh.
    + rewrite show_names_ok. apply IH; done || lia.
    + rewrite decide_False by done. rewrite run_all_ok.
      destruct (fold_res _ _ _) as [w1| | |]; [|done..]. apply IH; done || lia.
Qed.
End reference.

(** C40: The monitor.  [getCommand] is the line editor [edit], whatever the stack
    held before: it never writes outside its buffer.  A prefix of a single
    command that is completed with a question mark is that command.  A session
    of plain lines runs, for each line, all commands of that name in the order
    of their registration, or prints their names for "help", and ends at
    "exit"; if one of the commands does not come back, neither does the session,
    and nothing after it is run. *)
Theorem monitor_correct {W : Type} `{MonitorWorld W} (commands : list CommandPair) w :
  (forall w, length (stack_bytes w) = 128%nat) ->
  (forall input, Forall (fun c => c <> 0) input ->
     getCommand commands input w = edit commands input [] (show_prompt w)) /\
  (forall p n rest, plain p -> candidates commands p = [n] -> (length n < 127)%nat ->
     Forall (fun c => c <> 0) rest ->
     getCommand commands (p ++ question :: newline :: rest) w =
       (Some (n, rest), print (drop (length p) n) (show_prompt w))) /\
  (forall ls rest, Forall (fun l => plain l /\ l <> exit_text) ls -> Forall (fun c => c <> 0) rest ->
     enter commands (typed ls ++ exit_text ++ newline :: rest) w =
       w ← fold_res (fun l w => run_line commands l (show_prompt w)) ls (print entering_text w);
       Ok (true, rest, show_prompt w)).
Proof.
  intros Hs. split; [|split].
  - intros input Hi. by apply getCommand_edit.
  - intros p n rest [Hp Hlp] Hc Hn Hr. rewrite getCommand_edit; [|done|].
    2:{ apply Forall_app. split; [eapply Forall_impl; [exact Hp|]; by intros ? [? _]|by repeat constructor]. }
    rewrite edit_typed by done. cbn [app edit]. rewrite (proj2 (Nat.ltb_lt _ _)) by done.
    change (question =? question) with true. rewrite Hc, take_ge by lia.
    cbn [edit]. rewrite (proj2 (Nat.ltb_lt _ _)) by done. done.
  - intros ls rest Hls Hr. apply enter_loop_ok; try done.
    pose proof (length_typed ls) as Hle.
    rewrite !length_app. cbn. lia.
Qed.

(** Typing "heap" runs the two commands of that name in the order they were
    registered, and the one at 7, "up", never comes back. *)
Lemma monitor_correct_witness :
  let world := {| print := fun (t w : list Z) => w;
                  run_command := fun c _ w => if c =? 7 then NoFuel else Ok (w ++ [c]);
                  stack_bytes := fun _ => replicate 128 7 |} in
  let commands := registerCommand 7 [117; 112] (registerCommand 8 [104; 101; 97; 112]
                    (registerCommand 9 [104; 101; 97; 112] [])) in
  enter (H := world) commands (typed [[104; 101; 97; 112]] ++ exit_text ++ [newline]) [] =
    Ok (true, [], [9; 8]) /\
  enter (H := world) commands (typed [[117; 112]; [104; 101; 97; 112]] ++ exit_text ++ [newline]) [] =
    NoFuel.
Proof.
  intros world commands.
  destruct (monitor_correct (H := world) commands [] ltac:(done)) as (_ & _ & Hs).
  split.
  - rewrite (Hs [[104; 101; 97; 112]] []); [reflexivity| |constructor].
    repeat (constructor; [split; [split; [repeat (constructor; [done|]); constructor|cbn; lia]|done]|]).
    constructor.
  - rewrite (Hs [[117; 112]; [104; 101; 97; 112]] []); [reflexivity| |constructor].
    repeat (constructor; [split; [split; [repeat (constructor; [done|]); constructor|cbn; lia]|done]|]).
    constructor.
Defined.
